(* ===== verification/_CoqProject ===== *)
-Q . S2P
Prelude.v
Eloop.v
Cp.v
Wpabuf.v
Common.v
EapCommon.v
EapServer.v
EapControl.v
EapSafety.v
EapAuthority.v
EapMethods.v
EapProperties.v
Aes.v
Hash.v
HashProperties.v
WpaCommon.v
WpaIe.v
WpaAuth.v
WpaElements.v
WpaSteps.v
WpaRun.v
WpaSafety.v
WpaEvents.v
WpaProperties.v
EapolAuth.v
EapolPort.v
EapolEap.v
EapolProperties.v
Ieee8021x.v
Ieee8021xProperties.v
RadiusMsg.v
RadiusAttrs.v
RadiusKeys.v
RadiusServer.v
RadiusClient.v
RadiusReplies.v
RadiusAuthority.v
RadiusQueue.v
RadiusAp.v
RadiusAccess.v
RadiusRequest.v
RadiusEap.v
RadiusProperties.v
RadiusClientProperties.v
