(* ===== verification/Prelude.v ===== *)
(** * Verification of hostapd: the authenticator

    This library models and verifies the part of hostapd that decides whether
    a station may use the network: the EAP server, the IEEE 802.1X
    authenticator, the WPA authenticator, the RADIUS authentication server, the
    RADIUS client and what they stand on.  This file, the root, holds the documentation of the whole development and the
    prelude the other files share.

    ** The program, and how its parts interact

    A frame of a station reaches [ieee802_1x_receive] (ap/ieee802_1x.c).  EAP
    packets go to the IEEE 802.1X machines of the station (eapol_auth), which
    run the EAP server (eap_server), which runs EAP methods; the result is an
    open or shut port and a master key.  Where the EAP server is external, the
    access point sends the EAP messages to it in Access-Requests (the RADIUS
    client, radius/radius_client.c) and gives what an authentic response holds
    to the machines of the station.  The RADIUS server (radius) runs the
    EAP server too, for the stations of other access points, and answers with
    the EAP messages and the key.  EAPOL-Key frames go to the WPA
    authenticator (ap/wpa_auth.c), which proves with the 4-way handshake that
    the station knows the master key, and installs the pairwise and the group
    keys.  All machines keep their timers in the event loop (utils/eloop.c),
    pass messages in buffers (utils/wpabuf.c), and compute with the functions
    of src/crypto.  A MACsec port has instead the controlled port machine of
    pae/ieee802_1x_cp.c.

    ** The files

    - Prelude.v: record update, commands, loops with fuel, tactics.
    - Eloop.v: the timeout queue of utils/eloop.c and os_reltime of utils/os.h.
    - Wpabuf.v: utils/wpabuf.c, wpabuf.h and the big-endian accessors of
      utils/common.h; checked reads ([rd]) of a buffer.
    - Common.v: hexadecimal text of utils/common.c.
    - Cp.v: pae/ieee802_1x_cp.c, every state and transition; the KaY and the
      SecY are the interface [KayOps].
    - EapCommon.v: eap_common/eap_common.c: packets and ERP TLVs.
    - EapServer.v: eap_server/eap_server.c: the 31 states of the EAP full
      authenticator; methods, callbacks and hash functions are the interfaces
      [EapMethods], [EapolCallbacks] and [ErpCrypto].  EapControl.v proves its
      progress, EapSafety.v the absence of undefined behaviour,
      EapAuthority.v on whose authority it reports success, and
      EapProperties.v the properties of whole executions.
    - EapMethods.v: EAP-Identity and EAP-GTC as instances of [EapMethods].
    - Aes.v: CMAC, key wrap, CTR, CBC and SIV of src/crypto over a block
      cipher, the interface [AesCipher].
    - Hash.v: MD5, SHA-1, SHA-256, HMAC, the key derivation functions and RC4
      of src/crypto; HashProperties.v proves them equal to the standards'
      definitions.
    - EapolAuth.v: eapol_auth/eapol_auth_sm.c, its six machines; the EAP
      server is the interface [EapEngine].  EapolPort.v has the abstract
      specification of the port, EapolEap.v makes the server of EapServer.v an
      instance of the interface, EapolProperties.v has the properties.
    - Ieee8021x.v: the EAPOL frames of a station (ap/ieee802_1x.c, part of
      sta_info.c); Ieee8021xProperties.v its properties.
    - WpaCommon.v: common/defs.h, wpa_common.c, wpa_common.h and the key data
      parser of ap/wpa_auth_ie.c.
    - WpaIe.v: the WPA and RSN elements of common/wpa_common.c and
      ap/wpa_auth_ie.c, parsed and written.
    - WpaAuth.v: ap/wpa_auth.c, with wpa_validate_wpa_ie of ap/wpa_auth_ie.c,
      the callbacks of ap/wpa_auth_glue.c and ap/tkip_countermeasures.c: the
      PTK, PTK group and group key machines of all stations, their run loop,
      received frames, timers and events ([wpa_event_step], [wpa_run]).
      WpaElements.v has the properties of elements and Key Data.  WpaSteps.v
      shows what one step of a machine does to the part of the state that
      decides ([ptk_move], [group_move]), WpaRun.v cuts a run of the machines
      into small steps and bounds it by a measure, WpaSafety.v has the
      invariant of the installed keys, WpaEvents.v shows that every event
      keeps it, and WpaProperties.v has the properties of whole runs.
    - RadiusMsg.v: radius/radius.c, in a monad of computations that may run
      out of memory or stop at undefined behaviour ([run], [stop]).
      RadiusAttrs.v says what a message holds ([holds], [decodes]) and what
      the operations do to it, in a logic of weakest preconditions ([wp]);
      RadiusKeys.v does so for the keys.
    - RadiusServer.v: radius/radius_server.c; the EAP server of a session is
      the interface [EapEngine] with [RadiusEngine].  RadiusReplies.v has what
      its replies hold, RadiusAuthority.v the invariant of its sessions,
      RadiusEap.v makes the server of EapServer.v an instance, and
      RadiusProperties.v has the properties of messages and of whole runs.
    - RadiusClient.v: radius/radius_client.c: the queue of requests, its timer
      and its handlers; RadiusQueue.v has the invariant of the queue and the
      termination of the timer.  RadiusAp.v: the RADIUS part of
      ap/ieee802_1x.c, which writes Access-Requests and reads the responses.
      RadiusAccess.v shows what a response does to a station, RadiusRequest.v
      what a request holds, and RadiusClientProperties.v has the properties.

    ** How the code is written here

    A C structure is a record; an assignment is the setter of a member; a
    statement over a state is a function of the state, and a handler the
    sequence of its statements ([;;], [::=], [WHEN], [IF]).  [SM_STATE(M, S)]
    is the command [M_S_Enter], [SM_STEP(M)] is [M_Step].  Octets are
    integers, text and frames lists of octets; a pointer into a buffer is its
    offset.  Reads through a pointer go through [rd], which has no result
    outside the buffer; what C code would not survive sets [fault].  Machine
    integers wrap where the code lets them ([u8], [u32], [i64]...).  What
    the environment answers (memory, random numbers, time, the driver) is an
    argument or a class of functions, so a theorem holds for all its answers.

    ** What the theorems show

    - Which keys are used: a pairwise key that is installed has been derived
      from a master key of its station and verifies the MIC of a frame
      received from it, in every run of the WPA authenticator
      ([installed_key_authentic]); what association settles on is configured
      ([association_negotiates]); the group key arrives as it was sent
      ([group_key_delivered]).
    - Who opens the port: a station is authorised only on the authority of its
      EAP server, of the configuration, of the 4-way handshake or of a cached
      key ([station_authorised], [eapol_eap_authority],
      [eap_success_authority]); the RADIUS server accepts only what its EAP
      server accepted or a MAC address with its password
      ([radius_accept_authority]), and the access point opens the port and
      takes a key from a server only on an authentic Access-Accept that answers
      the request of that station ([radius_response_authority]), with the key
      that the server sent ([radius_msk_agreement]); the lower layer is told what the machine says
      ([eapol_port_coherent]); ERP messages cannot be replayed
      ([eap_erp_no_replay]); the MACsec port follows its machine
      ([cp_controlled_port]).
    - Nothing breaks: no run of the EAP server faults or loops
      ([eap_server_no_fault], [eap_step_total]), nor does the WPA
      authenticator loop ([machines_always_return]); no received frame makes a
      parser read outside it ([frames_in_bounds], [eap_parsers_in_bounds],
      [received_octets_in_bounds]);
      the timer of the RADIUS client returns ([radius_timer_returns]);
      and the exceptions found, where it does ([macsec_reads_outside],
      [eap_received_null_method], [radius_short_mac_outside],
      [radius_session_dangling], [radius_renewal_dangling], ...).
    - The machinery is right: timers are served in order
      ([eloop_serves_earliest]), buffers refine byte strings
      ([wpabuf_refines]), CMAC, hashes, HMAC and the derivation functions
      equal the standards ([omac1_aes_vector_cmac], [hash_vectors_exact],
      [hmac_prf_exact]), encryption and decryption are inverse
      ([aes_siv_exact], [aes_unwrap_exact]), messages are read as they were
      written ([eap_msg_roundtrip], [send_receive], [rsn_element_roundtrip]);
      RADIUS messages are parsed and found valid exactly as the standards say
      ([radius_parse_exact], [radius_verify_exact]), and Access-Accept
      delivers the EAP message and the key ([access_accept_delivers]), as
      Access-Request delivers the station's EAP message
      ([access_request_delivers]).

    ** Fuel

    Loops of the source that are not structural run with fuel, and a run out
    of fuel is visible ([None], [stuck] or [fault]); termination theorems show
    that it does not happen: 15 iterations for a run of the EAP server
    ([eap_step_total]), 4296 for the normalisation of a timeout
    ([carry_usec_norm]), 256 for one run of a station's WPA machines
    ([step_fuel]; the measure [mu] of WpaRun.v is at most 137 and the group's
    rank adds a few), nested three deep ([nest_fuel]: a station's run can
    rekey the group, which runs the other stations, whose runs refuse to run
    it again), the length of the data and one for the EAP-Message attributes of a
    RADIUS message, of which each takes at least an octet, twice the length of
    the queue and two for the timer of the RADIUS client ([timer_fuel],
    [radius_timer_returns]), the number of attributes and one for a search of
    the Class attributes.  Parsers use the length of the buffer, which every
    iteration shortens.

    ** What is not modelled

    The build is that of a default hostapd with CONFIG_ERP and
    CONFIG_IEEE80211W; each file names the options it leaves out (FT, PeerKey,
    WPS, Hotspot 2.0, P2P, mesh, WNM).  Sockets, files, drivers, control
    interfaces, logging and configuration parsing are input and output and are
    left out.  Modules beside the authentication of a station are left out
    too: the supplicant (wpa_supplicant, rsn_supp, eap_peer), RADIUS accounting
    and dynamic authorization (radius_das.c), TLS and the EAP methods on it,
    WPS, P2P, the KaY of MACsec, beacons and hardware modes.
*)

From stdpp Require Export base tactics decidable list numbers relations.
From Stdlib Require Export ZArith Lia.

#[global] Open Scope Z_scope.

(** ** Record update

    A C struct is a [Record]; an assignment to a member is the [setter] of
    that member.  Each record declares its eta expansion once ([Eta]); the
    setter of a projection is then found by instance search. *)

Class Eta (R : Type) := eta : R -> R.

Class Setter {R T : Type} (proj : R -> T) := setter : (T -> T) -> R -> R.
Arguments setter {R T} proj {_} _ _.
#[global] Hint Mode Setter - - + : typeclass_instances.

Ltac build_setter R T proj :=
  let e := constr:(_ : Eta R) in
  let g := fresh "g" in
  let r := fresh "r" in
  intros g r;
  let b := eval hnf in e in
  let b := eval cbv beta in (b r) in
  let b := eval pattern (proj r) in b in
  lazymatch b with
  | ?k _ => let t := eval cbv beta in (k (g (proj r))) in exact t
  end.

#[global] Hint Extern 0 (@Setter ?R ?T ?proj) => build_setter R T proj
  : typeclass_instances.

(** ** Commands

    A C statement over a state [S] is a function [S -> S].  The combinators
    below are the statement forms the source uses; a handler is a sequence
    of them in the order of the C statements. *)

Definition cmd (S : Type) : Type := S -> S.

Declare Scope cmd_scope.
Delimit Scope cmd_scope with cmd.
Bind Scope cmd_scope with cmd.

Definition skip {S : Type} : cmd S := fun s => s.

Definition seq_cmd {S : Type} (c1 c2 : cmd S) : cmd S := fun s => c2 (c1 s).

(** [x = v;] where [v] does not read the state. *)
Definition assign {S T : Type} (f : S -> T) `{!Setter f} (v : T) : cmd S :=
  setter f (fun _ => v).

(** [x = e;] where [e] reads the state. *)
Definition assign_from {S T : Type} (f : S -> T) `{!Setter f} (e : S -> T) : cmd S :=
  fun s => setter f (fun _ => e s) s.

(** [x op= e;] where only [x] itself is read. *)
Definition update {S T : Type} (f : S -> T) `{!Setter f} (g : T -> T) : cmd S :=
  setter f g.

Definition when {S : Type} (p : S -> bool) (c : cmd S) : cmd S :=
  fun s => if p s then c s else s.

Definition ite {S : Type} (p : S -> bool) (c1 c2 : cmd S) : cmd S :=
  fun s => if p s then c1 s else c2 s.

Notation "c1 ;; c2" := (seq_cmd c1 c2)
  (at level 100, c2 at level 200, right associativity) : cmd_scope.
Notation "f ::= v" := (assign f v) (at level 70, no associativity) : cmd_scope.
Notation "f <~ e" := (assign_from f e) (at level 70, no associativity) : cmd_scope.
Notation "'IF' p 'THEN' c1 'ELSE' c2" := (ite p c1%cmd c2%cmd)
  (at level 99, p at level 50, c1 at level 99, c2 at level 99) : cmd_scope.
Notation "'WHEN' p 'DO' c" := (when p c%cmd)
  (at level 99, p at level 50, c at level 99) : cmd_scope.


(** [s->r.f = v;], the member [f] of a nested structure [r]. *)
Definition assign_in {S R T : Type} (r : S -> R) `{!Setter r} (f : R -> T) `{!Setter f}
    (v : T) : cmd S :=
  setter r (setter f (fun _ => v)).
Definition assign_in_from {S R T : Type} (r : S -> R) `{!Setter r} (f : R -> T) `{!Setter f}
    (e : S -> T) : cmd S :=
  fun s => setter r (setter f (fun _ => e s)) s.
Notation "r ∷ f ::= v" := (assign_in r f v) (at level 70, f at next level, no associativity)
  : cmd_scope.
Notation "r ∷ f <~ e" := (assign_in_from r f e) (at level 70, f at next level, no associativity)
  : cmd_scope.

Arguments skip {S} _ /.
Arguments seq_cmd {S} c1%_cmd c2%_cmd _ /.
Arguments assign {S T} f {_} v _ /.
Arguments assign_from {S T} f {_} e _ /.
Arguments update {S T} f {_} g _ /.
Arguments assign_in {S R T} r {_} f {_} v _ /.
Arguments assign_in_from {S R T} r {_} f {_} e _ /.
Arguments when {S} p c%_cmd _ /.
Arguments ite {S} p c1%_cmd c2%_cmd _ /.

(** *** Frames

    [Frame v f]: assignments to the member [f] do not change the view [v] of
    the state.  The instances are found by computation; [frames v] removes
    all such assignments under [v]. *)

Class Frame {S T V : Type} (v : S -> V) (f : S -> T) (i : Setter f) :=
  frame g s : v (@setter S T f i g s) = v s.
Arguments frame {S T V} v f i {_} g s.
#[global] Hint Extern 0 (Frame _ _ _) => (intros ? ?; reflexivity) : typeclass_instances.

Ltac open_cmds :=
  cbv beta delta [seq_cmd assign assign_from update assign_in assign_in_from skip].

Ltac frames v :=
  repeat match goal with
  | |- context [v (@setter ?S ?T ?f ?i ?g ?s)] => rewrite (frame v f i g s)
  end.

(** ** State machine macros (utils/state_machine.h)

    [SM_ENTRY], [SM_ENTRY_M] and [SM_ENTRY_MA] differ in the debug message
    and in how the name of the state variable is formed. *)

Section state_machine.
Context {S St : Type} `{!EqDecision St}.
Context (state : S -> St) `{!Setter state}.
Context (changed : S -> bool) `{!Setter changed}.

Definition SM_ENTRY (target : St) (global : bool) : cmd S :=
  (WHEN (fun s => negb global || negb (bool_decide (state s = target)))
     DO (changed ::= true) ;;
   state ::= target)%cmd.
End state_machine.
Arguments SM_ENTRY {S St _} state {_} changed {_} target global _ /.

(** A pointer that may be NULL is an [option]. *)
Definition non_null {A : Type} (p : option A) : bool :=
  match p with Some _ => true | None => false end.

(** Steps that may fail, or abort, are chained with [let?]. *)
Notation "'let?' x := e 'in' f" :=
  (match e with Some x => f | None => None end)
  (at level 10, x pattern, e at level 200, f at level 200).

(** ** Machine integers *)

Definition u8 (z : Z) : Z := z mod 2 ^ 8.
Definition u16 (z : Z) : Z := z mod 2 ^ 16.
Definition u32 (z : Z) : Z := z mod 2 ^ 32.
Definition u64 (z : Z) : Z := z mod 2 ^ 64.
Definition i32 (z : Z) : Z := (z + 2 ^ 31) mod 2 ^ 32 - 2 ^ 31.
Definition i64 (z : Z) : Z := (z + 2 ^ 63) mod 2 ^ 64 - 2 ^ 63.

Lemma u8_range z : 0 <= u8 z < 256.
Proof. unfold u8. apply Z.mod_pos_bound. lia. Qed.

Lemma u16_range z : 0 <= u16 z < 65536.
Proof. unfold u16. apply Z.mod_pos_bound. lia. Qed.

Lemma u32_range z : 0 <= u32 z < 2 ^ 32.
Proof. unfold u32. apply Z.mod_pos_bound. lia. Qed.

Lemma u8_small z : 0 <= z < 256 -> u8 z = z.
Proof. unfold u8. intros. apply Z.mod_small. lia. Qed.

Lemma u16_small z : 0 <= z < 65536 -> u16 z = z.
Proof. unfold u16. intros. apply Z.mod_small. lia. Qed.

Lemma u32_small z : 0 <= z < 2 ^ 32 -> u32 z = z.
Proof. unfold u32. intros. apply Z.mod_small. lia. Qed.

Lemma i64_small z : - 2 ^ 63 <= z < 2 ^ 63 -> i64 z = z.
Proof. unfold i64. intros. rewrite Z.mod_small; lia. Qed.

Create HintDb width.
#[export] Hint Resolve u8_range u16_range u32_range : width.


(** ** Loops

    [do_while fuel body again] is [do body while (again);].  The result is
    [None] when the fuel runs out; [do_while_terminates] turns a decreasing
    measure into a result, and [do_while_more_fuel] says that the result does
    not depend on the fuel. *)

Section loops.
Context {S : Type} (body : S -> S) (again : S -> bool).

Fixpoint do_while (fuel : nat) (s : S) : option S :=
  match fuel with
  | O => None
  | Datatypes.S fuel =>
      let s := body s in
      if again s then do_while fuel s else Some s
  end.

Lemma do_while_more_fuel n m s r :
  (n <= m)%nat -> do_while n s = Some r -> do_while m s = Some r.
Proof.
  revert m s; induction n as [|n IH]; intros m s Hle H; [done|].
  destruct m as [|m]; [lia|]. simpl in *.
  destruct (again (body s)); [|done]. apply IH; [lia|done].
Qed.

(** An invariant of the loop's states and a measure that drops at every
    further iteration give termination. *)
Lemma do_while_terminates (P : S -> Prop) (mu : S -> nat) s :
  P s ->
  (forall s, P s -> again (body s) = true -> P (body s) /\ (mu (body s) < mu s)%nat) ->
  exists r, do_while (Datatypes.S (mu s)) s = Some r.
Proof.
  intros HP Hstep.
  enough (forall n s, P s -> (mu s < n)%nat -> exists r, do_while n s = Some r)
    as Hall by (apply Hall; [done|lia]).
  clear HP s. induction n as [|n IH]; intros s HP Hlt; [lia|]. simpl.
  destruct (again (body s)) eqn:Ha; [|eauto].
  destruct (Hstep s HP Ha) as [HP' Hmu]. apply IH; [done|lia].
Qed.

Lemma do_while_inv (P : S -> Prop) fuel s r :
  P s -> (forall s, P s -> P (body s)) -> do_while fuel s = Some r -> P r.
Proof.
  revert s; induction fuel as [|n IH]; intros s HP Hstep H; [done|].
  simpl in H. destruct (again (body s)); [eauto|]. simplify_eq. auto.
Qed.

(** The last iteration. *)
Lemma do_while_last (P : S -> Prop) fuel s r :
  P s -> (forall s, P s -> again (body s) = true -> P (body s)) -> do_while fuel s = Some r ->
  exists s', P s' /\ r = body s' /\ again r = false.
Proof.
  revert s; induction fuel as [|n IH]; intros s HP Hstep H; [done|].
  simpl in H. destruct (again (body s)) eqn:Ha; [eauto|]. simplify_eq. eauto.
Qed.

Lemma do_while_exit fuel s r : do_while fuel s = Some r -> again r = false.
Proof.
  revert s; induction fuel as [|n IH]; intros s H; [done|].
  simpl in H. destruct (again (body s)) eqn:Ha; [eauto|]. by simplify_eq.
Qed.
End loops.

(** ** Tactics *)

(** Split a boolean hypothesis into its atoms. *)
Ltac bool_hyps :=
  repeat match goal with
  | H : _ && _ = true |- _ => apply andb_prop in H; destruct H
  | H : _ || _ = false |- _ => apply orb_false_elim in H; destruct H
  | H : negb _ = true |- _ => apply negb_true_iff in H
  | H : negb _ = false |- _ => apply negb_false_iff in H
  | H : Z.ltb _ _ = true |- _ => apply Z.ltb_lt in H
  | H : Z.ltb _ _ = false |- _ => apply Z.ltb_ge in H
  | H : Z.leb _ _ = true |- _ => apply Z.leb_le in H
  | H : Z.leb _ _ = false |- _ => apply Z.leb_gt in H
  | H : Z.eqb _ _ = true |- _ => apply Z.eqb_eq in H
  | H : Z.eqb _ _ = false |- _ => apply Z.eqb_neq in H
  | H : bool_decide _ = true |- _ => apply bool_decide_eq_true in H
  | H : bool_decide _ = false |- _ => apply bool_decide_eq_false in H
  end.

(** Case analysis on every boolean or match the goal is stuck on. *)
Ltac case_goal :=
  repeat match goal with
  | |- context [if ?b then _ else _] => destruct b eqn:?
  | |- context [match ?x with _ => _ end] => destruct x eqn:?
  end.

(** Case analysis on the conditional commands of a handler, outermost first.
    The state a condition is tested in is left unreduced: reducing nested
    updates before the case split makes conversion blow up. *)
Ltac cmd_cases :=
  cbv beta delta [seq_cmd];
  repeat match goal with
  | |- context [@when ?S ?p ?c ?s] =>
      change (@when S p c s) with (if p s then c s else s);
      let b := eval cbv beta in (p s) in
      change (p s) with b; destruct b eqn:?; cbv beta
  | |- context [@ite ?S ?p ?c1 ?c2 ?s] =>
      change (@ite S p c1 c2 s) with (if p s then c1 s else c2 s);
      let b := eval cbv beta in (p s) in
      change (p s) with b; destruct b eqn:?; cbv beta
  end.
