(* ===== verification/Eloop.v ===== *)
(** * The event loop's timeout queue (src/src/utils/eloop.c)

    [eloop.timeout] is a list of registered timeouts kept in order of their
    absolute expiry time; equal times are served in registration order.  A
    timeout is identified by its handler and two context pointers.  The clock
    ([os_get_reltime]) is the field [now]. *)

From S2P Require Import Prelude.
From Stdlib Require Import Sorting.Sorted.

(** ** Time arithmetic (src/src/utils/os.h) *)

Record os_reltime := mk_reltime { sec : Z; usec : Z }.

#[global] Instance os_reltime_eq_dec : EqDecision os_reltime.
Proof. solve_decision. Defined.

Definition os_reltime_before (a b : os_reltime) : bool :=
  (sec a <? sec b) || ((sec a =? sec b) && (usec a <? usec b)).

Definition os_reltime_sub (a b : os_reltime) : os_reltime :=
  let s := sec a - sec b in
  let u := usec a - usec b in
  if u <? 0 then mk_reltime (s - 1) (u + 1000000) else mk_reltime s u.

(** A time the code itself produces has its microseconds in range. *)
Definition reltime_norm (t : os_reltime) : Prop := 0 <= usec t < 1000000.

Definition reltime_us (t : os_reltime) : Z := sec t * 1000000 + usec t.

Lemma os_reltime_before_us a b :
  reltime_norm a -> reltime_norm b ->
  os_reltime_before a b = (reltime_us a <? reltime_us b).
Proof.
  unfold os_reltime_before, reltime_norm, reltime_us. intros.
  destruct (Z.ltb_spec (sec a) (sec b)), (Z.eqb_spec (sec a) (sec b)),
    (Z.ltb_spec (usec a) (usec b)); simpl; symmetry;
    first [apply Z.ltb_lt | apply Z.ltb_ge]; lia.
Qed.

Lemma os_reltime_sub_us a b :
  reltime_us (os_reltime_sub a b) = reltime_us a - reltime_us b.
Proof. unfold os_reltime_sub, reltime_us. case_goal; simpl; lia. Qed.

Lemma os_reltime_sub_norm a b :
  reltime_norm a -> reltime_norm b -> reltime_norm (os_reltime_sub a b).
Proof.
  unfold os_reltime_sub, reltime_norm. intros. case_goal; simpl; bool_hyps; lia.
Qed.

(** [while (time.usec >= 1000000) { time.sec++; time.usec -= 1000000; }]:
    the fuel bounds the number of iterations. *)
Fixpoint carry_usec (fuel : nat) (t : os_reltime) : os_reltime :=
  match fuel with
  | O => t
  | S fuel =>
      if 1000000 <=? usec t
      then carry_usec fuel (mk_reltime (i64 (sec t + 1)) (usec t - 1000000))
      else t
  end.

(** 4296 iterations are enough for a normalised clock and a 32-bit offset. *)
Definition carry_fuel : nat := 4296.

Lemma carry_usec_norm fuel t :
  0 <= usec t < (Z.of_nat fuel + 1) * 1000000 -> reltime_norm (carry_usec fuel t).
Proof.
  revert t; induction fuel as [|n IH]; intros t H; simpl; [unfold reltime_norm; lia|].
  destruct (Z.leb_spec 1000000 (usec t)); [apply IH; simpl; lia|].
  unfold reltime_norm; lia.
Qed.

Lemma carry_usec_us fuel t :
  - 2 ^ 63 <= sec t -> sec t + Z.of_nat fuel < 2 ^ 63 ->
  reltime_us (carry_usec fuel t) = reltime_us t.
Proof.
  revert t; induction fuel as [|n IH]; intros t Hlo Hhi; simpl; [done|].
  destruct (1000000 <=? usec t); [|done].
  rewrite Nat2Z.inj_succ in Hhi.
  rewrite i64_small by lia. rewrite IH by (simpl; lia).
  unfold reltime_us; simpl; lia.
Qed.

Lemma carry_fuel_val : Z.of_nat carry_fuel = 4296.
Proof. reflexivity. Qed.

#[global] Opaque carry_usec carry_fuel.

Section eloop.
(** [H] is the type of handler functions. *)
Context {H : Type} `{!EqDecision H}.

(** [ELOOP_ALL_CTX] is [(void * ) -1]; a context pointer is its address. *)
Definition ELOOP_ALL_CTX : Z := 2 ^ 64 - 1.

Record eloop_timeout := mk_timeout {
  time : os_reltime;
  eloop_ctx : Z;
  user_ctx : Z;
  handler : H
}.

Record eloop_data := mk_eloop {
  now : os_reltime;
  timeout : list eloop_timeout
}.

Definition set_timeout (e : eloop_data) (l : list eloop_timeout) : eloop_data :=
  mk_eloop (now e) l.

(** The loop that keeps the list in order of increasing time. *)
Fixpoint insert_timeout (t : eloop_timeout) (l : list eloop_timeout)
    : list eloop_timeout :=
  match l with
  | [] => [t]
  | tmp :: l' =>
      if os_reltime_before (time t) (time tmp) then t :: tmp :: l'
      else tmp :: insert_timeout t l'
  end.

(** [eloop_register_timeout]; the result is the return value, and the
    timeout is dropped when the seconds wrap around. *)
Definition eloop_register_timeout (secs usecs : Z) (h : H) (ed ud : Z)
    (e : eloop_data) : eloop_data :=
  let now_sec := sec (now e) in
  let s := i64 (now_sec + secs) in
  if s <? now_sec then e
  else
    let t := carry_usec carry_fuel (mk_reltime s (usec (now e) + usecs)) in
    set_timeout e (insert_timeout (mk_timeout t ed ud h) (timeout e)).

Definition cancel_match (h : H) (ed ud : Z) (t : eloop_timeout) : bool :=
  bool_decide (handler t = h) &&
  ((eloop_ctx t =? ed) || (ed =? ELOOP_ALL_CTX)) &&
  ((user_ctx t =? ud) || (ud =? ELOOP_ALL_CTX)).

Definition exact_match (h : H) (ed ud : Z) (t : eloop_timeout) : bool :=
  bool_decide (handler t = h) && (eloop_ctx t =? ed) && (user_ctx t =? ud).

(** [eloop_cancel_timeout]: the number of removed timeouts and the rest. *)
Definition eloop_cancel_timeout (h : H) (ed ud : Z) (e : eloop_data)
    : Z * eloop_data :=
  let rest := List.filter (fun t => negb (cancel_match h ed ud t)) (timeout e) in
  (Z.of_nat (length (timeout e)) - Z.of_nat (length rest), set_timeout e rest).

Fixpoint remove_first (p : eloop_timeout -> bool) (l : list eloop_timeout)
    : option (eloop_timeout * list eloop_timeout) :=
  match l with
  | [] => None
  | t :: l' =>
      if p t then Some (t, l')
      else match remove_first p l' with
           | Some (r, l'') => Some (r, t :: l'')
           | None => None
           end
  end.

(** [eloop_cancel_timeout_one]: removed flag, remaining time, new queue. *)
Definition eloop_cancel_timeout_one (h : H) (ed ud : Z) (e : eloop_data)
    : Z * os_reltime * eloop_data :=
  match remove_first (exact_match h ed ud) (timeout e) with
  | Some (t, rest) =>
      let remaining :=
        if os_reltime_before (now e) (time t)
        then os_reltime_sub (time t) (now e) else mk_reltime 0 0 in
      (1, remaining, set_timeout e rest)
  | None => (0, mk_reltime 0 0, e)
  end.

Definition eloop_is_timeout_registered (h : H) (ed ud : Z) (e : eloop_data) : bool :=
  existsb (exact_match h ed ud) (timeout e).

(** [eloop_deplete_timeout]/[eloop_replenish_timeout] reschedule the first
    matching timeout when it is later/earlier than requested. *)
Definition reschedule (sooner : bool) (req_secs req_usecs : Z) (h : H) (ed ud : Z)
    (e : eloop_data) : Z * eloop_data :=
  match List.find (exact_match h ed ud) (timeout e) with
  | Some tmp =>
      let requested := mk_reltime req_secs req_usecs in
      let remaining := os_reltime_sub (time tmp) (now e) in
      if (if sooner then os_reltime_before requested remaining
          else os_reltime_before remaining requested)
      then (1, eloop_register_timeout req_secs req_usecs h ed ud
                 (snd (eloop_cancel_timeout h ed ud e)))
      else (0, e)
  | None => (-1, e)
  end.

Definition eloop_deplete_timeout := reschedule true.
Definition eloop_replenish_timeout := reschedule false.

(** The part of an iteration of [eloop_run] that serves timeouts: the first
    timeout is removed and its handler called when its time has come. *)
Definition eloop_run_timeout (e : eloop_data) : option (eloop_timeout * eloop_data) :=
  match timeout e with
  | t :: rest =>
      if negb (os_reltime_before (now e) (time t)) then Some (t, set_timeout e rest)
      else None
  | [] => None
  end.

(** How long an iteration may sleep before the first timeout. *)
Definition eloop_wait (e : eloop_data) : option os_reltime :=
  match timeout e with
  | [] => None
  | t :: _ =>
      Some (if os_reltime_before (now e) (time t)
            then os_reltime_sub (time t) (now e) else mk_reltime 0 0)
  end.

(** ** Well-formed queues *)

Definition time_le (t1 t2 : eloop_timeout) : Prop :=
  reltime_us (time t1) <= reltime_us (time t2).

#[global] Instance time_le_preorder : PreOrder time_le.
Proof. split; unfold time_le; [intros ?; lia | intros ???; lia]. Qed.

(** Every time is normalised and the list is sorted by time. *)
Record eloop_wf (e : eloop_data) : Prop := {
  wf_now : reltime_norm (now e);
  wf_norm : Forall (fun t => reltime_norm (time t)) (timeout e);
  wf_sorted : StronglySorted time_le (timeout e)
}.

Lemma insert_timeout_Forall (P : eloop_timeout -> Prop) t l :
  P t -> Forall P l -> Forall P (insert_timeout t l).
Proof.
  induction 2; simpl; [by repeat constructor|]. case_goal; repeat constructor; auto.
Qed.

Lemma insert_timeout_sorted t l :
  reltime_norm (time t) -> Forall (fun t => reltime_norm (time t)) l ->
  StronglySorted time_le l -> StronglySorted time_le (insert_timeout t l).
Proof.
  intros Ht. induction l as [|tmp l IH]; intros Hn Hs; simpl; [by repeat constructor|].
  apply Forall_cons in Hn as [Htmp Hn]. apply StronglySorted_inv in Hs as [Hs Hle].
  rewrite os_reltime_before_us by done.
  destruct (Z.ltb_spec (reltime_us (time t)) (reltime_us (time tmp))) as [Hlt|Hge].
  - constructor; [by constructor|].
    constructor; [unfold time_le; lia|].
    eapply Forall_impl; [exact Hle|]. unfold time_le. simpl. lia.
  - constructor; [by apply IH|]. apply insert_timeout_Forall; [unfold time_le; lia|done].
Qed.

Lemma insert_timeout_perm t l : Permutation (insert_timeout t l) (t :: l).
Proof.
  induction l as [|tmp l IH]; simpl; [done|]. destruct (os_reltime_before _ _); [done|].
  rewrite IH. apply Permutation_swap.
Qed.

Lemma sublist_sorted (p : eloop_timeout -> bool) l :
  StronglySorted time_le l -> StronglySorted time_le (List.filter p l).
Proof.
  induction 1 as [|t l Hs IH Hle]; simpl; [constructor|].
  destruct (p t); [|done]. constructor; [done|].
  rewrite !List.Forall_forall in *. intros x Hx.
  apply filter_In in Hx as [Hx _]. by apply Hle.
Qed.

Lemma remove_first_spec p l t rest :
  remove_first p l = Some (t, rest) ->
  exists l1 l2, l = l1 ++ t :: l2 /\ rest = l1 ++ l2 /\ p t = true /\
    Forall (fun x => p x = false) l1.
Proof.
  revert rest; induction l as [|x l IH]; intros rest Heq; simpl in *; [done|].
  destruct (p x) eqn:Hx.
  - simplify_eq. exists [], rest. repeat split; auto.
  - destruct (remove_first p l) as [[r l'']|]; simplify_eq.
    destruct (IH _ eq_refl) as (l1 & l2 & -> & -> & ? & ?).
    exists (x :: l1), l2. repeat split; auto.
Qed.

Lemma registered_time_norm e secs usecs :
  reltime_norm (now e) -> 0 <= usecs < 2 ^ 32 ->
  reltime_norm (carry_usec carry_fuel (mk_reltime secs (usec (now e) + usecs))).
Proof.
  intros [H1 H2] Hu. apply carry_usec_norm. simpl.
  rewrite carry_fuel_val. lia.
Qed.

Lemma register_wf secs usecs h ed ud e :
  0 <= usecs < 2 ^ 32 -> eloop_wf e ->
  eloop_wf (eloop_register_timeout secs usecs h ed ud e).
Proof.
  intros Hu [Hnow Hn Hs]. unfold eloop_register_timeout.
  destruct (_ <? _); [done|]. split; simpl; [done| |].
  - apply insert_timeout_Forall; [by apply registered_time_norm|done].
  - apply insert_timeout_sorted; [by apply registered_time_norm|done|done].
Qed.

Lemma filter_wf p e : eloop_wf e -> eloop_wf (set_timeout e (List.filter p (timeout e))).
Proof.
  intros [Hnow Hn Hs]. split; simpl; [done| |by apply sublist_sorted].
  rewrite List.Forall_forall in *. intros x [Hx _]%filter_In. auto.
Qed.

Lemma cancel_wf h ed ud e : eloop_wf e -> eloop_wf (snd (eloop_cancel_timeout h ed ud e)).
Proof. apply filter_wf. Qed.

(** No matching timeout is left, and none appears. *)
Lemma cancelled_gone h ed ud e :
  List.filter (exact_match h ed ud) (timeout (snd (eloop_cancel_timeout h ed ud e))) = [].
Proof.
  cbn [snd eloop_cancel_timeout set_timeout timeout].
  induction (timeout e) as [|t l IH]; [done|]. cbn [List.filter].
  destruct (cancel_match h ed ud t) eqn:Ec; cbn [negb]; [exact IH|]. cbn [List.filter].
  destruct (exact_match h ed ud t) eqn:Et; [exfalso|exact IH].
  unfold exact_match in Et. unfold cancel_match in Ec. apply andb_prop in Et as [Et E3].
  apply andb_prop in Et as [E1 E2]. rewrite E1, E2, E3 in Ec. discriminate Ec.
Qed.

Lemma cancelled_sub p h ed ud e :
  List.filter p (timeout e) = [] ->
  List.filter p (timeout (snd (eloop_cancel_timeout h ed ud e))) = [].
Proof.
  cbn [snd eloop_cancel_timeout set_timeout timeout].
  induction (timeout e) as [|t l IH]; [done|]. cbn [List.filter].
  destruct (p t) eqn:Ep; [discriminate|]. intros Hl.
  destruct (negb _); cbn [List.filter]; [rewrite Ep|]; by apply IH.
Qed.

Lemma StronglySorted_remove l1 t l2 :
  StronglySorted time_le (l1 ++ t :: l2) -> StronglySorted time_le (l1 ++ l2).
Proof.
  induction l1 as [|x l1 IH]; simpl; intros Hs; apply StronglySorted_inv in Hs as [Hs Hle].
  - done.
  - constructor; [by apply IH|].
    apply Forall_app in Hle as [Hle1 [_ Hle2]%Forall_cons]. apply Forall_app. by split.
Qed.

Lemma cancel_one_wf h ed ud e :
  eloop_wf e -> eloop_wf (snd (eloop_cancel_timeout_one h ed ud e)).
Proof.
  intros [Hnow Hn Hs]. unfold eloop_cancel_timeout_one.
  destruct (remove_first _ _) as [[t rest]|] eqn:Hr; [|by split].
  apply remove_first_spec in Hr as (l1 & l2 & Heq & -> & _ & _).
  rewrite Heq in Hn, Hs. split; simpl; [done| |by eapply StronglySorted_remove].
  apply Forall_app in Hn as [Hn1 [_ Hn2]%Forall_cons]. apply Forall_app. by split.
Qed.

(** *** What the client observes *)

Inductive eloop_op :=
  | OpRegister (secs usecs : Z) (h : H) (ed ud : Z)
  | OpCancel (h : H) (ed ud : Z)
  | OpCancelOne (h : H) (ed ud : Z)
  | OpDeplete (secs usecs : Z) (h : H) (ed ud : Z)
  | OpReplenish (secs usecs : Z) (h : H) (ed ud : Z)
  | OpRunTimeout
  | OpTick (d : Z).

Definition op_ok (o : eloop_op) : Prop :=
  match o with
  | OpRegister _ us _ _ _ | OpDeplete _ us _ _ _ | OpReplenish _ us _ _ _ =>
      0 <= us < 2 ^ 32
  | OpTick d => 0 <= d
  | _ => True
  end.

(** The clock moves forward by [d] microseconds. *)
Definition advance (d : Z) (t : os_reltime) : os_reltime :=
  let us := reltime_us t + d in mk_reltime (us / 1000000) (us mod 1000000).

Definition eloop_step (o : eloop_op) (e : eloop_data) : eloop_data :=
  match o with
  | OpRegister s us h ed ud => eloop_register_timeout s us h ed ud e
  | OpCancel h ed ud => snd (eloop_cancel_timeout h ed ud e)
  | OpCancelOne h ed ud => snd (eloop_cancel_timeout_one h ed ud e)
  | OpDeplete s us h ed ud => snd (eloop_deplete_timeout s us h ed ud e)
  | OpReplenish s us h ed ud => snd (eloop_replenish_timeout s us h ed ud e)
  | OpRunTimeout =>
      match eloop_run_timeout e with Some (_, e') => e' | None => e end
  | OpTick d => mk_eloop (advance d (now e)) (timeout e)
  end.

Lemma reschedule_wf sooner s us h ed ud e :
  0 <= us < 2 ^ 32 -> eloop_wf e -> eloop_wf (snd (reschedule sooner s us h ed ud e)).
Proof.
  intros Hus Hwf. unfold reschedule. destruct (List.find _ _); [|done].
  destruct (if sooner then _ else _); [|done].
  by apply register_wf, cancel_wf.
Qed.

Lemma run_timeout_wf e t e' :
  eloop_wf e -> eloop_run_timeout e = Some (t, e') -> eloop_wf e'.
Proof.
  intros [Hnow Hn Hs] Hr. unfold eloop_run_timeout in Hr.
  destruct (timeout e) as [|t0 l]; [done|]. destruct (negb _); simplify_eq.
  apply Forall_cons in Hn as [_ Hn]. apply StronglySorted_inv in Hs as [Hs _].
  by split.
Qed.

Lemma eloop_step_wf o e : op_ok o -> eloop_wf e -> eloop_wf (eloop_step o e).
Proof.
  intros Hok Hwf. destruct o; simpl in *.
  - by apply register_wf.
  - by apply cancel_wf.
  - by apply cancel_one_wf.
  - by apply reschedule_wf.
  - by apply reschedule_wf.
  - destruct (eloop_run_timeout e) as [[t e']|] eqn:Hr; [by eapply run_timeout_wf|done].
  - destruct Hwf as [Hnow Hn Hs]. split; simpl; [|done|done].
    unfold advance, reltime_norm. simpl. apply Z.mod_pos_bound. lia.
Qed.

Definition eloop_steps (os : list eloop_op) (e : eloop_data) : eloop_data :=
  fold_left (fun e o => eloop_step o e) os e.

Lemma eloop_steps_wf os e : Forall op_ok os -> eloop_wf e -> eloop_wf (eloop_steps os e).
Proof.
  revert e; induction os as [|o os IH]; intros e Hok Hwf; simpl; [done|].
  apply Forall_cons in Hok as [Ho Hos]. apply IH; [done|by apply eloop_step_wf].
Qed.

Definition eloop_init (t : os_reltime) : eloop_data := mk_eloop t [].

Lemma eloop_init_wf t : reltime_norm t -> eloop_wf (eloop_init t).
Proof. intros. split; simpl; [done|constructor|constructor]. Qed.

(** The new timeout goes after every timeout that is not later and before
    every later one: ties are served in the order of registration. *)
Lemma insert_timeout_split t l :
  reltime_norm (time t) -> Forall (fun t => reltime_norm (time t)) l ->
  StronglySorted time_le l ->
  exists l1 l2, l = l1 ++ l2 /\ insert_timeout t l = l1 ++ t :: l2 /\
    Forall (fun x => reltime_us (time x) <= reltime_us (time t)) l1 /\
    Forall (fun x => reltime_us (time t) < reltime_us (time x)) l2.
Proof.
  intros Ht. induction l as [|x l IH]; intros Hn Hs; simpl.
  - exists [], []. repeat split; constructor.
  - apply Forall_cons in Hn as [Hx Hn]. apply StronglySorted_inv in Hs as [Hs Hle].
    rewrite os_reltime_before_us by done.
    destruct (Z.ltb_spec (reltime_us (time t)) (reltime_us (time x))) as [Hlt|Hge].
    + exists [], (x :: l). repeat split; [constructor|]. constructor; [done|].
      eapply Forall_impl; [exact Hle|]. unfold time_le. simpl. lia.
    + destruct (IH Hn Hs) as (l1 & l2 & -> & -> & H1 & H2).
      exists (x :: l1), l2. repeat split; [|done]. by constructor.
Qed.

Lemma cancel_rest h ed ud e x :
  In x (timeout (snd (eloop_cancel_timeout h ed ud e))) <->
  In x (timeout e) /\ cancel_match h ed ud x = false.
Proof. simpl. rewrite filter_In, negb_true_iff. done. Qed.

Lemma exact_cancel h ed ud t : exact_match h ed ud t = true -> cancel_match h ed ud t = true.
Proof.
  unfold exact_match, cancel_match. intros. bool_hyps. subst.
  by rewrite bool_decide_true, !Z.eqb_refl.
Qed.

Lemma cancel_not_registered h ed ud e :
  eloop_is_timeout_registered h ed ud (snd (eloop_cancel_timeout h ed ud e)) = false.
Proof.
  unfold eloop_is_timeout_registered. apply not_true_iff_false.
  rewrite existsb_exists. intros (x & [_ Hx]%cancel_rest & Hm).
  apply exact_cancel in Hm. congruence.
Qed.

Lemma register_In secs usecs h ed ud e :
  sec (now e) <= i64 (sec (now e) + secs) ->
  exists t, In (mk_timeout t ed ud h)
               (timeout (eloop_register_timeout secs usecs h ed ud e)) /\
    t = carry_usec carry_fuel
          (mk_reltime (i64 (sec (now e) + secs)) (usec (now e) + usecs)).
Proof.
  intros Hle. unfold eloop_register_timeout.
  destruct (Z.ltb_spec (i64 (sec (now e) + secs)) (sec (now e))); [lia|].
  eexists. split; [|reflexivity]. simpl.
  eapply Permutation_in; [symmetry; apply insert_timeout_perm|]. by left.
Qed.
End eloop.

Arguments eloop_timeout : clear implicits.
Arguments eloop_data : clear implicits.
Arguments eloop_op : clear implicits.

#[export] Hint Resolve register_wf cancel_wf eloop_init_wf : core.

(** ** Properties *)

(** C16: whatever sequence of registrations, cancellations, reschedulings,
    clock ticks and dispatches a program performs, the queue stays sorted by
    expiry time, so that a dispatch only ever runs a timeout that is due and
    that no other pending timeout precedes. *)
Theorem eloop_serves_earliest {H : Type} `{!EqDecision H} (os : list (eloop_op H))
    (t0 : os_reltime) (t : eloop_timeout H) (e e' : eloop_data H) :
  reltime_norm t0 -> Forall op_ok os -> eloop_steps os (eloop_init t0) = e ->
  eloop_run_timeout e = Some (t, e') ->
  reltime_us (time t) <= reltime_us (now e) /\
  Forall (fun x => reltime_us (time t) <= reltime_us (time x)) (timeout e') /\
  Permutation (timeout e) (t :: timeout e').
Proof.
  intros Ht0 Hos <- Hr. set (e := eloop_steps _ _) in *.
  assert (eloop_wf e) as [Hnow Hn Hs] by (apply eloop_steps_wf; auto).
  unfold eloop_run_timeout in Hr. destruct (timeout e) as [|t1 l]; [done|].
  apply Forall_cons in Hn as [Ht1 Hn]. apply StronglySorted_inv in Hs as [Hs Hle].
  rewrite os_reltime_before_us in Hr by done.
  destruct (Z.ltb_spec (reltime_us (now e)) (reltime_us (time t1))); simplify_eq/=.
  repeat split; [lia| |done]. exact Hle.
Qed.

(** a registered timeout is queued behind every pending timeout that does
    not expire later and ahead of those that do (first come, first served
    among equals), expires exactly the requested time after now, and the
    other timeouts keep their order; registration is refused only when the
    seconds overflow. *)
Theorem eloop_register_fifo {H : Type} `{!EqDecision H} (e : eloop_data H)
    (secs usecs : Z) (h : H) (ed ud : Z) :
  eloop_wf e -> 0 <= sec (now e) -> 0 <= secs < 2 ^ 32 -> 0 <= usecs < 2 ^ 32 ->
  sec (now e) + secs + 4296 < 2 ^ 63 ->
  exists t l1 l2,
    timeout e = l1 ++ l2 /\
    timeout (eloop_register_timeout secs usecs h ed ud e)
      = l1 ++ mk_timeout t ed ud h :: l2 /\
    reltime_us t = reltime_us (now e) + secs * 1000000 + usecs /\
    Forall (fun x => reltime_us (time x) <= reltime_us t) l1 /\
    Forall (fun x => reltime_us t < reltime_us (time x)) l2.
Proof.
  intros Hwf Hnow Hs Hu Hov. unfold eloop_register_timeout.
  rewrite i64_small by lia.
  destruct (Z.ltb_spec (sec (now e) + secs) (sec (now e))); [lia|].
  set (t := carry_usec _ _).
  assert (reltime_norm t) by (apply registered_time_norm; [apply Hwf|done]).
  destruct (insert_timeout_split (mk_timeout t ed ud h) (timeout e))
    as (l1 & l2 & -> & Hins & Ha & Hb); [done|apply Hwf|apply Hwf|].
  exists t, l1, l2. repeat split; [done| |done|done].
  unfold t. rewrite carry_usec_us by (rewrite ?carry_fuel_val; simpl; lia).
  unfold reltime_us; simpl; lia.
Qed.

(** [eloop_cancel_timeout] removes exactly the timeouts of that handler
    whose contexts match (or are wild-carded), returns how many there were,
    and leaves the others in their order, so that the timeout is no longer
    registered. *)
Theorem eloop_cancel_exact {H : Type} `{!EqDecision H} (e : eloop_data H)
    (h : H) (ed ud : Z) :
  let (n, e') := eloop_cancel_timeout h ed ud e in
  n = Z.of_nat (length (List.filter (cancel_match h ed ud) (timeout e))) /\
  timeout e' = List.filter (fun t => negb (cancel_match h ed ud t)) (timeout e) /\
  eloop_is_timeout_registered h ed ud e' = false /\
  (forall h' ed' ud', h' <> h ->
     eloop_is_timeout_registered h' ed' ud' e' = eloop_is_timeout_registered h' ed' ud' e).
Proof.
  pose proof (cancel_not_registered h ed ud e) as Hc.
  unfold eloop_cancel_timeout in *. simpl in Hc.
  repeat split; [|done|].
  - pose proof (List.filter_length (cancel_match h ed ud) (timeout e)). lia.
  - intros h' ed' ud' Hne. unfold eloop_is_timeout_registered. simpl.
    induction (timeout e) as [|x l IH]; simpl; [done|].
    destruct (cancel_match h ed ud x) eqn:Hx; simpl; [|by rewrite IH by
      (apply (cancel_not_registered h ed ud (mk_eloop (now e) l)))].
    rewrite IH by (apply (cancel_not_registered h ed ud (mk_eloop (now e) l))).
    unfold cancel_match in Hx. bool_hyps. unfold exact_match.
    by rewrite bool_decide_false by congruence.
Qed.

(** ** Witnesses *)

Definition demo_loop : eloop_data nat :=
  eloop_steps [OpRegister 2 0 0%nat 7 0; OpRegister 1 500000 1%nat 7 0;
               OpRegister 1 1500000 2%nat 7 0; OpTick 1600000]
    (eloop_init (mk_reltime 10 900000)).

Lemma eloop_serves_earliest_witness :
  exists t e', eloop_run_timeout demo_loop = Some (t, e') /\
    reltime_us (time t) <= reltime_us (now demo_loop).
Proof.
  eexists _, _. split; [vm_compute; reflexivity|].
  eapply (eloop_serves_earliest
    [OpRegister 2 0 0%nat 7 0; OpRegister 1 500000 1%nat 7 0;
     OpRegister 1 1500000 2%nat 7 0; OpTick 1600000] (mk_reltime 10 900000)).
  - split; vm_compute; [discriminate|reflexivity].
  - repeat constructor; simpl; lia.
  - reflexivity.
  - vm_compute. reflexivity.
Defined.

Lemma eloop_register_fifo_witness :
  exists t l1 l2, timeout demo_loop = l1 ++ l2 /\
    timeout (eloop_register_timeout 1 400000 9%nat 7 0 demo_loop)
      = l1 ++ mk_timeout t 7 0 9%nat :: l2.
Proof.
  destruct (eloop_register_fifo demo_loop 1 400000 9%nat 7 0)
    as (t & l1 & l2 & Ha & Hb & _); [| | | | |eauto].
  - apply eloop_steps_wf; [repeat constructor; simpl; lia|].
    apply eloop_init_wf. split; vm_compute; [discriminate|reflexivity].
  - vm_compute; discriminate.
  - lia.
  - lia.
  - vm_compute; reflexivity.
Defined.
