(* ===== verification/Cp.v ===== *)
(** * The Controlled Port state machine of MACsec (src/src/pae/ieee802_1x_cp.c)

    [struct ieee802_1x_cp_sm] is the record [cp_sm]; each [SM_STATE(CP, X)] is
    the command [CP_X_Enter] and [SM_STEP(CP)] is [CP_Step].  The CP drives the
    key agreement entity (KaY) and the SecY through the functions of
    ieee802_1x_kay.c and ieee802_1x_secy_ops.c; they are the interface
    [KayOps].  Timeouts go to the event loop of Eloop.v.

    [enable_tx_sas] and [enable_rx_sas] call back into the CP while they run:
    they return how many times they called
    [ieee802_1x_cp_set_usingtransmitas]/[_set_usingreceivesas] followed by
    [ieee802_1x_cp_sm_step]. *)

From S2P Require Import Prelude.
From S2P Require Import Eloop.

(** ** Constants and types (common/ieee802_1x_defs.h, pae/ieee802_1x_kay.h) *)

Inductive validate_frames := Disabled | Checked | Strict.

Inductive confidentiality_offset :=
  | CONFIDENTIALITY_NONE | CONFIDENTIALITY_OFFSET_0
  | CONFIDENTIALITY_OFFSET_30 | CONFIDENTIALITY_OFFSET_50.

#[global] Instance validate_frames_eq_dec : EqDecision validate_frames.
Proof. solve_decision. Defined.
#[global] Instance confidentiality_offset_eq_dec : EqDecision confidentiality_offset.
Proof. solve_decision. Defined.

Definition CS_ID_GCM_AES_128 : Z := 0x0080020001000001.
Definition MKA_HELLO_TIME : Z := 2000.
Definition MKA_LIFE_TIME : Z := 6000.
Definition MKA_SAK_RETIRE_TIME : Z := 3000.

(** [struct ieee802_1x_mka_ki]: key identifier, a member identifier and a key
    number. *)
Record mka_ki := mk_ki { mi : list Z; kn : Z }.

#[global] Instance mka_ki_eq_dec : EqDecision mka_ki.
Proof. solve_decision. Defined.

(** The SecY and KaY functions the CP calls; a key identifier pointer that
    may be NULL is an [option]. *)
Class KayOps (K : Type) := {
  macsec_protect : K -> bool;
  macsec_encrypt : K -> bool;
  macsec_replay_protect : K -> bool;
  macsec_replay_window : K -> Z;
  macsec_validate : K -> validate_frames;
  secy_cp_control_enable_port : bool -> K -> K;
  secy_cp_control_protect_frames : bool -> K -> K;
  secy_cp_control_encrypt : bool -> K -> K;
  secy_cp_control_validate_frames : validate_frames -> K -> K;
  secy_cp_control_replay : bool -> Z -> K -> K;
  secy_cp_control_current_cipher_suite : Z -> K -> K;
  secy_cp_control_confidentiality_offset : confidentiality_offset -> K -> K;
  kay_set_latest_sa_attr : option mka_ki -> Z -> bool -> bool -> K -> K;
  kay_set_old_sa_attr : option mka_ki -> Z -> bool -> bool -> K -> K;
  kay_create_sas : option mka_ki -> K -> K;
  kay_delete_sas : option mka_ki -> K -> K;
  kay_enable_rx_sas : option mka_ki -> K -> K * nat;
  kay_enable_tx_sas : option mka_ki -> K -> K * nat;
  kay_enable_new_info : K -> K
}.

(** What the CP relies on for the state of the controlled port: the SecY keeps
    the last value it was given, and no other call touches it. *)
Class KayPort (K : Type) `{!KayOps K} := {
  port_open : K -> bool;
  port_enable b k : port_open (secy_cp_control_enable_port b k) = b;
  port_protect b k : port_open (secy_cp_control_protect_frames b k) = port_open k;
  port_encrypt b k : port_open (secy_cp_control_encrypt b k) = port_open k;
  port_validate v k : port_open (secy_cp_control_validate_frames v k) = port_open k;
  port_replay b w k : port_open (secy_cp_control_replay b w k) = port_open k;
  port_cs c k : port_open (secy_cp_control_current_cipher_suite c k) = port_open k;
  port_co c k : port_open (secy_cp_control_confidentiality_offset c k) = port_open k;
  port_latest i a t r k : port_open (kay_set_latest_sa_attr i a t r k) = port_open k;
  port_old i a t r k : port_open (kay_set_old_sa_attr i a t r k) = port_open k;
  port_create i k : port_open (kay_create_sas i k) = port_open k;
  port_delete i k : port_open (kay_delete_sas i k) = port_open k;
  port_rx i k : port_open (fst (kay_enable_rx_sas i k)) = port_open k;
  port_tx i k : port_open (fst (kay_enable_tx_sas i k)) = port_open k;
  port_info k : port_open (kay_enable_new_info k) = port_open k
}.

Inductive connect_type := PENDING | UNAUTHENTICATED | AUTHENTICATED | SECURE.

Inductive cp_states :=
  | CP_BEGIN | CP_INIT | CP_CHANGE | CP_ALLOWED | CP_AUTHENTICATED
  | CP_SECURED | CP_RECEIVE | CP_RECEIVING | CP_READY | CP_TRANSMIT
  | CP_TRANSMITTING | CP_ABANDON | CP_RETIRE.

#[global] Instance connect_type_eq_dec : EqDecision connect_type.
Proof. solve_decision. Defined.
#[global] Instance cp_states_eq_dec : EqDecision cp_states.
Proof. solve_decision. Defined.

(** The handlers the CP registers with the event loop. *)
Inductive cp_handler :=
  | ieee802_1x_cp_step_cb
  | ieee802_1x_cp_retire_when_timeout
  | ieee802_1x_cp_transmit_when_timeout.

#[global] Instance cp_handler_eq_dec : EqDecision cp_handler.
Proof. solve_decision. Defined.

Section cp.
Context {K : Type} `{!KayOps K}.

(** [struct ieee802_1x_cp_sm].  [self] is the address of the structure,
    [loop] the event loop, and [oom] tells whether the next allocation
    fails; they are the environment of the code. *)
Record cp_sm := mk_cp_sm {
  CP_state : cp_states;
  changed : bool;
  port_valid : bool;
  connect : connect_type;
  authorization_data : option (list Z);
  chgd_server : bool;
  elected_self : bool;
  cipher_offset : confidentiality_offset;
  cipher_suite : Z;
  new_sak : bool;
  distributed_ki : mka_ki;
  distributed_an : Z;
  using_receive_sas : bool;
  all_receiving : bool;
  server_transmitting : bool;
  using_transmit_sa : bool;
  lki : option mka_ki;
  lan : Z;
  ltx : bool;
  lrx : bool;
  oki : option mka_ki;
  oan : Z;
  otx : bool;
  orx : bool;
  protect_frames : bool;
  validate : validate_frames;
  replay_protect : bool;
  replay_window : Z;
  current_cipher_suite : Z;
  conf_offset : confidentiality_offset;
  controlled_port_enabled : bool;
  port_enabled : bool;
  transmit_when : Z;
  transmit_delay : Z;
  retire_when : Z;
  retire_delay : Z;
  kay : K;
  self : Z;
  loop : eloop_data cp_handler;
  oom : bool
}.

#[global] Instance eta_cp_sm : Eta cp_sm := fun s =>
  mk_cp_sm (CP_state s) (changed s) (port_valid s) (connect s)
    (authorization_data s) (chgd_server s) (elected_self s) (cipher_offset s)
    (cipher_suite s) (new_sak s) (distributed_ki s) (distributed_an s)
    (using_receive_sas s) (all_receiving s) (server_transmitting s)
    (using_transmit_sa s) (lki s) (lan s) (ltx s) (lrx s) (oki s) (oan s)
    (otx s) (orx s) (protect_frames s) (validate s) (replay_protect s)
    (replay_window s) (current_cipher_suite s) (conf_offset s)
    (controlled_port_enabled s) (port_enabled s) (transmit_when s)
    (transmit_delay s) (retire_when s) (retire_delay s) (kay s) (self s)
    (loop s) (oom s).

(** A call of a KaY or SecY function. *)
Definition call (f : cp_sm -> K -> K) : cmd cp_sm := kay <~ (fun sm => f sm (kay sm)).

Definition register (secs : cp_sm -> Z) (h : cp_handler) : cmd cp_sm :=
  loop <~ (fun sm => eloop_register_timeout (secs sm) 0 h (self sm) 0 (loop sm)).

Definition cancel (h : cp_handler) : cmd cp_sm :=
  loop <~ (fun sm => snd (eloop_cancel_timeout h (self sm) 0 (loop sm))).

(** ** Helpers *)

Definition changed_cipher (sm : cp_sm) : bool :=
  negb (bool_decide (conf_offset sm = cipher_offset sm)) ||
  negb (current_cipher_suite sm =? cipher_suite sm).

Definition changed_connect (sm : cp_sm) : bool :=
  negb (bool_decide (connect sm = SECURE)) || chgd_server sm || changed_cipher sm.

(** [ieee802_1x_cp_sm_step]: run [ieee802_1x_cp_step_run] from the loop. *)
Definition ieee802_1x_cp_sm_step : cmd cp_sm :=
  cancel ieee802_1x_cp_step_cb ;;
  register (fun _ => 0) ieee802_1x_cp_step_cb.

Definition ieee802_1x_cp_set_usingreceivesas (status : bool) : cmd cp_sm :=
  using_receive_sas ::= status.

Definition ieee802_1x_cp_set_usingtransmitas (status : bool) : cmd cp_sm :=
  using_transmit_sa ::= status.

(** [ieee802_1x_kay_enable_rx_sas(sm->kay, sm->lki)] with its callbacks. *)
Definition enable_rx_sas : cmd cp_sm := fun sm =>
  let '(k, n) := kay_enable_rx_sas (lki sm) (kay sm) in
  Nat.iter n (ieee802_1x_cp_set_usingreceivesas true ;; ieee802_1x_cp_sm_step)%cmd
    (setter kay (fun _ => k) sm).

Definition enable_tx_sas : cmd cp_sm := fun sm =>
  let '(k, n) := kay_enable_tx_sas (lki sm) (kay sm) in
  Nat.iter n (ieee802_1x_cp_set_usingtransmitas true ;; ieee802_1x_cp_sm_step)%cmd
    (setter kay (fun _ => k) sm).

Definition set_latest_sa_attr : cmd cp_sm :=
  call (fun sm => kay_set_latest_sa_attr (lki sm) (lan sm) (ltx sm) (lrx sm)).

Definition set_old_sa_attr : cmd cp_sm :=
  call (fun sm => kay_set_old_sa_attr (oki sm) (oan sm) (otx sm) (orx sm)).

(** ** State entry functions *)

Definition ENTRY (st : cp_states) : cmd cp_sm := SM_ENTRY CP_state changed st false.

Definition CP_INIT_Enter : cmd cp_sm :=
  ENTRY CP_INIT ;;
  controlled_port_enabled ::= false ;;
  call (fun sm => secy_cp_control_enable_port (controlled_port_enabled sm)) ;;
  port_valid ::= false ;;
  lki ::= None ;;
  ltx ::= false ;;
  lrx ::= false ;;
  oki ::= None ;;
  otx ::= false ;;
  orx ::= false ;;
  port_enabled ::= true ;;
  chgd_server ::= false.

Definition CP_CHANGE_Enter : cmd cp_sm :=
  ENTRY CP_CHANGE ;;
  port_valid ::= false ;;
  controlled_port_enabled ::= false ;;
  call (fun sm => secy_cp_control_enable_port (controlled_port_enabled sm)) ;;
  (WHEN (fun sm => non_null (lki sm))
    DO call (fun sm => kay_delete_sas (lki sm))) ;;
  (WHEN (fun sm => non_null (oki sm))
    DO call (fun sm => kay_delete_sas (oki sm))).

(** The SecY calls that [ALLOWED], [AUTHENTICATED] and [SECURED] end with. *)
Definition secy_frames : cmd cp_sm :=
  call (fun sm => secy_cp_control_protect_frames (protect_frames sm)) ;;
  call (fun sm => secy_cp_control_encrypt (macsec_encrypt (kay sm))) ;;
  call (fun sm => secy_cp_control_validate_frames (validate sm)) ;;
  call (fun sm => secy_cp_control_replay (replay_protect sm) (replay_window sm)).

Definition CP_ALLOWED_Enter : cmd cp_sm :=
  ENTRY CP_ALLOWED ;;
  protect_frames ::= false ;;
  replay_protect ::= false ;;
  validate ::= Checked ;;
  port_valid ::= false ;;
  controlled_port_enabled ::= true ;;
  call (fun sm => secy_cp_control_enable_port (controlled_port_enabled sm)) ;;
  secy_frames.

Definition CP_AUTHENTICATED_Enter : cmd cp_sm :=
  ENTRY CP_AUTHENTICATED ;;
  protect_frames ::= false ;;
  replay_protect ::= false ;;
  validate ::= Checked ;;
  port_valid ::= false ;;
  controlled_port_enabled ::= true ;;
  call (fun sm => secy_cp_control_enable_port (controlled_port_enabled sm)) ;;
  secy_frames.

Definition CP_SECURED_Enter : cmd cp_sm :=
  ENTRY CP_SECURED ;;
  chgd_server ::= false ;;
  protect_frames <~ (fun sm => macsec_protect (kay sm)) ;;
  replay_protect <~ (fun sm => macsec_replay_protect (kay sm)) ;;
  validate <~ (fun sm => macsec_validate (kay sm)) ;;
  current_cipher_suite <~ cipher_suite ;;
  call (fun sm => secy_cp_control_current_cipher_suite (current_cipher_suite sm)) ;;
  conf_offset <~ cipher_offset ;;
  port_valid ::= true ;;
  call (fun sm => secy_cp_control_confidentiality_offset (conf_offset sm)) ;;
  secy_frames.

(** [os_malloc] of the latest key identifier may fail: the handler then
    returns with [lki] NULL. *)
Definition CP_RECEIVE_Enter : cmd cp_sm :=
  ENTRY CP_RECEIVE ;;
  oki <~ lki ;;
  oan <~ lan ;;
  otx <~ ltx ;;
  orx <~ lrx ;;
  set_old_sa_attr ;;
  IF oom THEN lki ::= None
  ELSE
   (lki <~ (fun sm => Some (distributed_ki sm)) ;;
    lan <~ distributed_an ;;
    ltx ::= false ;;
    lrx ::= false ;;
    set_latest_sa_attr ;;
    call (fun sm => kay_create_sas (lki sm)) ;;
    enable_rx_sas ;;
    new_sak ::= false ;;
    all_receiving ::= false).

Definition CP_RECEIVING_Enter : cmd cp_sm :=
  ENTRY CP_RECEIVING ;;
  lrx ::= true ;;
  set_latest_sa_attr ;;
  transmit_when <~ transmit_delay ;;
  cancel ieee802_1x_cp_transmit_when_timeout ;;
  register (fun sm => transmit_when sm / 1000) ieee802_1x_cp_transmit_when_timeout ;;
  ieee802_1x_cp_sm_step ;;
  using_receive_sas ::= false ;;
  server_transmitting ::= false.

Definition CP_READY_Enter : cmd cp_sm :=
  ENTRY CP_READY ;;
  call (fun _ => kay_enable_new_info).

Definition CP_TRANSMIT_Enter : cmd cp_sm :=
  ENTRY CP_TRANSMIT ;;
  controlled_port_enabled ::= true ;;
  call (fun sm => secy_cp_control_enable_port (controlled_port_enabled sm)) ;;
  ltx ::= true ;;
  set_latest_sa_attr ;;
  enable_tx_sas ;;
  all_receiving ::= false ;;
  server_transmitting ::= false.

Definition CP_TRANSMITTING_Enter : cmd cp_sm :=
  ENTRY CP_TRANSMITTING ;;
  retire_when <~ (fun sm => if orx sm then retire_delay sm else 0) ;;
  otx ::= false ;;
  set_old_sa_attr ;;
  call (fun _ => kay_enable_new_info) ;;
  cancel ieee802_1x_cp_retire_when_timeout ;;
  register (fun sm => retire_when sm / 1000) ieee802_1x_cp_retire_when_timeout ;;
  using_transmit_sa ::= false.

Definition CP_ABANDON_Enter : cmd cp_sm :=
  ENTRY CP_ABANDON ;;
  lrx ::= false ;;
  set_latest_sa_attr ;;
  call (fun sm => kay_delete_sas (lki sm)) ;;
  lki ::= None ;;
  set_latest_sa_attr ;;
  new_sak ::= false.

Definition CP_RETIRE_Enter : cmd cp_sm :=
  ENTRY CP_RETIRE ;;
  oki ::= None ;;
  orx ::= false ;;
  otx ::= false ;;
  set_old_sa_attr.

(** ** SM_STEP(CP) *)

(** The switch on the state. *)
Definition CP_switch : cmd cp_sm := fun sm =>
  match CP_state sm with
  | CP_BEGIN => CP_INIT_Enter sm
  | CP_INIT => CP_CHANGE_Enter sm
  | CP_CHANGE =>
      match connect sm with
      | UNAUTHENTICATED => CP_ALLOWED_Enter sm
      | AUTHENTICATED => CP_AUTHENTICATED_Enter sm
      | SECURE => CP_SECURED_Enter sm
      | PENDING => sm
      end
  | CP_ALLOWED =>
      if negb (bool_decide (connect sm = UNAUTHENTICATED)) then CP_CHANGE_Enter sm else sm
  | CP_AUTHENTICATED =>
      if negb (bool_decide (connect sm = AUTHENTICATED)) then CP_CHANGE_Enter sm else sm
  | CP_SECURED =>
      if changed_connect sm then CP_CHANGE_Enter sm
      else if new_sak sm then CP_RECEIVE_Enter sm else sm
  | CP_RECEIVE => if using_receive_sas sm then CP_RECEIVING_Enter sm else sm
  | CP_RECEIVING =>
      ((WHEN (fun sm => new_sak sm || changed_connect sm) DO CP_ABANDON_Enter) ;;
       (WHEN (fun sm => negb (elected_self sm)) DO CP_READY_Enter) ;;
       (WHEN (fun sm => elected_self sm &&
                        (all_receiving sm || (transmit_when sm =? 0)))
          DO CP_TRANSMIT_Enter))%cmd sm
  | CP_TRANSMIT => if using_transmit_sa sm then CP_TRANSMITTING_Enter sm else sm
  | CP_TRANSMITTING =>
      if (retire_when sm =? 0) || changed_connect sm then CP_RETIRE_Enter sm else sm
  | CP_RETIRE =>
      if changed_connect sm then CP_CHANGE_Enter sm
      else if new_sak sm then CP_RECEIVE_Enter sm else sm
  | CP_READY =>
      ((WHEN (fun sm => new_sak sm || changed_connect sm) DO CP_RECEIVE_Enter) ;;
       (WHEN server_transmitting DO CP_TRANSMIT_Enter))%cmd sm
  | CP_ABANDON =>
      if changed_connect sm then CP_RETIRE_Enter sm
      else if new_sak sm then CP_RECEIVE_Enter sm else sm
  end.

Definition CP_Step : cmd cp_sm :=
  (WHEN (fun sm => negb (port_enabled sm)) DO CP_INIT_Enter) ;; CP_switch.

(** [ieee802_1x_cp_step_run]: at most 100 steps, fewer when a step leaves
    the state unchanged. *)
Fixpoint cp_step_loop (i : nat) (sm : cp_sm) : cp_sm :=
  match i with
  | O => sm
  | S i =>
      let prev_state := CP_state sm in
      let sm := CP_Step sm in
      if bool_decide (prev_state = CP_state sm) then sm else cp_step_loop i sm
  end.

Definition ieee802_1x_cp_step_run : cmd cp_sm := cp_step_loop 100.

(** ** Creation *)

Definition default_cs_id : Z := CS_ID_GCM_AES_128.

Definition zero_ki : mka_ki := mk_ki (replicate 12 0) 0.

(** [os_zalloc] of the structure. *)
Definition cp_zalloc (k : K) (addr : Z) (l : eloop_data cp_handler) (fails : bool) : cp_sm :=
  mk_cp_sm CP_BEGIN false false PENDING None false false CONFIDENTIALITY_NONE 0
    false zero_ki 0 false false false false None 0 false false None 0 false false
    false Disabled false 0 0 CONFIDENTIALITY_NONE false false 0 0 0 0 k addr l fails.

(** The assignments of [ieee802_1x_cp_sm_init] and its calls of the SecY. *)
Definition cp_defaults : cmd cp_sm :=
  port_valid ::= false ;;
  chgd_server ::= false ;;
  protect_frames <~ (fun sm => macsec_protect (kay sm)) ;;
  validate <~ (fun sm => macsec_validate (kay sm)) ;;
  replay_protect <~ (fun sm => macsec_replay_protect (kay sm)) ;;
  replay_window <~ (fun sm => macsec_replay_window (kay sm)) ;;
  controlled_port_enabled ::= false ;;
  lki ::= None ;;
  lrx ::= false ;;
  ltx ::= false ;;
  oki ::= None ;;
  orx ::= false ;;
  otx ::= false ;;
  current_cipher_suite ::= default_cs_id ;;
  cipher_suite ::= default_cs_id ;;
  cipher_offset ::= CONFIDENTIALITY_OFFSET_0 ;;
  conf_offset <~ cipher_offset ;;
  transmit_delay ::= MKA_LIFE_TIME ;;
  retire_delay ::= MKA_SAK_RETIRE_TIME ;;
  CP_state ::= CP_BEGIN ;;
  changed ::= false ;;
  authorization_data ::= None ;;
  secy_frames ;;
  call (fun sm => secy_cp_control_enable_port (controlled_port_enabled sm)) ;;
  call (fun sm => secy_cp_control_confidentiality_offset (conf_offset sm)).

Definition ieee802_1x_cp_sm_init (k : K) (addr : Z) (l : eloop_data cp_handler)
    (fails : bool) : option cp_sm :=
  if fails then None
  else Some ((cp_defaults ;; CP_INIT_Enter ;; CP_Step)%cmd (cp_zalloc k addr l fails)).

(** [ieee802_1x_cp_sm_deinit] frees the structure; what remains is the
    event loop without the CP's timeouts. *)
Definition ieee802_1x_cp_sm_deinit (sm : cp_sm) : eloop_data cp_handler :=
  loop ((cancel ieee802_1x_cp_retire_when_timeout ;;
         cancel ieee802_1x_cp_transmit_when_timeout ;;
         cancel ieee802_1x_cp_step_cb)%cmd sm).

(** ** Signals to the CP *)

Definition ieee802_1x_cp_connect_pending : cmd cp_sm := connect ::= PENDING.
Definition ieee802_1x_cp_connect_unauthenticated : cmd cp_sm := connect ::= UNAUTHENTICATED.
Definition ieee802_1x_cp_connect_authenticated : cmd cp_sm := connect ::= AUTHENTICATED.
Definition ieee802_1x_cp_connect_secure : cmd cp_sm := connect ::= SECURE.
Definition ieee802_1x_cp_signal_chgdserver : cmd cp_sm := chgd_server ::= true.
Definition ieee802_1x_cp_set_electedself (status : bool) : cmd cp_sm :=
  elected_self ::= status.
(** The data is copied into a zeroed allocation of [len] bytes. *)
Definition ieee802_1x_cp_set_authorizationdata (pdata : list Z) : cmd cp_sm :=
  authorization_data <~ (fun sm => if oom sm then None else Some pdata).
Definition ieee802_1x_cp_set_ciphersuite (cs : Z) : cmd cp_sm := cipher_suite ::= cs.
Definition ieee802_1x_cp_set_offset (o : confidentiality_offset) : cmd cp_sm :=
  cipher_offset ::= o.
Definition ieee802_1x_cp_signal_newsak : cmd cp_sm := new_sak ::= true.
Definition ieee802_1x_cp_set_distributedki (dki : mka_ki) : cmd cp_sm :=
  distributed_ki ::= dki.
Definition ieee802_1x_cp_set_distributedan (an : Z) : cmd cp_sm := distributed_an ::= an.
Definition ieee802_1x_cp_set_allreceiving (status : bool) : cmd cp_sm :=
  all_receiving ::= status.
Definition ieee802_1x_cp_set_servertransmitting (status : bool) : cmd cp_sm :=
  server_transmitting ::= status.

(** ** Timeout handlers *)

Definition cp_step_cb : cmd cp_sm := ieee802_1x_cp_step_run.

Definition cp_retire_when_timeout : cmd cp_sm :=
  retire_when ::= 0 ;; ieee802_1x_cp_step_run.

Definition cp_transmit_when_timeout : cmd cp_sm :=
  transmit_when ::= 0 ;; ieee802_1x_cp_step_run.

(** The dispatch of a handler by [eloop_run]. *)
Definition cp_handle (h : cp_handler) : cmd cp_sm :=
  match h with
  | ieee802_1x_cp_step_cb => cp_step_cb
  | ieee802_1x_cp_retire_when_timeout => cp_retire_when_timeout
  | ieee802_1x_cp_transmit_when_timeout => cp_transmit_when_timeout
  end.

Definition cp_eloop_run_timeout : cmd cp_sm := fun sm =>
  match eloop_run_timeout (loop sm) with
  | Some (t, l) => cp_handle (handler t) (setter loop (fun _ => l) sm)
  | None => sm
  end.

(** ** Executions

    Everything that happens to a CP after its creation: the signals above,
    the service of a timeout, and the environment (the clock, memory
    pressure, and the KaY acting on its own, which never touches the
    controlled port itself). *)

Inductive cp_event :=
  | EvPending | EvUnauthenticated | EvAuthenticated | EvSecure
  | EvChgdServer
  | EvElectedSelf (b : bool)
  | EvAuthorizationData (d : list Z)
  | EvCipherSuite (cs : Z)
  | EvOffset (o : confidentiality_offset)
  | EvNewSak
  | EvDistributedKi (ki : mka_ki)
  | EvDistributedAn (an : Z)
  | EvUsingReceiveSas (b : bool)
  | EvAllReceiving (b : bool)
  | EvServerTransmitting (b : bool)
  | EvUsingTransmitSa (b : bool)
  | EvSmStep
  | EvTimeout
  | EvTick (d : Z)
  | EvOom (b : bool)
  | EvKay (f : K -> K).

Definition cp_event_run (ev : cp_event) : cmd cp_sm :=
  match ev with
  | EvPending => ieee802_1x_cp_connect_pending
  | EvUnauthenticated => ieee802_1x_cp_connect_unauthenticated
  | EvAuthenticated => ieee802_1x_cp_connect_authenticated
  | EvSecure => ieee802_1x_cp_connect_secure
  | EvChgdServer => ieee802_1x_cp_signal_chgdserver
  | EvElectedSelf b => ieee802_1x_cp_set_electedself b
  | EvAuthorizationData d => ieee802_1x_cp_set_authorizationdata d
  | EvCipherSuite cs => ieee802_1x_cp_set_ciphersuite cs
  | EvOffset o => ieee802_1x_cp_set_offset o
  | EvNewSak => ieee802_1x_cp_signal_newsak
  | EvDistributedKi ki => ieee802_1x_cp_set_distributedki ki
  | EvDistributedAn an => ieee802_1x_cp_set_distributedan an
  | EvUsingReceiveSas b => ieee802_1x_cp_set_usingreceivesas b
  | EvAllReceiving b => ieee802_1x_cp_set_allreceiving b
  | EvServerTransmitting b => ieee802_1x_cp_set_servertransmitting b
  | EvUsingTransmitSa b => ieee802_1x_cp_set_usingtransmitas b
  | EvSmStep => ieee802_1x_cp_sm_step
  | EvTimeout => cp_eloop_run_timeout
  | EvTick d => loop <~ (fun sm => mk_eloop (advance d (now (loop sm))) (timeout (loop sm)))
  | EvOom b => oom ::= b
  | EvKay f => kay <~ (fun sm => f (kay sm))
  end.

Definition cp_run (evs : list cp_event) (sm : cp_sm) : cp_sm :=
  fold_left (fun sm ev => cp_event_run ev sm) evs sm.
End cp.

Arguments call {K} f _ /.
Arguments register {K} secs h _ /.
Arguments cancel {K} h _ /.
Arguments ENTRY {K} st _ /.
Arguments cp_sm : clear implicits.
Arguments cp_event : clear implicits.

Create Rewrite HintDb port.
#[export] Hint Rewrite @port_enable @port_protect @port_encrypt @port_validate
  @port_replay @port_cs @port_co @port_latest @port_old @port_create @port_delete
  @port_rx @port_tx @port_info : port.

(** ** The controlled port *)

Section control.
Context {K : Type} `{!KayOps K, !KayPort K}.
Implicit Types sm : cp_sm K.

(** What an observer of the port sees. *)
Record cp_view := mk_view {
  v_state : cp_states;
  v_valid : bool;
  v_ctl : bool;
  v_protect : bool;
  v_enabled : bool;
  v_secy : bool
}.

Definition view (sm : cp_sm K) : cp_view :=
  mk_view (CP_state sm) (port_valid sm) (controlled_port_enabled sm)
    (protect_frames sm) (port_enabled sm) (port_open (kay sm)).

Lemma iter_view n (c : cmd (cp_sm K)) sm :
  (forall sm, view (c sm) = view sm) -> view (Nat.iter n c sm) = view sm.
Proof. intros Hc. induction n as [|n IH]; simpl; [done|]. by rewrite Hc. Qed.

Ltac view_tac := intros; unfold view; cbn; autorewrite with port; try done.

Lemma sm_step_view sm : view (ieee802_1x_cp_sm_step sm) = view sm.
Proof. done. Qed.

Lemma enable_rx_view sm : view (enable_rx_sas sm) = view sm.
Proof.
  unfold enable_rx_sas. destruct (kay_enable_rx_sas _ _) as [k n] eqn:Hk.
  rewrite iter_view by done. unfold view; cbn.
  pose proof (port_rx (lki sm) (kay sm)) as Hp. rewrite Hk in Hp. cbn in Hp. by rewrite Hp.
Qed.

Lemma enable_tx_view sm : view (enable_tx_sas sm) = view sm.
Proof.
  unfold enable_tx_sas. destruct (kay_enable_tx_sas _ _) as [k n] eqn:Hk.
  rewrite iter_view by done. unfold view; cbn.
  pose proof (port_tx (lki sm) (kay sm)) as Hp. rewrite Hk in Hp. cbn in Hp. by rewrite Hp.
Qed.

Lemma INIT_view sm : view (CP_INIT_Enter sm) =
  mk_view CP_INIT false false (v_protect (view sm)) true false.
Proof. view_tac. Qed.

Lemma CHANGE_view sm : view (CP_CHANGE_Enter sm) =
  mk_view CP_CHANGE false false (v_protect (view sm)) (v_enabled (view sm)) false.
Proof.
  unfold CP_CHANGE_Enter. cmd_cases; view_tac.
Qed.

Lemma ALLOWED_view sm : view (CP_ALLOWED_Enter sm) =
  mk_view CP_ALLOWED false true false (v_enabled (view sm)) true.
Proof. view_tac. Qed.

Lemma AUTHENTICATED_view sm : view (CP_AUTHENTICATED_Enter sm) =
  mk_view CP_AUTHENTICATED false true false (v_enabled (view sm)) true.
Proof. view_tac. Qed.

Lemma SECURED_view sm : view (CP_SECURED_Enter sm) =
  mk_view CP_SECURED true (v_ctl (view sm)) (macsec_protect (kay sm))
    (v_enabled (view sm)) (v_secy (view sm)).
Proof. view_tac. Qed.

Lemma RECEIVE_view sm : view (CP_RECEIVE_Enter sm) =
  mk_view CP_RECEIVE (v_valid (view sm)) (v_ctl (view sm)) (v_protect (view sm))
    (v_enabled (view sm)) (v_secy (view sm)).
Proof.
  unfold CP_RECEIVE_Enter. cmd_cases; [view_tac|].
  match goal with |- context [enable_rx_sas ?s] =>
    transitivity (view (enable_rx_sas s)); [done|]; rewrite enable_rx_view end.
  view_tac.
Qed.

Lemma RECEIVING_view sm : view (CP_RECEIVING_Enter sm) =
  mk_view CP_RECEIVING (v_valid (view sm)) (v_ctl (view sm)) (v_protect (view sm))
    (v_enabled (view sm)) (v_secy (view sm)).
Proof. view_tac. Qed.

Lemma READY_view sm : view (CP_READY_Enter sm) =
  mk_view CP_READY (v_valid (view sm)) (v_ctl (view sm)) (v_protect (view sm))
    (v_enabled (view sm)) (v_secy (view sm)).
Proof. view_tac. Qed.

Lemma TRANSMIT_view sm : view (CP_TRANSMIT_Enter sm) =
  mk_view CP_TRANSMIT (v_valid (view sm)) true (v_protect (view sm)) (v_enabled (view sm)) true.
Proof.
  unfold CP_TRANSMIT_Enter. cbv beta delta [seq_cmd].
  match goal with |- context [enable_tx_sas ?s] =>
    transitivity (view (enable_tx_sas s)); [done|]; rewrite enable_tx_view end.
  view_tac.
Qed.

Lemma TRANSMITTING_view sm : view (CP_TRANSMITTING_Enter sm) =
  mk_view CP_TRANSMITTING (v_valid (view sm)) (v_ctl (view sm))
    (v_protect (view sm)) (v_enabled (view sm)) (v_secy (view sm)).
Proof. view_tac. Qed.

Lemma ABANDON_view sm : view (CP_ABANDON_Enter sm) =
  mk_view CP_ABANDON (v_valid (view sm)) (v_ctl (view sm)) (v_protect (view sm))
    (v_enabled (view sm)) (v_secy (view sm)).
Proof. view_tac. Qed.

Lemma RETIRE_view sm : view (CP_RETIRE_Enter sm) =
  mk_view CP_RETIRE (v_valid (view sm)) (v_ctl (view sm)) (v_protect (view sm))
    (v_enabled (view sm)) (v_secy (view sm)).
Proof. view_tac. Qed.

(** The invariant of the controlled port, by state. *)
Definition port_inv (v : cp_view) : Prop :=
  v_enabled v = true /\ v_secy v = v_ctl v /\
  match v_state v with
  | CP_BEGIN => False
  | CP_INIT | CP_CHANGE => v_valid v = false /\ v_ctl v = false
  | CP_ALLOWED | CP_AUTHENTICATED =>
      v_valid v = false /\ v_ctl v = true /\ v_protect v = false
  | CP_SECURED => v_valid v = true /\ v_ctl v = false
  | CP_TRANSMIT | CP_TRANSMITTING => v_valid v = true /\ v_ctl v = true
  | CP_RECEIVE | CP_RECEIVING | CP_READY | CP_ABANDON | CP_RETIRE => v_valid v = true
  end.

Ltac step_views :=
  repeat rewrite ?INIT_view, ?CHANGE_view, ?ALLOWED_view, ?AUTHENTICATED_view,
    ?SECURED_view, ?RECEIVE_view, ?RECEIVING_view, ?READY_view, ?TRANSMIT_view,
    ?TRANSMITTING_view, ?ABANDON_view, ?RETIRE_view;
  simpl.

Lemma CP_Step_inv sm : port_inv (view sm) -> port_inv (view (CP_Step sm)).
Proof.
  intros H. assert (Hen : port_enabled sm = true) by apply H.
  unfold CP_Step. cmd_cases; [by rewrite Hen in *|]. unfold CP_switch.
  destruct H as (_ & Hsecy & H). cbn [v_state view] in H.
  destruct (CP_state sm) eqn:Hst; [done|..];
    repeat (case_match || (progress cmd_cases)); unfold port_inv; step_views;
    repeat match goal with H : _ /\ _ |- _ => destruct H end;
    simpl in *; rewrite ?Hst, ?Hen; try (by repeat split; congruence).
Qed.

Lemma cp_step_loop_inv n sm : port_inv (view sm) -> port_inv (view (cp_step_loop n sm)).
Proof.
  revert sm; induction n as [|n IH]; intros sm H; [done|]. simpl.
  case_bool_decide; [by apply CP_Step_inv|]. apply IH. by apply CP_Step_inv.
Qed.

(** An event of the environment may run the KaY, but not its port control. *)
Definition event_ok (ev : cp_event K) : Prop :=
  match ev with
  | EvKay f => forall k, port_open (f k) = port_open k
  | _ => True
  end.

Lemma cp_event_inv ev sm :
  event_ok ev -> port_inv (view sm) -> port_inv (view (cp_event_run ev sm)).
Proof.
  intros Hok H. destruct ev; try exact H.
  - unfold cp_event_run, cp_eloop_run_timeout.
    destruct (eloop_run_timeout (loop sm)) as [[t l]|]; [|done].
    destruct (handler t); apply cp_step_loop_inv; exact H.
  - unfold cp_event_run, assign_from.
    replace (view _) with (view sm); [done|]. unfold view. cbn. by rewrite Hok.
Qed.

Lemma cp_run_inv evs sm :
  Forall event_ok evs -> port_inv (view sm) -> port_inv (view (cp_run evs sm)).
Proof.
  revert sm; induction evs as [|ev evs IH]; intros sm Hok H; [done|].
  apply Forall_cons in Hok as [Hev Hevs]. apply IH; [done|by apply cp_event_inv].
Qed.

(** [SM_ENTER(CP, INIT)] followed by one step ends in [CHANGE]. *)
Lemma cp_init_view k addr l sm :
  ieee802_1x_cp_sm_init k addr l false = Some sm ->
  v_state (view sm) = CP_CHANGE /\ v_valid (view sm) = false /\
  v_ctl (view sm) = false /\ v_enabled (view sm) = true /\ v_secy (view sm) = false.
Proof.
  unfold ieee802_1x_cp_sm_init, seq_cmd. intros Heq. injection Heq as <-.
  generalize (cp_defaults (cp_zalloc k addr l false)).
  clear. intros sm. pose proof (INIT_view sm) as Hv.
  assert (Hen : port_enabled (CP_INIT_Enter sm) = true)
    by (by change (v_enabled (view (CP_INIT_Enter sm)) = true); rewrite Hv).
  assert (Hst : CP_state (CP_INIT_Enter sm) = CP_INIT)
    by (by change (v_state (view (CP_INIT_Enter sm)) = CP_INIT); rewrite Hv).
  unfold CP_Step. cmd_cases; [by rewrite Hen in *|]. unfold CP_switch. rewrite Hst, CHANGE_view, Hv. done.
Qed.

Definition secure_state (st : cp_states) : bool :=
  match st with
  | CP_SECURED | CP_RECEIVE | CP_RECEIVING | CP_READY | CP_TRANSMIT
  | CP_TRANSMITTING | CP_ABANDON | CP_RETIRE => true
  | _ => false
  end.

Definition closed_state (st : cp_states) : bool :=
  match st with CP_BEGIN | CP_INIT | CP_CHANGE | CP_SECURED => true | _ => false end.

Definition open_state (st : cp_states) : bool :=
  match st with
  | CP_ALLOWED | CP_AUTHENTICATED | CP_TRANSMIT | CP_TRANSMITTING => true
  | _ => false
  end.
End control.

Arguments view {K _ _} sm.
#[export] Hint Rewrite @INIT_view @CHANGE_view @ALLOWED_view @AUTHENTICATED_view
  @SECURED_view @RECEIVE_view @RECEIVING_view @READY_view @TRANSMIT_view
  @TRANSMITTING_view @ABANDON_view @RETIRE_view : port.

(** ** Key installation *)

Section keys.
Context {K : Type} `{!KayOps K}.
Implicit Types sm : cp_sm K.

(** A KaY callback sets the flag, reschedules the CP, and changes nothing
    else: any observation that ignores these is kept. *)
Lemma enable_rx_frame {T} (p : cp_sm K -> T) sm :
  (forall s k, p (setter kay k s) = p s) ->
  (forall s l, p (setter loop l s) = p s) ->
  (forall s b, p (setter using_receive_sas b s) = p s) ->
  p (enable_rx_sas sm) = p sm.
Proof.
  intros Hk Hl Hb. unfold enable_rx_sas.
  destruct (kay_enable_rx_sas _ _) as [k n]. rewrite <-(Hk sm (fun _ => k)).
  induction n as [|n IH]; [done|]. rewrite <-IH. simpl Nat.iter.
  generalize (Nat.iter n (ieee802_1x_cp_set_usingreceivesas true;; ieee802_1x_cp_sm_step)%cmd
    (setter kay (fun _ => k) sm)). intros s.
  cbv beta delta [seq_cmd ieee802_1x_cp_sm_step register cancel assign_from assign
    ieee802_1x_cp_set_usingreceivesas ieee802_1x_cp_set_usingtransmitas].
  by rewrite !Hl, Hb.
Qed.

Lemma enable_tx_frame {T} (p : cp_sm K -> T) sm :
  (forall s k, p (setter kay k s) = p s) ->
  (forall s l, p (setter loop l s) = p s) ->
  (forall s b, p (setter using_transmit_sa b s) = p s) ->
  p (enable_tx_sas sm) = p sm.
Proof.
  intros Hk Hl Hb. unfold enable_tx_sas.
  destruct (kay_enable_tx_sas _ _) as [k n]. rewrite <-(Hk sm (fun _ => k)).
  induction n as [|n IH]; [done|]. rewrite <-IH. simpl Nat.iter.
  generalize (Nat.iter n (ieee802_1x_cp_set_usingtransmitas true;; ieee802_1x_cp_sm_step)%cmd
    (setter kay (fun _ => k) sm)). intros s.
  cbv beta delta [seq_cmd ieee802_1x_cp_sm_step register cancel assign_from assign
    ieee802_1x_cp_set_usingreceivesas ieee802_1x_cp_set_usingtransmitas].
  by rewrite !Hl, Hb.
Qed.

Lemma enable_rx_using sm :
  (0 < snd (kay_enable_rx_sas (lki sm) (kay sm)))%nat ->
  using_receive_sas (enable_rx_sas sm) = true.
Proof.
  unfold enable_rx_sas. destruct (kay_enable_rx_sas _ _) as [k [|n]]; simpl; [lia|].
  intros _. reflexivity.
Qed.

Lemma enable_tx_using sm :
  (0 < snd (kay_enable_tx_sas (lki sm) (kay sm)))%nat ->
  using_transmit_sa (enable_tx_sas sm) = true.
Proof.
  unfold enable_tx_sas. destruct (kay_enable_tx_sas _ _) as [k [|n]]; simpl; [lia|].
  intros _. reflexivity.
Qed.

(** What the installation of a key depends on and changes. *)
Record key_view := mk_kv {
  q_state : cp_states;
  q_lki : option mka_ki; q_ltx : bool; q_lrx : bool;
  q_oki : option mka_ki; q_otx : bool; q_orx : bool;
  q_ctl : bool; q_new_sak : bool; q_all : bool; q_server : bool;
  q_rx : bool; q_tx : bool; q_retire : Z
}.

Definition kview (sm : cp_sm K) : key_view :=
  mk_kv (CP_state sm) (lki sm) (ltx sm) (lrx sm) (oki sm) (otx sm) (orx sm)
    (controlled_port_enabled sm) (new_sak sm) (all_receiving sm)
    (server_transmitting sm) (using_receive_sas sm) (using_transmit_sa sm)
    (retire_when sm).

(** The inputs of the CP that no state entry below changes. *)
Definition inputs (sm : cp_sm K) :=
  (connect sm, chgd_server sm, conf_offset sm, cipher_offset sm,
   (current_cipher_suite sm, cipher_suite sm, elected_self sm, port_enabled sm),
   (oom sm, retire_delay sm, transmit_delay sm, distributed_ki sm)).

Definition rx_found sm : Prop :=
  (0 < snd (kay_enable_rx_sas (lki sm) (kay sm)))%nat.
Definition tx_found sm : Prop :=
  (0 < snd (kay_enable_tx_sas (lki sm) (kay sm)))%nat.

Lemma RECEIVE_kview sm :
  oom sm = false ->
  (forall i k, 0 < snd (kay_enable_rx_sas i k))%nat ->
  kview (CP_RECEIVE_Enter sm) =
    mk_kv CP_RECEIVE (Some (distributed_ki sm)) false false (lki sm) (ltx sm) (lrx sm)
      (controlled_port_enabled sm) false false (server_transmitting sm)
      true (using_transmit_sa sm) (retire_when sm).
Proof.
  intros Hoom Hrx. unfold CP_RECEIVE_Enter. cmd_cases.
  - match goal with H : oom _ = true |- _ => change (oom sm = true) in H; congruence end.
  - match goal with |- context [enable_rx_sas ?s] => set (s0 := s) end.
    unfold kview. cbn -[enable_rx_sas s0].
    rewrite enable_rx_using by apply Hrx.
    rewrite (enable_rx_frame CP_state), (enable_rx_frame lki), (enable_rx_frame ltx),
      (enable_rx_frame lrx), (enable_rx_frame oki), (enable_rx_frame otx),
      (enable_rx_frame orx), (enable_rx_frame controlled_port_enabled),
      (enable_rx_frame server_transmitting), (enable_rx_frame using_transmit_sa),
      (enable_rx_frame retire_when) by reflexivity.
    reflexivity.
Qed.

Lemma RECEIVE_inputs sm : inputs (CP_RECEIVE_Enter sm) = inputs sm.
Proof.
  unfold CP_RECEIVE_Enter. cmd_cases; [reflexivity|].
  match goal with |- context [enable_rx_sas ?s] => set (s0 := s) end.
  transitivity (inputs (enable_rx_sas s0)); [reflexivity|].
  rewrite (enable_rx_frame inputs) by reflexivity. reflexivity.
Qed.

Lemma RECEIVING_kview sm :
  kview (CP_RECEIVING_Enter sm) =
    mk_kv CP_RECEIVING (lki sm) (ltx sm) true (oki sm) (otx sm) (orx sm)
      (controlled_port_enabled sm) (new_sak sm) (all_receiving sm) false false
      (using_transmit_sa sm) (retire_when sm).
Proof. reflexivity. Qed.

Lemma RECEIVING_inputs sm :
  inputs (CP_RECEIVING_Enter sm) = inputs sm /\
  transmit_when (CP_RECEIVING_Enter sm) = transmit_delay sm.
Proof. split; reflexivity. Qed.

Lemma TRANSMIT_kview sm :
  (forall i k, 0 < snd (kay_enable_tx_sas i k))%nat ->
  kview (CP_TRANSMIT_Enter sm) =
    mk_kv CP_TRANSMIT (lki sm) true (lrx sm) (oki sm) (otx sm) (orx sm)
      true (new_sak sm) false false (using_receive_sas sm) true (retire_when sm).
Proof.
  intros Htx. unfold CP_TRANSMIT_Enter. cbv beta delta [seq_cmd].
  match goal with |- context [enable_tx_sas ?s] => set (s0 := s) end.
  unfold kview. cbn -[enable_tx_sas s0].
  rewrite enable_tx_using by apply Htx.
  rewrite (enable_tx_frame CP_state), (enable_tx_frame lki), (enable_tx_frame ltx),
    (enable_tx_frame lrx), (enable_tx_frame oki), (enable_tx_frame otx),
    (enable_tx_frame orx), (enable_tx_frame controlled_port_enabled),
    (enable_tx_frame new_sak), (enable_tx_frame using_receive_sas),
    (enable_tx_frame retire_when) by reflexivity.
  reflexivity.
Qed.

Lemma TRANSMIT_inputs sm : inputs (CP_TRANSMIT_Enter sm) = inputs sm.
Proof.
  unfold CP_TRANSMIT_Enter. cbv beta delta [seq_cmd].
  match goal with |- context [enable_tx_sas ?s] => set (s0 := s) end.
  transitivity (inputs (enable_tx_sas s0)); [reflexivity|].
  rewrite (enable_tx_frame inputs) by reflexivity. reflexivity.
Qed.

Lemma TRANSMITTING_kview sm :
  kview (CP_TRANSMITTING_Enter sm) =
    mk_kv CP_TRANSMITTING (lki sm) (ltx sm) (lrx sm) (oki sm) false (orx sm)
      (controlled_port_enabled sm) (new_sak sm) (all_receiving sm)
      (server_transmitting sm) (using_receive_sas sm) false
      (if orx sm then retire_delay sm else 0).
Proof. reflexivity. Qed.

Lemma TRANSMITTING_inputs sm : inputs (CP_TRANSMITTING_Enter sm) = inputs sm.
Proof. reflexivity. Qed.

Lemma RETIRE_kview sm :
  kview (CP_RETIRE_Enter sm) =
    mk_kv CP_RETIRE (lki sm) (ltx sm) (lrx sm) None false false
      (controlled_port_enabled sm) (new_sak sm) (all_receiving sm)
      (server_transmitting sm) (using_receive_sas sm) (using_transmit_sa sm)
      (retire_when sm).
Proof. reflexivity. Qed.

Lemma ABANDON_kview sm :
  kview (CP_ABANDON_Enter sm) =
    mk_kv CP_ABANDON None (ltx sm) false (oki sm) (otx sm) (orx sm)
      (controlled_port_enabled sm) false (all_receiving sm) (server_transmitting sm)
      (using_receive_sas sm) (using_transmit_sa sm) (retire_when sm).
Proof. reflexivity. Qed.

Lemma ABANDON_inputs sm :
  inputs (CP_ABANDON_Enter sm) = inputs sm /\
  transmit_when (CP_ABANDON_Enter sm) = transmit_when sm.
Proof. split; reflexivity. Qed.

Lemma TRANSMIT_null sm :
  lki sm = None ->
  CP_state (CP_TRANSMIT_Enter sm) = CP_TRANSMIT /\ lki (CP_TRANSMIT_Enter sm) = None /\
  exists k, kay (CP_TRANSMIT_Enter sm) = fst (kay_enable_tx_sas None k).
Proof.
  intros Hl. unfold CP_TRANSMIT_Enter. cbv beta delta [seq_cmd].
  match goal with |- context [enable_tx_sas ?s] => set (s0 := s) end.
  cbn -[enable_tx_sas s0].
  rewrite (enable_tx_frame CP_state), (enable_tx_frame lki) by reflexivity.
  repeat split; [exact Hl|].
  assert (Hl0 : lki s0 = None) by exact Hl.
  exists (kay s0). unfold enable_tx_sas. rewrite Hl0.
  destruct (kay_enable_tx_sas None (kay s0)) as [k n]. simpl.
  induction n as [|n IH]; [reflexivity|]. exact IH.
Qed.

Lemma changed_connect_inputs sm sm' :
  inputs sm = inputs sm' -> changed_connect sm = changed_connect sm'.
Proof.
  unfold inputs, changed_connect, changed_cipher. intros H. injection H.
  intros. repeat match goal with E : _ sm = _ sm' |- _ => rewrite E; clear E end. done.
Qed.

Lemma inputs_inv sm sm' : inputs sm = inputs sm' ->
  port_enabled sm = port_enabled sm' /\ elected_self sm = elected_self sm' /\
  transmit_delay sm = transmit_delay sm' /\ retire_delay sm = retire_delay sm'.
Proof. unfold inputs. intros H. injection H. auto. Qed.

Lemma loop_stop n sm sm' :
  CP_Step sm = sm' -> CP_state sm' = CP_state sm -> cp_step_loop (S n) sm = sm'.
Proof. intros <- H. simpl. by rewrite bool_decide_true. Qed.

Lemma loop_go n sm sm' :
  CP_Step sm = sm' -> CP_state sm' <> CP_state sm ->
  cp_step_loop (S n) sm = cp_step_loop n sm'.
Proof. intros <- H. simpl. by rewrite bool_decide_false by congruence. Qed.

Lemma CP_Step_enabled sm : port_enabled sm = true -> CP_Step sm = CP_switch sm.
Proof. intros H. unfold CP_Step, seq_cmd, when. by rewrite H. Qed.

Lemma when_false {S} (p : S -> bool) c s : p s = false -> when p c s = s.
Proof. unfold when. by intros ->. Qed.

Lemma when_true {S} (p : S -> bool) c s : p s = true -> when p c s = c s.
Proof. unfold when. by intros ->. Qed.

(** Splits a view equation into the equations of the components. *)
Lemma kview_inv sm v : kview sm = v ->
  CP_state sm = q_state v /\ lki sm = q_lki v /\ ltx sm = q_ltx v /\ lrx sm = q_lrx v /\
  oki sm = q_oki v /\ otx sm = q_otx v /\ orx sm = q_orx v /\
  controlled_port_enabled sm = q_ctl v /\ new_sak sm = q_new_sak v /\
  all_receiving sm = q_all v /\ server_transmitting sm = q_server v /\
  using_receive_sas sm = q_rx v /\ using_transmit_sa sm = q_tx v /\
  retire_when sm = q_retire v.
Proof. intros <-. repeat split. Qed.

#[local] Opaque CP_RECEIVE_Enter CP_RECEIVING_Enter CP_TRANSMIT_Enter
  CP_TRANSMITTING_Enter CP_RETIRE_Enter CP_ABANDON_Enter CP_READY_Enter.

(** Preconditions of an undisturbed key installation by the key server. *)
Record rekey_ready (sm : cp_sm K) : Prop := {
  rk_state : CP_state sm = CP_SECURED \/ CP_state sm = CP_RETIRE;
  rk_enabled : port_enabled sm = true;
  rk_oom : oom sm = false;
  rk_unchanged : changed_connect sm = false;
  rk_sak : new_sak sm = true;
  rk_elected : elected_self sm = true;
  rk_delay : transmit_delay sm <> 0;
  rk_retire : retire_delay sm <> 0
}.

Section rekey.
Hypothesis Hrx : forall i k, (0 < snd (kay_enable_rx_sas i k))%nat.
Hypothesis Htx : forall i k, (0 < snd (kay_enable_tx_sas i k))%nat.

Lemma rekey_receiving sm :
  rekey_ready sm ->
  let sm1 := ieee802_1x_cp_step_run sm in
  kview sm1 = mk_kv CP_RECEIVING (Some (distributed_ki sm)) false true (lki sm)
    (ltx sm) (lrx sm) (controlled_port_enabled sm) false false false false
    (using_transmit_sa sm) (retire_when sm) /\
  inputs sm1 = inputs sm /\ transmit_when sm1 = transmit_delay sm.
Proof.
  intros [Hst Hen Hoom Hch Hnew Hel Hdel Hret] sm1.
  remember (CP_RECEIVE_Enter sm) as a eqn:Ea.
  remember (CP_RECEIVING_Enter a) as b eqn:Eb.
  pose proof (RECEIVE_kview sm Hoom Hrx) as Ha. rewrite <-Ea in Ha.
  pose proof (RECEIVE_inputs sm) as Hai. rewrite <-Ea in Hai.
  pose proof (RECEIVING_kview a) as Hb. rewrite <-Eb in Hb.
  destruct (RECEIVING_inputs a) as [Hbi Hbt]. rewrite <-Eb in Hbi, Hbt.
  apply kview_inv in Ha as (Ha1 & Ha2 & Ha3 & Ha4 & Ha5 & Ha6 & Ha7 & Ha8 & Ha9 &
    Ha10 & Ha11 & Ha12 & Ha13 & Ha14). simpl in *.
  rewrite Ha2, Ha3, Ha5, Ha6, Ha7, Ha8, Ha9, Ha10, Ha13, Ha14 in Hb.
  pose proof (kview_inv _ _ Hb) as (Hb1 & _ & _ & _ & _ & _ & _ & _ & Hb9 & Hb10 & _).
  simpl in *. rewrite Hai in Hbi.
  destruct (inputs_inv _ _ Hai) as (Haen & _ & Hbdel & _).
  destruct (inputs_inv _ _ Hbi) as (Hben & Hbel & _ & _).
  rewrite Hen in Haen, Hben. rewrite Hel in Hbel.
  assert (sm1 = b) as ->.
  { unfold sm1, ieee802_1x_cp_step_run. change 100%nat with (S (S (S 97))).
    rewrite (loop_go _ sm a), (loop_go _ a b), (loop_stop _ b b); [done|..].
    - rewrite CP_Step_enabled by assumption. unfold CP_switch. rewrite Hb1. unfold seq_cmd.
      rewrite (when_false _ _ b) by (cbv beta; by rewrite Hb9, (changed_connect_inputs _ _ Hbi)).
      rewrite (when_false _ _ b) by (cbv beta; by rewrite Hbel).
      apply when_false. cbv beta. rewrite Hbel, Hb10, Hbt, Hbdel. simpl. by apply Z.eqb_neq.
    - done.
    - rewrite CP_Step_enabled by assumption. unfold CP_switch. rewrite Ha1, Ha12, Eb. reflexivity.
    - congruence.
    - rewrite CP_Step_enabled by assumption. unfold CP_switch.
      rewrite Ea. by destruct Hst as [-> | ->]; rewrite Hch, Hnew.
    - destruct Hst; congruence. }
  by rewrite Hb, Hbi, Hbt, Hbdel.
Qed.

Lemma rekey_transmitting sm :
  CP_state sm = CP_RECEIVING -> port_enabled sm = true -> changed_connect sm = false ->
  new_sak sm = false -> elected_self sm = true -> all_receiving sm = true ->
  orx sm = true -> retire_delay sm <> 0 ->
  let sm2 := ieee802_1x_cp_step_run sm in
  kview sm2 = mk_kv CP_TRANSMITTING (lki sm) true (lrx sm) (oki sm) false true
    true false false false (using_receive_sas sm) false (retire_delay sm) /\
  inputs sm2 = inputs sm.
Proof.
  intros Hst Hen Hch Hnew Hel Hall Horx Hret sm2.
  remember (CP_TRANSMIT_Enter sm) as a eqn:Ea.
  remember (CP_TRANSMITTING_Enter a) as b eqn:Eb.
  pose proof (TRANSMIT_kview sm Htx) as Ha. rewrite <-Ea in Ha.
  pose proof (TRANSMIT_inputs sm) as Hai. rewrite <-Ea in Hai.
  pose proof (TRANSMITTING_kview a) as Hb. rewrite <-Eb in Hb.
  pose proof (TRANSMITTING_inputs a) as Hbi. rewrite <-Eb in Hbi. rewrite Hai in Hbi.
  apply kview_inv in Ha as (Ha1 & Ha2 & Ha3 & Ha4 & Ha5 & Ha6 & Ha7 & Ha8 & Ha9 &
    Ha10 & Ha11 & Ha12 & Ha13 & Ha14). simpl in *.
  destruct (inputs_inv _ _ Hai) as (Haen & _ & _ & Hadel).
  destruct (inputs_inv _ _ Hbi) as (Hben & _ & _ & _).
  rewrite Hen in Haen, Hben.
  rewrite Ha2, Ha3, Ha4, Ha5, Ha7, Ha8, Ha9, Ha10, Ha11, Ha12, Horx, Hnew, Hadel in Hb.
  pose proof (kview_inv _ _ Hb) as (Hb1 & _ & _ & _ & _ & _ & _ & _ & _ & _ & _ & _ & _ & Hb14).
  simpl in *.
  assert (sm2 = b) as ->.
  { unfold sm2, ieee802_1x_cp_step_run. change 100%nat with (S (S (S 97))).
    rewrite (loop_go _ sm a), (loop_go _ a b), (loop_stop _ b b); [done|..].
    - rewrite CP_Step_enabled by assumption. unfold CP_switch.
      rewrite Hb1, Hb14, (changed_connect_inputs _ _ Hbi), Hch.
      by rewrite (proj2 (Z.eqb_neq _ _)).
    - done.
    - rewrite CP_Step_enabled by assumption. unfold CP_switch. rewrite Ha1, Ha13, Eb. reflexivity.
    - congruence.
    - rewrite CP_Step_enabled by assumption. unfold CP_switch. rewrite Hst. unfold seq_cmd.
      rewrite (when_false _ _ sm) by (cbv beta; by rewrite Hnew, Hch).
      rewrite (when_false _ _ sm) by (cbv beta; by rewrite Hel).
      rewrite Ea. apply when_true. cbv beta. by rewrite Hel, Hall.
    - congruence. }
  by rewrite Hb, Hbi.
Qed.
End rekey.

Lemma rekey_retire sm :
  CP_state sm = CP_TRANSMITTING -> port_enabled sm = true -> changed_connect sm = false ->
  new_sak sm = false ->
  let sm3 := cp_retire_when_timeout sm in
  kview sm3 = mk_kv CP_RETIRE (lki sm) (ltx sm) (lrx sm) None false false
    (controlled_port_enabled sm) false (all_receiving sm) (server_transmitting sm)
    (using_receive_sas sm) (using_transmit_sa sm) 0.
Proof.
  intros Hst Hen Hch Hnew sm3.
  remember (setter retire_when (fun _ => 0) sm) as z eqn:Ez.
  assert (Hz : kview z = mk_kv CP_TRANSMITTING (lki sm) (ltx sm) (lrx sm) (oki sm) (otx sm)
    (orx sm) (controlled_port_enabled sm) false (all_receiving sm) (server_transmitting sm)
    (using_receive_sas sm) (using_transmit_sa sm) 0) by (rewrite Ez; unfold kview; cbn; by rewrite Hst, Hnew).
  remember (CP_RETIRE_Enter z) as a eqn:Ea.
  pose proof (RETIRE_kview z) as Ha. rewrite <-Ea in Ha.
  assert (Hai : inputs a = inputs sm) by (by rewrite Ea, Ez).
  assert (Hzen : port_enabled z = true) by (by rewrite Ez).
  assert (Haen : port_enabled a = true) by (by destruct (inputs_inv _ _ Hai) as (-> & _)).
  pose proof (kview_inv _ _ Ha) as (Ha1 & _ & _ & _ & _ & _ & _ & _ & Ha9 & _).
  pose proof (kview_inv _ _ Hz) as (Hz1 & _ & _ & _ & _ & _ & _ & _ & Hz9 & _ & _ & _ & _ & Hz14).
  simpl in Ha1, Ha9, Hz1, Hz9, Hz14.
  assert (sm3 = a) as ->; [|by rewrite Ha, Ez, <-Hnew].
  unfold sm3, cp_retire_when_timeout, ieee802_1x_cp_step_run, seq_cmd.
  change (assign retire_when 0 sm) with (setter retire_when (fun _ => 0) sm).
  rewrite <-Ez.
  change 100%nat with (S (S 98)).
  rewrite (loop_go _ z a), (loop_stop _ a a); [done|..].
  - rewrite CP_Step_enabled by assumption. unfold CP_switch.
    rewrite Ha1, (changed_connect_inputs _ _ Hai), Hch, Ha9, Hz9. done.
  - done.
  - rewrite CP_Step_enabled by assumption. unfold CP_switch. rewrite Hz1, Hz14, Ea. reflexivity.
  - congruence.
Qed.
End keys.


(** ** Timers *)

Section timers.
Context {K : Type} `{!KayOps K}.
Implicit Types sm : cp_sm K.

Definition owned (ctx : Z) (e : eloop_data cp_handler) : list (eloop_timeout cp_handler) :=
  List.filter (fun t => eloop_ctx t =? ctx) (timeout e).

(** The timeouts of one CP carry no user context, and none is registered
    twice. *)
Definition own (ctx : Z) (e : eloop_data cp_handler) : Prop :=
  Forall (fun t => user_ctx t = 0) (owned ctx e) /\ NoDup (map handler (owned ctx e)).

Lemma own_perm ctx (l l' : list (eloop_timeout cp_handler)) t :
  Permutation l' (t :: l) ->
  Permutation (List.filter (fun t => eloop_ctx t =? ctx) l')
    (if eloop_ctx t =? ctx then t :: List.filter (fun t => eloop_ctx t =? ctx) l
     else List.filter (fun t => eloop_ctx t =? ctx) l).
Proof.
  intros Hp. enough (forall p : eloop_timeout cp_handler -> bool,
    Permutation (List.filter p l') (List.filter p (t :: l))) as Hf by apply Hf.
  intros p. clear ctx. induction Hp; simpl.
  - done.
  - destruct (p x); by rewrite IHHp.
  - destruct (p x), (p y); try done. constructor.
  - by etransitivity.
Qed.

Lemma own_step ctx (l l' : list (eloop_timeout cp_handler)) (P : eloop_timeout cp_handler -> bool) t n :
  own ctx (mk_eloop n l) ->
  l' = List.filter P l -> own ctx (mk_eloop t l').
Proof.
  unfold own, owned. simpl. intros [Hu Hn] ->. revert Hu Hn.
  induction l as [|x l IH]; simpl; [done|]. intros Hu Hn.
  destruct (eloop_ctx x =? ctx) eqn:Hc; simpl in *.
  - apply Forall_cons in Hu as [Hux Hu]. apply NoDup_cons in Hn as [Hx Hn].
    destruct (IH Hu Hn) as [IH1 IH2]. destruct (P x); simpl; [rewrite Hc; simpl|done].
    split; [by constructor|]. apply NoDup_cons. split; [|done]. intros Hin. apply Hx.
    apply list_elem_of_In, in_map_iff in Hin as (y & <- & Hy).
    apply filter_In in Hy as [[Hy _]%filter_In Hy'].
    apply list_elem_of_In, in_map_iff. exists y. by rewrite filter_In.
  - destruct (P x); simpl; rewrite ?Hc; auto.
Qed.

Lemma own_cancel ctx h ed e : own ctx e -> own ctx (snd (eloop_cancel_timeout h ed 0 e)).
Proof. destruct e. intros. by eapply own_step. Qed.

Lemma own_rearm ctx h secs e :
  own ctx e ->
  own ctx (eloop_register_timeout secs 0 h ctx 0 (snd (eloop_cancel_timeout h ctx 0 e))).
Proof.
  intros Hown. pose proof (own_cancel ctx h ctx e Hown) as [Hu Hn].
  assert (Hnin : ~ In h (map handler (owned ctx (snd (eloop_cancel_timeout h ctx 0 e))))).
  { intros (t & Hh & Ht)%in_map_iff. destruct Hown as [Hu0 _].
    apply filter_In in Ht as [[Ht Hc]%cancel_rest Hctx].
    rewrite List.Forall_forall in Hu0.
    assert (user_ctx t = 0) as Hut by (apply Hu0, filter_In; done).
    unfold cancel_match in Hc. rewrite Hctx, Hut, bool_decide_true in Hc by done. done. }
  set (e1 := snd _) in *. clearbody e1. unfold eloop_register_timeout.
  destruct (_ <? _); [done|].
  match goal with |- own _ (set_timeout _ (insert_timeout ?t _)) => set (t0 := t) end.
  pose proof (own_perm ctx _ _ _ (insert_timeout_perm t0 (timeout e1))) as Hp.
  unfold own, owned. simpl. change (eloop_ctx t0) with ctx in Hp. rewrite Z.eqb_refl in Hp.
  rewrite Hp. simpl. rewrite Forall_cons, NoDup_cons.
  repeat split; try done. by rewrite list_elem_of_In.
Qed.

Definition timers_ok sm : Prop := own (self sm) (loop sm).

Definition keeps (c : cmd (cp_sm K)) : Prop := forall sm, timers_ok sm -> timers_ok (c sm).

Lemma keeps_seq c1 c2 : keeps c1 -> keeps c2 -> keeps (c1 ;; c2)%cmd.
Proof. unfold keeps, seq_cmd. auto. Qed.
Lemma keeps_when p c : keeps c -> keeps (when p c).
Proof. unfold keeps, when. intros. destruct (p sm); auto. Qed.
Lemma keeps_ite p c1 c2 : keeps c1 -> keeps c2 -> keeps (ite p c1 c2).
Proof. unfold keeps, ite. intros. destruct (p sm); auto. Qed.

(** Assignments to the other members do not touch the timers. *)
Class Quiet {T} (f : cp_sm K -> T) `{!Setter f} : Prop :=
  quiet g sm : self (setter f g sm) = self sm /\ loop (setter f g sm) = loop sm.

Lemma keeps_assign {T} (f : cp_sm K -> T) `{!Setter f, !Quiet f} v : keeps (f ::= v)%cmd.
Proof.
  intros sm. unfold timers_ok, assign. by destruct (quiet (fun _ => v) sm) as [-> ->].
Qed.
Lemma keeps_assign_from {T} (f : cp_sm K -> T) `{!Setter f, !Quiet f} e : keeps (f <~ e)%cmd.
Proof.
  intros sm. unfold timers_ok, assign_from.
  by destruct (quiet (fun _ => e sm) sm) as [-> ->].
Qed.
Lemma keeps_rearm secs h : keeps (cancel h ;; register secs h)%cmd.
Proof. intros sm H. by apply own_rearm. Qed.
Lemma keeps_seq3 c1 c2 c3 : keeps (c1 ;; c2)%cmd -> keeps c3 -> keeps (c1 ;; c2 ;; c3)%cmd.
Proof. intros H1 H2 sm H. apply (H2 _ (H1 _ H)). Qed.
End timers.

#[global] Hint Extern 1 (Quiet _) => (intros ? ?; split; reflexivity) : typeclass_instances.

Create HintDb keeps discriminated.
#[export] Hint Constants Opaque : keeps.

(** Follows the syntax of a command, down to the named commands. *)
Ltac keeps_auto :=
  lazymatch goal with
  | |- keeps (seq_cmd (cancel ?h) (register _ ?h)) => apply keeps_rearm
  | |- keeps (seq_cmd (cancel ?h) (seq_cmd (register _ ?h) _)) =>
      apply keeps_seq3; [apply keeps_rearm|keeps_auto]
  | |- keeps (seq_cmd _ _) => apply keeps_seq; keeps_auto
  | |- keeps (when _ _) => apply keeps_when; keeps_auto
  | |- keeps (ite _ _ _) => apply keeps_ite; keeps_auto
  | |- keeps (call _) => unfold call; apply keeps_assign_from; apply _
  | |- keeps (assign _ _) => apply keeps_assign; apply _
  | |- keeps (assign_from _ _) => apply keeps_assign_from; apply _
  | |- _ => solve [eauto with keeps nocore]
  end.

Section timers2.
Context {K : Type} `{!KayOps K}.
Implicit Types sm : cp_sm K.

Lemma keeps_entry st : keeps (K:=K) (ENTRY st).
Proof. unfold ENTRY, SM_ENTRY. keeps_auto. Qed.
Lemma keeps_sm_step : keeps (K:=K) ieee802_1x_cp_sm_step.
Proof. apply keeps_rearm. Qed.
Lemma keeps_iter n (c : cmd (cp_sm K)) : keeps c -> keeps (Nat.iter n c).
Proof. intros Hc sm H. induction n; simpl; auto. Qed.

Lemma keeps_rx : keeps (K:=K) enable_rx_sas.
Proof.
  intros sm H. unfold enable_rx_sas. destruct (kay_enable_rx_sas _ _) as [k n].
  apply keeps_iter; [|exact H].
  apply keeps_seq; [apply keeps_assign; apply _|apply keeps_sm_step].
Qed.
Lemma keeps_tx : keeps (K:=K) enable_tx_sas.
Proof.
  intros sm H. unfold enable_tx_sas. destruct (kay_enable_tx_sas _ _) as [k n].
  apply keeps_iter; [|exact H].
  apply keeps_seq; [apply keeps_assign; apply _|apply keeps_sm_step].
Qed.
End timers2.

#[export] Hint Resolve keeps_entry keeps_sm_step keeps_rx keeps_tx : keeps.

Section timers3.
Context {K : Type} `{!KayOps K}.
Implicit Types sm : cp_sm K.

Lemma keeps_INIT : keeps (K:=K) CP_INIT_Enter.
Proof. unfold CP_INIT_Enter. keeps_auto. Qed.
Lemma keeps_CHANGE : keeps (K:=K) CP_CHANGE_Enter.
Proof. unfold CP_CHANGE_Enter. keeps_auto. Qed.
Lemma keeps_frames : keeps (K:=K) secy_frames.
Proof. unfold secy_frames. keeps_auto. Qed.
#[local] Hint Resolve keeps_frames : keeps.
Lemma keeps_ALLOWED : keeps (K:=K) CP_ALLOWED_Enter.
Proof. unfold CP_ALLOWED_Enter. keeps_auto. Qed.
Lemma keeps_AUTHENTICATED : keeps (K:=K) CP_AUTHENTICATED_Enter.
Proof. unfold CP_AUTHENTICATED_Enter. keeps_auto. Qed.
Lemma keeps_SECURED : keeps (K:=K) CP_SECURED_Enter.
Proof. unfold CP_SECURED_Enter. keeps_auto. Qed.
Lemma keeps_RECEIVE : keeps (K:=K) CP_RECEIVE_Enter.
Proof. unfold CP_RECEIVE_Enter, set_old_sa_attr, set_latest_sa_attr. keeps_auto. Qed.
Lemma keeps_RECEIVING : keeps (K:=K) CP_RECEIVING_Enter.
Proof. unfold CP_RECEIVING_Enter, set_latest_sa_attr. keeps_auto. Qed.
Lemma keeps_READY : keeps (K:=K) CP_READY_Enter.
Proof. unfold CP_READY_Enter. keeps_auto. Qed.
Lemma keeps_TRANSMIT : keeps (K:=K) CP_TRANSMIT_Enter.
Proof. unfold CP_TRANSMIT_Enter, set_latest_sa_attr. keeps_auto. Qed.
Lemma keeps_TRANSMITTING : keeps (K:=K) CP_TRANSMITTING_Enter.
Proof. unfold CP_TRANSMITTING_Enter, set_old_sa_attr. keeps_auto. Qed.
Lemma keeps_ABANDON : keeps (K:=K) CP_ABANDON_Enter.
Proof. unfold CP_ABANDON_Enter, set_latest_sa_attr. keeps_auto. Qed.
Lemma keeps_RETIRE : keeps (K:=K) CP_RETIRE_Enter.
Proof. unfold CP_RETIRE_Enter, set_old_sa_attr. keeps_auto. Qed.
End timers3.

#[export] Hint Resolve keeps_INIT keeps_CHANGE keeps_frames keeps_ALLOWED
  keeps_AUTHENTICATED keeps_SECURED keeps_RECEIVE keeps_RECEIVING keeps_READY
  keeps_TRANSMIT keeps_TRANSMITTING keeps_ABANDON keeps_RETIRE : keeps.

Section timers4.
Context {K : Type} `{!KayOps K}.
Implicit Types sm : cp_sm K.

Lemma keeps_Step : keeps (K:=K) CP_Step.
Proof.
  unfold CP_Step. apply keeps_seq; [keeps_auto|]. intros sm H. unfold CP_switch.
  destruct (CP_state sm); repeat case_match; try exact H;
    lazymatch goal with
    | |- timers_ok (?c sm) =>
        let Hk := fresh in assert (Hk : keeps c) by keeps_auto; exact (Hk sm H)
    end.
Qed.
End timers4.
#[global] Opaque CP_RECEIVE_Enter CP_RECEIVING_Enter CP_TRANSMIT_Enter
  CP_TRANSMITTING_Enter CP_RETIRE_Enter CP_ABANDON_Enter CP_READY_Enter.

Section runs.
Context {K : Type} `{!KayOps K}.
Implicit Types sm : cp_sm K.

Lemma keeps_loop n : keeps (K:=K) (cp_step_loop n).
Proof.
  induction n as [|n IH]; intros sm H; simpl; [done|].
  destruct (bool_decide _); [|apply IH]; by apply keeps_Step.
Qed.

Lemma own_advance ctx d (e : eloop_data cp_handler) :
  own ctx e -> own ctx (mk_eloop (advance d (now e)) (timeout e)).
Proof. done. Qed.

Lemma own_tail ctx n n' t (l : list (eloop_timeout cp_handler)) :
  own ctx (mk_eloop n (t :: l)) -> own ctx (mk_eloop n' l).
Proof.
  unfold own, owned. simpl. destruct (eloop_ctx t =? ctx); simpl; [|done].
  rewrite Forall_cons, NoDup_cons. intuition.
Qed.

Lemma keeps_event ev : keeps (K:=K) (cp_event_run ev).
Proof.
  intros sm H. destruct ev; try exact H.
  - by apply keeps_sm_step.
  - unfold cp_event_run, cp_eloop_run_timeout.
    destruct (eloop_run_timeout (loop sm)) as [[t l]|] eqn:Hr; [|done].
    assert (H' : timers_ok (setter loop (fun _ => l) sm)).
    { unfold eloop_run_timeout in Hr. unfold timers_ok in *. cbn.
      destruct (loop sm) as [n ts]. cbn in Hr. destruct ts as [|t0 ts]; [done|].
      destruct (negb _); simplify_eq. by eapply own_tail. }
    revert H'. generalize (setter loop (fun _ => l) sm). intros s Hs.
    destruct (handler t); simpl; unfold cp_step_cb, cp_retire_when_timeout,
      cp_transmit_when_timeout, seq_cmd, ieee802_1x_cp_step_run; by apply keeps_loop.
Qed.

Lemma keeps_run evs : keeps (K:=K) (cp_run evs).
Proof.
  induction evs as [|ev evs IH]; intros sm H; [done|].
  simpl. apply IH. by apply keeps_event.
Qed.

Lemma self_defaults sm : self (cp_defaults sm) = self sm /\ loop (cp_defaults sm) = loop sm.
Proof. split; reflexivity. Qed.

Lemma init_timers k addr l sm :
  ieee802_1x_cp_sm_init k addr l false = Some sm -> own addr l -> timers_ok sm.
Proof.
  unfold ieee802_1x_cp_sm_init, seq_cmd. intros Heq Hl. injection Heq as <-.
  apply keeps_Step, keeps_INIT. unfold timers_ok.
  destruct (self_defaults (cp_zalloc k addr l false)) as [-> ->]. exact Hl.
Qed.
End runs.

(** A KaY that records the calls it gets and reports one matching security
    association to every enable request. *)
Inductive kay_call :=
  | EnablePort (b : bool) | Latest (i : option mka_ki) | Old (i : option mka_ki)
  | CreateSas (i : option mka_ki) | DeleteSas (i : option mka_ki)
  | EnableRxSas (i : option mka_ki) | EnableTxSas (i : option mka_ki)
  | NewInfo | Secy.

Record recorder := mk_recorder { rec_port : bool; rec_log : list kay_call }.

Definition record_call (c : kay_call) (k : recorder) : recorder :=
  mk_recorder (match c with EnablePort b => b | _ => rec_port k end) (rec_log k ++ [c]).

#[global] Instance recorder_ops : KayOps recorder := {
  macsec_protect _ := true;
  macsec_encrypt _ := true;
  macsec_replay_protect _ := false;
  macsec_replay_window _ := 0;
  macsec_validate _ := Strict;
  secy_cp_control_enable_port b := record_call (EnablePort b);
  secy_cp_control_protect_frames _ := record_call Secy;
  secy_cp_control_encrypt _ := record_call Secy;
  secy_cp_control_validate_frames _ := record_call Secy;
  secy_cp_control_replay _ _ := record_call Secy;
  secy_cp_control_current_cipher_suite _ := record_call Secy;
  secy_cp_control_confidentiality_offset _ := record_call Secy;
  kay_set_latest_sa_attr i _ _ _ := record_call (Latest i);
  kay_set_old_sa_attr i _ _ _ := record_call (Old i);
  kay_create_sas i := record_call (CreateSas i);
  kay_delete_sas i := record_call (DeleteSas i);
  kay_enable_rx_sas i k := (record_call (EnableRxSas i) k, 1%nat);
  kay_enable_tx_sas i k := (record_call (EnableTxSas i) k, 1%nat);
  kay_enable_new_info := record_call NewInfo
}.

#[global] Instance recorder_port : KayPort recorder.
Proof. exists rec_port; reflexivity. Defined.

(** ** Properties *)

(** C10: in every execution of a CP, from its creation through any sequence of
    KaY signals, timeouts, clock ticks and allocation failures, the SecY's
    controlled port is exactly as the CP last set it; it is closed in INIT,
    CHANGE and SECURED (so choosing MACsec never leaves the port open from
    before), open in ALLOWED, AUTHENTICATED, TRANSMIT and TRANSMITTING, frames
    are unprotected where the port is open without MACsec, and [port_valid] is
    signalled in exactly the secured states. *)
Theorem cp_controlled_port {K : Type} `{!KayOps K, !KayPort K} (k : K) (addr : Z)
    (l : eloop_data cp_handler) (evs : list (cp_event K)) (sm0 sm : cp_sm K) :
  ieee802_1x_cp_sm_init k addr l false = Some sm0 -> Forall event_ok evs ->
  cp_run evs sm0 = sm ->
  port_open (kay sm) = controlled_port_enabled sm /\
  port_valid sm = secure_state (CP_state sm) /\
  (closed_state (CP_state sm) = true -> port_open (kay sm) = false) /\
  (open_state (CP_state sm) = true -> port_open (kay sm) = true) /\
  (open_state (CP_state sm) = true -> secure_state (CP_state sm) = false ->
     protect_frames sm = false).
Proof.
  intros Hinit Hok <-.
  assert (Hinv : port_inv (view (cp_run evs sm0))).
  { apply cp_run_inv; [done|].
    destruct (cp_init_view _ _ _ _ Hinit) as (Hs & Hv & Hc & He & Hp).
    unfold port_inv. rewrite Hs, Hv, Hc, He, Hp. done. }
  generalize dependent (cp_run evs sm0). clear. intros s (_ & Hsecy & Hst).
  cbn [v_secy v_ctl v_state v_valid v_protect view] in *. rewrite Hsecy.
  destruct (CP_state s); simpl; intuition congruence.
Qed.


(** at every point of every execution each of the CP's three timers is
    registered at most once (no handler ever runs twice for one arming), and
    the deinitialisation leaves none of them behind. *)
Theorem cp_timers_unique {K : Type} `{!KayOps K} (k : K) (addr : Z)
    (l : eloop_data cp_handler) (evs : list (cp_event K)) (sm0 sm : cp_sm K) :
  ieee802_1x_cp_sm_init k addr l false = Some sm0 -> own addr l ->
  cp_run evs sm0 = sm ->
  NoDup (map handler (owned (self sm) (loop sm))) /\
  owned (self sm) (ieee802_1x_cp_sm_deinit sm) = [].
Proof.
  intros Hinit Hl <-. pose proof (keeps_run evs sm0 (init_timers _ _ _ _ Hinit Hl)) as Hok.
  generalize dependent (cp_run evs sm0). intros s [Hu Hn]. split; [done|].
  unfold ieee802_1x_cp_sm_deinit, seq_cmd, cancel, assign_from. cbn.
  unfold owned in *. simpl. rewrite List.Forall_forall in Hu.
  induction (timeout (loop s)) as [|t ts IH]; [done|]. simpl in *.
  assert (IH' : forall x, In x (List.filter (fun t => eloop_ctx t =? self s) ts) -> user_ctx x = 0).
  { intros x Hx. apply Hu. destruct (eloop_ctx t =? self s); [by right|done]. }
  assert (Hn' : NoDup (map handler (List.filter (fun t => eloop_ctx t =? self s) ts))).
  { destruct (eloop_ctx t =? self s); [by apply NoDup_cons in Hn as [_ ?]|done]. }
  specialize (IH IH' Hn').
  destruct (eloop_ctx t =? self s) eqn:Hc.
  - assert (Hut : user_ctx t = 0) by (apply Hu; by left).
    unfold cancel_match at 3. rewrite Hc, Hut. simpl.
    destruct (handler t) eqn:Hh; simpl; repeat (unfold cancel_match at 2; rewrite ?Hh, ?Hc, ?Hut; simpl);
      repeat (unfold cancel_match at 1; rewrite ?Hh, ?Hc, ?Hut; simpl); exact IH.
  - repeat (match goal with |- context [negb (cancel_match ?a ?b ?c t)] =>
      destruct (negb (cancel_match a b c t)); simpl end); rewrite ?Hc; exact IH.
Qed.

(** a new SAK that the key server generates while it still waits in
    RECEIVING for its peers is lost.  ABANDON clears [new_sak] together with
    the abandoned key, so the transition from ABANDON to RECEIVE that would
    install the new key is never taken: running the machine again changes
    nothing and no latest key is left. *)
Theorem cp_abandon_loses_sak {K : Type} `{!KayOps K} (sm : cp_sm K) :
  CP_state sm = CP_RECEIVING -> port_enabled sm = true -> elected_self sm = true ->
  new_sak sm = true -> changed_connect sm = false ->
  all_receiving sm = false -> transmit_when sm <> 0 ->
  let sm1 := ieee802_1x_cp_step_run sm in
  CP_state sm1 = CP_ABANDON /\ lki sm1 = None /\ new_sak sm1 = false /\
  ieee802_1x_cp_step_run sm1 = sm1.
Proof.
  intros Hst Hen Hel Hnew Hch Hall Htw sm1.
  pose proof (ABANDON_kview sm) as Ha. destruct (ABANDON_inputs sm) as [Hai Hat].
  remember (CP_ABANDON_Enter sm) as a eqn:Ea.
  pose proof (kview_inv _ _ Ha) as (A1 & A2 & _ & _ & _ & _ & _ & _ & A9 & A10 & _).
  simpl in A1, A2, A9, A10.
  destruct (inputs_inv _ _ Hai) as (Aen & Ael & _). rewrite Hen in Aen. rewrite Hel in Ael.
  assert (Hstep : CP_Step sm = a).
  { rewrite CP_Step_enabled by assumption. unfold CP_switch. rewrite Hst. unfold seq_cmd.
    rewrite (when_true _ _ sm) by (cbv beta; by rewrite Hnew). rewrite <-Ea.
    rewrite (when_false _ _ a) by (cbv beta; by rewrite Ael).
    apply when_false. cbv beta. rewrite Ael, A10, Hall, Hat. simpl. by apply Z.eqb_neq. }
  assert (Hstay : CP_Step a = a).
  { rewrite CP_Step_enabled by assumption. unfold CP_switch.
    by rewrite A1, A9, (changed_connect_inputs _ _ Hai), Hch. }
  assert (sm1 = a) as ->.
  { unfold sm1, ieee802_1x_cp_step_run. change 100%nat with (S (S 98)).
    rewrite (loop_go _ sm a), (loop_stop _ a a); [done|done|done|done|congruence]. }
  repeat split; [done..|]. unfold ieee802_1x_cp_step_run. change 100%nat with (S 99).
  by apply loop_stop.
Qed.

(** when the peers' confirmation and a new SAK reach a waiting key server
    together, one step abandons the key and then goes on to TRANSMIT, where it
    asks the KaY to enable the transmit SAs of a NULL key identifier. *)
Theorem cp_abandon_null_transmit {K : Type} `{!KayOps K} (sm : cp_sm K) :
  CP_state sm = CP_RECEIVING -> port_enabled sm = true -> elected_self sm = true ->
  new_sak sm = true -> all_receiving sm = true ->
  CP_state (CP_Step sm) = CP_TRANSMIT /\ lki (CP_Step sm) = None /\
  exists k, kay (CP_Step sm) = fst (kay_enable_tx_sas None k).
Proof.
  intros Hst Hen Hel Hnew Hall.
  pose proof (ABANDON_kview sm) as Ha. destruct (ABANDON_inputs sm) as [Hai _].
  remember (CP_ABANDON_Enter sm) as a eqn:Ea.
  pose proof (kview_inv _ _ Ha) as (_ & A2 & _ & _ & _ & _ & _ & _ & _ & A10 & _).
  simpl in A2, A10. destruct (inputs_inv _ _ Hai) as (_ & Ael & _). rewrite Hel in Ael.
  assert (CP_Step sm = CP_TRANSMIT_Enter a) as ->; [|by apply TRANSMIT_null].
  rewrite CP_Step_enabled by assumption. unfold CP_switch. rewrite Hst. unfold seq_cmd.
  rewrite (when_true _ _ sm) by (cbv beta; by rewrite Hnew). rewrite <-Ea.
  rewrite (when_false _ _ a) by (cbv beta; by rewrite Ael).
  apply when_true. cbv beta. by rewrite Ael, A10, Hall.
Qed.

(** ** Witnesses *)

#[global] Transparent CP_RECEIVE_Enter CP_RECEIVING_Enter CP_TRANSMIT_Enter
  CP_TRANSMITTING_Enter CP_RETIRE_Enter CP_ABANDON_Enter CP_READY_Enter.

Definition demo_kay : recorder := mk_recorder false [].
Definition demo_clock : eloop_data cp_handler := eloop_init (mk_reltime 5 0).
Definition key1 : mka_ki := mk_ki (replicate 12 1) 1.
Definition key2 : mka_ki := mk_ki (replicate 12 1) 2.

Definition demo_init : cp_sm recorder :=
  (cp_defaults ;; CP_INIT_Enter ;; CP_Step)%cmd (cp_zalloc demo_kay 7 demo_clock false).

(** The key server secures the connection and installs [key1]. *)
Definition demo_secure : list (cp_event recorder) :=
  [EvSecure; EvElectedSelf true; EvSmStep; EvTimeout;
   EvDistributedKi key1; EvNewSak; EvSmStep; EvTimeout].

Definition demo_receiving : cp_sm recorder := Eval vm_compute in cp_run demo_secure demo_init.

(** ... and then uses it until the old key is retired. *)
Definition demo_retired : cp_sm recorder := Eval vm_compute in
  cp_run [EvAllReceiving true; EvSmStep; EvTimeout] demo_receiving.

Lemma cp_controlled_port_witness :
  port_open (kay demo_retired) = true /\ port_valid demo_retired = true.
Proof.
  destruct (cp_controlled_port demo_kay 7 demo_clock
    (demo_secure ++ [EvAllReceiving true; EvSmStep; EvTimeout]) demo_init demo_retired)
    as (H1 & H2 & _).
  - vm_compute. reflexivity.
  - repeat constructor.
  - vm_compute. reflexivity.
  - rewrite H1, H2. vm_compute. split; reflexivity.
Defined.

Definition demo_rekey : cp_sm recorder := Eval vm_compute in
  cp_run [EvDistributedKi key2; EvNewSak] demo_retired.


Lemma cp_timers_unique_witness :
  NoDup (map handler (owned 7 (loop demo_receiving))).
Proof.
  destruct (cp_timers_unique demo_kay 7 demo_clock demo_secure demo_init demo_receiving)
    as [H _].
  - vm_compute. reflexivity.
  - split; constructor.
  - vm_compute. reflexivity.
  - exact H.
Defined.

(** A second SAK is generated while the first is being received. *)
Definition demo_second_sak : cp_sm recorder := Eval vm_compute in
  cp_run [EvDistributedKi key2; EvNewSak] demo_receiving.

Lemma cp_abandon_loses_sak_witness :
  CP_state (ieee802_1x_cp_step_run demo_second_sak) = CP_ABANDON /\
  lki (ieee802_1x_cp_step_run demo_second_sak) = None.
Proof.
  destruct (cp_abandon_loses_sak demo_second_sak) as (H1 & H2 & _);
    [vm_compute; reflexivity || discriminate..|].
  split; [exact H1 | exact H2].
Defined.

(** The confirmation of the first key arrives just before that. *)
Definition demo_confirmed_sak : cp_sm recorder := Eval vm_compute in
  cp_run [EvAllReceiving true; EvDistributedKi key2; EvNewSak] demo_receiving.

Lemma cp_abandon_null_transmit_witness :
  CP_state (CP_Step demo_confirmed_sak) = CP_TRANSMIT /\
  lki (CP_Step demo_confirmed_sak) = None /\
  In (EnableTxSas None) (rec_log (kay (CP_Step demo_confirmed_sak))).
Proof.
  destruct (cp_abandon_null_transmit demo_confirmed_sak) as (H1 & H2 & _);
    [reflexivity..|].
  split; [exact H1 | split; [exact H2 |]]. vm_compute. tauto.
Defined.
