(* ===== verification/Wpabuf.v ===== *)
(** * Data buffers (src/src/utils/wpabuf.c, wpabuf.h) and big-endian integers

    A [struct wpabuf] is its allocated size, its flags and the bytes in use;
    [used] is their number.  Writing past the allocation aborts the process
    ([wpabuf_overflow]), so an append returns an [option]: [None] is the
    abort.  Allocation failure is the argument [oom]. *)

From S2P Require Import Prelude.

Definition byte (z : Z) : Prop := 0 <= z < 256.
Definition bytes (l : list Z) : Prop := Forall byte l.

#[global] Instance byte_dec z : Decision (byte z).
Proof. unfold byte. apply _. Defined.

(** The byte at an index of a buffer; [None] is a read outside the buffer. *)
Definition rd (l : list Z) (i : Z) : option Z :=
  if 0 <=? i then l !! Z.to_nat i else None.

(** The same read where the source has checked the bounds before. *)
Definition byte_at (l : list Z) (i : Z) : Z := default 0 (rd l i).

Definition zlen {A} (l : list A) : Z := Z.of_nat (length l).

(** Bytes [i .. i+n). *)
Definition slice (l : list Z) (i n : Z) : list Z :=
  take (Z.to_nat n) (drop (Z.to_nat i) l).

(** ** utils/common.h: big-endian accessors *)

Definition WPA_GET_BE16 (a : list Z) (i : Z) : Z :=
  Z.lor (Z.shiftl (byte_at a i) 8) (byte_at a (i + 1)).
Definition WPA_GET_BE24 (a : list Z) (i : Z) : Z :=
  Z.lor (Z.lor (Z.shiftl (byte_at a i) 16) (Z.shiftl (byte_at a (i + 1)) 8))
        (byte_at a (i + 2)).
Definition WPA_GET_BE32 (a : list Z) (i : Z) : Z :=
  Z.lor (Z.lor (Z.lor (Z.shiftl (byte_at a i) 24) (Z.shiftl (byte_at a (i + 1)) 16))
               (Z.shiftl (byte_at a (i + 2)) 8)) (byte_at a (i + 3)).

Definition WPA_PUT_BE16 (val : Z) : list Z :=
  [Z.shiftr (u16 val) 8; Z.land (u16 val) 0xff].
Definition WPA_PUT_BE24 (val : Z) : list Z :=
  [Z.land (Z.shiftr val 16) 0xff; Z.land (Z.shiftr val 8) 0xff; Z.land val 0xff].
Definition WPA_PUT_BE32 (val : Z) : list Z :=
  [Z.land (Z.shiftr val 24) 0xff; Z.land (Z.shiftr val 16) 0xff;
   Z.land (Z.shiftr val 8) 0xff; Z.land val 0xff].

(** ** struct wpabuf *)

Record wpabuf := mk_wpabuf {
  size : Z;
  data : list Z;
  flags : Z
}.

#[global] Instance wpabuf_eq_dec : EqDecision wpabuf.
Proof. solve_decision. Defined.

Definition WPABUF_FLAG_EXT_DATA : Z := 1.

Definition wpabuf_len (b : wpabuf) : Z := zlen (data b).
Definition wpabuf_size (b : wpabuf) : Z := size b.
Definition wpabuf_tailroom (b : wpabuf) : Z := u64 (size b - wpabuf_len b).
Definition wpabuf_head (b : wpabuf) : list Z := data b.

Definition wpabuf_alloc (oom : bool) (len : Z) : option wpabuf :=
  if oom then None else Some (mk_wpabuf len [] 0).

Definition wpabuf_alloc_ext_data (oom : bool) (d : list Z) : option wpabuf :=
  if oom then None else Some (mk_wpabuf (zlen d) d WPABUF_FLAG_EXT_DATA).

(** [wpabuf_put] extends the used part by [len] bytes, which the allocation
    has zeroed; the caller then fills them ([mem_write]). *)
Definition wpabuf_put (b : wpabuf) (len : Z) : option wpabuf :=
  let used := u64 (wpabuf_len b + len) in
  if size b <? used then None
  else Some (mk_wpabuf (size b) (data b ++ replicate (Z.to_nat len) 0) (flags b)).

Definition mem_write (off : Z) (d : list Z) (l : list Z) : list Z :=
  take (Z.to_nat off) l ++ d ++ drop (Z.to_nat off + length d) l.

Definition wpabuf_put_data (b : wpabuf) (d : list Z) : option wpabuf :=
  let off := wpabuf_len b in
  match wpabuf_put b (zlen d) with
  | Some b => Some (mk_wpabuf (size b) (mem_write off d (data b)) (flags b))
  | None => None
  end.

(** [wpabuf_put_data] with a pointer that may be NULL. *)
Definition wpabuf_put_ptr (b : wpabuf) (d : option (list Z)) : option wpabuf :=
  match d with Some d => wpabuf_put_data b d | None => Some b end.

Definition wpabuf_put_u8 (b : wpabuf) (v : Z) : option wpabuf := wpabuf_put_data b [u8 v].
Definition wpabuf_put_be16 (b : wpabuf) (v : Z) : option wpabuf :=
  wpabuf_put_data b (WPA_PUT_BE16 v).
Definition wpabuf_put_be24 (b : wpabuf) (v : Z) : option wpabuf :=
  wpabuf_put_data b (WPA_PUT_BE24 v).
Definition wpabuf_put_be32 (b : wpabuf) (v : Z) : option wpabuf :=
  wpabuf_put_data b (WPA_PUT_BE32 v).
Definition wpabuf_put_buf (dst src : wpabuf) : option wpabuf :=
  wpabuf_put_data dst (wpabuf_head src).
Definition wpabuf_put_str (dst : wpabuf) (str : list Z) : option wpabuf :=
  wpabuf_put_data dst str.

(** Allocation that may return NULL ([Some None]), then an append that may
    abort ([None]). *)
Definition wpabuf_alloc_copy (oom : bool) (d : list Z) : option (option wpabuf) :=
  match wpabuf_alloc oom (zlen d) with
  | Some b => option_map Some (wpabuf_put_data b d)
  | None => Some None
  end.

Definition wpabuf_dup (oom : bool) (src : wpabuf) : option (option wpabuf) :=
  match wpabuf_alloc oom (wpabuf_len src) with
  | Some b => option_map Some (wpabuf_put_data b (wpabuf_head src))
  | None => Some None
  end.

(** The returned code and the new value of [*_buf]. *)
Definition wpabuf_resize (oom : bool) (b : option wpabuf) (add_len : Z) : Z * option wpabuf :=
  match b with
  | None =>
      let b := wpabuf_alloc oom add_len in
      ((if non_null b then 0 else -1), b)
  | Some buf =>
      let want := u64 (wpabuf_len buf + add_len) in
      if size buf <? want then
        if oom then (-1, Some buf)
        else (0, Some (mk_wpabuf want (data buf) (flags buf)))
      else (0, Some buf)
  end.

Definition wpabuf_concat (oom : bool) (a b : option wpabuf) : option (option wpabuf) :=
  match b with
  | None => Some a
  | Some bb =>
      let len := match a with Some aa => wpabuf_len aa | None => 0 end in
      match wpabuf_alloc oom (u64 (len + wpabuf_len bb)) with
      | None => Some None
      | Some n =>
          match (match a with Some aa => wpabuf_put_buf n aa | None => Some n end) with
          | Some n => option_map Some (wpabuf_put_buf n bb)
          | None => None
          end
      end
  end.

Definition wpabuf_zeropad (oom : bool) (buf : option wpabuf) (len : Z)
    : option (option wpabuf) :=
  match buf with
  | None => Some None
  | Some b =>
      if len <=? wpabuf_len b then Some buf
      else match wpabuf_alloc oom len with
           | None => Some None
           | Some ret =>
               match wpabuf_put ret (len - wpabuf_len b) with
               | Some ret => option_map Some (wpabuf_put_buf ret b)
               | None => None
               end
           end
  end.

(** ** Lemmas *)

Lemma zlen_nonneg {A} (l : list A) : 0 <= zlen l.
Proof. unfold zlen. lia. Qed.
Lemma zlen_app {A} (l k : list A) : zlen (l ++ k) = zlen l + zlen k.
Proof. unfold zlen. rewrite length_app. lia. Qed.
Lemma zlen_cons {A} (a : A) l : zlen (a :: l) = 1 + zlen l.
Proof. unfold zlen. simpl. lia. Qed.
Lemma zlen_nil {A} : zlen (@nil A) = 0.
Proof. done. Qed.
Lemma zlen_replicate {A} n (a : A) : zlen (replicate n a) = Z.of_nat n.
Proof. unfold zlen. by rewrite length_replicate. Qed.

Create Rewrite HintDb zlen.
#[export] Hint Rewrite @zlen_app @zlen_cons @zlen_nil @zlen_replicate : zlen.

Ltac zlen :=
  repeat match goal with
  | l : list _ |- _ =>
      lazymatch goal with H : 0 <= zlen l |- _ => fail | _ => pose proof (zlen_nonneg l) end
  end;
  autorewrite with zlen in *; try lia.

Lemma rd_some l i : 0 <= i < zlen l -> exists v, rd l i = Some v.
Proof.
  unfold rd, zlen. intros [H0 H1]. destruct (0 <=? i) eqn:E; bool_hyps; [|lia].
  apply lookup_lt_is_Some_2. lia.
Qed.

Lemma rd_inv l i v : rd l i = Some v -> 0 <= i < zlen l.
Proof.
  unfold rd, zlen. destruct (0 <=? i) eqn:E; [|done]. bool_hyps. intros H.
  apply lookup_lt_Some in H. lia.
Qed.

Lemma bytes_app l k : bytes (l ++ k) <-> bytes l /\ bytes k.
Proof. apply Forall_app. Qed.

Lemma byte_at_byte l i : bytes l -> byte (byte_at l i).
Proof.
  unfold byte_at, rd. intros H. case_match; [|unfold byte; simpl; lia].
  destruct (l !! Z.to_nat i) as [v|] eqn:E; simpl; [|unfold byte; lia].
  eapply Forall_lookup_1; eassumption.
Qed.

Lemma byte_at_app_r l k i : zlen l <= i -> byte_at (l ++ k) i = byte_at k (i - zlen l).
Proof.
  unfold byte_at, rd, zlen. intros H. repeat case_match; bool_hyps; try lia.
  rewrite lookup_app_r by lia. do 2 f_equal. lia.
Qed.

Lemma byte_at_app_l l k i : i < zlen l -> byte_at (l ++ k) i = byte_at l i.
Proof.
  unfold byte_at, rd, zlen. intros H. case_match; bool_hyps; [|done].
  by rewrite lookup_app_l by lia.
Qed.

(** [hi << 8 | lo] with a byte in the low part is a sum. *)
Lemma shiftl_lor a b n : 0 <= n -> 0 <= b < 2 ^ n -> Z.lor (Z.shiftl a n) b = a * 2 ^ n + b.
Proof.
  intros Hn Hb. assert (H0 : Z.land (Z.shiftl a n) b = 0).
  { apply Z.bits_inj'. intros k Hk. rewrite Z.land_spec, Z.bits_0.
    destruct (Z.lt_ge_cases k n) as [Hlt|Hge]; [by rewrite Z.shiftl_spec_low|].
    destruct (decide (b = 0)) as [->|]; [by rewrite Z.bits_0, andb_false_r|].
    rewrite (Z.bits_above_log2 b); [by rewrite andb_false_r|lia|].
    apply Z.log2_lt_pow2; [lia|]. eapply Z.lt_le_trans; [apply Hb|].
    apply Z.pow_le_mono_r; lia. }
  pose proof (Z.add_lor_land (Z.shiftl a n) b) as H. rewrite H0 in H.
  rewrite Z.shiftl_mul_pow2 in * by lia. lia.
Qed.

Lemma land_ff z : Z.land z 0xff = z mod 256.
Proof. change 0xff with (Z.ones 8). by rewrite Z.land_ones. Qed.

(** Append: the bytes in use grow by exactly the data, or the process aborts
    for want of room. *)
Lemma put_data_spec b d :
  wpabuf_len b + zlen d < 2 ^ 64 ->
  wpabuf_put_data b d =
    if size b <? wpabuf_len b + zlen d then None
    else Some (mk_wpabuf (size b) (data b ++ d) (flags b)).
Proof.
  intros Hlt. unfold wpabuf_put_data, wpabuf_put, wpabuf_len in *. unfold u64.
  pose proof (zlen_nonneg (data b)). pose proof (zlen_nonneg d).
  rewrite Z.mod_small by lia. destruct (size b <? _); simpl; [done|]. do 2 f_equal.
  unfold mem_write, zlen. rewrite Nat2Z.id.
  rewrite take_app_length. rewrite drop_ge; [by rewrite app_nil_r|].
  rewrite length_app, length_replicate. lia.
Qed.

Lemma u64_le z : 0 <= z -> u64 z <= z.
Proof. intros. unfold u64. apply Z.mod_le; lia. Qed.

Lemma put_data_ok b d :
  wpabuf_len b + zlen d <= size b ->
  wpabuf_put_data b d = Some (mk_wpabuf (size b) (data b ++ d) (flags b)).
Proof.
  intros H. unfold wpabuf_put_data, wpabuf_put, wpabuf_len in *.
  pose proof (zlen_nonneg (data b)). pose proof (zlen_nonneg d).
  pose proof (u64_le (zlen (data b) + zlen d)).
  destruct (size b <? _) eqn:E; simpl; bool_hyps; [lia|]. do 2 f_equal.
  unfold mem_write, zlen. rewrite Nat2Z.id, Nat2Z.id, take_app_length.
  rewrite drop_ge; [by rewrite app_nil_r|]. rewrite length_app, length_replicate. lia.
Qed.

(** Copying a buffer never aborts. *)
Lemma dup_ok src :
  wpabuf_dup false src = Some (Some (mk_wpabuf (wpabuf_len src) (data src) 0)).
Proof.
  unfold wpabuf_dup, wpabuf_alloc, wpabuf_head.
  by rewrite put_data_ok by (unfold wpabuf_len; cbn [data size]; zlen).
Qed.

Lemma alloc_copy_ok d : wpabuf_alloc_copy false d = Some (Some (mk_wpabuf (zlen d) d 0)).
Proof.
  unfold wpabuf_alloc_copy, wpabuf_alloc.
  by rewrite put_data_ok by (unfold wpabuf_len; cbn [data size]; zlen).
Qed.

Lemma put_be16_bytes v : bytes (WPA_PUT_BE16 v).
Proof.
  unfold WPA_PUT_BE16, bytes, byte. pose proof (u16_range v) as Hv.
  rewrite land_ff, Z.shiftr_div_pow2 by lia. change (2 ^ 8) with 256.
  pose proof (Z.mod_pos_bound (u16 v) 256). pose proof (Z.div_pos (u16 v) 256).
  pose proof (Z.div_lt_upper_bound (u16 v) 256 256).
  apply Forall_cons; split; [lia|]. apply Forall_cons; split; [lia|]. by apply Forall_nil.
Qed.

Lemma get_put_be16 l v k : WPA_GET_BE16 (l ++ WPA_PUT_BE16 v ++ k) (zlen l) = u16 v.
Proof.
  unfold WPA_GET_BE16.
  rewrite (byte_at_app_r l _ (zlen l)), (byte_at_app_r l _ (zlen l + 1)) by lia.
  replace (zlen l - zlen l) with 0 by lia. replace (zlen l + 1 - zlen l) with 1 by lia.
  pose proof (u16_range v) as Hv. pose proof (Z.mod_pos_bound (u16 v) 256 ltac:(lia)) as Hm.
  transitivity (Z.lor (Z.shiftl (Z.shiftr (u16 v) 8) 8) (Z.land (u16 v) 255)); [reflexivity|].
  rewrite land_ff, shiftl_lor, Z.shiftr_div_pow2 by lia.
  change (2 ^ 8) with 256. rewrite (Z.div_mod (u16 v) 256) at 3 by lia. lia.
Qed.

Lemma get_be16_range a i : bytes a -> 0 <= WPA_GET_BE16 a i < 65536.
Proof.
  intros H. unfold WPA_GET_BE16.
  pose proof (byte_at_byte a i H) as [A1 A2]. pose proof (byte_at_byte a (i + 1) H) as [B1 B2].
  rewrite shiftl_lor; lia.
Qed.

(** Bytes in big-endian order are the digits of a number. *)
Lemma be16_val a b : byte b -> Z.lor (Z.shiftl a 8) b = a * 256 + b.
Proof. intros H. rewrite shiftl_lor; [reflexivity|lia|exact H]. Qed.

Lemma be24_val a b c :
  byte b -> byte c -> Z.lor (Z.lor (Z.shiftl a 16) (Z.shiftl b 8)) c = (a * 256 + b) * 256 + c.
Proof.
  intros Hb Hc. unfold byte in *. replace (Z.shiftl a 16) with (Z.shiftl (Z.shiftl a 8) 8)
    by (rewrite Z.shiftl_shiftl by lia; reflexivity).
  rewrite <-Z.shiftl_lor, be16_val, be16_val by done. reflexivity.
Qed.

Lemma be32_val a b c d :
  byte b -> byte c -> byte d ->
  Z.lor (Z.lor (Z.lor (Z.shiftl a 24) (Z.shiftl b 16)) (Z.shiftl c 8)) d =
    ((a * 256 + b) * 256 + c) * 256 + d.
Proof.
  intros Hb Hc Hd.
  replace (Z.shiftl a 24) with (Z.shiftl (Z.shiftl a 16) 8) by (rewrite Z.shiftl_shiftl by lia; reflexivity).
  replace (Z.shiftl b 16) with (Z.shiftl (Z.shiftl b 8) 8) by (rewrite Z.shiftl_shiftl by lia; reflexivity).
  rewrite <-!Z.shiftl_lor, be24_val, be16_val by done. reflexivity.
Qed.

Lemma byte_at_app_off l k i : 0 <= i -> byte_at (l ++ k) (zlen l + i) = byte_at k i.
Proof. intros Hi. rewrite byte_at_app_r by lia. f_equal. lia. Qed.

Lemma byte_at_app_0 l k : byte_at (l ++ k) (zlen l) = byte_at k 0.
Proof. rewrite byte_at_app_r by lia. f_equal. lia. Qed.

Lemma shiftr_byte v n : 0 <= n -> Z.land (Z.shiftr v n) 0xff = (v / 2 ^ n) mod 256.
Proof. intros. by rewrite land_ff, Z.shiftr_div_pow2. Qed.

Lemma mod_byte v : byte (v mod 256).
Proof. unfold byte. apply Z.mod_pos_bound. lia. Qed.

Lemma get_put_be24 l v k : WPA_GET_BE24 (l ++ WPA_PUT_BE24 v ++ k) (zlen l) = v mod 2 ^ 24.
Proof.
  unfold WPA_GET_BE24. rewrite !byte_at_app_off, byte_at_app_0 by lia.
  unfold WPA_PUT_BE24. rewrite !shiftr_byte, land_ff by lia.
  change (byte_at _ 0) with ((v / 2 ^ 16) mod 256). change (byte_at _ 1) with ((v / 2 ^ 8) mod 256).
  change (byte_at _ 2) with (v mod 256). rewrite be24_val by apply mod_byte.
  change (2 ^ 24) with (256 * (256 * 256)). change (2 ^ 16) with (256 * 256).
  change (2 ^ 8) with 256. rewrite <-Z.div_div by lia.
  rewrite (Z.rem_mul_r v 256 (256 * 256)), (Z.rem_mul_r (v / 256) 256 256) by lia. lia.
Qed.

Lemma get_put_be32 l v k : WPA_GET_BE32 (l ++ WPA_PUT_BE32 v ++ k) (zlen l) = u32 v.
Proof.
  unfold WPA_GET_BE32, u32. rewrite !byte_at_app_off, byte_at_app_0 by lia.
  unfold WPA_PUT_BE32. rewrite !shiftr_byte, land_ff by lia.
  change (byte_at _ 0) with ((v / 2 ^ 24) mod 256). change (byte_at _ 1) with ((v / 2 ^ 16) mod 256).
  change (byte_at _ 2) with ((v / 2 ^ 8) mod 256).
  change (byte_at _ 3) with (v mod 256). rewrite be32_val by apply mod_byte.
  change (2 ^ 32) with (256 * (256 * (256 * 256))). change (2 ^ 24) with (256 * (256 * 256)).
  change (2 ^ 16) with (256 * 256). change (2 ^ 8) with 256. rewrite <-!Z.div_div by lia.
  rewrite (Z.rem_mul_r v 256 (256 * (256 * 256))), (Z.rem_mul_r (v / 256) 256 (256 * 256)),
    (Z.rem_mul_r (v / 256 / 256) 256 256) by lia. lia.
Qed.

Lemma slice_app_r l k i n : zlen l <= i -> slice (l ++ k) i n = slice k (i - zlen l) n.
Proof.
  unfold slice, zlen. intros H. rewrite drop_app_ge by lia. do 2 f_equal. lia.
Qed.

Lemma slice_all l : slice l 0 (zlen l) = l.
Proof. unfold slice, zlen. rewrite Nat2Z.id. simpl. apply firstn_all. Qed.

(** ** Buffers as byte strings

    The abstract view of a buffer is what it holds and how much it can hold;
    each operation of the C interface is a partial function on that view,
    undefined where the process aborts. *)

Inductive wpabuf_op :=
  | OpPut (d : list Z)
  | OpResize (oom : bool) (add_len : Z)
  | OpConcat (oom : bool) (b : option wpabuf)
  | OpZeropad (oom : bool) (len : Z)
  | OpDup (oom : bool).

(** [None]: abort; [Some None]: NULL. *)
Definition run_op (op : wpabuf_op) (b : wpabuf) : option (option wpabuf) :=
  match op with
  | OpPut d => option_map Some (wpabuf_put_data b d)
  | OpResize oom n => Some (snd (wpabuf_resize oom (Some b) n))
  | OpConcat oom b' => wpabuf_concat oom (Some b) b'
  | OpZeropad oom n => wpabuf_zeropad oom (Some b) n
  | OpDup oom => wpabuf_dup oom b
  end.

Definition contents (b : wpabuf) : list Z * Z := (data b, size b).

Definition spec_op (op : wpabuf_op) (v : list Z * Z) : option (option (list Z * Z)) :=
  let '(d, cap) := v in
  match op with
  | OpPut e => if cap <? zlen d + zlen e then None else Some (Some (d ++ e, cap))
  | OpResize oom n => Some (Some (d, if oom then cap else Z.max cap (zlen d + n)))
  | OpConcat oom None => Some (Some v)
  | OpConcat oom (Some b) =>
      Some (if oom then None else Some (d ++ data b, zlen d + zlen (data b)))
  | OpZeropad oom n =>
      Some (if n <=? zlen d then Some v
            else if oom then None else Some (replicate (Z.to_nat (n - zlen d)) 0 ++ d, n))
  | OpDup oom => Some (if oom then None else Some (d, zlen d))
  end.

(** What is in use fits, and sizes are far from [SIZE_MAX]. *)
Definition wpabuf_wf (b : wpabuf) : Prop := wpabuf_len b <= size b < 2 ^ 62.

Definition op_ok (op : wpabuf_op) : Prop :=
  match op with
  | OpPut d => zlen d < 2 ^ 62
  | OpResize _ n | OpZeropad _ n => 0 <= n < 2 ^ 61
  | OpConcat _ (Some b) => wpabuf_wf b /\ wpabuf_len b < 2 ^ 61
  | _ => True
  end.

Definition small (b : wpabuf) : Prop := wpabuf_len b < 2 ^ 61.

Lemma u64_small z : 0 <= z < 2 ^ 64 -> u64 z = z.
Proof. intros. unfold u64. by apply Z.mod_small. Qed.

(** C31: A buffer is the byte string it holds: every operation on a
    well-formed buffer does to it what the abstract operation does to the
    string and the capacity, aborts exactly where that is undefined (an append
    without room), and gives a well-formed buffer. *)
Theorem wpabuf_refines op b :
  wpabuf_wf b -> small b -> op_ok op ->
  option_map (option_map contents) (run_op op b) = spec_op op (contents b) /\
  match run_op op b with Some (Some b') => wpabuf_wf b' | _ => True end.
Proof.
  unfold wpabuf_wf, small, wpabuf_len. destruct b as [sz d fl]. cbn [size data contents] in *.
  intros [H1 H2] Hs Hop. cbn [size data] in *. pose proof (zlen_nonneg d) as H0.
  destruct op as [e|oom n|oom [[sz' e fl']|]|oom n|oom]; cbn [run_op spec_op op_ok contents data size] in *.
  - rewrite put_data_spec by (unfold wpabuf_len; cbn [data]; lia). unfold wpabuf_len. cbn [size data].
    destruct (Z.ltb_spec sz (zlen d + zlen e)); [done|]. split; [done|].
    cbn. rewrite zlen_app. lia.
  - unfold wpabuf_resize, wpabuf_len. cbn [size data]. rewrite u64_small by lia.
    destruct (Z.ltb_spec sz (zlen d + n)), oom; cbn; (split; [|lia]); unfold contents; cbn [size data]; do 3 f_equal; lia.
  - unfold wpabuf_wf, wpabuf_len in Hop. cbn [size data] in *. destruct Hop as [[H3 H4] H5].
    pose proof (zlen_nonneg e). unfold wpabuf_concat, wpabuf_len, wpabuf_alloc. cbn [size data].
    rewrite u64_small by lia. destruct oom; [done|]. unfold wpabuf_put_buf, wpabuf_head. cbn [data].
    rewrite put_data_ok by (unfold wpabuf_len; cbn [data size]; rewrite zlen_nil; lia). cbn [data size app].
    rewrite put_data_ok by (unfold wpabuf_len; cbn [data size app]; lia). cbn. split; [done|]. zlen.
  - done.
  - unfold wpabuf_zeropad, wpabuf_len, wpabuf_alloc. cbn [data size]. destruct (Z.leb_spec n (zlen d)); [done|].
    destruct oom; [done|]. unfold wpabuf_put, wpabuf_len. cbn [data size]. rewrite zlen_nil, u64_small by lia.
    rewrite (proj2 (Z.ltb_ge _ _)) by lia. unfold wpabuf_put_buf, wpabuf_head. cbn [data app].
    rewrite put_data_ok by (unfold wpabuf_len; cbn [data size app]; rewrite zlen_replicate; lia).
    cbn. split; [done|]. rewrite zlen_app, zlen_replicate. lia.
  - destruct oom; [done|]. rewrite dup_ok. unfold wpabuf_len. cbn. split; [done|lia].
Qed.

Lemma wpabuf_refines_witness :
  option_map (option_map contents)
    (run_op (OpConcat false (Some (mk_wpabuf 4 [3; 4] 0))) (mk_wpabuf 8 [1; 2] 0)) =
  Some (Some ([1; 2; 3; 4], 4)).
Proof.
  apply (wpabuf_refines (OpConcat false (Some (mk_wpabuf 4 [3; 4] 0))) (mk_wpabuf 8 [1; 2] 0));
    by vm_compute.
Defined.
