(* ===== verification/Common.v ===== *)
(** * Common helper functions (src/src/utils/common.c)

    Text and byte arrays are lists of integers 0..255.  A C string is such a
    list without its terminator; reading it at its length gives the NUL
    ([chr]).  A function that fills a caller's buffer takes the buffer's old
    contents and returns the new ones, so that what it leaves untouched is
    visible. *)

From Stdlib Require Import Ascii String.
From S2P Require Import Prelude.
From S2P Require Import Wpabuf.

Definition chars (s : string) : list Z :=
  map (fun c => Z.of_nat (nat_of_ascii c)) (list_ascii_of_string s).

(** The character at an index of a NUL-terminated string. *)
Definition chr (s : list Z) (i : nat) : Z := nth i s 0.

(** The string a pointer to [l] denotes: up to its first NUL. *)
Fixpoint c_string (l : list Z) : list Z :=
  match l with
  | [] => []
  | c :: l => if c =? 0 then [] else c :: c_string l
  end.

(** ** Hexadecimal text *)

Definition hex2num (c : Z) : Z :=
  if (48 <=? c) && (c <=? 57) then c - 48
  else if (97 <=? c) && (c <=? 102) then c - 97 + 10
  else if (65 <=? c) && (c <=? 70) then c - 65 + 10
  else -1.

(** [hex2byte] of a string: the second character is read only when the first
    is a digit. *)
Definition hex2byte (hex : list Z) : Z :=
  let a := hex2num (chr hex 0) in
  if a <? 0 then -1
  else
    let b := hex2num (chr hex 1) in
    if b <? 0 then -1 else Z.lor (Z.shiftl a 4) b.

(** [hexstr2bin]: the decoded bytes, [None] for the error. *)
Fixpoint hexstr2bin (hex : list Z) (len : nat) : option (list Z) :=
  match len with
  | O => Some []
  | S len =>
      let a := hex2byte hex in
      if a <? 0 then None
      else option_map (cons (u8 a)) (hexstr2bin (drop 2 hex) len)
  end.

Definition hex_digit (upper : bool) (n : Z) : Z :=
  if n <? 10 then 48 + n else (if upper then 65 else 97) + (n - 10).

(** What ["%02x"] prints for a byte. *)
Definition hex_byte (upper : bool) (b : Z) : list Z :=
  [hex_digit upper (Z.shiftr b 4); hex_digit upper (Z.land b 15)].

(** [os_snprintf(pos, size, ...)] of a text: the buffer gets as much of it as
    fits before the terminator, and the length of the whole text is
    returned. *)
Definition os_snprintf (buf : list Z) (pos size : Z) (text : list Z) : list Z * Z :=
  ((if size <=? 0 then buf
    else mem_write pos (take (Z.to_nat (size - 1)) text ++ [0]) buf), zlen text).

Definition os_snprintf_error (size res : Z) : bool := (res <? 0) || (size <=? res).

Fixpoint snprintf_hex_loop (upper : bool) (buf : list Z) (pos buf_size : Z) (d : list Z)
    : list Z * Z :=
  match d with
  | [] => (mem_write (buf_size - 1) [0] buf, pos)
  | b :: d =>
      let '(buf', ret) := os_snprintf buf pos (buf_size - pos) (hex_byte upper b) in
      if os_snprintf_error (buf_size - pos) ret
      then (mem_write (buf_size - 1) [0] buf', pos)
      else snprintf_hex_loop upper buf' (pos + ret) buf_size d
  end.

(** [_wpa_snprintf_hex] into a buffer of [zlen buf] bytes: its new contents
    and the returned length. *)
Definition snprintf_hex (upper : bool) (buf : list Z) (d : list Z) : list Z * Z :=
  if zlen buf =? 0 then (buf, 0) else snprintf_hex_loop upper buf 0 (zlen buf) d.

Definition wpa_snprintf_hex := snprintf_hex false.
Definition wpa_snprintf_hex_uppercase := snprintf_hex true.

(** ** The C library *)

Definition tolower (c : Z) : Z := if (65 <=? c) && (c <=? 90) then c + 32 else c.

(** [strcasecmp(a, b) == 0] and [strcmp(a, b) == 0]. *)
Definition strcaseeq (a b : list Z) : bool :=
  bool_decide (map tolower (c_string a) = map tolower (c_string b)).
Definition streq (a b : list Z) : bool := bool_decide (c_string a = c_string b).

Definition isspace (c : Z) : bool := (c =? 32) || ((9 <=? c) && (c <=? 13)).
Definition isdigit (c : Z) : bool := (48 <=? c) && (c <=? 57).

Fixpoint skip_space (l : list Z) : list Z :=
  match l with
  | c :: l' => if isspace c then skip_space l' else l
  | [] => []
  end.

Fixpoint decimal (acc : Z) (l : list Z) : Z :=
  match l with
  | c :: l => if isdigit c then decimal (acc * 10 + (c - 48)) l else acc
  | [] => acc
  end.

(** [atoi]: the [long] that [strtol] returns, which saturates, cut to an
    [int]. *)
Definition atoi (l : list Z) : Z :=
  let v :=
    match skip_space l with
    | 45 :: l => - decimal 0 l
    | 43 :: l => decimal 0 l
    | l => decimal 0 l
    end in
  i32 (Z.max (- 2 ^ 63) (Z.min (2 ^ 63 - 1) v)).
