(* ===== verification/EapCommon.v ===== *)
(** * EAP packets (src/src/eap_common/eap_common.c, eap_defs.h)

    Header validation, message construction and the ERP TLV parser.  Reads
    that the source makes through a pointer go through [rd], so a parser
    returns [None] where the C code would read outside the buffer; the lemmas
    show that it never does.  A pointer into a message is its offset. *)

From S2P Require Import Prelude.
From S2P Require Import Wpabuf.

(** ** eap_defs.h *)

Definition EAP_CODE_REQUEST : Z := 1.
Definition EAP_CODE_RESPONSE : Z := 2.
Definition EAP_CODE_SUCCESS : Z := 3.
Definition EAP_CODE_FAILURE : Z := 4.
Definition EAP_CODE_INITIATE : Z := 5.
Definition EAP_CODE_FINISH : Z := 6.

Definition EAP_ERP_TYPE_REAUTH_START : Z := 1.
Definition EAP_ERP_TYPE_REAUTH : Z := 2.

Definition EAP_ERP_TLV_KEYNAME_NAI : Z := 1.
Definition EAP_ERP_TV_RRK_LIFETIME : Z := 2.
Definition EAP_ERP_TV_RMSK_LIFETIME : Z := 3.
Definition EAP_ERP_TLV_DOMAIN_NAME : Z := 4.
Definition EAP_ERP_TLV_CRYPTOSUITES : Z := 5.
Definition EAP_ERP_TLV_AUTHORIZATION_INDICATION : Z := 6.

Definition EAP_ERP_CS_HMAC_SHA256_128 : Z := 2.
Definition EAP_ERP_CS_HMAC_SHA256_256 : Z := 3.

Definition EAP_TYPE_NONE : Z := 0.
Definition EAP_TYPE_IDENTITY : Z := 1.
Definition EAP_TYPE_NOTIFICATION : Z := 2.
Definition EAP_TYPE_NAK : Z := 3.
Definition EAP_TYPE_GTC : Z := 6.
Definition EAP_TYPE_EXPANDED : Z := 254.
Definition EAP_VENDOR_IETF : Z := 0.

Definition EAP_EMSK_NAME_LEN : Z := 8.
Definition ERP_MAX_KEY_LEN : Z := 64.

(** [sizeof(struct eap_hdr)] and its members: code, identifier, and a
    big-endian length that counts the header. *)
Definition sizeof_eap_hdr : Z := 4.
Definition hdr_code (m : list Z) : Z := byte_at m 0.
Definition hdr_identifier (m : list Z) : Z := byte_at m 1.
Definition hdr_length (m : list Z) : Z := WPA_GET_BE16 m 2.

Definition eap_hdr_bytes (code id len : Z) : list Z :=
  [u8 code; u8 id] ++ WPA_PUT_BE16 len.

(** ** eap_common.c *)

Definition eap_hdr_len_valid (msg : option wpabuf) (min_payload : Z) : bool :=
  match msg with
  | None => false
  | Some msg =>
      if wpabuf_len msg <? sizeof_eap_hdr then false
      else
        let len := hdr_length (wpabuf_head msg) in
        if (len <? sizeof_eap_hdr + min_payload) || (wpabuf_len msg <? len)
        then false else true
  end.

(** [Some (Some (pos, plen))]: a pointer to the payload and its length;
    [Some None]: NULL. *)
Definition eap_hdr_validate (vendor eap_type : Z) (msg : option wpabuf)
    : option (option (Z * Z)) :=
  match msg with
  | None => Some None
  | Some b =>
      if negb (eap_hdr_len_valid msg 1) then Some None
      else
        let h := wpabuf_head b in
        let len := hdr_length h in
        let pos := sizeof_eap_hdr in
        match rd h pos with
        | None => None
        | Some t =>
            if t =? EAP_TYPE_EXPANDED then
              if len <? sizeof_eap_hdr + 8 then Some None
              else
                match rd h (pos + 7) with
                | None => None
                | Some _ =>
                    let exp_vendor := WPA_GET_BE24 h (pos + 1) in
                    let exp_type := WPA_GET_BE32 h (pos + 4) in
                    if negb (exp_vendor =? vendor) || negb (exp_type =? u32 eap_type)
                    then Some None
                    else Some (Some (pos + 8, len - sizeof_eap_hdr - 8))
                end
            else if negb (vendor =? EAP_VENDOR_IETF) || negb (t =? eap_type)
            then Some None
            else Some (Some (pos + 1, len - sizeof_eap_hdr - 1))
        end
  end.

(** [Some None]: allocation failed; [None]: the process aborted. *)
Definition eap_msg_alloc (oom : bool) (vendor type payload_len code identifier : Z)
    : option (option wpabuf) :=
  let len := sizeof_eap_hdr + (if vendor =? EAP_VENDOR_IETF then 1 else 8) + payload_len in
  match wpabuf_alloc oom len with
  | None => Some None
  | Some buf =>
      let? buf := wpabuf_put_data buf (eap_hdr_bytes code identifier len) in
      if vendor =? EAP_VENDOR_IETF then option_map Some (wpabuf_put_u8 buf type)
      else
        let? buf := wpabuf_put_u8 buf EAP_TYPE_EXPANDED in
        let? buf := wpabuf_put_be24 buf vendor in
        option_map Some (wpabuf_put_be32 buf type)
  end.

Definition eap_update_len (msg : wpabuf) : wpabuf :=
  if wpabuf_len msg <? sizeof_eap_hdr then msg
  else mk_wpabuf (size msg) (mem_write 2 (WPA_PUT_BE16 (wpabuf_len msg)) (data msg)) (flags msg).

Definition eap_get_id (msg : wpabuf) : Z :=
  if wpabuf_len msg <? sizeof_eap_hdr then 0 else hdr_identifier (wpabuf_head msg).

Definition eap_get_type (msg : wpabuf) : Z :=
  if wpabuf_len msg <? sizeof_eap_hdr + 1 then EAP_TYPE_NONE
  else byte_at (wpabuf_head msg) sizeof_eap_hdr.

Record erp_tlvs := mk_erp_tlvs {
  keyname : option Z; domain : option Z; keyname_len : Z; domain_len : Z
}.

Definition erp_tlvs_zero : erp_tlvs := mk_erp_tlvs None None 0 0.

Definition is_tv (t : Z) : bool :=
  (t =? EAP_ERP_TV_RRK_LIFETIME) || (t =? EAP_ERP_TV_RMSK_LIFETIME).

Definition is_tlv (t : Z) : bool :=
  (t =? EAP_ERP_TLV_DOMAIN_NAME) || (t =? EAP_ERP_TLV_KEYNAME_NAI) ||
  (t =? EAP_ERP_TLV_CRYPTOSUITES) || (t =? EAP_ERP_TLV_AUTHORIZATION_INDICATION) ||
  ((128 <=? t) && (t <=? 132)).

(** The outcome of [erp_parse_tlvs]: the return code and what was parsed. *)
Fixpoint erp_parse_loop (fuel : nat) (m : list Z) (pos end_ : Z) (tlvs : erp_tlvs)
    (stop_at_keyname : bool) : option (Z * erp_tlvs) :=
  match fuel with
  | O => None
  | S fuel =>
      if end_ <=? pos then Some (0, tlvs)
      else
        let? tlv_type := rd m pos in
        let pos := pos + 1 in
        if is_tv tlv_type then
          if end_ <? pos + 4 then Some (-1, tlvs)
          else erp_parse_loop fuel m (pos + 4) end_ tlvs stop_at_keyname
        else if is_tlv tlv_type then
          if end_ <=? pos then Some (-1, tlvs)
          else
            let? tlv_len := rd m pos in
            let pos := pos + 1 in
            if end_ - pos <? tlv_len then Some (-1, tlvs)
            else if tlv_type =? EAP_ERP_TLV_KEYNAME_NAI then
              if non_null (keyname tlvs) then Some (-1, tlvs)
              else
                let tlvs := mk_erp_tlvs (Some pos) (domain tlvs) tlv_len (domain_len tlvs) in
                if stop_at_keyname then Some (0, tlvs)
                else erp_parse_loop fuel m (pos + tlv_len) end_ tlvs stop_at_keyname
            else
              let tlvs :=
                if tlv_type =? EAP_ERP_TLV_DOMAIN_NAME
                then mk_erp_tlvs (keyname tlvs) (Some pos) (keyname_len tlvs) tlv_len
                else tlvs in
              erp_parse_loop fuel m (pos + tlv_len) end_ tlvs stop_at_keyname
        else if (128 <=? tlv_type) && (tlv_type <=? 191) then
          if end_ <=? pos then Some (-1, tlvs)
          else
            let? tlv_len := rd m pos in
            let pos := pos + 1 in
            if end_ - pos <? tlv_len then Some (-1, tlvs)
            else erp_parse_loop fuel m (pos + tlv_len) end_ tlvs stop_at_keyname
        else erp_parse_loop fuel m end_ end_ tlvs stop_at_keyname
  end.

(** Every iteration consumes a byte, so the length of the area is fuel
    enough. *)
Definition erp_parse_tlvs (m : list Z) (pos end_ : Z) (stop_at_keyname : bool)
    : option (Z * erp_tlvs) :=
  erp_parse_loop (S (Z.to_nat (end_ - pos))) m pos end_ erp_tlvs_zero stop_at_keyname.

(** ** Lemmas *)

Lemma hdr_len_valid_inv b n :
  0 <= n -> eap_hdr_len_valid (Some b) n = true ->
  4 + n <= hdr_length (data b) <= wpabuf_len b.
Proof.
  unfold eap_hdr_len_valid, sizeof_eap_hdr, wpabuf_head. intros Hn H.
  destruct (wpabuf_len b <? 4); [done|].
  destruct (_ || _) eqn:E; [done|]. bool_hyps. lia.
Qed.

(** The validated payload lies inside the buffer, and the parser reads
    nothing outside it. *)
Lemma hdr_validate_bounds vendor type msg :
  match eap_hdr_validate vendor type msg with
  | None => False
  | Some None => True
  | Some (Some (pos, plen)) =>
      exists b, msg = Some b /\ 5 <= pos /\ 0 <= plen /\
        pos + plen = hdr_length (data b) /\ pos + plen <= wpabuf_len b
  end.
Proof.
  destruct msg as [b|]; simpl; [|done].
  destruct (negb (eap_hdr_len_valid (Some b) 1)) eqn:Hv; bool_hyps;
    unfold eap_hdr_len_valid in Hv; unfold eap_hdr_len_valid, wpabuf_head in *;
    [by rewrite Hv|].
  rewrite Hv. simpl. apply (hdr_len_valid_inv b 1) in Hv; [|lia].
  unfold sizeof_eap_hdr, wpabuf_len in *.
  destruct (rd_some (data b) 4) as [t ->]; [lia|].
  destruct (t =? EAP_TYPE_EXPANDED).
  - destruct (hdr_length (data b) <? 4 + 8) eqn:E; [done|]. bool_hyps.
    destruct (rd_some (data b) (4 + 7)) as [? ->]; [lia|].
    destruct (_ || _); [done|]. exists b. repeat split; lia.
  - destruct (_ || _); [done|]. exists b. repeat split; lia.
Qed.

Lemma hdr_validate_safe vendor type msg : eap_hdr_validate vendor type msg <> None.
Proof.
  pose proof (hdr_validate_bounds vendor type msg) as H.
  by destruct (eap_hdr_validate vendor type msg).
Qed.

(** What the parser guarantees about the pointers it reports. *)
Definition tlvs_within (lo hi : Z) (t : erp_tlvs) : Prop :=
  (forall k, keyname t = Some k -> lo <= k /\ 0 <= keyname_len t /\ k + keyname_len t <= hi) /\
  (forall d, domain t = Some d -> lo <= d /\ 0 <= domain_len t /\ d + domain_len t <= hi).

Lemma erp_loop_bounds fuel m lo pos hi t stop :
  bytes m -> 0 <= lo <= pos -> pos <= hi -> hi <= zlen m ->
  (Z.to_nat (hi - pos) < fuel)%nat -> tlvs_within lo hi t ->
  exists ret t', erp_parse_loop fuel m pos hi t stop = Some (ret, t') /\
    (ret = 0 \/ ret = -1) /\ tlvs_within lo hi t'.
Proof.
  intros Hm. revert pos t. induction fuel as [|fuel IH]; intros pos t Hlo Hpos Hhi Hf Ht; [lia|].
  simpl. destruct (hi <=? pos) eqn:E0; bool_hyps; [eauto 10|].
  assert (Hbyte : forall i v, rd m i = Some v -> 0 <= v).
  { intros i v Hv. pose proof (byte_at_byte m i Hm) as [Hb _]. unfold byte_at in Hb.
    by rewrite Hv in Hb. }
  destruct (rd_some m pos) as [ty ->]; [lia|].
  destruct (is_tv ty).
  { destruct (hi <? pos + 1 + 4) eqn:E; bool_hyps; [eauto 10|]. apply IH; auto; lia. }
  assert (Hskip : forall len t', 0 <= len -> pos + 2 + len <= hi -> tlvs_within lo hi t' ->
    exists ret t'', erp_parse_loop fuel m (pos + 1 + 1 + len) hi t' stop = Some (ret, t'') /\
      (ret = 0 \/ ret = -1) /\ tlvs_within lo hi t'').
  { intros len t' ???. apply IH; auto; lia. }
  destruct (is_tlv ty).
  - destruct (hi <=? pos + 1) eqn:E; bool_hyps; [eauto 10|].
    destruct (rd m (pos + 1)) as [len|] eqn:Hl; [|destruct (rd_some m (pos + 1)); [lia|congruence]].
    pose proof (Hbyte _ _ Hl).
    destruct (hi - (pos + 1 + 1) <? len) eqn:E2; bool_hyps; [eauto 10|].
    destruct Ht as [Hk Hd].
    destruct (ty =? EAP_ERP_TLV_KEYNAME_NAI).
    + destruct (non_null (keyname t)); [unfold tlvs_within; eauto 10|].
      assert (Ht' : tlvs_within lo hi (mk_erp_tlvs (Some (pos + 1 + 1)) (domain t) len (domain_len t))).
      { split; simpl; [|done]. intros k [= <-]. lia. }
      destruct stop; [eauto 10|]. apply Hskip; [lia..|done].
    + destruct (ty =? EAP_ERP_TLV_DOMAIN_NAME); apply Hskip; try lia; split; simpl; try done.
      intros d [= <-]. lia.
  - destruct ((128 <=? ty) && (ty <=? 191)); [|apply IH; auto; lia].
    destruct (hi <=? pos + 1) eqn:E; bool_hyps; [eauto 10|].
    destruct (rd m (pos + 1)) as [len|] eqn:Hl; [|destruct (rd_some m (pos + 1)); [lia|congruence]].
    pose proof (Hbyte _ _ Hl).
    destruct (hi - (pos + 1 + 1) <? len) eqn:E2; bool_hyps; [eauto 10|].
    apply Hskip; [lia..|done].
Qed.

Lemma erp_tlvs_bounds m pos hi stop :
  bytes m -> 0 <= pos <= hi -> hi <= zlen m ->
  exists ret t, erp_parse_tlvs m pos hi stop = Some (ret, t) /\
    (ret = 0 \/ ret = -1) /\ tlvs_within pos hi t.
Proof.
  intros. apply erp_loop_bounds; auto; [lia..|]. split; intros ?; done.
Qed.

(** A message is the header, the type and the room for its payload; nothing
    aborts. *)
Definition eap_msg_type_len (vendor : Z) : Z := if vendor =? EAP_VENDOR_IETF then 1 else 8.

Definition eap_type_bytes (vendor type : Z) : list Z :=
  if vendor =? EAP_VENDOR_IETF then [u8 type]
  else [u8 EAP_TYPE_EXPANDED] ++ WPA_PUT_BE24 vendor ++ WPA_PUT_BE32 type.

Lemma zlen_hdr code id len : zlen (eap_hdr_bytes code id len) = 4.
Proof. done. Qed.
Lemma zlen_be16 v : zlen (WPA_PUT_BE16 v) = 2.
Proof. done. Qed.
Lemma zlen_be24 v : zlen (WPA_PUT_BE24 v) = 3.
Proof. done. Qed.
Lemma zlen_be32 v : zlen (WPA_PUT_BE32 v) = 4.
Proof. done. Qed.
#[export] Hint Rewrite zlen_hdr zlen_be16 zlen_be24 zlen_be32 : zlen.

(** An append into a buffer with enough room. *)
Ltac put_room := unfold wpabuf_len, sizeof_eap_hdr; cbn [data size]; autorewrite with zlen; lia.
Ltac put_step := rewrite put_data_ok by put_room; cbn [size data flags].

Lemma eap_msg_alloc_spec vendor type plen code id :
  0 <= plen ->
  let len := 4 + eap_msg_type_len vendor + plen in
  eap_msg_alloc false vendor type plen code id =
    Some (Some (mk_wpabuf len (eap_hdr_bytes code id len ++ eap_type_bytes vendor type) 0)).
Proof.
  intros Hp len. unfold eap_msg_alloc, wpabuf_alloc, sizeof_eap_hdr.
  fold (eap_msg_type_len vendor). fold len.
  assert (Hlen : 4 + 1 + plen <= len <= 4 + 8 + plen).
  { unfold len, eap_msg_type_len. case_match; lia. }
  put_step. unfold eap_type_bytes.
  destruct (vendor =? EAP_VENDOR_IETF) eqn:Hv.
  - unfold wpabuf_put_u8. put_step. done.
  - assert (Hl : len = 4 + 8 + plen) by (unfold len, eap_msg_type_len; by rewrite Hv).
    unfold wpabuf_put_u8, wpabuf_put_be24, wpabuf_put_be32. do 3 put_step.
    reflexivity.
Qed.

(** ** Properties *)

(** The payload of a message [m] of a vendor and type, as the receiver finds
    it. *)
Definition eap_payload (vendor type : Z) (m : list Z) : option (list Z) :=
  match eap_hdr_validate vendor type (Some (mk_wpabuf (zlen m) m 0)) with
  | Some (Some (pos, len)) => Some (slice m pos len)
  | _ => None
  end.

Lemma hdr_length_put code id len l : 0 <= len < 65536 -> hdr_length (eap_hdr_bytes code id len ++ l) = len.
Proof.
  intros H. unfold hdr_length, eap_hdr_bytes. rewrite <-app_assoc.
  change 2 with (zlen [u8 code; u8 id]) at 1. rewrite get_put_be16. by apply u16_small.
Qed.

Lemma len_valid_put code id len l size flags :
  zlen l = len - 4 -> 5 <= len < 65536 ->
  eap_hdr_len_valid (Some (mk_wpabuf size (eap_hdr_bytes code id len ++ l) flags)) 1 = true.
Proof.
  intros Hl H. unfold eap_hdr_len_valid, wpabuf_len, wpabuf_head, sizeof_eap_hdr. cbn [data].
  rewrite zlen_app, zlen_hdr, hdr_length_put by lia.
  destruct (4 + zlen l <? 4) eqn:E; bool_hyps; [lia|].
  destruct (_ || _) eqn:E2; [|done]. apply orb_true_iff in E2 as [E2|E2]; bool_hyps; lia.
Qed.

(** C33: A message that [eap_msg_alloc] starts and its caller fills with the
    announced payload is one that [eap_hdr_validate] accepts for its vendor
    and type, with exactly that payload, and nothing aborts on the way. *)
Theorem eap_msg_roundtrip vendor type code id payload :
  0 <= vendor < 2 ^ 24 -> 0 <= type < 2 ^ 32 ->
  (vendor = EAP_VENDOR_IETF -> type < 254) -> 12 + zlen payload < 65536 ->
  exists b b', eap_msg_alloc false vendor type (zlen payload) code id = Some (Some b) /\
    wpabuf_put_data b payload = Some b' /\ size b' = wpabuf_len b' /\
    eap_payload vendor type (data b') = Some payload.
Proof.
  intros Hv Ht Hi Hp. rewrite eap_msg_alloc_spec by apply zlen_nonneg. pose proof (zlen_nonneg payload). unfold eap_msg_type_len, eap_type_bytes.
  destruct (vendor =? EAP_VENDOR_IETF) eqn:Ev; bool_hyps; eexists _, _; (split; [reflexivity|]).
  - split; [put_step; reflexivity|]. cbn [size data]. split; [put_room|].
    unfold eap_payload, eap_hdr_validate.
    assert (Hlen : forall n, zlen ([u8 type] ++ payload) = 4 + 1 + n - 4 -> zlen payload = n)
      by (intros n; zlen).
    rewrite <-app_assoc, len_valid_put by (try lia; zlen). cbn [negb].
    unfold wpabuf_head. cbn [data]. rewrite hdr_length_put by lia. unfold sizeof_eap_hdr.
    change (rd _ 4) with (Some (u8 type)). cbv beta iota.
    rewrite u8_small by lia. unfold EAP_TYPE_EXPANDED.
    destruct (type =? 254) eqn:E; bool_hyps; [lia|]. rewrite Ev, !Z.eqb_refl. cbn [negb orb]. cbv beta iota. f_equal.
    rewrite slice_app_r by (rewrite zlen_hdr; lia). rewrite zlen_hdr.
    rewrite slice_app_r by (zlen). replace (4 + 1 - 4 - zlen [type]) with 0 by reflexivity.
    replace (4 + 1 + zlen payload - 4 - 1) with (zlen payload) by lia. apply slice_all.
  - split; [put_step; reflexivity|]. cbn [size data]. split; [put_room|].
    unfold eap_payload, eap_hdr_validate. rewrite <-!app_assoc.
    rewrite len_valid_put by (try lia; zlen). cbn [negb].
    unfold wpabuf_head. cbn [data]. rewrite hdr_length_put by lia. unfold sizeof_eap_hdr.
    change (rd _ 4) with (Some EAP_TYPE_EXPANDED). cbv beta iota. rewrite Z.eqb_refl.
    destruct (4 + 8 + zlen payload <? 4 + 8) eqn:E; bool_hyps; [lia|].
    change (rd _ (4 + 7)) with (Some (Z.land type 0xff)). cbv beta iota zeta.
    change (4 + 1) with (zlen (eap_hdr_bytes code id (4 + 8 + zlen payload) ++ [u8 EAP_TYPE_EXPANDED])) at 1.
    rewrite app_assoc, get_put_be24, Z.mod_small, Z.eqb_refl by lia. rewrite !app_assoc.
    replace (4 + 4) with (zlen ((eap_hdr_bytes code id (4 + 8 + zlen payload) ++ [u8 EAP_TYPE_EXPANDED]) ++
      WPA_PUT_BE24 vendor)) by reflexivity.
    rewrite <-app_assoc, get_put_be32, Z.eqb_refl. cbn [negb orb]. cbv beta iota. f_equal.
    rewrite app_assoc. rewrite slice_app_r by zlen.
    replace (4 + 8 + zlen payload - 4 - 8) with (zlen payload) by lia.
    replace (4 + 8 - _) with 0 by (zlen). apply slice_all.
Qed.

Lemma eap_msg_roundtrip_witness :
  eap_payload 0 6 ([2; 9; 0; 7; 6] ++ [65; 66]) = Some [65; 66].
Proof.
  destruct (eap_msg_roundtrip 0 6 2 9 [65; 66]) as (b & b' & H & H' & _ & Hp); [lia..|reflexivity|].
  vm_compute in H. injection H as <-. vm_compute in H'. injection H' as <-. exact Hp.
Defined.


