(* ===== verification/EapServer.v ===== *)
(** * The EAP full authenticator (src/src/eap_server/eap_server.c, eap_i.h)

    [struct eap_sm] is the record [eap_sm], its interface to EAPOL and AAA the
    nested record [eap_eapol_interface].  Each [SM_STATE(EAP, X)] is the
    command [EAP_X_Enter] and [SM_STEP(EAP)] is [EAP_Step]; the EAP methods
    are the interface [EapMethods], the callbacks of the lower layer
    [EapolCallbacks], the hash functions [ErpCrypto].

    [fault] records what the C code would not survive: a NULL method called, a
    buffer overrun, a loop that does not end.  [oom] makes every allocation of
    a step fail. *)

From Stdlib Require Import String.
From S2P Require Import Prelude.
From S2P Require Import Wpabuf.
From S2P Require Import Common.
From S2P Require Import EapCommon.

Definition EAP_MAX_AUTH_ROUNDS : Z := 50.
Definition EAP_MAX_METHODS : Z := 8.

Inductive eap_state :=
  | EAP_DISABLED | EAP_INITIALIZE | EAP_IDLE | EAP_RECEIVED
  | EAP_INTEGRITY_CHECK | EAP_METHOD_RESPONSE | EAP_METHOD_REQUEST
  | EAP_PROPOSE_METHOD | EAP_SELECT_ACTION | EAP_SEND_REQUEST
  | EAP_DISCARD | EAP_NAK | EAP_RETRANSMIT | EAP_SUCCESS | EAP_FAILURE
  | EAP_TIMEOUT_FAILURE | EAP_PICK_UP_METHOD
  | EAP_INITIALIZE_PASSTHROUGH | EAP_IDLE2 | EAP_RETRANSMIT2
  | EAP_RECEIVED2 | EAP_DISCARD2 | EAP_SEND_REQUEST2
  | EAP_AAA_REQUEST | EAP_AAA_RESPONSE | EAP_AAA_IDLE
  | EAP_TIMEOUT_FAILURE2 | EAP_FAILURE2 | EAP_SUCCESS2
  | EAP_INITIATE_REAUTH_START | EAP_INITIATE_RECEIVED.

Inductive method_state := METHOD_PROPOSED | METHOD_CONTINUE | METHOD_END.
Inductive eap_decision :=
  | DECISION_SUCCESS | DECISION_FAILURE | DECISION_CONTINUE
  | DECISION_PASSTHROUGH | DECISION_INITIATE_REAUTH_START.
Inductive method_pending_state :=
  | METHOD_PENDING_NONE | METHOD_PENDING_WAIT | METHOD_PENDING_CONT.
Inductive eap_fault := NullMethod | OutOfBounds | Overflow | NoReturn.

#[global] Instance eap_state_eq_dec : EqDecision eap_state.
Proof. solve_decision. Defined.
#[global] Instance method_state_eq_dec : EqDecision method_state.
Proof. solve_decision. Defined.
#[global] Instance eap_decision_eq_dec : EqDecision eap_decision.
Proof. solve_decision. Defined.
#[global] Instance method_pending_eq_dec : EqDecision method_pending_state.
Proof. solve_decision. Defined.

(** [struct eap_user] (eap.h). *)
Record eap_user := mk_eap_user {
  methods : list (Z * Z);
  password : option (list Z);
  password_len : Z;
  password_hash : Z;
  phase2 : Z;
  force_version : Z;
  remediation : bool;
  macacl : bool;
  ttls_auth : Z
}.

(** [struct eap_eapol_interface] (eap.h). *)
Record eap_eapol_interface := mk_eap_if {
  eapResp : bool;
  eapRespData : option wpabuf;
  portEnabled : bool;
  retransWhile : Z;
  eapRestart : bool;
  eapSRTT : Z;
  eapRTTVAR : Z;
  eapReq : bool;
  eapNoReq : bool;
  eapSuccess : bool;
  eapFail : bool;
  eapTimeout : bool;
  eapReqData : option wpabuf;
  eapKeyData : option (list Z);
  eapKeyDataLen : Z;
  eapSessionId : option (list Z);
  eapSessionIdLen : Z;
  eapKeyAvailable : bool;
  aaaEapReq : bool;
  aaaEapNoReq : bool;
  aaaSuccess : bool;
  aaaFail : bool;
  aaaEapReqData : option wpabuf;
  aaaEapKeyData : option (list Z);
  aaaEapKeyDataLen : Z;
  aaaEapKeyAvailable : bool;
  aaaMethodTimeout : Z;
  aaaEapResp : bool;
  aaaEapRespData : option wpabuf;
  aaaTimeout : bool
}.

#[global] Instance eta_eap_if : Eta eap_eapol_interface := fun r =>
  mk_eap_if (eapResp r) (eapRespData r) (portEnabled r) (retransWhile r) (eapRestart r)
    (eapSRTT r) (eapRTTVAR r) (eapReq r) (eapNoReq r) (eapSuccess r) (eapFail r)
    (eapTimeout r) (eapReqData r) (eapKeyData r) (eapKeyDataLen r) (eapSessionId r)
    (eapSessionIdLen r) (eapKeyAvailable r) (aaaEapReq r) (aaaEapNoReq r) (aaaSuccess r)
    (aaaFail r) (aaaEapReqData r) (aaaEapKeyData r) (aaaEapKeyDataLen r)
    (aaaEapKeyAvailable r) (aaaMethodTimeout r) (aaaEapResp r) (aaaEapRespData r)
    (aaaTimeout r).

(** [struct eap_server_erp_key] (eap.h); [keyname_nai] without its NUL. *)
Record eap_server_erp_key := mk_erp_key {
  rRK_len : Z; rIK_len : Z; rRK : list Z; rIK : list Z;
  recv_seq : Z; cryptosuite : Z; keyname_nai : list Z
}.

(** The members of [struct eap_config] and [struct eap_sm] that
    [eap_server_sm_init] copies and only EAP methods read. *)
Record eap_params := mk_eap_params {
  ssl_ctx : Z; msg_ctx : Z; eap_sim_db_priv : Z; pwd_group : Z;
  pac_opaque_encr_key : option (list Z); eap_fast_a_id : option (list Z);
  eap_fast_a_id_len : Z; eap_fast_a_id_info : option (list Z); eap_fast_prov : Z;
  pac_key_lifetime : Z; pac_key_refresh_time : Z; eap_sim_aka_result_ind : Z;
  tnc : Z; wps : Z; assoc_wps_ie : option wpabuf; assoc_p2p_ie : option wpabuf;
  fragment_size : Z; pbc_in_m1 : Z; server_id : option (list Z); server_id_len : Z;
  tls_session_lifetime : Z
}.

(** [struct eap_config]: the parameters, and the members the state machine
    itself reads. *)
Record eap_config := mk_eap_config {
  conf_params : eap_params; conf_backend_auth : bool; conf_eap_server : bool;
  conf_erp : bool; conf_peer_addr : option (list Z)
}.

(** What surrounds the machine: the ERP keys of the authenticator (hostapd's
    [erp_keys] list), the random generator, whether allocations fail, and the
    first undefined behaviour met. *)
Record eap_env := mk_eap_env {
  erp_keys : list eap_server_erp_key;
  rng : Z;
  oom : bool;
  fault : option eap_fault
}.

#[global] Instance eta_eap_env : Eta eap_env := fun r =>
  mk_eap_env (erp_keys r) (rng r) (oom r) (fault r).

(** [struct eap_sm].  [M] are the registered methods, [P] their private
    data. *)
Record eap_sm {M P : Type} := mk_eap_sm {
  EAP_state : eap_state;
  MaxRetrans : Z;
  eap_if : eap_eapol_interface;
  currentMethod : Z;
  currentId : Z;
  methodState : method_state;
  retransCount : Z;
  lastReqData : option wpabuf;
  methodTimeout : Z;
  rxResp : bool;
  rxInitiate : bool;
  respId : Z;
  respMethod : Z;
  respVendor : Z;
  respVendorMethod : Z;
  ignore : bool;
  decision : eap_decision;
  m : option M;
  changed : bool;
  eap_method_priv : option P;
  identity : option (list Z);
  identity_len : Z;
  lastId : Z;
  user : option eap_user;
  user_eap_method_index : Z;
  backend_auth : bool;
  update_user : bool;
  eap_server : bool;
  num_rounds : Z;
  method_pending : method_pending_state;
  start_reauth : bool;
  peer_addr : list Z;
  initiate_reauth_start_sent : bool;
  try_initiate_reauth : bool;
  erp : bool;
  params : eap_params;
  env : eap_env
}.
Arguments eap_sm M P : clear implicits.

#[global] Instance eta_eap_sm {M P} : Eta (eap_sm M P) := fun s =>
  mk_eap_sm M P (EAP_state s) (MaxRetrans s) (eap_if s) (currentMethod s) (currentId s)
    (methodState s) (retransCount s) (lastReqData s) (methodTimeout s) (rxResp s)
    (rxInitiate s) (respId s) (respMethod s) (respVendor s) (respVendorMethod s) (ignore s)
    (decision s) (m s) (changed s) (eap_method_priv s) (identity s) (identity_len s)
    (lastId s) (user s) (user_eap_method_index s) (backend_auth s) (update_user s)
    (eap_server s) (num_rounds s) (method_pending s) (start_reauth s) (peer_addr s)
    (initiate_reauth_start_sent s) (try_initiate_reauth s) (erp s) (params s) (env s).

(** ** Interfaces *)

(** [struct eap_method]: what a method does, with the state machine it gets a
    pointer to; an optional function is an [option].  [m_getKey] and the like
    return NULL or a key of the returned length. *)
Class EapMethods (M P : Type) := {
  registered : list M;
  m_vendor : M -> Z;
  m_method : M -> Z;
  m_init : M -> eap_sm M P -> option P * eap_sm M P;
  m_initPickUp : M -> option (eap_sm M P -> option P * eap_sm M P);
  m_reset : M -> P -> eap_sm M P -> eap_sm M P;
  m_buildReq : M -> P -> Z -> eap_sm M P -> option wpabuf * P * eap_sm M P;
  m_getTimeout : M -> option (P -> eap_sm M P -> Z);
  m_check : M -> option (P -> option wpabuf -> eap_sm M P -> bool);
  m_process : M -> P -> option wpabuf -> eap_sm M P -> P * eap_sm M P;
  m_isDone : M -> P -> eap_sm M P -> bool;
  m_getKey : M -> option (P -> eap_sm M P -> option (list Z));
  m_isSuccess : M -> P -> eap_sm M P -> bool;
  m_get_emsk : M -> option (P -> eap_sm M P -> option (list Z));
  m_getSessionId : M -> option (P -> eap_sm M P -> option (list Z))
}.

(** [struct eapol_callbacks], and the C library's [rand]. *)
Class EapolCallbacks := {
  get_eap_user : option (list Z -> Z -> option eap_user);
  get_eap_req_id_text : option (option (list Z));
  get_erp_send_reauth_start : option bool;
  get_erp_domain : option (option (list Z));
  erp_callbacks : bool;
  rand : Z -> Z * Z
}.

(** [hmac_sha256] and [hmac_sha256_kdf]; [None] is the error return. *)
Class ErpCrypto := {
  hmac_sha256 : list Z -> list Z -> option (list Z);
  hmac_sha256_kdf : list Z -> list Z -> list Z -> Z -> option (list Z)
}.

Definition SHA256_MAC_LEN : Z := 32.

Section eap.
Context {M P : Type} `{EM : !EapMethods M P, CB : !EapolCallbacks, EC : !ErpCrypto}.
Abbreviation sm := (eap_sm M P).

(** ** Helpers *)

Definition raise (f : eap_fault) : cmd sm :=
  env ∷ fault <~ (fun s => match fault (env s) with Some g => Some g | None => Some f end).

(** Run a step that may be undefined. *)
Definition or_fault (f : eap_fault) (c : sm -> option sm) : cmd sm :=
  fun s => match c s with Some s' => s' | None => raise f s end.

Definition eap_get_erp_send_reauth_start (_ : sm) : bool :=
  default false get_erp_send_reauth_start.

Definition eap_get_erp_domain (_ : sm) : option (list Z) := default None get_erp_domain.

(** hostapd's [ieee802_1x_erp_get_key]: the first key with that name. *)
Fixpoint ieee802_1x_erp_get_key (keys : list eap_server_erp_key) (name : list Z)
    : option nat :=
  match keys with
  | [] => None
  | k :: keys =>
      if bool_decide (keyname_nai k = c_string name) then Some O
      else option_map S (ieee802_1x_erp_get_key keys name)
  end.

Definition ieee802_1x_erp_add_key (k : eap_server_erp_key)
    (keys : list eap_server_erp_key) : list eap_server_erp_key := k :: keys.

Definition eap_erp_get_key (name : list Z) (s : sm) : option nat :=
  if erp_callbacks then ieee802_1x_erp_get_key (erp_keys (env s)) name else None.

Definition eap_erp_add_key (k : eap_server_erp_key) : cmd sm :=
  if erp_callbacks
  then (env ∷ erp_keys <~ (fun s => ieee802_1x_erp_add_key k (erp_keys (env s))))%cmd
  else skip.

(** The message, [Some None] for NULL, [None] for an abort. *)
Definition eap_sm_buildInitiateReauthStart (id : Z) (s : sm) : option (option wpabuf) :=
  let dom := eap_get_erp_domain s in
  let plen := 1 + match dom with Some d => 2 + zlen d | None => 0 end in
  let? msg := eap_msg_alloc (oom (env s)) EAP_VENDOR_IETF EAP_ERP_TYPE_REAUTH_START plen
                EAP_CODE_INITIATE id in
  match msg with
  | None => Some None
  | Some msg =>
      let? msg := wpabuf_put_u8 msg 0 in
      match dom with
      | None => Some (Some msg)
      | Some d =>
          let? msg := wpabuf_put_u8 msg EAP_ERP_TLV_DOMAIN_NAME in
          let? msg := wpabuf_put_u8 msg (zlen d) in
          option_map Some (wpabuf_put_data msg d)
      end
  end.

(** The return code and the new value of [*dst]. *)
Definition eap_copy_buf (s : sm) (dst src : option wpabuf) : option (Z * option wpabuf) :=
  match src with
  | None => Some (-1, dst)
  | Some src =>
      let? d := wpabuf_dup (oom (env s)) src in
      Some ((if non_null d then 0 else -1), d)
  end.

Definition eap_copy_data (s : sm) (dst : option (list Z)) (dst_len : Z)
    (src : option (list Z)) (src_len : Z) : Z * option (list Z) * Z :=
  match src with
  | None => (-1, dst, dst_len)
  | Some src =>
      if oom (env s) then (-1, None, 0)
      else (0, Some (take (Z.to_nat src_len) src), src_len)
  end.

Definition eap_server_clear_identity : cmd sm := (identity ::= None)%cmd.

(** [eap_user_get]: 0 or -1, and the state with [user] replaced. *)
Definition eap_user_get (ident : list Z) (ph2 : Z) (s : sm) : Z * sm :=
  match get_eap_user with
  | None => (-1, s)
  | Some get =>
      let s := setter user (fun _ => None) s in
      if oom (env s) then (-1, s)
      else
        match get ident ph2 with
        | None => (-1, s)
        | Some u => (0, (user ::= Some u ;; user_eap_method_index ::= 0)%cmd s)
        end
  end.

Definition eap_server_get_eap_method (vendor method : Z) : option M :=
  List.find (fun e => (m_vendor e =? vendor) && (m_method e =? method)) registered.

(** [eap_sm_calculateTimeout]; the back off loop counts [i] up to
    [retransCount]. *)
Fixpoint backoff (n : nat) (rto : Z) : Z :=
  match n with
  | O => rto
  | S n => if 20 <=? i32 (rto * 2) then 20 else backoff n (i32 (rto * 2))
  end.

Definition eap_sm_calculateTimeout (s : sm) (retransCount methodTimeout : Z) : Z :=
  if try_initiate_reauth s then 1
  else if negb (methodTimeout =? 0) then methodTimeout
  else backoff (Z.to_nat retransCount) 3.

Definition eap_sm_parseEapResp (resp : option wpabuf) : cmd sm :=
  (rxResp ::= false ;;
   rxInitiate ::= false ;;
   respId ::= -1 ;;
   respMethod ::= EAP_TYPE_NONE ;;
   respVendor ::= EAP_VENDOR_IETF ;;
   respVendorMethod ::= EAP_TYPE_NONE ;;
   match resp with
   | None => skip
   | Some b =>
       let h := wpabuf_head b in
       let plen := hdr_length h in
       if (wpabuf_len b <? sizeof_eap_hdr) then skip
       else if wpabuf_len b <? plen then skip
       else
         (respId ::= hdr_identifier h ;;
          (if hdr_code h =? EAP_CODE_RESPONSE then rxResp ::= true
           else if hdr_code h =? EAP_CODE_INITIATE then rxInitiate ::= true
           else skip) ;;
          (if sizeof_eap_hdr <? plen then
             respMethod ::= byte_at h sizeof_eap_hdr ;;
             (if byte_at h sizeof_eap_hdr =? EAP_TYPE_EXPANDED then
                if plen <? sizeof_eap_hdr + 8 then skip
                else
                  (respVendor ::= WPA_GET_BE24 h (sizeof_eap_hdr + 1) ;;
                   respVendorMethod ::= WPA_GET_BE32 h (sizeof_eap_hdr + 4))
              else skip)
           else skip))
   end)%cmd.

Definition eap_sm_getId (d : option wpabuf) : Z :=
  match d with
  | None => -1
  | Some b => if wpabuf_len b <? sizeof_eap_hdr then -1 else hdr_identifier (wpabuf_head b)
  end.

(** [eap_sm_buildSuccess] and [eap_sm_buildFailure] differ in the code. *)
Definition build_final (code id : Z) (s : sm) : option (option wpabuf) :=
  match wpabuf_alloc (oom (env s)) sizeof_eap_hdr with
  | None => Some None
  | Some msg => option_map Some (wpabuf_put_data msg (eap_hdr_bytes code (u8 id) sizeof_eap_hdr))
  end.
Definition eap_sm_buildSuccess := build_final EAP_CODE_SUCCESS.
Definition eap_sm_buildFailure := build_final EAP_CODE_FAILURE.

(** [eap_sm_nextId]: the identifier, and the generator after it. *)
Definition eap_sm_nextId (s : sm) (id : Z) : Z * Z :=
  if id <? 0 then
    let '(r, g) := rand (rng (env s)) in
    let id := Z.land r 0xff in
    ((if negb (id =? lastId s) then id else Z.land (id + 1) 0xff), g)
  else (Z.land (id + 1) 0xff, rng (env s)).

(** The commands of METHOD_REQUEST and INITIATE_REAUTH_START that pick the
    next identifier. *)
Definition take_nextId : cmd sm :=
  (fun s =>
     let '(id, g) := eap_sm_nextId s (currentId s) in
     (env ∷ rng ::= g ;; currentId ::= id)%cmd s).

(** ** Policy *)

Definition no_method : Z * Z := (EAP_VENDOR_IETF, EAP_TYPE_NONE).

(** [methods[i]], for an index the source has compared with
    [EAP_MAX_METHODS]. *)
Definition method_at (u : eap_user) (i : Z) : Z * Z :=
  nth (Z.to_nat i) (methods u) no_method.

Definition has_method (u : eap_user) (i : Z) : bool :=
  negb (fst (method_at u i) =? EAP_VENDOR_IETF) || negb (snd (method_at u i) =? EAP_TYPE_NONE).

(** Remove entry [i]: the rest moves up and the last becomes free. *)
Definition nak_remove (i : nat) (ms : list (Z * Z)) : list (Z * Z) :=
  take i ms ++ drop (S i) ms ++ [no_method].

(** The loop of [eap_sm_process_nak]: an entry stays when it is an IETF
    method the peer listed. *)
Fixpoint nak_loop (fuel : nat) (i : nat) (nak_list : list Z) (ms : list (Z * Z))
    : option (list (Z * Z)) :=
  match fuel with
  | O => None
  | S fuel =>
      if (Z.of_nat i <? EAP_MAX_METHODS) &&
         (negb (fst (nth i ms no_method) =? EAP_VENDOR_IETF) ||
          negb (snd (nth i ms no_method) =? EAP_TYPE_NONE))
      then
        if (fst (nth i ms no_method) =? EAP_VENDOR_IETF) &&
           existsb (fun t => t =? snd (nth i ms no_method)) nak_list
        then nak_loop fuel (S i) nak_list ms
        else nak_loop fuel i nak_list (nak_remove i ms)
      else Some ms
  end.

Definition set_methods (u : eap_user) (ms : list (Z * Z)) : eap_user :=
  mk_eap_user ms (password u) (password_len u) (password_hash u) (phase2 u)
    (force_version u) (remediation u) (macacl u) (ttls_auth u).

Definition eap_sm_process_nak (nak_list : list Z) : cmd sm :=
  fun s =>
    match user s with
    | None => s
    | Some u =>
        match nak_loop 9 (Z.to_nat (user_eap_method_index s)) nak_list (methods u) with
        | Some ms => setter user (fun _ => Some (set_methods u ms)) s
        | None => raise NoReturn s
        end
    end.

Definition eap_sm_Policy_update (nak_list : option (list Z)) : cmd sm :=
  fun s =>
    match nak_list, user s with
    | Some l, Some u =>
        if negb (phase2 u =? 0) then setter decision (fun _ => DECISION_FAILURE) s
        else eap_sm_process_nak l s
    | _, _ => s
    end.

(** The vendor, the method, and the state. *)
Definition eap_sm_Policy_getNextMethod (s : sm) : Z * Z * sm :=
  let idx := user_eap_method_index s in
  if negb (non_null (identity s)) || (currentId s =? -1)
  then (EAP_VENDOR_IETF, EAP_TYPE_IDENTITY, setter update_user (fun _ => true) s)
  else
    match user s with
    | Some u =>
        if (idx <? EAP_MAX_METHODS) && has_method u idx
        then (fst (method_at u idx), snd (method_at u idx),
              setter user_eap_method_index (fun i => i + 1) s)
        else (EAP_VENDOR_IETF, EAP_TYPE_NONE, s)
    | None => (EAP_VENDOR_IETF, EAP_TYPE_NONE, s)
    end.

Definition first_is_identity (s : sm) : bool :=
  match user s with
  | Some u => (fst (method_at u 0) =? EAP_VENDOR_IETF) && (snd (method_at u 0) =? EAP_TYPE_IDENTITY)
  | None => false
  end.

(** The last part of [eap_sm_Policy_getDecision], after the user data has
    been looked up. *)
Definition getDecision_next (s : sm) : eap_decision :=
  if match user s with
     | Some u => (user_eap_method_index s <? EAP_MAX_METHODS) &&
                 has_method u (user_eap_method_index s)
     | None => false
     end
  then DECISION_CONTINUE
  else if negb (non_null (identity s)) && eap_get_erp_send_reauth_start s &&
          negb (initiate_reauth_start_sent s)
  then DECISION_INITIATE_REAUTH_START
  else if negb (non_null (identity s)) || (currentId s =? -1) then DECISION_CONTINUE
  else DECISION_FAILURE.

(** The user lookup of [eap_sm_Policy_getDecision]: [inl] is a decision. *)
Definition getDecision_user (s : sm) : (eap_decision * sm) + sm :=
  match identity s with
  | Some ident =>
      if (negb (non_null (user s)) || update_user s) && negb (start_reauth s) then
        let id_req := (currentMethod s =? EAP_TYPE_IDENTITY) && first_is_identity s in
        let '(res, s) := eap_user_get (take (Z.to_nat (identity_len s)) ident) 0 s in
        if negb (res =? 0) then inl (DECISION_FAILURE, s)
        else if id_req && first_is_identity s
        then inl (DECISION_FAILURE, setter update_user (fun _ => true) s)
        else inr (setter update_user (fun _ => false) s)
      else inr s
  | None => inr s
  end.

(** The results of the selected method; a method always has its data. *)
Definition method_success (s : sm) : bool :=
  match m s, eap_method_priv s with
  | Some e, Some p => m_isSuccess e p s
  | _, _ => false
  end.

Definition method_done (s : sm) : bool :=
  match m s, eap_method_priv s with
  | Some e, Some p => m_isDone e p s
  | _, _ => false
  end.

Definition eap_sm_Policy_getDecision (s : sm) : eap_decision * sm :=
  if negb (eap_server s) && non_null (identity s) && negb (start_reauth s)
  then (DECISION_PASSTHROUGH, s)
  else if non_null (m s) && negb (currentMethod s =? EAP_TYPE_IDENTITY) && method_success s
  then (DECISION_SUCCESS, setter update_user (fun _ => true) s)
  else if non_null (m s) && method_done s && negb (method_success s)
  then (DECISION_FAILURE, setter update_user (fun _ => true) s)
  else
    match getDecision_user s with
    | inl r => r
    | inr s =>
        let s := setter start_reauth (fun _ => false) s in
        (getDecision_next s, s)
    end.

Definition eap_sm_Policy_doPickUp (method : Z) : bool := method =? EAP_TYPE_IDENTITY.

(** ** States *)

Definition ENTRY (target : eap_state) (global : bool) : cmd sm :=
  SM_ENTRY EAP_state changed target global.

(** Reset the selected method: [if (sm->m && sm->eap_method_priv) ...]. *)
Definition reset_method : cmd sm :=
  fun s =>
    match m s, eap_method_priv s with
    | Some e, Some p => setter eap_method_priv (fun _ => None) (m_reset e p s)
    | _, _ => s
    end.

Definition EAP_DISABLED_Enter (global : bool) : cmd sm :=
  (ENTRY EAP_DISABLED global ;; num_rounds ::= 0)%cmd.

(** The pick-up of a session the peer has started already. *)
Definition initialize_backend : cmd sm :=
  (WHEN backend_auth DO
     (currentMethod ::= EAP_TYPE_NONE ;;
      (fun s => eap_sm_parseEapResp (eapRespData (eap_if s)) s) ;;
      WHEN rxResp DO (currentId <~ respId)))%cmd.

(** The members INITIALIZE clears on every entry. *)
Definition initialize_reset (global : bool) : cmd sm :=
  (ENTRY EAP_INITIALIZE global ;;
   WHEN (fun s => eapRestart (eap_if s) && negb (eap_server s) && non_null (identity s))
     DO eap_server_clear_identity ;;
   try_initiate_reauth ::= false ;;
   currentId ::= -1 ;;
   eap_if ∷ eapSuccess ::= false ;;
   eap_if ∷ eapFail ::= false ;;
   eap_if ∷ eapTimeout ::= false ;;
   eap_if ∷ eapKeyData ::= None ;;
   eap_if ∷ eapKeyDataLen ::= 0 ;;
   eap_if ∷ eapSessionId ::= None ;;
   eap_if ∷ eapSessionIdLen ::= 0 ;;
   eap_if ∷ eapKeyAvailable ::= false ;;
   eap_if ∷ eapRestart ::= false)%cmd.

Definition EAP_INITIALIZE_Enter (global : bool) : cmd sm :=
  (initialize_reset global ;;
   reset_method ;;
   m ::= None ;;
   user_eap_method_index ::= 0 ;;
   initialize_backend ;;
   num_rounds ::= 0 ;;
   method_pending ::= METHOD_PENDING_NONE)%cmd.

(** The selection of a method that a pick-up failed to initialise. *)
Definition no_current_method : cmd sm := (m ::= None ;; currentMethod ::= EAP_TYPE_NONE)%cmd.

Definition pick_up_init : cmd sm :=
  fun s =>
    match m s with
    | Some e =>
        match m_initPickUp e with
        | Some f =>
            let '(p, s) := f s in
            let s := setter eap_method_priv (fun _ => p) s in
            if non_null p then s else no_current_method s
        | None => no_current_method s
        end
    | None => no_current_method s
    end.

Definition EAP_PICK_UP_METHOD_Enter : cmd sm :=
  (ENTRY EAP_PICK_UP_METHOD false ;;
   WHEN (fun s => eap_sm_Policy_doPickUp (respMethod s)) DO
     (currentMethod <~ respMethod ;;
      reset_method ;;
      m <~ (fun s => eap_server_get_eap_method EAP_VENDOR_IETF (currentMethod s)) ;;
      pick_up_init))%cmd.

Definition set_retransWhile : cmd sm :=
  (eap_if ∷ retransWhile <~
     (fun s => eap_sm_calculateTimeout s (retransCount s) (methodTimeout s)))%cmd.

Definition EAP_IDLE_Enter : cmd sm :=
  (ENTRY EAP_IDLE false ;; set_retransWhile)%cmd.

(** RETRANSMIT and RETRANSMIT2. *)
Definition retransmit_body : cmd sm :=
  (update retransCount (fun n => n + 1) ;;
   WHEN (fun s => (retransCount s <=? MaxRetrans s) && non_null (lastReqData s)) DO
     or_fault Overflow (fun s =>
       let? (res, d) := eap_copy_buf s (eapReqData (eap_if s)) (lastReqData s) in
       Some ((eap_if ∷ eapReqData ::= d ;;
              WHEN (fun _ => res =? 0) DO (eap_if ∷ eapReq ::= true))%cmd s)))%cmd.

Definition EAP_RETRANSMIT_Enter : cmd sm :=
  (ENTRY EAP_RETRANSMIT false ;; retransmit_body)%cmd.

Definition EAP_RECEIVED_Enter : cmd sm :=
  (ENTRY EAP_RECEIVED false ;;
   (fun s => eap_sm_parseEapResp (eapRespData (eap_if s)) s) ;;
   update num_rounds (fun n => n + 1))%cmd.

Definition EAP_DISCARD_Enter : cmd sm :=
  (ENTRY EAP_DISCARD false ;;
   eap_if ∷ eapResp ::= false ;;
   eap_if ∷ eapNoReq ::= true)%cmd.

(** SEND_REQUEST and SEND_REQUEST2. *)
Definition send_request_body : cmd sm :=
  (retransCount ::= 0 ;;
   IF (fun s => non_null (eapReqData (eap_if s))) THEN
     (or_fault Overflow (fun s =>
       let? (res, d) := eap_copy_buf s (lastReqData s) (eapReqData (eap_if s)) in
       Some ((lastReqData ::= d ;;
              eap_if ∷ eapResp ::= false ;;
              eap_if ∷ eapReq ::= (res =? 0))%cmd s)))
   ELSE
     (eap_if ∷ eapResp ::= false ;;
      eap_if ∷ eapReq ::= false ;;
      eap_if ∷ eapNoReq ::= true))%cmd.

Definition EAP_SEND_REQUEST_Enter : cmd sm :=
  (ENTRY EAP_SEND_REQUEST false ;; send_request_body)%cmd.

(** Call the selected method; calling a method that is not there is a NULL
    dereference. *)
Definition with_method (f : M -> P -> cmd sm) : cmd sm :=
  fun s =>
    match m s, eap_method_priv s with
    | Some e, Some p => f e p s
    | _, _ => raise NullMethod s
    end.

Definition EAP_INTEGRITY_CHECK_Enter : cmd sm :=
  (ENTRY EAP_INTEGRITY_CHECK false ;;
   IF (fun s => negb (eap_hdr_len_valid (eapRespData (eap_if s)) 1)) THEN (ignore ::= true)
   ELSE
     with_method (fun e p s =>
       match m_check e with
       | Some chk => setter ignore (fun _ => chk p (eapRespData (eap_if s)) s) s
       | None => s
       end))%cmd.

Definition EAP_METHOD_REQUEST_Enter : cmd sm :=
  (ENTRY EAP_METHOD_REQUEST false ;;
   WHEN (fun s => non_null (m s)) DO
     (take_nextId ;;
      lastId <~ currentId ;;
      with_method (fun e p s =>
        let '(req, p, s) := m_buildReq e p (currentId s) s in
        let t := match m_getTimeout e with Some f => f p s | None => 0 end in
        (eap_method_priv ::= Some p ;;
         eap_if ∷ eapReqData ::= req ;;
         methodTimeout ::= t)%cmd s)))%cmd.

(** [eap_server_erp_init]: derive the re-authentication keys of the peer and
    store them. *)
Definition erp_key_for (s : sm) (emsk dom : list Z) : option eap_server_erp_key :=
  let emsk_len := zlen emsk in
  let nai_buf_len := 2 * EAP_EMSK_NAME_LEN + 1 + zlen dom + 1 in
  let session := take (Z.to_nat (eapSessionIdLen (eap_if s)))
                   (default [] (eapSessionId (eap_if s))) in
  let? EMSKname := hmac_sha256_kdf session (chars "EMSK") (WPA_PUT_BE16 8) EAP_EMSK_NAME_LEN in
  let '(nai_buf, pos) := wpa_snprintf_hex (replicate (Z.to_nat nai_buf_len) 0) EMSKname in
  let? rRK := hmac_sha256_kdf emsk (chars "EAP Re-authentication Root Key@ietf.org")
                (WPA_PUT_BE16 emsk_len) emsk_len in
  let? rIK := hmac_sha256_kdf rRK (chars "EAP Re-authentication Integrity Key@ietf.org")
                (WPA_PUT_BE16 emsk_len) emsk_len in
  Some (mk_erp_key emsk_len emsk_len rRK rIK (2 ^ 32 - 1) 0
          (take (Z.to_nat pos) nai_buf ++ [64] ++ dom)).

Definition eap_server_erp_init : cmd sm :=
  fun s =>
    match eap_get_erp_domain s, m s, eap_method_priv s with
    | Some dom, Some e, Some p =>
        if 253 <? 2 * EAP_EMSK_NAME_LEN + 1 + zlen dom then s
        else if oom (env s) then s
        else
          match m_get_emsk e with
          | None => raise NullMethod s
          | Some get =>
              match get p s with
              | Some emsk =>
                  if (zlen emsk =? 0) || (ERP_MAX_KEY_LEN <? zlen emsk) then s
                  else
                    match erp_key_for s emsk dom with
                    | Some k => eap_erp_add_key k s
                    | None => s
                    end
              | None => s
              end
          end
    | _, _, _ => s
    end.

(** The keys a finished method exports. *)
Definition method_keys (e : M) (p : P) : cmd sm :=
  (fun s =>
     match m_getKey e with
     | Some f =>
         match f p s with
         | Some k => (eap_if ∷ eapKeyData ::= Some k ;; eap_if ∷ eapKeyDataLen ::= zlen k)%cmd s
         | None => (eap_if ∷ eapKeyData ::= None)%cmd s
         end
     | None => (eap_if ∷ eapKeyData ::= None ;; eap_if ∷ eapKeyDataLen ::= 0)%cmd s
     end).

Definition method_session_id (e : M) (p : P) : cmd sm :=
  (eap_if ∷ eapSessionId ::= None ;;
   fun s =>
     match m_getSessionId e with
     | Some f =>
         match f p s with
         | Some k => (eap_if ∷ eapSessionId ::= Some k ;; eap_if ∷ eapSessionIdLen ::= zlen k)%cmd s
         | None => s
         end
     | None => s
     end)%cmd.

Definition EAP_METHOD_RESPONSE_Enter : cmd sm :=
  (ENTRY EAP_METHOD_RESPONSE false ;;
   WHEN (fun s => eap_hdr_len_valid (eapRespData (eap_if s)) 1) DO
     with_method (fun e p s =>
       let '(p, s) := m_process e p (eapRespData (eap_if s)) s in
       let s := setter eap_method_priv (fun _ => Some p) s in
       if m_isDone e p s then
         (eap_sm_Policy_update None ;;
          method_keys e p ;;
          method_session_id e p ;;
          WHEN (fun s => erp s && non_null (m_get_emsk e) && non_null (eapSessionId (eap_if s)))
            DO eap_server_erp_init ;;
          methodState ::= METHOD_END)%cmd s
       else setter methodState (fun _ => METHOD_CONTINUE) s))%cmd.

(** The [try_another_method] loop: the proposed vendor, or [None] when the
    loop has not ended. *)
Fixpoint propose_loop (fuel : nat) (s : sm) : option sm :=
  match fuel with
  | O => None
  | S fuel =>
      let '(vendor, type, s) := eap_sm_Policy_getNextMethod s in
      let s := setter currentMethod (fun _ =>
                 if vendor =? EAP_VENDOR_IETF then type else EAP_TYPE_EXPANDED) s in
      let s := reset_method s in
      let s := setter m (fun _ => eap_server_get_eap_method vendor type) s in
      match m s with
      | None => Some s
      | Some e =>
          let '(p, s) := m_init e s in
          let s := setter eap_method_priv (fun _ => p) s in
          if non_null p then Some s else propose_loop fuel (no_current_method s)
      end
  end.

(** An entry of the user's method list is used up by every attempt. *)
Definition propose_fuel : nat := 10.

Definition EAP_PROPOSE_METHOD_Enter : cmd sm :=
  (ENTRY EAP_PROPOSE_METHOD false ;;
   try_initiate_reauth ::= false ;;
   or_fault NoReturn (propose_loop propose_fuel) ;;
   IF (fun s => negb (non_null (m s))) THEN (decision ::= DECISION_FAILURE)
   ELSE (methodState <~ (fun s =>
           if (currentMethod s =? EAP_TYPE_IDENTITY) ||
              (currentMethod s =? EAP_TYPE_NOTIFICATION)
           then METHOD_CONTINUE else METHOD_PROPOSED)))%cmd.

(** The method list of a NAK, with its length. *)
Definition nak_types (b : wpabuf) : option (list Z) :=
  let h := wpabuf_head b in
  if sizeof_eap_hdr <? wpabuf_len b then
    let len := hdr_length h in
    let len := if wpabuf_len b <? len then wpabuf_len b else len in
    if byte_at h sizeof_eap_hdr =? EAP_TYPE_NAK
    then Some (slice h (sizeof_eap_hdr + 1) (len - sizeof_eap_hdr - 1))
    else None
  else None.

Definition EAP_NAK_Enter : cmd sm :=
  (ENTRY EAP_NAK false ;;
   (fun s =>
      match eap_method_priv s with
      | Some p =>
          match m s with
          | Some e => setter eap_method_priv (fun _ => None) (m_reset e p s)
          | None => raise NullMethod s
          end
      | None => s
      end) ;;
   m ::= None ;;
   (fun s =>
      if negb (eap_hdr_len_valid (eapRespData (eap_if s)) 1) then s
      else
        match eapRespData (eap_if s) with
        | Some b => eap_sm_Policy_update (nak_types b) s
        | None => s
        end))%cmd.

Definition EAP_SELECT_ACTION_Enter : cmd sm :=
  (ENTRY EAP_SELECT_ACTION false ;;
   fun s => let '(d, s) := eap_sm_Policy_getDecision s in setter decision (fun _ => d) s)%cmd.

Definition EAP_TIMEOUT_FAILURE_Enter : cmd sm :=
  (ENTRY EAP_TIMEOUT_FAILURE false ;; eap_if ∷ eapTimeout ::= true)%cmd.

(** Store a message the machine has built itself. *)
Definition set_reqData (build : sm -> option (option wpabuf)) : cmd sm :=
  or_fault Overflow (fun s =>
    let? msg := build s in Some ((eap_if ∷ eapReqData ::= msg)%cmd s)).

Definition EAP_FAILURE_Enter (global : bool) : cmd sm :=
  (ENTRY EAP_FAILURE global ;;
   set_reqData (fun s => eap_sm_buildFailure (currentId s) s) ;;
   lastReqData ::= None ;;
   eap_if ∷ eapFail ::= true)%cmd.

Definition EAP_SUCCESS_Enter : cmd sm :=
  (ENTRY EAP_SUCCESS false ;;
   set_reqData (fun s => eap_sm_buildSuccess (currentId s) s) ;;
   lastReqData ::= None ;;
   WHEN (fun s => non_null (eapKeyData (eap_if s))) DO (eap_if ∷ eapKeyAvailable ::= true) ;;
   eap_if ∷ eapSuccess ::= true)%cmd.

Definition EAP_INITIATE_REAUTH_START_Enter : cmd sm :=
  (ENTRY EAP_INITIATE_REAUTH_START false ;;
   initiate_reauth_start_sent ::= true ;;
   try_initiate_reauth ::= true ;;
   take_nextId ;;
   lastId <~ currentId ;;
   set_reqData (fun s => eap_sm_buildInitiateReauthStart (currentId s) s) ;;
   lastReqData ::= None)%cmd.

(** ** EAP re-authentication protocol *)

Definition erp_hash_len (cs : Z) : option Z :=
  if cs =? EAP_ERP_CS_HMAC_SHA256_256 then Some 32
  else if cs =? EAP_ERP_CS_HMAC_SHA256_128 then Some 16
  else None.

(** The EAP-Finish/Re-auth message: [Some None] when the function returns
    without one, [None] for an abort. *)
Definition erp_finish_msg (s : sm) (k : option eap_server_erp_key) (id flags seq : Z)
    (nai : list Z) : option (option wpabuf) :=
  match (match k with Some k => erp_hash_len (cryptosuite k) | None => Some 0 end) with
  | None => Some None
  | Some hash_len =>
      let nai := c_string nai in
      let plen := 1 + 2 + 2 + zlen nai + (if hash_len =? 0 then 0 else 1 + hash_len) in
      let? msg := eap_msg_alloc (oom (env s)) EAP_VENDOR_IETF EAP_ERP_TYPE_REAUTH plen
                    EAP_CODE_FINISH id in
      match msg with
      | None => Some None
      | Some msg =>
          let? msg := wpabuf_put_u8 msg flags in
          let? msg := wpabuf_put_be16 msg seq in
          let? msg := wpabuf_put_u8 msg EAP_ERP_TLV_KEYNAME_NAI in
          let? msg := wpabuf_put_u8 msg (zlen nai) in
          let? msg := wpabuf_put_str msg nai in
          match k with
          | None => Some (Some msg)
          | Some k =>
              let? msg := wpabuf_put_u8 msg (cryptosuite k) in
              match hmac_sha256 (rIK k) (wpabuf_head msg) with
              | None => Some None
              | Some hash => option_map Some (wpabuf_put_data msg (take (Z.to_nat hash_len) hash))
              end
          end
      end
  end.

(** What [erp_send_finish_reauth] does once it has sent the message: report
    the failure, or derive and report the new session key. *)
Definition erp_finish_result (k : option eap_server_erp_key) (flags seq : Z) : cmd sm :=
  match k with
  | None => (eap_if ∷ eapFail ::= true)%cmd
  | Some k =>
      if negb (Z.land flags 0x80 =? 0) then (eap_if ∷ eapFail ::= true)%cmd
      else
        (eap_if ∷ eapKeyDataLen ::= 0 ;;
         eap_if ∷ eapKeyData ::= None ;;
         WHEN (fun s => negb (oom (env s))) DO
           match hmac_sha256_kdf (rRK k) (chars "Re-authentication Master Session Key@ietf.org")
                   (WPA_PUT_BE16 seq ++ WPA_PUT_BE16 (rRK_len k)) (rRK_len k) with
           | None => skip
           | Some key =>
               (eap_if ∷ eapKeyData ::= Some key ;;
                eap_if ∷ eapKeyDataLen ::= rRK_len k ;;
                eap_if ∷ eapKeyAvailable ::= true ;;
                eap_if ∷ eapSuccess ::= true)
           end)%cmd
  end.

Definition erp_send_finish_reauth (k : option eap_server_erp_key) (id flags seq : Z)
    (nai : list Z) : cmd sm :=
  or_fault Overflow (fun s =>
    let? msg := erp_finish_msg s k id flags seq nai in
    match msg with
    | None => Some s
    | Some msg =>
        Some ((lastId <~ currentId ;; currentId ::= id ;;
               eap_if ∷ eapReqData ::= Some msg ;; lastReqData ::= None ;;
               erp_finish_result k flags seq)%cmd s)
    end).

Definition set_cryptosuite (cs : Z) (k : eap_server_erp_key) : eap_server_erp_key :=
  mk_erp_key (rRK_len k) (rIK_len k) (rRK k) (rIK k) (recv_seq k) cs (keyname_nai k).
Definition set_recv_seq (q : Z) (k : eap_server_erp_key) : eap_server_erp_key :=
  mk_erp_key (rRK_len k) (rIK_len k) (rRK k) (rIK k) q (cryptosuite k) (keyname_nai k).

(** Is the Authentication Tag of [n] bytes before [end_] the HMAC of what
    precedes it?  [None]: the HMAC failed. *)
Definition erp_tag_matches (h : list Z) (end_ n : Z) (k : eap_server_erp_key) : option bool :=
  let? hash := hmac_sha256 (rIK k) (slice h 0 (end_ - n)) in
  Some (bool_decide (slice h (end_ - n) n = take (Z.to_nat n) hash)).

(** The check of a tag under a key without a known cryptosuite. *)
Definition erp_guess_suite (h : list Z) (end_ max_len : Z) (k : eap_server_erp_key)
    : option (Z * eap_server_erp_key) :=
  let? (n, k) :=
    (if (1 + 32 <=? max_len) && (byte_at h (end_ - 33) =? EAP_ERP_CS_HMAC_SHA256_256) then
       let? ok := erp_tag_matches h end_ 32 k in
       Some (if ok then (32, set_cryptosuite EAP_ERP_CS_HMAC_SHA256_256 k) else (0, k))
     else Some (0, k)) in
  if (n =? 0) && (byte_at h (end_ - 17) =? EAP_ERP_CS_HMAC_SHA256_128) then
    let? ok := erp_tag_matches h end_ 16 k in
    Some (if ok then (16, set_cryptosuite EAP_ERP_CS_HMAC_SHA256_128 k) else (0, k))
  else Some (n, k).

(** The Authentication Tag check of INITIATE_RECEIVED: the length of the
    verified tag and the key with its cryptosuite; [None] is [goto fail]. *)
Definition erp_check_tag (h : list Z) (start end_ : Z) (k : eap_server_erp_key)
    : option (Z * eap_server_erp_key) :=
  let max_len := end_ - start in
  if max_len <? 1 + (if cryptosuite k =? EAP_ERP_CS_HMAC_SHA256_256 then 32 else 16)
  then None
  else
    match erp_hash_len (cryptosuite k) with
    | Some n =>
        if negb (byte_at h (end_ - (1 + n)) =? cryptosuite k) then None
        else
          let? ok := erp_tag_matches h end_ n k in
          if ok then Some (n, k) else None
    | None =>
        let? (n, k) := erp_guess_suite h end_ max_len k in
        if n =? 0 then None else Some (n, k)
    end.

Definition update_erp_key (i : nat) (k : eap_server_erp_key) : cmd sm :=
  (env ∷ erp_keys <~ (fun s => <[i := k]> (erp_keys (env s))))%cmd.

(** The part of INITIATE_RECEIVED that the authentication server runs: [None]
    is [goto fail], the state is then that of [s]. *)
Definition initiate_server (h : list Z) (seq tlvs end_ start : Z) (nai : list Z) : cmd sm :=
  fun s =>
    let id := hdr_identifier h in
    let fail := (fun s : sm => setter ignore (fun _ => true) s) in
    match eap_erp_get_key nai s with
    | None => erp_send_finish_reauth None id 0x80 seq nai s
    | Some i =>
        match erp_keys (env s) !! i with
        | None => fail s
        | Some k =>
            if negb (recv_seq k =? 2 ^ 32 - 1) && (seq <=? recv_seq k) then fail s
            else
              match erp_check_tag h start end_ k with
              | None => fail s
              | Some (n, k) =>
                  let s := update_erp_key i k s in
                  match erp_parse_tlvs h tlvs (end_ - (1 + n)) false with
                  | None => raise OutOfBounds s
                  | Some (ret, _) =>
                      if ret <? 0 then fail s
                      else
                        let k := set_recv_seq seq k in
                        erp_send_finish_reauth (Some k) id 0 seq nai (update_erp_key i k s)
                  end
              end
        end
    end.

(** In the pass-through case the key name becomes the user's identity. *)
Definition initiate_passthrough (name : list Z) : cmd sm :=
  (eap_server_clear_identity ;;
   IF (fun s => oom (env s)) THEN (ignore ::= true)
   ELSE (identity ::= Some name ;; identity_len ::= zlen name))%cmd.

Definition EAP_INITIATE_RECEIVED_Enter : cmd sm :=
  (ENTRY EAP_INITIATE_RECEIVED false ;;
   rxInitiate ::= false ;;
   fun s =>
     let resp := eapRespData (eap_if s) in
     let h := match resp with Some b => wpabuf_head b | None => [] end in
     let fail := setter ignore (fun _ => true) s in
     match eap_hdr_validate EAP_VENDOR_IETF EAP_ERP_TYPE_REAUTH resp with
     | None => raise OutOfBounds s
     | Some None => fail
     | Some (Some (pos, len)) =>
         if len <? 4 then fail
         else
           let end_ := pos + len in
           let seq := WPA_GET_BE16 h (pos + 1) in
           let tlvs := pos + 3 in
           match erp_parse_tlvs h tlvs end_ true with
           | None => raise OutOfBounds s
           | Some (ret, parse) =>
               if ret <? 0 then fail
               else
                 match keyname parse with
                 | None => fail
                 | Some kn =>
                     if 253 <? keyname_len parse then fail
                     else
                       let nai := slice h kn (keyname_len parse) in
                       if negb (eap_server s) then initiate_passthrough nai s
                       else initiate_server h seq tlvs end_ (kn + keyname_len parse) nai s
                 end
           end
     end)%cmd.

(** ** Pass-through to the authentication server *)

Definition EAP_INITIALIZE_PASSTHROUGH_Enter : cmd sm :=
  (ENTRY EAP_INITIALIZE_PASSTHROUGH false ;;
   eap_if ∷ aaaEapRespData ::= None ;;
   try_initiate_reauth ::= false)%cmd.

Definition EAP_IDLE2_Enter : cmd sm :=
  (ENTRY EAP_IDLE2 false ;; set_retransWhile)%cmd.

Definition EAP_RETRANSMIT2_Enter : cmd sm :=
  (ENTRY EAP_RETRANSMIT2 false ;; retransmit_body)%cmd.

Definition EAP_RECEIVED2_Enter : cmd sm :=
  (ENTRY EAP_RECEIVED2 false ;;
   fun s => eap_sm_parseEapResp (eapRespData (eap_if s)) s)%cmd.

Definition EAP_DISCARD2_Enter : cmd sm :=
  (ENTRY EAP_DISCARD2 false ;;
   eap_if ∷ eapResp ::= false ;;
   eap_if ∷ eapNoReq ::= true)%cmd.

Definition EAP_SEND_REQUEST2_Enter : cmd sm :=
  (ENTRY EAP_SEND_REQUEST2 false ;; send_request_body)%cmd.

Definition EAP_AAA_REQUEST_Enter : cmd sm :=
  (ENTRY EAP_AAA_REQUEST false ;;
   or_fault Overflow (fun s =>
     match eapRespData (eap_if s) with
     | None => Some s
     | Some _ =>
         let? (_, d) := eap_copy_buf s (aaaEapRespData (eap_if s)) (eapRespData (eap_if s)) in
         Some ((eap_if ∷ aaaEapRespData ::= d)%cmd s)
     end))%cmd.

(** [eap_copy_buf(&sm->eap_if.eapReqData, sm->eap_if.aaaEapReqData)] *)
Definition copy_aaaReq : cmd sm :=
  or_fault Overflow (fun s =>
    let? (_, d) := eap_copy_buf s (eapReqData (eap_if s)) (aaaEapReqData (eap_if s)) in
    Some ((eap_if ∷ eapReqData ::= d)%cmd s)).

Definition EAP_AAA_RESPONSE_Enter : cmd sm :=
  (ENTRY EAP_AAA_RESPONSE false ;;
   copy_aaaReq ;;
   currentId <~ (fun s => eap_sm_getId (eapReqData (eap_if s))) ;;
   methodTimeout <~ (fun s => aaaMethodTimeout (eap_if s)))%cmd.

Definition EAP_AAA_IDLE_Enter : cmd sm :=
  (ENTRY EAP_AAA_IDLE false ;;
   eap_if ∷ aaaFail ::= false ;;
   eap_if ∷ aaaSuccess ::= false ;;
   eap_if ∷ aaaEapReq ::= false ;;
   eap_if ∷ aaaEapNoReq ::= false ;;
   eap_if ∷ aaaEapResp ::= true)%cmd.

Definition EAP_TIMEOUT_FAILURE2_Enter : cmd sm :=
  (ENTRY EAP_TIMEOUT_FAILURE2 false ;; eap_if ∷ eapTimeout ::= true)%cmd.

Definition EAP_FAILURE2_Enter : cmd sm :=
  (ENTRY EAP_FAILURE2 false ;; copy_aaaReq ;; eap_if ∷ eapFail ::= true)%cmd.

Definition EAP_SUCCESS2_Enter : cmd sm :=
  (ENTRY EAP_SUCCESS2 false ;;
   copy_aaaReq ;;
   eap_if ∷ eapKeyAvailable <~ (fun s => aaaEapKeyAvailable (eap_if s)) ;;
   IF (fun s => aaaEapKeyAvailable (eap_if s)) THEN
     (fun s =>
        let '(_, d, n) := eap_copy_data s (eapKeyData (eap_if s)) (eapKeyDataLen (eap_if s))
                            (aaaEapKeyData (eap_if s)) (aaaEapKeyDataLen (eap_if s)) in
        (eap_if ∷ eapKeyData ::= d ;; eap_if ∷ eapKeyDataLen ::= n)%cmd s)
   ELSE (eap_if ∷ eapKeyData ::= None ;; eap_if ∷ eapKeyDataLen ::= 0) ;;
   eap_if ∷ eapSuccess ::= true ;;
   start_reauth ::= true)%cmd.

(** ** Transitions *)

(** [(sm->respMethod == t || (expanded, IETF, t))] *)
Definition resp_is (s : sm) (t : Z) : bool :=
  (respMethod s =? t) ||
  ((respMethod s =? EAP_TYPE_EXPANDED) && (respVendor s =? EAP_VENDOR_IETF) &&
   (respVendorMethod s =? u32 t)).

Definition id_matches (s : sm) : bool := rxResp s && (respId s =? currentId s).

Definition pending_is (p : method_pending_state) (s : sm) : bool :=
  bool_decide (method_pending s = p).

Definition EAP_switch : cmd sm :=
  fun s =>
    match EAP_state s with
    | EAP_INITIALIZE =>
        if backend_auth s then
          if negb (rxResp s) then EAP_SELECT_ACTION_Enter s
          else if resp_is s EAP_TYPE_NAK then EAP_NAK_Enter s
          else EAP_PICK_UP_METHOD_Enter s
        else EAP_SELECT_ACTION_Enter s
    | EAP_PICK_UP_METHOD =>
        if currentMethod s =? EAP_TYPE_NONE then EAP_SELECT_ACTION_Enter s
        else EAP_METHOD_RESPONSE_Enter s
    | EAP_DISABLED => if portEnabled (eap_if s) then EAP_INITIALIZE_Enter false s else s
    | EAP_IDLE =>
        if retransWhile (eap_if s) =? 0 then
          if try_initiate_reauth s
          then (try_initiate_reauth ::= false ;; EAP_SELECT_ACTION_Enter)%cmd s
          else EAP_RETRANSMIT_Enter s
        else if eapResp (eap_if s) then EAP_RECEIVED_Enter s else s
    | EAP_RETRANSMIT =>
        if MaxRetrans s <? retransCount s then EAP_TIMEOUT_FAILURE_Enter s
        else EAP_IDLE_Enter s
    | EAP_RECEIVED =>
        if id_matches s && resp_is s EAP_TYPE_NAK && bool_decide (methodState s = METHOD_PROPOSED)
        then EAP_NAK_Enter s
        else if id_matches s && resp_is s (currentMethod s) then EAP_INTEGRITY_CHECK_Enter s
        else if rxInitiate s then EAP_INITIATE_RECEIVED_Enter s
        else EAP_DISCARD_Enter s
    | EAP_DISCARD => EAP_IDLE_Enter s
    | EAP_SEND_REQUEST => EAP_IDLE_Enter s
    | EAP_INTEGRITY_CHECK =>
        if ignore s then EAP_DISCARD_Enter s else EAP_METHOD_RESPONSE_Enter s
    | EAP_METHOD_REQUEST =>
        if negb (non_null (m s)) then EAP_FAILURE_Enter false s
        else
          (EAP_SEND_REQUEST_Enter ;;
           WHEN (fun s => eapNoReq (eap_if s) && negb (eapReq (eap_if s)))
             DO EAP_FAILURE_Enter false)%cmd s
    | EAP_METHOD_RESPONSE =>
        if bool_decide (methodState s = METHOD_END) then EAP_SELECT_ACTION_Enter s
        else if pending_is METHOD_PENDING_WAIT s then s
        else if pending_is METHOD_PENDING_CONT s
        then (method_pending ::= METHOD_PENDING_NONE ;; EAP_METHOD_RESPONSE_Enter)%cmd s
        else EAP_METHOD_REQUEST_Enter s
    | EAP_PROPOSE_METHOD =>
        if pending_is METHOD_PENDING_WAIT s
        then (WHEN (fun s => 0 <? user_eap_method_index s)
                DO update user_eap_method_index (fun i => i - 1))%cmd s
        else if pending_is METHOD_PENDING_CONT s
        then (method_pending ::= METHOD_PENDING_NONE ;; EAP_PROPOSE_METHOD_Enter)%cmd s
        else EAP_METHOD_REQUEST_Enter s
    | EAP_NAK => EAP_SELECT_ACTION_Enter s
    | EAP_SELECT_ACTION =>
        match decision s with
        | DECISION_FAILURE => EAP_FAILURE_Enter false s
        | DECISION_SUCCESS => EAP_SUCCESS_Enter s
        | DECISION_PASSTHROUGH => EAP_INITIALIZE_PASSTHROUGH_Enter s
        | DECISION_INITIATE_REAUTH_START => EAP_INITIATE_REAUTH_START_Enter s
        | DECISION_CONTINUE =>
            if eap_server s && erp s && rxInitiate s then EAP_INITIATE_RECEIVED_Enter s
            else EAP_PROPOSE_METHOD_Enter s
        end
    | EAP_INITIATE_REAUTH_START => EAP_SEND_REQUEST_Enter s
    | EAP_INITIATE_RECEIVED => if negb (eap_server s) then EAP_SELECT_ACTION_Enter s else s
    | EAP_INITIALIZE_PASSTHROUGH =>
        if currentId s =? -1 then EAP_AAA_IDLE_Enter s else EAP_AAA_REQUEST_Enter s
    | EAP_IDLE2 =>
        if eapResp (eap_if s) then EAP_RECEIVED2_Enter s
        else if retransWhile (eap_if s) =? 0 then EAP_RETRANSMIT2_Enter s else s
    | EAP_RETRANSMIT2 =>
        if MaxRetrans s <? retransCount s then EAP_TIMEOUT_FAILURE2_Enter s
        else EAP_IDLE2_Enter s
    | EAP_RECEIVED2 =>
        if id_matches s then EAP_AAA_REQUEST_Enter s else EAP_DISCARD2_Enter s
    | EAP_DISCARD2 => EAP_IDLE2_Enter s
    | EAP_SEND_REQUEST2 => EAP_IDLE2_Enter s
    | EAP_AAA_REQUEST => EAP_AAA_IDLE_Enter s
    | EAP_AAA_RESPONSE => EAP_SEND_REQUEST2_Enter s
    | EAP_AAA_IDLE =>
        if aaaFail (eap_if s) then EAP_FAILURE2_Enter s
        else if aaaSuccess (eap_if s) then EAP_SUCCESS2_Enter s
        else if aaaEapReq (eap_if s) then EAP_AAA_RESPONSE_Enter s
        else if aaaTimeout (eap_if s) then EAP_TIMEOUT_FAILURE2_Enter s
        else s
    | EAP_TIMEOUT_FAILURE | EAP_FAILURE | EAP_SUCCESS
    | EAP_TIMEOUT_FAILURE2 | EAP_FAILURE2 | EAP_SUCCESS2 => s
    end.

Definition EAP_Step : cmd sm :=
  fun s =>
    if eapRestart (eap_if s) && portEnabled (eap_if s) then EAP_INITIALIZE_Enter true s
    else if negb (portEnabled (eap_if s)) then EAP_DISABLED_Enter true s
    else if EAP_MAX_AUTH_ROUNDS <? num_rounds s then
      if num_rounds s =? EAP_MAX_AUTH_ROUNDS + 1
      then (update num_rounds (fun n => n + 1) ;; EAP_FAILURE_Enter true)%cmd s
      else s
    else EAP_switch s.

(** [eap_server_sm_step]: the loop body clears [changed] and steps; the
    result is the state and whether any step changed it. *)
Definition sm_step_body (p : sm * bool) : sm * bool :=
  let s := EAP_Step (setter changed (fun _ => false) (fst p)) in
  (s, if changed s then true else snd p).

Definition eap_server_sm_step (fuel : nat) (s : sm) : option (sm * bool) :=
  do_while sm_step_body (fun p => changed (fst p)) fuel (s, false).

(** ** Creation, removal and the signals of other components *)

Definition eap_if_zero : eap_eapol_interface :=
  mk_eap_if false None false 0 false 0 0 false false false false false None None 0 None 0
    false false false false false None None 0 false 0 false None false.

(** The copies of the parameters; the key is 16 bytes long. *)
Definition copy_params (p : eap_params) : eap_params :=
  mk_eap_params (ssl_ctx p) (msg_ctx p) (eap_sim_db_priv p) (pwd_group p)
    (option_map (take 16) (pac_opaque_encr_key p))
    (eap_fast_a_id p) (if non_null (eap_fast_a_id p) then eap_fast_a_id_len p else 0)
    (eap_fast_a_id_info p) (eap_fast_prov p)
    (pac_key_lifetime p) (pac_key_refresh_time p) (eap_sim_aka_result_ind p) (tnc p) (wps p)
    (assoc_wps_ie p) (assoc_p2p_ie p)
    (fragment_size p) (pbc_in_m1 p) (server_id p) (server_id_len p) (tls_session_lifetime p).

(** [os_zalloc], then the assignments of [eap_server_sm_init]. *)
Definition eap_server_sm_init (conf : eap_config) (e : eap_env) : option sm :=
  if oom e then None
  else
    Some (mk_eap_sm M P EAP_DISABLED 5 eap_if_zero EAP_TYPE_NONE 0 METHOD_PROPOSED 0 None 0
      false false 0 EAP_TYPE_NONE EAP_VENDOR_IETF EAP_TYPE_NONE false DECISION_SUCCESS None
      false None None 0 0 None 0 (conf_backend_auth conf) false (conf_eap_server conf) 0
      METHOD_PENDING_NONE false
      (match conf_peer_addr conf with Some a => take 6 a | None => replicate 6 0 end)
      false false (conf_erp conf) (copy_params (conf_params conf)) e).

(** [eap_server_sm_deinit]: what is left after the memory has been freed. *)
Definition eap_server_sm_deinit (s : sm) : eap_env := env (reset_method s).

Definition eap_sm_notify_cached : cmd sm := (EAP_state ::= EAP_SUCCESS)%cmd.

Definition eap_sm_pending_cb : cmd sm :=
  (WHEN (pending_is METHOD_PENDING_WAIT) DO (method_pending ::= METHOD_PENDING_CONT))%cmd.

Definition eap_sm_method_pending (s : sm) : bool := pending_is METHOD_PENDING_WAIT s.

Definition eap_get_identity (s : sm) : option (list Z) * Z := (identity s, identity_len s).

Definition eap_get_interface (s : sm) : eap_eapol_interface := eap_if s.

(** ** Copies *)

(** [copy_buf] fails only when the memory is exhausted, and never aborts. *)
Lemma copy_buf_cases s dst src :
  eap_copy_buf s dst src = Some (-1, dst) /\ src = None \/
  eap_copy_buf s dst src = Some (-1, None) /\ src <> None /\ oom (env s) = true \/
  exists b b', src = Some b /\ data b' = data b /\
    eap_copy_buf s dst src = Some (0, Some b') /\ oom (env s) = false.
Proof.
  destruct src as [b|]; [|left; split; reflexivity]. right. unfold eap_copy_buf.
  destruct (oom (env s)).
  - left. split; [reflexivity|split; [discriminate|reflexivity]].
  - right. exists b. eexists. rewrite dup_ok. split; [reflexivity|].
    split; [|split; reflexivity]. reflexivity.
Qed.

End eap.

(** Case analysis on a copy of a buffer. *)
Ltac copy_cases :=
  unfold or_fault;
  match goal with |- context [eap_copy_buf ?a ?b ?c] =>
    destruct (copy_buf_cases a b c) as [[-> _]|[[-> _]|(? & ? & _ & _ & -> & _)]] end.
