(* ===== verification/EapControl.v ===== *)
(** * The EAP authenticator: progress

    Which part of the state decides whether the machine goes on ([ctl_of]),
    what every state does to it ([enters]), that [eap_server_sm_step] ends
    ([EAP_Step_rank], [sm_step_ends]) and where it stops ([at_rest]).  Only
    the interface [EapMethodLaws] is assumed of the EAP methods. *)

From S2P Require Import Prelude.
From S2P Require Import Wpabuf.
From S2P Require Import Common.
From S2P Require Import EapCommon.
From S2P Require Import EapServer.

(** How the states move. *)
Create HintDb eap_moves discriminated.

Section eap.
Context {M P : Type} `{EM : !EapMethods M P, CB : !EapolCallbacks, EC : !ErpCrypto}.
Abbreviation sm := (eap_sm M P).
Implicit Types s : sm.

(** ** What the steps keep *)

(** The part of the state that decides whether the machine goes on: no method
    may touch it, apart from reporting pending work. *)
Record ctl := mk_ctl {
  c_state : eap_state; c_if : eap_eapol_interface; c_rounds : Z; c_server : bool;
  c_pending : method_pending_state; c_changed : bool
}.

Definition ctl_of (s : sm) : ctl :=
  mk_ctl (EAP_state s) (eap_if s) (num_rounds s) (eap_server s) (method_pending s) (changed s).

(** Entering [t], as [SM_ENTRY] does it: a global transition into the state
    the machine is in already is no change. *)
Definition with_state (g : bool) (c : ctl) (t : eap_state) : ctl :=
  mk_ctl t (c_if c) (c_rounds c) (c_server c) (c_pending c)
    (negb g || negb (bool_decide (c_state c = t)) || c_changed c).
Definition with_if (c : ctl) (i : eap_eapol_interface) : ctl :=
  mk_ctl (c_state c) i (c_rounds c) (c_server c) (c_pending c) (c_changed c).
Definition with_rounds (c : ctl) (n : Z) : ctl :=
  mk_ctl (c_state c) (c_if c) n (c_server c) (c_pending c) (c_changed c).
Definition with_pending (c : ctl) (p : method_pending_state) : ctl :=
  mk_ctl (c_state c) (c_if c) (c_rounds c) (c_server c) p (c_changed c).

Lemma ENTRY_ctl t g s : ctl_of (ENTRY t g s) = with_state g (ctl_of s) t.
Proof.
  unfold ENTRY, SM_ENTRY, with_state. cmd_cases; unfold ctl_of; cbn [c_state c_changed];
    rewrite Heqb; reflexivity.
Qed.

Lemma set_if_ctl g s : ctl_of (setter eap_if g s) = with_if (ctl_of s) (g (eap_if s)).
Proof. reflexivity. Qed.
Lemma set_rounds_ctl g s : ctl_of (setter num_rounds g s) = with_rounds (ctl_of s) (g (num_rounds s)).
Proof. reflexivity. Qed.
Lemma set_pending_ctl g s :
  ctl_of (setter method_pending g s) = with_pending (ctl_of s) (g (method_pending s)).
Proof. reflexivity. Qed.

Lemma ctl_if s : eap_if s = c_if (ctl_of s).
Proof. reflexivity. Qed.
Lemma ctl_rounds s : num_rounds s = c_rounds (ctl_of s).
Proof. reflexivity. Qed.
Lemma ctl_pending s : method_pending s = c_pending (ctl_of s).
Proof. reflexivity. Qed.

Ltac ctl_step :=
  match goal with
  | |- context [ctl_of (@setter ?S ?T ?f ?i ?g ?s)] => rewrite (frame ctl_of f i g s)
  | |- context [ctl_of (setter eap_if ?g ?s)] => rewrite (set_if_ctl g s), ?(ctl_if s)
  | |- context [ctl_of (setter num_rounds ?g ?s)] => rewrite (set_rounds_ctl g s), ?(ctl_rounds s)
  | |- context [ctl_of (setter method_pending ?g ?s)] =>
      rewrite (set_pending_ctl g s), ?(ctl_pending s)
  | |- context [ctl_of (ENTRY ?t ?g ?s)] => rewrite (ENTRY_ctl t g s)
  end.

Lemma parse_ctl r s : ctl_of (eap_sm_parseEapResp r s) = ctl_of s.
Proof.
  unfold eap_sm_parseEapResp. open_cmds.
  destruct r as [b|]; repeat case_match; open_cmds; repeat ctl_step; reflexivity.
Qed.

Lemma raise_ctl f s : ctl_of (raise f s) = ctl_of s.
Proof. reflexivity. Qed.

Lemma send_request_ctl s :
  exists i, ctl_of (send_request_body s) = with_if (ctl_of s) i /\
    eapResp i = false /\ eapRestart i = eapRestart (eap_if s) /\
    portEnabled i = portEnabled (eap_if s) /\ eapSuccess i = eapSuccess (eap_if s).
Proof.
  unfold send_request_body. open_cmds. cmd_cases; [copy_cases|];
  open_cmds; repeat ctl_step; eexists; (split; [reflexivity|repeat split]).
Qed.

Lemma retransmit_ctl s :
  exists i, ctl_of (retransmit_body s) = with_if (ctl_of s) i /\
    eapResp i = eapResp (eap_if s) /\ eapRestart i = eapRestart (eap_if s) /\
    portEnabled i = portEnabled (eap_if s) /\ eapSuccess i = eapSuccess (eap_if s).
Proof.
  unfold retransmit_body. open_cmds. cmd_cases; [copy_cases|]; open_cmds; cmd_cases;
   open_cmds; repeat ctl_step; eexists; (split; [reflexivity|repeat split]).
Qed.

(** The state without the members that EAP methods write. *)
Definition own : sm -> sm :=
  (MaxRetrans ::= 0 ;; identity ::= None ;; identity_len ::= 0 ;; user ::= None ;;
   user_eap_method_index ::= 0 ;; update_user ::= false ;;
   method_pending ::= METHOD_PENDING_NONE ;; env ∷ rng ::= 0)%cmd.

(** What a method call may do to the state machine. *)
Definition method_step (s s' : sm) : Prop :=
  own s' = own s /\
  (method_pending s' = METHOD_PENDING_CONT -> method_pending s = METHOD_PENDING_CONT).

(** The promise of every method: it keeps to the members above, and only
    [eap_sm_pending_cb] reports pending work as done. *)
Class EapMethodLaws : Prop := {
  init_step e s : method_step s (snd (m_init e s));
  pick_up_step e f s : m_initPickUp e = Some f -> method_step s (snd (f s));
  reset_step e p s : method_step s (m_reset e p s);
  buildReq_step e p id s : method_step s (snd (m_buildReq e p id s));
  process_step e p r s : method_step s (snd (m_process e p r s))
}.
Context `{ML : !EapMethodLaws}.

Lemma method_step_ctl s s' :
  method_step s s' ->
  exists p, ctl_of s' = with_pending (ctl_of s) p /\
    (p = METHOD_PENDING_CONT -> method_pending s = METHOD_PENDING_CONT).
Proof.
  intros [Ho Hp]. exists (method_pending s'). split; [|done].
  assert (Hc : forall s, ctl_of s = with_pending (ctl_of (own s)) (method_pending s)) by reflexivity.
  rewrite (Hc s'), Ho, (Hc s). reflexivity.
Qed.

(** [ctl_of s'] is that of [s] up to pending work that was already there. *)
Definition ctl_pending_only (s s' : sm) : Prop :=
  exists p, ctl_of s' = with_pending (ctl_of s) p /\
    (p = METHOD_PENDING_CONT -> method_pending s = METHOD_PENDING_CONT).

#[local] Instance ctl_pending_only_preorder : PreOrder ctl_pending_only.
Proof.
  split.
  - intros s. exists (method_pending s). split; [reflexivity|tauto].
  - intros s1 s2 s3 (p & Hp & Hc) (q & Hq & Hd). exists q. rewrite Hq, Hp. split; [reflexivity|].
    intros E. apply Hc. specialize (Hd E). rewrite (ctl_pending s2), Hp in Hd. exact Hd.
Qed.

Lemma ctl_eq_pending s s' : ctl_of s' = ctl_of s -> ctl_pending_only s s'.
Proof. intros H. exists (method_pending s). rewrite H. split; [reflexivity|tauto]. Qed.

Lemma reset_method_ctl s : ctl_pending_only s (reset_method s).
Proof.
  unfold reset_method. destruct (m s) as [e|], (eap_method_priv s) as [p|]; try reflexivity.
  etransitivity; [apply method_step_ctl, (reset_step e p s)|]. apply ctl_eq_pending.
  by ctl_step.
Qed.

Lemma no_current_method_ctl s : ctl_of (no_current_method s) = ctl_of s.
Proof. reflexivity. Qed.

Lemma getNextMethod_ctl s : ctl_of (snd (eap_sm_Policy_getNextMethod s)) = ctl_of s.
Proof. unfold eap_sm_Policy_getNextMethod. repeat case_match; reflexivity. Qed.

Lemma propose_loop_ctl n s s' : propose_loop n s = Some s' -> ctl_pending_only s s'.
Proof.
  revert s. induction n as [|n IH]; intros s H; [discriminate|]. cbn [propose_loop] in H.
  pose proof (getNextMethod_ctl s) as Hn.
  destruct (eap_sm_Policy_getNextMethod s) as [[vendor type] s1]. cbn [snd] in Hn.
  set (s2 := setter currentMethod _ s1) in H. set (s3 := reset_method s2) in H.
  set (s4 := setter m _ s3) in H.
  assert (H4 : ctl_pending_only s s4).
  { transitivity s2; [apply ctl_eq_pending; unfold s2; by ctl_step|].
    transitivity s3; [apply reset_method_ctl|]. apply ctl_eq_pending. unfold s4. by ctl_step. }
  clearbody s4. clear s2 s3 Hn. destruct (m s4) as [e|]; [|injection H as <-; exact H4].
  pose proof (init_step e s4) as Hi. destruct (m_init e s4) as [p s5]. cbn [snd] in Hi.
  apply method_step_ctl in Hi.
  assert (H5 : ctl_pending_only s (setter eap_method_priv (fun _ => p) s5)).
  { transitivity s4; [done|]. transitivity s5; [done|]. apply ctl_eq_pending. by ctl_step. }
  destruct (non_null p); [injection H as <-; exact H5|]. etransitivity; [exact H5|].
  etransitivity; [|apply IH, H]. apply ctl_eq_pending. reflexivity.
Qed.

(** ** The states as transitions of the control part *)

(** The interface members a state leaves alone; only three states can report
    success. *)
Definition may_succeed (t : eap_state) : bool :=
  match t with EAP_SUCCESS | EAP_SUCCESS2 | EAP_INITIATE_RECEIVED => true | _ => false end.

Definition if_keep (t : eap_state) (i i' : eap_eapol_interface) : Prop :=
  eapRestart i' = eapRestart i /\ portEnabled i' = portEnabled i /\
  (may_succeed t = false -> eapSuccess i' = true -> eapSuccess i = true).

Lemma calculateTimeout_nonzero s n t : eap_sm_calculateTimeout s n t <> 0.
Proof.
  unfold eap_sm_calculateTimeout. destruct (try_initiate_reauth s); [lia|].
  destruct (negb (t =? 0)) eqn:E; bool_hyps; [done|]. unfold backoff at 1.
  destruct (Z.to_nat n) as [|[|[|[|]]]]; vm_compute; discriminate.
Qed.

Lemma IDLE_ctl t s :
  exists i, ctl_of (set_retransWhile (ENTRY t false s)) = with_if (with_state false (ctl_of s) t) i /\
    if_keep t (eap_if s) i /\ eapResp i = eapResp (eap_if s) /\ retransWhile i <> 0.
Proof.
  unfold set_retransWhile. open_cmds. repeat ctl_step. eexists. split; [reflexivity|].
  split; [split; [reflexivity|split; [reflexivity|intros _ H; exact H]]|].
  split; [reflexivity|]. apply calculateTimeout_nonzero.
Qed.

(** What the other states do to the control part: the state they enter, an
    interface with [eapRestart] and [portEnabled] as before, and work that was
    already pending. *)
Definition enters (g : bool) (t : eap_state) (s s' : sm) : Prop :=
  exists i p, ctl_of s' = with_pending (with_if (with_state g (ctl_of s) t) i) p /\
    if_keep t (eap_if s) i /\
    (p = METHOD_PENDING_CONT -> method_pending s = METHOD_PENDING_CONT).

Lemma enters_intro g t s s' i :
  ctl_of s' = with_if (with_state g (ctl_of s) t) i -> if_keep t (eap_if s) i -> enters g t s s'.
Proof. intros H Hk. exists i, (method_pending s). rewrite H. split; [reflexivity|tauto]. Qed.

Lemma enters_entry t g s : enters g t s (ENTRY t g s).
Proof. apply (enters_intro _ _ _ _ (eap_if s)); [by rewrite ENTRY_ctl|]. by repeat split. Qed.

Lemma enters_pending g t s s1 s2 : enters g t s s1 -> ctl_pending_only s1 s2 -> enters g t s s2.
Proof.
  intros (i & p & H & Hk & Hp) (q & H2 & Hq). exists i, q. rewrite H2, H.
  split; [reflexivity|]. split; [done|]. intros E. apply Hp.
  rewrite (ctl_pending s1), H in Hq. by apply Hq.
Qed.

Lemma enters_if g t s s1 s2 i :
  enters g t s s1 -> ctl_of s2 = with_if (ctl_of s1) i -> if_keep t (eap_if s1) i -> enters g t s s2.
Proof.
  intros (j & p & H & (K1 & K2 & K5) & Hp) H2 (K3 & K4 & K6). exists i, p. rewrite H2, H.
  rewrite (ctl_if s1), H in K3, K4, K6. simpl in K3, K4, K6.
  split; [reflexivity|]. split; [|done]. split; [congruence|]. split; [congruence|]. auto.
Qed.

(** An assignment to an interface member other than the two above. *)
Lemma enters_set_if g t s s1 f :
  enters g t s s1 -> (forall i, if_keep t i (f i)) -> enters g t s (setter eap_if f s1).
Proof. intros H Hk. eapply enters_if; [exact H|apply set_if_ctl|apply Hk]. Qed.

Lemma enters_eq g t s s1 s2 : enters g t s s1 -> ctl_of s2 = ctl_of s1 -> enters g t s s2.
Proof. intros H H2. eapply enters_pending; [exact H|]. by apply ctl_eq_pending. Qed.

(** Strip the assignments of a handler, outermost first. *)
Ltac enters_tac :=
  repeat first
    [ apply enters_entry
    | lazymatch goal with
      | |- enters _ _ _ (setter eap_if _ _) => 
          apply enters_set_if; [|intros ?; split; [reflexivity|split; [reflexivity|
            let Hm := fresh in let Hs := fresh in
            intros Hm; first [exact (fun H => H)|discriminate Hm|intros Hs; discriminate Hs]]]]
      | |- enters _ _ _ (@setter _ _ ?f ?i ?g ?s) =>
          eapply (enters_eq _ _ _ s); [|exact (frame ctl_of f i g s)]
      | |- enters _ _ _ (if ?b then _ else _) => destruct b eqn:?
      | |- enters _ _ _ (raise _ ?s) => eapply (enters_eq _ _ _ s); [|apply raise_ctl]
      | |- enters _ _ _ (eap_sm_parseEapResp _ ?s) => eapply (enters_eq _ _ _ s); [|apply parse_ctl]
      | |- enters _ _ _ (reset_method ?s) => eapply (enters_pending _ _ _ s); [|apply reset_method_ctl]
      | |- enters _ _ _ (no_current_method ?s) =>
          eapply (enters_eq _ _ _ s); [|apply no_current_method_ctl]
      end ].

Ltac enter_cmd := open_cmds; cmd_cases; open_cmds; enters_tac.

Lemma PICK_UP_enters s : enters false EAP_PICK_UP_METHOD s (EAP_PICK_UP_METHOD_Enter s).
Proof.
  unfold EAP_PICK_UP_METHOD_Enter. open_cmds. cmd_cases; open_cmds; [|enters_tac].
  set (s1 := setter m _ _). assert (H1 : enters false EAP_PICK_UP_METHOD s s1) by (unfold s1; enters_tac).
  clearbody s1. unfold pick_up_init. destruct (m s1) as [e|]; [|enters_tac; exact H1].
  destruct (m_initPickUp e) as [f|] eqn:Ef; [|enters_tac; exact H1].
  pose proof (pick_up_step e f s1 Ef) as Hs. destruct (f s1) as [p s2]. cbn [snd] in Hs.
  apply method_step_ctl in Hs. destruct (non_null p); enters_tac;
  (eapply enters_pending; [exact H1|exact Hs]).
Qed.

Lemma take_nextId_ctl s : ctl_of (take_nextId s) = ctl_of s.
Proof.
  unfold take_nextId. destruct (eap_sm_nextId s (currentId s)) as [id g]. open_cmds.
  repeat ctl_step. reflexivity.
Qed.

Lemma set_reqData_enters g t s s1 b : enters g t s s1 -> enters g t s (set_reqData b s1).
Proof.
  intros H. unfold set_reqData, or_fault. destruct (b s1); open_cmds; enters_tac; exact H.
Qed.

Lemma INTEGRITY_CHECK_enters s : enters false EAP_INTEGRITY_CHECK s (EAP_INTEGRITY_CHECK_Enter s).
Proof.
  unfold EAP_INTEGRITY_CHECK_Enter, with_method. enter_cmd.
  destruct (m _) as [e|]; [|enters_tac]. destruct (eap_method_priv _); [|enters_tac].
  destruct (m_check e); enters_tac.
Qed.

Lemma METHOD_REQUEST_enters s : enters false EAP_METHOD_REQUEST s (EAP_METHOD_REQUEST_Enter s).
Proof.
  unfold EAP_METHOD_REQUEST_Enter, with_method. open_cmds. cmd_cases; open_cmds; [|enters_tac].
  set (s1 := setter lastId _ _).
  assert (H1 : enters false EAP_METHOD_REQUEST s s1).
  { unfold s1. enters_tac. eapply enters_eq; [|apply take_nextId_ctl]. enters_tac. }
  clearbody s1. destruct (m s1) as [e|]; [|enters_tac; exact H1].
  destruct (eap_method_priv s1) as [p|]; [|enters_tac; exact H1].
  pose proof (buildReq_step e p (currentId s1) s1) as Hs.
  destruct (m_buildReq e p (currentId s1) s1) as [[req p2] s2]. cbn [snd] in Hs.
  apply method_step_ctl in Hs. enters_tac. eapply enters_pending; [exact H1|exact Hs].
Qed.

Lemma process_nak_ctl l s : ctl_of (eap_sm_process_nak l s) = ctl_of s.
Proof. unfold eap_sm_process_nak. repeat case_match; reflexivity. Qed.

Lemma Policy_update_ctl l s : ctl_of (eap_sm_Policy_update l s) = ctl_of s.
Proof.
  unfold eap_sm_Policy_update. repeat case_match; try reflexivity. apply process_nak_ctl.
Qed.

Lemma erp_init_ctl s : ctl_of (eap_server_erp_init s) = ctl_of s.
Proof.
  unfold eap_server_erp_init, eap_erp_add_key. repeat case_match; reflexivity.
Qed.

Lemma METHOD_RESPONSE_enters s : enters false EAP_METHOD_RESPONSE s (EAP_METHOD_RESPONSE_Enter s).
Proof.
  unfold EAP_METHOD_RESPONSE_Enter, with_method. enter_cmd.
  set (s1 := ENTRY _ _ s). assert (H1 : enters false EAP_METHOD_RESPONSE s s1) by (unfold s1; enters_tac).
  clearbody s1. destruct (m s1) as [e|]; [|enters_tac; exact H1].
  destruct (eap_method_priv s1) as [p|]; [|enters_tac; exact H1].
  pose proof (process_step e p (eapRespData (eap_if s1)) s1) as Hs.
  destruct (m_process e p (eapRespData (eap_if s1)) s1) as [p2 s2]. cbn [snd] in Hs.
  apply method_step_ctl in Hs.
  assert (H2 : enters false EAP_METHOD_RESPONSE s s2) by (eapply enters_pending; [exact H1|exact Hs]).
  clear Hs. match goal with |- enters _ _ _ (if ?b then _ else _) => destruct b end;
    [|enters_tac; exact H2].
  set (s3 := eap_sm_Policy_update _ _).
  assert (H3 : enters false EAP_METHOD_RESPONSE s s3).
  { unfold s3. eapply enters_eq; [|apply Policy_update_ctl]. enters_tac. exact H2. }
  clearbody s3. unfold method_session_id, method_keys. open_cmds.
  match goal with |- enters _ _ _ (setter methodState _ (when _ _ ?x)) => set (s4 := x) end.
  assert (H4 : enters false EAP_METHOD_RESPONSE s s4).
  { unfold s4. repeat case_match; enters_tac; exact H3. }
  clearbody s4. cmd_cases; enters_tac; [eapply enters_eq; [|apply erp_init_ctl]|]; exact H4.
Qed.

Lemma PROPOSE_enters s : enters false EAP_PROPOSE_METHOD s (EAP_PROPOSE_METHOD_Enter s).
Proof.
  unfold EAP_PROPOSE_METHOD_Enter, or_fault. open_cmds.
  match goal with |- enters _ _ _ (ite _ _ _ ?x) => set (s1 := x) end.
  assert (H1 : enters false EAP_PROPOSE_METHOD s s1).
  { unfold s1. match goal with |- context [propose_loop ?n ?x] =>
      destruct (propose_loop n x) as [s2|] eqn:Hl end; [|enters_tac].
    apply propose_loop_ctl in Hl. eapply enters_pending; [|exact Hl]. enters_tac. }
  clearbody s1. cmd_cases; enters_tac; exact H1.
Qed.

Lemma NAK_enters s : enters false EAP_NAK s (EAP_NAK_Enter s).
Proof.
  unfold EAP_NAK_Enter. open_cmds.
  match goal with |- context [setter m _ ?x] => set (s1 := x) end.
  assert (H1 : enters false EAP_NAK s s1).
  { unfold s1. destruct (eap_method_priv _) as [p|]; [|enters_tac].
    destruct (m _) as [e|]; [|enters_tac]. enters_tac.
    eapply enters_pending; [|apply method_step_ctl, reset_step]. enters_tac. }
  clearbody s1. repeat case_match; enters_tac; try exact H1.
  eapply enters_eq; [|apply Policy_update_ctl]. enters_tac. exact H1.
Qed.

Lemma user_get_ctl i n s : ctl_of (snd (eap_user_get i n s)) = ctl_of s.
Proof. unfold eap_user_get. repeat case_match; reflexivity. Qed.

Lemma getDecision_ctl s : ctl_of (snd (eap_sm_Policy_getDecision s)) = ctl_of s.
Proof.
  unfold eap_sm_Policy_getDecision, getDecision_user.
  destruct (negb _ && _ && _); [reflexivity|]. destruct (_ && _); [reflexivity|].
  destruct (_ && _); [reflexivity|]. destruct (identity s) as [ident|]; [|reflexivity].
  destruct (_ && _); [|reflexivity].
  pose proof (user_get_ctl (take (Z.to_nat (identity_len s)) ident) 0 s) as Hu.
  destruct (eap_user_get _ 0 s) as [res s1]. cbn [snd] in Hu.
  destruct (negb (res =? 0)); [exact Hu|]. destruct (_ && _); exact Hu.
Qed.

Lemma SELECT_ACTION_enters s : enters false EAP_SELECT_ACTION s (EAP_SELECT_ACTION_Enter s).
Proof.
  unfold EAP_SELECT_ACTION_Enter. open_cmds.
  pose proof (getDecision_ctl (ENTRY EAP_SELECT_ACTION false s)) as Hd.
  destruct (eap_sm_Policy_getDecision _) as [d s1]. cbn [snd] in Hd. enters_tac.
  eapply enters_eq; [|exact Hd]. enters_tac.
Qed.

Lemma FAILURE_enters g s : enters g EAP_FAILURE s (EAP_FAILURE_Enter g s).
Proof. unfold EAP_FAILURE_Enter. enter_cmd. apply set_reqData_enters. enters_tac. Qed.

Lemma SUCCESS_enters s : enters false EAP_SUCCESS s (EAP_SUCCESS_Enter s).
Proof.
  unfold EAP_SUCCESS_Enter. enter_cmd; apply set_reqData_enters; enters_tac.
Qed.

Lemma TIMEOUT_FAILURE_enters s : enters false EAP_TIMEOUT_FAILURE s (EAP_TIMEOUT_FAILURE_Enter s).
Proof. unfold EAP_TIMEOUT_FAILURE_Enter. enter_cmd. Qed.

Lemma REAUTH_START_enters s :
  enters false EAP_INITIATE_REAUTH_START s (EAP_INITIATE_REAUTH_START_Enter s).
Proof.
  unfold EAP_INITIATE_REAUTH_START_Enter. enter_cmd. apply set_reqData_enters. enters_tac.
  eapply enters_eq; [|apply take_nextId_ctl]. enters_tac.
Qed.

Lemma erp_finish_enters g s s1 k id fl q nai :
  enters g EAP_INITIATE_RECEIVED s s1 ->
  enters g EAP_INITIATE_RECEIVED s (erp_send_finish_reauth k id fl q nai s1).
Proof.
  intros H. unfold erp_send_finish_reauth, or_fault.
  destruct (erp_finish_msg s1 k id fl q nai) as [[msg|]|]; [|exact H|enters_tac; exact H].
  unfold erp_finish_result. open_cmds.
  destruct k as [k|]; [|enters_tac; exact H].
  destruct (negb _); [enters_tac; exact H|]. cmd_cases; [|enters_tac; exact H].
  destruct (hmac_sha256_kdf _ _ _ _); enters_tac; exact H.
Qed.

Lemma initiate_server_enters g s s1 h q tl en st nai :
  enters g EAP_INITIATE_RECEIVED s s1 ->
  enters g EAP_INITIATE_RECEIVED s (initiate_server h q tl en st nai s1).
Proof.
  intros H. unfold initiate_server, update_erp_key. open_cmds.
  repeat (match goal with
  | |- enters _ _ _ (match ?x with _ => _ end) => destruct x
  | |- enters _ _ _ (let '(_, _) := ?x in _) => destruct x
  end);
  try (apply erp_finish_enters); enters_tac; exact H.
Qed.

Lemma INITIATE_RECEIVED_enters s :
  enters false EAP_INITIATE_RECEIVED s (EAP_INITIATE_RECEIVED_Enter s).
Proof.
  unfold EAP_INITIATE_RECEIVED_Enter, initiate_passthrough, eap_server_clear_identity. open_cmds.
  set (s1 := setter rxInitiate _ _).
  assert (H1 : enters false EAP_INITIATE_RECEIVED s s1) by (unfold s1; enters_tac).
  clearbody s1.
  repeat (match goal with
  | |- enters _ _ _ (match ?x with _ => _ end) => destruct x
  end);
  try (apply initiate_server_enters; exact H1); try (enters_tac; exact H1).
  cmd_cases; open_cmds; enters_tac; exact H1.
Qed.

Lemma PASSTHROUGH_enters s :
  enters false EAP_INITIALIZE_PASSTHROUGH s (EAP_INITIALIZE_PASSTHROUGH_Enter s).
Proof. unfold EAP_INITIALIZE_PASSTHROUGH_Enter. enter_cmd. Qed.

Lemma copy_aaaReq_enters g t s s1 : enters g t s s1 -> enters g t s (copy_aaaReq s1).
Proof.
  intros H. unfold copy_aaaReq. copy_cases; open_cmds; enters_tac; exact H.
Qed.

Lemma AAA_REQUEST_enters s : enters false EAP_AAA_REQUEST s (EAP_AAA_REQUEST_Enter s).
Proof.
  unfold EAP_AAA_REQUEST_Enter, or_fault. open_cmds.
  destruct (eapRespData _) as [b|]; [|enters_tac].
  destruct (eap_copy_buf _ _ _) as [[]|]; enters_tac.
Qed.

Lemma AAA_RESPONSE_enters s : enters false EAP_AAA_RESPONSE s (EAP_AAA_RESPONSE_Enter s).
Proof.
  unfold EAP_AAA_RESPONSE_Enter. enter_cmd. apply copy_aaaReq_enters. enters_tac.
Qed.

Lemma TIMEOUT_FAILURE2_enters s : enters false EAP_TIMEOUT_FAILURE2 s (EAP_TIMEOUT_FAILURE2_Enter s).
Proof. unfold EAP_TIMEOUT_FAILURE2_Enter. enter_cmd. Qed.

Lemma FAILURE2_enters s : enters false EAP_FAILURE2 s (EAP_FAILURE2_Enter s).
Proof. unfold EAP_FAILURE2_Enter. enter_cmd. apply copy_aaaReq_enters. enters_tac. Qed.

Lemma SUCCESS2_enters s : enters false EAP_SUCCESS2 s (EAP_SUCCESS2_Enter s).
Proof.
  unfold EAP_SUCCESS2_Enter. open_cmds.
  match goal with |- context [ite _ _ _ ?x] => set (s1 := x) end.
  assert (H1 : enters false EAP_SUCCESS2 s s1).
  { unfold s1. enters_tac. apply copy_aaaReq_enters. enters_tac. }
  clearbody s1. cmd_cases; open_cmds; [destruct (eap_copy_data _ _ _ _ _) as [[]]|];
  enters_tac; exact H1.
Qed.

(** ** Termination of [eap_server_sm_step] *)

(** How many more states the machine can pass through. *)
Definition base (c : ctl) : nat :=
  let resp := eapResp (c_if c) in
  match c_state c with
  | EAP_DISABLED => 13
  | EAP_INITIALIZE => 10
  | EAP_IDLE => if retransWhile (c_if c) =? 0 then 13 else if resp then 11 else 0
  | EAP_RETRANSMIT => 12
  | EAP_RECEIVED => 10
  | EAP_DISCARD | EAP_SEND_REQUEST => if resp then 12 else 1
  | EAP_INTEGRITY_CHECK => 9
  | EAP_PICK_UP_METHOD => 9
  | EAP_METHOD_RESPONSE =>
      match c_pending c with METHOD_PENDING_CONT => 8 | _ => 7 end
  | EAP_NAK => 7
  | EAP_INITIATE_RECEIVED => if c_server c then 0 else 7
  | EAP_SELECT_ACTION => 6
  | EAP_PROPOSE_METHOD =>
      match c_pending c with METHOD_PENDING_CONT => 4 | _ => 3 end
  | EAP_METHOD_REQUEST => 2
  | EAP_INITIATE_REAUTH_START => 2
  | EAP_INITIALIZE_PASSTHROUGH => 3
  | EAP_AAA_IDLE =>
      if aaaFail (c_if c) || aaaSuccess (c_if c) || aaaEapReq (c_if c) then 3
      else if aaaTimeout (c_if c) then 1 else 0
  | EAP_AAA_REQUEST => 2
  | EAP_AAA_RESPONSE => 2
  | EAP_IDLE2 => if resp then 4 else if retransWhile (c_if c) =? 0 then 2 else 0
  | EAP_RECEIVED2 => 3
  | EAP_RETRANSMIT2 => if resp then 5 else 1
  | EAP_DISCARD2 | EAP_SEND_REQUEST2 => if resp then 5 else 1
  | EAP_SUCCESS | EAP_FAILURE | EAP_TIMEOUT_FAILURE
  | EAP_TIMEOUT_FAILURE2 | EAP_FAILURE2 | EAP_SUCCESS2 => 0
  end.

Definition rank (c : ctl) : nat :=
  if eapRestart (c_if c) && portEnabled (c_if c) then 14
  else if negb (portEnabled (c_if c)) then
    (if bool_decide (c_state c = EAP_DISABLED) then 0 else 1)
  else if 50 <? c_rounds c then (if c_rounds c =? 51 then 1 else 0)
  else base c.

(** The branch of [SM_STEP(EAP)] that looks at the state. *)
Definition gated (s : sm) : Prop :=
  eapRestart (eap_if s) = false /\ portEnabled (eap_if s) = true /\ num_rounds s <= 50.

Lemma EAP_Step_gated s : gated s -> EAP_Step s = EAP_switch s.
Proof.
  intros (Hr & Hp & Hn). unfold EAP_Step, EAP_MAX_AUTH_ROUNDS. rewrite Hr, Hp. simpl.
  apply Z.ltb_ge in Hn. by rewrite Hn.
Qed.

Lemma gate_rank c :
  eapRestart (c_if c) = false -> portEnabled (c_if c) = true -> c_rounds c <= 50 ->
  rank c = base c.
Proof.
  intros Hr Hp Hn. unfold rank. rewrite Hr, Hp. simpl. apply Z.ltb_ge in Hn. by rewrite Hn.
Qed.

Lemma gated_rank s : gated s -> rank (ctl_of s) = base (ctl_of s).
Proof. intros (? & ? & ?). by apply gate_rank. Qed.

Lemma enters_rank g t s s' :
  gated s -> enters g t s s' ->
  exists i p, rank (ctl_of s') = base (mk_ctl t i (num_rounds s) (eap_server s) p true) /\
    (p = METHOD_PENDING_CONT -> method_pending s = METHOD_PENDING_CONT).
Proof.
  intros (Hr & Hp & Hn) (i & p & H & (K1 & K2 & _) & Hc). exists i, p. split; [|done].
  rewrite H. rewrite gate_rank; simpl; [reflexivity|congruence|congruence|done].
Qed.

(** The states in which the interface has a say in where to go next. *)
Lemma IDLE_rank t s :
  gated s -> (t = EAP_IDLE \/ t = EAP_IDLE2) ->
  (rank (ctl_of (set_retransWhile (ENTRY t false s))) <=
   if eapResp (eap_if s) then (if bool_decide (t = EAP_IDLE) then 11 else 4) else 0)%nat.
Proof.
  intros (Hr & Hp & Hn) Ht. destruct (IDLE_ctl t s) as (i & -> & (K1 & K2 & _) & Hresp & Hw).
  rewrite gate_rank; simpl; [|congruence|congruence|done].
  apply Z.eqb_neq in Hw. unfold base. cbn [c_if c_state with_if with_state]. rewrite Hresp, Hw.
  destruct Ht as [-> | ->]; destruct (eapResp (eap_if s)); simpl; lia.
Qed.

Lemma send_request_rank t s :
  gated s -> (t = EAP_SEND_REQUEST \/ t = EAP_SEND_REQUEST2) ->
  (rank (ctl_of (send_request_body (ENTRY t false s))) <= 1)%nat /\
  gated (send_request_body (ENTRY t false s)).
Proof.
  intros (Hr & Hp & Hn) Ht.
  destruct (send_request_ctl (ENTRY t false s)) as (i & H & Hresp & K1 & K2 & _).
  rewrite ENTRY_ctl in H. rewrite (ctl_if (ENTRY _ _ _)), ENTRY_ctl in K1, K2. simpl in K1, K2.
  split.
  - rewrite H, gate_rank; simpl; [|congruence|congruence|done].
    unfold base. cbn [c_if c_state with_if with_state]. rewrite Hresp.
    destruct Ht as [-> | ->]; lia.
  - unfold gated. rewrite ctl_if, ctl_rounds, H. simpl. repeat split; [congruence..|done].
Qed.

Lemma retransmit_rank t s :
  gated s -> (t = EAP_RETRANSMIT \/ t = EAP_RETRANSMIT2) ->
  (rank (ctl_of (retransmit_body (ENTRY t false s))) <=
   if bool_decide (t = EAP_RETRANSMIT) then 12 else if eapResp (eap_if s) then 5 else 1)%nat.
Proof.
  intros (Hr & Hp & Hn) Ht.
  destruct (retransmit_ctl (ENTRY t false s)) as (i & H & Hresp & K1 & K2 & _).
  rewrite ENTRY_ctl in H. rewrite (ctl_if (ENTRY _ _ _)), ENTRY_ctl in Hresp, K1, K2.
  simpl in Hresp, K1, K2.
  rewrite H, gate_rank; simpl; [|congruence|congruence|done].
  unfold base. cbn [c_if c_state with_if with_state]. rewrite Hresp.
  destruct Ht as [-> | ->]; simpl; lia.
Qed.

Lemma DISCARD_rank s :
  gated s -> (rank (ctl_of (EAP_DISCARD_Enter s)) <= 1)%nat /\
             (rank (ctl_of (EAP_DISCARD2_Enter s)) <= 1)%nat.
Proof.
  intros (Hr & Hp & Hn). unfold EAP_DISCARD_Enter, EAP_DISCARD2_Enter. open_cmds.
  repeat ctl_step. rewrite !gate_rank; simpl; try done; lia.
Qed.

Lemma AAA_IDLE_rank s : gated s -> (rank (ctl_of (EAP_AAA_IDLE_Enter s)) <= 1)%nat.
Proof.
  intros (Hr & Hp & Hn). unfold EAP_AAA_IDLE_Enter. open_cmds. repeat ctl_step.
  rewrite gate_rank; [|done|done|done]. unfold base. simpl.
  destruct (aaaTimeout (eap_if s)); lia.
Qed.

Lemma RECEIVED_rank s :
  gated s -> (rank (ctl_of (EAP_RECEIVED_Enter s)) <= 10)%nat /\
             (rank (ctl_of (EAP_RECEIVED2_Enter s)) <= 3)%nat.
Proof.
  intros (Hr & Hp & Hn). unfold EAP_RECEIVED_Enter, EAP_RECEIVED2_Enter. open_cmds.
  repeat (ctl_step || rewrite parse_ctl). split.
  - unfold rank. simpl. rewrite Hr, Hp. cbn [andb negb].
    destruct (50 <? _); [destruct (_ =? 51); lia|]. unfold base. simpl. lia.
  - rewrite gate_rank; simpl; try done; lia.
Qed.

(** The interface of a state, up to [Q], with the rest of the view. *)
Definition reaches (c : ctl) p (Q : eap_eapol_interface -> Prop) (s : sm) : Prop :=
  exists i, ctl_of s = with_pending (with_if c i) p /\ Q i.

Lemma reaches_set c p (Q Q' : eap_eapol_interface -> Prop) g s :
  (forall i, Q i -> Q' (g i)) -> reaches c p Q s -> reaches c p Q' (setter eap_if g s).
Proof.
  intros Hg (i & H & Hi). exists (g i). split; [|by apply Hg].
  rewrite set_if_ctl, ctl_if, H. reflexivity.
Qed.

Lemma initialize_reset_ctl g s :
  exists i p, ctl_of (initialize_reset g s) =
    with_pending (with_if (with_state g (ctl_of s) EAP_INITIALIZE) i) p /\
    eapRestart i = false /\ portEnabled i = portEnabled (eap_if s) /\ eapSuccess i = false.
Proof.
  unfold initialize_reset. open_cmds.
  match goal with |- context [setter eap_if (setter eapSuccess _) ?x] => set (s0 := x) end.
  assert (H0 : enters g EAP_INITIALIZE s s0).
  { unfold s0, eap_server_clear_identity. enters_tac. cmd_cases; open_cmds; enters_tac. }
  clearbody s0. destruct H0 as (i & p & H0 & (_ & K & _) & _).
  set (c := with_state g (ctl_of s) EAP_INITIALIZE) in *.
  set (Q0 := fun i => portEnabled i = portEnabled (eap_if s)).
  set (Q1 := fun i => portEnabled i = portEnabled (eap_if s) /\ eapSuccess i = false).
  match goal with |- exists i p, ctl_of ?x = _ /\ _ =>
    assert (H : reaches c p (fun i => eapRestart i = false /\ Q1 i) x) end.
  { eapply (reaches_set c p Q1); [by intros ? [? ?]|].
    do 7 (eapply (reaches_set c p Q1); [by intros ? [? ?]|]).
    eapply (reaches_set c p Q0); [by intros ? ?|]. by exists i. }
  destruct H as (j & H & Hj). exists j, p. by split.
Qed.

Lemma initialize_backend_ctl s : ctl_of (initialize_backend s) = ctl_of s.
Proof.
  unfold initialize_backend. cmd_cases; open_cmds; repeat (ctl_step || rewrite parse_ctl); done.
Qed.

Lemma INITIALIZE_ctl g s :
  exists i, ctl_of (EAP_INITIALIZE_Enter g s) =
    with_pending (with_rounds (with_if (with_state g (ctl_of s) EAP_INITIALIZE) i) 0)
      METHOD_PENDING_NONE /\
    eapRestart i = false /\ portEnabled i = portEnabled (eap_if s) /\ eapSuccess i = false.
Proof.
  destruct (initialize_reset_ctl g s) as (i & p & H & K). exists i. split; [|exact K].
  unfold EAP_INITIALIZE_Enter. open_cmds. set (s1 := initialize_reset g s) in *. clearbody s1.
  destruct (reset_method_ctl s1) as (q & Hq & _). set (s2 := reset_method s1) in *. clearbody s2.
  repeat (ctl_step || rewrite initialize_backend_ctl). rewrite Hq, H. reflexivity.
Qed.

Lemma INITIALIZE_rank g s :
  portEnabled (eap_if s) = true -> (rank (ctl_of (EAP_INITIALIZE_Enter g s)) <= 10)%nat.
Proof.
  intros Hp. destruct (INITIALIZE_ctl g s) as (i & -> & K1 & K2 & _).
  rewrite gate_rank; simpl; [unfold base; simpl; lia|done|congruence|lia].
Qed.

(** Close a transition into a state that the interface does not affect. *)
Ltac rank_enters L :=
  let i := fresh "i" in let p := fresh "p" in let H := fresh "H" in let Hp := fresh "Hp" in
  match goal with G : gated ?x |- _ =>
    destruct (enters_rank _ _ _ _ G L) as (i & p & H & Hp) end;
  rewrite H; unfold base; cbn [c_state c_if c_rounds c_server c_pending];
  repeat case_match; try lia; exfalso; intuition congruence.

Lemma switch_rank_active s :
  gated s -> changed s = false -> changed (EAP_switch s) = true ->
  match EAP_state s with
  | EAP_INITIALIZE | EAP_PICK_UP_METHOD | EAP_RECEIVED | EAP_INTEGRITY_CHECK
  | EAP_METHOD_RESPONSE | EAP_PROPOSE_METHOD | EAP_NAK | EAP_SELECT_ACTION
  | EAP_INITIATE_RECEIVED | EAP_METHOD_REQUEST | EAP_INITIATE_REAUTH_START =>
      (rank (ctl_of (EAP_switch s)) < base (ctl_of s))%nat
  | _ => True
  end.
Proof.
  intros G Hc Hch. unfold EAP_switch in *. unfold base. cbn [c_state ctl_of].
  destruct (EAP_state s) eqn:Es; try exact I.
  - (* INITIALIZE *)
    destruct (backend_auth s); [|rank_enters (SELECT_ACTION_enters s)].
    destruct (negb (rxResp s)); [rank_enters (SELECT_ACTION_enters s)|].
    destruct (resp_is s EAP_TYPE_NAK); [rank_enters (NAK_enters s)|rank_enters (PICK_UP_enters s)].
  - (* RECEIVED *)
    destruct (_ && _ && _); [rank_enters (NAK_enters s)|].
    destruct (_ && _); [rank_enters (INTEGRITY_CHECK_enters s)|].
    destruct (rxInitiate s); [rank_enters (INITIATE_RECEIVED_enters s)|].
    pose proof (proj1 (DISCARD_rank s G)). lia.
  - (* INTEGRITY_CHECK *)
    destruct (ignore s); [pose proof (proj1 (DISCARD_rank s G)); lia|].
    rank_enters (METHOD_RESPONSE_enters s).
  - (* METHOD_RESPONSE *)
    cbn [c_pending]. destruct (bool_decide (methodState s = METHOD_END)).
    { rank_enters (SELECT_ACTION_enters s). }
    unfold pending_is in *. destruct (method_pending s) eqn:Ep; simpl in *.
    + rank_enters (METHOD_REQUEST_enters s).
    + congruence.
    + assert (G' : gated (setter method_pending (fun _ => METHOD_PENDING_NONE) s)) by exact G.
      clear G. open_cmds. set (s1 := setter method_pending _ s) in *.
      assert (method_pending s1 = METHOD_PENDING_NONE) by reflexivity. clearbody s1.
      rank_enters (METHOD_RESPONSE_enters s1).
  - (* METHOD_REQUEST *)
    destruct (negb (non_null (m s))); [rank_enters (FAILURE_enters false s)|].
    unfold EAP_SEND_REQUEST_Enter. open_cmds.
    destruct (send_request_rank EAP_SEND_REQUEST s G) as [Hr G']; [by left|].
    set (s1 := send_request_body _) in *. clearbody s1. clear G. cmd_cases; [|lia].
    rank_enters (FAILURE_enters false s1).
  - (* PROPOSE_METHOD *)
    cbn [c_pending]. unfold pending_is in *. destruct (method_pending s) eqn:Ep; simpl in Hch |- *.
    + rank_enters (METHOD_REQUEST_enters s).
    + exfalso. revert Hch. case_match; [|congruence].
      change (changed s = true -> False). congruence.
    + assert (G' : gated (setter method_pending (fun _ => METHOD_PENDING_NONE) s)) by exact G.
      clear G. open_cmds. set (s1 := setter method_pending _ s) in *.
      assert (method_pending s1 = METHOD_PENDING_NONE) by reflexivity. clearbody s1.
      rank_enters (PROPOSE_enters s1).
  - (* SELECT_ACTION *)
    destruct (decision s); [rank_enters (SUCCESS_enters s)|rank_enters (FAILURE_enters false s)| |
      rank_enters (PASSTHROUGH_enters s)|rank_enters (REAUTH_START_enters s)].
    destruct (eap_server s && erp s && rxInitiate s) eqn:Eb;
      [bool_hyps; rank_enters (INITIATE_RECEIVED_enters s)|rank_enters (PROPOSE_enters s)].
  - (* NAK *) rank_enters (SELECT_ACTION_enters s).
  - (* PICK_UP_METHOD *)
    destruct (currentMethod s =? EAP_TYPE_NONE);
      [rank_enters (SELECT_ACTION_enters s)|rank_enters (METHOD_RESPONSE_enters s)].
  - (* INITIATE_REAUTH_START *)
    unfold EAP_SEND_REQUEST_Enter. open_cmds.
    destruct (send_request_rank EAP_SEND_REQUEST s G) as [Hr _]; [by left|]. lia.
  - (* INITIATE_RECEIVED *)
    cbn [c_server]. destruct (eap_server s) eqn:Esv; simpl in *; [congruence|].
    rank_enters (SELECT_ACTION_enters s).
Qed.

Lemma switch_rank s :
  gated s -> changed s = false -> changed (EAP_switch s) = true ->
  (rank (ctl_of (EAP_switch s)) < base (ctl_of s))%nat.
Proof.
  intros G Hc Hch. pose proof (switch_rank_active s G Hc Hch) as Hact.
  unfold EAP_switch in *. unfold base. unfold base in Hact.
  cbn [c_state c_if ctl_of] in *.
  destruct (EAP_state s) eqn:Es; try exact Hact; clear Hact; try congruence.
  - (* DISABLED *) pose proof G as (_ & Hp & _). rewrite Hp in *.
    pose proof (INITIALIZE_rank false s Hp). lia.
  - (* IDLE *)
    destruct (retransWhile (eap_if s) =? 0).
    + destruct (try_initiate_reauth s).
      * open_cmds.
        assert (G' : gated (setter try_initiate_reauth (fun _ => false) s)) by exact G.
        clear G. set (s1 := setter try_initiate_reauth _ s) in *. clearbody s1.
        rank_enters (SELECT_ACTION_enters s1).
      * unfold EAP_RETRANSMIT_Enter. open_cmds.
        pose proof (retransmit_rank EAP_RETRANSMIT s G (or_introl eq_refl)) as Hr.
        rewrite bool_decide_true in Hr by done. lia.
    + destruct (eapResp (eap_if s)); [|congruence]. pose proof (proj1 (RECEIVED_rank s G)). lia.
  - (* SEND_REQUEST *) unfold EAP_IDLE_Enter. open_cmds.
    pose proof (IDLE_rank EAP_IDLE s G (or_introl eq_refl)) as Hr.
    rewrite bool_decide_true in Hr by done. destruct (eapResp (eap_if s)); lia.
  - (* DISCARD *) unfold EAP_IDLE_Enter. open_cmds.
    pose proof (IDLE_rank EAP_IDLE s G (or_introl eq_refl)) as Hr.
    rewrite bool_decide_true in Hr by done. destruct (eapResp (eap_if s)); lia.
  - (* RETRANSMIT *)
    destruct (MaxRetrans s <? retransCount s); [rank_enters (TIMEOUT_FAILURE_enters s)|].
    unfold EAP_IDLE_Enter. open_cmds.
    pose proof (IDLE_rank EAP_IDLE s G (or_introl eq_refl)) as Hr.
    rewrite bool_decide_true in Hr by done. destruct (eapResp (eap_if s)); lia.
  - (* PASSTHROUGH *)
    destruct (currentId s =? -1); [pose proof (AAA_IDLE_rank s G); lia|].
    rank_enters (AAA_REQUEST_enters s).
  - (* IDLE2 *)
    destruct (eapResp (eap_if s)) eqn:Er; [pose proof (proj2 (RECEIVED_rank s G)); lia|].
    destruct (retransWhile (eap_if s) =? 0); [|congruence].
    unfold EAP_RETRANSMIT2_Enter. open_cmds.
    pose proof (retransmit_rank EAP_RETRANSMIT2 s G (or_intror eq_refl)) as Hr.
    rewrite bool_decide_false, Er in Hr by done. lia.
  - (* RETRANSMIT2 *)
    destruct (MaxRetrans s <? retransCount s);
      [destruct (eapResp (eap_if s)); rank_enters (TIMEOUT_FAILURE2_enters s)|].
    unfold EAP_IDLE2_Enter. open_cmds.
    pose proof (IDLE_rank EAP_IDLE2 s G (or_intror eq_refl)) as Hr.
    rewrite bool_decide_false in Hr by done. destruct (eapResp (eap_if s)); lia.
  - (* RECEIVED2 *)
    destruct (id_matches s); [rank_enters (AAA_REQUEST_enters s)|].
    pose proof (proj2 (DISCARD_rank s G)). lia.
  - (* DISCARD2 *) unfold EAP_IDLE2_Enter. open_cmds.
    pose proof (IDLE_rank EAP_IDLE2 s G (or_intror eq_refl)) as Hr.
    rewrite bool_decide_false in Hr by done. destruct (eapResp (eap_if s)); lia.
  - (* SEND_REQUEST2 *) unfold EAP_IDLE2_Enter. open_cmds.
    pose proof (IDLE_rank EAP_IDLE2 s G (or_intror eq_refl)) as Hr.
    rewrite bool_decide_false in Hr by done. destruct (eapResp (eap_if s)); lia.
  - (* AAA_REQUEST *) pose proof (AAA_IDLE_rank s G). lia.
  - (* AAA_RESPONSE *) unfold EAP_SEND_REQUEST2_Enter. open_cmds.
    pose proof (proj1 (send_request_rank EAP_SEND_REQUEST2 s G (or_intror eq_refl))). lia.
  - (* AAA_IDLE *)
    destruct (aaaFail (eap_if s)); [rank_enters (FAILURE2_enters s)|].
    destruct (aaaSuccess (eap_if s)); [rank_enters (SUCCESS2_enters s)|].
    destruct (aaaEapReq (eap_if s)); [rank_enters (AAA_RESPONSE_enters s)|].
    simpl. destruct (aaaTimeout (eap_if s)); [rank_enters (TIMEOUT_FAILURE2_enters s)|congruence].
Qed.

Lemma changed_ENTRY t g s :
  changed (ENTRY t g s) = negb g || negb (bool_decide (EAP_state s = t)) || changed s.
Proof. unfold ENTRY, SM_ENTRY. open_cmds. cmd_cases; reflexivity. Qed.

Lemma DISABLED_rank s :
  portEnabled (eap_if s) = false -> changed s = false ->
  changed (EAP_DISABLED_Enter true s) = true ->
  rank (ctl_of (EAP_DISABLED_Enter true s)) = 0%nat /\ EAP_state s <> EAP_DISABLED.
Proof.
  intros Hp Hc Hch. unfold EAP_DISABLED_Enter in *. open_cmds. split.
  - rewrite set_rounds_ctl, ENTRY_ctl. unfold rank. cbn [c_if c_state ctl_of with_rounds with_state].
    by rewrite Hp, andb_false_r.
  - change (changed (ENTRY EAP_DISABLED true s) = true) in Hch. rewrite changed_ENTRY, Hc in Hch. simpl in Hch.
    rewrite orb_false_r in Hch. by apply negb_true_iff, bool_decide_eq_false in Hch.
Qed.

(** Every step that changes the state lowers the rank. *)
Lemma EAP_Step_rank s :
  changed s = false -> changed (EAP_Step s) = true ->
  (rank (ctl_of (EAP_Step s)) < rank (ctl_of s))%nat.
Proof.
  intros Hc Hch. unfold EAP_Step, EAP_MAX_AUTH_ROUNDS in *. unfold rank at 2.
  cbn [c_if c_rounds ctl_of c_state].
  destruct (eapRestart (eap_if s) && portEnabled (eap_if s)) eqn:Er.
  { bool_hyps. pose proof (INITIALIZE_rank true s ltac:(done)). lia. }
  destruct (portEnabled (eap_if s)) eqn:Ep; cbn [negb] in *.
  2:{ destruct (DISABLED_rank s) as [-> Hne]; [done..|]. rewrite bool_decide_false by done. lia. }
  rewrite andb_true_r in Er. change (50 + 1) with 51 in *.
  destruct (50 <? num_rounds s) eqn:E50; bool_hyps.
  - destruct (num_rounds s =? 51) eqn:E51; [|congruence]. bool_hyps. open_cmds.
    set (s1 := setter num_rounds _ s) in *.
    assert (H1 : ctl_of s1 = with_rounds (ctl_of s) 52).
    { unfold s1. rewrite set_rounds_ctl. by rewrite E51. }
    clearbody s1. destruct (FAILURE_enters true s1) as (i & p & H & (K1 & K2 & _) & _).
    rewrite H, H1. rewrite (ctl_if s1), H1 in K1, K2. cbn [c_if with_rounds ctl_of] in K1, K2.
    unfold rank. cbn. rewrite K1, K2, Er, Ep. cbn. lia.
  - apply switch_rank; [|done|done]. repeat split; done.
Qed.

(** ** Where the machine stops *)

(** States that wait: for a response or a timer, for pending work, for the
    authentication server, or for a restart. *)
Definition at_rest (s : sm) : Prop :=
  if negb (portEnabled (eap_if s)) then EAP_state s = EAP_DISABLED
  else
    eapRestart (eap_if s) = false /\
    if 50 <? num_rounds s then 51 < num_rounds s /\ EAP_state s <> EAP_INITIALIZE
    else
      match EAP_state s with
      | EAP_IDLE | EAP_IDLE2 => eapResp (eap_if s) = false /\ retransWhile (eap_if s) <> 0
      | EAP_METHOD_RESPONSE => methodState s <> METHOD_END /\ method_pending s = METHOD_PENDING_WAIT
      | EAP_PROPOSE_METHOD => method_pending s = METHOD_PENDING_WAIT
      | EAP_INITIATE_RECEIVED => eap_server s = true
      | EAP_AAA_IDLE =>
          aaaFail (eap_if s) = false /\ aaaSuccess (eap_if s) = false /\
          aaaEapReq (eap_if s) = false /\ aaaTimeout (eap_if s) = false
      | EAP_SUCCESS | EAP_FAILURE | EAP_TIMEOUT_FAILURE
      | EAP_SUCCESS2 | EAP_FAILURE2 | EAP_TIMEOUT_FAILURE2 => True
      | _ => False
      end.

(** What entering a state means for the loop of [eap_server_sm_step]. *)
Definition moved (s : sm) : Prop :=
  portEnabled (eap_if s) = true /\ eapRestart (eap_if s) = false /\ changed s = true /\
  (EAP_state s = EAP_INITIALIZE -> num_rounds s <= 50).

Lemma moved_ctl s :
  portEnabled (c_if (ctl_of s)) = true -> eapRestart (c_if (ctl_of s)) = false ->
  c_changed (ctl_of s) = true ->
  (c_state (ctl_of s) = EAP_INITIALIZE -> c_rounds (ctl_of s) <= 50) -> moved s.
Proof. by repeat split. Qed.

Lemma enters_moved t s s' : gated s -> enters false t s s' -> moved s'.
Proof.
  intros (Hr & Hp & Hn) (i & p & H & (K1 & K2 & _) & _). apply moved_ctl; rewrite H; simpl; congruence || (intros _; exact Hn).
Qed.

Lemma IDLE_moved t s : gated s -> moved (set_retransWhile (ENTRY t false s)).
Proof.
  intros (Hr & Hp & Hn). destruct (IDLE_ctl t s) as (i & H & (K1 & K2 & _) & _).
  apply moved_ctl; rewrite H; simpl; congruence || (intros _; exact Hn).
Qed.

Lemma send_request_moved t s : gated s -> moved (send_request_body (ENTRY t false s)).
Proof.
  intros (Hr & Hp & Hn).
  destruct (send_request_ctl (ENTRY t false s)) as (i & H & _ & K1 & K2 & _).
  rewrite (ctl_if (ENTRY _ _ _)), ENTRY_ctl in K1, K2. rewrite ENTRY_ctl in H. simpl in K1, K2.
  apply moved_ctl; rewrite H; simpl; congruence || (intros _; exact Hn).
Qed.

Lemma retransmit_moved t s : gated s -> moved (retransmit_body (ENTRY t false s)).
Proof.
  intros (Hr & Hp & Hn).
  destruct (retransmit_ctl (ENTRY t false s)) as (i & H & _ & K1 & K2 & _).
  rewrite (ctl_if (ENTRY _ _ _)), ENTRY_ctl in K1, K2. rewrite ENTRY_ctl in H. simpl in K1, K2.
  apply moved_ctl; rewrite H; simpl; congruence || (intros _; exact Hn).
Qed.

Lemma DISCARD_enters s :
  enters false EAP_DISCARD s (EAP_DISCARD_Enter s) /\
  enters false EAP_DISCARD2 s (EAP_DISCARD2_Enter s) /\
  enters false EAP_AAA_IDLE s (EAP_AAA_IDLE_Enter s) /\
  enters false EAP_RECEIVED2 s (EAP_RECEIVED2_Enter s).
Proof.
  unfold EAP_DISCARD_Enter, EAP_DISCARD2_Enter, EAP_AAA_IDLE_Enter, EAP_RECEIVED2_Enter.
  repeat split; enter_cmd.
Qed.

Lemma RECEIVED_moved s : gated s -> moved (EAP_RECEIVED_Enter s).
Proof.
  intros (Hr & Hp & _). unfold EAP_RECEIVED_Enter. open_cmds.
  apply moved_ctl; repeat (ctl_step || rewrite parse_ctl); done.
Qed.

#[local] Hint Resolve enters_moved IDLE_moved send_request_moved retransmit_moved RECEIVED_moved
  SELECT_ACTION_enters NAK_enters PICK_UP_enters METHOD_RESPONSE_enters INTEGRITY_CHECK_enters
  INITIATE_RECEIVED_enters METHOD_REQUEST_enters PROPOSE_enters FAILURE_enters SUCCESS_enters
  TIMEOUT_FAILURE_enters REAUTH_START_enters PASSTHROUGH_enters AAA_REQUEST_enters
  AAA_RESPONSE_enters TIMEOUT_FAILURE2_enters FAILURE2_enters SUCCESS2_enters : eap_moves.

Ltac moves := left; eauto 3 with eap_moves nocore.

(** One step of the switch either enters a state, or leaves the machine where
    it waits. *)
Lemma switch_moves s :
  gated s ->
  moved (EAP_switch s) \/
  (ctl_of (EAP_switch s) = ctl_of s /\ methodState (EAP_switch s) = methodState s /\ at_rest s).
Proof.
  intros G. destruct (DISCARD_enters s) as (D1 & D2 & D3 & D4).
  pose proof G as (Hr & Hp & Hn).
  assert (Hrest : forall P : Prop, (at_rest s <-> P) -> P ->
    moved s \/ (ctl_of s = ctl_of s /\ methodState s = methodState s /\ at_rest s))
    by (intros Q HQ q; right; split; [|split; [|by apply HQ]]; reflexivity).
  apply Z.ltb_ge in Hn.
  assert (Har : at_rest s <-> match EAP_state s with
      | EAP_IDLE | EAP_IDLE2 => eapResp (eap_if s) = false /\ retransWhile (eap_if s) <> 0
      | EAP_METHOD_RESPONSE => methodState s <> METHOD_END /\ method_pending s = METHOD_PENDING_WAIT
      | EAP_PROPOSE_METHOD => method_pending s = METHOD_PENDING_WAIT
      | EAP_INITIATE_RECEIVED => eap_server s = true
      | EAP_AAA_IDLE =>
          aaaFail (eap_if s) = false /\ aaaSuccess (eap_if s) = false /\
          aaaEapReq (eap_if s) = false /\ aaaTimeout (eap_if s) = false
      | EAP_SUCCESS | EAP_FAILURE | EAP_TIMEOUT_FAILURE
      | EAP_SUCCESS2 | EAP_FAILURE2 | EAP_TIMEOUT_FAILURE2 => True
      | _ => False
      end).
  { unfold at_rest. rewrite Hp, Hr, Hn. simpl. tauto. }
  unfold EAP_switch.
  destruct (EAP_state s) eqn:Es; try (eapply Hrest; [exact Har|exact I]).
  - rewrite Hp. left. destruct (INITIALIZE_ctl false s) as (i & H & K1 & K2 & _).
    apply moved_ctl; rewrite H; simpl; congruence || lia.
  - repeat case_match; moves.
  - destruct (retransWhile (eap_if s) =? 0) eqn:E; bool_hyps.
    + destruct (try_initiate_reauth s); [|moves]. left. open_cmds.
      assert (G' : gated (setter try_initiate_reauth (fun _ => false) s)) by exact G.
      eauto 3 with eap_moves nocore.
    + destruct (eapResp (eap_if s)) eqn:Er; [moves|]. eapply Hrest; [exact Har|done].
  - repeat case_match; moves.
  - repeat case_match; moves.
  - destruct (bool_decide (methodState s = METHOD_END)) eqn:E; [moves|]. bool_hyps.
    unfold pending_is. destruct (method_pending s) eqn:Ep; simpl; [moves|eapply Hrest; [exact Har|done]|].
    open_cmds. assert (G' : gated (setter method_pending (fun _ => METHOD_PENDING_NONE) s)) by exact G.
    moves.
  - destruct (negb (non_null (m s))); [moves|]. unfold EAP_SEND_REQUEST_Enter. left. open_cmds.
    pose proof (send_request_moved EAP_SEND_REQUEST s G) as Hm.
    destruct (send_request_rank EAP_SEND_REQUEST s G) as [_ G']; [by left|].
    set (s1 := send_request_body _) in *. clearbody s1. cmd_cases; eauto 3 with eap_moves nocore.
  - unfold pending_is. destruct (method_pending s) eqn:Ep; simpl; [moves| |].
    + right. assert (Ha : at_rest s) by (by apply Har). case_match; repeat split; done.
    + open_cmds. assert (G' : gated (setter method_pending (fun _ => METHOD_PENDING_NONE) s)) by exact G.
      moves.
  - repeat case_match; moves.
  - unfold EAP_IDLE_Enter. open_cmds. moves.
  - unfold EAP_IDLE_Enter. open_cmds. moves.
  - moves.
  - unfold EAP_IDLE_Enter. open_cmds. case_match; moves.
  - repeat case_match; moves.
  - repeat case_match; moves.
  - destruct (eapResp (eap_if s)) eqn:Er; [moves|].
    destruct (retransWhile (eap_if s) =? 0) eqn:E; bool_hyps; [moves|].
    eapply Hrest; [exact Har|done].
  - unfold EAP_IDLE2_Enter. open_cmds. case_match; moves.
  - repeat case_match; moves.
  - unfold EAP_IDLE2_Enter. open_cmds. moves.
  - unfold EAP_IDLE2_Enter. open_cmds. moves.
  - moves.
  - unfold EAP_SEND_REQUEST2_Enter. open_cmds. moves.
  - destruct (aaaFail (eap_if s)) eqn:E1; [moves|]. destruct (aaaSuccess (eap_if s)) eqn:E2; [moves|].
    destruct (aaaEapReq (eap_if s)) eqn:E3; [moves|]. destruct (aaaTimeout (eap_if s)) eqn:E4; [moves|].
    eapply Hrest; [exact Har|done].
  - unfold EAP_SEND_REQUEST_Enter. open_cmds. moves.
  - destruct (eap_server s) eqn:E; simpl; [eapply Hrest; [exact Har|done]|moves].
Qed.

Lemma ctl_inv s s' :
  ctl_of s' = ctl_of s ->
  EAP_state s' = EAP_state s /\ eap_if s' = eap_if s /\ num_rounds s' = num_rounds s /\
  eap_server s' = eap_server s /\ method_pending s' = method_pending s /\ changed s' = changed s.
Proof. intros H. by injection H. Qed.

Lemma ctl_state s : EAP_state s = c_state (ctl_of s).
Proof. reflexivity. Qed.
Lemma ctl_changed s : changed s = c_changed (ctl_of s).
Proof. reflexivity. Qed.

Lemma at_rest_ctl s s' :
  ctl_of s' = ctl_of s -> methodState s' = methodState s -> at_rest s -> at_rest s'.
Proof.
  intros H Hm Hr. destruct (ctl_inv _ _ H) as (H1 & H2 & H3 & H4 & H5 & _).
  unfold at_rest. rewrite H1, H2, H3, H4, H5, Hm. exact Hr.
Qed.

(** A global transition into INITIALIZE is not noticed when the machine is in
    that state already; it never stops there. *)
Definition no_stale_restart (s : sm) : Prop :=
  EAP_state s = EAP_INITIALIZE -> eapRestart (eap_if s) = false /\ num_rounds s <= 50.

Lemma EAP_Step_rest s :
  no_stale_restart s -> changed s = false ->
  no_stale_restart (EAP_Step s) /\ (changed (EAP_Step s) = false -> at_rest (EAP_Step s)).
Proof.
  intros Hi Hc. unfold EAP_Step, EAP_MAX_AUTH_ROUNDS.
  destruct (eapRestart (eap_if s) && portEnabled (eap_if s)) eqn:Er.
  { destruct (INITIALIZE_ctl true s) as (i & HI & K1 & K2 & _).
    assert (Hif : eap_if (EAP_INITIALIZE_Enter true s) = i) by (by rewrite ctl_if, HI).
    assert (Hn : num_rounds (EAP_INITIALIZE_Enter true s) = 0) by (by rewrite ctl_rounds, HI).
    split; [intros _; rewrite Hif, Hn; split; [done|lia]|]. intros Hch. exfalso.
    rewrite ctl_changed, HI in Hch. clear HI Hif Hn. apply orb_false_elim in Hch as [Hch _]. simpl in Hch.
    apply negb_false_iff, bool_decide_eq_true in Hch. by rewrite (proj1 (Hi Hch)) in Er. }
  destruct (portEnabled (eap_if s)) eqn:Ep; simpl.
  2:{ unfold EAP_DISABLED_Enter. open_cmds.
      assert (H : ctl_of (setter num_rounds (fun _ => 0) (ENTRY EAP_DISABLED true s)) =
        with_rounds (with_state true (ctl_of s) EAP_DISABLED) 0)
        by (rewrite set_rounds_ctl, ENTRY_ctl; reflexivity).
      set (s1 := setter num_rounds _ _) in *. clearbody s1.
      assert (H1 : EAP_state s1 = EAP_DISABLED) by (by rewrite ctl_state, H).
      assert (H2 : eap_if s1 = eap_if s) by (by rewrite ctl_if, H).
      split; [intros E; congruence|]. intros _. unfold at_rest. by rewrite H2, Ep. }
  rewrite andb_true_r in Er.
  destruct (50 <? num_rounds s) eqn:En; bool_hyps.
  - destruct (num_rounds s =? 50 + 1) eqn:E51; bool_hyps.
    + open_cmds. set (s1 := setter num_rounds _ s).
      assert (Hs1 : ctl_of s1 = with_rounds (ctl_of s) 52).
      { unfold s1. rewrite set_rounds_ctl. by rewrite E51. }
      clearbody s1. destruct (FAILURE_enters true s1) as (i & p & H & (K1 & K2 & _) & _).
      rewrite Hs1 in H. rewrite (ctl_if s1), Hs1 in K1, K2. cbn [c_if with_rounds ctl_of] in K1, K2.
      assert (Hif : eap_if (EAP_FAILURE_Enter true s1) = i) by (by rewrite ctl_if, H).
      assert (Hn : num_rounds (EAP_FAILURE_Enter true s1) = 52) by (by rewrite ctl_rounds, H).
      assert (Ht : EAP_state (EAP_FAILURE_Enter true s1) = EAP_FAILURE) by (by rewrite ctl_state, H).
      unfold no_stale_restart, at_rest. rewrite Ht. split; [done|]. intros _.
      rewrite Hif, Hn, K1, K2, Ep, Er. simpl. repeat split; done || lia.
    + split; [exact Hi|]. intros _. unfold at_rest. rewrite Ep, Er. simpl.
      rewrite (proj2 (Z.ltb_lt _ _)) by lia. split; [done|]. split; [lia|].
      intros E. apply Hi in E. lia.
  - assert (G : gated s) by (repeat split; done).
    destruct (switch_moves s G) as [(M1 & M2 & M3 & M4)|(Hcc & Hm & Ha)].
    + split; [intros E; split; [exact M2|exact (M4 E)]|congruence].
    + split; [|intros _; by apply (at_rest_ctl s)].
      destruct (ctl_inv _ _ Hcc) as (Hst & Hif & Hrn & _). intros E. rewrite Hif, Hrn. by split.
Qed.

(** A step sees the state only after [changed] has been cleared. *)
Lemma clear_changed s :
  changed (setter changed (fun _ => false) s) = false /\
  (no_stale_restart s -> no_stale_restart (setter changed (fun _ => false) s)) /\
  rank (ctl_of (setter changed (fun _ => false) s)) = rank (ctl_of s).
Proof. split; [reflexivity|]. split; [intros H; exact H|reflexivity]. Qed.

Lemma sm_step_rest n p q :
  no_stale_restart (fst p) ->
  do_while sm_step_body (fun p => changed (fst p)) n p = Some q -> at_rest (fst q).
Proof.
  revert p. induction n as [|n IH]; intros p Hi H; [discriminate|].
  cbn [do_while] in H.
  destruct (clear_changed (fst p)) as (Hc & Hi' & _). specialize (Hi' Hi).
  assert (Hb : fst (sm_step_body p) = EAP_Step (setter changed (fun _ => false) (fst p)))
    by reflexivity.
  set (s1 := setter changed _ (fst p)) in *. clearbody s1.
  destruct (EAP_Step_rest s1 Hi' Hc) as [Hn Hr]. rewrite <-Hb in Hn, Hr.
  set (p1 := sm_step_body p) in *. clearbody p1.
  destruct (changed (fst p1)) eqn:E.
  - by eapply IH; [|exact H].
  - injection H as <-. by apply Hr.
Qed.

Lemma sm_step_ends s n :
  (15 <= n)%nat -> exists q, eap_server_sm_step n s = Some q.
Proof.
  intros Hn. unfold eap_server_sm_step.
  destruct (do_while_terminates sm_step_body (fun p => changed (fst p)) (fun _ => True)
              (fun p => rank (ctl_of (fst p))) (s, false)) as [q Hq]; [done| |].
  - intros p _ Hch. split; [done|]. unfold sm_step_body in *. cbn [fst] in *.
    destruct (clear_changed (fst p)) as (Hc & _ & <-). by apply EAP_Step_rank.
  - exists q. eapply do_while_more_fuel; [|exact Hq]. cbn [fst].
    enough (rank (ctl_of s) <= 14)%nat by lia.
    unfold rank, base. repeat case_match; lia.
Qed.

End eap.

#[export] Hint Resolve SELECT_ACTION_enters NAK_enters PICK_UP_enters METHOD_RESPONSE_enters INTEGRITY_CHECK_enters
  INITIATE_RECEIVED_enters METHOD_REQUEST_enters PROPOSE_enters FAILURE_enters SUCCESS_enters
  TIMEOUT_FAILURE_enters REAUTH_START_enters PASSTHROUGH_enters AAA_REQUEST_enters
  AAA_RESPONSE_enters TIMEOUT_FAILURE2_enters FAILURE2_enters SUCCESS2_enters : eap_moves.
