(* ===== verification/EapSafety.v ===== *)
(** * The EAP authenticator: no undefined behaviour

    An invariant of the machine under which no method is called through a NULL
    pointer, no buffer is overrun and no loop runs forever ([eap_inv],
    [EAP_Step_inv]), and what it needs of the EAP methods. *)

From S2P Require Import Prelude.
From S2P Require Import Wpabuf.
From S2P Require Import Common.
From S2P Require Import EapCommon.
From S2P Require Import EapServer.
From S2P Require Import EapControl.

Section eap.
Context {M P : Type} `{EM : !EapMethods M P, CB : !EapolCallbacks, EC : !ErpCrypto}
  `{ML : !EapMethodLaws}.
Abbreviation sm := (eap_sm M P).
Implicit Types s : sm.

(** ** No undefined behaviour *)

(** What the C code relies on when it follows its pointers: a selected method
    has its data, the user's method array has its size, a received packet
    consists of octets, memory is not exhausted. *)
Definition user_ok (u : option eap_user * Z) : Prop :=
  (forall v, fst u = Some v -> length (methods v) = 8%nat) /\ 0 <= snd u.

Definition user_list (s : sm) : option eap_user * Z := (user s, user_eap_method_index s).

Definition resp_ok (r : option wpabuf) : Prop := forall b, r = Some b -> bytes (data b).

Record safety := mk_safety {
  s_m : option M; s_priv : option P; s_fault : option eap_fault; s_oom : bool;
  s_user : option eap_user * Z; s_resp : option wpabuf
}.

Definition safety_of (s : sm) : safety :=
  mk_safety (m s) (eap_method_priv s) (fault (env s)) (oom (env s)) (user_list s)
    (eapRespData (eap_if s)).

Record sound (v : safety) : Prop := mk_sound {
  sound_pair : s_m v = None <-> s_priv v = None;
  sound_fault : s_fault v = None;
  sound_oom : s_oom v = false;
  sound_user : user_ok (s_user v);
  sound_resp : resp_ok (s_resp v)
}.

Definition safe (s : sm) : Prop := sound (safety_of s).

Lemma safe_eq s s' : safety_of s' = safety_of s -> safe s -> safe s'.
Proof. unfold safe. by intros ->. Qed.

Lemma safe_set_if s g :
  (forall i, eapRespData (g i) = eapRespData i) -> safe s -> safe (setter eap_if g s).
Proof.
  intros Hg. apply safe_eq.
  transitivity (mk_safety (m s) (eap_method_priv s) (fault (env s)) (oom (env s)) (user_list s)
    (eapRespData (g (eap_if s)))); [reflexivity|]. by rewrite Hg.
Qed.

Lemma safe_set_env s g :
  (forall e, fault (g e) = fault e /\ oom (g e) = oom e) -> safe s -> safe (setter env g s).
Proof.
  intros Hg. apply safe_eq. destruct (Hg (env s)) as [Hf Ho].
  transitivity (mk_safety (m s) (eap_method_priv s) (fault (g (env s))) (oom (g (env s))) (user_list s)
    (eapRespData (eap_if s))); [reflexivity|]. by rewrite Hf, Ho.
Qed.

Lemma safe_inv s :
  safe s -> (m s = None <-> eap_method_priv s = None) /\ fault (env s) = None /\
    oom (env s) = false /\ user_ok (user_list s) /\ resp_ok (eapRespData (eap_if s)).
Proof. intros [Hp Hf Ho Hu Hr]. exact (conj Hp (conj Hf (conj Ho (conj Hu Hr)))). Qed.

(** Methods keep the user data well formed; the rest follows from
    [method_step]. *)
Class EapMethodUser : Prop := {
  init_user e s : user_ok (user_list s) -> user_ok (user_list (snd (m_init e s)));
  pick_up_user e f s : m_initPickUp e = Some f -> user_ok (user_list s) -> user_ok (user_list (snd (f s)));
  reset_user e p s : user_ok (user_list s) -> user_ok (user_list (m_reset e p s));
  buildReq_user e p id s : user_ok (user_list s) -> user_ok (user_list (snd (m_buildReq e p id s)));
  process_user e p r s : user_ok (user_list s) -> user_ok (user_list (snd (m_process e p r s)));
  get_user_ok f i n u : get_eap_user = Some f -> f i n = Some u -> length (methods u) = 8%nat
}.
Context `{MU : !EapMethodUser}.

(** [safe] without the pairing, which is broken while a method starts. *)
Definition calm (s : sm) : Prop :=
  fault (env s) = None /\ oom (env s) = false /\ user_ok (user_list s) /\
  resp_ok (eapRespData (eap_if s)).

Lemma safe_calm s : safe s <-> (m s = None <-> eap_method_priv s = None) /\ calm s.
Proof.
  split; [intros H; exact (safe_inv s H)|].
  intros (Hp & Hf & Ho & Hu & Hr). constructor; assumption.
Qed.

Lemma method_step_calm s s' :
  method_step s s' -> (user_ok (user_list s) -> user_ok (user_list s')) -> calm s ->
  calm s' /\ m s' = m s /\ eap_method_priv s' = eap_method_priv s.
Proof.
  intros [Ho _] Hu (Hf & Hm & Hus & Hr).
  assert (Em : m s' = m s) by (change (m (own s') = m (own s)); by rewrite Ho).
  assert (Ep : eap_method_priv s' = eap_method_priv s)
    by (change (eap_method_priv (own s') = eap_method_priv (own s)); by rewrite Ho).
  assert (Ef : fault (env s') = fault (env s))
    by (change (fault (env (own s')) = fault (env (own s))); by rewrite Ho).
  assert (Eo : oom (env s') = oom (env s))
    by (change (oom (env (own s')) = oom (env (own s))); by rewrite Ho).
  assert (Ei : eap_if s' = eap_if s) by (change (eap_if (own s') = eap_if (own s)); by rewrite Ho).
  split; [|by split]. unfold calm. rewrite Ef, Eo, Ei. by auto.
Qed.

Lemma method_step_safe s s' :
  method_step s s' -> (user_ok (user_list s) -> user_ok (user_list s')) -> safe s -> safe s' /\ m s' = m s.
Proof.
  intros Hst Hu Hs. apply safe_calm in Hs as [Hp Hc].
  destruct (method_step_calm s s' Hst Hu Hc) as (Hc' & Em & Ep).
  split; [|exact Em]. apply safe_calm. by rewrite Em, Ep.
Qed.

(** Strip assignments that do not matter to [safe]. *)
Ltac safe_tac :=
  repeat first
    [ assumption
    | lazymatch goal with
      | |- safe (setter eap_if _ _) => apply safe_set_if; [intros ?; reflexivity|]
      | |- safe (setter env _ _) => apply safe_set_env; [intros ?; split; reflexivity|]
      | |- safe (@setter _ _ ?f ?i ?g ?s) =>
          eapply (safe_eq s); [exact (frame safety_of f i g s)|]
      | |- safe (if ?b then _ else _) => destruct b eqn:?
      end ].

Lemma ENTRY_safe t g s : safe s -> safe (ENTRY t g s).
Proof. intros H. unfold ENTRY, SM_ENTRY. open_cmds. cmd_cases; open_cmds; safe_tac. Qed.

Lemma parse_safe r s : safe s -> safe (eap_sm_parseEapResp r s).
Proof.
  intros H. unfold eap_sm_parseEapResp. open_cmds.
  destruct r as [b|]; repeat case_match; open_cmds; safe_tac.
Qed.

(** Assignments to the two members a selected method consists of. *)
Lemma safe_set_method s e p :
  safe s -> (e = None <-> p = None) ->
  safe (setter m (fun _ => e) (setter eap_method_priv (fun _ => p) s)).
Proof.
  intros H He. apply safe_inv in H as (_ & Hf & Ho & Hu & Hr).
  constructor; assumption || exact He.
Qed.

Lemma reset_method_safe s :
  safe s -> safe (setter m (fun _ => None) (reset_method s)).
Proof.
  intros H. pose proof (safe_inv s H) as (Hp & _). unfold reset_method.
  destruct (m s) as [e|] eqn:Em.
  - destruct (eap_method_priv s) as [p|] eqn:Ep; [|discriminate (proj2 Hp eq_refl)].
    apply safe_set_method; [|done].
    by apply (method_step_safe s); [apply reset_step|apply reset_user|].
  - apply safe_inv in H as (Hp' & Hf & Ho & Hu & Hr).
    constructor; assumption.
Qed.

Lemma send_request_safe s : safe s -> safe (send_request_body s).
Proof.
  intros H. unfold send_request_body. open_cmds. cmd_cases; [copy_cases|]; open_cmds; safe_tac.
Qed.

Lemma retransmit_safe s : safe s -> safe (retransmit_body s).
Proof.
  intros H. unfold retransmit_body. open_cmds.
  cmd_cases; [copy_cases|]; open_cmds; cmd_cases; open_cmds; safe_tac.
Qed.

Lemma copy_aaaReq_safe s : safe s -> safe (copy_aaaReq s).
Proof. intros H. unfold copy_aaaReq. copy_cases; open_cmds; safe_tac. Qed.

Lemma take_nextId_safe s : safe s -> safe (take_nextId s).
Proof.
  intros H. unfold take_nextId. destruct (eap_sm_nextId s (currentId s)) as [id g]. open_cmds.
  safe_tac.
Qed.

Lemma build_final_some code id s : exists d, build_final code id s = Some d.
Proof.
  unfold build_final, wpabuf_alloc. destruct (oom (env s)); [by eexists|].
  eexists. rewrite put_data_ok by put_room. reflexivity.
Qed.

Lemma set_reqData_safe b s : (exists d, b s = Some d) -> safe s -> safe (set_reqData b s).
Proof. intros [d Hd] H. unfold set_reqData, or_fault. rewrite Hd. open_cmds. safe_tac. Qed.

(** *** The states that call a method *)

Lemma with_method_some s :
  safe s -> m s <> None ->
  exists e p, m s = Some e /\ eap_method_priv s = Some p.
Proof.
  intros H Hm. apply safe_inv in H as (Hp & _).
  destruct (m s) as [e|] eqn:Em; [|done].
  destruct (eap_method_priv s) as [p|] eqn:Ep; [by eauto|]. by discriminate (proj2 Hp eq_refl).
Qed.

Lemma m_ENTRY t g s : m (ENTRY t g s) = m s.
Proof. unfold ENTRY, SM_ENTRY. open_cmds. cmd_cases; reflexivity. Qed.

Lemma INTEGRITY_CHECK_safe s :
  safe s -> m s <> None ->
  safe (EAP_INTEGRITY_CHECK_Enter s) /\ m (EAP_INTEGRITY_CHECK_Enter s) <> None.
Proof.
  intros H Hm. unfold EAP_INTEGRITY_CHECK_Enter, with_method. open_cmds.
  pose proof (ENTRY_safe EAP_INTEGRITY_CHECK false s H) as H1.
  rewrite <-(m_ENTRY EAP_INTEGRITY_CHECK false s) in Hm.
  set (s1 := ENTRY _ _ s) in *. clearbody s1. cmd_cases; open_cmds; [by split; [safe_tac|]|].
  destruct (with_method_some s1 H1 Hm) as (e & p & Em & Ep). rewrite Em, Ep.
  destruct (m_check e); split; try safe_tac; try exact Hm.
Qed.

Lemma METHOD_REQUEST_safe s :
  safe s -> safe (EAP_METHOD_REQUEST_Enter s) /\ m (EAP_METHOD_REQUEST_Enter s) = m s.
Proof.
  intros H. unfold EAP_METHOD_REQUEST_Enter, with_method. open_cmds.
  pose proof (ENTRY_safe EAP_METHOD_REQUEST false s H) as H1.
  pose proof (m_ENTRY EAP_METHOD_REQUEST false s) as Hm.
  set (s1 := ENTRY _ _ s) in *. clearbody s1. rewrite <-Hm. clear Hm. cmd_cases; open_cmds; [|done].
  set (s2 := setter lastId _ _).
  assert (H2 : safe s2 /\ m s2 = m s1).
  { unfold s2. split; [safe_tac; by apply take_nextId_safe|].
    unfold take_nextId. destruct (eap_sm_nextId s1 (currentId s1)). reflexivity. }
  clearbody s2. destruct H2 as [H2 Hm2]. rewrite <-Hm2.
  destruct (with_method_some s2 H2) as (e & p & Em & Ep).
  { rewrite Hm2. by destruct (m s1). }
  rewrite Em, Ep.
  destruct (method_step_safe s2 _ (buildReq_step e p (currentId s2) s2)
              (buildReq_user e p (currentId s2) s2) H2) as [H3 Hm3].
  destruct (m_buildReq e p (currentId s2) s2) as [[req p2] s3]. cbn [snd] in *.
  split; [|by rewrite <-Em, <-Hm3]. safe_tac.
  apply safe_inv in H3 as (Hp3 & Hf & Ho & Hu & Hr).
  constructor; try assumption. cbn. rewrite Hm3, Em. done.
Qed.

Lemma erp_add_safe k s : safe s -> safe (eap_erp_add_key k s).
Proof.
  intros H. unfold eap_erp_add_key. destruct erp_callbacks; open_cmds; [|exact H].
  apply safe_set_env; [|exact H]. intros ?; split; reflexivity.
Qed.

Lemma erp_init_safe s e :
  safe s -> m s = Some e -> m_get_emsk e <> None -> safe (eap_server_erp_init s).
Proof.
  intros H Em Hg. unfold eap_server_erp_init.
  destruct (eap_get_erp_domain s); [|exact H]. rewrite Em.
  destruct (eap_method_priv s); [|exact H]. destruct (253 <? _); [exact H|].
  destruct (oom (env s)); [exact H|]. destruct (m_get_emsk e); [|done].
  repeat case_match; try exact H. by apply erp_add_safe.
Qed.

Lemma erp_init_m s : m (eap_server_erp_init s) = m s.
Proof.
  unfold eap_server_erp_init, eap_erp_add_key. repeat case_match; try reflexivity;
    match goal with E : m s = _ |- _ => etransitivity; [|exact E]; reflexivity end.
Qed.

Lemma Policy_update_none s : eap_sm_Policy_update None s = s.
Proof. reflexivity. Qed.

Lemma METHOD_RESPONSE_safe s :
  safe s -> m s <> None ->
  safe (EAP_METHOD_RESPONSE_Enter s) /\ m (EAP_METHOD_RESPONSE_Enter s) <> None.
Proof.
  intros H Hm. unfold EAP_METHOD_RESPONSE_Enter, with_method. open_cmds.
  pose proof (ENTRY_safe EAP_METHOD_RESPONSE false s H) as H1.
  rewrite <-(m_ENTRY EAP_METHOD_RESPONSE false s) in Hm.
  set (s1 := ENTRY _ _ s) in *. clearbody s1. cmd_cases; [|done].
  destruct (with_method_some s1 H1 Hm) as (e & p & Em & Ep). rewrite Em, Ep.
  destruct (method_step_safe s1 _ (process_step e p (eapRespData (eap_if s1)) s1)
              (process_user e p _ s1) H1) as [H2 Hm2].
  destruct (m_process e p (eapRespData (eap_if s1)) s1) as [p2 s2]. cbn [snd] in *.
  set (s3 := setter eap_method_priv _ s2).
  assert (H3 : safe s3 /\ m s3 = Some e).
  { split; [|unfold s3; by rewrite <-Em, <-Hm2].
    apply safe_inv in H2 as (Hp & Hf & Ho & Hu & Hr).
    constructor; try assumption. cbn. by rewrite Hm2, Em. }
  clearbody s3. destruct H3 as [H3 Hm3].
  destruct (m_isDone e p2 s3).
  2:{ split; [safe_tac|]. change (m s3 <> None). by rewrite Hm3. }
  rewrite Policy_update_none. unfold method_session_id, method_keys. open_cmds.
  match goal with |- context [setter methodState _ (when _ _ ?x)] => set (s4 := x) end.
  assert (H4 : safe s4 /\ m s4 = Some e).
  { split; [|rewrite <-Hm3; unfold s4; repeat case_match; reflexivity].
    unfold s4. repeat case_match; safe_tac. }
  clearbody s4. destruct H4 as [H4 Hm4].
  cmd_cases; (split; [safe_tac|]).
  - bool_hyps. apply (erp_init_safe s4 e); [done|done|]. by destruct (m_get_emsk e).
  - change (m (eap_server_erp_init s4) <> None). by rewrite erp_init_m, Hm4.
  - change (m s4 <> None). by rewrite Hm4.
Qed.


(** *** Choosing the next method *)

(** What makes [try_another_method] end: the Identity method can always be
    started, nothing is registered as method 0, and a method that fails to
    start leaves the list of methods where it is. *)
Class EapMethodStart : Prop := {
  identity_starts e s :
    m_vendor e = EAP_VENDOR_IETF -> m_method e = EAP_TYPE_IDENTITY -> oom (env s) = false ->
    fst (m_init e s) <> None;
  none_unregistered : eap_server_get_eap_method EAP_VENDOR_IETF EAP_TYPE_NONE = None;
  init_index e s :
    fst (m_init e s) = None ->
    user_eap_method_index (snd (m_init e s)) = user_eap_method_index s;
  reset_index e p s : user_eap_method_index (m_reset e p s) = user_eap_method_index s
}.
Context `{MS : !EapMethodStart}.

Lemma get_method_inv v t e :
  eap_server_get_eap_method v t = Some e -> m_vendor e = v /\ m_method e = t.
Proof. intros H. apply List.find_some in H as [_ H]. by bool_hyps. Qed.

(** One attempt: the state before the chosen method is started. *)
Lemma propose_unfold n s :
  propose_loop (S n) s =
  let '(vendor, type, s1) := eap_sm_Policy_getNextMethod s in
  let s2 := setter m (fun _ => eap_server_get_eap_method vendor type)
              (reset_method (setter currentMethod (fun _ =>
                 if vendor =? EAP_VENDOR_IETF then type else EAP_TYPE_EXPANDED) s1)) in
  match m s2 with
  | None => Some s2
  | Some e =>
      let '(p, s3) := m_init e s2 in
      let s4 := setter eap_method_priv (fun _ => p) s3 in
      if non_null p then Some s4 else propose_loop n (no_current_method s4)
  end.
Proof. reflexivity. Qed.

Lemma reset_method_index s : user_eap_method_index (reset_method s) = user_eap_method_index s.
Proof.
  unfold reset_method. destruct (m s) as [e|]; [|done]. destruct (eap_method_priv s) as [p|]; [|done].
  apply (reset_index e p s).
Qed.

Lemma safe_set_index s g :
  (0 <= user_eap_method_index s -> 0 <= g (user_eap_method_index s)) -> safe s ->
  safe (setter user_eap_method_index g s).
Proof.
  intros Hg H. apply safe_calm in H as (Hp & Hf & Ho & [Hu Hi] & Hr). apply safe_calm.
  split; [exact Hp|]. split; [exact Hf|]. split; [exact Ho|]. split; [|exact Hr].
  split; [exact Hu|]. apply Hg, Hi.
Qed.

Lemma getNextMethod_safe s :
  safe s -> safe (snd (eap_sm_Policy_getNextMethod s)).
Proof.
  intros H. unfold eap_sm_Policy_getNextMethod. repeat case_match; cbn [snd]; safe_tac.
  apply safe_set_index; [lia|exact H].
Qed.

(** The attempt with a method that does not start uses up a list entry. *)
Lemma getNextMethod_cases s vendor type s1 :
  eap_sm_Policy_getNextMethod s = (vendor, type, s1) ->
  (vendor = EAP_VENDOR_IETF /\ type = EAP_TYPE_IDENTITY) \/
  (vendor = EAP_VENDOR_IETF /\ type = EAP_TYPE_NONE) \/
  (user_eap_method_index s < 8 /\ user_eap_method_index s1 = user_eap_method_index s + 1).
Proof.
  unfold eap_sm_Policy_getNextMethod, EAP_MAX_METHODS.
  destruct (negb _ || _); [intros [= <- <- <-]; by left|].
  destruct (user s) as [u|]; [|intros [= <- <- <-]; by right; left].
  destruct (_ && _) eqn:E; intros [= <- <- <-]; [|by right; left].
  bool_hyps. right; right. split; [done|reflexivity].
Qed.

Lemma propose_loop_more n s :
  safe s -> (Z.to_nat (8 - user_eap_method_index s) < n)%nat ->
  exists s', propose_loop n s = Some s' /\ safe s'.
Proof.
  revert s. induction n as [|n IH]; intros s H Hn; [lia|]. rewrite propose_unfold.
  pose proof (getNextMethod_safe s H) as H1.
  destruct (eap_sm_Policy_getNextMethod s) as [[vendor type] s1] eqn:En. cbn [snd] in H1.
  set (s1' := setter currentMethod _ s1).
  assert (H1' : safe s1') by (unfold s1'; safe_tac).
  assert (Hi1 : user_eap_method_index s1' = user_eap_method_index s1) by reflexivity.
  clearbody s1'. set (s2 := setter m _ (reset_method s1')).
  assert (Hi2 : user_eap_method_index s2 = user_eap_method_index s1).
  { rewrite <-Hi1, <-(reset_method_index s1'). reflexivity. }
  assert (Em : m s2 = eap_server_get_eap_method vendor type) by reflexivity.
  pose proof (reset_method_safe s1' H1') as H2. apply safe_calm in H2 as [Hp2 H2].
  assert (Hp : eap_method_priv s2 = None) by (apply Hp2; reflexivity).
  assert (Hc2 : calm s2) by exact H2. clear Hp2 H2. clearbody s2. cbv zeta.
  destruct (m s2) as [e|] eqn:Em2.
  2:{ exists s2. split; [done|]. apply safe_calm. rewrite Em2, Hp. by split. }
  pose proof Hc2 as (_ & Ho2 & _).
  destruct (method_step_calm s2 _ (init_step e s2) (init_user e s2) Hc2) as (H3 & Hm3 & _).
  pose proof (init_index e s2) as Hix. pose proof (identity_starts e s2) as Hid.
  destruct (m_init e s2) as [p s3]. cbn [fst snd] in *.
  destruct p as [p|]; cbn [non_null].
  - eexists. split; [reflexivity|]. apply safe_calm. split; [|exact H3].
    change (m s3 = None <-> Some p = None). by rewrite Hm3, Em2.
  - symmetry in Em. pose proof (get_method_inv _ _ _ Em) as [Hv Ht].
    assert (Hidx : user_eap_method_index s < 8 /\
      user_eap_method_index s1 = user_eap_method_index s + 1).
    { destruct (getNextMethod_cases _ _ _ _ En) as [[-> ->]|[[-> ->]|?]]; [| |done].
      - by destruct (Hid Hv Ht Ho2).
      - by rewrite none_unregistered in Em. }
    set (s4 := no_current_method _).
    assert (Hi4 : user_eap_method_index s4 = user_eap_method_index s3) by reflexivity.
    assert (H4 : safe s4) by (apply safe_calm; split; [done|exact H3]).
    clearbody s4. apply IH; [exact H4|].
    rewrite Hi4, (Hix eq_refl), Hi2. lia.
Qed.

Lemma propose_loop_safe s :
  safe s -> exists s', propose_loop propose_fuel s = Some s' /\ safe s'.
Proof.
  intros H. apply propose_loop_more; [exact H|]. apply safe_calm in H as (_ & _ & _ & [_ Hi] & _).
  unfold propose_fuel. simpl in Hi. lia.
Qed.

(** *** The NAK loop *)

Definition used (x : Z * Z) : bool :=
  negb (fst x =? EAP_VENDOR_IETF) || negb (snd x =? EAP_TYPE_NONE).

(** The peer accepts [x] with a NAK that lists [l]. *)
Definition nak_allows (l : list Z) (x : Z * Z) : bool :=
  (fst x =? EAP_VENDOR_IETF) && existsb (fun t => t =? snd x) l.

Fixpoint take_used (ms : list (Z * Z)) : list (Z * Z) :=
  match ms with
  | x :: ms => if used x then x :: take_used ms else []
  | [] => []
  end.

Fixpoint drop_used (ms : list (Z * Z)) : list (Z * Z) :=
  match ms with
  | x :: ms' => if used x then drop_used ms' else ms
  | [] => []
  end.

Lemma take_drop_used ms : take_used ms ++ drop_used ms = ms.
Proof. induction ms as [|x ms IH]; [done|]. simpl. destruct (used x); [|done]. simpl. by rewrite IH. Qed.

Lemma take_used_used ms : Forall (fun x => used x = true) (take_used ms).
Proof.
  induction ms as [|x ms IH]; [by constructor|]. simpl. destruct (used x) eqn:E; by constructor.
Qed.

Lemma drop_used_head ms x l : drop_used ms = x :: l -> used x = false.
Proof.
  induction ms as [|y ms IH]; [done|]. simpl. destruct (used y) eqn:E; [done|].
  intros [= <- <-]. exact E.
Qed.

(** The methods the peer accepts stay in their order; the free entries the
    others leave are at the end. *)
Definition nak_result (l : list Z) (i : nat) (ms : list (Z * Z)) : list (Z * Z) :=
  let rest := take_used (drop i ms) in
  take i ms ++ List.filter (nak_allows l) rest ++ drop_used (drop i ms) ++
  replicate (length rest - length (List.filter (nak_allows l) rest)) no_method.

Lemma filter_le {A} (f : A -> bool) l : (length (List.filter f l) <= length l)%nat.
Proof. induction l as [|x l IH]; simpl; [done|]. destruct (f x); simpl; lia. Qed.

Lemma nak_loop_parts fuel l pre rest post :
  length (pre ++ rest ++ post) = 8%nat -> Forall (fun x => used x = true) rest ->
  (forall x k, post = x :: k -> used x = false) -> (length rest < fuel)%nat ->
  nak_loop fuel (length pre) l (pre ++ rest ++ post) =
    Some (pre ++ List.filter (nak_allows l) rest ++ post ++
          replicate (length rest - length (List.filter (nak_allows l) rest)) no_method).
Proof.
  revert pre rest post. induction fuel as [|fuel IH]; intros pre rest post Hlen Hu Hp Hf; [lia|].
  cbn [nak_loop]. unfold EAP_MAX_METHODS.
  rewrite !length_app in Hlen. destruct rest as [|x rest].
  - simpl. rewrite app_nil_r.
    destruct post as [|y post]; [|rewrite (nth_middle pre post y no_method)].
    + destruct (Z.of_nat (length pre) <? 8) eqn:E; [|done]. bool_hyps. simpl in Hlen. lia.
    + specialize (Hp y post eq_refl). unfold used in Hp. rewrite Hp, andb_false_r. done.
  - apply Forall_cons in Hu as [Hx Hu]. simpl app. rewrite (nth_middle pre (rest ++ post) x no_method).
    unfold used in Hx. rewrite Hx, andb_true_r. fold (nak_allows l x).
    destruct (Z.of_nat (length pre) <? 8) eqn:E; bool_hyps; [|simpl in Hlen; lia].
    cbn [List.filter]. destruct (nak_allows l x).
    + pose proof (IH (pre ++ [x]) rest post) as H. rewrite !length_app in H. simpl in H, Hlen, Hf.
      rewrite <-!app_assoc in H. simpl app in H.
      replace (length pre + 1)%nat with (S (length pre)) in H by lia.
      rewrite H; [|lia|done|done|lia]. done.
    + unfold nak_remove. rewrite take_app_length.
      replace (drop (S (length pre)) (pre ++ x :: rest ++ post)) with (rest ++ post).
      2:{ replace (S (length pre)) with (length pre + 1)%nat by lia.
          rewrite <-drop_drop, drop_app_length. done. }
      rewrite <-app_assoc. simpl in Hlen, Hf.
      rewrite (IH pre rest (post ++ [no_method])); [| |done| |lia].
      * pose proof (filter_le (nak_allows l) rest) as Hle. do 3 f_equal. simpl length.
        rewrite Nat.sub_succ_l by exact Hle. rewrite <-app_assoc. done.
      * rewrite !length_app. simpl. lia.
      * intros y k. destruct post as [|z post]; simpl; intros [= <- <-]; [done|].
        by eapply Hp.
Qed.

Lemma nak_loop_spec l i ms :
  length ms = 8%nat -> (i <= 8)%nat -> nak_loop 9 i l ms = Some (nak_result l i ms).
Proof.
  intros Hlen Hi. unfold nak_result. cbv zeta.
  pose proof (take_drop_used (drop i ms)) as Hd.
  assert (Hli : length (take i ms) = i) by (rewrite length_take; lia).
  assert (Hms : take i ms ++ take_used (drop i ms) ++ drop_used (drop i ms) = ms)
    by (by rewrite Hd, take_drop).
  rewrite <-Hli at 1. rewrite <-Hms at 2.
  apply nak_loop_parts.
  - by rewrite Hms.
  - apply take_used_used.
  - intros x k. apply drop_used_head.
  - assert (length (take_used (drop i ms)) <= length (drop i ms))%nat
      by (rewrite <-Hd at 2; rewrite length_app; lia).
    rewrite length_drop in *. lia.
Qed.

Lemma nak_result_length l i ms : length ms = 8%nat -> length (nak_result l i ms) = 8%nat.
Proof.
  intros Hlen. unfold nak_result. cbv zeta.
  pose proof (take_drop_used (drop i ms)) as Hd. apply (f_equal length) in Hd.
  rewrite length_app, length_drop in Hd.
  pose proof (filter_le (nak_allows l) (take_used (drop i ms))).
  rewrite !length_app, length_replicate, length_take. lia.
Qed.

Lemma nak_loop_stop l i ms : (8 <= i)%nat -> nak_loop 9 i l ms = Some ms.
Proof.
  intros Hi. cbn [nak_loop]. unfold EAP_MAX_METHODS.
  destruct (Z.of_nat i <? 8) eqn:E; [bool_hyps; lia|done].
Qed.

Lemma process_nak_safe l s : safe s -> safe (eap_sm_process_nak l s).
Proof.
  intros H. unfold eap_sm_process_nak. destruct (user s) as [u|] eqn:Eu; [|exact H].
  apply safe_calm in H as (Hp & Hf & Ho & [Hu Hi] & Hr).
  specialize (Hu u Eu). simpl in Hi. set (i := Z.to_nat (user_eap_method_index s)).
  assert (Hn : exists ms, nak_loop 9 i l (methods u) = Some ms /\ length ms = 8%nat).
  { destruct (Nat.le_gt_cases i 8).
    - exists (nak_result l i (methods u)). split; [by apply nak_loop_spec|].
      by apply nak_result_length.
    - exists (methods u). split; [apply nak_loop_stop; lia|done]. }
  destruct Hn as (ms & -> & Hms). apply safe_calm. split; [exact Hp|].
  split; [exact Hf|]. split; [exact Ho|]. split; [|exact Hr]. split; [|exact Hi].
  intros v [= <-]. exact Hms.
Qed.

Lemma Policy_update_safe l s : safe s -> safe (eap_sm_Policy_update l s).
Proof.
  intros H. unfold eap_sm_Policy_update. destruct l as [l|]; [|exact H].
  destruct (user s); [|exact H]. destruct (negb _); [safe_tac|by apply process_nak_safe].
Qed.

(** *** The other states *)

Lemma initialize_reset_safe g s : safe s -> safe (initialize_reset g s).
Proof.
  intros H. unfold initialize_reset, eap_server_clear_identity. open_cmds. safe_tac.
  cmd_cases; open_cmds; safe_tac; by apply ENTRY_safe.
Qed.

Lemma initialize_backend_safe s : safe s -> safe (initialize_backend s).
Proof.
  intros H. unfold initialize_backend. cmd_cases; open_cmds; safe_tac; apply parse_safe; safe_tac.
Qed.

Lemma INITIALIZE_safe g s : safe s -> safe (EAP_INITIALIZE_Enter g s).
Proof.
  intros H. unfold EAP_INITIALIZE_Enter. open_cmds. safe_tac.
  apply initialize_backend_safe, safe_set_index; [lia|].
  by apply reset_method_safe, initialize_reset_safe.
Qed.

Lemma currentMethod_parse r s : currentMethod (eap_sm_parseEapResp r s) = currentMethod s.
Proof.
  unfold eap_sm_parseEapResp. open_cmds. destruct r as [b|]; repeat case_match; reflexivity.
Qed.

Lemma backend_method s :
  backend_auth (initialize_backend s) = true ->
  currentMethod (initialize_backend s) = EAP_TYPE_NONE.
Proof.
  unfold initialize_backend, when. destruct (backend_auth s) eqn:Eb; [|congruence]. intros _.
  open_cmds. set (s2 := setter currentMethod (fun _ => EAP_TYPE_NONE) s).
  assert (Hs : currentMethod s2 = EAP_TYPE_NONE) by reflexivity. clearbody s2.
  pose proof (currentMethod_parse (eapRespData (eap_if s2)) s2) as Hp. rewrite Hs in Hp.
  set (s3 := eap_sm_parseEapResp _ s2) in *. clearbody s3. destruct (rxResp s3); exact Hp.
Qed.

Lemma backend_INITIALIZE g s :
  backend_auth (EAP_INITIALIZE_Enter g s) = true ->
  currentMethod (EAP_INITIALIZE_Enter g s) = EAP_TYPE_NONE.
Proof.
  unfold EAP_INITIALIZE_Enter. open_cmds.
  set (s1 := setter user_eap_method_index _ _). clearbody s1.
  frames (backend_auth (M:=M) (P:=P)). frames (currentMethod (M:=M) (P:=P)).
  apply (backend_method s1).
Qed.

Lemma PICK_UP_safe s :
  safe s -> (currentMethod s = EAP_TYPE_NONE) ->
  safe (EAP_PICK_UP_METHOD_Enter s) /\
  (currentMethod (EAP_PICK_UP_METHOD_Enter s) <> EAP_TYPE_NONE ->
   m (EAP_PICK_UP_METHOD_Enter s) <> None).
Proof.
  intros H Hc. unfold EAP_PICK_UP_METHOD_Enter. open_cmds.
  pose proof (ENTRY_safe EAP_PICK_UP_METHOD false s H) as H1.
  assert (Hc1 : currentMethod (ENTRY EAP_PICK_UP_METHOD false s) = EAP_TYPE_NONE).
  { rewrite <-Hc. unfold ENTRY, SM_ENTRY. open_cmds. cmd_cases; reflexivity. }
  set (s1 := ENTRY _ _ s) in *. clearbody s1. cmd_cases; [|by split].
  set (s2 := setter m _ _).
  assert (H2 : calm s2 /\ eap_method_priv s2 = None).
  { pose proof (reset_method_safe (setter currentMethod (fun _ => respMethod s1) s1)) as Hr.
    assert (Hs : safe (setter currentMethod (fun _ => respMethod s1) s1)) by safe_tac.
    apply Hr, safe_calm in Hs as [Hp Hcm]. split; [exact Hcm|]. apply Hp. reflexivity. }
  clearbody s2. destruct H2 as [H2 Hp2].
  assert (Hnone : forall s, calm s -> eap_method_priv s = None ->
    safe (no_current_method s) /\
    (currentMethod (no_current_method s) <> EAP_TYPE_NONE -> m (no_current_method s) <> None)).
  { intros t Ht Hpt. split; [|intros E; by destruct E]. apply safe_calm. split; [|exact Ht].
    split; [intros _; exact Hpt|reflexivity]. }
  unfold pick_up_init. destruct (m s2) as [e|] eqn:Em; [|by apply Hnone].
  destruct (m_initPickUp e) as [f|] eqn:Ef; [|by apply Hnone].
  destruct (method_step_calm s2 _ (pick_up_step e f s2 Ef) (pick_up_user e f s2 Ef) H2)
    as (H3 & Hm3 & _).
  destruct (f s2) as [p s3]. cbn [snd] in *. destruct p as [p|]; cbn [non_null].
  - split; [apply safe_calm; split; [|exact H3]|]; [|intros _].
    + change (m s3 = None <-> Some p = None). by rewrite Hm3, Em.
    + change (m s3 <> None). by rewrite Hm3, Em.
  - apply Hnone; [exact H3|reflexivity].
Qed.

Lemma PROPOSE_safe s : safe s -> safe (EAP_PROPOSE_METHOD_Enter s).
Proof.
  intros H. unfold EAP_PROPOSE_METHOD_Enter, or_fault. open_cmds.
  set (s1 := setter try_initiate_reauth _ _).
  assert (H1 : safe s1) by (unfold s1; safe_tac; by apply ENTRY_safe). clearbody s1.
  destruct (propose_loop_safe s1 H1) as (s2 & -> & H2). cmd_cases; open_cmds; safe_tac.
Qed.

Lemma NAK_safe s : safe s -> safe (EAP_NAK_Enter s).
Proof.
  intros H. unfold EAP_NAK_Enter. open_cmds.
  pose proof (ENTRY_safe EAP_NAK false s H) as H1. set (s1 := ENTRY _ _ s) in *. clearbody s1.
  match goal with |- context [setter m ?g ?x] => set (s2 := setter m g x) end.
  assert (H2 : safe s2).
  { unfold s2. pose proof (reset_method_safe s1 H1) as Hr. unfold reset_method in Hr.
    pose proof (safe_inv s1 H1) as (Hp & _).
    destruct (eap_method_priv s1) as [p|] eqn:Ep.
    - destruct (m s1) as [e|] eqn:Em; [exact Hr|]. by discriminate (proj1 Hp eq_refl).
    - destruct (m s1); exact Hr. }
  clearbody s2. repeat case_match; try exact H2. by apply Policy_update_safe.
Qed.

Lemma user_get_safe i n s : safe s -> safe (snd (eap_user_get i n s)).
Proof.
  intros H. apply safe_calm in H as (Hp & Hf & Ho & [Hu Hi] & Hr). unfold eap_user_get.
  destruct get_eap_user as [get|] eqn:Eg; [|apply safe_calm; repeat (split; try assumption)].
  assert (Hn : forall v g, (forall w, v = Some w -> length (methods w) = 8%nat) -> 0 <= g ->
    safe (setter user_eap_method_index (fun _ => g) (setter user (fun _ => v) s))).
  { intros v g Hv Hg. apply safe_calm. split; [exact Hp|]. split; [exact Hf|]. split; [exact Ho|].
    split; [|exact Hr]. split; [exact Hv|exact Hg]. }
  assert (Hz : safe (setter user (fun _ => None) s)).
  { apply safe_calm. split; [exact Hp|]. split; [exact Hf|]. split; [exact Ho|].
    split; [|exact Hr]. split; [intros w; discriminate|exact Hi]. }
  destruct (oom _); [exact Hz|]. destruct (get i n) as [u|] eqn:E; [|exact Hz].
  cbn [snd]. open_cmds. eapply safe_eq; [|apply (Hn (Some u) 0); [|lia]]; [reflexivity|].
  intros w [= <-]. by eapply get_user_ok.
Qed.

Lemma getDecision_safe s : safe s -> safe (snd (eap_sm_Policy_getDecision s)).
Proof.
  intros H. unfold eap_sm_Policy_getDecision, getDecision_user.
  destruct (negb _ && _ && _); [exact H|]. destruct (_ && _); [cbn [snd]; safe_tac|].
  destruct (_ && _); [cbn [snd]; safe_tac|].
  destruct (identity s) as [ident|]; [|cbn [snd]; safe_tac].
  destruct (_ && _); [|cbn [snd]; safe_tac].
  pose proof (user_get_safe (take (Z.to_nat (identity_len s)) ident) 0 s H) as Hu.
  destruct (eap_user_get _ 0 s) as [res s1]. cbn [snd] in Hu.
  destruct (negb (res =? 0)); [exact Hu|]. destruct (_ && _); cbn [snd]; safe_tac.
Qed.

(** Without a lower layer that asks for it, re-authentication is never
    started by the server. *)
Lemma getDecision_no_reauth s :
  eap_get_erp_send_reauth_start s = false ->
  fst (eap_sm_Policy_getDecision s) <> DECISION_INITIATE_REAUTH_START.
Proof.
  intros Hs.
  assert (Hn : forall t : sm, getDecision_next t <> DECISION_INITIATE_REAUTH_START).
  { intros t. unfold getDecision_next. change (eap_get_erp_send_reauth_start t) with
      (eap_get_erp_send_reauth_start s). rewrite Hs, andb_false_r. simpl.
    destruct (match user t with Some _ => _ | None => _ end); [done|]. by destruct (_ || _). }
  unfold eap_sm_Policy_getDecision. destruct (negb _ && _ && _); [done|].
  destruct (_ && _); [done|]. destruct (_ && _); [done|].
  destruct (getDecision_user s) as [[d t]|t] eqn:E; [|apply Hn]. cbn [fst].
  unfold getDecision_user in E. destruct (identity s); [|discriminate].
  destruct (_ && _); [|discriminate]. destruct (eap_user_get _ _ s) as [res t1].
  destruct (negb _); [by injection E as <- _|]. destruct (_ && _); [by injection E as <- _|].
  discriminate.
Qed.

Lemma SELECT_ACTION_safe s :
  safe s -> safe (EAP_SELECT_ACTION_Enter s) /\
  (eap_get_erp_send_reauth_start s = false ->
   decision (EAP_SELECT_ACTION_Enter s) <> DECISION_INITIATE_REAUTH_START).
Proof.
  intros H. unfold EAP_SELECT_ACTION_Enter. open_cmds.
  pose proof (ENTRY_safe EAP_SELECT_ACTION false s H) as H1.
  set (s1 := ENTRY _ _ s) in *. clearbody s1. pose proof (getDecision_safe s1 H1) as H2.
  pose proof (getDecision_no_reauth s1) as H3.
  destruct (eap_sm_Policy_getDecision s1) as [d s2]. cbn [fst snd] in *.
  split; [safe_tac|]. intros Hs. apply H3, Hs.
Qed.

Lemma FAILURE_safe g s : safe s -> safe (EAP_FAILURE_Enter g s).
Proof.
  intros H. unfold EAP_FAILURE_Enter. open_cmds. safe_tac. apply set_reqData_safe.
  - apply build_final_some.
  - by apply ENTRY_safe.
Qed.

Lemma SUCCESS_safe s : safe s -> safe (EAP_SUCCESS_Enter s).
Proof.
  intros H. unfold EAP_SUCCESS_Enter. open_cmds. cmd_cases; open_cmds; safe_tac;
  (apply set_reqData_safe; [apply build_final_some|by apply ENTRY_safe]).
Qed.

(** *** Re-authentication and pass-through *)

Lemma zlen_take n (l : list Z) : zlen (take (Z.to_nat n) l) <= Z.max 0 n.
Proof. unfold zlen. rewrite length_take. lia. Qed.

Lemma erp_finish_msg_some s k id fl q nai : exists d, erp_finish_msg s k id fl q nai = Some d.
Proof.
  unfold erp_finish_msg.
  destruct (match k with Some k => erp_hash_len (cryptosuite k) | None => Some 0 end)
    as [n|] eqn:En; [|by eexists].
  assert (Hn : n = 0 /\ k = None \/ (n = 16 \/ n = 32) /\ k <> None).
  { destruct k as [k|]; [right|left; by simplify_eq]. split; [|done].
    unfold erp_hash_len in En. destruct (_ =? _); [simplify_eq; by right|].
    destruct (_ =? _); [simplify_eq; by left|done]. }
  destruct (oom (env s)) eqn:Eo.
  { unfold eap_msg_alloc. simpl. by eexists. }
  pose proof (zlen_nonneg (c_string nai)) as Hz.
  rewrite eap_msg_alloc_spec by (destruct (n =? 0) eqn:E; bool_hyps; lia).
  cbn [eap_msg_type_len eap_type_bytes EAP_VENDOR_IETF]. simpl (0 =? 0). cbn iota.
  unfold wpabuf_put_u8, wpabuf_put_be16, wpabuf_put_str. unfold eap_type_bytes, eap_msg_type_len.
  cbn [Z.eqb EAP_VENDOR_IETF].
  set (len := 4 + 1 + _).
  assert (Hlen : len = 10 + zlen (c_string nai) + (if n =? 0 then 0 else 1 + n)) by (unfold len; lia).
  clearbody len. destruct Hn as [[-> ->]|[Hn Hk]].
  - cbn [Z.eqb] in Hlen. do 5 put_step. by eexists.
  - destruct k as [k|]; [|done]. destruct (n =? 0) eqn:E; bool_hyps; [lia|].
    do 6 put_step. destruct (hmac_sha256 _ _) as [hash|]; [|by eexists].
    pose proof (zlen_take n hash). rewrite put_data_ok by put_room. by eexists.
Qed.

Lemma erp_finish_safe k id fl q nai s : safe s -> safe (erp_send_finish_reauth k id fl q nai s).
Proof.
  intros H. unfold erp_send_finish_reauth, or_fault.
  destruct (erp_finish_msg_some s k id fl q nai) as [d ->]. destruct d as [msg|]; [|exact H].
  unfold erp_finish_result. open_cmds.
  destruct k as [k|]; [|safe_tac]. destruct (negb _); [safe_tac|]. cmd_cases; [|safe_tac].
  destruct (hmac_sha256_kdf _ _ _ _); safe_tac.
Qed.

Lemma update_erp_key_safe i k s : safe s -> safe (update_erp_key i k s).
Proof. intros H. unfold update_erp_key. open_cmds. safe_tac. Qed.

Lemma erp_guess_len h en room k n k' :
  erp_guess_suite h en room k = Some (n, k') -> n = 0 \/ n = 16 \/ n = 32 /\ 33 <= room.
Proof.
  unfold erp_guess_suite. intros H.
  destruct ((1 + 32 <=? room) && _) eqn:Er; bool_hyps.
  - destruct (erp_tag_matches h en 32 k) as [[|]|]; [| |discriminate].
    + cbn in H. injection H as <- <-. lia.
    + cbn [Z.eqb andb] in H. destruct (byte_at h (en - 17) =? EAP_ERP_CS_HMAC_SHA256_128).
      * destruct (erp_tag_matches h en 16 k) as [[|]|]; [| |discriminate];
        injection H as <- <-; lia.
      * injection H as <- <-; lia.
  - cbn [Z.eqb andb] in H. destruct (byte_at h (en - 17) =? EAP_ERP_CS_HMAC_SHA256_128).
    + destruct (erp_tag_matches h en 16 k) as [[|]|]; [| |discriminate];
      injection H as <- <-; lia.
    + injection H as <- <-; lia.
Qed.

(** A verified tag leaves room for the key name before it. *)
Lemma erp_check_tag_room h st en k n k' :
  erp_check_tag h st en k = Some (n, k') -> st <= en - (1 + n) /\ (n = 16 \/ n = 32).
Proof.
  unfold erp_check_tag, erp_hash_len. intros H.
  destruct (en - st <? _) eqn:Er; [discriminate|]. bool_hyps.
  destruct (cryptosuite k =? EAP_ERP_CS_HMAC_SHA256_256) eqn:E1.
  - destruct (negb _); [discriminate|]. destruct (erp_tag_matches h en 32 k) as [[|]|]; try discriminate.
    injection H as <- <-. lia.
  - destruct (cryptosuite k =? EAP_ERP_CS_HMAC_SHA256_128).
    + destruct (negb _); [discriminate|].
      destruct (erp_tag_matches h en 16 k) as [[|]|]; try discriminate.
      injection H as <- <-. lia.
    + destruct (erp_guess_suite h en (en - st) k) as [[n1 k1]|] eqn:Eg; [|discriminate].
      destruct (n1 =? 0) eqn:E0; [discriminate|]. injection H as -> ->. bool_hyps.
      destruct (erp_guess_len _ _ _ _ _ _ Eg) as [|[|[]]]; lia.
Qed.

Lemma initiate_server_safe h q tl en st nai s :
  bytes h -> 0 <= tl <= st -> en <= zlen h -> safe s ->
  safe (initiate_server h q tl en st nai s).
Proof.
  intros Hb Htl Hen H. unfold initiate_server.
  destruct (eap_erp_get_key nai s) as [i|]; [|by apply erp_finish_safe].
  destruct (erp_keys (env s) !! i) as [k|]; [|safe_tac].
  destruct (negb _ && _); [safe_tac|].
  destruct (erp_check_tag h st en k) as [[n k']|] eqn:Et; [|safe_tac].
  apply erp_check_tag_room in Et as [Hr Hn].
  destruct (erp_tlvs_bounds h tl (en - (1 + n)) false Hb) as (ret & t & -> & _); [lia|lia|].
  pose proof (update_erp_key_safe i k' s H) as H1.
  destruct (ret <? 0); [safe_tac|]. by apply erp_finish_safe, update_erp_key_safe.
Qed.

Lemma INITIATE_RECEIVED_safe s : safe s -> safe (EAP_INITIATE_RECEIVED_Enter s).
Proof.
  intros H. unfold EAP_INITIATE_RECEIVED_Enter. open_cmds.
  set (s1 := setter rxInitiate _ _).
  assert (H1 : safe s1) by (unfold s1; safe_tac; by apply ENTRY_safe). clearbody s1. cbv zeta.
  pose proof (hdr_validate_bounds EAP_VENDOR_IETF EAP_ERP_TYPE_REAUTH (eapRespData (eap_if s1))) as Hv.
  destruct (eap_hdr_validate _ _ _) as [[[pos len]|]|]; [|safe_tac|done].
  destruct Hv as (b & Eb & Hpos & Hlen & _ & Hend). rewrite Eb. unfold wpabuf_head, wpabuf_len in *.
  destruct (len <? 4) eqn:E4; [safe_tac|]. bool_hyps.
  assert (Hb : bytes (data b)).
  { apply safe_inv in H1 as (_ & _ & _ & _ & Hr). by apply Hr. }
  destruct (erp_tlvs_bounds (data b) (pos + 3) (pos + len) true Hb) as (ret & t & -> & _ & Hk & _);
    [lia..|].
  destruct (ret <? 0); [safe_tac|]. destruct (keyname t) as [kn|] eqn:Ek; [|safe_tac].
  destruct (253 <? _); [safe_tac|]. destruct (Hk kn eq_refl) as (K1 & K2 & K3).
  destruct (negb (eap_server s1)).
  - unfold initiate_passthrough, eap_server_clear_identity. open_cmds. cmd_cases; open_cmds; safe_tac.
  - apply initiate_server_safe; [done|lia|lia|done].
Qed.

Lemma AAA_REQUEST_safe s : safe s -> safe (EAP_AAA_REQUEST_Enter s).
Proof.
  intros H. unfold EAP_AAA_REQUEST_Enter, or_fault. open_cmds.
  pose proof (ENTRY_safe EAP_AAA_REQUEST false s H) as H1. set (s1 := ENTRY _ _ s) in *. clearbody s1.
  destruct (eapRespData (eap_if s1)) as [b|] eqn:E; [|exact H1].
  destruct (copy_buf_cases s1 (aaaEapRespData (eap_if s1)) (Some b)) as
    [[-> _]|[[-> _]|(? & ? & _ & _ & -> & _)]]; safe_tac.
Qed.

Ltac safe_enter :=
  open_cmds; cmd_cases; open_cmds; safe_tac;
  repeat first [apply ENTRY_safe; assumption | apply copy_aaaReq_safe | safe_tac].

Lemma simple_states_safe s :
  safe s ->
  safe (EAP_IDLE_Enter s) /\ safe (EAP_IDLE2_Enter s) /\
  safe (EAP_RETRANSMIT_Enter s) /\ safe (EAP_RETRANSMIT2_Enter s) /\
  safe (EAP_RECEIVED_Enter s) /\ safe (EAP_RECEIVED2_Enter s) /\
  safe (EAP_DISCARD_Enter s) /\ safe (EAP_DISCARD2_Enter s) /\
  safe (EAP_SEND_REQUEST_Enter s) /\ safe (EAP_SEND_REQUEST2_Enter s) /\
  safe (EAP_AAA_IDLE_Enter s) /\ safe (EAP_AAA_RESPONSE_Enter s) /\
  safe (EAP_INITIALIZE_PASSTHROUGH_Enter s) /\ safe (EAP_FAILURE2_Enter s) /\
  safe (EAP_TIMEOUT_FAILURE_Enter s) /\ safe (EAP_TIMEOUT_FAILURE2_Enter s) /\
  (forall g, safe (EAP_DISABLED_Enter g s)).
Proof.
  intros H.
  split; [unfold EAP_IDLE_Enter, set_retransWhile; safe_enter|].
  split; [unfold EAP_IDLE2_Enter, set_retransWhile; safe_enter|].
  split; [by apply retransmit_safe, ENTRY_safe|]. split; [by apply retransmit_safe, ENTRY_safe|].
  split; [unfold EAP_RECEIVED_Enter; open_cmds; safe_tac; by apply parse_safe, ENTRY_safe|].
  split; [by apply parse_safe, ENTRY_safe|].
  split; [unfold EAP_DISCARD_Enter; safe_enter|]. split; [unfold EAP_DISCARD2_Enter; safe_enter|].
  split; [by apply send_request_safe, ENTRY_safe|]. split; [by apply send_request_safe, ENTRY_safe|].
  split; [unfold EAP_AAA_IDLE_Enter; safe_enter|]. split; [unfold EAP_AAA_RESPONSE_Enter; safe_enter|].
  split; [unfold EAP_INITIALIZE_PASSTHROUGH_Enter; safe_enter|].
  split; [unfold EAP_FAILURE2_Enter; safe_enter|].
  split; [unfold EAP_TIMEOUT_FAILURE_Enter; safe_enter|].
  split; [unfold EAP_TIMEOUT_FAILURE2_Enter; safe_enter|].
  intros g. unfold EAP_DISABLED_Enter. safe_enter.
Qed.

Lemma SUCCESS2_safe s : safe s -> safe (EAP_SUCCESS2_Enter s).
Proof.
  intros H. unfold EAP_SUCCESS2_Enter. open_cmds.
  match goal with |- context [ite _ _ _ ?x] => set (s1 := x) end.
  assert (H1 : safe s1) by (unfold s1; safe_tac; by apply copy_aaaReq_safe, ENTRY_safe).
  clearbody s1. cmd_cases; open_cmds; [destruct (eap_copy_data _ _ _ _ _) as [[]]|]; safe_tac.
Qed.

(** *** The invariant of the whole machine *)

(** In which states a method must be selected, and what the choice of the
    next state relies on. *)
Definition needs (t : eap_state) (s : sm) : Prop :=
  match t with
  | EAP_IDLE | EAP_RETRANSMIT | EAP_RECEIVED | EAP_DISCARD | EAP_SEND_REQUEST
  | EAP_INTEGRITY_CHECK | EAP_METHOD_RESPONSE => m s <> None
  | EAP_PICK_UP_METHOD => currentMethod s <> EAP_TYPE_NONE -> m s <> None
  | EAP_INITIALIZE => backend_auth s = true -> currentMethod s = EAP_TYPE_NONE
  | EAP_SELECT_ACTION => decision s <> DECISION_INITIATE_REAUTH_START
  | EAP_INITIATE_REAUTH_START => False
  | _ => True
  end.

Definition eap_inv (s : sm) : Prop := safe s /\ needs (EAP_state s) s.

Lemma eap_inv_enters g t s s' : enters g t s s' -> safe s' -> needs t s' -> eap_inv s'.
Proof.
  intros (i & p & H & _) Hs Hn. split; [exact Hs|]. rewrite ctl_state, H. exact Hn.
Qed.

Lemma eap_inv_state t s : safe s -> EAP_state s = t -> needs t s -> eap_inv s.
Proof. intros Hs <- Hn. by split. Qed.

Lemma m_parse r s : m (eap_sm_parseEapResp r s) = m s.
Proof.
  unfold eap_sm_parseEapResp. open_cmds. destruct r as [b|]; repeat case_match; reflexivity.
Qed.

Lemma m_send_request s : m (send_request_body s) = m s.
Proof.
  unfold send_request_body. open_cmds. cmd_cases; [copy_cases|]; open_cmds;
    frames (m (M:=M) (P:=P)); reflexivity.
Qed.

Lemma m_retransmit s : m (retransmit_body s) = m s.
Proof.
  unfold retransmit_body. open_cmds. cmd_cases; [copy_cases|]; open_cmds; cmd_cases; open_cmds;
    frames (m (M:=M) (P:=P)); reflexivity.
Qed.

Lemma state_ENTRY t g s : EAP_state (ENTRY t g s) = t.
Proof. unfold ENTRY, SM_ENTRY. open_cmds. frames (EAP_state (M:=M) (P:=P)). reflexivity. Qed.

Lemma state_send_request s : EAP_state (send_request_body s) = EAP_state s.
Proof. destruct (send_request_ctl s) as (i & H & _). by rewrite !ctl_state, H. Qed.

Lemma state_retransmit s : EAP_state (retransmit_body s) = EAP_state s.
Proof. destruct (retransmit_ctl s) as (i & H & _). by rewrite !ctl_state, H. Qed.

(** States that keep the selected method. *)
Lemma method_states_inv s :
  safe s ->
  (m s <> None -> eap_inv (EAP_IDLE_Enter s) /\ eap_inv (EAP_RETRANSMIT_Enter s) /\
     eap_inv (EAP_RECEIVED_Enter s) /\ eap_inv (EAP_DISCARD_Enter s) /\
     eap_inv (EAP_SEND_REQUEST_Enter s) /\ eap_inv (EAP_INTEGRITY_CHECK_Enter s) /\
     eap_inv (EAP_METHOD_RESPONSE_Enter s)).
Proof.
  intros H Hm. destruct (simple_states_safe s H) as (S1 & _ & S3 & _ & S5 & _ & S7 & _ & S9 & _).
  split; [|split; [|split; [|split; [|split; [|split]]]]].
  - eapply eap_inv_state; [exact S1| |]; unfold EAP_IDLE_Enter, set_retransWhile; open_cmds.
    + frames (EAP_state (M:=M) (P:=P)). apply state_ENTRY.
    + cbn [needs]. frames (m (M:=M) (P:=P)). by rewrite m_ENTRY.
  - eapply eap_inv_state; [exact S3| |]; unfold EAP_RETRANSMIT_Enter; open_cmds.
    + rewrite state_retransmit. apply state_ENTRY.
    + cbn [needs]. by rewrite m_retransmit, m_ENTRY.
  - eapply (eap_inv_state EAP_RECEIVED); [exact S5| |]; unfold EAP_RECEIVED_Enter; open_cmds.
    + frames (EAP_state (M:=M) (P:=P)). by rewrite ctl_state, parse_ctl, ENTRY_ctl.
    + cbn [needs]. frames (m (M:=M) (P:=P)). by rewrite m_parse, m_ENTRY.
  - eapply eap_inv_state; [exact S7| |]; unfold EAP_DISCARD_Enter; open_cmds.
    + frames (EAP_state (M:=M) (P:=P)). apply state_ENTRY.
    + cbn [needs]. frames (m (M:=M) (P:=P)). by rewrite m_ENTRY.
  - eapply eap_inv_state; [exact S9| |]; unfold EAP_SEND_REQUEST_Enter; open_cmds.
    + rewrite state_send_request. apply state_ENTRY.
    + cbn [needs]. by rewrite m_send_request, m_ENTRY.
  - destruct (INTEGRITY_CHECK_safe s H Hm).
    by eapply eap_inv_enters; [apply INTEGRITY_CHECK_enters|..].
  - destruct (METHOD_RESPONSE_safe s H Hm).
    by eapply eap_inv_enters; [apply METHOD_RESPONSE_enters|..].
Qed.

Lemma free_states_inv s :
  safe s ->
  eap_inv (EAP_PROPOSE_METHOD_Enter s) /\ eap_inv (EAP_NAK_Enter s) /\
  eap_inv (EAP_FAILURE_Enter false s) /\ eap_inv (EAP_FAILURE_Enter true s) /\
  eap_inv (EAP_SUCCESS_Enter s) /\ eap_inv (EAP_TIMEOUT_FAILURE_Enter s) /\
  eap_inv (EAP_INITIATE_RECEIVED_Enter s) /\ eap_inv (EAP_INITIALIZE_PASSTHROUGH_Enter s) /\
  eap_inv (EAP_AAA_REQUEST_Enter s) /\ eap_inv (EAP_AAA_RESPONSE_Enter s) /\
  eap_inv (EAP_TIMEOUT_FAILURE2_Enter s) /\ eap_inv (EAP_FAILURE2_Enter s) /\
  eap_inv (EAP_SUCCESS2_Enter s) /\ eap_inv (EAP_METHOD_REQUEST_Enter s).
Proof.
  intros H. pose proof (simple_states_safe s H) as
    (_ & _ & _ & _ & _ & _ & _ & _ & _ & _ & _ & S12 & S13 & S14 & S15 & S16 & _).
  repeat (split; [eapply eap_inv_enters; [|
    first [apply PROPOSE_safe; exact H|apply NAK_safe; exact H|apply FAILURE_safe; exact H
      |apply SUCCESS_safe; exact H|exact S15|apply INITIATE_RECEIVED_safe; exact H|exact S13
      |apply AAA_REQUEST_safe; exact H|exact S12|exact S16|exact S14|apply SUCCESS2_safe; exact H]|];
    [eauto 2 with eap_moves nocore|exact I]|]).
  eapply eap_inv_enters; [apply METHOD_REQUEST_enters|apply (METHOD_REQUEST_safe s H)|exact I].
Qed.

Lemma second_states_inv s :
  safe s ->
  eap_inv (EAP_IDLE2_Enter s) /\ eap_inv (EAP_RETRANSMIT2_Enter s) /\
  eap_inv (EAP_RECEIVED2_Enter s) /\ eap_inv (EAP_DISCARD2_Enter s) /\
  eap_inv (EAP_SEND_REQUEST2_Enter s) /\ eap_inv (EAP_AAA_IDLE_Enter s).
Proof.
  intros H. pose proof (simple_states_safe s H) as
    (_ & S2 & _ & S4 & _ & S6 & _ & S8 & _ & S10 & S11 & _).
  destruct (DISCARD_enters s) as (_ & D2 & D3 & D4).
  split; [|split; [|split; [|split; [|split]]]].
  - apply (eap_inv_state EAP_IDLE2); [exact S2| |exact I]. unfold EAP_IDLE2_Enter, set_retransWhile. open_cmds.
    frames (EAP_state (M:=M) (P:=P)). apply state_ENTRY.
  - apply (eap_inv_state EAP_RETRANSMIT2); [exact S4| |exact I]. unfold EAP_RETRANSMIT2_Enter. open_cmds.
    rewrite state_retransmit. apply state_ENTRY.
  - eapply eap_inv_enters; [exact D4|exact S6|exact I].
  - eapply eap_inv_enters; [exact D2|exact S8|exact I].
  - apply (eap_inv_state EAP_SEND_REQUEST2); [exact S10| |exact I]. unfold EAP_SEND_REQUEST2_Enter. open_cmds.
    rewrite state_send_request. apply state_ENTRY.
  - eapply eap_inv_enters; [exact D3|exact S11|exact I].
Qed.

Lemma SELECT_ACTION_inv s :
  safe s -> eap_get_erp_send_reauth_start s = false -> eap_inv (EAP_SELECT_ACTION_Enter s).
Proof.
  intros H Hs. destruct (SELECT_ACTION_safe s H) as [H1 H2].
  eapply eap_inv_enters; [apply SELECT_ACTION_enters|exact H1|exact (H2 Hs)].
Qed.

Lemma INITIALIZE_inv g s : safe s -> eap_inv (EAP_INITIALIZE_Enter g s).
Proof.
  intros H. destruct (INITIALIZE_ctl g s) as (i & Hc & _).
  eapply (eap_inv_state EAP_INITIALIZE); [by apply INITIALIZE_safe|by rewrite ctl_state, Hc|].
  exact (backend_INITIALIZE g s).
Qed.

Lemma EAP_switch_inv s :
  eap_inv s -> eap_get_erp_send_reauth_start s = false -> portEnabled (eap_if s) = true ->
  eap_inv (EAP_switch s).
Proof.
  intros [H Hn] Hr Hport. pose proof (INITIALIZE_inv false s H) as I0.
  pose proof (method_states_inv s H) as IM.
  destruct (free_states_inv s H) as (F1 & F2 & F3 & F4 & F5 & F6 & F7 & F8 & F9 & F10 & F11 & F12 & F13 & F14).
  destruct (second_states_inv s H) as (T1 & T2 & T3 & T4 & T5 & T6).
  pose proof (SELECT_ACTION_inv s H Hr) as IS.
  assert (Hself : eap_inv s) by (by split).
  unfold EAP_switch. destruct (EAP_state s) eqn:Es; cbn [needs] in Hn;
    try exact Hself; try (destruct (IM Hn) as (M1 & M2 & M3 & M4 & M5 & M6 & M7));
    try (repeat case_match; assumption).
  - destruct (backend_auth s) eqn:Eb; [|assumption]. destruct (negb (rxResp s)); [assumption|].
    destruct (resp_is s EAP_TYPE_NAK); [assumption|].
    destruct (PICK_UP_safe s H (Hn eq_refl)) as [P1 P2].
    eapply eap_inv_enters; [apply PICK_UP_enters|exact P1|exact P2].
  - destruct (retransWhile (eap_if s) =? 0); [|case_match; assumption].
    destruct (try_initiate_reauth s); [|assumption]. open_cmds.
    apply SELECT_ACTION_inv; [safe_tac|exact Hr].
  - destruct (bool_decide (methodState s = METHOD_END)); [assumption|].
    unfold pending_is. destruct (method_pending s) eqn:Ep; simpl; [assumption..|]. open_cmds.
    set (s1 := setter method_pending _ s).
    assert (H1 : safe s1) by (unfold s1; safe_tac). assert (Hm : m s1 <> None) by exact Hn.
    clearbody s1. by destruct (method_states_inv s1 H1 Hm) as (_ & _ & _ & _ & _ & _ & G).
  - destruct (m s) as [e|] eqn:Em; simpl; [|assumption]. open_cmds.
    destruct (IM ltac:(discriminate)) as (_ & _ & _ & _ & M5 & _). unfold when.
    set (s1 := EAP_SEND_REQUEST_Enter s) in *. clearbody s1.
    destruct (free_states_inv s1 (proj1 M5)) as (_ & _ & G & _).
    destruct (_ && _); [exact G|exact M5].
  - unfold pending_is. destruct (method_pending s) eqn:Ep; simpl; [assumption| |].
    + destruct (0 <? user_eap_method_index s) eqn:E; [|assumption]. bool_hyps.
      apply (eap_inv_state EAP_PROPOSE_METHOD); [|exact Es|exact I].
      apply safe_set_index; [lia|exact H].
    + open_cmds. set (s1 := setter method_pending _ s).
      assert (H1 : safe s1) by (unfold s1; safe_tac). clearbody s1.
      by destruct (free_states_inv s1 H1) as (G & _).
  - destruct (decision s); try assumption; [repeat case_match; assumption|done].
  - destruct (currentMethod s =? EAP_TYPE_NONE) eqn:E; bool_hyps; [assumption|].
    by destruct (method_states_inv s H (Hn E)) as (_ & _ & _ & _ & _ & _ & G).
  - by destruct Hn.
Qed.

Lemma EAP_Step_inv s :
  eap_inv s -> eap_get_erp_send_reauth_start s = false -> eap_inv (EAP_Step s).
Proof.
  intros [H Hn] Hr. unfold EAP_Step.
  destruct (eapRestart (eap_if s) && portEnabled (eap_if s)); [by apply INITIALIZE_inv|].
  destruct (portEnabled (eap_if s)) eqn:Ep; cbn [negb].
  2:{ pose proof (simple_states_safe s H) as (_ & _ & _ & _ & _ & _ & _ & _ & _ & _ & _ & _ & _ & _ & _ & _ & Hd).
      apply (eap_inv_state EAP_DISABLED); [apply Hd| |exact I].
      unfold EAP_DISABLED_Enter. open_cmds. frames (EAP_state (M:=M) (P:=P)). apply state_ENTRY. }
  destruct (EAP_MAX_AUTH_ROUNDS <? num_rounds s); [|by apply EAP_switch_inv].
  destruct (num_rounds s =? EAP_MAX_AUTH_ROUNDS + 1); [|by split]. open_cmds.
  set (s1 := setter num_rounds _ s). assert (H1 : safe s1) by (unfold s1; safe_tac).
  clearbody s1. by destruct (free_states_inv s1 H1) as (_ & _ & _ & G & _).
Qed.

Lemma sm_step_inv n p q :
  eap_inv (fst p) -> eap_get_erp_send_reauth_start (fst p) = false ->
  do_while sm_step_body (fun p => changed (fst p)) n p = Some q -> eap_inv (fst q).
Proof.
  intros Hi Hr. apply (do_while_inv _ _ (fun p => eap_inv (fst p))); [exact Hi|].
  intros p' H. unfold sm_step_body. cbn [fst]. apply EAP_Step_inv; [|exact Hr].
  destruct H as [Hs Hn]. split; [safe_tac|exact Hn].
Qed.

End eap.
