(* ===== verification/EapAuthority.v ===== *)
(** * The EAP authenticator: who may report success

    [eapSuccess] is what makes the lower layer open its port.  The lemmas
    here show on whose authority a step of the machine can set it: a finished
    EAP method, the authentication server, or a verified ERP message. *)

From S2P Require Import Prelude.
From S2P Require Import Wpabuf.
From S2P Require Import Common.
From S2P Require Import EapCommon.
From S2P Require Import EapServer.
From S2P Require Import EapControl.
From S2P Require Import EapSafety.

Create HintDb eap_quiet discriminated.

Section eap.
Context {M P : Type} `{EM : !EapMethods M P, CB : !EapolCallbacks, EC : !ErpCrypto}.
Context `{ML : !EapMethodLaws}.
Abbreviation sm := (eap_sm M P).
Implicit Types s : sm.

(** ** Verified ERP messages *)

(** The sequence number [seq] has not been seen under [k]; a key starts with
    [recv_seq] at its maximum. *)
Definition erp_fresh (seq : Z) (k : eap_server_erp_key) : Prop :=
  recv_seq k = 2 ^ 32 - 1 \/ recv_seq k < seq.

(** [h], up to [end_], is a message under the name [nai] with a fresh sequence
    number, and ends with its HMAC under the stored key. *)
Definition erp_verified (h : list Z) (end_ : Z) (nai : list Z) (seq : Z) (s : sm) : Prop :=
  exists i k n,
    eap_erp_get_key nai s = Some i /\ erp_keys (env s) !! i = Some k /\
    erp_fresh seq k /\ (n = 16 \/ n = 32) /\ erp_tag_matches h end_ n k = Some true.

(** The message waiting in [eapRespData] is verified. *)
Definition erp_authentic (s : sm) : Prop :=
  exists b pos len ret t kn,
    eapRespData (eap_if s) = Some b /\
    eap_hdr_validate EAP_VENDOR_IETF EAP_ERP_TYPE_REAUTH (Some b) = Some (Some (pos, len)) /\
    erp_parse_tlvs (wpabuf_head b) (pos + 3) (pos + len) true = Some (ret, t) /\ 0 <= ret /\
    keyname t = Some kn /\
    erp_verified (wpabuf_head b) (pos + len) (slice (wpabuf_head b) kn (keyname_len t))
      (WPA_GET_BE16 (wpabuf_head b) (pos + 1)) s.

Lemma guess_suite_matches h en room k n k' :
  erp_guess_suite h en room k = Some (n, k') -> n = 0 \/ erp_tag_matches h en n k = Some true.
Proof.
  unfold erp_guess_suite. set (c := (1 + 32 <=? room) && _). destruct c; cbn beta iota.
  - destruct (erp_tag_matches h en 32 k) as [[|]|] eqn:E; [| |discriminate]; cbn beta iota.
    + replace (32 =? 0) with false by reflexivity. cbn. intros [= <- <-]. by right.
    + destruct (_ && _); [|intros [= <- <-]; by left].
      destruct (erp_tag_matches h en 16 k) as [[|]|] eqn:E2; cbn; [|by intros [= <- <-]; left|done].
      intros [= <- <-]. by right.
  - destruct (_ && _); [|intros [= <- <-]; by left].
    destruct (erp_tag_matches h en 16 k) as [[|]|] eqn:E2; cbn; [|by intros [= <- <-]; left|done].
    intros [= <- <-]. by right.
Qed.

Lemma check_tag_matches h st en k n k' :
  erp_check_tag h st en k = Some (n, k') -> erp_tag_matches h en n k = Some true.
Proof.
  unfold erp_check_tag. destruct (en - st <? _); [discriminate|].
  destruct (erp_hash_len (cryptosuite k)) as [l|].
  - destruct (negb _); [discriminate|].
    destruct (erp_tag_matches h en l k) as [[|]|] eqn:E; try discriminate.
    intros [= <- <-]. exact E.
  - destruct (erp_guess_suite h en (en - st) k) as [[n1 k1]|] eqn:Eg; [|discriminate].
    destruct (n1 =? 0) eqn:E0; [discriminate|]. intros [= <- <-]. bool_hyps.
    destruct (guess_suite_matches _ _ _ _ _ _ Eg); [done|assumption].
Qed.

Lemma check_tag_key h st en k n k' :
  erp_check_tag h st en k = Some (n, k') ->
  rIK k' = rIK k /\ recv_seq k' = recv_seq k /\ keyname_nai k' = keyname_nai k.
Proof.
  unfold erp_check_tag, erp_guess_suite. destruct (en - st <? _); [discriminate|].
  destruct (erp_hash_len (cryptosuite k)) as [l|].
  - destruct (negb _); [discriminate|].
    destruct (erp_tag_matches h en l k) as [[|]|]; try discriminate. by intros [= _ <-].
  - repeat match goal with
    | |- context [if ?b then _ else _] => destruct b
    | |- context [match erp_tag_matches ?a ?b ?c ?d with _ => _ end] =>
        destruct (erp_tag_matches a b c d)
    end; try discriminate; by intros [= _ <-].
Qed.

(** ** Steps that report success *)

Definition success (s : sm) : bool := eapSuccess (eap_if s).

(** No success is reported that was not reported before. *)
Definition quiet (s s' : sm) : Prop := success s' = true -> success s = true.

Lemma calm_refl s : quiet s s.
Proof. intros H. exact H. Qed.

Lemma quiet_if s s1 g :
  (forall i, eapSuccess (g i) = eapSuccess i) -> quiet s s1 -> quiet s (setter eap_if g s1).
Proof.
  unfold quiet. intros Hg Hq. change (success (setter eap_if g s1)) with (eapSuccess (g (eap_if s1))).
  rewrite Hg. exact Hq.
Qed.

Lemma quiet_eq s s1 s2 : success s2 = success s1 -> quiet s s1 -> quiet s s2.
Proof. unfold quiet. by intros ->. Qed.

Ltac quiet_tac :=
  repeat first
    [ assumption
    | lazymatch goal with
      | |- quiet _ (setter eap_if _ _) => apply quiet_if; [intros ?; reflexivity|]
      | |- quiet _ (@setter _ _ ?f ?i ?g ?s) =>
          eapply quiet_eq; [exact (frame success f i g s)|]
      | |- quiet ?s ?s => apply calm_refl
      end ].

Lemma raise_quiet f s s1 : quiet s s1 -> quiet s (raise f s1).
Proof. intros H. unfold raise. open_cmds. quiet_tac. Qed.

Lemma erp_failed_quiet id q nai s s1 :
  quiet s s1 -> quiet s (erp_send_finish_reauth None id 0x80 q nai s1).
Proof.
  intros H. unfold erp_send_finish_reauth, or_fault.
  destruct (erp_finish_msg s1 None id _ q nai) as [[msg|]|]; [|exact H|by apply raise_quiet].
  unfold erp_finish_result. open_cmds. quiet_tac.
Qed.

Lemma initiate_server_quiet h q tl en st nai s s1 :
  quiet s s1 -> quiet s (initiate_server h q tl en st nai s1) \/ erp_verified h en nai q s1.
Proof.
  intros H. unfold initiate_server.
  destruct (eap_erp_get_key nai s1) as [i|] eqn:Ei; [|left; by apply erp_failed_quiet].
  destruct (erp_keys (env s1) !! i) as [k|] eqn:Ek; [|left; quiet_tac].
  destruct (negb _ && _) eqn:Eq; [left; quiet_tac|].
  destruct (erp_check_tag h st en k) as [[n k']|] eqn:Et; [|left; quiet_tac].
  right. exists i, k, n. split; [exact Ei|]. split; [exact Ek|].
  split; [|split; [by apply (erp_check_tag_room h st en k n k')|by eapply check_tag_matches]].
  unfold erp_fresh. apply andb_false_iff in Eq as [Eq|Eq]; bool_hyps; [by left|by right].
Qed.

Lemma INITIATE_RECEIVED_quiet s :
  quiet s (EAP_INITIATE_RECEIVED_Enter s) \/ (eap_server s = true /\ erp_authentic s).
Proof.
  unfold EAP_INITIATE_RECEIVED_Enter, ENTRY, SM_ENTRY. open_cmds.
  set (s0 := when _ _ _). set (s1 := setter rxInitiate _ _).
  assert (H1 : quiet s s1 /\ env s1 = env s /\ eap_if s1 = eap_if s /\ eap_server s1 = eap_server s).
  { unfold s1, s0, when. cbn [negb orb].
    split; [quiet_tac|]. split; [by frames (@env M P)|].
    split; [by frames (@eap_if M P)|by frames (@eap_server M P)]. }
  clearbody s1. clear s0. destruct H1 as (H1 & He & Hi & Hsv). cbv zeta.
  destruct (eap_hdr_validate _ _ _) as [[[pos len]|]|] eqn:Ev; [|left; quiet_tac|left; by apply raise_quiet].
  pose proof (hdr_validate_bounds EAP_VENDOR_IETF EAP_ERP_TYPE_REAUTH (eapRespData (eap_if s1))) as Hv.
  rewrite Ev in Hv. destruct Hv as (b & Eb & _). rewrite Eb in *.
  destruct (len <? 4); [left; quiet_tac|].
  destruct (erp_parse_tlvs _ _ _ true) as [[ret t]|] eqn:Ep; [|left; by apply raise_quiet].
  destruct (ret <? 0) eqn:Er; [left; quiet_tac|]. destruct (keyname t) as [kn|] eqn:Ek; [|left; quiet_tac].
  destruct (253 <? _); [left; quiet_tac|].
  destruct (eap_server s1) eqn:Es; cbn [negb].
  - destruct (initiate_server_quiet (wpabuf_head b) (WPA_GET_BE16 (wpabuf_head b) (pos + 1)) (pos + 3)
      (pos + len) (kn + keyname_len t) (slice (wpabuf_head b) kn (keyname_len t)) s s1 H1) as [Hq|Hq];
      [by left|]. right. split; [congruence|]. exists b, pos, len, ret, t, kn. rewrite <-Hi.
    split; [exact Eb|]. split; [exact Ev|]. split; [exact Ep|].
    split; [by apply Z.ltb_ge|]. split; [exact Ek|]. destruct Hq as (i & k & n & K1 & K2 & K3). exists i, k, n.
      split; [|split; [by rewrite <-He|exact K3]]. revert K1. unfold eap_erp_get_key. by rewrite He.
  - left. unfold initiate_passthrough, eap_server_clear_identity. open_cmds.
    cmd_cases; open_cmds; quiet_tac.
Qed.

(** ** The transitions *)

(** On whose authority a step may report success. *)
Definition success_authority (s : sm) : Prop :=
  (EAP_state s = EAP_SELECT_ACTION /\ decision s = DECISION_SUCCESS) \/
  (EAP_state s = EAP_AAA_IDLE /\ aaaSuccess (eap_if s) = true /\ aaaFail (eap_if s) = false) \/
  (eap_server s = true /\ rxInitiate s = true /\ erp_authentic s).

(** Whether a restart is asked for, and whether the port may serve it. *)
Definition asked (s : sm) : bool * bool := (eapRestart (eap_if s), portEnabled (eap_if s)).

(** A request to restart stays, or the restart forgets the success; the port
    is left alone. *)
Definition restarts (s s' : sm) : Prop :=
  asked s' = asked s \/ (asked s' = (false, portEnabled (eap_if s)) /\ success s' = false).

Lemma restarts_trans s s1 s2 :
  asked s1 = asked s -> restarts s1 s2 -> restarts s s2.
Proof. unfold restarts. intros H. rewrite H. by injection H as _ ->. Qed.

Lemma enters_restarts g t s s' : enters g t s s' -> restarts s s'.
Proof.
  intros (i & p & H & (K1 & K2 & _) & _). left. unfold asked. rewrite (ctl_if s'), H.
  cbn [c_if with_pending with_if]. by rewrite K1, K2.
Qed.

Lemma same_restarts s s' : ctl_of s' = ctl_of s -> restarts s s'.
Proof. intros H. left. unfold asked. by rewrite (ctl_if s'), H. Qed.

(** A step is quiet or authorised, enters SELECT_ACTION only through its
    entry action, and restarts as asked. *)
Definition outcome (s s' : sm) : Prop :=
  (quiet s s' \/ success_authority s) /\
  (EAP_state s' <> EAP_SELECT_ACTION \/ exists s1, s' = EAP_SELECT_ACTION_Enter s1) /\
  restarts s s'.

Lemma enters_outcome g t s s' :
  enters g t s s' -> may_succeed t = false -> t <> EAP_SELECT_ACTION -> outcome s s'.
Proof.
  intros He Ht Hne. pose proof (enters_restarts _ _ _ _ He) as Hr.
  destruct He as (i & p & H & (_ & _ & Hk) & _). split; [|split; [|exact Hr]].
  - left. unfold quiet, success. rewrite (ctl_if s'), H. cbn [c_if with_pending with_if].
    intros E. exact (Hk Ht E).
  - left. rewrite ctl_state, H. exact Hne.
Qed.

Lemma enters_authorised g t s s' :
  enters g t s s' -> t <> EAP_SELECT_ACTION -> quiet s s' \/ success_authority s -> outcome s s'.
Proof.
  intros He Hne Hq. pose proof (enters_restarts _ _ _ _ He) as Hr.
  destruct He as (i & p & H & _). split; [exact Hq|]. split; [|exact Hr]. left. rewrite ctl_state, H. exact Hne.
Qed.

Lemma IDLE_outcome t s :
  may_succeed t = false -> t <> EAP_SELECT_ACTION -> outcome s (set_retransWhile (ENTRY t false s)).
Proof.
  intros Ht Hne. destruct (IDLE_ctl t s) as (i & H & Hk & _).
  eapply enters_outcome; [|exact Ht|exact Hne]. eapply enters_intro; [exact H|exact Hk].
Qed.

Lemma body_outcome t s b :
  (exists i, ctl_of (b (ENTRY t false s)) = with_if (ctl_of (ENTRY t false s)) i /\
     eapRestart i = eapRestart (eap_if (ENTRY t false s)) /\
     portEnabled i = portEnabled (eap_if (ENTRY t false s)) /\
     eapSuccess i = eapSuccess (eap_if (ENTRY t false s))) ->
  may_succeed t = false -> t <> EAP_SELECT_ACTION -> outcome s (b (ENTRY t false s)).
Proof.
  intros (i & H & K1 & K2 & K3) Ht Hne. eapply enters_outcome; [|exact Ht|exact Hne].
  eapply enters_if; [apply (enters_entry t false)|exact H|].
  split; [exact K1|]. split; [exact K2|]. intros _. by rewrite K3.
Qed.

Lemma send_request_outcome t s :
  may_succeed t = false -> t <> EAP_SELECT_ACTION -> outcome s (send_request_body (ENTRY t false s)).
Proof.
  apply body_outcome. destruct (send_request_ctl (ENTRY t false s)) as (i & H & _ & K1 & K2 & K3).
  by exists i.
Qed.

Lemma retransmit_outcome t s :
  may_succeed t = false -> t <> EAP_SELECT_ACTION -> outcome s (retransmit_body (ENTRY t false s)).
Proof.
  apply body_outcome. destruct (retransmit_ctl (ENTRY t false s)) as (i & H & _ & K1 & K2 & K3).
  by exists i.
Qed.

Lemma RECEIVED_outcome s : outcome s (EAP_RECEIVED_Enter s).
Proof.
  assert (H : exists n, ctl_of (EAP_RECEIVED_Enter s) =
    with_rounds (with_state false (ctl_of s) EAP_RECEIVED) n).
  { unfold EAP_RECEIVED_Enter. open_cmds. eexists. rewrite set_rounds_ctl, parse_ctl, ENTRY_ctl. reflexivity. }
  destruct H as [n H]. split; [|split].
  - left. unfold quiet, success. rewrite (ctl_if (EAP_RECEIVED_Enter s)), H.
    intros E. exact E.
  - left. rewrite ctl_state, H. discriminate.
  - left. unfold asked. rewrite (ctl_if (_ s)), H. reflexivity.
Qed.

Lemma INITIALIZE_outcome g s : outcome s (EAP_INITIALIZE_Enter g s).
Proof.
  destruct (INITIALIZE_ctl g s) as (i & H & Kr & Kp & K).
  assert (Hi : eap_if (EAP_INITIALIZE_Enter g s) = i) by (by rewrite ctl_if, H).
  split; [|split].
  - left. unfold quiet, success. rewrite Hi, K. discriminate.
  - left. rewrite ctl_state, H. discriminate.
  - right. unfold success, asked. by rewrite Hi, Kr, Kp.
Qed.

Lemma SELECT_ACTION_outcome s s1 :
  quiet s s1 -> asked s1 = asked s -> outcome s (EAP_SELECT_ACTION_Enter s1).
Proof.
  intros Hq Hr. split; [|split; [right; by exists s1|]].
  2:{ eapply restarts_trans; [exact Hr|]. eapply enters_restarts, SELECT_ACTION_enters. } left. unfold quiet in *. intros E. apply Hq. revert E.
  destruct (SELECT_ACTION_enters s1) as (i & p & H & (_ & _ & Hk) & _). unfold success.
  rewrite (ctl_if (EAP_SELECT_ACTION_Enter s1)), H. cbn [c_if with_pending with_if].
  intros E. exact (Hk eq_refl E).
Qed.

Lemma enters_outcome_from g t s s1 s' :
  quiet s s1 -> asked s1 = asked s ->
  enters g t s1 s' -> may_succeed t = false -> t <> EAP_SELECT_ACTION -> outcome s s'.
Proof.
  intros Hq He H Ht Hne. pose proof (enters_outcome g t s1 s' H Ht Hne) as (_ & Ho & Hr).
  split; [|split; [exact Ho|exact (restarts_trans _ _ _ He Hr)]]. left. intros E. apply Hq. destruct H as (i & p & H & (_ & _ & Hk) & _).
  unfold success in *. rewrite (ctl_if s'), H in E. exact (Hk Ht E).
Qed.

Lemma send_request_quiet t s :
  quiet s (send_request_body (ENTRY t false s)) /\
  asked (send_request_body (ENTRY t false s)) = asked s.
Proof.
  destruct (send_request_ctl (ENTRY t false s)) as (i & H & _ & Kr & Kp & K). unfold quiet, success, asked.
  rewrite (ctl_if (send_request_body _)), H. cbn [c_if with_if]. rewrite K, Kr, Kp.
  rewrite (ctl_if (ENTRY _ _ _)), ENTRY_ctl. split; [intros E; exact E|reflexivity].
Qed.

Lemma stay_outcome s s' :
  ctl_of s' = ctl_of s -> EAP_state s <> EAP_SELECT_ACTION -> outcome s s'.
Proof.
  intros H Hne. split; [|split; [|by apply same_restarts]].
  - left. unfold quiet, success. by rewrite (ctl_if s'), H.
  - left. by rewrite ctl_state, H.
Qed.

#[local] Hint Resolve SELECT_ACTION_outcome RECEIVED_outcome calm_refl : eap_quiet.
#[local] Hint Extern 1 (asked _ = asked _) => reflexivity : eap_quiet.
#[local] Hint Extern 1 (outcome _ (set_retransWhile _)) => (apply IDLE_outcome; [reflexivity|discriminate]) : eap_quiet.
#[local] Hint Extern 1 (outcome _ (send_request_body _)) =>
  (apply send_request_outcome; [reflexivity|discriminate]) : eap_quiet.
#[local] Hint Extern 1 (outcome _ (retransmit_body _)) =>
  (apply retransmit_outcome; [reflexivity|discriminate]) : eap_quiet.

(** Entering one of the other states. *)
Ltac quiet_enter := eapply enters_outcome; [solve [eauto 2 with eap_moves nocore]|reflexivity|discriminate].

Lemma switch_outcome s : outcome s (EAP_switch s).
Proof.
  destruct (DISCARD_enters s) as (D1 & D2 & D3 & D4).
  unfold EAP_switch, EAP_IDLE_Enter, EAP_IDLE2_Enter, EAP_RETRANSMIT_Enter, EAP_RETRANSMIT2_Enter,
    EAP_SEND_REQUEST2_Enter, EAP_SEND_REQUEST_Enter. open_cmds.
  destruct (EAP_state s) eqn:Es.
  - destruct (portEnabled (eap_if s)); [apply INITIALIZE_outcome|apply stay_outcome; [done|by rewrite Es]].
  - repeat case_match; solve [quiet_enter|eauto 2 with eap_quiet nocore].
  - destruct (retransWhile (eap_if s) =? 0).
    + destruct (try_initiate_reauth s); [|eauto 2 with eap_quiet nocore].
      apply SELECT_ACTION_outcome; [quiet_tac|reflexivity].
    + destruct (eapResp (eap_if s)); [apply RECEIVED_outcome|apply stay_outcome; [done|by rewrite Es]].
  - repeat (match goal with |- outcome _ (if ?b then _ else _) => destruct b eqn:? end); try quiet_enter.
    apply (enters_authorised false EAP_INITIATE_RECEIVED); [apply INITIATE_RECEIVED_enters|discriminate|].
    destruct (INITIATE_RECEIVED_quiet s) as [Hq|[Ha Hb]]; [by left|right]. right. right. done.
  - repeat case_match; quiet_enter.
  - destruct (bool_decide _); [eauto 2 with eap_quiet nocore|].
    destruct (pending_is METHOD_PENDING_WAIT s); [apply stay_outcome; [done|by rewrite Es]|].
    destruct (pending_is METHOD_PENDING_CONT s); [|quiet_enter].
    eapply enters_outcome_from; [| |apply METHOD_RESPONSE_enters|reflexivity|discriminate]; [quiet_tac|reflexivity].
  - destruct (negb (non_null (m s))); [quiet_enter|].
    pose proof (send_request_quiet EAP_SEND_REQUEST s) as [Hq Hr].
    pose proof (send_request_outcome EAP_SEND_REQUEST s eq_refl ltac:(discriminate)) as Ho.
    set (s1 := send_request_body _) in *. clearbody s1. cmd_cases; [|exact Ho].
    eapply enters_outcome_from; [exact Hq|exact Hr|apply FAILURE_enters|reflexivity|discriminate].
  - destruct (pending_is METHOD_PENDING_WAIT s).
    { apply stay_outcome; [|by rewrite Es]. unfold when. open_cmds. case_match; reflexivity. }
    destruct (pending_is METHOD_PENDING_CONT s); [|quiet_enter].
    eapply enters_outcome_from; [| |apply PROPOSE_enters|reflexivity|discriminate]; [quiet_tac|reflexivity].
  - destruct (decision s) eqn:Ed; try quiet_enter.
    + apply (enters_authorised false EAP_SUCCESS); [apply SUCCESS_enters|discriminate|].
      right. left. by split.
    + destruct (eap_server s && erp s && rxInitiate s) eqn:Ei; [|quiet_enter]. bool_hyps.
      apply (enters_authorised false EAP_INITIATE_RECEIVED); [apply INITIATE_RECEIVED_enters|discriminate|].
      destruct (INITIATE_RECEIVED_quiet s) as [Hq|[Ha Hb]]; [by left|right]. right. right. done.
  - eauto 2 with eap_quiet nocore.
  - eauto 2 with eap_quiet nocore.
  - eauto 2 with eap_quiet nocore.
  - case_match; [quiet_enter|eauto 2 with eap_quiet nocore].
  - apply stay_outcome; [done|by rewrite Es].
  - apply stay_outcome; [done|by rewrite Es].
  - apply stay_outcome; [done|by rewrite Es].
  - case_match; [eauto 2 with eap_quiet nocore|quiet_enter].
  - case_match; quiet_enter.
  - destruct (eapResp (eap_if s)); [quiet_enter|].
    destruct (retransWhile (eap_if s) =? 0); [eauto 2 with eap_quiet nocore|].
    apply stay_outcome; [done|by rewrite Es].
  - case_match; [quiet_enter|eauto 2 with eap_quiet nocore].
  - case_match; quiet_enter.
  - eauto 2 with eap_quiet nocore.
  - eauto 2 with eap_quiet nocore.
  - quiet_enter.
  - eauto 2 with eap_quiet nocore.
  - destruct (aaaFail (eap_if s)) eqn:E1; [quiet_enter|].
    destruct (aaaSuccess (eap_if s)) eqn:E2.
    { apply (enters_authorised false EAP_SUCCESS2); [apply SUCCESS2_enters|discriminate|].
      right. right. left. by split. }
    repeat (match goal with |- outcome _ (if ?b then _ else _) => destruct b end); try quiet_enter.
    apply stay_outcome; [done|by rewrite Es].
  - apply stay_outcome; [done|by rewrite Es].
  - apply stay_outcome; [done|by rewrite Es].
  - apply stay_outcome; [done|by rewrite Es].
  - eauto 2 with eap_quiet nocore.
  - destruct (eap_server s) eqn:E; cbn [negb]; [apply stay_outcome; [done|by rewrite Es]|eauto 2 with eap_quiet nocore].
Qed.
Lemma DISABLED_outcome s : outcome s (EAP_DISABLED_Enter true s).
Proof.
  assert (H : ctl_of (EAP_DISABLED_Enter true s) =
    with_rounds (with_state true (ctl_of s) EAP_DISABLED) 0).
  { unfold EAP_DISABLED_Enter. open_cmds. rewrite set_rounds_ctl, ENTRY_ctl. reflexivity. }
  split; [|split].
  - left. unfold quiet, success. rewrite (ctl_if (EAP_DISABLED_Enter true s)), H.
    intros E. exact E.
  - left. rewrite ctl_state, H. discriminate.
  - left. unfold asked. by rewrite (ctl_if (EAP_DISABLED_Enter true s)), H.
Qed.

(** A step leaves the machine alone when the rounds are used up. *)
Lemma Step_outcome s : outcome s (EAP_Step s) \/ EAP_Step s = s.
Proof.
  unfold EAP_Step. destruct (eapRestart (eap_if s) && portEnabled (eap_if s));
    [left; apply INITIALIZE_outcome|].
  destruct (negb (portEnabled (eap_if s))); [left; apply DISABLED_outcome|].
  destruct (EAP_MAX_AUTH_ROUNDS <? num_rounds s); [|left; apply switch_outcome].
  destruct (_ =? _); [|by right]. left. open_cmds.
  eapply enters_outcome_from; [| |apply FAILURE_enters|reflexivity|discriminate]; [quiet_tac|reflexivity].
Qed.

(** ** Decisions *)

(** The selected method, which is not Identity, has succeeded. *)
Definition method_succeeded (s : sm) : Prop :=
  exists e p s0, m s = Some e /\ eap_method_priv s = Some p /\ currentMethod s <> EAP_TYPE_IDENTITY /\
    m s0 = m s /\ eap_method_priv s0 = eap_method_priv s /\ m_isSuccess e p s0 = true.

Definition decision_justified (s : sm) : Prop :=
  EAP_state s = EAP_SELECT_ACTION -> decision s = DECISION_SUCCESS -> method_succeeded s.

Definition selection (s : sm) := (m s, eap_method_priv s, currentMethod s).

Lemma getDecision_success s :
  fst (eap_sm_Policy_getDecision s) = DECISION_SUCCESS ->
  method_succeeded s /\ selection (snd (eap_sm_Policy_getDecision s)) = selection s.
Proof.
  unfold eap_sm_Policy_getDecision.
  destruct (negb (eap_server s) && _ && _); [discriminate|].
  destruct (non_null (m s) && _ && method_success s) eqn:E.
  - intros _. split; [|exact (frame selection update_user _ _ s)]. bool_hyps.
    unfold method_success in *. destruct (m s) as [e|] eqn:Em; [|discriminate].
    destruct (eap_method_priv s) as [p|] eqn:Ep; [|discriminate].
    exists e, p, s. rewrite Em, Ep. by repeat split.
  - destruct (non_null (m s) && method_done s && _); [discriminate|].
    assert (Hn : forall s, getDecision_next s <> DECISION_SUCCESS).
    { intros s0. unfold getDecision_next.
      do 3 (match goal with |- (if ?b then _ else _) <> _ => destruct b end; [discriminate|]). discriminate. }
    destruct (getDecision_user s) as [[d s1]|s1] eqn:Eu.
    + cbn [fst]. intros ->. exfalso. revert Eu. unfold getDecision_user.
      destruct (identity s); [|discriminate].
      match goal with |- (if ?b then _ else _) = _ -> _ => destruct b end; [|discriminate].
      destruct (eap_user_get _ _ s) as [res s2]. destruct (negb (res =? 0)); [discriminate|].
      match goal with |- (if ?b then _ else _) = _ -> _ => destruct b end; discriminate.
    + cbn [fst]. intros H. by apply Hn in H.
Qed.

Lemma succeeded_selection s s' :
  selection s' = selection s -> method_succeeded s -> method_succeeded s'.
Proof.
  unfold selection, method_succeeded. intros [= H1 H2 H3] (e & p & s0 & H). rewrite H1, H2, H3.
  by exists e, p, s0.
Qed.

Lemma SELECT_ACTION_justified s : decision_justified (EAP_SELECT_ACTION_Enter s).
Proof.
  intros _. unfold EAP_SELECT_ACTION_Enter. open_cmds. set (s1 := ENTRY _ _ s). clearbody s1.
  pose proof (getDecision_success s1) as H. destruct (eap_sm_Policy_getDecision s1) as [d s2].
  cbn [fst snd] in H. change (decision (setter decision (fun _ => d) s2)) with d.
  intros E. destruct (H E) as [Hm Hs]. eapply succeeded_selection; [|exact Hm].
  rewrite <-Hs. exact (frame selection decision _ _ s2).
Qed.

Lemma Step_justified s : decision_justified s -> decision_justified (EAP_Step s).
Proof.
  intros H. destruct (Step_outcome s) as [(_ & [Ho|[s1 Ho]] & _)|Ho].
  - intros E. by destruct (Ho E).
  - rewrite Ho. apply SELECT_ACTION_justified.
  - rewrite Ho. exact H.
Qed.

(** ** Replay of ERP messages *)

Lemma get_key_insert keys name i k k' :
  keys !! i = Some k -> keyname_nai k' = keyname_nai k ->
  ieee802_1x_erp_get_key (<[i := k']> keys) name = ieee802_1x_erp_get_key keys name.
Proof.
  revert i. induction keys as [|x keys IH]; intros i Hi Hn; [done|].
  destruct i as [|i]; simpl in *.
  - injection Hi as ->. by rewrite Hn.
  - by rewrite (IH i).
Qed.

(** The key found under [nai] has seen [seq]. *)
Definition erp_seen (nai : list Z) (seq : Z) (s : sm) : Prop :=
  exists i k, eap_erp_get_key nai s = Some i /\ erp_keys (env s) !! i = Some k /\
    recv_seq k <> 2 ^ 32 - 1 /\ seq <= recv_seq k.

Lemma erp_seen_rejected h q tl en st nai s :
  erp_seen nai q s -> initiate_server h q tl en st nai s = setter ignore (fun _ => true) s.
Proof.
  intros (i & k & Hg & Hk & Hn & Hq). unfold initiate_server. rewrite Hg, Hk.
  rewrite (proj2 (Z.eqb_neq _ _) Hn), (proj2 (Z.leb_le _ _) Hq). reflexivity.
Qed.

Lemma raise_keys f s : erp_keys (env (raise f s)) = erp_keys (env s).
Proof. reflexivity. Qed.

Definition stored (s : sm) : list eap_server_erp_key := erp_keys (env s).

Lemma stored_if g s : stored (setter eap_if g s) = stored s.
Proof. exact (frame stored eap_if _ g s). Qed.

Lemma erp_finish_keys k id fl q nai s :
  stored (erp_send_finish_reauth k id fl q nai s) = stored s.
Proof.
  unfold erp_send_finish_reauth, or_fault.
  destruct (erp_finish_msg s k id fl q nai) as [[msg|]|]; [|done|apply raise_keys].
  unfold erp_finish_result. open_cmds. destruct k as [k|].
  2:{ by frames stored. }
  destruct (negb _); [by frames stored|]. cmd_cases; [|by frames stored].
  destruct (hmac_sha256_kdf _ _ _ _); by frames stored.
Qed.

Lemma stored_update i k s : stored (update_erp_key i k s) = <[i := k]> (stored s).
Proof. reflexivity. Qed.

(** Success is reported only after the sequence number has been recorded. *)
Lemma erp_success_seen h q tl en st nai s :
  0 <= q < 2 ^ 16 -> success s = false -> success (initiate_server h q tl en st nai s) = true ->
  erp_seen nai q (initiate_server h q tl en st nai s).
Proof.
  intros Hq Hs. unfold erp_seen, initiate_server.
  destruct (eap_erp_get_key nai s) as [i|] eqn:Hg.
  2:{ intros H. pose proof (erp_failed_quiet (hdr_identifier h) q nai s s (calm_refl s)) as Hf.
      rewrite (Hf H) in Hs. discriminate. }
  destruct (erp_keys (env s) !! i) as [k|] eqn:Hk; [|intros H; exfalso; rewrite (frame success ignore _ _ s) in H; congruence].
  destruct (negb _ && _); [intros H; exfalso; rewrite (frame success ignore _ _ s) in H; congruence|].
  destruct (erp_check_tag h st en k) as [[n' k']|] eqn:Et;
    [|intros H; exfalso; rewrite (frame success ignore _ _ s) in H; congruence].
  pose proof (check_tag_key h st en k n' k' Et) as (_ & _ & Hname).
  assert (Hs1 : success (update_erp_key i k' s) = false) by (by rewrite <-Hs).
  assert (Hk1 : stored (update_erp_key i k' s) = <[i := k']> (erp_keys (env s))) by reflexivity.
  set (s1 := update_erp_key i k' s) in *. clearbody s1.
  destruct (erp_parse_tlvs _ _ _ _) as [[ret t]|].
  2:{ intros H. pose proof (raise_quiet OutOfBounds s1 s1 (calm_refl s1)) as Hf.
      rewrite (Hf H) in Hs1. discriminate. }
  destruct (ret <? 0); [intros H; exfalso; rewrite (frame success ignore _ _ s1) in H; congruence|].
  intros _. exists i, (set_recv_seq q k').
  set (s2 := erp_send_finish_reauth _ _ _ _ _ _).
  assert (Hk2 : erp_keys (env s2) = <[i := set_recv_seq q k']> (erp_keys (env s))).
  { unfold s2. change (erp_keys (env ?x)) with (stored x). rewrite erp_finish_keys, stored_update, Hk1.
    apply list_insert_insert_eq. }
  clearbody s2. clear s1 Hs1 Hk1.
  revert Hg. unfold eap_erp_get_key. destruct erp_callbacks; [|discriminate]. rewrite Hk2. intros Hg.
  split; [|split; [|split; cbn; lia]].
  - rewrite <-Hg. apply (get_key_insert _ _ _ k); [exact Hk|exact Hname].
  - apply list_lookup_insert_eq. eapply lookup_lt_Some. exact Hk.
Qed.

End eap.
