(* ===== verification/EapMethods.v ===== *)
(** * Two EAP methods and their registry (src/src/eap_server)

    [Identity] (eap_server_identity.c) and [GTC] (eap_server_gtc.c, in a build
    without EAP-FAST, as the default configuration is) implement the method
    interface of EapServer.v, and keep the promises EapControl.v and
    EapSafety.v ask of a method. *)

From Stdlib Require Import String.
From S2P Require Import Prelude.
From S2P Require Import Wpabuf.
From S2P Require Import Common.
From S2P Require Import EapCommon.
From S2P Require Import EapServer.
From S2P Require Import EapControl.
From S2P Require Import EapSafety.

(** ** The registry (eap_server_methods.c) *)

Inductive eap_method := Identity | Gtc.

(** The [state] of both methods. *)
Inductive progress := CONTINUE | SUCCESS | FAILURE.

#[global] Instance progress_eq_dec : EqDecision progress.
Proof. solve_decision. Defined.

(** [struct eap_identity_data] and [struct eap_gtc_data]. *)
Inductive method_data :=
  | IdentityData (state : progress) (pick_up : bool)
  | GtcData (state : progress).

Definition sm := eap_sm eap_method method_data.

Definition data_state (p : method_data) : progress :=
  match p with IdentityData st _ => st | GtcData st => st end.

Section methods.
Context `{CB : !EapolCallbacks}.

(** ** Identity *)

Definition eap_identity_init (s : sm) : option method_data * sm :=
  ((if oom (env s) then None else Some (IdentityData CONTINUE false)), s).

Definition eap_identity_initPickUp (s : sm) : option method_data * sm :=
  match eap_identity_init s with
  | (Some (IdentityData st _), s) => (Some (IdentityData st true), s)
  | r => r
  end.

Definition eap_identity_buildReq (p : method_data) (id : Z) (s : sm)
    : option wpabuf * method_data * sm :=
  let text := default None get_eap_req_id_text in
  let len := match text with Some t => zlen t | None => 0 end in
  match eap_msg_alloc (oom (env s)) EAP_VENDOR_IETF EAP_TYPE_IDENTITY len EAP_CODE_REQUEST id with
  | Some (Some req) =>
      match wpabuf_put_ptr req text with
      | Some req => (Some req, p, s)
      | None => (None, p, s)
      end
  | _ =>
      let pick := match p with IdentityData _ k => k | _ => false end in
      (None, IdentityData FAILURE pick, s)
  end.

(** [eap_identity_check]: is the frame to be ignored? *)
Definition eap_identity_check (resp : option wpabuf) : bool :=
  match eap_hdr_validate EAP_VENDOR_IETF EAP_TYPE_IDENTITY resp with
  | Some (Some _) => false
  | _ => true
  end.

(** The part of [eap_identity_process] after the pick-up check. *)
Definition identity_store (p : method_data) (resp : option wpabuf) (s : sm)
    : method_data * sm :=
  match eap_hdr_validate EAP_VENDOR_IETF EAP_TYPE_IDENTITY resp, resp with
  | Some (Some (pos, len)), Some b =>
      let s := if non_null (identity s) then setter update_user (fun _ => true) s else s in
      if oom (env s) then (IdentityData FAILURE false, setter identity (fun _ => None) s)
      else
        (IdentityData SUCCESS false,
         (identity ::= Some (slice (wpabuf_head b) pos len) ;; identity_len ::= len)%cmd s)
  | _, _ => (p, s)
  end.

Definition eap_identity_process (p : method_data) (resp : option wpabuf) (s : sm)
    : method_data * sm :=
  match p with
  | IdentityData st true =>
      if eap_identity_check resp then (IdentityData FAILURE true, s)
      else identity_store (IdentityData st false) resp s
  | _ => identity_store p resp s
  end.

(** ** Generic Token Card *)

Definition eap_gtc_init (s : sm) : option method_data * sm :=
  ((if oom (env s) then None else Some (GtcData CONTINUE)), s).

Definition eap_gtc_buildReq (p : method_data) (id : Z) (s : sm)
    : option wpabuf * method_data * sm :=
  let msg := chars "Password" in
  match eap_msg_alloc (oom (env s)) EAP_VENDOR_IETF EAP_TYPE_GTC (zlen msg) EAP_CODE_REQUEST id with
  | Some (Some req) =>
      match wpabuf_put_data req msg with
      | Some req => (Some req, GtcData CONTINUE, s)
      | None => (None, p, s)
      end
  | _ => (None, GtcData FAILURE, s)
  end.

Definition eap_gtc_check (resp : option wpabuf) : bool :=
  match eap_hdr_validate EAP_VENDOR_IETF EAP_TYPE_GTC resp with
  | Some (Some (_, len)) => len <? 1
  | _ => true
  end.

Definition eap_gtc_process (p : method_data) (resp : option wpabuf) (s : sm)
    : method_data * sm :=
  match eap_hdr_validate EAP_VENDOR_IETF EAP_TYPE_GTC resp, resp with
  | Some (Some (pos, rlen)), Some b =>
      if rlen <? 1 then (p, s)
      else
        match user s with
        | Some u =>
            match password u with
            | Some pw =>
                if negb (password_hash u =? 0) then (GtcData FAILURE, s)
                else if negb (rlen =? password_len u) ||
                        negb (bool_decide (slice (wpabuf_head b) pos rlen =
                                           take (Z.to_nat rlen) pw))
                then (GtcData FAILURE, s)
                else (GtcData SUCCESS, s)
            | None => (GtcData FAILURE, s)
            end
        | None => (GtcData FAILURE, s)
        end
  | _, _ => (p, s)
  end.

(** [isDone] and [isSuccess] of both methods. *)
Definition method_isDone (p : method_data) : bool :=
  negb (bool_decide (data_state p = CONTINUE)).
Definition method_isSuccess (p : method_data) : bool :=
  bool_decide (data_state p = SUCCESS).

(** The function tables of [eap_server_identity_register] and
    [eap_server_gtc_register]. *)
Definition builtin_methods : EapMethods eap_method method_data := {|
  registered := [Identity; Gtc];
  m_vendor _ := EAP_VENDOR_IETF;
  m_method e := match e with Identity => EAP_TYPE_IDENTITY | Gtc => EAP_TYPE_GTC end;
  m_init e := match e with Identity => eap_identity_init | Gtc => eap_gtc_init end;
  m_initPickUp e := match e with Identity => Some eap_identity_initPickUp | Gtc => None end;
  m_reset _ _ s := s;
  m_buildReq e := match e with Identity => eap_identity_buildReq | Gtc => eap_gtc_buildReq end;
  m_getTimeout _ := None;
  m_check e :=
    match e with
    | Identity => Some (fun _ r _ => eap_identity_check r)
    | Gtc => Some (fun _ r _ => eap_gtc_check r)
    end;
  m_process e := match e with Identity => eap_identity_process | Gtc => eap_gtc_process end;
  m_isDone _ p _ := method_isDone p;
  m_getKey _ := None;
  m_isSuccess _ p _ := method_isSuccess p;
  m_get_emsk _ := None;
  m_getSessionId _ := None
|}.
#[global] Existing Instance builtin_methods.

(** ** The promises of the interface *)

Lemma step_refl (s : sm) : method_step s s.
Proof. by split. Qed.

Lemma init_same e (s : sm) : snd (m_init e s) = s.
Proof. by destruct e. Qed.

Lemma pick_up_same e f (s : sm) : m_initPickUp e = Some f -> snd (f s) = s.
Proof.
  destruct e; simpl; intros [= <-]. unfold eap_identity_initPickUp, eap_identity_init.
  by destruct (oom (env s)).
Qed.

Lemma buildReq_same e p id (s : sm) : snd (m_buildReq e p id s) = s.
Proof.
  destruct e; simpl; unfold eap_identity_buildReq, eap_gtc_buildReq; repeat case_match; done.
Qed.

Lemma identity_store_step p r (s : sm) :
  method_step s (snd (identity_store p r s)) /\
  user_list (snd (identity_store p r s)) = user_list s.
Proof.
  unfold identity_store. destruct (eap_hdr_validate _ _ r) as [[[pos len]|]|];
    [|split; [apply step_refl|done]..]. destruct r as [b|]; [|split; [apply step_refl|done]].
  destruct (non_null (identity s)), (oom _); cbn [snd]; open_cmds;
    (split; [split; [reflexivity|intros H; exact H]|reflexivity]).
Qed.

Lemma process_step' e p r (s : sm) :
  method_step s (snd (m_process e p r s)) /\ user_list (snd (m_process e p r s)) = user_list s.
Proof.
  destruct e; cbn [m_process builtin_methods].
  - unfold eap_identity_process. destruct p as [st [|]|].
    + destruct (eap_identity_check r); [split; [apply step_refl|done]|apply identity_store_step].
    + apply identity_store_step.
    + apply identity_store_step.
  - unfold eap_gtc_process. destruct (eap_hdr_validate _ _ r) as [[[pos len]|]|];
      [|split; [apply step_refl|done]..].
    repeat case_match; (split; [apply step_refl|done]).
Qed.

#[global] Instance builtin_laws : EapMethodLaws.
Proof.
  split.
  - intros e s. rewrite init_same. apply step_refl.
  - intros e f s H. rewrite (pick_up_same e f s H). apply step_refl.
  - intros e p s. apply step_refl.
  - intros e p id s. rewrite buildReq_same. apply step_refl.
  - intros e p r s. apply process_step'.
Defined.

#[global] Instance builtin_start : EapMethodStart.
Proof.
  split.
  - intros e s _ _ Ho. destruct e; simpl; unfold eap_identity_init, eap_gtc_init; by rewrite Ho.
  - reflexivity.
  - intros e s _. by rewrite init_same.
  - done.
Defined.

(** The user database must hand out method arrays of the right size. *)
Lemma builtin_user :
  (forall f i n u, get_eap_user = Some f -> f i n = Some u -> List.length (methods u) = 8%nat) ->
  EapMethodUser.
Proof.
  intros Hu. split.
  - intros e s. by rewrite init_same.
  - intros e f s H. by rewrite (pick_up_same e f s H).
  - done.
  - intros e p id s. by rewrite buildReq_same.
  - intros e p r s. by rewrite (proj2 (process_step' e p r s)).
  - exact Hu.
Defined.
End methods.
