(* ===== verification/EapProperties.v ===== *)
(** * The EAP authenticator: its properties

    Executions of an authenticator with the rest of the program around it
    ([eap_run]), and the properties of EapServer.v in them, each with a
    witness on the methods of EapMethods.v. *)

From Stdlib Require Import String.
From S2P Require Import Prelude.
From S2P Require Import Wpabuf.
From S2P Require Import Common.
From S2P Require Import EapCommon.
From S2P Require Import EapServer.
From S2P Require Import EapControl.
From S2P Require Import EapSafety.
From S2P Require Import EapAuthority.
From S2P Require Import EapMethods.

(** ** Executions *)

(** What happens to the machine between two runs: the lower layer or the
    authentication server writes the shared variables, a method's pending work
    completes, a cached key is used, the identity is cleared. *)
Inductive eap_event :=
  | EvStep
  | EvInterface (i : eap_eapol_interface)
  | EvPendingCb
  | EvNotifyCached
  | EvClearIdentity.

(** Received packets consist of octets. *)
Definition event_ok (e : eap_event) : Prop :=
  match e with EvInterface i => resp_ok (eapRespData i) | _ => True end.

(** Enough iterations for any run of [eap_server_sm_step]. *)
Definition step_fuel : nat := 15.

Section runs.
Context {M P : Type} `{EM : !EapMethods M P, CB : !EapolCallbacks, EC : !ErpCrypto}.
Implicit Types s : eap_sm M P.

Definition eap_event_run (e : eap_event) (s : eap_sm M P) : option (eap_sm M P) :=
  match e with
  | EvStep => option_map fst (eap_server_sm_step step_fuel s)
  | EvInterface i => Some (setter eap_if (fun _ => i) s)
  | EvPendingCb => Some (eap_sm_pending_cb s)
  | EvNotifyCached => Some (eap_sm_notify_cached s)
  | EvClearIdentity => Some (eap_server_clear_identity s)
  end.

Fixpoint eap_run (evs : list eap_event) (s : eap_sm M P) : option (eap_sm M P) :=
  match evs with
  | [] => Some s
  | e :: evs => match eap_event_run e s with Some s => eap_run evs s | None => None end
  end.

Context `{ML : !EapMethodLaws}.

Lemma rest_state s :
  at_rest s -> match EAP_state s with EAP_INITIALIZE => False | _ => True end.
Proof.
  unfold at_rest. destruct (negb _); [intros ->; exact I|]. intros [_ H].
  destruct (50 <? num_rounds s).
  - destruct H as [_ H]. destruct (EAP_state s); try exact I. exact (H eq_refl).
  - destruct (EAP_state s); try exact I. exact H.
Qed.

Lemma rest_not_initialize s : at_rest s -> EAP_state s <> EAP_INITIALIZE.
Proof. intros H E. apply rest_state in H. rewrite E in H. exact H. Qed.

Lemma sm_step_at_rest n s q :
  no_stale_restart s -> eap_server_sm_step n s = Some q -> at_rest (fst q).
Proof.
  unfold eap_server_sm_step. set (p := (s, false)). intros Hs. apply sm_step_rest. exact Hs.
Qed.

Lemma sm_step_result n s :
  (15 <= n)%nat -> no_stale_restart s ->
  exists s' b, eap_server_sm_step n s = Some (s', b) /\ at_rest s'.
Proof.
  intros Hn Hs. destruct (sm_step_ends s n Hn) as [q H].
  pose proof (sm_step_at_rest n s q Hs H) as Hr. destruct q as [s' b]. by exists s', b.
Qed.

Lemma sm_step_keeps_inv `{MU : !EapMethodUser, MS : !EapMethodStart} n s q :
  eap_inv s -> eap_get_erp_send_reauth_start s = false -> eap_server_sm_step n s = Some q ->
  eap_inv (fst q).
Proof. unfold eap_server_sm_step. set (p := (s, false)). intros Hs. apply sm_step_inv. exact Hs. Qed.

Context `{MU : !EapMethodUser, MS : !EapMethodStart}.

Definition run_inv s : Prop := eap_inv s /\ EAP_state s <> EAP_INITIALIZE.

Lemma event_inv e s :
  run_inv s -> eap_get_erp_send_reauth_start s = false -> event_ok e ->
  exists s', eap_event_run e s = Some s' /\ run_inv s'.
Proof.
  intros [[H Hn] Hi] Hr He. destruct e as [|i| | |]; cbn [eap_event_run].
  - destruct (sm_step_result step_fuel s) as (s' & b & Hs & Hrest); [exact (le_n _)|by intros E|].
    rewrite Hs. exists s'. split; [reflexivity|]. split; [|by apply rest_not_initialize].
    exact (sm_step_keeps_inv step_fuel s (s', b) (conj H Hn) Hr Hs).
  - eexists. split; [reflexivity|]. split; [|exact Hi]. split; [|exact Hn].
    apply safe_calm in H as (Hp & Hf & Ho & Hu & _). apply safe_calm.
    split; [exact Hp|]. split; [exact Hf|]. split; [exact Ho|]. split; [exact Hu|exact He].
  - eexists. split; [reflexivity|]. unfold eap_sm_pending_cb. open_cmds. unfold when.
    destruct (pending_is METHOD_PENDING_WAIT s); [|by split].
    split; [|exact Hi]. split; [|exact Hn]. eapply safe_eq; [|exact H].
    exact (frame safety_of method_pending _ _ s).
  - eexists. split; [reflexivity|]. split; [|discriminate]. split; [|exact I].
    eapply safe_eq; [|exact H]. exact (frame safety_of EAP_state _ _ s).
  - eexists. split; [reflexivity|]. split; [|exact Hi]. split; [|exact Hn].
    eapply safe_eq; [|exact H]. exact (frame safety_of identity _ _ s).
Qed.

Lemma run_inv_all evs s :
  run_inv s -> eap_get_erp_send_reauth_start s = false -> Forall event_ok evs ->
  exists s', eap_run evs s = Some s' /\ run_inv s'.
Proof.
  revert s. induction evs as [|e evs IH]; intros s H Hr He; [by exists s|].
  apply Forall_cons in He as [He Hes]. cbn [eap_run].
  destruct (event_inv e s H Hr He) as (s1 & -> & H1). by apply IH.
Qed.

Lemma init_inv conf e s :
  eap_server_sm_init conf e = Some s -> fault e = None -> run_inv s.
Proof.
  unfold eap_server_sm_init. intros H Hf. destruct (oom e) eqn:Eo; [discriminate|].
  injection H as <-. split; [|discriminate]. split; [|exact I]. apply safe_calm.
  split; [done|]. split; [exact Hf|]. split; [exact Eo|].
  split; [|intros b; discriminate]. split; [intros v; discriminate|]. simpl. lia.
Qed.
End runs.

(** ** A small authenticator for the witnesses

    One user with a GTC password, no random generator to speak of, and hash
    functions that are no good for anything else. *)

Definition demo_user : eap_user :=
  mk_eap_user ((EAP_VENDOR_IETF, EAP_TYPE_GTC) :: replicate 7 no_method)
    (Some (chars "secret")) 6 0 0 0 false false 0.

Definition demo_get_user (ident : list Z) (_ : Z) : option eap_user :=
  if bool_decide (ident = chars "user") then Some demo_user else None.

Definition demo_callbacks (reauth : bool) : EapolCallbacks :=
  Build_EapolCallbacks (Some demo_get_user) None (Some reauth) (Some (Some (chars "example.com")))
    true (fun g => (g, g + 1)).

Definition demo_hash (key msg : list Z) (len : Z) : list Z :=
  map (fun i => u8 (foldr Z.add 0 key + foldr (fun x a => x + 3 * a) 7 msg + Z.of_nat i))
    (List.seq 0 (Z.to_nat len)).

#[export] Instance demo_crypto : ErpCrypto := {
  hmac_sha256 key msg := Some (demo_hash key msg 32);
  hmac_sha256_kdf key label sd len := Some (demo_hash key (label ++ sd) len)
}.

Definition demo_params : eap_params :=
  mk_eap_params 0 0 0 0 None None 0 None 0 0 0 0 0 0 None None 0 0 None 0 0.
Definition demo_conf : eap_config := mk_eap_config demo_params false true true None.
Definition demo_env : eap_env := mk_eap_env [] 77 false None.
Definition demo_sm : sm :=
  default (mk_eap_sm eap_method method_data EAP_DISABLED 5 eap_if_zero EAP_TYPE_NONE 0 METHOD_PROPOSED
      0 None 0 false false 0 0 0 0 false DECISION_SUCCESS None false None None 0 0 None 0 false false
      true 0 METHOD_PENDING_NONE false [] false false true demo_params demo_env)
    (eap_server_sm_init demo_conf demo_env).

(** The interface of a port that is up, with a response waiting or none. *)
Definition demo_if (resp : option (list Z)) : eap_eapol_interface :=
  (eapRespData ::= option_map (fun d => mk_wpabuf (zlen d) d 0) resp ;;
   eapResp ::= non_null resp ;; portEnabled ::= true ;; retransWhile ::= 3)%cmd eap_if_zero.

(** An EAP-Response of one type octet and its data. *)
Definition demo_response (id type : Z) (d : list Z) : list Z :=
  eap_hdr_bytes EAP_CODE_RESPONSE id (5 + zlen d) ++ [type] ++ d.

Definition demo_methods reauth : EapMethods eap_method method_data :=
  @builtin_methods (demo_callbacks reauth).
Definition demo_laws reauth : EapMethodLaws (EM := demo_methods reauth) :=
  @builtin_laws (demo_callbacks reauth).
Definition demo_start reauth : EapMethodStart (EM := demo_methods reauth) :=
  @builtin_start (demo_callbacks reauth).

Lemma demo_methods_user reauth :
  EapMethodUser (EM := demo_methods reauth) (CB := demo_callbacks reauth).
Proof.
  apply builtin_user. intros f i n u [= <-]. unfold demo_get_user.
  destruct (bool_decide _); [|discriminate]. by intros [= <-].
Defined.

(** Runs with and without [erp_send_reauth_start]. *)
Definition demo_run (reauth : bool) (evs : list eap_event) : option sm :=
  eap_run (EM := demo_methods reauth) (CB := demo_callbacks reauth) evs demo_sm.

(** The peer answers the identity request and then gives its password. *)
Definition demo_start_evs : list eap_event := [EvInterface (demo_if None); EvStep].
Definition demo_answer (id type : Z) (d : list Z) : list eap_event :=
  [EvInterface (demo_if (Some (demo_response id type d))); EvStep].
Definition demo_login_evs : list eap_event :=
  demo_start_evs ++ demo_answer 77 EAP_TYPE_IDENTITY (chars "user") ++
  demo_answer 78 EAP_TYPE_GTC (chars "secret").

(** ** Safety and termination *)

Section properties.
Context {M P : Type} `{EM : !EapMethods M P, CB : !EapolCallbacks, EC : !ErpCrypto}.
Context `{ML : !EapMethodLaws, MU : !EapMethodUser, MS : !EapMethodStart}.
Implicit Types s : eap_sm M P.



(** The states between two iterations of [eap_server_sm_step], in any
    execution. *)
Inductive eap_reachable : eap_sm M P -> Prop :=
  | reachable_init conf e s : eap_server_sm_init conf e = Some s -> eap_reachable s
  | reachable_step s :
      eap_reachable s -> eap_reachable (EAP_Step (setter changed (fun _ => false) s))
  | reachable_event e s s' :
      eap_reachable s -> e <> EvStep -> eap_event_run e s = Some s' -> eap_reachable s'.

Lemma event_justified e s s' :
  e <> EvStep -> eap_event_run e s = Some s' -> decision_justified s -> decision_justified s'.
Proof.
  intros He H Hj.
  assert (Hsel : forall s', selection s' = selection s -> EAP_state s' = EAP_state s ->
    decision s' = decision s -> decision_justified s').
  { intros s0 H1 H2 H3 H4 H5. apply (succeeded_selection s s0 H1). apply Hj; congruence. }
  destruct e as [|i| | |]; cbn [eap_event_run] in H; [by destruct He|injection H as <-..].
  - by apply Hsel.
  - unfold eap_sm_pending_cb. open_cmds. unfold when. destruct (pending_is _ s); [by apply Hsel|exact Hj].
  - intros E. discriminate E.
  - by apply Hsel.
Qed.

Lemma reachable_justified s : eap_reachable s -> decision_justified s.
Proof.
  induction 1 as [conf e s H|s _ IH|e s s' _ IH He H].
  - revert H. unfold eap_server_sm_init. destruct (oom e); [discriminate|]. intros [= <-] E. discriminate E.
  - apply Step_justified. intros E1 E2.
    apply (succeeded_selection s); [exact (frame selection changed _ _ s)|]. exact (IH E1 E2).
  - by eapply event_justified.
Qed.

(** C8: Success is reported only when the selected EAP method (never
    Identity) has succeeded, when the authentication server has accepted the
    peer and not rejected it, or when the server holds a Re-auth message with
    a fresh sequence number and the HMAC of a key it has stored. *)
Theorem eap_success_authority s :
  eap_reachable s -> eapSuccess (eap_if s) = false -> eapSuccess (eap_if (EAP_Step s)) = true ->
  (EAP_state s = EAP_SELECT_ACTION /\ method_succeeded s) \/
  (EAP_state s = EAP_AAA_IDLE /\ aaaSuccess (eap_if s) = true /\ aaaFail (eap_if s) = false) \/
  (eap_server s = true /\ rxInitiate s = true /\ erp_authentic s).
Proof.
  intros Hr H0 H1. destruct (Step_outcome s) as [[[Hq|Ha] _]|Ho].
  - pose proof (Hq H1) as E. unfold success in E. rewrite E in H0. discriminate.
  - destruct Ha as [[E D]|Ha]; [left|right; exact Ha]. split; [exact E|].
    exact (reachable_justified s Hr E D).
  - rewrite Ho, H0 in H1. discriminate.
Qed.


(** ** Policy *)

(** C32: A NAK removes exactly the untried methods the peer did not list and
    keeps the others, tried ones included, in their order. *)
Theorem eap_nak_exact l u s :
  user s = Some u -> length (methods u) = 8%nat -> 0 <= user_eap_method_index s <= 8 ->
  eap_sm_process_nak l s =
    setter user (fun _ => Some (set_methods u
      (nak_result l (Z.to_nat (user_eap_method_index s)) (methods u)))) s.
Proof.
  intros Hu Hl Hi. unfold eap_sm_process_nak. rewrite Hu, nak_loop_spec; [done|exact Hl|lia].
Qed.

(** The next request never reuses the identifier of the last one the
    machine sent when it starts a conversation, and follows on from the
    current one otherwise. *)
Theorem eap_nextId_fresh s id :
  -1 <= id < 256 -> 0 <= lastId s < 256 ->
  0 <= fst (eap_sm_nextId s id) < 256 /\
  (id = -1 -> fst (eap_sm_nextId s id) <> lastId s) /\
  (id <> -1 -> fst (eap_sm_nextId s id) = (id + 1) mod 256).
Proof.
  intros Hid Hl. unfold eap_sm_nextId. rewrite !land_ff. destruct (id <? 0) eqn:E; bool_hyps.
  - destruct (rand _) as [r g]. rewrite !land_ff. pose proof (Z.mod_pos_bound r 256 eq_refl).
    destruct (r mod 256 =? lastId s) eqn:E2; bool_hyps; cbn [negb fst].
    + pose proof (Z.mod_pos_bound (r mod 256 + 1) 256 eq_refl).
      split; [lia|]. split; [|lia]. intros _. rewrite E2. intros H2.
      destruct (Z.eq_dec (lastId s) 255) as [E3|]; [rewrite E3 in H2; discriminate|].
      rewrite Z.mod_small in H2; lia.
    + split; [lia|]. split; [intros _; exact E2|lia].
  - cbn [fst]. pose proof (Z.mod_pos_bound (id + 1) 256 eq_refl). split; [lia|]. split; [lia|done].
Qed.

Lemma backoff_exact n r : 1 <= r <= 20 -> backoff n r = Z.min 20 (r * 2 ^ Z.of_nat n).
Proof.
  revert r. induction n as [|n IH]; intros r Hr; [cbn [backoff]; change (2 ^ Z.of_nat 0) with 1; lia|].
  cbn [backoff]. assert (Hi : i32 (r * 2) = r * 2) by (unfold i32; rewrite Z.mod_small; lia).
  rewrite Hi, Nat2Z.inj_succ, Z.pow_succ_r by lia.
  assert (1 <= 2 ^ Z.of_nat n) by (pose proof (Z.pow_pos_nonneg 2 (Z.of_nat n)); lia).
  destruct (20 <=? r * 2) eqn:E; bool_hyps; [nia|]. rewrite IH by lia. f_equal. ring.
Qed.

(** The retransmission time is the method's own one if it has one, and
    otherwise doubles from three seconds with every retransmission, up to
    twenty. *)
Theorem eap_timeout_backoff s n t :
  0 <= n -> try_initiate_reauth s = false ->
  eap_sm_calculateTimeout s n t = if t =? 0 then Z.min 20 (3 * 2 ^ n) else t.
Proof.
  intros Hn Hr. unfold eap_sm_calculateTimeout. rewrite Hr. destruct (t =? 0); cbn [negb]; [|done].
  rewrite backoff_exact by lia. by rewrite Z2Nat.id.
Qed.

(** ** Where the machine goes wrong *)

(** Before a method has been selected, a response whose type is that of
    [currentMethod] makes the machine follow its NULL method pointer: the
    response to a Re-auth-Start message need only have type 0. *)
Theorem eap_received_null_method s :
  gated s -> EAP_state s = EAP_RECEIVED -> m s = None -> fault (env s) = None ->
  id_matches s = true -> resp_is s (currentMethod s) = true -> resp_is s EAP_TYPE_NAK = false ->
  eap_hdr_len_valid (eapRespData (eap_if s)) 1 = true ->
  fault (env (EAP_Step s)) = Some NullMethod.
Proof.
  intros G Hs Hm Hf Hid Hr Hn Hv. rewrite EAP_Step_gated by done. unfold EAP_switch.
  rewrite Hs, Hid, Hr, Hn. cbn [andb]. unfold EAP_INTEGRITY_CHECK_Enter, ENTRY, SM_ENTRY. open_cmds.
  set (s1 := setter EAP_state _ _).
  assert (H1 : eap_if s1 = eap_if s /\ m s1 = m s /\ env s1 = env s) by (by repeat split).
  clearbody s1. destruct H1 as (H1 & H2 & H3). unfold ite. rewrite H1, Hv. cbn [negb].
  unfold with_method. rewrite H2, Hm. unfold raise. open_cmds.
  change (fault (env (setter env ?g s1))) with (fault (g (env s1))). cbn beta.
  rewrite H3, Hf. reflexivity.
Qed.

(** While a method that is to be proposed waits, every run of the machine
    moves the list of methods one entry back, whoever caused the run. *)
Theorem eap_wait_moves_methods s :
  gated s -> EAP_state s = EAP_PROPOSE_METHOD -> method_pending s = METHOD_PENDING_WAIT ->
  0 <= user_eap_method_index s ->
  user_eap_method_index (EAP_Step s) = Z.max 0 (user_eap_method_index s - 1) /\
  ctl_of (EAP_Step s) = ctl_of s.
Proof.
  intros G Hs Hp Hi. rewrite EAP_Step_gated by done. unfold EAP_switch, pending_is.
  rewrite Hs, Hp. unfold when. open_cmds. cbn [bool_decide].
  rewrite bool_decide_true by done. destruct (0 <? user_eap_method_index s) eqn:E; bool_hyps.
  - split; [|reflexivity]. change (user_eap_method_index s - 1 = Z.max 0 (user_eap_method_index s - 1)). lia.
  - split; [lia|reflexivity].
Qed.

(** C35: A server that gets an EAP-Initiate message it cannot parse stays in
    INITIATE_RECEIVED: nothing is reported to the lower layer, whatever the
    interface then says, until the port goes down or a restart is requested. *)
Theorem eap_bad_initiate_stuck s :
  eap_server s = true -> num_rounds s <= 50 ->
  eap_hdr_validate EAP_VENDOR_IETF EAP_ERP_TYPE_REAUTH (eapRespData (eap_if s)) = Some None ->
  let s' := EAP_INITIATE_RECEIVED_Enter s in
  eap_if s' = eap_if s /\ ignore s' = true /\
  forall i, portEnabled i = true -> eapRestart i = false ->
    let s2 := setter eap_if (fun _ => i) s' in EAP_Step s2 = s2.
Proof.
  intros Hsv Hn Hv. cbv zeta. unfold EAP_INITIATE_RECEIVED_Enter, ENTRY, SM_ENTRY. open_cmds.
  set (s0 := when _ _ _). set (s1 := setter rxInitiate _ _).
  assert (H1 : eap_if s1 = eap_if s /\ eap_server s1 = true /\ num_rounds s1 <= 50 /\
    EAP_state s1 = EAP_INITIATE_RECEIVED).
  { unfold s1, s0, when. cbn [negb orb]. rewrite <-Hsv at 1.
    split; [by frames (@eap_if M P)|]. split; [by frames (@eap_server M P)|].
    split; [|reflexivity]. by frames (@num_rounds M P). }
  clearbody s1. clear s0. destruct H1 as (H1 & H2 & H3 & H4). rewrite H1, Hv.
  split; [exact H1|]. split; [reflexivity|]. intros i Hp Hr.
  set (s2 := setter eap_if _ _).
  assert (G : gated s2 /\ EAP_state s2 = EAP_INITIATE_RECEIVED /\ eap_server s2 = true).
  { split; [|split; [exact H4|exact H2]]. split; [exact Hr|]. split; [exact Hp|].
    exact H3. }
  clearbody s2. destruct G as (G & K1 & K2). rewrite EAP_Step_gated by done. unfold EAP_switch.
  rewrite K1, K2. reflexivity.
Qed.

End properties.

(** When the memory for its data cannot be allocated, the Identity method
    fails to start and is chosen again at once, for ever. *)
Theorem eap_identity_never_starts `{CB : !EapolCallbacks} n (s : sm) :
  oom (env s) = true -> identity s = None -> propose_loop n s = None.
Proof.
  revert s. induction n as [|n IH]; intros s Ho Hi; [done|]. rewrite propose_unfold.
  unfold eap_sm_Policy_getNextMethod. rewrite Hi. cbn [non_null negb orb].
  set (s1 := reset_method _).
  assert (H1 : oom (env s1) = true /\ identity s1 = None).
  { unfold s1, reset_method. cbn [m_reset builtin_methods]. repeat case_match; by split. }
  clearbody s1. destruct H1 as [H1 H2].
  assert (H3 : eap_server_get_eap_method EAP_VENDOR_IETF EAP_TYPE_IDENTITY = Some Identity) by reflexivity.
  cbv zeta. set (s2 := setter m _ s1).
  assert (H4 : m s2 = Some Identity /\ oom (env s2) = true /\ identity s2 = None).
  { split; [exact H3|by split]. }
  clearbody s2. destruct H4 as (H4 & H5 & H6). rewrite H4. cbn [m_init builtin_methods].
  unfold eap_identity_init. rewrite H5. cbn [non_null]. apply IH.
  - exact H5.
  - exact H6.
Qed.

(** ** Witnesses *)



(** [n] iterations of the loop of [eap_server_sm_step]. *)
Fixpoint demo_steps (n : nat) (s : sm) : sm :=
  match n with
  | O => s
  | S n => demo_steps n (EAP_Step (EM := demo_methods false) (CB := demo_callbacks false)
                           (setter changed (fun _ => false) s))
  end.

Definition demo_reachable : sm -> Prop :=
  eap_reachable (EM := demo_methods false) (CB := demo_callbacks false).

Lemma demo_steps_reachable n s : demo_reachable s -> demo_reachable (demo_steps n s).
Proof. revert s. induction n as [|n IH]; intros s H; [exact H|]. apply IH. by constructor. Qed.

Lemma demo_interface_reachable i s : demo_reachable s -> demo_reachable (setter eap_if (fun _ => i) s).
Proof. intros H. by apply (reachable_event (EvInterface i) s). Qed.

Definition demo_set (resp : option (list Z)) : sm -> sm := setter eap_if (fun _ => demo_if resp).

Definition demo_erp_key : eap_server_erp_key :=
  mk_erp_key 32 32 (demo_hash [1] [2] 32) (demo_hash [3] [4] 32) (2 ^ 32 - 1) 0 (chars "ab@example.com").
(** A Re-auth message with sequence number 5 and its tag. *)
Definition demo_reauth : list Z :=
  let body := [EAP_ERP_TYPE_REAUTH; 0] ++ WPA_PUT_BE16 5 ++
    [EAP_ERP_TLV_KEYNAME_NAI; 14] ++ chars "ab@example.com" ++ [EAP_ERP_CS_HMAC_SHA256_128] in
  let h := eap_hdr_bytes EAP_CODE_INITIATE 9 (4 + zlen body + 16) ++ body in
  h ++ take 16 (demo_hash (rIK demo_erp_key) h 32).
Definition demo_erp_sm : sm := setter env (fun _ => mk_eap_env [demo_erp_key] 77 false None) demo_sm.
Definition demo_server (s : sm) : sm :=
  initiate_server (CB := demo_callbacks false) demo_reauth 5 8 (zlen demo_reauth) 24 (chars "ab@example.com") s.

(** The machine has just decided that the peer's password is right. *)
Definition demo_decided : sm :=
  demo_steps 4 (demo_set (Some (demo_response 78 EAP_TYPE_GTC (chars "secret")))
    (demo_steps 9 (demo_set (Some (demo_response 77 EAP_TYPE_IDENTITY (chars "user")))
      (demo_steps 7 (demo_set None demo_sm))))).

Lemma eap_success_authority_witness :
  eapSuccess (eap_if demo_decided) = false /\
  ((EAP_state demo_decided = EAP_SELECT_ACTION /\
    method_succeeded (EM := demo_methods false) demo_decided) \/
   (EAP_state demo_decided = EAP_AAA_IDLE /\ aaaSuccess (eap_if demo_decided) = true /\
    aaaFail (eap_if demo_decided) = false) \/
   (eap_server demo_decided = true /\ rxInitiate demo_decided = true /\
    erp_authentic (CB := demo_callbacks false) demo_decided)).
Proof.
  split; [vm_compute; reflexivity|].
  apply (eap_success_authority (EM := demo_methods false) (CB := demo_callbacks false)
    (ML := demo_laws false)); [|vm_compute; reflexivity..].
  repeat (apply demo_steps_reachable || apply demo_interface_reachable).
  by apply (reachable_init demo_conf demo_env).
Defined.


Definition demo_picked : sm :=
  (user ::= Some (set_methods demo_user
     ((0, 13) :: (0, 25) :: (0, 6) :: (99, 1) :: replicate 4 no_method)) ;;
   user_eap_method_index ::= 1)%cmd demo_sm.

Lemma eap_nak_exact_witness :
  option_map methods (user (eap_sm_process_nak [6; 13] demo_picked)) =
    Some ((0, 13) :: (0, 6) :: replicate 6 no_method).
Proof.
  rewrite (eap_nak_exact [6; 13] (set_methods demo_user
     ((0, 13) :: (0, 25) :: (0, 6) :: (99, 1) :: replicate 4 no_method)) demo_picked);
    [vm_compute; reflexivity|reflexivity|reflexivity|].
  change (user_eap_method_index demo_picked) with 1. lia.
Defined.

Lemma eap_nextId_fresh_witness :
  fst (eap_sm_nextId (CB := demo_callbacks false) (setter lastId (fun _ => 77) demo_sm) (-1)) <> 77.
Proof.
  destruct (eap_nextId_fresh (CB := demo_callbacks false) (setter lastId (fun _ => 77) demo_sm) (-1))
    as (_ & H & _); [lia|change (0 <= 77 < 256); lia|exact (H eq_refl)].
Defined.

Lemma eap_timeout_backoff_witness : eap_sm_calculateTimeout demo_sm 2 0 = 12.
Proof. rewrite eap_timeout_backoff; [vm_compute; reflexivity|lia|reflexivity]. Defined.

(** A response of type 0 to the Re-auth-Start message, and the run it makes
    go wrong. *)
Definition demo_null_evs : list eap_event := demo_start_evs ++ demo_answer 77 EAP_TYPE_NONE [].
Definition demo_null_sm : sm :=
  (EAP_state ::= EAP_RECEIVED ;; rxResp ::= true ;; currentId ::= 77 ;; respId ::= 77 ;;
   eap_if ::= demo_if (Some (demo_response 77 EAP_TYPE_NONE [])))%cmd demo_sm.

Lemma eap_received_null_method_witness :
  fault (env (EAP_Step (EM := demo_methods true) (CB := demo_callbacks true) demo_null_sm)) =
    Some NullMethod /\
  option_map (fun s => fault (env s)) (demo_run true demo_null_evs) = Some (Some NullMethod).
Proof.
  split; [|vm_compute; reflexivity].
  apply (eap_received_null_method (EM := demo_methods true) (CB := demo_callbacks true));
    [|vm_compute; reflexivity..]. split; [reflexivity|]. split; [reflexivity|].
  change (0 <= 50). lia.
Defined.

Definition demo_waiting : sm :=
  (EAP_state ::= EAP_PROPOSE_METHOD ;; method_pending ::= METHOD_PENDING_WAIT ;;
   user_eap_method_index ::= 3 ;; eap_if ::= demo_if None)%cmd demo_sm.

Lemma eap_wait_moves_methods_witness :
  user_eap_method_index (EAP_Step (EM := demo_methods false) (CB := demo_callbacks false)
    demo_waiting) = 2.
Proof.
  apply (eap_wait_moves_methods (EM := demo_methods false) (CB := demo_callbacks false) demo_waiting);
    [|reflexivity|reflexivity|].
  - split; [reflexivity|]. split; [reflexivity|]. change (0 <= 50). lia.
  - change (0 <= 3). lia.
Defined.

Definition demo_garbled : sm := setter eap_if (fun _ => demo_if (Some [5; 9; 0; 4])) demo_sm.

Lemma eap_bad_initiate_stuck_witness :
  let s' := EAP_INITIATE_RECEIVED_Enter (CB := demo_callbacks false) demo_garbled in
  ignore s' = true /\ eapNoReq (eap_if s') = false /\
  EAP_Step (EM := demo_methods false) (CB := demo_callbacks false)
    (setter eap_if (fun _ => demo_if None) s') = setter eap_if (fun _ => demo_if None) s'.
Proof.
  destruct (eap_bad_initiate_stuck (EM := demo_methods false) (CB := demo_callbacks false) demo_garbled)
    as (_ & Hi & Hs); [reflexivity|change (0 <= 50); lia|vm_compute; reflexivity|].
  split; [exact Hi|]. split; [vm_compute; reflexivity|]. by apply Hs.
Defined.

Lemma eap_identity_never_starts_witness :
  propose_loop (EM := demo_methods false) 1000
    (setter env (fun e => mk_eap_env (erp_keys e) (rng e) true (fault e)) demo_sm) = None.
Proof. by apply (eap_identity_never_starts (CB := demo_callbacks false)). Defined.
