(* ===== verification/Aes.v ===== *)
(** * AES modes of operation (src/src/crypto)

    The block cipher is the interface [AesCipher]; on top of it are modelled
    CMAC (aes-omac1.c), key wrapping (aes-wrap.c, aes-unwrap.c), the CTR and
    CBC modes (aes-ctr.c, aes-cbc.c) and SIV (aes-siv.c).  A block is a list
    of 16 octets.  Buffers changed in place are returned. *)

From S2P Require Import Prelude.
From S2P Require Import Wpabuf.

(** [aes_encrypt_init], [aes_decrypt_init]: the function of the block under
    the key, or [None] for a NULL context. *)
Class AesCipher := {
  aes_encrypt : list Z -> option (list Z -> list Z);
  aes_decrypt : list Z -> option (list Z -> list Z)
}.

Definition is_block (b : list Z) : Prop := length b = 16%nat /\ bytes b.

(** What the modes rely on: encryption permutes the blocks and decryption is
    its inverse. *)
Class AesLaws `{AC : !AesCipher} := {
  encrypt_block key enc b : aes_encrypt key = Some enc -> is_block b -> is_block (enc b);
  aes_keys key : aes_encrypt key = None <-> aes_decrypt key = None;
  decrypt_encrypt key enc dec b :
    aes_encrypt key = Some enc -> aes_decrypt key = Some dec -> is_block b -> dec (enc b) = b;
  encrypt_decrypt key enc dec b :
    aes_encrypt key = Some enc -> aes_decrypt key = Some dec -> is_block b ->
    is_block (dec b) /\ enc (dec b) = b
}.

(** ** Octets *)

(** [a[i] ^= b[i]] for every octet of [b]. *)
Fixpoint xor_bytes (a b : list Z) : list Z :=
  match a, b with
  | x :: a, y :: b => Z.lxor x y :: xor_bytes a b
  | a, _ => a
  end.

Lemma xor_bytes_nil a : xor_bytes a [] = a.
Proof. by destruct a. Qed.

Lemma xor_bytes_length a b : length (xor_bytes a b) = length a.
Proof. revert b. induction a as [|x a IH]; intros [|y b]; simpl; auto. Qed.

Lemma xor_bytes_zeros a n : xor_bytes a (replicate n 0) = a.
Proof.
  revert n. induction a as [|x a IH]; intros [|n]; simpl; [done..|]. by rewrite Z.lxor_0_r, IH.
Qed.

Lemma xor_bytes_twice a b : xor_bytes (xor_bytes a b) b = a.
Proof.
  revert b. induction a as [|x a IH]; intros [|y b]; simpl; [done..|]. rewrite IH. by rewrite Z.lxor_assoc, Z.lxor_nilpotent, Z.lxor_0_r.
Qed.

Lemma xor_bytes_app a b c :
  xor_bytes a (b ++ c) = xor_bytes (take (length b) a) b ++ xor_bytes (drop (length b) a) c.
Proof.
  revert b. induction a as [|x a IH]; intros b.
  - rewrite take_nil, drop_nil. by destruct b, c.
  - destruct b as [|y b]; simpl; [done|]. by rewrite IH.
Qed.

Lemma lxor_byte x y : 0 <= x < 256 -> 0 <= y < 256 -> 0 <= Z.lxor x y < 256.
Proof.
  intros Hx Hy. assert (Hn : 0 <= Z.lxor x y) by (apply Z.lxor_nonneg; lia). split; [exact Hn|].
  destruct (Z.eq_dec (Z.lxor x y) 0) as [->|Hne]; [lia|]. change 256 with (2 ^ 8).
  apply Z.log2_lt_pow2; [lia|].
  assert (Hl : forall z, 0 <= z < 256 -> Z.log2 z < 8).
  { intros z Hz. destruct (Z.eq_dec z 0) as [->|]; [done|]. apply Z.log2_lt_pow2; lia. }
  eapply Z.le_lt_trans; [apply Z.log2_lxor; lia|]. apply Z.max_lub_lt; by apply Hl.
Qed.

Lemma xor_bytes_bytes a b : bytes a -> bytes b -> bytes (xor_bytes a b).
Proof.
  unfold bytes. intros Ha. revert b. induction Ha as [|x a Hx Ha IH]; intros b Hb; [by constructor|].
  destruct Hb as [|y b Hy Hb]; simpl; [by constructor|]. constructor; [by apply lxor_byte|by apply IH].
Qed.

Lemma xor_block a b : is_block a -> bytes b -> is_block (xor_bytes a b).
Proof. intros [H1 H2] Hb. split; [by rewrite xor_bytes_length|by apply xor_bytes_bytes]. Qed.

(** ** CMAC (aes-omac1.c) *)

(** One bit to the left, the carry of each octet into its predecessor. *)
Fixpoint shift_left (pad : list Z) : list Z :=
  match pad with
  | [] => []
  | x :: rest =>
      match rest with
      | [] => [u8 (Z.shiftl x 1)]
      | y :: _ => u8 (Z.lor (Z.shiftl x 1) (Z.shiftr y 7)) :: shift_left rest
      end
  end.

Definition gf_mulx (pad : list Z) : list Z :=
  let carry := Z.land (nth 0 pad 0) 0x80 in
  let pad := shift_left pad in
  if carry =? 0 then pad else <[15%nat := Z.lxor (nth 15 pad 0) 0x87]> pad.

(** Where the next octet is read: the rest of the current element, and the
    elements after it. *)
Definition cursor : Type := list Z * list (list Z).

(** [n] times [cbc[i] ^= *pos++], from [i] on, with the move to the next
    element; [last] says that the data end with the last of them, where the
    code stops without a move.  [None] is a read outside the elements. *)
Fixpoint absorb (n i : nat) (last : bool) (cbc : list Z) (c : cursor) : option (list Z * cursor) :=
  match n with
  | O => Some (cbc, c)
  | S n =>
      match c with
      | ([], _) => None
      | (b :: cur, rest) =>
          let cbc := <[i := Z.lxor (nth i cbc 0) b]> cbc in
          match cur with
          | _ :: _ => absorb n (S i) last cbc (cur, rest)
          | [] =>
              if last && (n =? 0)%nat then Some (cbc, ([], rest))
              else
                match rest with
                | [] => None
                | next :: rest => absorb n (S i) last cbc (next, rest)
                end
          end
      end
  end.

Section omac.
Context (enc : list Z -> list Z).

(** The loop over the full blocks; the last of them is not encrypted when
    nothing follows it. *)
Fixpoint omac_blocks (fuel rem : nat) (cbc : list Z) (c : cursor) : option (nat * list Z * cursor) :=
  match fuel with
  | O => None
  | S fuel =>
      if (16 <=? rem)%nat then
        match absorb 16 0 (rem =? 16)%nat cbc c with
        | Some (cbc, c) =>
            omac_blocks fuel (rem - 16) (if (16 <? rem)%nat then enc cbc else cbc) c
        | None => None
        end
      else Some (rem, cbc, c)
  end.

(** The rest of the message and the subkey. *)
Definition omac_final (total rem : nat) (cbc : list Z) (c : cursor) : option (list Z) :=
  let pad := gf_mulx (enc (replicate 16 0)) in
  if negb (rem =? 0)%nat || (total =? 0)%nat then
    match absorb rem 0 true cbc c with
    | Some (cbc, _) =>
        let cbc := <[rem := Z.lxor (nth rem cbc 0) 0x80]> cbc in
        Some (enc (xor_bytes (gf_mulx pad) cbc))
    | None => None
    end
  else Some (enc (xor_bytes pad cbc)).
End omac.

Section modes.
Context `{AC : !AesCipher}.

(** [None]: the code reads outside its data; [Some None]: the error -1. *)
Definition omac1_aes_vector (key : list Z) (elems : list (list Z)) : option (option (list Z)) :=
  match aes_encrypt key with
  | None => Some None
  | Some enc =>
      let total := length (concat elems) in
      match elems with
      | [] => None
      | first :: rest =>
          match omac_blocks enc (S total) total (replicate 16 0) (first, rest) with
          | Some (rem, cbc, c) => option_map Some (omac_final enc total rem cbc c)
          | None => None
          end
      end
  end.

Definition omac1_aes_128 (key d : list Z) : option (option (list Z)) := omac1_aes_vector key [d].
End modes.

(** *** The specification: RFC 4493 *)

(** A string of octets as a number, the first octet the most significant. *)
Fixpoint be_num (l : list Z) : Z :=
  match l with
  | [] => 0
  | x :: l => x * 256 ^ Z.of_nat (length l) + be_num l
  end.

(** Doubling in GF(2^128). *)
Definition gf_double (x : Z) : Z :=
  if x <? 2 ^ 127 then 2 * x else Z.lxor (2 * x - 2 ^ 128) 0x87.

(** A block that is the double of another one. *)
Definition doubles (k b : list Z) : Prop := is_block k /\ be_num k = gf_double (be_num b).

(** The chain over the message [m]; the last block, completed by a one and
    zeros when it is short, goes with its subkey. *)
Fixpoint cmac_chain (enc : list Z -> list Z) (k1 k2 x : list Z) (fuel : nat) (m : list Z) : list Z :=
  match fuel with
  | O => []
  | S fuel =>
      if (16 <? length m)%nat
      then cmac_chain enc k1 k2 (enc (xor_bytes x (take 16 m))) fuel (drop 16 m)
      else if (length m =? 16)%nat then enc (xor_bytes (xor_bytes x m) k1)
      else enc (xor_bytes (xor_bytes x (m ++ 0x80 :: replicate (15 - length m) 0)) k2)
  end.

Definition cmac (enc : list Z -> list Z) (k1 k2 m : list Z) : list Z :=
  cmac_chain enc k1 k2 (replicate 16 0) (S (length m)) m.

(** *** Doubling *)

Lemma be_num_range l : bytes l -> 0 <= be_num l < 256 ^ Z.of_nat (length l).
Proof.
  induction 1 as [|x l Hx Hl IH]; cbn [be_num length]; [done|]. unfold byte in Hx.
  rewrite Nat2Z.inj_succ, Z.pow_succ_r by lia. nia.
Qed.

Lemma be_num_inj l l' :
  bytes l -> bytes l' -> length l = length l' -> be_num l = be_num l' -> l = l'.
Proof.
  intros Hl. revert l'. induction Hl as [|x l Hx Hl IH]; intros l' Hl' Hn H; [by destruct l'|].
  destruct Hl' as [|y l' Hy Hl']; [done|]. cbn [be_num length] in *. injection Hn as Hn.
  rewrite <-Hn in H. pose proof (be_num_range l Hl). pose proof (be_num_range l' Hl') as H1.
  rewrite <-Hn in H1. unfold byte in *.
  assert (x = y) as -> by nia. f_equal. apply IH; [done|done|lia].
Qed.

Lemma shift_left_length l : length (shift_left l) = length l.
Proof. induction l as [|x [|y l] IH]; [done..|]. simpl in *. by rewrite IH. Qed.

Lemma u8_byte z : byte (u8 z).
Proof. apply u8_range. Qed.

Lemma shift_left_bytes l : bytes (shift_left l).
Proof.
  induction l as [|x [|y l] IH]; [constructor|by repeat constructor; apply u8_byte|].
  constructor; [apply u8_byte|exact IH].
Qed.

Lemma shift_octet x y :
  byte x -> byte y -> u8 (Z.lor (Z.shiftl x 1) (Z.shiftr y 7)) = (2 * x + y / 128) mod 256.
Proof.
  intros Hx Hy. unfold byte in *. unfold u8. rewrite Z.shiftl_mul_pow2, Z.shiftr_div_pow2 by lia.
  change (2 ^ 1) with 2. change (2 ^ 7) with 128. change (2 ^ 8) with 256.
  f_equal. assert (Hc : y / 128 = 0 \/ y / 128 = 1) by (assert (y / 128 < 2) by (apply Z.div_lt_upper_bound; lia);
    assert (0 <= y / 128) by (apply Z.div_pos; lia); lia).
  destruct Hc as [->| ->]; [rewrite Z.lor_0_r; lia|].
  assert (Hl : Z.land (x * 2) 1 = 0).
  { change 1 with (Z.ones 1). rewrite Z.land_ones by lia. change (2 ^ 1) with 2. apply Z_mod_mult. }
  rewrite <-Z.lxor_lor, <-Z.add_nocarry_lxor by exact Hl. lia.
Qed.

Lemma carry_octet y l :
  byte y -> bytes l -> y / 128 = 2 * be_num (y :: l) / 256 ^ Z.of_nat (length (y :: l)).
Proof.
  intros Hy Hl. pose proof (be_num_range l Hl) as H. cbn [be_num length].
  rewrite Nat2Z.inj_succ, Z.pow_succ_r by lia. set (B := 256 ^ _) in *.
  assert (0 < B) by (unfold B; apply Z.pow_pos_nonneg; lia). unfold byte in Hy.
  pose proof (Z.div_mod y 128 ltac:(lia)) as Hd. pose proof (Z.mod_pos_bound y 128 ltac:(lia)).
  apply (Z.div_unique _ _ _ (2 * ((y mod 128) * B + be_num l))); [left; nia|]. nia.
Qed.

Lemma be_num_cons x l : be_num (x :: l) = x * 256 ^ Z.of_nat (length l) + be_num l.
Proof. reflexivity. Qed.

Lemma shift_left_num l :
  bytes l -> be_num (shift_left l) = (2 * be_num l) mod 256 ^ Z.of_nat (length l).
Proof.
  induction 1 as [|x l Hx Hl IH]; [done|]. destruct l as [|y l].
  { cbn [shift_left be_num length]. unfold u8. rewrite Z.shiftl_mul_pow2 by lia.
    change (2 ^ 8) with 256. change (Z.of_nat 0) with 0. change (Z.of_nat 1) with 1.
    rewrite !Z.pow_0_r, !Z.pow_1_r, !Z.mul_1_r, !Z.add_0_r. f_equal. lia. }
  change (shift_left (x :: y :: l)) with
    (u8 (Z.lor (Z.shiftl x 1) (Z.shiftr y 7)) :: shift_left (y :: l)).
  apply Forall_cons in Hl as [Hy Hl]. rewrite shift_octet by done. rewrite (carry_octet y l) by done.
  set (k := y :: l) in *. rewrite !be_num_cons, shift_left_length, IH. assert (Hk : bytes k) by (by constructor). clearbody k.
  pose proof (be_num_range k Hk) as Hr. cbn [length]. rewrite (Nat2Z.inj_succ (length k)), Z.pow_succ_r by lia.
  set (B := 256 ^ Z.of_nat (length k)) in *. assert (0 < B) by (unfold B; apply Z.pow_pos_nonneg; lia).
  set (N := be_num k) in *. clearbody N B.
  pose proof (Z.div_mod (2 * N) B ltac:(lia)) as Hd. pose proof (Z.mod_pos_bound (2 * N) B ltac:(lia)).
  set (Q := 2 * N / B) in *. set (r := (2 * N) mod B) in *. clearbody Q r.
  pose proof (Z.div_mod (2 * x + Q) 256 ltac:(lia)) as He.
  pose proof (Z.mod_pos_bound (2 * x + Q) 256 ltac:(lia)).
  set (q := (2 * x + Q) / 256) in *. set (c := (2 * x + Q) mod 256) in *. clearbody q c.
  assert (c * B <= 255 * B) by (apply Z.mul_le_mono_nonneg_r; lia).
  assert (0 <= c * B) by (apply Z.mul_nonneg_nonneg; lia).
  apply (Z.mod_unique _ _ q); [left; lia|].
  replace (2 * (x * B + N)) with ((2 * x + Q) * B + r) by lia. rewrite He. ring.
Qed.

Lemma shift_top b : is_block b -> Z.land (nth 0 b 0) 0x80 = 0 <-> be_num b < 2 ^ 127.
Proof.
  intros [H1 H2]. destruct b as [|x l]; [done|]. cbn [nth be_num]. injection H1 as H1.
  apply Forall_cons in H2 as [Hx Hl]. pose proof (be_num_range l Hl) as Hr. rewrite H1 in *.
  unfold byte in Hx. change (256 ^ Z.of_nat 15) with (2 ^ 120) in *.
  assert (Hb : Z.land x 0x80 = 0 <-> x < 128).
  { split.
    - intros H. destruct (Z.lt_ge_cases x 128); [done|]. exfalso.
      assert (Ht : Z.testbit (Z.land x 0x80) 7 = true).
      { rewrite Z.land_spec. change (Z.testbit 128 7) with true. rewrite andb_true_r.
        apply Z.testbit_true; [lia|]. change (2 ^ 7) with 128.
        replace (x / 128) with 1; [done|]. apply (Z.div_unique _ _ _ (x - 128)); lia. }
      rewrite H in Ht. discriminate Ht.
    - intros H. apply Z.bits_inj'. intros n Hn. rewrite Z.land_spec, Z.bits_0.
      destruct (Z.eq_dec n 7) as [->|Hne].
      + destruct (Z.testbit x 7) eqn:E; [|done]. apply Z.testbit_true in E; [|lia].
        change (2 ^ 7) with 128 in E. rewrite Z.div_small in E by lia. discriminate E.
      + change 128 with (2 ^ 7). rewrite Z.pow2_bits_false by lia. apply andb_false_r. }
  rewrite Hb. lia.
Qed.

Lemma nth_last_num b :
  length b = 16%nat -> be_num b = 256 * be_num (take 15 b) + nth 15 b 0.
Proof.
  intros H. do 16 (destruct b as [|? b]; [discriminate H|]). destruct b; [|discriminate H].
  cbn [take be_num nth length]. cbn. lia.
Qed.

Lemma land_high_low h l : 0 <= l < 256 -> Z.land (256 * h) l = 0.
Proof.
  intros Hl. rewrite Z.mul_comm. change 256 with (2 ^ 8) in *. apply Z.bits_inj'. intros n Hn.
  rewrite Z.land_spec, Z.bits_0. destruct (Z.lt_ge_cases n 8).
  - by rewrite Z.mul_pow2_bits_low by lia.
  - rewrite <-(Z.mod_small l (2 ^ 8)) by lia. rewrite Z.mod_pow2_bits_high by lia. apply andb_false_r.
Qed.

Lemma lxor_low h l c : 0 <= l < 256 -> 0 <= c < 256 -> Z.lxor (256 * h + l) c = 256 * h + Z.lxor l c.
Proof.
  intros Hl Hc. rewrite (Z.add_nocarry_lxor (256 * h) l) by (by apply land_high_low).
  rewrite (Z.add_nocarry_lxor (256 * h)) by (apply land_high_low, lxor_byte; done).
  apply Z.lxor_assoc.
Qed.

Lemma nth_byte l i : bytes l -> byte (nth i l 0).
Proof.
  intros H. revert i. induction H as [|x l Hx Hl IH]; intros [|i]; simpl; try done; by split.
Qed.

Lemma insert_last_num b c :
  is_block b -> byte c ->
  is_block (<[15%nat := Z.lxor (nth 15 b 0) c]> b) /\
  be_num (<[15%nat := Z.lxor (nth 15 b 0) c]> b) = Z.lxor (be_num b) c.
Proof.
  intros [H1 H2] Hc. pose proof (nth_byte b 15 H2) as Hl. unfold byte in Hc, Hl.
  pose proof (lxor_byte _ _ Hl Hc) as Hx. set (v := Z.lxor (nth 15 b 0) c) in *.
  assert (Hlen : length (<[15%nat := v]> b) = 16%nat) by (by rewrite length_insert).
  split; [split; [exact Hlen|]|].
  - unfold bytes. apply Forall_insert; [exact H2|exact Hx].
  - rewrite (nth_last_num _ Hlen), (nth_last_num b H1). rewrite take_insert_ge by lia.
    assert (Hn : nth 15 (<[15%nat := v]> b) 0 = v).
    { apply nth_lookup_Some. apply list_lookup_insert_eq. lia. }
    rewrite Hn. symmetry. by apply lxor_low.
Qed.

(** [gf_mulx] doubles in GF(2^128). *)
Lemma gf_mulx_doubles b : is_block b -> doubles (gf_mulx b) b.
Proof.
  intros Hb. pose proof (shift_top b Hb) as Ht. destruct Hb as [H1 H2].
  assert (Hs : is_block (shift_left b)) by (split; [by rewrite shift_left_length|apply shift_left_bytes]).
  pose proof (be_num_range b H2) as Hr. pose proof (shift_left_num b H2) as Hn. rewrite H1 in Hr, Hn.
  change (256 ^ Z.of_nat 16) with (2 ^ 128) in *.
  unfold gf_mulx, doubles, gf_double. cbv zeta. destruct (Z.eqb_spec (Z.land (nth 0 b 0) 128) 0) as [E|E].
  - split; [exact Hs|]. apply Ht in E. rewrite (proj2 (Z.ltb_lt _ _)) by lia. rewrite Hn.
    apply Z.mod_small. lia.
  - destruct (insert_last_num _ 0x87 Hs) as [K1 K2]; [by split|]. split; [exact K1|]. rewrite K2, Hn.
    assert (Hge : 2 ^ 127 <= be_num b) by (destruct (Z.lt_ge_cases (be_num b) (2 ^ 127)); [tauto|done]).
    rewrite (proj2 (Z.ltb_ge _ _)) by lia. f_equal. symmetry.
    apply (Z.mod_unique _ _ 1); lia.
Qed.

Lemma doubles_unique k k' b : doubles k b -> doubles k' b -> k = k'.
Proof. intros [[H1 H2] H3] [[K1 K2] K3]. apply be_num_inj; congruence. Qed.

(** *** The gather loop *)

Definition content (c : cursor) : list Z := fst c ++ concat (snd c).

(** No empty element is read. *)
Definition filled (c : cursor) : Prop := fst c <> [] /\ Forall (fun l => l <> []) (snd c).

Lemma absorb_spec n i last pre suf c :
  length pre = i -> filled c -> (n <= length (content c))%nat -> (n <= length suf)%nat ->
  (last = true <-> n = length (content c)) ->
  exists c', absorb n i last (pre ++ suf) c = Some (pre ++ xor_bytes suf (take n (content c)), c') /\
    content c' = drop n (content c) /\ (content c' <> [] -> filled c').
Proof.
  revert i pre suf c. induction n as [|n IH]; intros i pre suf [cur rest] Hi [Hc Hr] Hn Hsuf Hlast.
  { exists (cur, rest). cbn [take absorb]. rewrite xor_bytes_nil. by repeat split. }
  destruct cur as [|b cur]; [done|]. destruct suf as [|x suf]; [simpl in Hsuf; lia|].
  cbn [absorb]. rewrite <-Hi. rewrite app_nth2, Nat.sub_diag by lia. cbn [nth].
  replace (<[length pre := Z.lxor x b]> (pre ++ x :: suf)) with ((pre ++ [Z.lxor x b]) ++ suf).
  2:{ rewrite insert_app_r_alt by lia. rewrite Nat.sub_diag. cbn. by rewrite <-app_assoc. }
  unfold content in *. cbn [fst snd] in *. cbn [app take drop xor_bytes length] in *.
  assert (Happ : forall l, pre ++ Z.lxor x b :: l = (pre ++ [Z.lxor x b]) ++ l)
    by (intros l; by rewrite <-app_assoc).
  rewrite (Happ (xor_bytes _ _)).
  destruct cur as [|b' cur].
  - cbn [app] in *. destruct (last && (n =? 0)%nat) eqn:El.
    + apply andb_prop in El as [El En]. apply Nat.eqb_eq in En as ->. exists ([], rest).
      cbn [take drop]. rewrite xor_bytes_nil. split; [done|]. split; [done|]. cbn [fst snd app].
      intros Hne. exfalso. apply Hne. apply Hlast in El. by destruct (concat rest); [|simpl in El; lia].
    + destruct rest as [|next rest].
      { exfalso. simpl in *. assert (n = 0%nat) as -> by lia. rewrite andb_true_r in El.
        assert (last = true) by (by apply Hlast). congruence. }
      apply Forall_cons in Hr as [Hne Hr].
      apply (IH (S (length pre)) (pre ++ [Z.lxor x b]) suf (next, rest)).
      * rewrite length_app. simpl. lia.
      * by split.
      * cbn [fst snd concat] in *. lia.
      * simpl in Hsuf. lia.
      * cbn [fst snd concat] in *. rewrite Hlast. lia.
  - apply (IH (S (length pre)) (pre ++ [Z.lxor x b]) suf (b' :: cur, rest)).
    + rewrite length_app. simpl. lia.
    + by split.
    + cbn [fst snd app length] in *. lia.
    + simpl in Hsuf. lia.
    + cbn [fst snd app length] in *. rewrite Hlast. lia.
Qed.

Lemma xor_bytes_comm a b : length a = length b -> xor_bytes a b = xor_bytes b a.
Proof.
  revert b. induction a as [|x a IH]; intros [|y b] H; simpl in *; try done.
  rewrite Z.lxor_comm. f_equal. apply IH. lia.
Qed.

Lemma xor_insert cbc m v k :
  (length m < length cbc)%nat ->
  <[length m := Z.lxor (nth (length m) (xor_bytes cbc m) 0) v]> (xor_bytes cbc m) =
  xor_bytes cbc (m ++ v :: replicate k 0).
Proof.
  revert cbc. induction m as [|y m IH]; intros [|x cbc] H; simpl in *; try lia.
  - by rewrite xor_bytes_zeros.
  - f_equal. apply IH. lia.
Qed.

Section omac_correct.
Context (enc : list Z -> list Z) (Henc : forall b, is_block b -> is_block (enc b)).
Let k0 : list Z := enc (replicate 16 0).
Let k1 : list Z := gf_mulx k0.
Let k2 : list Z := gf_mulx k1.

Definition omac_rest (total fuel : nat) (m cbc : list Z) (c : cursor) : option (list Z) :=
  match omac_blocks enc fuel (length m) cbc c with
  | Some (rem, cbc, c) => omac_final enc total rem cbc c
  | None => None
  end.

Lemma subkey_length b : is_block b -> length (gf_mulx b) = 16%nat.
Proof. intros Hb. apply (gf_mulx_doubles b Hb). Qed.

Lemma omac_short total cbc m c :
  is_block cbc -> is_block k1 -> content c = m -> filled c -> (0 < length m < 16)%nat ->
  omac_final enc total (length m) cbc c =
  Some (enc (xor_bytes (xor_bytes cbc (m ++ 0x80 :: replicate (15 - length m) 0)) k2)).
Proof.
  intros [H1 _] Hk Hc Hf Hm. unfold omac_final. fold k0. fold k1.
  rewrite (proj2 (Nat.eqb_neq (length m) 0)) by lia. cbn [negb orb].
  destruct (absorb_spec (length m) 0 true [] cbc c) as (c' & Ha & _);
    [done|exact Hf|rewrite Hc; lia|lia|by rewrite Hc|].
  cbn [app] in Ha. rewrite Ha, Hc, firstn_all. rewrite (xor_insert cbc m 0x80 (15 - length m)) by lia.
  fold k2. f_equal. f_equal. apply xor_bytes_comm. unfold k2. rewrite subkey_length by exact Hk.
  by rewrite xor_bytes_length.
Qed.

Lemma omac_rest_chain total fuel m cbc c :
  is_block k1 -> is_block cbc -> bytes m -> content c = m -> filled c -> m <> [] -> total <> 0%nat ->
  (length m < fuel)%nat ->
  omac_rest total fuel m cbc c = Some (cmac_chain enc k1 k2 cbc fuel m).
Proof.
  intros Hk. revert m cbc c. induction fuel as [|fuel IH]; intros m cbc c Hb Hm Hc Hf Hne Ht Hl; [lia|].
  assert (Hpos : (0 < length m)%nat) by (destruct m; [done|simpl; lia]).
  unfold omac_rest. cbn [omac_blocks cmac_chain].
  destruct (Nat.leb_spec 16 (length m)).
  2:{ rewrite (proj2 (Nat.ltb_ge 16 (length m))) by lia. rewrite (proj2 (Nat.eqb_neq (length m) 16)) by lia.
      by apply omac_short. }
  destruct (absorb_spec 16 0 (length m =? 16)%nat [] cbc c) as (c' & Ha & Hc' & Hf');
    [done|exact Hf|rewrite Hc; lia|destruct Hb as [-> _]; lia|rewrite Hc, Nat.eqb_eq; lia|].
  cbn [app] in Ha. rewrite Ha, Hc. rewrite Hc in Hc'.
  assert (Hx : is_block (xor_bytes cbc (take 16 m))) by (apply xor_block; [exact Hb|by apply Forall_take]).
  destruct (Nat.ltb_spec 16 (length m)).
  - replace (length m - 16)%nat with (length (drop 16 m)) by (rewrite length_drop; lia).
    assert (Hd : drop 16 m <> []) by (intros E; apply (f_equal length) in E; rewrite length_drop in E; simpl in E; lia).
    apply (IH (drop 16 m)).
    + by apply Henc.
    + by apply Forall_drop.
    + exact Hc'.
    + apply Hf'. by rewrite Hc'.
    + exact Hd.
    + exact Ht.
    + rewrite length_drop. lia.
  - assert (length m = 16%nat) as E by lia. rewrite E, Nat.sub_diag. cbn [Nat.eqb].
    destruct fuel as [|fuel]; [lia|]. cbn [omac_blocks]. cbn [Nat.leb]. unfold omac_final. fold k0. fold k1.
    rewrite (proj2 (Nat.eqb_neq total 0)) by exact Ht. cbn [negb orb Nat.eqb].
    rewrite firstn_all2 by lia. do 2 f_equal. rewrite (xor_bytes_comm k1); [done|]. rewrite xor_bytes_length.
    destruct Hk as [-> _], Hb as [-> _]. done.
Qed.
End omac_correct.

Lemma zero_block : is_block (replicate 16 0).
Proof. split; [done|]. apply Forall_replicate. by split. Qed.

Lemma omac1_aes_vector_chain `{AL : AesLaws} key enc elems :
  aes_encrypt key = Some enc -> Forall bytes elems -> Forall (fun l => l <> []) elems -> elems <> [] ->
  omac1_aes_vector key elems =
  Some (Some (cmac enc (gf_mulx (enc (replicate 16 0))) (gf_mulx (gf_mulx (enc (replicate 16 0))))
                (concat elems))).
Proof.
  intros He Hb Hf Hne. set (k0 := enc (replicate 16 0)).
  assert (H0 : is_block k0) by (apply (encrypt_block key enc); [exact He|apply zero_block]).
  pose proof (gf_mulx_doubles k0 H0) as [D1 _].
  unfold omac1_aes_vector. rewrite He. destruct elems as [|l rest]; [done|].
  apply Forall_cons in Hf as [Hl Hr]. set (m := concat (l :: rest)).
  assert (Hm : m <> []) by (unfold m; cbn [concat]; destruct l; [done|discriminate]).
  assert (Hbm : bytes m).
  { unfold m, bytes. clear -Hb. induction Hb as [|x ls Hx _ IH]; cbn [concat]; [constructor|].
    by apply Forall_app. }
  pose proof (omac_rest_chain enc (fun b Hb => encrypt_block key enc b He Hb) (length m) (S (length m)) m
    (replicate 16 0) (l, rest) D1 zero_block Hbm eq_refl (conj Hl Hr) Hm) as H.
  unfold omac_rest in H. assert (Hz : length m <> 0%nat) by (by destruct m).
  specialize (H Hz (le_n _)). destruct (omac_blocks _ _ _ _ _) as [[[rem cbc] c]|]; [|discriminate H].
  by rewrite H.
Qed.

(** C13: CMAC over a message scattered over non-empty elements is RFC 4493's
    AES-CMAC of their concatenation, with the subkeys the doubles in GF(2^128)
    of the encrypted zero block; nothing outside the elements is read. *)
Theorem omac1_aes_vector_cmac `{AL : AesLaws} key enc elems :
  aes_encrypt key = Some enc -> Forall bytes elems -> Forall (fun l => l <> []) elems -> elems <> [] ->
  exists k1 k2, doubles k1 (enc (replicate 16 0)) /\ doubles k2 k1 /\
    omac1_aes_vector key elems = Some (Some (cmac enc k1 k2 (concat elems))).
Proof.
  intros He Hb Hf Hne.
  pose proof (gf_mulx_doubles _ (encrypt_block key enc _ He zero_block)) as D1.
  eexists _, _. split; [exact D1|]. split; [apply gf_mulx_doubles, D1|].
  by apply omac1_aes_vector_chain.
Qed.

(** ** Key wrapping (aes-wrap.c, aes-unwrap.c: RFC 3394) *)

(** [a[7] ^= t; a[6] ^= t >> 8; ...]: the four low octets of the counter. *)
Definition xor_t (a : list Z) (t : Z) : list Z :=
  xor_bytes a [0; 0; 0; 0; u8 (Z.shiftr t 24); u8 (Z.shiftr t 16); u8 (Z.shiftr t 8); u8 t].

(** The 64-bit registers of a string. *)
Fixpoint registers (n : nat) (l : list Z) : list (list Z) :=
  match n with
  | O => []
  | S n => take 8 l :: registers n (drop 8 l)
  end.

Section wrap.
Context (enc dec : list Z -> list Z).

(** The inner loop of [aes_wrap], with [t] counting up. *)
Fixpoint wrap_pass (t : Z) (a : list Z) (r : list (list Z)) : list Z * list (list Z) :=
  match r with
  | [] => (a, [])
  | ri :: r =>
      let b := enc (a ++ ri) in
      let '(a, r) := wrap_pass (t + 1) (xor_t (take 8 b) (u32 t)) r in
      (a, drop 8 b :: r)
  end.

(** The inner loop of [aes_unwrap] over the registers in reverse, with [t]
    counting down. *)
Fixpoint unwrap_pass (t : Z) (a : list Z) (r : list (list Z)) : list Z * list (list Z) :=
  match r with
  | [] => (a, [])
  | ri :: r =>
      let b := dec (xor_t a (u32 t) ++ ri) in
      let '(a, r) := unwrap_pass (t - 1) (take 8 b) r in
      (a, drop 8 b :: r)
  end.

(** [for (j = 0; j <= 5; j++)], from [j] on. *)
Fixpoint wrap_loop (k : nat) (j : Z) (a : list Z) (r : list (list Z)) : list Z * list (list Z) :=
  match k with
  | O => (a, r)
  | S k =>
      let '(a, r) := wrap_pass (Z.of_nat (length r) * j + 1) a r in
      wrap_loop k (j + 1) a r
  end.

(** [for (j = 5; j >= 0; j--)]. *)
Fixpoint unwrap_loop (k : nat) (a : list Z) (r : list (list Z)) : list Z * list (list Z) :=
  match k with
  | O => (a, r)
  | S k =>
      let n := Z.of_nat (length r) in
      let '(a, r) := unwrap_pass (n * Z.of_nat k + n) a (rev r) in
      unwrap_loop k a (rev r)
  end.
End wrap.

Definition wrap_iv : list Z := replicate 8 0xa6.

Section wrapping.
Context `{AC : !AesCipher}.

(** [None] is the error -1. *)
Definition aes_wrap (kek : list Z) (n : nat) (plain : list Z) : option (list Z) :=
  match aes_encrypt kek with
  | None => None
  | Some enc =>
      let '(a, r) := wrap_loop enc 6 0 wrap_iv (registers n plain) in
      Some (a ++ concat r)
  end.

Definition aes_unwrap (kek : list Z) (n : nat) (cipher : list Z) : option (list Z) :=
  match aes_decrypt kek with
  | None => None
  | Some dec =>
      let '(a, r) := unwrap_loop dec 6 (take 8 cipher) (registers n (drop 8 cipher)) in
      if bool_decide (a = wrap_iv) then Some (concat r) else None
  end.
End wrapping.

Definition is_reg (l : list Z) : Prop := length l = 8%nat /\ bytes l.

Lemma reg_block a r : is_reg a -> is_reg r -> is_block (a ++ r).
Proof.
  intros [H1 H2] [K1 K2]. split; [rewrite length_app; lia|]. by apply Forall_app.
Qed.

Lemma block_regs b : is_block b -> is_reg (take 8 b) /\ is_reg (drop 8 b) /\ take 8 b ++ drop 8 b = b.
Proof.
  intros [H1 H2]. split; [|split; [|apply take_drop]].
  - split; [rewrite length_take; lia|by apply Forall_take].
  - split; [rewrite length_drop; lia|by apply Forall_drop].
Qed.

Lemma xor_t_reg a t : is_reg a -> is_reg (xor_t a t).
Proof.
  intros [H1 H2]. split; [by unfold xor_t; rewrite xor_bytes_length|]. apply xor_bytes_bytes; [exact H2|].
  repeat (apply Forall_cons; split); try apply Forall_nil; first [apply u8_byte|by split].
Qed.

Lemma xor_t_twice a t : is_reg a -> xor_t (xor_t a t) t = a.
Proof. intros _. apply xor_bytes_twice. Qed.

Section wrap_correct.
Context (enc dec : list Z -> list Z).
Context (Henc : forall b, is_block b -> is_block (enc b)) (Hdec : forall b, is_block b -> is_block (dec b)).
Context (Hde : forall b, is_block b -> dec (enc b) = b) (Hed : forall b, is_block b -> enc (dec b) = b).

Lemma wrap_pass_regs t a r :
  is_reg a -> Forall is_reg r ->
  is_reg (fst (wrap_pass enc t a r)) /\ Forall is_reg (snd (wrap_pass enc t a r)) /\
  length (snd (wrap_pass enc t a r)) = length r.
Proof.
  intros Ha Hr. revert t a Ha. induction Hr as [|ri r Hri Hr IH]; intros t a Ha; [split; [exact Ha|split; [constructor|done]]|].
  cbn [wrap_pass]. destruct (block_regs _ (Henc _ (reg_block _ _ Ha Hri))) as (K1 & K2 & _).
  set (b := enc (a ++ ri)) in *.
  destruct (IH (t + 1) (xor_t (take 8 b) (u32 t))) as (J1 & J2 & J3); [by apply xor_t_reg|].
  destruct (wrap_pass enc (t + 1) _ r) as [a' r']. cbn [fst snd length] in *.
  split; [exact J1|]. split; [by constructor|by rewrite J3].
Qed.

Lemma unwrap_pass_app t a r1 r2 :
  unwrap_pass dec t a (r1 ++ r2) =
  let '(a1, s1) := unwrap_pass dec t a r1 in
  let '(a2, s2) := unwrap_pass dec (t - Z.of_nat (length r1)) a1 r2 in (a2, s1 ++ s2).
Proof.
  revert t a. induction r1 as [|ri r1 IH]; intros t a.
  { cbn [app unwrap_pass length]. rewrite Z.sub_0_r. by destruct (unwrap_pass dec t a r2). }
  cbn [app unwrap_pass length]. rewrite IH. destruct (unwrap_pass dec (t - 1) _ r1) as [a1 s1].
  replace (t - 1 - Z.of_nat (length r1)) with (t - Z.of_nat (S (length r1))) by lia.
  by destruct (unwrap_pass dec _ a1 r2).
Qed.

(** Unwrapping takes back a pass of wrapping. *)
Lemma unwrap_wrap_pass t a r :
  is_reg a -> Forall is_reg r ->
  let '(a', r') := wrap_pass enc t a r in
  unwrap_pass dec (t + Z.of_nat (length r) - 1) a' (rev r') = (a, rev r).
Proof.
  intros Ha Hr. revert t a Ha. induction Hr as [|ri r Hri Hr IH]; intros t a Ha; [done|].
  cbn [wrap_pass]. pose proof (reg_block _ _ Ha Hri) as Hb.
  destruct (block_regs _ (Henc _ Hb)) as (K1 & K2 & K3). set (b := enc (a ++ ri)) in *.
  specialize (IH (t + 1) (xor_t (take 8 b) (u32 t)) (xor_t_reg _ _ K1)).
  destruct (wrap_pass_regs (t + 1) (xor_t (take 8 b) (u32 t)) r (xor_t_reg _ _ K1) Hr) as (_ & _ & Hn).
  destruct (wrap_pass enc (t + 1) _ r) as [a' r']. cbn [snd] in Hn. cbn [rev length].
  rewrite unwrap_pass_app.
  replace (t + Z.of_nat (S (length r)) - 1) with (t + 1 + Z.of_nat (length r) - 1) by lia. rewrite IH.
  rewrite length_rev, Hn. cbn [unwrap_pass].
  replace (t + 1 + Z.of_nat (length r) - 1 - Z.of_nat (length r)) with t by lia.
  rewrite xor_t_twice, K3 by exact K1. unfold b. rewrite Hde by exact Hb.
  destruct Ha as [Ha _]. rewrite take_app_length', drop_app_length' by lia. done.
Qed.
Lemma unwrap_pass_regs t a r :
  is_reg a -> Forall is_reg r ->
  is_reg (fst (unwrap_pass dec t a r)) /\ Forall is_reg (snd (unwrap_pass dec t a r)) /\
  length (snd (unwrap_pass dec t a r)) = length r.
Proof.
  intros Ha Hr. revert t a Ha. induction Hr as [|ri r Hri Hr IH]; intros t a Ha;
    [split; [exact Ha|split; [constructor|done]]|].
  cbn [unwrap_pass].
  destruct (block_regs _ (Hdec _ (reg_block _ _ (xor_t_reg a (u32 t) Ha) Hri))) as (K1 & K2 & _).
  set (b := dec (xor_t a (u32 t) ++ ri)) in *.
  destruct (IH (t - 1) (take 8 b) K1) as (J1 & J2 & J3).
  destruct (unwrap_pass dec (t - 1) _ r) as [a' r']. cbn [fst snd length] in *.
  split; [exact J1|]. split; [by constructor|by rewrite J3].
Qed.

(** And wrapping takes back a pass of unwrapping. *)
Lemma wrap_unwrap_pass t a r :
  is_reg a -> Forall is_reg r ->
  let '(a', s) := unwrap_pass dec (t + Z.of_nat (length r) - 1) a (rev r) in
  wrap_pass enc t a' (rev s) = (a, r).
Proof.
  intros Ha Hr. revert t. induction Hr as [|ri r Hri Hr IH]; intros t; [done|].
  cbn [rev length]. rewrite unwrap_pass_app, length_rev.
  replace (t + Z.of_nat (S (length r)) - 1) with (t + 1 + Z.of_nat (length r) - 1) by lia.
  specialize (IH (t + 1)).
  pose proof (unwrap_pass_regs (t + 1 + Z.of_nat (length r) - 1) a (rev r) Ha (Forall_rev Hr)) as (K1 & _).
  destruct (unwrap_pass dec (t + 1 + Z.of_nat (length r) - 1) a (rev r)) as [a1 s1]. cbn [fst] in K1.
  cbn [unwrap_pass]. replace (t + 1 + Z.of_nat (length r) - 1 - Z.of_nat (length r)) with t by lia.
  pose proof (reg_block _ _ (xor_t_reg a1 (u32 t) K1) Hri) as Hb.
  destruct (block_regs _ (Hdec _ Hb)) as (_ & _ & J3). rewrite rev_app_distr. cbn [rev app wrap_pass].
  rewrite J3, Hed by exact Hb. destruct (xor_t_reg a1 (u32 t) K1) as [J1 _].
  rewrite take_app_length', drop_app_length' by lia. rewrite xor_t_twice by exact K1. by rewrite IH.
Qed.

Lemma wrap_loop_last k j a r :
  wrap_loop enc (S k) j a r =
  let '(a, r) := wrap_loop enc k j a r in
  wrap_pass enc (Z.of_nat (length r) * (j + Z.of_nat k) + 1) a r.
Proof.
  revert j a r. induction k as [|k IH]; intros j a r.
  { cbn [wrap_loop]. rewrite Z.add_0_r. by destruct (wrap_pass enc _ a r). }
  change (wrap_loop enc (S (S k)) j a r) with
    (let '(a, r) := wrap_pass enc (Z.of_nat (length r) * j + 1) a r in wrap_loop enc (S k) (j + 1) a r).
  change (wrap_loop enc (S k) j a r) with
    (let '(a, r) := wrap_pass enc (Z.of_nat (length r) * j + 1) a r in wrap_loop enc k (j + 1) a r).
  destruct (wrap_pass enc (Z.of_nat (length r) * j + 1) a r) as [a' r']. rewrite IH.
  replace (j + 1 + Z.of_nat k) with (j + Z.of_nat (S k)) by lia. done.
Qed.

Lemma wrap_loop_regs k j a r :
  is_reg a -> Forall is_reg r ->
  is_reg (fst (wrap_loop enc k j a r)) /\ Forall is_reg (snd (wrap_loop enc k j a r)) /\
  length (snd (wrap_loop enc k j a r)) = length r.
Proof.
  revert j a r. induction k as [|k IH]; intros j a r Ha Hr; [done|]. cbn [wrap_loop].
  destruct (wrap_pass_regs (Z.of_nat (length r) * j + 1) a r Ha Hr) as (K1 & K2 & K3).
  destruct (wrap_pass enc _ a r) as [a' r']. cbn [fst snd] in *. rewrite <-K3. by apply IH.
Qed.

Lemma unwrap_wrap_loop k a r :
  is_reg a -> Forall is_reg r ->
  let '(a', r') := wrap_loop enc k 0 a r in unwrap_loop dec k a' r' = (a, r).
Proof.
  intros Ha Hr. induction k as [|k IH]; [done|]. rewrite wrap_loop_last.
  destruct (wrap_loop_regs k 0 a r Ha Hr) as (K1 & K2 & K3).
  destruct (wrap_loop enc k 0 a r) as [a1 r1]. cbn [fst snd] in *. rewrite Z.add_0_l.
  pose proof (unwrap_wrap_pass (Z.of_nat (length r1) * Z.of_nat k + 1) a1 r1 K1 K2) as Hp.
  destruct (wrap_pass_regs (Z.of_nat (length r1) * Z.of_nat k + 1) a1 r1 K1 K2) as (_ & _ & Hn).
  destruct (wrap_pass enc _ a1 r1) as [a2 r2]. cbn [snd] in Hn. cbn [unwrap_loop]. rewrite Hn.
  replace (Z.of_nat (length r1) * Z.of_nat k + Z.of_nat (length r1)) with
    (Z.of_nat (length r1) * Z.of_nat k + 1 + Z.of_nat (length r1) - 1) by lia.
  by rewrite Hp, rev_involutive.
Qed.

Lemma wrap_unwrap_loop k a r :
  is_reg a -> Forall is_reg r ->
  let '(a', r') := unwrap_loop dec k a r in
  is_reg a' /\ Forall is_reg r' /\ length r' = length r /\ wrap_loop enc k 0 a' r' = (a, r).
Proof.
  revert a r. induction k as [|k IH]; intros a r Ha Hr; [done|]. cbn [unwrap_loop].
  set (n := Z.of_nat (length r)).
  destruct (unwrap_pass_regs (n * Z.of_nat k + n) a (rev r) Ha (Forall_rev Hr)) as (K1 & K2 & K3).
  pose proof (wrap_unwrap_pass (n * Z.of_nat k + 1) a r Ha Hr) as Hp. fold n in Hp.
  replace (n * Z.of_nat k + 1 + n - 1) with (n * Z.of_nat k + n) in Hp by lia.
  destruct (unwrap_pass dec (n * Z.of_nat k + n) a (rev r)) as [a1 s1]. cbn [fst snd] in *.
  specialize (IH a1 (rev s1) K1 (Forall_rev K2)). destruct (unwrap_loop dec k a1 (rev s1)) as [a2 r2].
  destruct IH as (J1 & J2 & J3 & J4). rewrite length_rev, K3, length_rev in J3.
  split; [exact J1|]. split; [exact J2|]. split; [exact J3|]. rewrite wrap_loop_last, J4.
  rewrite length_rev, K3, length_rev, Z.add_0_l. exact Hp.
Qed.
End wrap_correct.

Lemma registers_regs n l :
  length l = (8 * n)%nat -> bytes l ->
  Forall is_reg (registers n l) /\ length (registers n l) = n /\ concat (registers n l) = l.
Proof.
  revert l. induction n as [|n IH]; intros l Hl Hb; [by destruct l; [split; [constructor|]|]|]. cbn [registers concat length].
  destruct (IH (drop 8 l)) as (K1 & K2 & K3); [rewrite length_drop; lia|by apply Forall_drop|].
  split; [|split; [by rewrite K2|by rewrite K3, take_drop]].
  constructor; [|exact K1]. split; [rewrite length_take; lia|by apply Forall_take].
Qed.

Lemma registers_concat r :
  Forall is_reg r ->
  registers (length r) (concat r) = r /\ length (concat r) = (8 * length r)%nat /\ bytes (concat r).
Proof.
  induction 1 as [|ri r [Hri Hb] Hr (IH1 & IH2 & IH3)]; [split; [done|split; [done|constructor]]|].
  cbn [length registers concat]. rewrite take_app_length', drop_app_length' by lia.
  rewrite IH1. split; [done|]. split; [rewrite length_app; lia|]. by apply Forall_app.
Qed.

Lemma wrap_iv_reg : is_reg wrap_iv.
Proof. split; [done|]. apply Forall_replicate. by split. Qed.

(** What the laws say of the two directions of a key. *)
Lemma aes_pair `{AL : AesLaws} kek enc dec : aes_encrypt kek = Some enc -> aes_decrypt kek = Some dec ->
  (forall b, is_block b -> is_block (enc b) /\ dec (enc b) = b) /\ (forall b, is_block b -> is_block (dec b) /\ enc (dec b) = b).
Proof.
  intros Ee Ed. split; intros b Hb.
  - split; [by apply (encrypt_block kek)|by apply (decrypt_encrypt kek)].
  - by apply (encrypt_decrypt kek enc dec b).
Qed.

(** What has been wrapped is unwrapped. *)
Lemma wrap_then_unwrap `{AL : AesLaws} kek n plain c : length plain = (8 * n)%nat -> bytes plain ->
  aes_wrap kek n plain = Some c -> aes_unwrap kek n c = Some plain.
Proof.
  unfold aes_wrap, aes_unwrap. intros Hl Hb. pose proof (aes_keys kek) as Hk.
  destruct (aes_encrypt kek) as [enc|] eqn:Ee; [|done].
  destruct (aes_decrypt kek) as [dec|] eqn:Ed; [|exfalso; destruct Hk as [_ Hk]; discriminate (Hk eq_refl)].
  destruct (aes_pair kek enc dec Ee Ed) as [H1 _]. destruct (registers_regs n plain Hl Hb) as (R1 & R2 & R3).
  pose proof (unwrap_wrap_loop enc dec (fun b H => proj1 (H1 b H)) (fun b H => proj2 (H1 b H)) 6 wrap_iv _ wrap_iv_reg R1) as Hw.
  destruct (wrap_loop_regs enc (fun b H => proj1 (H1 b H)) 6 0 wrap_iv _ wrap_iv_reg R1) as ([W1 _] & W2 & W3).
  destruct (wrap_loop enc 6 0 wrap_iv (registers n plain)) as [a r]. cbn [fst snd] in *.
  intros [= <-]. rewrite take_app_length', drop_app_length' by lia.
  destruct (registers_concat r W2) as (C1 & _). rewrite W3, R2 in C1. rewrite C1, Hw.
  rewrite bool_decide_true by done. by rewrite R3.
Qed.

Lemma wrap_length `{AL : AesLaws} kek n plain c : length plain = (8 * n)%nat -> bytes plain ->
  aes_wrap kek n plain = Some c -> length c = (8 * n + 8)%nat.
Proof.
  unfold aes_wrap. intros Hl Hb. destruct (aes_encrypt kek) as [enc|] eqn:Ee; [|done].
  assert (H1 : forall b, is_block b -> is_block (enc b)) by (intros b; by apply (encrypt_block kek)).
  destruct (registers_regs n plain Hl Hb) as (R1 & R2 & R3).
  destruct (wrap_loop_regs enc H1 6 0 wrap_iv _ wrap_iv_reg R1) as ([W1 _] & W2 & W3).
  destruct (wrap_loop enc 6 0 wrap_iv (registers n plain)) as [a r]. cbn [fst snd] in *.
  intros [= <-]. destruct (registers_concat r W2) as (_ & C2 & _). rewrite length_app, C2, W1, W3, R2. lia.
Qed.

Lemma unwrap_then_wrap `{AL : AesLaws} kek n c plain : length c = (8 * n + 8)%nat -> bytes c ->
  aes_unwrap kek n c = Some plain -> aes_wrap kek n plain = Some c.
Proof.
  unfold aes_wrap, aes_unwrap. intros Hl Hb. pose proof (aes_keys kek) as Hk.
  destruct (aes_decrypt kek) as [dec|] eqn:Ed; [|done].
  destruct (aes_encrypt kek) as [enc|] eqn:Ee; [|exfalso; destruct Hk as [Hk _]; discriminate (Hk eq_refl)].
  destruct (aes_pair kek enc dec Ee Ed) as [_ H2].
  destruct (registers_regs n (drop 8 c)) as (R1 & R2 & R3); [rewrite length_drop; lia|by apply Forall_drop|].
  assert (Ha : is_reg (take 8 c)) by (split; [rewrite length_take; lia|by apply Forall_take]).
  pose proof (wrap_unwrap_loop enc dec (fun b H => proj1 (H2 b H)) (fun b H => proj2 (H2 b H)) 6 _ _ Ha R1) as Hw.
  destruct (unwrap_loop dec 6 (take 8 c) (registers n (drop 8 c))) as [a r].
  destruct Hw as (W1 & W2 & W3 & W4). destruct (bool_decide (a = wrap_iv)) eqn:E; [|discriminate].
  apply bool_decide_eq_true in E as ->. intros [= <-].
  destruct (registers_concat r W2) as (C1 & _). rewrite W3, R2 in C1. rewrite C1, W4, R3.
  by rewrite take_drop.
Qed.

(** C30: Key unwrapping accepts exactly the wrapped keys: it returns what was
    wrapped, and whatever it accepts is the wrapping of what it returns. *)
Theorem aes_unwrap_exact `{AL : AesLaws} kek n :
  (forall plain c, length plain = (8 * n)%nat -> bytes plain ->
     aes_wrap kek n plain = Some c -> aes_unwrap kek n c = Some plain) /\
  (forall c plain, length c = (8 * n + 8)%nat -> bytes c ->
     aes_unwrap kek n c = Some plain -> aes_wrap kek n plain = Some c).
Proof. split; intros; [by eapply wrap_then_unwrap|by eapply unwrap_then_wrap]. Qed.

(** ** CTR (aes-ctr.c) and CBC (aes-cbc.c) *)

(** The counter from its last octet on: the next octet is incremented only
    when this one wraps to zero. *)
Fixpoint inc_rev (l : list Z) : list Z :=
  match l with
  | [] => []
  | x :: l => let x := u8 (x + 1) in if x =? 0 then x :: inc_rev l else x :: l
  end.
Definition inc_counter (c : list Z) : list Z := rev (inc_rev (rev c)).

Fixpoint ctr_loop (enc : list Z -> list Z) (fuel : nat) (counter d : list Z) : list Z :=
  match fuel with
  | O => d
  | S fuel =>
      match d with
      | [] => []
      | _ => xor_bytes (take 16 d) (enc counter) ++ ctr_loop enc fuel (inc_counter counter) (drop 16 d)
      end
  end.

Fixpoint cbc_encrypt (enc : list Z -> list Z) (blocks : nat) (cbc d : list Z) : list Z :=
  match blocks with
  | O => d
  | S blocks =>
      let cbc := enc (xor_bytes cbc (take 16 d)) in
      cbc ++ cbc_encrypt enc blocks cbc (drop 16 d)
  end.

Fixpoint cbc_decrypt (dec : list Z -> list Z) (blocks : nat) (cbc d : list Z) : list Z :=
  match blocks with
  | O => d
  | S blocks =>
      xor_bytes (dec (take 16 d)) cbc ++ cbc_decrypt dec blocks (take 16 d) (drop 16 d)
  end.

Section stream.
Context `{AC : !AesCipher}.

(** The new contents of the buffer, or the error. *)
Definition aes_128_ctr_encrypt (key nonce d : list Z) : option (list Z) :=
  option_map (fun enc => ctr_loop enc (length d) nonce d) (aes_encrypt key).
Definition aes_128_cbc_encrypt (key iv d : list Z) : option (list Z) :=
  option_map (fun enc => cbc_encrypt enc (length d / 16) iv d) (aes_encrypt key).
Definition aes_128_cbc_decrypt (key iv d : list Z) : option (list Z) :=
  option_map (fun dec => cbc_decrypt dec (length d / 16) iv d) (aes_decrypt key).
End stream.

Lemma ctr_loop_length enc n c d : length (ctr_loop enc n c d) = length d.
Proof.
  revert c d. induction n as [|n IH]; intros c d; [done|]. cbn [ctr_loop].
  destruct d as [|x d]; [done|]. rewrite length_app, xor_bytes_length, IH, <-length_app.
  by rewrite take_drop.
Qed.

(** CTR encryption is its own inverse, whatever the function of the block. *)
Lemma ctr_loop_twice enc n c d :
  (length d <= n)%nat -> ctr_loop enc n c (ctr_loop enc n c d) = d.
Proof.
  revert c d. induction n as [|n IH]; intros c d Hn; [done|]. cbn [ctr_loop].
  destruct d as [|x d]; [done|]. set (m := x :: d) in *.
  assert (Hl : length (xor_bytes (take 16 m) (enc c)) = length (take 16 m)) by apply xor_bytes_length.
  assert (Hne : xor_bytes (take 16 m) (enc c) ++ ctr_loop enc n (inc_counter c) (drop 16 m) <> []).
  { intros E. apply (f_equal length) in E. rewrite length_app, Hl, ctr_loop_length, <-length_app in E.
    rewrite take_drop in E. discriminate E. }
  destruct (_ ++ _) as [|y l] eqn:El; [done|]. rewrite <-El. clear Hne y l El.
  assert (Hd : take 16 (xor_bytes (take 16 m) (enc c) ++ ctr_loop enc n (inc_counter c) (drop 16 m)) =
                 xor_bytes (take 16 m) (enc c) /\
               drop 16 (xor_bytes (take 16 m) (enc c) ++ ctr_loop enc n (inc_counter c) (drop 16 m)) =
                 ctr_loop enc n (inc_counter c) (drop 16 m)).
  { destruct (Nat.le_gt_cases 16 (length m)) as [Hm|Hm].
    - rewrite take_app_length', drop_app_length' by (rewrite Hl, length_take; lia). done.
    - rewrite (drop_ge m) by lia. replace (ctr_loop enc n (inc_counter c) []) with (@nil Z) by (by destruct n).
      rewrite app_nil_r, take_ge, drop_ge by (rewrite Hl, length_take; lia). done. }
  destruct Hd as [-> ->]. rewrite xor_bytes_twice, IH by (rewrite length_drop; unfold m in *; simpl in *; lia).
  apply take_drop.
Qed.

Lemma cbc_roundtrip enc dec n cbc d :
  (forall b, is_block b -> is_block (enc b)) -> (forall b, is_block b -> dec (enc b) = b) ->
  is_block cbc -> bytes d -> (16 * n <= length d)%nat ->
  cbc_decrypt dec n cbc (cbc_encrypt enc n cbc d) = d.
Proof.
  intros He Hd. revert cbc d. induction n as [|n IH]; intros cbc d Hc Hb Hn; [done|].
  cbn [cbc_encrypt cbc_decrypt].
  assert (Hx : is_block (xor_bytes cbc (take 16 d))) by (apply xor_block; [done|by apply Forall_take]).
  pose proof (He _ Hx) as Hy. set (y := enc (xor_bytes cbc (take 16 d))) in *. destruct Hy as [Hy1 Hy2].
  rewrite take_app_length', drop_app_length' by lia. unfold y at 1. rewrite Hd by exact Hx.
  rewrite (xor_bytes_comm cbc (take 16 d)) by (destruct Hc as [-> _]; rewrite length_take; lia).
  rewrite xor_bytes_twice, IH; [apply take_drop|by split|by apply Forall_drop|rewrite length_drop; lia].
Qed.

Lemma cbc_encrypt_length enc n cbc d :
  (forall b, is_block b -> is_block (enc b)) -> is_block cbc -> bytes d -> (16 * n <= length d)%nat ->
  length (cbc_encrypt enc n cbc d) = length d.
Proof.
  intros He. revert cbc d. induction n as [|n IH]; intros cbc d Hc Hb Hn; [done|]. cbn [cbc_encrypt].
  assert (Hx : is_block (xor_bytes cbc (take 16 d))) by (apply xor_block; [done|by apply Forall_take]).
  pose proof (He _ Hx) as Hy. rewrite length_app, IH;
    [|exact Hy|by apply Forall_drop|rewrite length_drop; lia]. destruct Hy as [-> _].
  rewrite length_drop. lia.
Qed.

(** The counter counts modulo 2^128. *)
Lemma be_num_app l k : be_num (l ++ k) = be_num l * 256 ^ Z.of_nat (length k) + be_num k.
Proof.
  induction l as [|x l IH]; [done|]. rewrite <-app_comm_cons, !be_num_cons, IH, length_app, Nat2Z.inj_add.
  rewrite Z.pow_add_r by lia. ring.
Qed.

Lemma inc_rev_num l :
  bytes l ->
  bytes (inc_rev l) /\ length (inc_rev l) = length l /\
  be_num (rev (inc_rev l)) = (be_num (rev l) + 1) mod 256 ^ Z.of_nat (length l).
Proof.
  induction 1 as [|x l Hx Hl (IH1 & IH2 & IH3)]; [by split; [constructor|]|]. cbn [inc_rev].
  cbv zeta. cbn [length]. rewrite Nat2Z.inj_succ, Z.pow_succ_r by lia.
  pose proof (be_num_range (rev l) (Forall_rev Hl)) as Hr. rewrite length_rev in Hr.
  set (B := 256 ^ Z.of_nat (length l)) in *. unfold byte in Hx.
  assert (HB : 0 < B) by (unfold B; apply Z.pow_pos_nonneg; lia).
  destruct (Z.eqb_spec (u8 (x + 1)) 0) as [E|E].
  - assert (x = 255) as -> by (unfold u8 in E; change (2 ^ 8) with 256 in E;
      destruct (Z.eq_dec x 255); [done|rewrite Z.mod_small in E by lia; lia]).
    rewrite E. split; [constructor; [by split|exact IH1]|]. split; [simpl; by rewrite IH2|].
    cbn [rev]. rewrite !be_num_app, IH3. cbn [be_num length]. rewrite Z.pow_0_r.
    change (256 ^ Z.of_nat 1) with 256. set (N := be_num (rev l)) in *. clearbody N.
    assert (Hc : N + 1 = B \/ N + 1 < B) by lia. destruct Hc as [Hc|Hc].
    + rewrite Hc, Z_mod_same_full. apply (Z.mod_unique _ _ 1); lia.
    + rewrite Z.mod_small by lia. apply (Z.mod_unique _ _ 0); lia.
  - assert (Hu : u8 (x + 1) = x + 1).
    { unfold u8 in *. change (2 ^ 8) with 256 in *. destruct (Z.eq_dec x 255) as [->|]; [done|].
      apply Z.mod_small. lia. }
    rewrite Hu in *. split; [constructor; [unfold byte; split; [lia|]|exact Hl]|].
    { destruct (Z.eq_dec x 255) as [->|]; [discriminate Hu|lia]. }
    split; [done|]. cbn [rev]. rewrite !be_num_app. cbn [be_num length]. rewrite Z.pow_0_r.
    change (256 ^ Z.of_nat 1) with 256. set (N := be_num (rev l)) in *. clearbody N.
    assert (x <> 255) by (intros ->; discriminate Hu).
    apply (Z.mod_unique _ _ 0); lia.
Qed.

Lemma inc_counter_num c :
  is_block c -> is_block (inc_counter c) /\ be_num (inc_counter c) = (be_num c + 1) mod 2 ^ 128.
Proof.
  intros [H1 H2]. destruct (inc_rev_num (rev c) (Forall_rev H2)) as (K1 & K2 & K3).
  rewrite rev_involutive, length_rev, H1 in K3. unfold inc_counter.
  split; [|exact K3]. split; [by rewrite length_rev, K2, length_rev|by apply Forall_rev].
Qed.

(** ** SIV (aes-siv.c) *)

Definition dbl : list Z -> list Z := gf_mulx.

(** [a[alen - blen + i] ^= b[i]], when there is room. *)
Definition xorend (a b : list Z) : list Z :=
  if (length a <? length b)%nat then a
  else take (length a - length b) a ++ xor_bytes (drop (length a - length b) a) b.

Definition pad_block (d : list Z) : list Z := take 16 (d ++ 0x80 :: replicate 15 0).

(** [v[8] &= 0x7f; v[12] &= 0x7f]. *)
Definition siv_mask (v : list Z) : list Z :=
  let v := <[8%nat := Z.land (nth 8 v 0) 0x7f]> v in <[12%nat := Z.land (nth 12 v 0) 0x7f]> v.

(** A MAC that may fail with an error or read outside its data. *)
Notation "'let!' x := e 'in' f" :=
  (match e with Some (Some x) => f | Some None => Some None | None => None end)
  (at level 10, x name, e at level 100, f at level 200).

Section siv.
Context `{AC : !AesCipher}.

(** The loop over all elements but the last. *)
Fixpoint s2v_loop (key tmp : list Z) (elems : list (list Z)) : option (option (list Z)) :=
  match elems with
  | [] => Some (Some tmp)
  | d :: elems =>
      let! tmp2 := omac1_aes_128 key d in
      s2v_loop key (xor_bytes (dbl tmp) tmp2) elems
  end.

(** [mem]: whether [os_malloc] fails.  The last element is [d]; the code's
    case of no elements at all never occurs in [aes_siv_encrypt]. *)
Definition s2v_last (mem : bool) (key tmp d : list Z) : option (option (list Z)) :=
  if (16 <=? length d)%nat then
    if mem then Some None else omac1_aes_128 key (xorend d tmp)
  else omac1_aes_128 key (xor_bytes (dbl tmp) (pad_block d)).

Definition aes_s2v (mem : bool) (key : list Z) (elems : list (list Z)) : option (option (list Z)) :=
  match rev elems with
  | [] => omac1_aes_128 key (replicate 15 0 ++ [1])
  | d :: front =>
      let! tmp := omac1_aes_128 key (replicate 16 0) in
      let! tmp := s2v_loop key tmp (rev front) in
      s2v_last mem key tmp d
  end.

(** The two halves of [key], the plain text and the associated data. *)
Definition aes_siv_encrypt (mem : bool) (key pw : list Z) (addr : list (list Z))
    : option (option (list Z)) :=
  if (5 <? length addr)%nat then Some None
  else
    let! v := aes_s2v mem (take 16 key) (addr ++ [pw]) in
    Some (option_map (fun c => v ++ c) (aes_128_ctr_encrypt (take 16 (drop 16 key)) (siv_mask v) pw)).

Definition aes_siv_decrypt (mem : bool) (key iv_crypt : list Z) (addr : list (list Z))
    : option (option (list Z)) :=
  if (length iv_crypt <? 16)%nat || (5 <? length addr)%nat then Some None
  else
    match aes_128_ctr_encrypt (take 16 (drop 16 key)) (siv_mask (take 16 iv_crypt)) (drop 16 iv_crypt) with
    | None => Some None
    | Some out =>
        let! check := aes_s2v mem (take 16 key) (addr ++ [out]) in
        if bool_decide (check = take 16 iv_crypt) then Some (Some out) else Some None
    end.
End siv.

Lemma ctr_twice `{AC : !AesCipher} key nonce d c :
  aes_128_ctr_encrypt key nonce d = Some c ->
  aes_128_ctr_encrypt key nonce c = Some d /\ length c = length d.
Proof.
  unfold aes_128_ctr_encrypt. destruct (aes_encrypt key) as [enc|]; [|discriminate]. intros [= <-].
  cbn [option_map]. rewrite ctr_loop_length. split; [|done]. by rewrite ctr_loop_twice.
Qed.

Section siv_correct.
Context `{AL : AesLaws}.

Lemma chain_block enc k1 k2 n x m :
  (forall b, is_block b -> is_block (enc b)) -> is_block x -> bytes k1 -> bytes k2 -> bytes m ->
  (length m < n)%nat -> is_block (cmac_chain enc k1 k2 x n m).
Proof.
  intros He. revert x m. induction n as [|n IH]; intros x m Hx H1 H2 Hm Hn; [lia|]. cbn [cmac_chain].
  destruct (Nat.ltb_spec 16 (length m)).
  - apply IH; try done; [|by apply Forall_drop|rewrite length_drop; lia].
    apply He, xor_block; [exact Hx|by apply Forall_take].
  - destruct (Nat.eqb_spec (length m) 16); apply He; (apply xor_block; [|assumption]);
      (apply xor_block; [exact Hx|]); [exact Hm|].
    apply Forall_app. split; [exact Hm|]. constructor; [by split|]. apply Forall_replicate. by split.
Qed.

(** CMAC of one string always succeeds. *)
Lemma omac1_aes_128_block key enc d :
  aes_encrypt key = Some enc -> bytes d ->
  exists mac, omac1_aes_128 key d = Some (Some mac) /\ is_block mac.
Proof.
  intros He Hd. pose proof (fun b => encrypt_block key enc b He) as Hb. pose proof (Hb _ zero_block) as H0.
  pose proof (gf_mulx_doubles _ H0) as [D1 _]. pose proof (gf_mulx_doubles _ D1) as [D2 _].
  destruct (decide (d = [])) as [->|Hne].
  - unfold omac1_aes_128, omac1_aes_vector. rewrite He. eexists. split; [reflexivity|].
    apply Hb, xor_block; [exact D2|]. apply Forall_insert; [apply zero_block|by split].
  - eexists. split; [apply (omac1_aes_vector_chain key enc [d]); [exact He|by constructor|by constructor|done]|].
    cbn [concat]. rewrite app_nil_r.
    apply chain_block; [exact Hb|apply zero_block|apply D1|apply D2|exact Hd|lia].
Qed.

Lemma omac1_block key d mac :
  bytes d -> omac1_aes_128 key d = Some (Some mac) -> is_block mac.
Proof.
  intros Hd H. destruct (aes_encrypt key) as [enc|] eqn:He.
  - destruct (omac1_aes_128_block key enc d He Hd) as (mac' & H' & Hb). congruence.
  - unfold omac1_aes_128, omac1_aes_vector in H. rewrite He in H. discriminate H.
Qed.

Lemma dbl_block b : is_block b -> is_block (dbl b).
Proof. intros H. apply (gf_mulx_doubles b H). Qed.

Lemma pad_block_bytes d : bytes d -> bytes (pad_block d).
Proof.
  intros H. apply Forall_take, Forall_app. split; [exact H|]. constructor; [by split|].
  apply Forall_replicate. by split.
Qed.

Lemma xorend_bytes a b : bytes a -> bytes b -> bytes (xorend a b).
Proof.
  intros Ha Hb. unfold xorend. destruct (_ <? _)%nat; [exact Ha|]. apply Forall_app.
  split; [by apply Forall_take|]. apply xor_bytes_bytes; [by apply Forall_drop|exact Hb].
Qed.

(** S2V succeeds when the key and the memory are there, and yields a block. *)
Lemma s2v_loop_total key enc tmp elems :
  aes_encrypt key = Some enc -> is_block tmp -> Forall bytes elems ->
  exists tmp', s2v_loop key tmp elems = Some (Some tmp') /\ is_block tmp'.
Proof.
  intros He Ht Hf. revert tmp Ht. induction Hf as [|d elems Hd Hf IH]; intros tmp Ht; [by exists tmp|].
  cbn [s2v_loop]. destruct (omac1_aes_128_block key enc d He Hd) as (mac & -> & Hm).
  apply IH, xor_block; [by apply dbl_block|apply Hm].
Qed.

Lemma aes_s2v_total key enc elems :
  aes_encrypt key = Some enc -> Forall bytes elems ->
  exists v, aes_s2v false key elems = Some (Some v) /\ is_block v.
Proof.
  intros He Hf. unfold aes_s2v. apply Forall_rev in Hf. destruct (rev elems) as [|d front].
  { apply (omac1_aes_128_block key enc); [exact He|]. apply Forall_app.
    split; [apply Forall_replicate|constructor; [|constructor]]; by split. }
  apply Forall_cons in Hf as [Hd Hf].
  destruct (omac1_aes_128_block key enc _ He (proj2 zero_block)) as (t0 & -> & Ht0).
  destruct (s2v_loop_total key enc t0 (rev front) He Ht0 (Forall_rev Hf)) as (t1 & -> & Ht1).
  unfold s2v_last. destruct (16 <=? length d)%nat; apply (omac1_aes_128_block key enc); try exact He.
  - apply xorend_bytes; [exact Hd|apply Ht1].
  - apply xor_bytes_bytes; [apply dbl_block, Ht1|by apply pad_block_bytes].
Qed.

Lemma aes_s2v_mem mem key elems v :
  aes_s2v mem key elems = Some (Some v) -> aes_s2v false key elems = Some (Some v).
Proof.
  destruct mem; [|done]. unfold aes_s2v. destruct (rev elems) as [|d front]; [done|].
  destruct (omac1_aes_128 _ _) as [[t0|]|]; [|done..]. destruct (s2v_loop _ _ _) as [[t1|]|]; [|done..].
  unfold s2v_last. by destruct (16 <=? length d)%nat.
Qed.

Lemma aes_s2v_block mem key elems v :
  Forall bytes elems -> aes_s2v mem key elems = Some (Some v) -> is_block v.
Proof.
  intros Hf H. apply aes_s2v_mem in H. destruct (aes_encrypt key) as [enc|] eqn:He.
  - destruct (aes_s2v_total key enc elems He Hf) as (v' & H' & Hb). congruence.
  - unfold aes_s2v, omac1_aes_128, omac1_aes_vector in H. rewrite He in H.
    destruct (rev elems); discriminate H.
Qed.

(** C15: SIV decryption accepts exactly the SIV encryptions under the same key
    and associated data, and returns the plain text; encryption fails only
    for a bad key, no memory or more than five strings of associated data. *)
Theorem aes_siv_exact mem key addr :
  Forall bytes addr ->
  (forall pw c, bytes pw -> aes_siv_encrypt mem key pw addr = Some (Some c) ->
     aes_siv_decrypt mem key c addr = Some (Some pw)) /\
  (forall c pw, aes_siv_decrypt mem key c addr = Some (Some pw) ->
     aes_siv_encrypt mem key pw addr = Some (Some c)) /\
  (forall pw, bytes pw -> (length addr <= 5)%nat -> mem = false ->
     aes_encrypt (take 16 key) <> None -> aes_encrypt (take 16 (drop 16 key)) <> None ->
     exists c, aes_siv_encrypt mem key pw addr = Some (Some c) /\ length c = (16 + length pw)%nat).
Proof.
  intros Ha. assert (Hall : forall pw, bytes pw -> Forall bytes (addr ++ [pw])).
  { intros pw Hp. apply Forall_app. split; [exact Ha|by constructor]. }
  unfold aes_siv_encrypt, aes_siv_decrypt. split; [|split].
  - intros pw c Hp. destruct (5 <? length addr)%nat; [discriminate|].
    destruct (aes_s2v mem (take 16 key) (addr ++ [pw])) as [[v|]|] eqn:Ev; [|discriminate..].
    destruct (aes_s2v_block mem _ _ v (Hall pw Hp) Ev) as [Hv _].
    destruct (aes_128_ctr_encrypt _ (siv_mask v) pw) as [ct|] eqn:Ec; [|discriminate].
    cbn [option_map]. intros [= <-]. rewrite (proj2 (Nat.ltb_ge _ 16)) by (rewrite length_app; lia).
    cbn [orb]. rewrite take_app_length', drop_app_length' by lia.
    rewrite (proj1 (ctr_twice _ _ _ _ Ec)), Ev. by rewrite bool_decide_true.
  - intros c pw. destruct (length c <? 16)%nat; [discriminate|]. cbn [orb].
    destruct (5 <? length addr)%nat; [discriminate|].
    destruct (aes_128_ctr_encrypt _ _ (drop 16 c)) as [out|] eqn:Ec; [|discriminate].
    destruct (aes_s2v mem (take 16 key) (addr ++ [out])) as [[v|]|] eqn:Ev; [|discriminate..].
    destruct (bool_decide (v = take 16 c)) eqn:E; [|discriminate]. apply bool_decide_eq_true in E as ->.
    intros [= <-]. rewrite Ev, (proj1 (ctr_twice _ _ _ _ Ec)). cbn [option_map]. by rewrite take_drop.
  - intros pw Hp Hn -> Hk1 Hk2. rewrite (proj2 (Nat.ltb_ge 5 _)) by lia.
    destruct (aes_encrypt (take 16 key)) as [enc|] eqn:He; [|done].
    destruct (aes_s2v_total (take 16 key) enc (addr ++ [pw]) He
      (Hall pw Hp)) as (v & -> & [Hv _]).
    unfold aes_128_ctr_encrypt. destruct (aes_encrypt (take 16 (drop 16 key))) as [enc2|]; [|done].
    eexists. split; [reflexivity|]. cbn. rewrite length_app, ctr_loop_length. lia.
Qed.
End siv_correct.

(** ** A concrete cipher

    A keyed permutation of the blocks, to evaluate the modes on. *)

Definition demo_key_ok (key : list Z) : bool :=
  (length key =? 16)%nat && forallb (fun b => (0 <=? b) && (b <? 256)) key.

#[local] Instance demo_cipher : AesCipher := {|
  aes_encrypt key := if demo_key_ok key then Some (fun b => rev (xor_bytes b key)) else None;
  aes_decrypt key := if demo_key_ok key then Some (fun b => xor_bytes (rev b) key) else None
|}.

Lemma demo_key key : demo_key_ok key = true -> is_block key.
Proof.
  unfold demo_key_ok, is_block. rewrite andb_true_iff, Nat.eqb_eq, forallb_forall. intros [H1 H2].
  split; [exact H1|]. apply List.Forall_forall. intros b Hb. specialize (H2 b Hb). unfold byte. lia.
Qed.

Lemma rev_block b : is_block b -> is_block (rev b).
Proof. intros [H1 H2]. split; [by rewrite length_rev|by apply Forall_rev]. Qed.

#[local] Instance demo_cipher_laws : AesLaws (AC := demo_cipher).
Proof.
  split.
  - intros key enc b. cbn. destruct (demo_key_ok key) eqn:E; [|discriminate]. intros [= <-] Hb.
    apply rev_block, xor_block; [exact Hb|apply (demo_key key E)].
  - intros key. cbn. by destruct (demo_key_ok key).
  - intros key enc dec b. cbn. destruct (demo_key_ok key) eqn:E; [|discriminate]. intros [= <-] [= <-] Hb.
    rewrite rev_involutive. apply xor_bytes_twice.
  - intros key enc dec b. cbn. destruct (demo_key_ok key) eqn:E; [|discriminate]. intros [= <-] [= <-] Hb.
    split; [apply xor_block; [by apply rev_block|apply (demo_key key E)]|].
    rewrite xor_bytes_twice. apply rev_involutive.
Qed.

Definition demo_kek : list Z := map Z.of_nat (seq 3 16).
Definition demo_enc (b : list Z) : list Z := rev (xor_bytes b demo_kek).

(** Seventeen octets in two elements: a full block, then a padded one. *)
Lemma omac1_aes_vector_cmac_witness :
  exists k1 k2, doubles k1 (demo_enc (replicate 16 0)) /\ doubles k2 k1 /\
    omac1_aes_vector demo_kek [map Z.of_nat (seq 100 10); map Z.of_nat (seq 200 7)] =
      Some (Some (cmac demo_enc k1 k2 (map Z.of_nat (seq 100 10 ++ seq 200 7)))).
Proof.
  apply (omac1_aes_vector_cmac demo_kek demo_enc [map Z.of_nat (seq 100 10); map Z.of_nat (seq 200 7)]).
  - reflexivity.
  - repeat constructor; discriminate.
  - repeat constructor; discriminate.
  - discriminate.
Defined.

Definition demo_wrapped : list Z :=
  match aes_wrap demo_kek 2 (map Z.of_nat (seq 40 16)) with Some c => c | None => [] end.

Lemma aes_unwrap_exact_witness :
  aes_unwrap demo_kek 2 demo_wrapped = Some (map Z.of_nat (seq 40 16)) /\
  aes_unwrap demo_kek 2 (1 :: drop 1 demo_wrapped) = None.
Proof.
  split; [|vm_compute; reflexivity].
  pose proof (aes_unwrap_exact demo_kek 2) as [H _]. apply H.
  - reflexivity.
  - repeat constructor; discriminate.
  - vm_compute. reflexivity.
Defined.

Definition demo_sealed : list Z :=
  match aes_siv_encrypt false (demo_kek ++ demo_kek) [1; 2; 3] [[7; 8]] with
  | Some (Some c) => c
  | _ => []
  end.

Lemma aes_siv_exact_witness :
  aes_siv_decrypt false (demo_kek ++ demo_kek) demo_sealed [[7; 8]] = Some (Some [1; 2; 3]) /\
  aes_siv_decrypt false (demo_kek ++ demo_kek) demo_sealed [[7; 9]] = Some None.
Proof.
  split; [|vm_compute; reflexivity].
  assert (Ha : Forall bytes [[7; 8]]) by (repeat constructor; discriminate).
  pose proof (aes_siv_exact false (demo_kek ++ demo_kek) [[7; 8]] Ha) as [H _]. apply H.
  - repeat constructor; discriminate.
  - vm_compute. reflexivity.
Defined.
