(* ===== verification/Hash.v ===== *)
(** * Hash functions (src/src/crypto)

    MD5, SHA-1 and SHA-256 as contexts that are updated with one part of the
    message after the other (md5-internal.c, sha1-internal.c,
    sha256-internal.c), HMAC on them (md5.c, sha1.c, sha256.c) and the key
    derivation functions (sha1-prf.c, sha256-prf.c).  A context is the record
    of its C structure; its buffer is the list of its 64 octets, a word is an
    integer below 2^32.

    The reference definition is the one of the standards: the message is
    padded, cut into blocks of 64 octets, and the blocks are chained through
    the compression function ([md_hash]). *)

From Stdlib Require Import String.
From S2P Require Import Prelude.
From S2P Require Import Wpabuf.
From S2P Require Import Common.
From S2P Require Import Aes.

(** ** Words *)

Definition MASK32 : Z := 0xFFFFFFFF.

(** [rol(value, bits)] on an unsigned word. *)
Definition rol (value bits : Z) : Z :=
  Z.lor (u32 (Z.shiftl value bits)) (Z.shiftr value (32 - bits)).

(** A word in memory, on a little-endian machine. *)
Definition get_le32 (a : list Z) (i : Z) : Z :=
  Z.lor (Z.lor (Z.lor (Z.shiftl (byte_at a (i + 3)) 24) (Z.shiftl (byte_at a (i + 2)) 16))
               (Z.shiftl (byte_at a (i + 1)) 8)) (byte_at a i).
Definition put_le32 (w : Z) : list Z :=
  [Z.land w 0xff; Z.land (Z.shiftr w 8) 0xff; Z.land (Z.shiftr w 16) 0xff;
   Z.land (Z.shiftr w 24) 0xff].

Definition word (l : list Z) (i : nat) : Z := nth i l 0.
Definition add_words (l k : list Z) : list Z := zip_with (fun a b => u32 (a + b)) l k.

(** The words of a block. *)
Definition words (get : list Z -> Z -> Z) (b : list Z) : list Z :=
  map (fun i => get b (4 * Z.of_nat i)) (seq 0 16).

(** ** SHA-1 (sha1-internal.c) *)

Definition blk0 (l : list Z) (i : nat) : Z * list Z :=
  let w := Z.lor (Z.land (rol (word l i) 24) 0xFF00FF00) (Z.land (rol (word l i) 8) 0x00FF00FF) in
  (w, <[i := w]> l).
Definition blk (l : list Z) (i : nat) : Z * list Z :=
  let w := rol (Z.lxor (Z.lxor (Z.lxor (word l ((i + 13) mod 16)) (word l ((i + 8) mod 16)))
                               (word l ((i + 2) mod 16))) (word l (i mod 16))) 1 in
  (w, <[(i mod 16)%nat := w]> l).

(** The variables [a .. e], in the roles [v, w, x, y, z] of the next round. *)
Definition sha1_vars : Type := (Z * Z * Z * Z * Z)%type.

(** One of [R0 .. R4]; after it the roles move on by one variable. *)
Definition sha1_round (f : Z -> Z -> Z -> Z) (k : Z) (sched : list Z -> nat -> Z * list Z)
    (i : nat) (s : sha1_vars * list Z) : sha1_vars * list Z :=
  let '((v, w, x, y, z), l) := s in
  let '(t, l) := sched l i in
  (u32 (z + (f w x y + t + k + rol v 5)), v, rol w 30, x, y, l).

Definition R0 := sha1_round (fun w x y => Z.lxor (Z.land w (Z.lxor x y)) y) 0x5A827999 blk0.
Definition R1 := sha1_round (fun w x y => Z.lxor (Z.land w (Z.lxor x y)) y) 0x5A827999 blk.
Definition R2 := sha1_round (fun w x y => Z.lxor (Z.lxor w x) y) 0x6ED9EBA1 blk.
Definition R3 := sha1_round (fun w x y => Z.lor (Z.land (Z.lor w x) y) (Z.land w x)) 0x8F1BBCDC blk.
Definition R4 := sha1_round (fun w x y => Z.lxor (Z.lxor w x) y) 0xCA62C1D6 blk.

(** The rounds [from .. from+n). *)
Fixpoint rounds {A} (r : nat -> A -> A) (from n : nat) (s : A) : A :=
  match n with
  | O => s
  | Datatypes.S n => rounds r (Datatypes.S from) n (r from s)
  end.

Definition SHA1Transform (state buffer : list Z) : list Z :=
  let s := ((word state 0, word state 1, word state 2, word state 3, word state 4),
            words get_le32 buffer) in
  let s := rounds R0 0 16 s in
  let s := rounds R1 16 4 s in
  let s := rounds R2 20 20 s in
  let s := rounds R3 40 20 s in
  let '((a, b, c, d, e), _) := rounds R4 60 20 s in
  add_words state [a; b; c; d; e].

(** ** SHA-256 (sha256-internal.c) *)

(** The table [K], in decimal. *)
Definition K256 : list Z :=
  [1116352408; 1899447441; 3049323471; 3921009573; 961987163;
   1508970993; 2453635748; 2870763221; 3624381080; 310598401;
   607225278; 1426881987; 1925078388; 2162078206; 2614888103;
   3248222580; 3835390401; 4022224774; 264347078; 604807628;
   770255983; 1249150122; 1555081692; 1996064986; 2554220882;
   2821834349; 2952996808; 3210313671; 3336571891; 3584528711;
   113926993; 338241895; 666307205; 773529912; 1294757372;
   1396182291; 1695183700; 1986661051; 2177026350; 2456956037;
   2730485921; 2820302411; 3259730800; 3345764771; 3516065817;
   3600352804; 4094571909; 275423344; 430227734; 506948616;
   659060556; 883997877; 958139571; 1322822218; 1537002063;
   1747873779; 1955562222; 2024104815; 2227730452; 2361852424;
   2428436474; 2756734187; 3204031479; 3329325298].

Definition RORc (x y : Z) : Z :=
  Z.land (Z.lor (Z.shiftr (Z.land x MASK32) (Z.land y 31)) (Z.shiftl x (32 - Z.land y 31))) MASK32.
Definition Ch (x y z : Z) : Z := Z.lxor z (Z.land x (Z.lxor y z)).
Definition Maj (x y z : Z) : Z := Z.lor (Z.land (Z.lor x y) z) (Z.land x y).
Definition Rsh (x n : Z) : Z := Z.shiftr (Z.land x MASK32) n.
Definition Sigma0 (x : Z) : Z := Z.lxor (Z.lxor (RORc x 2) (RORc x 13)) (RORc x 22).
Definition Sigma1 (x : Z) : Z := Z.lxor (Z.lxor (RORc x 6) (RORc x 11)) (RORc x 25).
Definition Gamma0 (x : Z) : Z := Z.lxor (Z.lxor (RORc x 7) (RORc x 18)) (Rsh x 3).
Definition Gamma1 (x : Z) : Z := Z.lxor (Z.lxor (RORc x 17) (RORc x 19)) (Rsh x 10).

(** [W[16..63]]. *)
Definition sha256_extend (i : nat) (W : list Z) : list Z :=
  W ++ [u32 (Gamma1 (word W (i - 2)) + word W (i - 7) + Gamma0 (word W (i - 15)) + word W (i - 16))].

(** [RND], after which the elements of [S] move up by one place. *)
Definition sha256_round (W : list Z) (i : nat) (S : list Z) : list Z :=
  match S with
  | [a; b; c; d; e; f; g; h] =>
      let t0 := u32 (h + Sigma1 e + Ch e f g + word K256 i + word W i) in
      let t1 := u32 (Sigma0 a + Maj a b c) in
      [u32 (t0 + t1); a; b; c; u32 (d + t0); e; f; g]
  | _ => S
  end.

Definition sha256_compress (state buf : list Z) : list Z :=
  let W := rounds sha256_extend 16 48 (words WPA_GET_BE32 buf) in
  add_words state (rounds (sha256_round W) 0 64 state).

(** ** MD5 (md5-internal.c) *)

Definition lnot32 (z : Z) : Z := Z.lxor z MASK32.
Definition F1 (x y z : Z) : Z := Z.lxor z (Z.land x (Z.lxor y z)).
Definition F2 (x y z : Z) : Z := F1 z x y.
Definition F3 (x y z : Z) : Z := Z.lxor (Z.lxor x y) z.
Definition F4 (x y z : Z) : Z := Z.lxor y (Z.lor x (lnot32 z)).

(** [MD5STEP(f, w, x, y, z, in[i] + k, s)], after which the variables move on
    by one role. *)
Definition MD5STEP (inw : list Z) (v : Z * Z * Z * Z) (step : (Z -> Z -> Z -> Z) * (Z * Z * Z))
    : Z * Z * Z * Z :=
  let '(w, x, y, z) := v in
  let '(f, (i, k, s)) := step in
  let w := u32 (w + (f x y z + u32 (word inw (Z.to_nat i) + k))) in
  (z, u32 (rol w s + x), x, y).

Definition md5_steps1 : list (Z * Z * Z) :=
  [(0, 0xd76aa478, 7); (1, 0xe8c7b756, 12); (2, 0x242070db, 17); (3, 0xc1bdceee, 22);
   (4, 0xf57c0faf, 7); (5, 0x4787c62a, 12); (6, 0xa8304613, 17); (7, 0xfd469501, 22);
   (8, 0x698098d8, 7); (9, 0x8b44f7af, 12); (10, 0xffff5bb1, 17); (11, 0x895cd7be, 22);
   (12, 0x6b901122, 7); (13, 0xfd987193, 12); (14, 0xa679438e, 17); (15, 0x49b40821, 22)].
Definition md5_steps2 : list (Z * Z * Z) :=
  [(1, 0xf61e2562, 5); (6, 0xc040b340, 9); (11, 0x265e5a51, 14); (0, 0xe9b6c7aa, 20);
   (5, 0xd62f105d, 5); (10, 0x02441453, 9); (15, 0xd8a1e681, 14); (4, 0xe7d3fbc8, 20);
   (9, 0x21e1cde6, 5); (14, 0xc33707d6, 9); (3, 0xf4d50d87, 14); (8, 0x455a14ed, 20);
   (13, 0xa9e3e905, 5); (2, 0xfcefa3f8, 9); (7, 0x676f02d9, 14); (12, 0x8d2a4c8a, 20)].
Definition md5_steps3 : list (Z * Z * Z) :=
  [(5, 0xfffa3942, 4); (8, 0x8771f681, 11); (11, 0x6d9d6122, 16); (14, 0xfde5380c, 23);
   (1, 0xa4beea44, 4); (4, 0x4bdecfa9, 11); (7, 0xf6bb4b60, 16); (10, 0xbebfbc70, 23);
   (13, 0x289b7ec6, 4); (0, 0xeaa127fa, 11); (3, 0xd4ef3085, 16); (6, 0x04881d05, 23);
   (9, 0xd9d4d039, 4); (12, 0xe6db99e5, 11); (15, 0x1fa27cf8, 16); (2, 0xc4ac5665, 23)].
Definition md5_steps4 : list (Z * Z * Z) :=
  [(0, 0xf4292244, 6); (7, 0x432aff97, 10); (14, 0xab9423a7, 15); (5, 0xfc93a039, 21);
   (12, 0x655b59c3, 6); (3, 0x8f0ccc92, 10); (10, 0xffeff47d, 15); (1, 0x85845dd1, 21);
   (8, 0x6fa87e4f, 6); (15, 0xfe2ce6e0, 10); (6, 0xa3014314, 15); (13, 0x4e0811a1, 21);
   (4, 0xf7537e82, 6); (11, 0xbd3af235, 10); (2, 0x2ad7d2bb, 15); (9, 0xeb86d391, 21)].

Definition MD5Transform (buf block : list Z) : list Z :=
  let inw := words get_le32 block in
  let steps := map (pair F1) md5_steps1 ++ map (pair F2) md5_steps2 ++
               map (pair F3) md5_steps3 ++ map (pair F4) md5_steps4 in
  let '(a, b, c, d) := fold_left (MD5STEP inw) steps (word buf 0, word buf 1, word buf 2, word buf 3) in
  add_words buf [a; b; c; d].

(** ** Contexts *)

(** [struct SHA1Context]; [struct MD5Context] calls the members [buf],
    [bits] and [in]. *)
Record hash_ctx := mk_ctx { h_state : list Z; count0 : Z; count1 : Z; h_buffer : list Z }.

(** [struct sha256_state] *)
Record sha256_state := mk_sha256 { s_length : Z; s_state : list Z; curlen : Z; s_buf : list Z }.

Section streaming.
Context (transform : list Z -> list Z -> list Z).

(** The two words of the bit count after [len] more octets. *)
Definition add_bits (c : hash_ctx) (len : Z) : Z * Z :=
  let c0 := u32 (count0 c + u32 (Z.shiftl len 3)) in
  (c0, u32 (count1 c + (if c0 <? u32 (Z.shiftl len 3) then 1 else 0) + Z.shiftr len 29)).

(** [for ( ; i + 63 < len; i += 64)] *)
Fixpoint sha1_blocks (fuel : nat) (len : Z) (data : list Z) (i : Z) (st : list Z) : list Z * Z :=
  match fuel with
  | O => (st, i)
  | Datatypes.S fuel =>
      if u32 (i + 63) <? len
      then sha1_blocks fuel len data (u32 (i + 64)) (transform st (slice data i 64))
      else (st, i)
  end.

Definition sha1_update (c : hash_ctx) (data : list Z) : hash_ctx :=
  let len := u32 (zlen data) in
  let j := Z.land (Z.shiftr (count0 c) 3) 63 in
  let '(c0, c1) := add_bits c len in
  if 63 <? u32 (j + len) then
    let i := 64 - j in
    let buf := mem_write j (slice data 0 i) (h_buffer c) in
    let '(st, i) := sha1_blocks (Z.to_nat (len / 64)) len data i (transform (h_state c) buf) in
    mk_ctx st c0 c1 (mem_write 0 (slice data i (len - i)) buf)
  else mk_ctx (h_state c) c0 c1 (mem_write j (slice data 0 len) (h_buffer c)).

(** [while ((context->count[0] & 504) != 448)] *)
Fixpoint sha1_zeros (fuel : nat) (c : hash_ctx) : hash_ctx :=
  match fuel with
  | O => c
  | Datatypes.S fuel =>
      if Z.land (count0 c) 504 =? 448 then c else sha1_zeros fuel (sha1_update c [0])
  end.

Definition sha1_final (c : hash_ctx) : list Z :=
  let finalcount := map (fun i =>
    Z.land (Z.shiftr (if 4 <=? i then count0 c else count1 c) ((3 - Z.land i 3) * 8)) 255)
    [0; 1; 2; 3; 4; 5; 6; 7] in
  let c := sha1_update c [0x80] in
  let c := sha1_zeros 64 c in
  let c := sha1_update c finalcount in
  map (fun i => Z.land (Z.shiftr (word (h_state c) (i / 4)) ((3 - Z.of_nat (i mod 4)) * 8)) 255)
      (seq 0 20).

(** [while (len >= 64)]; what is left of the data, and the buffer. *)
Fixpoint md5_blocks (fuel : nat) (len : Z) (data st inb : list Z) : Z * list Z * list Z * list Z :=
  match fuel with
  | O => (len, data, st, inb)
  | Datatypes.S fuel =>
      if 64 <=? len then
        let inb := mem_write 0 (slice data 0 64) inb in
        md5_blocks fuel (len - 64) (drop 64 data) (transform st inb) inb
      else (len, data, st, inb)
  end.

Definition md5_rest (len : Z) (data st : list Z) (bits : Z * Z) (inb : list Z) : hash_ctx :=
  let '(len, data, st, inb) := md5_blocks (Z.to_nat (len / 64)) len data st inb in
  mk_ctx st (fst bits) (snd bits) (mem_write 0 (slice data 0 len) inb).

Definition md5_update (c : hash_ctx) (data : list Z) : hash_ctx :=
  let len := u32 (zlen data) in
  let t := count0 c in
  let b0 := u32 (t + u32 (Z.shiftl len 3)) in
  let b1 := u32 (count1 c + (if b0 <? t then 1 else 0) + Z.shiftr len 29) in
  let t := Z.land (Z.shiftr t 3) 0x3f in
  if negb (t =? 0) then
    let n := 64 - t in
    if len <? n then mk_ctx (h_state c) b0 b1 (mem_write t (slice data 0 len) (h_buffer c))
    else
      let inb := mem_write t (slice data 0 n) (h_buffer c) in
      md5_rest (len - n) (drop (Z.to_nat n) data) (transform (h_state c) inb) (b0, b1) inb
  else md5_rest len data (h_state c) (b0, b1) (h_buffer c).

Definition md5_final (c : hash_ctx) : list Z :=
  let count := Z.land (Z.shiftr (count0 c) 3) 0x3f in
  let inb := mem_write count [0x80] (h_buffer c) in
  let p := count + 1 in
  let count := 64 - 1 - count in
  let '(st, inb) :=
    if count <? 8 then
      let inb := mem_write p (replicate (Z.to_nat count) 0) inb in
      (transform (h_state c) inb, mem_write 0 (replicate 56 0) inb)
    else (h_state c, mem_write p (replicate (Z.to_nat (count - 8)) 0) inb) in
  let inb := mem_write 60 (put_le32 (count1 c)) (mem_write 56 (put_le32 (count0 c)) inb) in
  concat (map put_le32 (transform st inb)).

(** [sha256_process]; [None] is the error -1.  An iteration takes at least
    one octet. *)
Fixpoint sha256_loop (fuel : nat) (md : sha256_state) (d : list Z) : sha256_state :=
  match fuel with
  | O => md
  | Datatypes.S fuel =>
      if 0 <? zlen d then
        if (curlen md =? 0) && (64 <=? zlen d) then
          sha256_loop fuel
            (mk_sha256 (u64 (s_length md + 512)) (transform (s_state md) (slice d 0 64))
               (curlen md) (s_buf md)) (drop 64 d)
        else
          let n := Z.min (zlen d) (64 - curlen md) in
          let buf := mem_write (curlen md) (slice d 0 n) (s_buf md) in
          let cur := curlen md + n in
          if cur =? 64 then
            sha256_loop fuel
              (mk_sha256 (u64 (s_length md + 512)) (transform (s_state md) buf) 0 buf)
              (drop (Z.to_nat n) d)
          else
            sha256_loop fuel (mk_sha256 (s_length md) (s_state md) cur buf) (drop (Z.to_nat n) d)
      else md
  end.

Definition sha256_update (md : sha256_state) (d : list Z) : option sha256_state :=
  if 64 <=? curlen md then None else Some (sha256_loop (length d) md d).

Definition sha256_finish (md : sha256_state) : option (list Z) :=
  if 64 <=? curlen md then None
  else
    let len := u64 (s_length md + curlen md * 8) in
    let buf := mem_write (curlen md) [0x80] (s_buf md) in
    let cur := curlen md + 1 in
    let '(st, cur, buf) :=
      if 56 <? cur then
        let buf := mem_write cur (replicate (Z.to_nat (64 - cur)) 0) buf in
        (transform (s_state md) buf, 0, buf)
      else (s_state md, cur, buf) in
    let buf := mem_write cur (replicate (Z.to_nat (56 - cur)) 0) buf in
    let buf := mem_write 56 (WPA_PUT_BE32 (Z.shiftr len 32) ++ WPA_PUT_BE32 len) buf in
    Some (concat (map WPA_PUT_BE32 (transform st buf))).
End streaming.

(** ** The hash of a vector of elements *)

Definition md5_iv : list Z := [0x67452301; 0xefcdab89; 0x98badcfe; 0x10325476].
Definition sha1_iv : list Z := [0x67452301; 0xEFCDAB89; 0x98BADCFE; 0x10325476; 0xC3D2E1F0].
Definition sha256_iv : list Z :=
  [0x6A09E667; 0xBB67AE85; 0x3C6EF372; 0xA54FF53A; 0x510E527F; 0x9B05688C; 0x1F83D9AB; 0x5BE0CD19].

(** The initial contents of the buffer are those of the stack: [junk]. *)
Definition SHA1Init (junk : list Z) : hash_ctx := mk_ctx sha1_iv 0 0 junk.
Definition MD5Init (junk : list Z) : hash_ctx := mk_ctx md5_iv 0 0 junk.
Definition sha256_init (junk : list Z) : sha256_state := mk_sha256 0 sha256_iv 0 junk.

Definition SHA1Update := sha1_update SHA1Transform.
Definition SHA1Final := sha1_final SHA1Transform.
Definition MD5Update := md5_update MD5Transform.
Definition MD5Final := md5_final MD5Transform.
Definition sha256_process := sha256_update sha256_compress.
Definition sha256_done := sha256_finish sha256_compress.

Definition sha1_from (junk : list Z) (elems : list (list Z)) : list Z :=
  SHA1Final (fold_left SHA1Update elems (SHA1Init junk)).
Definition md5_from (junk : list Z) (elems : list (list Z)) : list Z :=
  MD5Final (fold_left MD5Update elems (MD5Init junk)).

Fixpoint sha256_elems (md : sha256_state) (elems : list (list Z)) : option sha256_state :=
  match elems with
  | [] => Some md
  | e :: elems =>
      match sha256_process md e with None => None | Some md => sha256_elems md elems end
  end.
Definition sha256_from (junk : list Z) (elems : list (list Z)) : option (list Z) :=
  match sha256_elems (sha256_init junk) elems with
  | None => None
  | Some md => sha256_done md
  end.

(** The result does not depend on the junk ([hash_vectors_exact]). *)
Definition stack_junk : list Z := replicate 64 0xa5.
Definition sha1_vector := sha1_from stack_junk.
Definition md5_vector := md5_from stack_junk.
Definition sha256_vector := sha256_from stack_junk.

(** ** HMAC (md5.c, sha1.c, sha256.c) *)

(** [os_memset(k_pad, 0, 64); os_memcpy(k_pad, key, key_len); k_pad[i] ^= x]. *)
Definition k_pad (x : Z) (key : list Z) : list Z :=
  map (fun b => Z.lxor b x) (mem_write 0 key (replicate 64 0)).

(** The three files differ in the hash function only. *)
Definition hmac_vector (H : list (list Z) -> option (list Z)) (key : list Z) (elems : list (list Z))
    : option (list Z) :=
  if (5 <? length elems)%nat then None
  else
    let? key := (if 64 <? zlen key then H [key] else Some key) in
    let? mac := H (k_pad 0x36 key :: elems) in
    H [k_pad 0x5c key; mac].

Definition hmac_md5_vector := hmac_vector (fun l => Some (md5_vector l)).
Definition hmac_sha1_vector := hmac_vector (fun l => Some (sha1_vector l)).
Definition hmac_sha256_vector := hmac_vector sha256_vector.
Definition hmac_md5 (key d : list Z) := hmac_md5_vector key [d].
Definition hmac_sha1 (key d : list Z) := hmac_sha1_vector key [d].
Definition hmac_sha256 (key d : list Z) := hmac_sha256_vector key [d].

(** ** Pseudo-random functions (sha1-prf.c, sha256-prf.c) *)

(** [while (pos < buf_len)], with [left] octets still to be written. *)
Fixpoint sha1_prf_loop (fuel : nat) (key label d : list Z) (counter left : Z) : option (list Z) :=
  match fuel with
  | O => Some []
  | Datatypes.S fuel =>
      if 0 <? left then
        let? hash := hmac_sha1_vector key [label; d; [counter]] in
        if 20 <=? left then
          let? more := sha1_prf_loop fuel key label d (u8 (counter + 1)) (left - 20) in
          Some (hash ++ more)
        else Some (slice hash 0 left)
      else Some []
  end.

(** The label includes its terminating NUL. *)
Definition sha1_prf (key : list Z) (label : string) (d : list Z) (buf_len : Z) : option (list Z) :=
  sha1_prf_loop (Z.to_nat (buf_len / 20 + 1)) key (chars label ++ [0]) d 0 buf_len.

Definition WPA_PUT_LE16 (v : Z) : list Z := [Z.land (u16 v) 0xff; Z.shiftr (u16 v) 8].

Fixpoint sha256_prf_loop (fuel : nat) (key label d length_le : list Z) (counter left : Z)
    : option (list Z) :=
  match fuel with
  | O => Some []
  | Datatypes.S fuel =>
      if 0 <? left then
        let? hash := hmac_sha256_vector key [WPA_PUT_LE16 counter; label; d; length_le] in
        if 32 <=? left then
          let? more := sha256_prf_loop fuel key label d length_le (u16 (counter + 1)) (left - 32) in
          Some (hash ++ more)
        else Some (slice hash 0 left)
      else Some []
  end.

(** [buf[pos - 1] &= mask]. *)
Definition mask_last (bits : Z) (buf : list Z) : list Z :=
  if bits mod 8 =? 0 then buf
  else
    let mask := u8 (Z.shiftl 0xff (8 - bits mod 8)) in
    match rev buf with
    | [] => []
    | b :: l => rev (Z.land b mask :: l)
    end.

Definition sha256_prf_bits (key : list Z) (label : string) (d : list Z) (buf_len_bits : Z)
    : option (list Z) :=
  let buf_len := (buf_len_bits + 7) / 8 in
  let? buf := sha256_prf_loop (Z.to_nat (buf_len / 32 + 1)) key (chars label) d
                (WPA_PUT_LE16 buf_len_bits) 1 buf_len in
  Some (mask_last buf_len_bits buf).

Definition sha256_prf (key : list Z) (label : string) (d : list Z) (buf_len : Z) : option (list Z) :=
  sha256_prf_bits key label d (buf_len * 8).

(** ** RC4 (rc4.c) *)

Definition S_SWAP (a b : Z) (sb : list Z) : list Z :=
  let t := word sb (Z.to_nat a) in
  <[Z.to_nat b := t]> (<[Z.to_nat a := word sb (Z.to_nat b)]> sb).

(** [for (i = 0; i < 256; i++)]: the key schedule, with [kpos] running
    through the key again and again. *)
Fixpoint rc4_setup (n : nat) (i j kpos : Z) (key sb : list Z) : list Z :=
  match n with
  | O => sb
  | Datatypes.S n =>
      let j := Z.land (j + word sb (Z.to_nat i) + byte_at key kpos) 0xff in
      let kpos := if zlen key <=? kpos + 1 then 0 else kpos + 1 in
      rc4_setup n (i + 1) j kpos key (S_SWAP i j sb)
  end.

Definition rc4_next (st : Z * Z * list Z) : Z * Z * list Z :=
  let '(i, j, sb) := st in
  let i := Z.land (i + 1) 0xff in
  let j := Z.land (j + word sb (Z.to_nat i)) 0xff in
  (i, j, S_SWAP i j sb).

Fixpoint rc4_apply (st : Z * Z * list Z) (d : list Z) : list Z :=
  match d with
  | [] => []
  | x :: d =>
      let st := rc4_next st in
      let '(i, j, sb) := st in
      Z.lxor x (word sb (Z.to_nat (Z.land (word sb (Z.to_nat i) + word sb (Z.to_nat j)) 0xff))) ::
      rc4_apply st d
  end.

Definition rc4_skip (key : list Z) (skip : nat) (d : list Z) : list Z :=
  let sb := rc4_setup 256 0 0 0 key (map Z.of_nat (seq 0 256)) in
  rc4_apply (Nat.iter skip rc4_next (0, 0, sb)) d.

(** ** The reference definition *)

(** [n] blocks of [l] chained through the compression function. *)
Fixpoint chain (transform : list Z -> list Z -> list Z) (n : nat) (st l : list Z) : list Z :=
  match n with
  | O => st
  | Datatypes.S n => chain transform n (transform st (take 64 l)) (drop 64 l)
  end.

(** The message, one bit, zeros up to 56 octets modulo 64, and the number of
    bits of the message in 64 bits. *)
Definition md_padded (enc : Z -> list Z) (m : list Z) : list Z :=
  m ++ 0x80 :: replicate (Z.to_nat ((55 - zlen m) mod 64)) 0 ++ enc (u64 (8 * zlen m)).

Definition md_hash (transform : list Z -> list Z -> list Z) (iv : list Z) (enc : Z -> list Z)
    (out : Z -> list Z) (m : list Z) : list Z :=
  let p := md_padded enc m in
  concat (map out (chain transform (length p / 64) iv p)).

(** The compression function of SHA-1 as FIPS 180 has it: the functions and
    constants of the rounds, the schedule of 80 words, and a round. *)
Definition fips_f (t : nat) (b c d : Z) : Z :=
  if (t <? 20)%nat then Z.lxor (Z.land b c) (Z.land (Z.lnot b) d)
  else if (t <? 40)%nat then Z.lxor (Z.lxor b c) d
  else if (t <? 60)%nat then Z.lxor (Z.lxor (Z.land b c) (Z.land b d)) (Z.land c d)
  else Z.lxor (Z.lxor b c) d.
Definition fips_k (t : nat) : Z :=
  if (t <? 20)%nat then 0x5a827999 else if (t <? 40)%nat then 0x6ed9eba1
  else if (t <? 60)%nat then 0x8f1bbcdc else 0xca62c1d6.
Definition fips_extend (t : nat) (W : list Z) : list Z :=
  W ++ [rol (Z.lxor (Z.lxor (Z.lxor (word W (t - 3)) (word W (t - 8))) (word W (t - 14)))
                    (word W (t - 16))) 1].
Definition fips_schedule (block : list Z) : list Z :=
  rounds fips_extend 16 64 (words WPA_GET_BE32 block).
Definition fips_round (W : list Z) (t : nat) (s : sha1_vars) : sha1_vars :=
  let '(a, b, c, d, e) := s in
  (u32 (rol a 5 + fips_f t b c d + e + fips_k t + word W t), a, rol b 30, c, d).
Definition fips_sha1 (state block : list Z) : list Z :=
  let '(a, b, c, d, e) :=
    rounds (fips_round (fips_schedule block)) 0 80
      (word state 0, word state 1, word state 2, word state 3, word state 4) in
  add_words state [a; b; c; d; e].

Definition be64 (v : Z) : list Z := WPA_PUT_BE32 (Z.shiftr v 32) ++ WPA_PUT_BE32 v.
Definition le64 (v : Z) : list Z := put_le32 v ++ put_le32 (Z.shiftr v 32).

Definition md5 : list Z -> list Z := md_hash MD5Transform md5_iv le64 put_le32.
Definition sha1 : list Z -> list Z := md_hash fips_sha1 sha1_iv be64 WPA_PUT_BE32.
Definition sha256 : list Z -> list Z := md_hash sha256_compress sha256_iv be64 WPA_PUT_BE32.

(** HMAC (RFC 2104) on a hash of blocks of 64 octets. *)
Definition hmac (H : list Z -> list Z) (key m : list Z) : list Z :=
  let key := if 64 <? zlen key then H key else key in
  let k0 := key ++ replicate (64 - length key) 0 in
  H (map (Z.lxor 0x5c) k0 ++ H (map (Z.lxor 0x36) k0 ++ m)).

(** The first [n] octets of the blocks [f 0, f 1, ...], which have [size] each. *)
Definition expand (size : nat) (f : nat -> list Z) (n : Z) : list Z :=
  take (Z.to_nat n) (concat (map f (seq 0 (Z.to_nat n / size + 1)))).
