(* ===== verification/HashProperties.v ===== *)
(** * Correctness of the hash functions of Hash.v

    A context that has been updated with the parts of a message holds the
    chaining value of the complete blocks of the message, its last octets and
    its length ([represents], [holds]); the final operation is then the padding of
    the reference definition. *)

From Stdlib Require Import String.
From S2P Require Import Prelude.
From S2P Require Import Wpabuf.
From S2P Require Import Common.
From S2P Require Import Aes.
From S2P Require Import Hash.

(** ** Chaining the complete blocks of a message *)

Section absorbing.
Context (T : list Z -> list Z -> list Z).

Definition absorb_all (st l : list Z) : list Z := chain T (length l / 64) st l.
Definition tail_of (l : list Z) : list Z := drop (64 * (length l / 64)) l.

Lemma absorb_short st l : (length l < 64)%nat -> absorb_all st l = st.
Proof. intros H. unfold absorb_all. by rewrite Nat.div_small. Qed.

Lemma tail_short l : (length l < 64)%nat -> tail_of l = l.
Proof. intros H. unfold tail_of. by rewrite Nat.div_small. Qed.

Lemma blocks_S (l : list Z) : (64 <= length l)%nat -> (length l / 64 = S (length (drop 64 l) / 64))%nat.
Proof.
  intros H. rewrite length_drop.
  replace (length l) with (length l - 64 + 1 * 64)%nat at 1 by lia. rewrite Nat.div_add by lia. lia.
Qed.

Lemma absorb_block st l :
  (64 <= length l)%nat -> absorb_all st l = absorb_all (T st (take 64 l)) (drop 64 l).
Proof. intros H. unfold absorb_all. by rewrite (blocks_S l H). Qed.

Lemma tail_block l : (64 <= length l)%nat -> tail_of l = tail_of (drop 64 l).
Proof. intros H. unfold tail_of. rewrite (blocks_S l H), drop_drop. f_equal. lia. Qed.

Lemma length_tail l : length (tail_of l) = (length l mod 64)%nat.
Proof. unfold tail_of. rewrite length_drop. pose proof (Nat.div_mod_eq (length l) 64). lia. Qed.

(** A message is absorbed part by part. *)
Lemma tail_parts_n n : forall l k, (length l < n)%nat -> tail_of (l ++ k) = tail_of (tail_of l ++ k).
Proof.
  induction n as [|n IH]; intros l k Hn; [lia|].
  destruct (decide (length l < 64)%nat) as [Hl|Hl]; [by rewrite (tail_short l) by lia|].
  assert (64 <= length (l ++ k))%nat by (rewrite length_app; lia).
  rewrite (tail_block (l ++ k)), (tail_block l), drop_app_le by lia. apply IH. rewrite length_drop. lia.
Qed.
Lemma tail_parts l k : tail_of (l ++ k) = tail_of (tail_of l ++ k).
Proof. apply (tail_parts_n (S (length l))). lia. Qed.

Lemma absorb_parts_n n : forall l st k, (length l < n)%nat ->
  absorb_all st (l ++ k) = absorb_all (absorb_all st l) (tail_of l ++ k).
Proof.
  induction n as [|n IH]; intros l st k Hn; [lia|].
  destruct (decide (length l < 64)%nat) as [Hl|Hl].
  - by rewrite (absorb_short st l), (tail_short l) by lia.
  - assert (64 <= length (l ++ k))%nat by (rewrite length_app; lia).
    rewrite (absorb_block st (l ++ k)), (absorb_block st l), (tail_block l) by lia.
    rewrite take_app_le, drop_app_le by lia. apply IH. rewrite length_drop. lia.
Qed.
Lemma absorb_parts st l k :
  absorb_all st (l ++ k) = absorb_all (absorb_all st l) (tail_of l ++ k).
Proof. apply (absorb_parts_n (S (length l))). lia. Qed.
End absorbing.

(** ** Contexts that hold a message *)

Lemma length_mem_write off d l :
  0 <= off -> off + zlen d <= zlen l -> length (mem_write off d l) = length l.
Proof.
  intros H1 H2. unfold mem_write, zlen in *. rewrite !length_app, length_take, length_drop. lia.
Qed.

Lemma take_mem_write off d l :
  0 <= off -> off + zlen d <= zlen l ->
  take (Z.to_nat (off + zlen d)) (mem_write off d l) = take (Z.to_nat off) l ++ d.
Proof.
  intros H1 H2. unfold mem_write, zlen in *. rewrite app_assoc. apply take_app_length'.
  rewrite length_app, length_take. lia.
Qed.

(** A write that fills the buffer. *)
Lemma mem_write_fill off d l :
  0 <= off -> off + zlen d = zlen l -> mem_write off d l = take (Z.to_nat off) l ++ d.
Proof.
  intros H1 H2. rewrite <- (take_mem_write off d l) by lia. symmetry. apply take_ge.
  rewrite length_mem_write by lia. unfold zlen in *. lia.
Qed.

Lemma slice_zero l n : 0 <= n -> slice l 0 n = take (Z.to_nat n) l.
Proof. reflexivity. Qed.

Lemma zlen_slice l i n : 0 <= i -> 0 <= n -> i + n <= zlen l -> zlen (slice l i n) = n.
Proof. unfold slice, zlen. intros. rewrite length_take, length_drop. lia. Qed.

(** The two words of a bit count. *)
Definition counts (c0 c1 n : Z) : Prop :=
  0 <= c0 < 2 ^ 32 /\ 0 <= c1 < 2 ^ 32 /\ c1 * 2 ^ 32 + c0 = u64 (8 * n).

Lemma two_words a b : 0 <= b < 2 ^ 32 -> (a * 2 ^ 32 + b) mod 2 ^ 64 = a mod 2 ^ 32 * 2 ^ 32 + b.
Proof.
  intros H. change (2 ^ 64) with (2 ^ 32 * 2 ^ 32). rewrite Z.rem_mul_r by lia.
  rewrite (Z.add_comm (a * 2 ^ 32) b), Z_mod_plus_full, Z.div_add by lia.
  rewrite (Z.mod_small b), (Z.div_small b) by lia. rewrite Z.add_0_l. lia.
Qed.

Lemma counts_add c0 c1 n l b :
  counts c0 c1 n -> 0 <= l < 2 ^ 32 ->
  (b = (u32 (c0 + u32 (Z.shiftl l 3)) <? u32 (Z.shiftl l 3)) \/
   b = (u32 (c0 + u32 (Z.shiftl l 3)) <? c0)) ->
  counts (u32 (c0 + u32 (Z.shiftl l 3))) (u32 (c1 + (if b then 1 else 0) + Z.shiftr l 29)) (n + l).
Proof.
  unfold counts, u32, u64. rewrite Z.shiftl_mul_pow2, Z.shiftr_div_pow2 by lia.
  intros (H0 & H1 & H2) Hl Hb.
  assert (Hs : l * 2 ^ 3 = l / 2 ^ 29 * 2 ^ 32 + (l * 2 ^ 3) mod 2 ^ 32).
  { rewrite (Z.mul_comm l). change (2 ^ 32) with (2 ^ 3 * 2 ^ 29). rewrite Z.mul_mod_distr_l by lia.
    pose proof (Z.div_mod l (2 ^ 29)). lia. }
  pose proof (Z.mod_pos_bound (l * 2 ^ 3) (2 ^ 32) ltac:(lia)).
  assert (0 <= l / 2 ^ 29 < 8) by (split; [apply Z.div_pos; lia|apply Z.div_lt_upper_bound; lia]).
  set (l3 := (l * 2 ^ 3) mod 2 ^ 32) in *. set (hi := l / 2 ^ 29) in *. clearbody l3 hi.
  assert (E : (c0 + l3) mod 2 ^ 32 = if 2 ^ 32 <=? c0 + l3 then c0 + l3 - 2 ^ 32 else c0 + l3).
  { destruct (2 ^ 32 <=? c0 + l3) eqn:Q; bool_hyps; [|apply Z.mod_small; lia].
    rewrite <- (Z_mod_plus_full (c0 + l3) (-1) (2 ^ 32)). apply Z.mod_small. lia. }
  assert (Hb' : b = (2 ^ 32 <=? c0 + l3)).
  { rewrite E in Hb. destruct (2 ^ 32 <=? c0 + l3) eqn:Q; bool_hyps;
      destruct Hb as [-> | ->]; [apply Z.ltb_lt; lia..|apply Z.ltb_ge; lia|apply Z.ltb_ge; lia]. }
  split; [apply Z.mod_pos_bound; lia|]. split; [apply Z.mod_pos_bound; lia|].
  replace (8 * (n + l)) with (8 * n + l * 2 ^ 3) by lia.
  rewrite Hs, <- (Z.add_mod_idemp_l (8 * n) _ (2 ^ 64)), <- H2, E, Hb' by lia.
  destruct (2 ^ 32 <=? c0 + l3) eqn:Q; bool_hyps.
  - replace (c1 * 2 ^ 32 + c0 + (hi * 2 ^ 32 + l3)) with ((c1 + 1 + hi) * 2 ^ 32 + (c0 + l3 - 2 ^ 32)) by lia.
    rewrite two_words by lia. reflexivity.
  - replace (c1 * 2 ^ 32 + c0 + (hi * 2 ^ 32 + l3)) with ((c1 + 0 + hi) * 2 ^ 32 + (c0 + l3)) by lia.
    rewrite two_words by lia. reflexivity.
Qed.

(** The number of octets in the buffer. *)
Lemma counts_mod64 c0 c1 n : counts c0 c1 n -> Z.land (Z.shiftr c0 3) 63 = n mod 64.
Proof.
  intros (H0 & H1 & H2). change 63 with (Z.ones 6). rewrite Z.land_ones, Z.shiftr_div_pow2 by lia.
  unfold u64 in H2. change (2 ^ 64) with (8 * 2 ^ 61) in H2. rewrite Z.mul_mod_distr_l in H2 by lia.
  assert (c0 / 2 ^ 3 = (n mod 2 ^ 61) - c1 * 2 ^ 29) as ->.
  { symmetry. apply Z.div_unique with 0; lia. }
  replace (n mod 2 ^ 61 - c1 * 2 ^ 29) with (n mod 2 ^ 61 + (- c1 * 2 ^ 23) * 2 ^ 6) by lia.
  rewrite Z_mod_plus_full. change (2 ^ 61) with (2 ^ 6 * 2 ^ 55).
  rewrite Z.rem_mul_r by lia. rewrite (Z.mul_comm (2 ^ 6)), Z_mod_plus_full. apply Z.mod_mod. lia.
Qed.

Section contexts.
Context (T : list Z -> list Z -> list Z).

Record represents (iv : list Z) (c : hash_ctx) (m : list Z) : Prop := {
  rep_state : h_state c = absorb_all T iv m;
  rep_len : length (h_buffer c) = 64%nat;
  rep_buf : take (length (tail_of m)) (h_buffer c) = tail_of m;
  rep_count : counts (count0 c) (count1 c) (zlen m)
}.

Lemma zlen_tail m : zlen (tail_of m) = zlen m mod 64.
Proof. unfold zlen. by rewrite length_tail, Nat2Z.inj_mod. Qed.

Lemma rep_fill iv c m : represents iv c m -> Z.land (Z.shiftr (count0 c) 3) 63 = zlen (tail_of m).
Proof. intros R. rewrite zlen_tail. eapply counts_mod64, (rep_count iv c m R). Qed.

(** The data goes into the buffer. *)
Lemma buffered iv c m d c0 c1 :
  represents iv c m -> zlen (tail_of m) + zlen d < 64 -> counts c0 c1 (zlen (m ++ d)) ->
  represents iv (mk_ctx (h_state c) c0 c1 (mem_write (zlen (tail_of m)) d (h_buffer c))) (m ++ d).
Proof.
  intros R Hlt Hc. pose proof (rep_len _ _ _ R) as Hl. pose proof (zlen_nonneg (tail_of m)).
  assert (Hz : zlen (h_buffer c) = 64) by (unfold zlen; lia).
  assert (Ht : tail_of (m ++ d) = tail_of m ++ d).
  { rewrite tail_parts, tail_short; [done|]. unfold zlen in *. rewrite length_app. lia. }
  split; cbn [h_state h_buffer count0 count1].
  - rewrite absorb_parts, (absorb_short T _ (tail_of m ++ d)); [apply R|].
    unfold zlen in Hlt. rewrite length_app. lia.
  - rewrite length_mem_write by lia. exact Hl.
  - rewrite Ht. rewrite <- (rep_buf _ _ _ R) at 3.
    replace (length (tail_of m ++ d)) with (Z.to_nat (zlen (tail_of m) + zlen d))
      by (unfold zlen; rewrite length_app; lia).
    rewrite take_mem_write by lia. f_equal. f_equal. unfold zlen. lia.
  - exact Hc.
Qed.

(** The data completes the block in the buffer; [d'] is the rest of it. *)
Lemma completed iv c m d :
  represents iv c m -> 64 <= zlen (tail_of m) + zlen d ->
  let n := 64 - zlen (tail_of m) in
  let st := T (h_state c) (mem_write (zlen (tail_of m)) (slice d 0 n) (h_buffer c)) in
  let d' := drop (Z.to_nat n) d in
  absorb_all T iv (m ++ d) = absorb_all T st d' /\ tail_of (m ++ d) = tail_of d' /\
  zlen d' = zlen d - n.
Proof.
  intros R Hge n st d'. pose proof (rep_len _ _ _ R) as Hl. pose proof (zlen_nonneg (tail_of m)).
  assert (Hz : zlen (h_buffer c) = 64) by (unfold zlen; lia).
  assert (Hr : zlen (tail_of m) < 64) by (rewrite zlen_tail; apply Z.mod_pos_bound; lia).
  assert (Hb : mem_write (zlen (tail_of m)) (slice d 0 n) (h_buffer c) = take 64 (tail_of m ++ d)).
  { rewrite mem_write_fill by (try rewrite zlen_slice; lia). rewrite slice_zero, take_app by lia.
    unfold n, zlen in *. rewrite Nat2Z.id, (rep_buf _ _ _ R), (take_ge (tail_of m)) by lia.
    f_equal. f_equal. lia. }
  assert (Hd : drop 64 (tail_of m ++ d) = d').
  { rewrite drop_app_ge by (unfold zlen in *; lia). unfold d', n, zlen. f_equal. lia. }
  rewrite absorb_parts, tail_parts, (absorb_block T _ (tail_of m ++ d)), (tail_block (tail_of m ++ d)), Hd
    by (unfold zlen in *; rewrite length_app; lia).
  unfold st. rewrite Hb, (rep_state _ _ _ R). split_and!; [done..|].
  unfold d', n, zlen in *. rewrite length_drop. lia.
Qed.

Lemma sha1_blocks_ok fuel : forall len d i st,
  zlen d = len -> 0 <= i <= len -> len < 2 ^ 32 - 64 -> len - i < 64 * (Z.of_nat fuel + 1) ->
  let '(st', i') := sha1_blocks T fuel len d i st in
  i <= i' <= len /\ len - i' < 64 /\ absorb_all T st (drop (Z.to_nat i) d) = st' /\
  tail_of (drop (Z.to_nat i) d) = drop (Z.to_nat i') d.
Proof.
  induction fuel as [|n IH]; intros len d i st Hd Hi Hlen Hf; cbn [sha1_blocks].
  - split_and!; try lia.
    + apply absorb_short. unfold zlen in *. rewrite length_drop. lia.
    + apply tail_short. unfold zlen in *. rewrite length_drop. lia.
  - rewrite !u32_small by lia. destruct (i + 63 <? len) eqn:E; bool_hyps.
    + specialize (IH len d (i + 64) (T st (slice d i 64)) Hd ltac:(lia) Hlen ltac:(lia)).
      destruct (sha1_blocks _ _ _ _ _ _) as [st' i']. destruct IH as (H1 & H2 & H3 & H4).
      replace (Z.to_nat (i + 64)) with (Z.to_nat i + 64)%nat in * by lia.
      rewrite <- drop_drop in *.
      rewrite absorb_block, tail_block by (unfold zlen in *; rewrite length_drop; lia).
      split_and!; [lia..|exact H3|exact H4].
    + split_and!; try lia.
      * apply absorb_short. unfold zlen in *. rewrite length_drop. lia.
      * apply tail_short. unfold zlen in *. rewrite length_drop. lia.
Qed.

(** What is left of the data goes to the start of the buffer. *)
Lemma remainder iv buf m st r c0 c1 :
  length buf = 64%nat -> st = absorb_all T iv m -> tail_of m = r -> counts c0 c1 (zlen m) ->
  represents iv (mk_ctx st c0 c1 (mem_write 0 r buf)) m.
Proof.
  intros Hl Hst <- Hc. assert (zlen (tail_of m) < 64) by (rewrite zlen_tail; apply Z.mod_pos_bound; lia).
  split; cbn [h_state h_buffer count0 count1]; [done| | |done].
  - rewrite length_mem_write; unfold zlen in *; lia.
  - pose proof (take_mem_write 0 (tail_of m) buf ltac:(lia) ltac:(unfold zlen in *; lia)) as H1.
    unfold zlen in H1 at 1. rewrite Z.add_0_l, Nat2Z.id in H1. exact H1.
Qed.

Lemma sha1_update_ok iv c m d :
  represents iv c m -> zlen d < 2 ^ 32 - 64 -> represents iv (sha1_update T c d) (m ++ d).
Proof.
  intros R Hd. pose proof (zlen_nonneg d). pose proof (zlen_nonneg (tail_of m)).
  unfold sha1_update, add_bits. rewrite (rep_fill _ _ _ R), (u32_small (zlen d)) by lia.
  assert (Hr : zlen (tail_of m) < 64) by (rewrite zlen_tail; apply Z.mod_pos_bound; lia).
  pose proof (counts_add _ _ _ (zlen d) _ (rep_count _ _ _ R) ltac:(lia) (or_introl eq_refl)) as Hc.
  rewrite <- zlen_app in Hc. rewrite u32_small by lia.
  assert (Hall : slice d 0 (zlen d) = d) by apply slice_all.
  destruct (63 <? zlen (tail_of m) + zlen d) eqn:E; bool_hyps.
  - destruct (completed iv c m d R ltac:(lia)) as (H1 & H2 & H3).
    set (n := 64 - zlen (tail_of m)) in *.
    set (buf := mem_write (zlen (tail_of m)) (slice d 0 n) (h_buffer c)) in *.
    pose proof (Z.div_mod (zlen d) 64 ltac:(lia)). pose proof (Z.mod_pos_bound (zlen d) 64 ltac:(lia)).
    pose proof (Z.div_pos (zlen d) 64 ltac:(lia) ltac:(lia)).
    assert (1 <= n <= zlen d) by (unfold n; lia).
    assert (zlen d - n < 64 * (Z.of_nat (Z.to_nat (zlen d / 64)) + 1)) as Hf by (rewrite Z2Nat.id; lia).
    pose proof (sha1_blocks_ok (Z.to_nat (zlen d / 64)) (zlen d) d n (T (h_state c) buf) eq_refl
      ltac:(lia) Hd Hf) as Hb.
    destruct (sha1_blocks _ _ _ _ _ _) as [st' i']. destruct Hb as (B1 & B2 & B3 & B4).
    apply remainder; [|congruence| |exact Hc].
    + unfold buf. pose proof (rep_len _ _ _ R). rewrite length_mem_write; [done|lia|].
      rewrite zlen_slice; unfold zlen in *; lia.
    + rewrite H2, B4. unfold slice. symmetry. apply take_ge. unfold zlen in *. rewrite length_drop. lia.
  - rewrite Hall. apply buffered; [done|lia|exact Hc].
Qed.
(** *** Padding *)

#[local] Ltac Zify.zify_post_hook ::= Z.div_mod_to_equations.

Lemma count_is_448 c0 c1 n : counts c0 c1 n -> (Z.land c0 504 =? 448) = (n mod 64 =? 56).
Proof.
  intros Hc. pose proof (counts_mod64 c0 c1 n Hc) as H63. destruct Hc as (H0 & H1 & H2).
  assert (Hm : c0 = Z.shiftl (Z.shiftr c0 3) 3).
  { rewrite Z.shiftl_mul_pow2, Z.shiftr_div_pow2 by lia. unfold u64 in H2.
    change (2 ^ 64) with (8 * 2 ^ 61) in H2. rewrite Z.mul_mod_distr_l in H2 by lia.
    assert (c0 = 8 * (n mod 2 ^ 61 - c1 * 2 ^ 29)) as -> by lia.
    rewrite (Z.mul_comm 8). change (2 ^ 3) with 8. by rewrite Z.div_mul by lia. }
  rewrite Hm. change 504 with (Z.shiftl 63 3). rewrite <- Z.shiftl_land, H63.
  rewrite Z.shiftl_mul_pow2 by lia. apply eq_iff_eq_true. rewrite !Z.eqb_eq. lia.
Qed.

Lemma sha1_zeros_ok fuel : forall iv c m,
  represents iv c m -> (56 - zlen m) mod 64 <= Z.of_nat fuel ->
  represents iv (sha1_zeros T fuel c) (m ++ replicate (Z.to_nat ((56 - zlen m) mod 64)) 0).
Proof.
  induction fuel as [|n IH]; intros iv c m R Hf; cbn [sha1_zeros].
  - replace (Z.to_nat ((56 - zlen m) mod 64)) with 0%nat by lia. cbn [replicate]. by rewrite app_nil_r.
  - rewrite (count_is_448 _ _ _ (rep_count _ _ _ R)). destruct (zlen m mod 64 =? 56) eqn:E; bool_hyps.
    + replace (Z.to_nat ((56 - zlen m) mod 64)) with 0%nat by lia. cbn [replicate]. by rewrite app_nil_r.
    + assert (Hs : Z.to_nat ((56 - zlen m) mod 64) = S (Z.to_nat ((56 - zlen (m ++ [0])) mod 64))).
      { rewrite zlen_app. change (zlen [0]) with 1. lia. }
      rewrite Hs. cbn [replicate]. rewrite (cons_middle 0 m), app_assoc. apply IH.
      * apply sha1_update_ok; [done|]. by vm_compute.
      * lia.
Qed.

Lemma be32_mod v : WPA_PUT_BE32 v = WPA_PUT_BE32 (u32 v).
Proof.
  assert (H : forall k, 0 <= k <= 24 -> Z.land (Z.shiftr (u32 v) k) 0xff = Z.land (Z.shiftr v k) 0xff).
  { intros k Hk. apply Z.bits_inj'. intros n Hn. rewrite !Z.land_spec, !Z.shiftr_spec by done.
    change 0xff with (Z.ones 8). destruct (Z.lt_ge_cases n 8); [|by rewrite Z.ones_spec_high, !andb_false_r].
    unfold u32. by rewrite Z.mod_pow2_bits_low by lia. }
  unfold WPA_PUT_BE32. rewrite !H by lia.
  assert (H0 := H 0 ltac:(lia)). rewrite !Z.shiftr_0_r in H0. by rewrite H0.
Qed.

Lemma sha1_count c0 c1 n :
  counts c0 c1 n ->
  map (fun i => Z.land (Z.shiftr (if 4 <=? i then c0 else c1) ((3 - Z.land i 3) * 8)) 255)
    [0; 1; 2; 3; 4; 5; 6; 7] = be64 (u64 (8 * n)).
Proof.
  intros (H0 & H1 & <-). unfold be64. rewrite (be32_mod (_ + _)). unfold u32.
  rewrite Z.shiftr_div_pow2, Z.div_add_l, (Z.div_small c0), Z.add_0_r by lia.
  replace ((c1 * 2 ^ 32 + c0) mod 2 ^ 32) with c0; [reflexivity|].
  rewrite Z.add_comm, Z_mod_plus_full. symmetry. by apply Z.mod_small.
Qed.

Lemma sha1_digest st :
  length st = 5%nat ->
  map (fun i => Z.land (Z.shiftr (word st (i / 4)) ((3 - Z.of_nat (i mod 4)) * 8)) 255) (seq 0 20)
  = concat (map WPA_PUT_BE32 st).
Proof.
  destruct st as [|a [|b [|c [|d [|e [|f st]]]]]]; intros H; try discriminate H. reflexivity.
Qed.

(** [md_padded], part by part. *)
Lemma padded_parts enc m :
  md_padded enc m =
  ((m ++ [0x80]) ++ replicate (Z.to_nat ((56 - zlen (m ++ [0x80])) mod 64)) 0) ++ enc (u64 (8 * zlen m)).
Proof.
  unfold md_padded. rewrite zlen_app. change (zlen [0x80]) with 1.
  replace (56 - (zlen m + 1)) with (55 - zlen m) by lia. by rewrite <- !app_assoc.
Qed.

Lemma sha1_final_ok iv c m :
  (forall l, length (absorb_all T iv l) = 5%nat) ->
  represents iv c m -> sha1_final T c = md_hash T iv be64 WPA_PUT_BE32 m.
Proof.
  intros H5 R. unfold sha1_final. rewrite (sha1_count _ _ _ (rep_count _ _ _ R)).
  pose proof (sha1_update_ok iv c m [0x80] R ltac:(by vm_compute)) as R1.
  assert (R2 := sha1_zeros_ok 64 iv _ _ R1 ltac:(lia)).
  assert (R3 := sha1_update_ok iv _ _ (be64 (u64 (8 * zlen m))) R2 ltac:(by vm_compute)).
  rewrite <- padded_parts in R3. rewrite (rep_state _ _ _ R3), sha1_digest by apply H5. reflexivity.
Qed.

(** *** MD5 *)

Lemma md5_blocks_ok fuel : forall len d st inb,
  zlen d = len -> length inb = 64%nat -> len < 64 * (Z.of_nat fuel + 1) ->
  let '(len', d', st', inb') := md5_blocks T fuel len d st inb in
  absorb_all T st d = st' /\ tail_of d = d' /\ len' = zlen d' /\ length inb' = 64%nat.
Proof.
  induction fuel as [|n IH]; intros len d st inb Hd Hb Hf; cbn [md5_blocks].
  - split_and!; [apply absorb_short|apply tail_short|done|done]; unfold zlen in *; lia.
  - destruct (64 <=? len) eqn:E; bool_hyps.
    + assert (Hw : mem_write 0 (slice d 0 64) inb = take 64 d).
      { rewrite mem_write_fill; [done|lia|]. rewrite zlen_slice by lia. unfold zlen. lia. }
      rewrite Hw, absorb_block, tail_block by (unfold zlen in *; lia).
      apply IH; [|rewrite length_take|]; unfold zlen in *; rewrite ?length_drop; lia.
    + split_and!; [apply absorb_short|apply tail_short|done|done]; unfold zlen in *; lia.
Qed.

Lemma md5_rest_ok iv m d st c0 c1 inb :
  absorb_all T iv m = absorb_all T st d -> tail_of m = tail_of d -> length inb = 64%nat ->
  counts c0 c1 (zlen m) -> represents iv (md5_rest T (zlen d) d st (c0, c1) inb) m.
Proof.
  intros H1 H2 Hl Hc. unfold md5_rest. pose proof (zlen_nonneg d).
  pose proof (md5_blocks_ok (Z.to_nat (zlen d / 64)) (zlen d) d st inb eq_refl Hl ltac:(lia)) as Hb.
  destruct (md5_blocks _ _ _ _ _ _) as [[[len' d'] st'] inb']. destruct Hb as (B1 & B2 & -> & B4).
  rewrite slice_all. apply remainder; [done|congruence|congruence|done].
Qed.

Lemma md5_update_ok iv c m d :
  represents iv c m -> zlen d < 2 ^ 32 -> represents iv (md5_update T c d) (m ++ d).
Proof.
  intros R Hd. pose proof (zlen_nonneg d). pose proof (zlen_nonneg (tail_of m)).
  pose proof (rep_len _ _ _ R) as Hl.
  unfold md5_update. change 0x3f with 63. rewrite (rep_fill _ _ _ R), (u32_small (zlen d)) by lia.
  assert (Hr : zlen (tail_of m) < 64) by (rewrite zlen_tail; apply Z.mod_pos_bound; lia).
  pose proof (counts_add _ _ _ (zlen d) _ (rep_count _ _ _ R) ltac:(lia) (or_intror eq_refl)) as Hc.
  rewrite <- zlen_app in Hc.
  destruct (negb (zlen (tail_of m) =? 0)) eqn:E0; bool_hyps.
  - destruct (zlen d <? 64 - zlen (tail_of m)) eqn:E; bool_hyps.
    + rewrite slice_all. apply buffered; [done|lia|done].
    + destruct (completed iv c m d R ltac:(lia)) as (H1 & H2 & H3).
      rewrite <- H3. apply md5_rest_ok; [done|done| |done].
      rewrite length_mem_write; [done|lia|]. rewrite zlen_slice; unfold zlen in *; lia.
  - assert (Ht : tail_of m = []) by (destruct (tail_of m); [done|unfold zlen in *; cbn [length] in *; lia]).
    rewrite (rep_state _ _ _ R). apply md5_rest_ok; [|by rewrite tail_parts, Ht|done|done].
    by rewrite absorb_parts, Ht.
Qed.

Lemma byte_mod32 v k : 0 <= k <= 24 -> Z.land (Z.shiftr (u32 v) k) 0xff = Z.land (Z.shiftr v k) 0xff.
Proof.
  intros Hk. apply Z.bits_inj'. intros n Hn. rewrite !Z.land_spec, !Z.shiftr_spec by done.
  change 0xff with (Z.ones 8). destruct (Z.lt_ge_cases n 8); [|by rewrite Z.ones_spec_high, !andb_false_r].
  unfold u32. by rewrite Z.mod_pow2_bits_low by lia.
Qed.

Lemma le32_mod v : put_le32 v = put_le32 (u32 v).
Proof.
  unfold put_le32. rewrite !byte_mod32 by lia.
  assert (H0 := byte_mod32 v 0 ltac:(lia)). rewrite !Z.shiftr_0_r in H0. by rewrite H0.
Qed.

Lemma md5_count c0 c1 n : counts c0 c1 n -> put_le32 c0 ++ put_le32 c1 = le64 (u64 (8 * n)).
Proof.
  intros (H0 & H1 & <-). unfold le64. rewrite (le32_mod (_ + _)). unfold u32.
  rewrite Z.shiftr_div_pow2, Z.div_add_l, (Z.div_small c0), Z.add_0_r by lia.
  replace ((c1 * 2 ^ 32 + c0) mod 2 ^ 32) with c0; [reflexivity|].
  rewrite Z.add_comm, Z_mod_plus_full. symmetry. by apply Z.mod_small.
Qed.

(** Writing after the first [off] octets, which are [a]. *)
Lemma write_next a d l off :
  off = zlen a -> off + zlen d <= zlen l -> take (Z.to_nat off) l = a ->
  take (Z.to_nat (off + zlen d)) (mem_write off d l) = a ++ d /\ length (mem_write off d l) = length l.
Proof.
  intros Ho Hl Ha. pose proof (zlen_nonneg a). split; [|apply length_mem_write; lia].
  rewrite take_mem_write by lia. by rewrite Ha.
Qed.

(** The last eight octets of a block. *)
Lemma write_length_words a lo hi l :
  zlen a = 56 -> zlen lo = 4 -> zlen hi = 4 -> length l = 64%nat -> take 56 l = a ->
  mem_write 60 hi (mem_write 56 lo l) = a ++ lo ++ hi.
Proof.
  intros Ha Hlo Hhi Hl Ht.
  destruct (write_next a lo l 56 ltac:(lia) ltac:(unfold zlen in *; lia) Ht) as [H1 H2].
  rewrite Hlo in H1. rewrite mem_write_fill by (unfold zlen in *; lia).
  change (Z.to_nat 60) with (Z.to_nat (56 + 4)). by rewrite H1, <- app_assoc.
Qed.

(** The blocks of the padding. *)
Lemma absorb_one st l : length l = 64%nat -> absorb_all T st l = T st l.
Proof.
  intros H. rewrite absorb_block by lia. rewrite take_ge, drop_ge by lia.
  apply absorb_short. cbn. lia.
Qed.

Lemma absorb_two st l k :
  length l = 64%nat -> length k = 64%nat -> absorb_all T st (l ++ k) = T (T st l) k.
Proof.
  intros Hl Hk. rewrite absorb_block by (rewrite length_app; lia).
  rewrite take_app_length', drop_app_length' by done. by apply absorb_one.
Qed.

Lemma padded_tail enc iv m :
  absorb_all T iv (md_padded enc m) =
  absorb_all T (absorb_all T iv m)
    (tail_of m ++ 0x80 :: replicate (Z.to_nat ((55 - zlen (tail_of m)) mod 64)) 0 ++ enc (u64 (8 * zlen m))).
Proof.
  unfold md_padded. rewrite absorb_parts.
  assert (E : (55 - zlen m) mod 64 = (55 - zlen (tail_of m)) mod 64) by (by rewrite zlen_tail, Zminus_mod_idemp_r).
  by rewrite E.
Qed.

Lemma md5_final_ok iv c m : represents iv c m -> md5_final T c = md_hash T iv le64 put_le32 m.
Proof.
  intros R. unfold md5_final, md_hash. change 0x3f with 63. rewrite (rep_fill _ _ _ R).
  fold (absorb_all T iv (md_padded le64 m)). rewrite padded_tail, <- (rep_state _ _ _ R).
  rewrite <- (md5_count _ _ _ (rep_count _ _ _ R)).
  pose proof (rep_len _ _ _ R) as Hl. pose proof (rep_buf _ _ _ R) as Hb.
  assert (Hr : zlen (tail_of m) < 64) by (rewrite zlen_tail; apply Z.mod_pos_bound; lia).
  pose proof (zlen_nonneg (tail_of m)) as H0. set (r := tail_of m) in *. clearbody r.
  destruct (write_next r [0x80] (h_buffer c) (zlen r) eq_refl) as [W1 L1];
    [change (zlen [0x80]) with 1; unfold zlen in *; lia|unfold zlen; by rewrite Nat2Z.id|].
  change (zlen [0x80]) with 1 in W1. set (b1 := mem_write (zlen r) [0x80] (h_buffer c)) in *.
  assert (Hz1 : zlen (r ++ [0x80]) = zlen r + 1) by (rewrite zlen_app; reflexivity).
  destruct (64 - 1 - zlen r <? 8) eqn:E; bool_hyps.
  - set (z := replicate (Z.to_nat (64 - 1 - zlen r)) 0).
    assert (Hz : zlen z = 63 - zlen r) by (unfold z; rewrite zlen_replicate; lia).
    rewrite (mem_write_fill (zlen r + 1) z b1), W1 by (unfold zlen in *; lia).
    set (b2 := (r ++ [0x80]) ++ z).
    assert (L2 : length b2 = 64%nat) by (unfold b2, zlen in *; rewrite length_app; lia).
    destruct (write_next [] (replicate 56 0) b2 0 eq_refl) as [W3 L3];
      [rewrite zlen_replicate; unfold zlen; lia|done|].
    rewrite (write_length_words (replicate 56 0)); [|done|done|done|lia|exact W3].
    replace (Z.to_nat ((55 - zlen r) mod 64)) with (Z.to_nat (64 - 1 - zlen r) + 56)%nat by lia.
    rewrite replicate_add. fold z.
    replace (r ++ 128 :: (z ++ replicate 56 0) ++ put_le32 (count0 c) ++ put_le32 (count1 c))
      with (b2 ++ (replicate 56 0 ++ put_le32 (count0 c) ++ put_le32 (count1 c)))
      by (unfold b2; by rewrite <- !app_assoc).
    by rewrite absorb_two.
  - set (z := replicate (Z.to_nat (64 - 1 - zlen r - 8)) 0).
    assert (Hz : zlen z = 55 - zlen r) by (unfold z; rewrite zlen_replicate; lia).
    destruct (write_next (r ++ [0x80]) z b1 (zlen r + 1)) as [W2 L2];
      [lia|unfold zlen in *; lia|exact W1|].
    replace (zlen r + 1 + zlen z) with 56 in W2 by lia.
    rewrite (write_length_words ((r ++ [0x80]) ++ z)); [|rewrite zlen_app; lia|done|done|lia|exact W2].
    replace (Z.to_nat ((55 - zlen r) mod 64)) with (Z.to_nat (64 - 1 - zlen r - 8))%nat by lia.
    fold z. rewrite <- !app_assoc. rewrite absorb_one; [done|].
    unfold zlen in *. rewrite !length_app. assert (Hp : forall v, length (put_le32 v) = 4%nat) by done.
    cbn [length app]. rewrite !length_app, !Hp. lia.
Qed.

(** *** SHA-256 *)

Record holds (iv : list Z) (md : sha256_state) (m : list Z) : Prop := {
  hold_state : s_state md = absorb_all T iv m;
  hold_len : length (s_buf md) = 64%nat;
  hold_cur : curlen md = zlen (tail_of m);
  hold_buf : take (length (tail_of m)) (s_buf md) = tail_of m;
  hold_length : s_length md = u64 (8 * (zlen m - zlen (tail_of m)))
}.

Lemma tail_lt m : 0 <= zlen (tail_of m) < 64.
Proof. rewrite zlen_tail. apply Z.mod_pos_bound. lia. Qed.

Lemma full_block m d :
  zlen (tail_of m) + zlen d = 64 ->
  tail_of (m ++ d) = [] /\ forall st, absorb_all T st (m ++ d) = T (absorb_all T st m) (tail_of m ++ d).
Proof.
  intros H. assert (Hl : length (tail_of m ++ d) = 64%nat) by (rewrite length_app; unfold zlen in *; lia).
  split; [|intros st; by rewrite absorb_parts, absorb_one].
  rewrite tail_parts, tail_block by lia. rewrite drop_ge by lia. reflexivity.
Qed.

Lemma bits_block m d :
  zlen (tail_of m) + zlen d = 64 ->
  u64 (u64 (8 * (zlen m - zlen (tail_of m))) + 512) = u64 (8 * (zlen (m ++ d) - 0)).
Proof.
  intros H. unfold u64. rewrite Z.add_mod_idemp_l by lia. f_equal. rewrite zlen_app. lia.
Qed.

(** A block taken from the data itself, and one completed in the buffer. *)
Lemma hold_direct iv md m d :
  holds iv md m -> curlen md = 0 -> 64 <= zlen d ->
  holds iv (mk_sha256 (u64 (s_length md + 512)) (T (s_state md) (slice d 0 64)) (curlen md) (s_buf md))
        (m ++ take 64 d).
Proof.
  intros H Hc Hd. rewrite (hold_cur _ _ _ H) in Hc.
  assert (Ht : tail_of m = []) by (destruct (tail_of m); [done|unfold zlen in *; cbn [length] in *; lia]).
  assert (Hz : zlen (tail_of m) + zlen (take 64 d) = 64) by (unfold zlen in *; rewrite length_take; lia).
  destruct (full_block m _ Hz) as [F1 F2].
  split; cbn [s_state s_length curlen s_buf].
  - by rewrite F2, Ht, (hold_state _ _ _ H).
  - apply H.
  - by rewrite F1, (hold_cur _ _ _ H), Ht.
  - by rewrite F1.
  - rewrite F1, (hold_length _ _ _ H). by apply bits_block.
Qed.

Lemma hold_completed iv md m d :
  holds iv md m -> zlen (tail_of m) + zlen d = 64 ->
  holds iv (mk_sha256 (u64 (s_length md + 512)) (T (s_state md) (mem_write (curlen md) d (s_buf md))) 0
              (mem_write (curlen md) d (s_buf md))) (m ++ d).
Proof.
  intros H Hz. destruct (full_block m d Hz) as [F1 F2]. pose proof (tail_lt m).
  pose proof (hold_len _ _ _ H) as Hl. rewrite (hold_cur _ _ _ H).
  assert (Hw : mem_write (zlen (tail_of m)) d (s_buf md) = tail_of m ++ d).
  { rewrite mem_write_fill by (unfold zlen in *; lia). unfold zlen. by rewrite Nat2Z.id, (hold_buf _ _ _ H). }
  rewrite Hw. split; cbn [s_state s_length curlen s_buf].
  - by rewrite F2, (hold_state _ _ _ H).
  - rewrite length_app. unfold zlen in *. lia.
  - by rewrite F1.
  - by rewrite F1.
  - rewrite F1, (hold_length _ _ _ H). by apply bits_block.
Qed.

Lemma hold_buffered iv md m d :
  holds iv md m -> zlen (tail_of m) + zlen d < 64 ->
  holds iv (mk_sha256 (s_length md) (s_state md) (curlen md + zlen d) (mem_write (curlen md) d (s_buf md)))
        (m ++ d).
Proof.
  intros H Hz. pose proof (tail_lt m). pose proof (hold_len _ _ _ H) as Hl. rewrite (hold_cur _ _ _ H).
  assert (Hs : (length (tail_of m ++ d) < 64)%nat) by (rewrite length_app; unfold zlen in *; lia).
  assert (Ht : tail_of (m ++ d) = tail_of m ++ d) by (by rewrite tail_parts, (tail_short (_ ++ _))).
  destruct (write_next (tail_of m) d (s_buf md) (zlen (tail_of m)) eq_refl) as [W1 W2];
    [unfold zlen in *; lia|unfold zlen; rewrite Nat2Z.id; apply H|].
  split; cbn [s_state s_length curlen s_buf].
  - rewrite absorb_parts, (absorb_short T _ (_ ++ _) Hs). apply H.
  - by rewrite W2.
  - by rewrite Ht, zlen_app.
  - rewrite Ht. replace (length (tail_of m ++ d)) with (Z.to_nat (zlen (tail_of m) + zlen d)); [exact W1|].
    unfold zlen. rewrite length_app. lia.
  - rewrite Ht, (hold_length _ _ _ H), !zlen_app. do 2 f_equal. lia.
Qed.

Lemma sha256_loop_ok fuel : forall iv md m d,
  holds iv md m -> (length d <= fuel)%nat -> holds iv (sha256_loop T fuel md d) (m ++ d).
Proof.
  assert (Hnil : forall m (d : list Z), (length d <= 0)%nat -> m ++ d = m).
  { intros m d Hd. destruct d; [apply app_nil_r|cbn in Hd; lia]. }
  induction fuel as [|n IH]; intros iv md m d H Hd; cbn [sha256_loop]; [by rewrite Hnil|].
  destruct (0 <? zlen d) eqn:E0; bool_hyps; [|rewrite Hnil; [done|unfold zlen in *; lia]].
  pose proof (tail_lt m). pose proof (hold_cur _ _ _ H) as Hc.
  destruct ((curlen md =? 0) && (64 <=? zlen d)) eqn:E1; bool_hyps.
  - rewrite <- (take_drop 64 d) at 3. rewrite app_assoc. apply IH; [by apply hold_direct|].
    rewrite length_drop. unfold zlen in *. lia.
  - set (k := Z.min (zlen d) (64 - curlen md)).
    assert (Hk : 1 <= k) by lia.
    assert (Hs : slice d 0 k = take (Z.to_nat k) d) by done.
    assert (Hzs : zlen (slice d 0 k) = k) by (rewrite zlen_slice; lia).
    assert (Hsplit : m ++ d = (m ++ slice d 0 k) ++ drop (Z.to_nat k) d)
      by (by rewrite Hs, <- app_assoc, take_drop).
    assert (Hf : (length (drop (Z.to_nat k) d) <= n)%nat) by (rewrite length_drop; lia).
    destruct (curlen md + k =? 64) eqn:E2; bool_hyps; rewrite Hsplit.
    + apply IH; [|done]. apply hold_completed; [done|lia].
    + apply IH; [|done]. rewrite <- Hzs at 1. apply hold_buffered; [done|lia].
Qed.

Lemma sha256_update_ok iv md m d :
  holds iv md m -> exists md', sha256_update T md d = Some md' /\ holds iv md' (m ++ d).
Proof.
  intros H. unfold sha256_update. rewrite (hold_cur _ _ _ H). pose proof (tail_lt m).
  destruct (64 <=? zlen (tail_of m)) eqn:E; bool_hyps; [lia|].
  eexists. split; [reflexivity|]. by apply sha256_loop_ok.
Qed.

Lemma sha256_finish_ok iv md m :
  holds iv md m -> sha256_finish T md = Some (md_hash T iv be64 WPA_PUT_BE32 m).
Proof.
  intros H. unfold sha256_finish, md_hash. fold (absorb_all T iv (md_padded be64 m)).
  rewrite padded_tail, <- (hold_state _ _ _ H), (hold_length _ _ _ H), (hold_cur _ _ _ H).
  replace (u64 (u64 (8 * (zlen m - zlen (tail_of m))) + zlen (tail_of m) * 8)) with (u64 (8 * zlen m))
    by (unfold u64; rewrite Z.add_mod_idemp_l by lia; f_equal; lia).
  pose proof (hold_len _ _ _ H) as Hl. pose proof (hold_buf _ _ _ H) as Hb. pose proof (tail_lt m) as Hr.
  fold (be64 (u64 (8 * zlen m))). set (w := be64 (u64 (8 * zlen m))).
  assert (Hw : length w = 8%nat) by done. clearbody w. set (r := tail_of m) in *. clearbody r.
  destruct (64 <=? zlen r) eqn:E64; bool_hyps; [lia|].
  destruct (write_next r [0x80] (s_buf md) (zlen r) eq_refl) as [W1 L1];
    [change (zlen [0x80]) with 1; unfold zlen in *; lia|unfold zlen; by rewrite Nat2Z.id|].
  change (zlen [0x80]) with 1 in W1. set (b1 := mem_write (zlen r) [0x80] (s_buf md)) in *.
  assert (Hz1 : zlen (r ++ [0x80]) = zlen r + 1) by (rewrite zlen_app; reflexivity).
  destruct (56 <? zlen r + 1) eqn:E; bool_hyps.
  - set (z := replicate (Z.to_nat (64 - (zlen r + 1))) 0).
    assert (Hz : zlen z = 63 - zlen r) by (unfold z; rewrite zlen_replicate; lia).
    rewrite (mem_write_fill (zlen r + 1) z b1), W1 by (unfold zlen in *; lia).
    set (b2 := (r ++ [0x80]) ++ z).
    assert (L2 : length b2 = 64%nat) by (unfold b2, zlen in *; rewrite length_app; lia).
    change (Z.to_nat (56 - 0)) with 56%nat.
    destruct (write_next [] (replicate 56 0) b2 0 eq_refl) as [W3 L3];
      [rewrite zlen_replicate; unfold zlen; lia|done|].
    rewrite (mem_write_fill 56 w) by (unfold zlen; lia).
    change (Z.to_nat 56) with (Z.to_nat (0 + zlen (replicate 56 0))). rewrite W3.
    replace (Z.to_nat ((55 - zlen r) mod 64)) with (Z.to_nat (64 - (zlen r + 1)) + 56)%nat by lia.
    rewrite replicate_add. fold z.
    replace (r ++ 128 :: (z ++ replicate 56 0) ++ w) with (b2 ++ (replicate 56 0 ++ w))
      by (unfold b2; by rewrite <- !app_assoc).
    rewrite absorb_two; [done|done|]. rewrite length_app. cbn. lia.
  - set (z := replicate (Z.to_nat (56 - (zlen r + 1))) 0).
    assert (Hz : zlen z = 55 - zlen r) by (unfold z; rewrite zlen_replicate; lia).
    destruct (write_next (r ++ [0x80]) z b1 (zlen r + 1)) as [W2 L2];
      [lia|unfold zlen in *; lia|exact W1|].
    replace (zlen r + 1 + zlen z) with 56 in W2 by lia.
    rewrite (mem_write_fill 56 w), W2 by (unfold zlen in *; lia).
    replace (Z.to_nat ((55 - zlen r) mod 64)) with (Z.to_nat (56 - (zlen r + 1)))%nat by lia.
    fold z. rewrite <- !app_assoc. rewrite absorb_one; [done|].
    cbn [length app]. unfold zlen in *. rewrite !length_app. cbn [length]. rewrite length_app. lia.
Qed.

(** ** Vectors of elements *)

Lemma represents_init iv junk : length junk = 64%nat -> represents iv (mk_ctx iv 0 0 junk) [].
Proof. intros H. split; [done|exact H|done|]. by vm_compute. Qed.

Lemma sha1_elems_ok iv elems : forall c m,
  represents iv c m -> Forall (fun e => zlen e < 2 ^ 32 - 64) elems ->
  represents iv (fold_left (sha1_update T) elems c) (m ++ concat elems).
Proof.
  induction elems as [|e elems IH]; intros c m R He; cbn [fold_left concat]; [by rewrite app_nil_r|].
  apply Forall_cons in He as [He1 He2]. rewrite app_assoc. apply IH; [|done]. by apply sha1_update_ok.
Qed.

Lemma md5_elems_ok iv elems : forall c m,
  represents iv c m -> Forall (fun e => zlen e < 2 ^ 32 - 64) elems ->
  represents iv (fold_left (md5_update T) elems c) (m ++ concat elems).
Proof.
  induction elems as [|e elems IH]; intros c m R He; cbn [fold_left concat]; [by rewrite app_nil_r|].
  apply Forall_cons in He as [He1 He2]. rewrite app_assoc. apply IH; [|done].
  apply md5_update_ok; [done|lia].
Qed.
End contexts.

Lemma sha256_elems_ok elems : forall md m,
  holds sha256_compress sha256_iv md m ->
  exists md', sha256_elems md elems = Some md' /\ holds sha256_compress sha256_iv md' (m ++ concat elems).
Proof.
  induction elems as [|e elems IH]; intros md m R; cbn [sha256_elems concat].
  - rewrite app_nil_r. eauto.
  - destruct (sha256_update_ok sha256_compress _ _ _ e R) as (md' & E & R').
    unfold sha256_process. rewrite E, app_assoc. by apply IH.
Qed.

(** ** The compression function of SHA-1 *)

Lemma word_bits a b c d n :
  byte a -> byte b -> byte c -> byte d -> 0 <= n ->
  Z.testbit (Z.lor (Z.lor (Z.lor (Z.shiftl a 24) (Z.shiftl b 16)) (Z.shiftl c 8)) d) n =
  if n <? 8 then Z.testbit d n else if n <? 16 then Z.testbit c (n - 8)
  else if n <? 24 then Z.testbit b (n - 16) else if n <? 32 then Z.testbit a (n - 24) else false.
Proof.
  intros Ha Hb Hc Hd Hn.
  assert (Hhi : forall v k, byte v -> 8 <= k -> Z.testbit v k = false).
  { intros v k [Hv1 Hv2] Hk. destruct (decide (v = 0)) as [->|]; [apply Z.bits_0|].
    apply Z.bits_above_log2; [done|]. assert (Z.log2 v < 8) by (apply Z.log2_lt_pow2; lia). lia. }
  assert (Hlo : forall v k, k < 0 -> Z.testbit v k = false) by (intros; by apply Z.testbit_neg_r).
  rewrite !Z.lor_spec, !Z.shiftl_spec by done.
  repeat case_match; bool_hyps;
    repeat match goal with
    | H : byte ?v |- context [Z.testbit ?v ?k] => rewrite (Hhi v k H) by lia
    | |- context [Z.testbit ?v ?k] => rewrite (Hlo v k) by lia
    end; by rewrite ?orb_false_r, ?orb_false_l.
Qed.

Lemma byte_swap a b c d :
  byte a -> byte b -> byte c -> byte d ->
  let w := Z.lor (Z.lor (Z.lor (Z.shiftl d 24) (Z.shiftl c 16)) (Z.shiftl b 8)) a in
  Z.lor (Z.land (rol w 24) 0xFF00FF00) (Z.land (rol w 8) 0x00FF00FF) =
  Z.lor (Z.lor (Z.lor (Z.shiftl a 24) (Z.shiftl b 16)) (Z.shiftl c 8)) d.
Proof.
  intros Ha Hb Hc Hd w. apply Z.bits_inj'. intros n Hn. rewrite word_bits by done.
  destruct (Z.lt_ge_cases n 32) as [Hlt|Hge].
  - unfold rol, u32. rewrite Z.lor_spec, !Z.land_spec, !Z.lor_spec.
    rewrite !Z.mod_pow2_bits_low by done. rewrite !Z.shiftl_spec, !Z.shiftr_spec by done.
    assert (Hw : forall k, k < 0 -> Z.testbit w k = false) by (intros; by apply Z.testbit_neg_r).
    assert (H : List.In n (map Z.of_nat (seq 0 32))).
    { apply in_map_iff. exists (Z.to_nat n). rewrite in_seq. lia. }
    vm_compute in H.
    assert (Hbits := fun k => word_bits d c b a k Hd Hc Hb Ha). fold w in Hbits. clearbody w.
    repeat (destruct H as [<- |H]); [..|done];
      repeat match goal with
      | |- context [Z.testbit (Z.pos ?p) ?k] =>
          let b := eval vm_compute in (Z.testbit (Z.pos p) k) in
          change (Z.testbit (Z.pos p) k) with b
      end;
      rewrite ?andb_false_r, ?andb_true_r, ?orb_false_l, ?orb_false_r;
      rewrite ?(Hw (_ - 24)), ?(Hw (_ - 8)) by lia;
      rewrite ?Hbits by lia; rewrite ?orb_false_l, ?orb_false_r; reflexivity.
  - rewrite Z.lor_spec, !Z.land_spec.
    rewrite (Z.bits_above_log2 0xFF00FF00), (Z.bits_above_log2 0x00FF00FF) by (cbn; lia).
    rewrite !andb_false_r. repeat case_match; bool_hyps; try lia; done.
Qed.

#[local] Ltac Zify.zify_post_hook ::= Z.div_mod_to_equations.

Lemma ch_eq w x y : Z.lxor (Z.land w (Z.lxor x y)) y = Z.lxor (Z.land w x) (Z.land (Z.lnot w) y).
Proof.
  apply Z.bits_inj'. intros n Hn. rewrite !Z.lxor_spec, !Z.land_spec, Z.lxor_spec, Z.lnot_spec by done.
  by destruct (Z.testbit w n), (Z.testbit x n), (Z.testbit y n).
Qed.

Lemma maj_eq w x y :
  Z.lor (Z.land (Z.lor w x) y) (Z.land w x) =
  Z.lxor (Z.lxor (Z.land w x) (Z.land w y)) (Z.land x y).
Proof.
  apply Z.bits_inj'. intros n Hn. rewrite Z.lor_spec, !Z.lxor_spec, !Z.land_spec, Z.lor_spec.
  by destruct (Z.testbit w n), (Z.testbit x n), (Z.testbit y n).
Qed.

Lemma word_lookup l i : word l i = default 0 (l !! i).
Proof. unfold word. apply nth_lookup. Qed.

Lemma word_insert l i j w :
  (i < length l)%nat -> word (<[i := w]> l) j = if decide (i = j) then w else word l j.
Proof.
  intros H. rewrite !word_lookup. case_decide; [subst; by rewrite list_lookup_insert_eq|].
  by rewrite list_lookup_insert_ne.
Qed.

Lemma word_app_l l k i : (i < length l)%nat -> word (l ++ k) i = word l i.
Proof. intros H. unfold word. by rewrite app_nth1. Qed.

(** The schedule: 80 words, the block and the recurrence. *)
Definition recurrence (R : list Z) (t : nat) : Prop :=
  word R t = rol (Z.lxor (Z.lxor (Z.lxor (word R (t - 3)) (word R (t - 8))) (word R (t - 14)))
                         (word R (t - 16))) 1.

Lemma fips_extend_rounds n : forall from W,
  length W = from -> (16 <= from)%nat ->
  (exists X, rounds fips_extend from n W = W ++ X) /\
  forall t, (from <= t < from + n)%nat -> recurrence (rounds fips_extend from n W) t.
Proof.
  induction n as [|n IH]; intros from W Hl Hf; cbn [rounds].
  { split; [exists []; by rewrite app_nil_r|lia]. }
  unfold fips_extend at 2 4. set (w := rol _ 1).
  destruct (IH (S from) (W ++ [w])) as [[X HX] Hr]; [rewrite length_app; cbn; lia|lia|].
  split; [exists (w :: X); by rewrite HX, <- app_assoc|].
  intros t Ht. destruct (decide (t = from)) as [->|Hne]; [|apply Hr; lia].
  unfold recurrence. rewrite HX, <- app_assoc.
  rewrite (word_app_l W _ (from - 3)), (word_app_l W _ (from - 8)), (word_app_l W _ (from - 14)),
    (word_app_l W _ (from - 16)) by lia.
  unfold word at 1. rewrite app_nth2 by lia. rewrite Hl, Nat.sub_diag. reflexivity.
Qed.

Lemma length_words get b : length (words get b) = 16%nat.
Proof. unfold words. by rewrite length_map, length_seq. Qed.

Lemma word_words get b i : (i < 16)%nat -> word (words get b) i = get b (4 * Z.of_nat i).
Proof.
  intros H. unfold word, words. rewrite (nth_indep _ 0 (get b (4 * Z.of_nat 0))) by (by rewrite length_map, length_seq).
  rewrite (map_nth (fun i => get b (4 * Z.of_nat i))). by rewrite seq_nth.
Qed.

Lemma fips_schedule_spec block :
  (forall t, (t < 16)%nat -> word (fips_schedule block) t = WPA_GET_BE32 block (4 * Z.of_nat t)) /\
  forall t, (16 <= t < 80)%nat -> recurrence (fips_schedule block) t.
Proof.
  unfold fips_schedule.
  destruct (fips_extend_rounds 64 16 (words WPA_GET_BE32 block) (length_words _ _) ltac:(lia)) as [[X HX] Hr].
  split; [|exact Hr]. intros t Ht. rewrite HX, word_app_l by (by rewrite length_words). by apply word_words.
Qed.

(** The sixteen words the program keeps are the last sixteen of the schedule;
    in the first rounds the words that have not been used are still in memory
    order. *)
Definition window (block W l : list Z) (t : nat) : Prop :=
  length l = 16%nat /\
  (forall j, (j < t)%nat -> (t <= j + 16)%nat -> word l (j mod 16) = word W j) /\
  (forall j, (t <= j < 16)%nat -> word l j = get_le32 block (4 * Z.of_nat j)).

Lemma blk0_ok block l t :
  bytes block -> (t < 16)%nat -> window block (fips_schedule block) l t ->
  fst (blk0 l t) = word (fips_schedule block) t /\
  window block (fips_schedule block) (snd (blk0 l t)) (S t).
Proof.
  intros Hb Ht (Hl & Hw & Hr). unfold blk0. cbn [fst snd].
  assert (Hv : Z.lor (Z.land (rol (word l t) 24) 4278255360) (Z.land (rol (word l t) 8) 16711935) =
               word (fips_schedule block) t).
  { rewrite (proj1 (fips_schedule_spec block)), (Hr t) by lia.
    unfold get_le32, WPA_GET_BE32. apply byte_swap; by apply byte_at_byte. }
  split; [exact Hv|]. rewrite Hv. split_and!.
  - by rewrite length_insert.
  - intros j Hj1 Hj2. rewrite (Nat.mod_small j) by lia. rewrite word_insert by lia.
    case_decide; [by subst|]. rewrite <- (Hw j) by lia. by rewrite Nat.mod_small by lia.
  - intros j Hj. rewrite word_insert by lia. case_decide; [lia|]. apply Hr. lia.
Qed.

Lemma mod_back t k : (k <= t)%nat -> (k <= 16)%nat -> ((t - k) mod 16 = (t + (16 - k)) mod 16)%nat.
Proof.
  intros H1 H2. replace (t + (16 - k))%nat with (t - k + 1 * 16)%nat by lia.
  by rewrite Nat.Div0.mod_add.
Qed.

Lemma blk_ok block l t :
  (16 <= t < 80)%nat -> window block (fips_schedule block) l t ->
  fst (blk l t) = word (fips_schedule block) t /\
  window block (fips_schedule block) (snd (blk l t)) (S t).
Proof.
  intros Ht (Hl & Hw & Hr). unfold blk. cbn [fst snd].
  pose proof (proj2 (fips_schedule_spec block) t Ht) as Hrec. unfold recurrence in Hrec.
  rewrite <- (Hw (t - 3)%nat), <- (Hw (t - 8)%nat), <- (Hw (t - 14)%nat), <- (Hw (t - 16)%nat) in Hrec by lia.
  rewrite (mod_back t 3), (mod_back t 8), (mod_back t 14), (mod_back t 16) in Hrec by lia.
  cbn [Nat.sub] in Hrec. rewrite Nat.add_0_r in Hrec.
  rewrite <- Hrec. split; [done|]. assert (t mod 16 < 16)%nat by (apply Nat.mod_upper_bound; lia).
  split_and!.
  - by rewrite length_insert.
  - intros j Hj1 Hj2. rewrite word_insert by lia. case_decide as Hd.
    + f_equal. pose proof (Nat.div_mod_eq t 16). pose proof (Nat.div_mod_eq j 16). lia.
    + apply Hw; [|lia]. destruct (decide (j = t)); [by subst|lia].
  - lia.
Qed.

(** A group of rounds of the program and the same rounds of the standard. *)
Lemma group_ok block f k sched n : forall from s l,
  (forall t, (from <= t < from + n)%nat -> fips_k t = k /\ forall w x y, fips_f t w x y = f w x y) ->
  (forall l t, (from <= t < from + n)%nat -> window block (fips_schedule block) l t ->
     fst (sched l t) = word (fips_schedule block) t /\
     window block (fips_schedule block) (snd (sched l t)) (S t)) ->
  window block (fips_schedule block) l from ->
  exists l', rounds (sha1_round f k sched) from n (s, l) =
             (rounds (fips_round (fips_schedule block)) from n s, l') /\
             window block (fips_schedule block) l' (from + n).
Proof.
  induction n as [|n IH]; intros from s l Hf Hs Hw; cbn [rounds].
  - exists l. by rewrite Nat.add_0_r.
  - destruct s as [[[[v w] x] y] z].
    destruct (Hs l from ltac:(lia) Hw) as [E1 E2]. destruct (Hf from ltac:(lia)) as [F1 F2].
    assert (Hr : sha1_round f k sched from (@pair sha1_vars _ (v, w, x, y, z) l) =
                 (fips_round (fips_schedule block) from (v, w, x, y, z), snd (sched l from))).
    { unfold sha1_round, fips_round. destruct (sched l from) as [t l'] eqn:E. cbn [fst snd] in *.
      rewrite F1, F2, E1.
      replace (z + (f w x y + word (fips_schedule block) from + k + rol v 5))
        with (rol v 5 + f w x y + z + k + word (fips_schedule block) from) by lia. reflexivity. }
    destruct (IH (S from) (fips_round (fips_schedule block) from (v, w, x, y, z)) (snd (sched l from)))
      as (l' & R1 & R2); [intros t Ht; apply Hf; lia|intros l0 t Ht; apply Hs; lia|done|].
    exists l'. rewrite Hr. split; [exact R1|]. by replace (from + S n)%nat with (S from + n)%nat by lia.
Qed.

Lemma fips_rounds_split W a b from s :
  rounds (fips_round W) from (a + b) s = rounds (fips_round W) (from + a) b (rounds (fips_round W) from a s).
Proof.
  revert from s. induction a as [|a IH]; intros from s; cbn [rounds Nat.add]; [by rewrite Nat.add_0_r|].
  rewrite IH. by rewrite Nat.add_succ_r.
Qed.

Ltac case_round :=
  intros t Ht; unfold fips_f, fips_k;
  repeat match goal with |- context [(t <? ?n)%nat] => destruct (Nat.ltb_spec t n); try lia end;
  (split; [done|]); intros; rewrite ?ch_eq, ?maj_eq; reflexivity.

Theorem sha1_transform_fips st block :
  bytes block -> SHA1Transform st block = fips_sha1 st block.
Proof.
  intros Hb. unfold SHA1Transform, fips_sha1.
  set (s0 := (word st 0, word st 1, word st 2, word st 3, word st 4)).
  assert (W0 : window block (fips_schedule block) (words get_le32 block) 0).
  { split; [apply length_words|]. split; [lia|]. intros j Hj. apply word_words. lia. }
  change 80%nat with (16 + (4 + (20 + (20 + 20))))%nat.
  rewrite (fips_rounds_split _ 16), (fips_rounds_split _ 4), (fips_rounds_split _ 20 (20 + 20)),
    (fips_rounds_split _ 20 20). cbn [Nat.add].
  assert (Hblk : forall from n, (16 <= from)%nat -> (from + n <= 80)%nat -> forall l t,
    (from <= t < from + n)%nat -> window block (fips_schedule block) l t ->
    fst (blk l t) = word (fips_schedule block) t /\
    window block (fips_schedule block) (snd (blk l t)) (S t)).
  { intros from n H1 H2 l t Ht. apply blk_ok. lia. }
  unfold R0, R1, R2, R3, R4.
  edestruct (group_ok block) as (l1 & -> & W1); [| |exact W0|]; [case_round|intros l t Ht; apply blk0_ok; [done|lia]|].
  edestruct (group_ok block) as (l2 & -> & W2); [| |exact W1|]; [case_round|apply Hblk; lia|].
  edestruct (group_ok block) as (l3 & -> & W3); [| |exact W2|]; [case_round|apply Hblk; lia|].
  edestruct (group_ok block) as (l4 & -> & W4); [| |exact W3|]; [case_round|apply Hblk; lia|].
  edestruct (group_ok block) as (l5 & -> & W5); [| |exact W4|]; [case_round|apply Hblk; lia|].
  reflexivity.
Qed.

(** ** The hash of a vector *)

Lemma chain_ext T1 T2 n : forall st l,
  (forall st b, bytes b -> T1 st b = T2 st b) -> bytes l -> chain T1 n st l = chain T2 n st l.
Proof.
  induction n as [|n IH]; intros st l HT Hl; cbn [chain]; [done|].
  rewrite HT by (by apply Forall_take). apply IH; [done|]. by apply Forall_drop.
Qed.

Lemma byte_land v : byte (Z.land v 0xff).
Proof. rewrite land_ff. unfold byte. apply Z.mod_pos_bound. lia. Qed.

Lemma be64_bytes v : bytes (be64 v).
Proof. unfold be64, WPA_PUT_BE32. repeat (constructor; [apply byte_land|]). constructor. Qed.

Lemma padded_bytes m : bytes m -> bytes (md_padded be64 m).
Proof.
  intros H. unfold md_padded. apply bytes_app. split; [done|]. constructor; [unfold byte; lia|].
  apply bytes_app. split; [|apply be64_bytes]. apply Forall_replicate. unfold byte. lia.
Qed.

Lemma sha1_state_length n : forall st l,
  length st = 5%nat -> length (chain SHA1Transform n st l) = 5%nat.
Proof.
  induction n as [|n IH]; intros st l H; cbn [chain]; [done|]. apply IH.
  unfold SHA1Transform. destruct (rounds R4 60 20 _) as [[[[[a b] c] d] e] w].
  unfold add_words. by rewrite length_zip_with, H.
Qed.

Lemma concat_bytes elems : Forall bytes elems -> bytes (concat elems).
Proof.
  induction 1 as [|e elems He Hes IH]; cbn; [constructor|]. by apply bytes_app.
Qed.

(** A part of a message: octets, and fewer than the 32-bit lengths of
    [SHA1Update] can take. *)
Definition part (e : list Z) : Prop := bytes e /\ zlen e < 2 ^ 32 - 64.

Lemma parts_bytes elems : Forall part elems -> bytes (concat elems).
Proof. intros H. apply concat_bytes. by apply (Forall_impl part); [|intros ? []]. Qed.

Lemma parts_short elems : Forall part elems -> Forall (fun e => zlen e < 2 ^ 32 - 64) elems.
Proof. intros H. by apply (Forall_impl part); [|intros ? []]. Qed.

Lemma md5_from_ok junk elems :
  length junk = 64%nat -> Forall part elems -> md5_from junk elems = md5 (concat elems).
Proof.
  intros Hj He. apply md5_final_ok. apply (md5_elems_ok _ _ _ _ []); [by apply represents_init|].
  by apply parts_short.
Qed.

Lemma sha1_from_ok junk elems :
  length junk = 64%nat -> Forall part elems -> sha1_from junk elems = sha1 (concat elems).
Proof.
  intros Hj He. unfold sha1_from, SHA1Final.
  rewrite (sha1_final_ok SHA1Transform sha1_iv _ (concat elems)).
  - unfold sha1, md_hash. f_equal. f_equal. apply chain_ext; [|by apply padded_bytes, parts_bytes].
    intros st b H. by apply sha1_transform_fips.
  - intros l. by apply sha1_state_length.
  - apply (sha1_elems_ok _ _ _ _ []); [by apply represents_init|by apply parts_short].
Qed.

Lemma sha256_from_ok junk elems :
  length junk = 64%nat -> sha256_from junk elems = Some (sha256 (concat elems)).
Proof.
  intros Hj. unfold sha256_from, sha256_done.
  destruct (sha256_elems_ok elems (sha256_init junk) []) as (md & -> & R).
  { split; [done|done|done|done|by vm_compute]. }
  exact (sha256_finish_ok sha256_compress sha256_iv md (concat elems) R).
Qed.

(** C28: whatever the parts a message is passed in and whatever the buffer of
    the context held before, the three hash functions compute what the
    standards define: the padded message chained block by block, for SHA-1
    through the compression function of FIPS 180.  SHA-256 does not report an
    error. *)
Theorem hash_vectors_exact junk elems :
  length junk = 64%nat -> Forall part elems ->
  md5_from junk elems = md5 (concat elems) /\
  sha1_from junk elems = sha1 (concat elems) /\
  sha256_from junk elems = Some (sha256 (concat elems)).
Proof. auto using md5_from_ok, sha1_from_ok, sha256_from_ok. Qed.

(** The vectors of RFC 1321 and FIPS 180, in three parts. *)
Lemma hash_vectors_exact_witness :
  let parts := [chars "a"; []; chars "bc"] in
  concat (map (hex_byte false) (sha1 (chars "abc"))) = chars "a9993e364706816aba3e25717850c26c9cd0d89d" /\
  concat (map (hex_byte false) (md5 (chars "abc"))) = chars "900150983cd24fb0d6963f7d28e17f72" /\
  sha1_from (replicate 64 7) parts = sha1 (chars "abc") /\
  sha256_from (replicate 64 7) parts = Some (sha256 (chars "abc")).
Proof.
  intros parts. split; [vm_compute; reflexivity|]. split; [vm_compute; reflexivity|].
  assert (Hp : Forall part parts).
  { repeat (constructor; [split; [repeat (constructor; [unfold byte; vm_compute; split; discriminate || reflexivity|]); constructor|vm_compute; reflexivity]|]). constructor. }
  pose proof (hash_vectors_exact (replicate 64 7) parts eq_refl Hp) as H.
  split; [exact (proj1 (proj2 H))|exact (proj2 (proj2 H))].
Defined.

(** ** HMAC and the pseudo-random functions *)

Lemma k_pad_eq x key :
  zlen key <= 64 -> k_pad x key = map (Z.lxor x) (key ++ replicate (64 - length key) 0).
Proof.
  intros H. unfold k_pad, mem_write. cbn [Z.to_nat take app Nat.add]. rewrite drop_replicate.
  apply map_ext. intros b. apply Z.lxor_comm.
Qed.

Section hmac.
Context (Hv : list (list Z) -> option (list Z)) (H : list Z -> list Z).
Context (Hexact : forall elems, Forall part elems -> Hv elems = Some (H (concat elems))).
Context (Hpart : forall m, part (H m)) (Hshort : forall m, zlen (H m) <= 64).

Lemma k_pad_part x key : byte x -> bytes key -> zlen key <= 64 -> part (k_pad x key).
Proof.
  intros Hx Hk Hz. rewrite k_pad_eq by done. split.
  - apply Forall_map, Forall_app. split.
    + eapply Forall_impl; [exact Hk|]. intros b Hb. by apply lxor_byte.
    + apply Forall_replicate. apply lxor_byte; [done|]. unfold byte. lia.
  - unfold zlen in *. rewrite length_map, length_app, length_replicate. lia.
Qed.

Lemma hmac_ok key elems :
  part key -> Forall part elems -> (length elems <= 5)%nat ->
  hmac_vector Hv key elems = Some (hmac H key (concat elems)).
Proof.
  intros Hk He Hl. unfold hmac_vector, hmac.
  destruct (Nat.ltb_spec 5 (length elems)); [lia|].
  set (key' := if 64 <? zlen key then H key else key).
  assert (Hkey : (if 64 <? zlen key then Hv [key] else Some key) = Some key').
  { unfold key'. destruct (64 <? zlen key); [|done]. rewrite Hexact by (constructor; [done|constructor]).
    cbn [concat]. by rewrite app_nil_r. }
  assert (Hs : zlen key' <= 64).
  { unfold key'. destruct (64 <? zlen key) eqn:E; bool_hyps; [apply Hshort|done]. }
  assert (Hb : bytes key') by (unfold key'; destruct (64 <? zlen key); [apply Hpart|apply Hk]).
  rewrite Hkey. clearbody key'.
  assert (P1 : part (k_pad 54 key')) by (apply k_pad_part; [unfold byte; lia|done|done]).
  assert (P2 : part (k_pad 92 key')) by (apply k_pad_part; [unfold byte; lia|done|done]).
  rewrite Hexact by (by constructor).
  rewrite Hexact by (constructor; [done|]; constructor; [apply Hpart|constructor]).
  cbn [concat]. by rewrite app_nil_r, !k_pad_eq.
Qed.
End hmac.

(** *** The digests *)

Lemma digest_part (out : Z -> list Z) st n :
  (forall w, bytes (out w) /\ length (out w) = 4%nat) -> length st = n -> (n <= 16)%nat ->
  part (concat (map out st)) /\ zlen (concat (map out st)) = 4 * Z.of_nat n.
Proof.
  intros Ho Hn Hle. assert (Hz : zlen (concat (map out st)) = 4 * Z.of_nat n).
  { subst n. clear Hle. induction st as [|w st IH]; [done|]. cbn [map concat length].
    rewrite zlen_app, IH. unfold zlen. rewrite (proj2 (Ho w)). lia. }
  split; [|exact Hz]. split; [|lia]. apply concat_bytes, Forall_map, Forall_true. intros w. apply Ho.
Qed.

Lemma be32_part w : bytes (WPA_PUT_BE32 w) /\ length (WPA_PUT_BE32 w) = 4%nat.
Proof. split; [|done]. unfold WPA_PUT_BE32. repeat (constructor; [apply byte_land|]). constructor. Qed.
Lemma le32_part w : bytes (put_le32 w) /\ length (put_le32 w) = 4%nat.
Proof. split; [|done]. unfold put_le32. repeat (constructor; [apply byte_land|]). constructor. Qed.

Lemma chain_length T k : (forall st b, length st = k -> length (T st b) = k) ->
  forall n st l, length st = k -> length (chain T n st l) = k.
Proof. intros HT n. induction n as [|n IH]; intros st l H; cbn [chain]; auto. Qed.

Lemma fips_sha1_length st b : length st = 5%nat -> length (fips_sha1 st b) = 5%nat.
Proof.
  intros H. unfold fips_sha1. destruct (rounds _ _ _ _) as [[[[x0 x1] x2] x3] x4].
  unfold add_words. by rewrite length_zip_with, H.
Qed.

Lemma md5_length st b : length st = 4%nat -> length (MD5Transform st b) = 4%nat.
Proof.
  intros H. unfold MD5Transform. destruct (fold_left _ _ _) as [[[x0 x1] x2] x3].
  unfold add_words. by rewrite length_zip_with, H.
Qed.

Lemma sha256_round_length W n : forall from s, length s = 8%nat -> length (rounds (sha256_round W) from n s) = 8%nat.
Proof.
  induction n as [|n IH]; intros from s H; cbn [rounds]; [done|]. apply IH.
  destruct s as [|a [|b [|c [|d [|e [|f [|g [|h [|i s]]]]]]]]]; try discriminate H. reflexivity.
Qed.

Lemma sha256_length st b : length st = 8%nat -> length (sha256_compress st b) = 8%nat.
Proof.
  intros H. unfold sha256_compress, add_words. rewrite length_zip_with, sha256_round_length by done. lia.
Qed.

Lemma md5_part m : part (md5 m) /\ zlen (md5 m) = 16.
Proof. apply (digest_part _ _ 4 le32_part); [apply (chain_length _ 4 md5_length); done|lia]. Qed.
Lemma sha1_part m : part (sha1 m) /\ zlen (sha1 m) = 20.
Proof. apply (digest_part _ _ 5 be32_part); [apply (chain_length _ 5 fips_sha1_length); done|lia]. Qed.
Lemma sha256_part m : part (sha256 m) /\ zlen (sha256 m) = 32.
Proof. apply (digest_part _ _ 8 be32_part); [apply (chain_length _ 8 sha256_length); done|lia]. Qed.

Lemma hmac_sha1_ok key elems :
  part key -> Forall part elems -> (length elems <= 5)%nat ->
  hmac_sha1_vector key elems = Some (hmac sha1 key (concat elems)).
Proof.
  apply hmac_ok.
  - intros l Hl. unfold sha1_vector. by rewrite sha1_from_ok.
  - intros m. apply sha1_part.
  - intros m. rewrite (proj2 (sha1_part m)). lia.
Qed.
Lemma hmac_md5_ok key elems :
  part key -> Forall part elems -> (length elems <= 5)%nat ->
  hmac_md5_vector key elems = Some (hmac md5 key (concat elems)).
Proof.
  apply hmac_ok.
  - intros l Hl. unfold md5_vector. by rewrite md5_from_ok.
  - intros m. apply md5_part.
  - intros m. rewrite (proj2 (md5_part m)). lia.
Qed.
Lemma hmac_sha256_ok key elems :
  part key -> Forall part elems -> (length elems <= 5)%nat ->
  hmac_sha256_vector key elems = Some (hmac sha256 key (concat elems)).
Proof.
  apply hmac_ok.
  - intros l Hl. by apply sha256_from_ok.
  - intros m. apply sha256_part.
  - intros m. rewrite (proj2 (sha256_part m)). lia.
Qed.

(** *** Output blocks *)

Lemma take_blocks (h rest : list Z) n size :
  zlen h = size -> 0 <= n ->
  take (Z.to_nat n) (h ++ rest) =
  if size <=? n then h ++ take (Z.to_nat (n - size)) rest else take (Z.to_nat n) h.
Proof.
  intros Hh Hn. unfold zlen in Hh. destruct (size <=? n) eqn:E; bool_hyps.
  - rewrite take_app_ge by lia. do 2 f_equal. lia.
  - by rewrite take_app_le by lia.
Qed.

Lemma sha1_prf_loop_ok key label d fuel : forall c left,
  part key -> part label -> part d -> 0 <= left <= 20 * Z.of_nat fuel ->
  sha1_prf_loop fuel key label d (u8 (Z.of_nat c)) left =
  Some (take (Z.to_nat left)
    (concat (map (fun i => hmac sha1 key (label ++ d ++ [u8 (Z.of_nat i)])) (seq c fuel)))).
Proof.
  induction fuel as [|n IH]; intros c left Hk Hl Hd Hf; cbn [sha1_prf_loop seq map concat].
  { by replace left with 0 by lia. }
  destruct (0 <? left) eqn:E0; bool_hyps; [|by replace left with 0 by lia].
  rewrite hmac_sha1_ok; [|done| |cbn; lia].
  2: { repeat (constructor; [done|]). constructor; [|constructor]. split; [|done].
       constructor; [apply u8_range|constructor]. }
  cbn [concat]. rewrite app_nil_r.
  rewrite (take_blocks _ _ _ 20) by (apply sha1_part || lia).
  destruct (20 <=? left) eqn:E; bool_hyps; [|done].
  replace (u8 (u8 (Z.of_nat c) + 1)) with (u8 (Z.of_nat (S c)))
    by (unfold u8; rewrite Z.add_mod_idemp_l by lia; f_equal; lia).
  by rewrite IH by (done || lia).
Qed.

Lemma le16_part v : part (WPA_PUT_LE16 v).
Proof.
  split; [|done]. unfold WPA_PUT_LE16. constructor; [apply byte_land|]. constructor; [|constructor].
  pose proof (u16_range v). unfold byte. rewrite Z.shiftr_div_pow2 by lia.
  split; [apply Z.div_pos; lia|apply Z.div_lt_upper_bound; lia].
Qed.

Lemma sha256_prf_loop_ok key label d le fuel : forall c left,
  part key -> part label -> part d -> part le -> 0 <= left <= 32 * Z.of_nat fuel ->
  sha256_prf_loop fuel key label d le (u16 (Z.of_nat c)) left =
  Some (take (Z.to_nat left)
    (concat (map (fun i => hmac sha256 key (WPA_PUT_LE16 (u16 (Z.of_nat i)) ++ label ++ d ++ le))
                 (seq c fuel)))).
Proof.
  induction fuel as [|n IH]; intros c left Hk Hl Hd He Hf; cbn [sha256_prf_loop seq map concat].
  { by replace left with 0 by lia. }
  destruct (0 <? left) eqn:E0; bool_hyps; [|by replace left with 0 by lia].
  rewrite hmac_sha256_ok; [|done| |cbn; lia].
  2: { constructor; [apply le16_part|]. repeat (constructor; [done|]). constructor. }
  cbn [concat]. rewrite app_nil_r.
  rewrite (take_blocks _ _ _ 32) by (apply sha256_part || lia).
  destruct (32 <=? left) eqn:E; bool_hyps; [|done].
  replace (u16 (u16 (Z.of_nat c) + 1)) with (u16 (Z.of_nat (S c)))
    by (unfold u16; rewrite Z.add_mod_idemp_l by lia; f_equal; lia).
  by rewrite IH by (done || lia).
Qed.

Lemma chars_bytes s : bytes (chars s).
Proof.
  unfold chars. apply Forall_map. apply Forall_true. intros a. unfold byte.
  pose proof (Ascii.nat_ascii_bounded a). lia.
Qed.

(** C37: HMAC-MD5, HMAC-SHA1 and HMAC-SHA256 of a vector of at most five
    elements are RFC 2104's HMAC of their concatenation (six or more are an
    error), and the key derivation functions built on them return the first
    [n] octets of their output blocks: HMAC-SHA1 of the label with its NUL,
    the data and a counter octet; HMAC-SHA256 of a counter, the label, the
    data and the length in bits. *)
Theorem hmac_prf_exact key elems label d n :
  part key -> Forall part elems -> part (chars label) -> zlen (chars label) < 2 ^ 32 - 65 -> part d ->
  0 <= n ->
  (hmac_md5_vector key elems = if (5 <? length elems)%nat then None else Some (hmac md5 key (concat elems))) /\
  (hmac_sha1_vector key elems = if (5 <? length elems)%nat then None else Some (hmac sha1 key (concat elems))) /\
  (hmac_sha256_vector key elems =
     if (5 <? length elems)%nat then None else Some (hmac sha256 key (concat elems))) /\
  sha1_prf key label d n =
    Some (expand 20 (fun i => hmac sha1 key (chars label ++ [0] ++ d ++ [u8 (Z.of_nat i)])) n) /\
  sha256_prf key label d n =
    Some (expand 32 (fun i => hmac sha256 key
      (WPA_PUT_LE16 (u16 (Z.of_nat (i + 1))) ++ chars label ++ d ++ WPA_PUT_LE16 (n * 8))) n).
Proof.
  intros Hk He Hl Hl1 Hd Hn.
  assert (H5 : forall (f : list Z -> list (list Z) -> option (list Z)) r,
    ((5 < length elems)%nat -> f key elems = None) ->
    ((length elems <= 5)%nat -> f key elems = Some r) ->
    f key elems = if (5 <? length elems)%nat then None else Some r).
  { intros f r H1 H2. destruct (Nat.ltb_spec 5 (length elems)); auto. }
  assert (Hnone : forall H, (5 < length elems)%nat -> hmac_vector H key elems = None).
  { intros H Hlt. unfold hmac_vector. by destruct (Nat.ltb_spec 5 (length elems)); [|lia]. }
  split_and!.
  - apply H5; [apply Hnone|]. intros. by apply hmac_md5_ok.
  - apply H5; [apply Hnone|]. intros. by apply hmac_sha1_ok.
  - apply H5; [apply Hnone|]. intros. by apply hmac_sha256_ok.
  - unfold sha1_prf, expand. change 0 with (u8 (Z.of_nat 0)) at 2.
    rewrite sha1_prf_loop_ok; [|done| |done|].
    + replace (Z.to_nat (n / 20 + 1)) with (Z.to_nat n / 20 + 1)%nat.
      * do 3 f_equal. apply map_ext. intros i. by rewrite <- app_assoc.
      * rewrite Z2Nat.inj_add, Z2Nat.inj_div by (try apply Z.div_pos; lia). done.
    + split; [apply bytes_app; split; [apply Hl|repeat constructor; unfold byte; lia]|].
      rewrite zlen_app. change (zlen [0]) with 1. lia.
    + lia.
  - unfold sha256_prf, sha256_prf_bits, mask_last, expand.
    rewrite Z.mod_mul by lia.
    replace ((n * 8 + 7) / 8) with n by (apply Z.div_unique with 7; lia).
    assert (Hp := sha256_prf_loop_ok key (chars label) d (WPA_PUT_LE16 (n * 8)) (Z.to_nat (n / 32 + 1)) 1 n
      Hk Hl Hd (le16_part _) ltac:(lia)).
    change (u16 (Z.of_nat 1)) with 1 in Hp. rewrite Hp.
    replace (Z.to_nat (n / 32 + 1)) with (Z.to_nat n / 32 + 1)%nat
      by (rewrite Z2Nat.inj_add, Z2Nat.inj_div by (try apply Z.div_pos; lia); done).
    rewrite <- seq_shift, map_map. do 3 f_equal. apply map_ext. intros i. by rewrite Nat.add_1_r.
Qed.

(** RFC 2202 and IEEE 802.11i: keys "Jefe" and 20 octets 0x0b. *)
Lemma hmac_prf_exact_witness :
  hmac_sha1 (chars "Jefe") (chars "what do ya want for nothing?") =
    Some (hmac sha1 (chars "Jefe") (concat [chars "what do ya want for nothing?"])) /\
  option_map (fun l => concat (map (hex_byte false) (take 8 l)))
    (sha1_prf (replicate 20 0x0b) "prefix" (chars "Hi There") 64) = Some (chars "bcd4c650b30b9684").
Proof.
  split; [|vm_compute; reflexivity].
  assert (Hp : forall s, zlen (chars s) < 1000 -> part (chars s)).
  { intros s Hs. split; [apply chars_bytes|lia]. }
  pose proof (hmac_prf_exact (chars "Jefe") [chars "what do ya want for nothing?"] "prefix"
    (chars "Hi There") 64) as H.
  specialize (H (Hp "Jefe"%string eq_refl)
    (Forall_cons_2 part _ [] (Hp "what do ya want for nothing?"%string eq_refl) (Forall_nil_2 part))
    (Hp "prefix"%string eq_refl) eq_refl (Hp "Hi There"%string eq_refl) (Zle_0_pos 64)).
  exact (proj1 (proj2 H)).
Defined.
