(* ===== verification/WpaCommon.v ===== *)
(** * WPA and RSN definitions shared by the roles

    Cipher and key management identifiers (common/defs.h), the EAPOL-Key
    frame, its MIC and the pairwise key hierarchy (common/wpa_common.h,
    wpa_common.c), and the Key Data field (ap/wpa_auth_ie.c).  The build has
    CONFIG_IEEE80211W and none of CONFIG_IEEE80211R, CONFIG_HS20,
    CONFIG_SUITEB, CONFIG_SUITEB192, CONFIG_PEERKEY and CONFIG_P2P. *)

From Stdlib Require Import String.
From S2P Require Import Prelude.
From S2P Require Import Wpabuf.
From S2P Require Import Common.
From S2P Require Import Aes.
From S2P Require Import Hash.

(** ** Identifiers (common/defs.h) *)

Definition WPA_CIPHER_NONE : Z := 2 ^ 0.
Definition WPA_CIPHER_TKIP : Z := 2 ^ 3.
Definition WPA_CIPHER_CCMP : Z := 2 ^ 4.
Definition WPA_CIPHER_AES_128_CMAC : Z := 2 ^ 5.
Definition WPA_CIPHER_GCMP : Z := 2 ^ 6.
Definition WPA_CIPHER_GCMP_256 : Z := 2 ^ 8.
Definition WPA_CIPHER_CCMP_256 : Z := 2 ^ 9.
Definition WPA_CIPHER_BIP_GMAC_128 : Z := 2 ^ 11.
Definition WPA_CIPHER_BIP_GMAC_256 : Z := 2 ^ 12.
Definition WPA_CIPHER_BIP_CMAC_256 : Z := 2 ^ 13.

Definition WPA_KEY_MGMT_IEEE8021X : Z := 2 ^ 0.
Definition WPA_KEY_MGMT_PSK : Z := 2 ^ 1.
Definition WPA_KEY_MGMT_FT_IEEE8021X : Z := 2 ^ 5.
Definition WPA_KEY_MGMT_FT_PSK : Z := 2 ^ 6.
Definition WPA_KEY_MGMT_IEEE8021X_SHA256 : Z := 2 ^ 7.
Definition WPA_KEY_MGMT_PSK_SHA256 : Z := 2 ^ 8.
Definition WPA_KEY_MGMT_SAE : Z := 2 ^ 10.
Definition WPA_KEY_MGMT_FT_SAE : Z := 2 ^ 11.
Definition WPA_KEY_MGMT_CCKM : Z := 2 ^ 14.
Definition WPA_KEY_MGMT_OSEN : Z := 2 ^ 15.
Definition WPA_KEY_MGMT_IEEE8021X_SUITE_B : Z := 2 ^ 16.
Definition WPA_KEY_MGMT_IEEE8021X_SUITE_B_192 : Z := 2 ^ 17.

Definition has_bits (v mask : Z) : bool := negb (Z.land v mask =? 0).

Definition wpa_key_mgmt_wpa_ieee8021x (akm : Z) : bool :=
  has_bits akm (WPA_KEY_MGMT_IEEE8021X + WPA_KEY_MGMT_FT_IEEE8021X + WPA_KEY_MGMT_CCKM +
                WPA_KEY_MGMT_OSEN + WPA_KEY_MGMT_IEEE8021X_SHA256 +
                WPA_KEY_MGMT_IEEE8021X_SUITE_B + WPA_KEY_MGMT_IEEE8021X_SUITE_B_192).
Definition wpa_key_mgmt_wpa_psk (akm : Z) : bool :=
  has_bits akm (WPA_KEY_MGMT_PSK + WPA_KEY_MGMT_FT_PSK + WPA_KEY_MGMT_PSK_SHA256 +
                WPA_KEY_MGMT_SAE + WPA_KEY_MGMT_FT_SAE).
Definition wpa_key_mgmt_ft (akm : Z) : bool :=
  has_bits akm (WPA_KEY_MGMT_FT_PSK + WPA_KEY_MGMT_FT_IEEE8021X + WPA_KEY_MGMT_FT_SAE).
Definition wpa_key_mgmt_sha256 (akm : Z) : bool :=
  has_bits akm (WPA_KEY_MGMT_PSK_SHA256 + WPA_KEY_MGMT_IEEE8021X_SHA256 + WPA_KEY_MGMT_OSEN +
                WPA_KEY_MGMT_IEEE8021X_SUITE_B).
Definition wpa_key_mgmt_suite_b (akm : Z) : bool :=
  has_bits akm (WPA_KEY_MGMT_IEEE8021X_SUITE_B + WPA_KEY_MGMT_IEEE8021X_SUITE_B_192).

Definition WPA_PROTO_WPA : Z := 2 ^ 0.
Definition WPA_PROTO_RSN : Z := 2 ^ 1.

Inductive wpa_alg :=
  | WPA_ALG_NONE | WPA_ALG_WEP | WPA_ALG_TKIP | WPA_ALG_CCMP | WPA_ALG_IGTK | WPA_ALG_PMK
  | WPA_ALG_GCMP | WPA_ALG_SMS4 | WPA_ALG_KRK | WPA_ALG_GCMP_256 | WPA_ALG_CCMP_256
  | WPA_ALG_BIP_GMAC_128 | WPA_ALG_BIP_GMAC_256 | WPA_ALG_BIP_CMAC_256.
#[global] Instance wpa_alg_eq_dec : EqDecision wpa_alg.
Proof. solve_decision. Defined.

Definition wpa_cipher_key_len (cipher : Z) : Z :=
  if (cipher =? WPA_CIPHER_CCMP_256) || (cipher =? WPA_CIPHER_GCMP_256) ||
     (cipher =? WPA_CIPHER_BIP_GMAC_256) || (cipher =? WPA_CIPHER_BIP_CMAC_256) then 32
  else if (cipher =? WPA_CIPHER_CCMP) || (cipher =? WPA_CIPHER_GCMP) ||
          (cipher =? WPA_CIPHER_AES_128_CMAC) || (cipher =? WPA_CIPHER_BIP_GMAC_128) then 16
  else if cipher =? WPA_CIPHER_TKIP then 32
  else 0.

Definition wpa_cipher_to_alg (cipher : Z) : wpa_alg :=
  if cipher =? WPA_CIPHER_CCMP_256 then WPA_ALG_CCMP_256
  else if cipher =? WPA_CIPHER_GCMP_256 then WPA_ALG_GCMP_256
  else if cipher =? WPA_CIPHER_CCMP then WPA_ALG_CCMP
  else if cipher =? WPA_CIPHER_GCMP then WPA_ALG_GCMP
  else if cipher =? WPA_CIPHER_TKIP then WPA_ALG_TKIP
  else if cipher =? WPA_CIPHER_AES_128_CMAC then WPA_ALG_IGTK
  else if cipher =? WPA_CIPHER_BIP_GMAC_128 then WPA_ALG_BIP_GMAC_128
  else if cipher =? WPA_CIPHER_BIP_GMAC_256 then WPA_ALG_BIP_GMAC_256
  else if cipher =? WPA_CIPHER_BIP_CMAC_256 then WPA_ALG_BIP_CMAC_256
  else WPA_ALG_NONE.

(** ** The EAPOL-Key frame (common/wpa_common.h) *)

Definition ETH_ALEN : nat := 6.
Definition PMK_LEN : nat := 32.
Definition PMK_LEN_SUITE_B_192 : nat := 48.
Definition WPA_NONCE_LEN : nat := 32.
Definition WPA_REPLAY_COUNTER_LEN : nat := 8.
Definition WPA_GMK_LEN : nat := 32.
Definition PMKID_LEN : nat := 16.
Definition RSN_SELECTOR_LEN : Z := 4.

Definition WPA_KEY_INFO_TYPE_MASK : Z := 7.
Definition WPA_KEY_INFO_TYPE_AKM_DEFINED : Z := 0.
Definition WPA_KEY_INFO_TYPE_HMAC_MD5_RC4 : Z := 1.
Definition WPA_KEY_INFO_TYPE_HMAC_SHA1_AES : Z := 2.
Definition WPA_KEY_INFO_TYPE_AES_128_CMAC : Z := 3.
Definition WPA_KEY_INFO_KEY_TYPE : Z := 2 ^ 3.
Definition WPA_KEY_INFO_KEY_INDEX_SHIFT : Z := 4.
Definition WPA_KEY_INFO_INSTALL : Z := 2 ^ 6.
Definition WPA_KEY_INFO_ACK : Z := 2 ^ 7.
Definition WPA_KEY_INFO_MIC : Z := 2 ^ 8.
Definition WPA_KEY_INFO_SECURE : Z := 2 ^ 9.
Definition WPA_KEY_INFO_ERROR : Z := 2 ^ 10.
Definition WPA_KEY_INFO_REQUEST : Z := 2 ^ 11.
Definition WPA_KEY_INFO_ENCR_KEY_DATA : Z := 2 ^ 12.
Definition WPA_KEY_INFO_SMK_MESSAGE : Z := 2 ^ 13.

Definition EAPOL_KEY_TYPE_RSN : Z := 2.
Definition EAPOL_KEY_TYPE_WPA : Z := 254.

(** [wpa_kck_len], [wpa_kek_len], [wpa_mic_len] *)
Definition wpa_kck_len (akmp : Z) : Z := if akmp =? WPA_KEY_MGMT_IEEE8021X_SUITE_B_192 then 24 else 16.
Definition wpa_kek_len (akmp : Z) : Z := if akmp =? WPA_KEY_MGMT_IEEE8021X_SUITE_B_192 then 32 else 16.
Definition wpa_mic_len (akmp : Z) : Z := if akmp =? WPA_KEY_MGMT_IEEE8021X_SUITE_B_192 then 24 else 16.

(** Offsets in the frame, which starts with the four octets of [struct
    ieee802_1x_hdr]; [struct wpa_eapol_key_192] differs in the length of the
    MIC. *)
Definition off_key : Z := 4.
Definition off_key_info : Z := off_key + 1.
Definition off_key_length : Z := off_key_info + 2.
Definition off_replay_counter : Z := off_key_length + 2.
Definition off_key_nonce : Z := off_replay_counter + 8.
Definition off_key_iv : Z := off_key_nonce + 32.
Definition off_key_rsc : Z := off_key_iv + 16.
Definition off_key_id : Z := off_key_rsc + 8.
Definition off_key_mic : Z := off_key_id + 8.
Definition sizeof_wpa_eapol_key (mic_len : Z) : Z := off_key_mic - off_key + mic_len + 2.
Definition off_key_data_length (mic_len : Z) : Z := off_key_mic + mic_len.
Definition off_key_data (mic_len : Z) : Z := off_key + sizeof_wpa_eapol_key mic_len.

(** The frame with the given fields. *)
Definition key_frame (version type : Z) (body_len key_type key_info key_length : Z)
    (replay nonce iv rsc mic : list Z) (data_len : Z) (d : list Z) : list Z :=
  [u8 version; u8 type] ++ WPA_PUT_BE16 body_len ++ [u8 key_type] ++ WPA_PUT_BE16 key_info ++
  WPA_PUT_BE16 key_length ++ replay ++ nonce ++ iv ++ rsc ++ replicate 8 0 ++ mic ++
  WPA_PUT_BE16 data_len ++ d.

(** ** Keys (common/wpa_common.c) *)

Section keys.
Context `{AC : !AesCipher}.

(** The MIC field of the frame must be zero; [None] is the error -1. *)
Definition wpa_eapol_key_mic (key : list Z) (akmp ver : Z) (buf : list Z) : option (list Z) :=
  if ver =? WPA_KEY_INFO_TYPE_HMAC_MD5_RC4 then hmac_md5 key buf
  else if ver =? WPA_KEY_INFO_TYPE_HMAC_SHA1_AES then
    let? hash := hmac_sha1 key buf in Some (take 16 hash)
  else if ver =? WPA_KEY_INFO_TYPE_AES_128_CMAC then default None (omac1_aes_128 (take 16 key) buf)
  else None.

(** [struct wpa_ptk]: the arrays, and the lengths in use; what follows them
    in the arrays is zero. *)
Record wpa_ptk := mk_ptk { kck : list Z; kek : list Z; tk : list Z;
                           kck_len : Z; kek_len : Z; tk_len : Z }.
Definition ptk_zero : wpa_ptk :=
  mk_ptk (replicate 24 0) (replicate 32 0) (replicate 32 0) 0 0 0.
Definition pad_to (n : nat) (l : list Z) : list Z := take n (l ++ replicate n 0).

(** [os_memcmp(a, b, n) < 0] on arrays of the same length. *)
Fixpoint memlt (a b : list Z) : bool :=
  match a, b with
  | x :: a, y :: b => (x <? y) || ((x =? y) && memlt a b)
  | _, _ => false
  end.

Definition min_max (a b : list Z) : list Z := if memlt a b then a ++ b else b ++ a.

(** The hash cannot fail on a vector of three or four elements. *)
Definition wpa_pmk_to_ptk (pmk : list Z) (label : string) (addr1 addr2 nonce1 nonce2 : list Z)
    (akmp cipher : Z) : wpa_ptk :=
  let d := min_max addr1 addr2 ++ min_max nonce1 nonce2 in
  let kcl := wpa_kck_len akmp in
  let kel := wpa_kek_len akmp in
  let tkl := wpa_cipher_key_len cipher in
  let ptk_len := kcl + kel + tkl in
  let tmp := default [] (if wpa_key_mgmt_sha256 akmp then sha256_prf pmk label d ptk_len
                         else sha1_prf pmk label d ptk_len) in
  mk_ptk (pad_to 24 (slice tmp 0 kcl)) (pad_to 32 (slice tmp kcl kel))
         (pad_to 32 (slice tmp (kcl + kel) tkl)) kcl kel tkl.

Definition rsn_pmkid (pmk aa spa : list Z) (use_sha256 : bool) : list Z :=
  let elems := [chars "PMK Name"; aa; spa] in
  take PMKID_LEN (default [] (if use_sha256 then hmac_sha256_vector pmk elems
                              else hmac_sha1_vector pmk elems)).
End keys.

(** [true] is the result 0; a NULL pointer is [None]. *)
Definition wpa_compare_rsn_ie (ie1 ie2 : option (list Z)) : bool :=
  match ie1, ie2 with
  | Some a, Some b => bool_decide (a = b)
  | _, _ => false
  end.

(** ** Key Data (ap/wpa_auth_ie.c) *)

Definition WLAN_EID_RSN : Z := 48.
Definition WLAN_EID_MOBILITY_DOMAIN : Z := 54.
Definition WLAN_EID_VENDOR_SPECIFIC : Z := 221.
Definition RSN_SELECTOR (a b c d : Z) : Z := a * 2 ^ 24 + b * 2 ^ 16 + c * 2 ^ 8 + d.
Definition RSN_KEY_DATA_GROUPKEY : Z := RSN_SELECTOR 0x00 0x0f 0xac 1.
Definition RSN_KEY_DATA_MAC_ADDR : Z := RSN_SELECTOR 0x00 0x0f 0xac 3.
Definition RSN_KEY_DATA_PMKID : Z := RSN_SELECTOR 0x00 0x0f 0xac 4.
Definition RSN_KEY_DATA_IGTK : Z := RSN_SELECTOR 0x00 0x0f 0xac 9.
Definition WPA_OUI_TYPE : Z := RSN_SELECTOR 0x00 0x50 0xf2 1.
Definition OSEN_IE_VENDOR_TYPE : Z := 0x506f9a12.

Definition wpa_add_kde (kde : Z) (d d2 : list Z) : list Z :=
  [WLAN_EID_VENDOR_SPECIFIC; u8 (RSN_SELECTOR_LEN + zlen d + zlen d2)] ++
  WPA_PUT_BE32 kde ++ d ++ d2.

(** [struct wpa_eapol_ie_parse]: a pointer into the buffer is the offset, with
    the length where the program keeps one. *)
Record wpa_eapol_ie_parse := mk_kde {
  k_wpa_ie : option (Z * Z);
  k_rsn_ie : option (Z * Z);
  k_pmkid : option Z;
  k_gtk : option (Z * Z);
  k_mac_addr : option (Z * Z);
  k_igtk : option (Z * Z);
  k_osen : option (Z * Z)
}.
#[global] Instance eta_kde : Eta wpa_eapol_ie_parse := fun k =>
  mk_kde (k_wpa_ie k) (k_rsn_ie k) (k_pmkid k) (k_gtk k) (k_mac_addr k) (k_igtk k) (k_osen k).
Definition kde_empty : wpa_eapol_ie_parse := mk_kde None None None None None None None.

(** [RSN_SELECTOR_GET], a read of four octets. *)
Definition selector_get (buf : list Z) (i : Z) : option Z :=
  let? a := rd buf i in let? b := rd buf (i + 1) in
  let? c := rd buf (i + 2) in let? d := rd buf (i + 3) in
  Some (Z.lor (Z.lor (Z.lor (Z.shiftl a 24) (Z.shiftl b 16)) (Z.shiftl c 8)) d).

(** [ok && RSN_SELECTOR_GET(pos + 2) == sel]. *)
Definition is_selector (buf : list Z) (pos : Z) (ok : bool) (sel : Z) : option bool :=
  if ok then let? v := selector_get buf (pos + 2) in Some (v =? sel) else Some false.

(** The version of a WPA element: one, little endian. *)
Definition is_wpa_ie (buf : list Z) (pos len : Z) : option bool :=
  let? oui := is_selector buf pos (6 <=? len) WPA_OUI_TYPE in
  if oui then
    let? v0 := rd buf (pos + 2 + 4) in
    if v0 =? 1 then let? v1 := rd buf (pos + 2 + 4 + 1) in Some (v1 =? 0) else Some false
  else Some false.

(** The result is the return value and the parsed elements; [None] is a read
    outside the buffer. *)
Definition wpa_parse_generic (buf : list Z) (pos end_ : Z) (ie : wpa_eapol_ie_parse)
    : option (Z * wpa_eapol_ie_parse) :=
  let? len := rd buf (pos + 1) in
  let body := pos + 2 + RSN_SELECTOR_LEN in
  let blen := len - RSN_SELECTOR_LEN in
  if len =? 0 then Some (1, ie)
  else
    let? wpa := is_wpa_ie buf pos len in
    if wpa then Some (0, setter k_wpa_ie (fun _ => Some (pos, len + 2)) ie) else
    let? osen := is_selector buf pos (4 <=? len) OSEN_IE_VENDOR_TYPE in
    if osen then Some (0, setter k_osen (fun _ => Some (pos, len + 2)) ie) else
    let? pmkid := is_selector buf pos
      ((1 + RSN_SELECTOR_LEN <? end_ - pos) && (RSN_SELECTOR_LEN + 16 <=? len)) RSN_KEY_DATA_PMKID in
    if pmkid then Some (0, setter k_pmkid (fun _ => Some body) ie) else
    let? gtk := is_selector buf pos (RSN_SELECTOR_LEN + 2 <? len) RSN_KEY_DATA_GROUPKEY in
    if gtk then Some (0, setter k_gtk (fun _ => Some (body, blen)) ie) else
    let? mac := is_selector buf pos (RSN_SELECTOR_LEN + 2 <? len) RSN_KEY_DATA_MAC_ADDR in
    if mac then Some (0, setter k_mac_addr (fun _ => Some (body, blen)) ie) else
    let? igtk := is_selector buf pos (RSN_SELECTOR_LEN + 2 <? len) RSN_KEY_DATA_IGTK in
    if igtk then Some (0, setter k_igtk (fun _ => Some (body, blen)) ie)
    else Some (0, ie).

(** The loop over the elements; every iteration moves on by two octets or
    more. *)
Fixpoint parse_kde_loop (fuel : nat) (buf : list Z) (pos : Z) (ie : wpa_eapol_ie_parse)
    : option (Z * wpa_eapol_ie_parse) :=
  match fuel with
  | O => Some (0, ie)
  | Datatypes.S fuel =>
      let end_ := zlen buf in
      if 1 <? end_ - pos then
        let? id := rd buf pos in
        let? len := rd buf (pos + 1) in
        if (id =? 0xdd) && ((pos =? zlen buf - 1) || (len =? 0)) then Some (0, ie)
        else if end_ - pos <? 2 + len then Some (-1, ie)
        else if id =? WLAN_EID_RSN then
          parse_kde_loop fuel buf (pos + 2 + len) (setter k_rsn_ie (fun _ => Some (pos, len + 2)) ie)
        else if id =? WLAN_EID_VENDOR_SPECIFIC then
          let? r := wpa_parse_generic buf pos end_ ie in
          let '(ret, ie) := r in
          if ret <? 0 then Some (ret, ie)
          else if 0 <? ret then Some (0, ie)
          else parse_kde_loop fuel buf (pos + 2 + len) ie
        else parse_kde_loop fuel buf (pos + 2 + len) ie
      else Some (0, ie)
  end.

Definition wpa_parse_kde_ies (buf : list Z) : option (Z * wpa_eapol_ie_parse) :=
  parse_kde_loop (length buf) buf 0 kde_empty.

(** The octets a pointer and a length stand for. *)
Definition area (buf : list Z) (p : option (Z * Z)) : option (list Z) :=
  match p with Some (pos, len) => Some (slice buf pos len) | None => None end.
