(* ===== verification/WpaIe.v ===== *)
(** * The WPA and RSN elements (common/wpa_common.c, ap/wpa_auth_ie.c)

    The element an access point announces is written from its configuration
    ([wpa_auth_gen_wpa_ie]), and the one a station sends back is parsed
    ([wpa_parse_wpa_ie_rsn], [wpa_parse_wpa_ie_wpa]).  A parser reads through
    [rd] and has no result when it would read outside the element; otherwise
    it returns its return value and what it has filled in so far.  The build
    has CONFIG_IEEE80211W and neither CONFIG_IEEE80211R, CONFIG_SAE nor
    CONFIG_RSN_TESTING. *)

From Stdlib Require Import String.
From S2P Require Import Prelude.
From S2P Require Import Wpabuf.
From S2P Require Import Common.
From S2P Require Import Hash.
From S2P Require Import WpaCommon.

(** ** Configuration (ap/wpa_auth.h) *)

Inductive mfp_options :=
  | NO_MGMT_FRAME_PROTECTION | MGMT_FRAME_PROTECTION_OPTIONAL | MGMT_FRAME_PROTECTION_REQUIRED.
#[global] Instance mfp_options_eq_dec : EqDecision mfp_options.
Proof. solve_decision. Defined.

(** [struct wpa_auth_config]; [conf_wpa] and [conf_key_mgmt] are its members
    [wpa] and [wpa_key_mgmt]. *)
Record wpa_auth_config := mk_conf {
  conf_wpa : Z;
  conf_key_mgmt : Z;
  wpa_pairwise : Z;
  wpa_group_cipher : Z;
  wpa_group_rekey : Z;
  wpa_strict_rekey : bool;
  wpa_gmk_rekey : Z;
  wpa_ptk_rekey : Z;
  rsn_pairwise : Z;
  rsn_preauth : bool;
  eapol_version : Z;
  peerkey : bool;
  wmm_enabled : bool;
  tx_status : bool;
  ieee80211w : mfp_options;
  group_mgmt_cipher : Z;
  disable_gtk : bool
}.

Definition uses_mfp (cf : wpa_auth_config) : bool :=
  negb (bool_decide (ieee80211w cf = NO_MGMT_FRAME_PROTECTION)).

(** ** Suites (common/wpa_common.h) *)

Definition WPA_CIPHER_GTK_NOT_USED : Z := 2 ^ 14.
Definition WPA_KEY_MGMT_WPA_NONE : Z := 2 ^ 4.
Definition WPA_PROTO_OSEN : Z := 2 ^ 3.
Definition WPA_VERSION : Z := 1.
Definition RSN_VERSION : Z := 1.

Definition WPA_AUTH_KEY_MGMT_NONE : Z := RSN_SELECTOR 0x00 0x50 0xf2 0.
Definition WPA_AUTH_KEY_MGMT_UNSPEC_802_1X : Z := RSN_SELECTOR 0x00 0x50 0xf2 1.
Definition WPA_AUTH_KEY_MGMT_PSK_OVER_802_1X : Z := RSN_SELECTOR 0x00 0x50 0xf2 2.
Definition WPA_CIPHER_SUITE_NONE : Z := RSN_SELECTOR 0x00 0x50 0xf2 0.
Definition WPA_CIPHER_SUITE_TKIP : Z := RSN_SELECTOR 0x00 0x50 0xf2 2.
Definition WPA_CIPHER_SUITE_CCMP : Z := RSN_SELECTOR 0x00 0x50 0xf2 4.
Definition RSN_AUTH_KEY_MGMT_UNSPEC_802_1X : Z := RSN_SELECTOR 0x00 0x0f 0xac 1.
Definition RSN_AUTH_KEY_MGMT_PSK_OVER_802_1X : Z := RSN_SELECTOR 0x00 0x0f 0xac 2.
Definition RSN_AUTH_KEY_MGMT_802_1X_SHA256 : Z := RSN_SELECTOR 0x00 0x0f 0xac 5.
Definition RSN_AUTH_KEY_MGMT_PSK_SHA256 : Z := RSN_SELECTOR 0x00 0x0f 0xac 6.
Definition RSN_AUTH_KEY_MGMT_802_1X_SUITE_B : Z := RSN_SELECTOR 0x00 0x0f 0xac 11.
Definition RSN_AUTH_KEY_MGMT_802_1X_SUITE_B_192 : Z := RSN_SELECTOR 0x00 0x0f 0xac 12.
Definition RSN_AUTH_KEY_MGMT_OSEN : Z := RSN_SELECTOR 0x50 0x6f 0x9a 1.
Definition RSN_CIPHER_SUITE_NONE : Z := RSN_SELECTOR 0x00 0x0f 0xac 0.
Definition RSN_CIPHER_SUITE_TKIP : Z := RSN_SELECTOR 0x00 0x0f 0xac 2.
Definition RSN_CIPHER_SUITE_CCMP : Z := RSN_SELECTOR 0x00 0x0f 0xac 4.
Definition RSN_CIPHER_SUITE_AES_128_CMAC : Z := RSN_SELECTOR 0x00 0x0f 0xac 6.
Definition RSN_CIPHER_SUITE_NO_GROUP_ADDRESSED : Z := RSN_SELECTOR 0x00 0x0f 0xac 7.
Definition RSN_CIPHER_SUITE_GCMP : Z := RSN_SELECTOR 0x00 0x0f 0xac 8.
Definition RSN_CIPHER_SUITE_GCMP_256 : Z := RSN_SELECTOR 0x00 0x0f 0xac 9.
Definition RSN_CIPHER_SUITE_CCMP_256 : Z := RSN_SELECTOR 0x00 0x0f 0xac 10.
Definition RSN_CIPHER_SUITE_BIP_GMAC_128 : Z := RSN_SELECTOR 0x00 0x0f 0xac 11.
Definition RSN_CIPHER_SUITE_BIP_GMAC_256 : Z := RSN_SELECTOR 0x00 0x0f 0xac 12.
Definition RSN_CIPHER_SUITE_BIP_CMAC_256 : Z := RSN_SELECTOR 0x00 0x0f 0xac 13.

Definition WPA_CAPABILITY_PREAUTH : Z := 2 ^ 0.
Definition WPA_CAPABILITY_MFPR : Z := 2 ^ 6.
Definition WPA_CAPABILITY_MFPC : Z := 2 ^ 7.
Definition WPA_CAPABILITY_PEERKEY_ENABLED : Z := 2 ^ 9.
Definition RSN_NUM_REPLAY_COUNTERS_16 : Z := 3.

(** The first suite of the table that is the selector, or 0. *)
Fixpoint suite_lookup (table : list (Z * Z)) (sel : Z) : Z :=
  match table with
  | [] => 0
  | (s, v) :: table => if sel =? s then v else suite_lookup table sel
  end.

Definition rsn_selector_to_bitfield : Z -> Z :=
  suite_lookup
    [(RSN_CIPHER_SUITE_NONE, WPA_CIPHER_NONE); (RSN_CIPHER_SUITE_TKIP, WPA_CIPHER_TKIP);
     (RSN_CIPHER_SUITE_CCMP, WPA_CIPHER_CCMP); (RSN_CIPHER_SUITE_AES_128_CMAC, WPA_CIPHER_AES_128_CMAC);
     (RSN_CIPHER_SUITE_GCMP, WPA_CIPHER_GCMP); (RSN_CIPHER_SUITE_CCMP_256, WPA_CIPHER_CCMP_256);
     (RSN_CIPHER_SUITE_GCMP_256, WPA_CIPHER_GCMP_256);
     (RSN_CIPHER_SUITE_BIP_GMAC_128, WPA_CIPHER_BIP_GMAC_128);
     (RSN_CIPHER_SUITE_BIP_GMAC_256, WPA_CIPHER_BIP_GMAC_256);
     (RSN_CIPHER_SUITE_BIP_CMAC_256, WPA_CIPHER_BIP_CMAC_256);
     (RSN_CIPHER_SUITE_NO_GROUP_ADDRESSED, WPA_CIPHER_GTK_NOT_USED)].
Definition rsn_key_mgmt_to_bitfield : Z -> Z :=
  suite_lookup
    [(RSN_AUTH_KEY_MGMT_UNSPEC_802_1X, WPA_KEY_MGMT_IEEE8021X);
     (RSN_AUTH_KEY_MGMT_PSK_OVER_802_1X, WPA_KEY_MGMT_PSK);
     (RSN_AUTH_KEY_MGMT_802_1X_SHA256, WPA_KEY_MGMT_IEEE8021X_SHA256);
     (RSN_AUTH_KEY_MGMT_PSK_SHA256, WPA_KEY_MGMT_PSK_SHA256);
     (RSN_AUTH_KEY_MGMT_802_1X_SUITE_B, WPA_KEY_MGMT_IEEE8021X_SUITE_B);
     (RSN_AUTH_KEY_MGMT_802_1X_SUITE_B_192, WPA_KEY_MGMT_IEEE8021X_SUITE_B_192);
     (RSN_AUTH_KEY_MGMT_OSEN, WPA_KEY_MGMT_OSEN)].
Definition wpa_selector_to_bitfield : Z -> Z :=
  suite_lookup
    [(WPA_CIPHER_SUITE_NONE, WPA_CIPHER_NONE); (WPA_CIPHER_SUITE_TKIP, WPA_CIPHER_TKIP);
     (WPA_CIPHER_SUITE_CCMP, WPA_CIPHER_CCMP)].
Definition wpa_key_mgmt_to_bitfield : Z -> Z :=
  suite_lookup
    [(WPA_AUTH_KEY_MGMT_UNSPEC_802_1X, WPA_KEY_MGMT_IEEE8021X);
     (WPA_AUTH_KEY_MGMT_PSK_OVER_802_1X, WPA_KEY_MGMT_PSK);
     (WPA_AUTH_KEY_MGMT_NONE, WPA_KEY_MGMT_WPA_NONE)].

Definition wpa_cipher_valid_pairwise (cipher : Z) : bool :=
  (cipher =? WPA_CIPHER_CCMP_256) || (cipher =? WPA_CIPHER_GCMP_256) || (cipher =? WPA_CIPHER_CCMP) ||
  (cipher =? WPA_CIPHER_GCMP) || (cipher =? WPA_CIPHER_TKIP).
Definition wpa_cipher_valid_group (cipher : Z) : bool :=
  wpa_cipher_valid_pairwise cipher || (cipher =? WPA_CIPHER_GTK_NOT_USED).
Definition wpa_cipher_valid_mgmt_group (cipher : Z) : bool :=
  (cipher =? WPA_CIPHER_AES_128_CMAC) || (cipher =? WPA_CIPHER_BIP_GMAC_128) ||
  (cipher =? WPA_CIPHER_BIP_GMAC_256) || (cipher =? WPA_CIPHER_BIP_CMAC_256).

(** The first bit of the table that is set, or the default. *)
Fixpoint first_bit (table : list (Z * Z)) (dflt bits : Z) : Z :=
  match table with
  | [] => dflt
  | (b, v) :: table => if has_bits bits b then v else first_bit table dflt bits
  end.

Definition wpa_cipher_to_suite (proto : Z) : Z -> Z :=
  let by_proto rsn wpa := if proto =? WPA_PROTO_RSN then rsn else wpa in
  first_bit
    [(WPA_CIPHER_CCMP_256, RSN_CIPHER_SUITE_CCMP_256); (WPA_CIPHER_GCMP_256, RSN_CIPHER_SUITE_GCMP_256);
     (WPA_CIPHER_CCMP, by_proto RSN_CIPHER_SUITE_CCMP WPA_CIPHER_SUITE_CCMP);
     (WPA_CIPHER_GCMP, RSN_CIPHER_SUITE_GCMP);
     (WPA_CIPHER_TKIP, by_proto RSN_CIPHER_SUITE_TKIP WPA_CIPHER_SUITE_TKIP);
     (WPA_CIPHER_NONE, by_proto RSN_CIPHER_SUITE_NONE WPA_CIPHER_SUITE_NONE);
     (WPA_CIPHER_GTK_NOT_USED, RSN_CIPHER_SUITE_NO_GROUP_ADDRESSED);
     (WPA_CIPHER_AES_128_CMAC, RSN_CIPHER_SUITE_AES_128_CMAC);
     (WPA_CIPHER_BIP_GMAC_128, RSN_CIPHER_SUITE_BIP_GMAC_128);
     (WPA_CIPHER_BIP_GMAC_256, RSN_CIPHER_SUITE_BIP_GMAC_256);
     (WPA_CIPHER_BIP_CMAC_256, RSN_CIPHER_SUITE_BIP_CMAC_256)] 0.

(** [none_allowed] is 0. *)
Definition wpa_pick_pairwise_cipher : Z -> Z :=
  first_bit (map (fun c => (c, c)) [WPA_CIPHER_CCMP_256; WPA_CIPHER_GCMP_256; WPA_CIPHER_CCMP;
                                    WPA_CIPHER_GCMP; WPA_CIPHER_TKIP]) (-1).

(** ** Parsing *)

(** [struct wpa_ie_data]; the PMKIDs are an offset into the element. *)
Record wpa_ie_data := mk_ie_data {
  d_proto : Z;
  d_pairwise : Z;
  d_group : Z;
  d_key_mgmt : Z;
  d_capabilities : Z;
  d_num_pmkid : Z;
  d_pmkid : option Z;
  d_mgmt_group : Z
}.
#[global] Instance eta_wpa_ie_data : Eta wpa_ie_data := fun d =>
  mk_ie_data (d_proto d) (d_pairwise d) (d_group d) (d_key_mgmt d) (d_capabilities d) (d_num_pmkid d)
    (d_pmkid d) (d_mgmt_group d).

(** [None] is a read outside the element; the number is the return value. *)
Definition parsed : Type := option (Z * wpa_ie_data).

(** [WPA_GET_LE16] *)
Definition rd_le16 (buf : list Z) (i : Z) : option Z :=
  let? a := rd buf i in let? b := rd buf (i + 1) in Some (Z.lor (Z.shiftl b 8) a).

(** The union of [count] suites. *)
Fixpoint read_suites (f : Z -> Z) (count : nat) (buf : list Z) (pos acc : Z) : option Z :=
  match count with
  | O => Some acc
  | Datatypes.S count =>
      let? sel := selector_get buf pos in
      read_suites f count buf (pos + RSN_SELECTOR_LEN) (Z.lor acc (f sel))
  end.

(** A counted list of suites; the errors are a bad count and a single octet
    where a count should be. *)
Definition parse_list (f : Z -> Z) (botch short : Z) (put : Z -> wpa_ie_data -> wpa_ie_data)
    (buf : list Z) (pos left : Z) (d : wpa_ie_data) (k : Z -> Z -> wpa_ie_data -> parsed) : parsed :=
  if 2 <=? left then
    let? count := rd_le16 buf pos in
    let pos := pos + 2 in
    let left := left - 2 in
    if (count =? 0) || (left / RSN_SELECTOR_LEN <? count) then Some (botch, put 0 d)
    else
      let? v := read_suites f (Z.to_nat count) buf pos 0 in
      k (pos + RSN_SELECTOR_LEN * count) (left - RSN_SELECTOR_LEN * count) (put v d)
  else if left =? 1 then Some (short, d)
  else k pos left d.

Definition put_pairwise (v : Z) : wpa_ie_data -> wpa_ie_data := setter d_pairwise (fun _ => v).
Definition put_key_mgmt (v : Z) : wpa_ie_data -> wpa_ie_data := setter d_key_mgmt (fun _ => v).

Definition parse_capabilities (buf : list Z) (pos left : Z) (d : wpa_ie_data)
    (k : Z -> Z -> wpa_ie_data -> parsed) : parsed :=
  if 2 <=? left then
    let? v := rd_le16 buf pos in
    k (pos + 2) (left - 2) (setter d_capabilities (fun _ => v) d)
  else k pos left d.

Definition parse_pmkids (buf : list Z) (pos left : Z) (d : wpa_ie_data)
    (k : Z -> Z -> wpa_ie_data -> parsed) : parsed :=
  if 2 <=? left then
    let? n := rd_le16 buf pos in
    let pos := pos + 2 in
    let left := left - 2 in
    if left / Z.of_nat PMKID_LEN <? n then Some (-9, d)
    else
      k (pos + n * Z.of_nat PMKID_LEN) (left - n * Z.of_nat PMKID_LEN)
        (setter d_num_pmkid (fun _ => n) (setter d_pmkid (fun _ => Some pos) d))
  else k pos left d.

Definition parse_mgmt_group (buf : list Z) (pos left : Z) (d : wpa_ie_data) : parsed :=
  if 4 <=? left then
    let? sel := selector_get buf pos in
    let v := rsn_selector_to_bitfield sel in
    let d := setter d_mgmt_group (fun _ => v) d in
    if negb (wpa_cipher_valid_mgmt_group v) then Some (-10, d) else Some (0, d)
  else Some (0, d).

(** The suites, from the group cipher on.  The pairwise cipher is CCMP
    unless there is a list. *)
Definition parse_rsn_suites (buf : list Z) (pos left : Z) (d : wpa_ie_data) : parsed :=
  let rest pos left d :=
    parse_list rsn_selector_to_bitfield (-4) (-5) put_pairwise buf pos left d (fun pos left d =>
      if has_bits (d_pairwise d) WPA_CIPHER_AES_128_CMAC then Some (-1, d)
      else
        parse_list rsn_key_mgmt_to_bitfield (-6) (-7) put_key_mgmt buf pos left d (fun pos left d =>
        parse_capabilities buf pos left d (fun pos left d =>
        parse_pmkids buf pos left d (fun pos left d =>
        parse_mgmt_group buf pos left d)))) in
  if RSN_SELECTOR_LEN <=? left then
    let? sel := selector_get buf pos in
    let v := rsn_selector_to_bitfield sel in
    let d := setter d_group (fun _ => v) d in
    if negb (wpa_cipher_valid_group v) then Some (-1, d)
    else rest (pos + RSN_SELECTOR_LEN) (left - RSN_SELECTOR_LEN) d
  else if 0 <? left then Some (-3, d)
  else rest pos left d.

Definition rsn_defaults : wpa_ie_data :=
  mk_ie_data WPA_PROTO_RSN WPA_CIPHER_CCMP WPA_CIPHER_CCMP WPA_KEY_MGMT_IEEE8021X 0 0 None
    WPA_CIPHER_AES_128_CMAC.

Definition wpa_parse_wpa_ie_rsn (rsn_ie : list Z) : parsed :=
  let len := zlen rsn_ie in
  if len <? 4 then Some (-1, rsn_defaults)
  else
    let? id := rd rsn_ie 0 in
    let? elen := rd rsn_ie 1 in
    let? osen :=
      if (6 <=? len) && (4 <=? elen) && (elen =? len - 2)
      then let? v := selector_get rsn_ie 2 in Some (v =? OSEN_IE_VENDOR_TYPE)
      else Some false in
    if osen then parse_rsn_suites rsn_ie 6 (len - 6) (setter d_proto (fun _ => WPA_PROTO_OSEN) rsn_defaults)
    else if negb (id =? WLAN_EID_RSN) || negb (elen =? len - 2) then Some (-2, rsn_defaults)
    else
      let? version := rd_le16 rsn_ie 2 in
      if negb (version =? RSN_VERSION) then Some (-2, rsn_defaults)
      else parse_rsn_suites rsn_ie 4 (len - 4) rsn_defaults.

Definition parse_wpa_suites (buf : list Z) (pos left : Z) (d : wpa_ie_data) : parsed :=
  let rest pos left d :=
    parse_list wpa_selector_to_bitfield (-4) (-5) put_pairwise buf pos left d (fun pos left d =>
    parse_list wpa_key_mgmt_to_bitfield (-6) (-7) put_key_mgmt buf pos left d (fun pos left d =>
    parse_capabilities buf pos left d (fun pos left d => Some (0, d)))) in
  if RSN_SELECTOR_LEN <=? left then
    let? sel := selector_get buf pos in
    rest (pos + RSN_SELECTOR_LEN) (left - RSN_SELECTOR_LEN)
         (setter d_group (fun _ => wpa_selector_to_bitfield sel) d)
  else if 0 <? left then Some (-3, d)
  else rest pos left d.

Definition wpa_defaults : wpa_ie_data :=
  mk_ie_data WPA_PROTO_WPA WPA_CIPHER_TKIP WPA_CIPHER_TKIP WPA_KEY_MGMT_IEEE8021X 0 0 None 0.

Definition wpa_parse_wpa_ie_wpa (wpa_ie : list Z) : parsed :=
  let len := zlen wpa_ie in
  if len <? 8 then Some (-1, wpa_defaults)
  else
    let? id := rd wpa_ie 0 in
    let? elen := rd wpa_ie 1 in
    let? oui := selector_get wpa_ie 2 in
    let? version := rd_le16 wpa_ie 6 in
    if negb (id =? WLAN_EID_VENDOR_SPECIFIC) || negb (elen =? len - 2) || negb (oui =? WPA_OUI_TYPE) ||
       negb (version =? WPA_VERSION)
    then Some (-2, wpa_defaults)
    else parse_wpa_suites wpa_ie 8 (len - 8) wpa_defaults.

(** ** Writing *)

(** The suites of the table whose bits are set, in its order. *)
Definition put_suites (table : list (Z * Z)) (bits : Z) : list Z :=
  map snd (List.filter (fun '(b, _) => has_bits bits b) table).
Definition suite_octets (suites : list Z) : list Z := concat (map WPA_PUT_BE32 suites).

Definition rsn_cipher_put_suites : Z -> list Z :=
  put_suites
    [(WPA_CIPHER_CCMP_256, RSN_CIPHER_SUITE_CCMP_256); (WPA_CIPHER_GCMP_256, RSN_CIPHER_SUITE_GCMP_256);
     (WPA_CIPHER_CCMP, RSN_CIPHER_SUITE_CCMP); (WPA_CIPHER_GCMP, RSN_CIPHER_SUITE_GCMP);
     (WPA_CIPHER_TKIP, RSN_CIPHER_SUITE_TKIP); (WPA_CIPHER_NONE, RSN_CIPHER_SUITE_NONE)].
Definition wpa_cipher_put_suites : Z -> list Z :=
  put_suites
    [(WPA_CIPHER_CCMP, WPA_CIPHER_SUITE_CCMP); (WPA_CIPHER_TKIP, WPA_CIPHER_SUITE_TKIP);
     (WPA_CIPHER_NONE, WPA_CIPHER_SUITE_NONE)].
Definition rsn_key_mgmt_suites : Z -> list Z :=
  put_suites
    [(WPA_KEY_MGMT_IEEE8021X, RSN_AUTH_KEY_MGMT_UNSPEC_802_1X);
     (WPA_KEY_MGMT_PSK, RSN_AUTH_KEY_MGMT_PSK_OVER_802_1X);
     (WPA_KEY_MGMT_IEEE8021X_SHA256, RSN_AUTH_KEY_MGMT_802_1X_SHA256);
     (WPA_KEY_MGMT_PSK_SHA256, RSN_AUTH_KEY_MGMT_PSK_SHA256);
     (WPA_KEY_MGMT_IEEE8021X_SUITE_B, RSN_AUTH_KEY_MGMT_802_1X_SUITE_B);
     (WPA_KEY_MGMT_IEEE8021X_SUITE_B_192, RSN_AUTH_KEY_MGMT_802_1X_SUITE_B_192)].
Definition wpa_key_mgmt_suites : Z -> list Z :=
  put_suites
    [(WPA_KEY_MGMT_IEEE8021X, WPA_AUTH_KEY_MGMT_UNSPEC_802_1X);
     (WPA_KEY_MGMT_PSK, WPA_AUTH_KEY_MGMT_PSK_OVER_802_1X)].

(** A list of suites with its count in front. *)
Definition counted (suites : list Z) : list Z :=
  WPA_PUT_LE16 (zlen suites) ++ suite_octets suites.

(** The element's identifier and length go in front of the body. *)
Definition element (id : Z) (body : list Z) : list Z := [id; u8 (zlen body)] ++ body.

(** [None] is the error -1. *)
Definition wpa_write_wpa_ie (cf : wpa_auth_config) : option (list Z) :=
  let group := wpa_cipher_to_suite WPA_PROTO_WPA (wpa_group_cipher cf) in
  let ciphers := wpa_cipher_put_suites (wpa_pairwise cf) in
  let akms := wpa_key_mgmt_suites (conf_key_mgmt cf) in
  if (group =? 0) || (zlen ciphers =? 0) || (zlen akms =? 0) then None
  else
    Some (element WLAN_EID_VENDOR_SPECIFIC
            (WPA_PUT_BE32 WPA_OUI_TYPE ++ WPA_PUT_LE16 WPA_VERSION ++ WPA_PUT_BE32 group ++
             counted ciphers ++ counted akms)).

Definition mfp_capab (cf : wpa_auth_config) : Z :=
  match ieee80211w cf with
  | NO_MGMT_FRAME_PROTECTION => 0
  | MGMT_FRAME_PROTECTION_OPTIONAL => WPA_CAPABILITY_MFPC
  | MGMT_FRAME_PROTECTION_REQUIRED => Z.lor WPA_CAPABILITY_MFPC WPA_CAPABILITY_MFPR
  end.
Definition rsn_capab (cf : wpa_auth_config) : Z :=
  let capab := 0 in
  let capab := if rsn_preauth cf then Z.lor capab WPA_CAPABILITY_PREAUTH else capab in
  let capab := if peerkey cf then Z.lor capab WPA_CAPABILITY_PEERKEY_ENABLED else capab in
  let capab := if wmm_enabled cf then Z.lor capab (Z.shiftl RSN_NUM_REPLAY_COUNTERS_16 2) else capab in
  Z.lor capab (mfp_capab cf).

Definition mgmt_suite (cipher : Z) : option Z :=
  if cipher =? WPA_CIPHER_AES_128_CMAC then Some RSN_CIPHER_SUITE_AES_128_CMAC
  else if cipher =? WPA_CIPHER_BIP_GMAC_128 then Some RSN_CIPHER_SUITE_BIP_GMAC_128
  else if cipher =? WPA_CIPHER_BIP_GMAC_256 then Some RSN_CIPHER_SUITE_BIP_GMAC_256
  else if cipher =? WPA_CIPHER_BIP_CMAC_256 then Some RSN_CIPHER_SUITE_BIP_CMAC_256
  else None.

(** The PMKID, if there is room for it in a buffer of [len] octets of which
    [used] are written. *)
Definition rsn_pmkid_field (len used : Z) (pmkid : option (list Z)) : option (list Z) :=
  match pmkid with
  | None => Some []
  | Some p => if len - used <? 2 + Z.of_nat PMKID_LEN then None else Some (WPA_PUT_LE16 1 ++ p)
  end.

(** The management group cipher, which needs a PMKID count before it. *)
Definition rsn_mgmt_field (cf : wpa_auth_config) (len used : Z) (has_pmkid : bool) : option (list Z) :=
  if uses_mfp cf && negb (group_mgmt_cipher cf =? WPA_CIPHER_AES_128_CMAC) then
    if len - used <? 2 + 4 then None
    else
      let? suite := mgmt_suite (group_mgmt_cipher cf) in
      Some ((if has_pmkid then [] else WPA_PUT_LE16 0) ++ WPA_PUT_BE32 suite)
  else Some [].

Definition wpa_write_rsn_ie (cf : wpa_auth_config) (len : Z) (pmkid : option (list Z)) : option (list Z) :=
  let group := wpa_cipher_to_suite WPA_PROTO_RSN (wpa_group_cipher cf) in
  let ciphers := rsn_cipher_put_suites (rsn_pairwise cf) in
  let akms := rsn_key_mgmt_suites (conf_key_mgmt cf) in
  if (group =? 0) || (zlen ciphers =? 0) || (zlen akms =? 0) then None
  else
    let body := WPA_PUT_LE16 RSN_VERSION ++ WPA_PUT_BE32 group ++ counted ciphers ++ counted akms ++
                WPA_PUT_LE16 (rsn_capab cf) in
    let? p := rsn_pmkid_field len (2 + zlen body) pmkid in
    let? m := rsn_mgmt_field cf len (2 + zlen body + zlen p) (non_null pmkid) in
    Some (element WLAN_EID_RSN (body ++ p ++ m)).

Definition OUI_WFA : Z := 0x506f9a.
Definition HS20_OSEN_OUI_TYPE : Z := 18.

Definition wpa_write_osen (cf : wpa_auth_config) : list Z :=
  let capab := Z.lor (if wmm_enabled cf then Z.shiftl RSN_NUM_REPLAY_COUNTERS_16 2 else 0) (mfp_capab cf) in
  element WLAN_EID_VENDOR_SPECIFIC
    (WPA_PUT_BE24 OUI_WFA ++ [HS20_OSEN_OUI_TYPE] ++ WPA_PUT_BE32 RSN_CIPHER_SUITE_NO_GROUP_ADDRESSED ++
     counted [RSN_CIPHER_SUITE_CCMP] ++ counted [RSN_AUTH_KEY_MGMT_OSEN] ++ WPA_PUT_LE16 capab).

(** [wpa_auth_gen_wpa_ie]: the elements, written one after the other into
    [u8 buf[128]], and copied; [None] is an error. *)
Definition gen_ie_size : Z := 128.
Definition wpa_auth_gen_wpa_ie (cf : wpa_auth_config) (oom : bool) : option (list Z) :=
  let osen := if conf_wpa cf =? WPA_PROTO_OSEN then wpa_write_osen cf else [] in
  let? rsn := if has_bits (conf_wpa cf) WPA_PROTO_RSN
              then wpa_write_rsn_ie cf (gen_ie_size - zlen osen) None else Some [] in
  let? wpa := if has_bits (conf_wpa cf) WPA_PROTO_WPA then wpa_write_wpa_ie cf else Some [] in
  if oom then None else Some (osen ++ rsn ++ wpa).
