(* ===== verification/WpaAuth.v ===== *)
(** * The WPA authenticator (src/src/ap/wpa_auth.c)

    The 4-way handshake and the group key handshake of hostapd: the PTK and
    PTK group state machines of every station, the group key state machine
    they share, and the handling of received EAPOL-Key frames.

    [wpa_sm] is [struct wpa_state_machine] and [wpa_group] is [struct
    wpa_group]; the [world] is the authenticator with its group, all its
    stations and the event loop.  The station an operation is about is the
    member [me]; [focus] brings another one there, as the loops over all the
    stations do.  What the driver, the clock and the random number generator
    answer is the interface [Oracle], asked with the number of the question
    ([tick]); what the callbacks are told is recorded in [outs], newest first.

    There is one group (no VLANs), and the PMKSA cache is a list of entries
    with the station they belong to; opportunistic key caching is left out.
    The build has CONFIG_IEEE80211W and none of CONFIG_IEEE80211R,
    CONFIG_PEERKEY, CONFIG_P2P, CONFIG_WNM, CONFIG_MESH, CONFIG_SAE, CONFIG_HS20 and
    CONFIG_TESTING_OPTIONS.  A loop that runs out of fuel sets [stuck]. *)

From Stdlib Require Import String.
From S2P Require Import Prelude.
From S2P Require Import Eloop.
From S2P Require Import Wpabuf.
From S2P Require Import Common.
From S2P Require Import Aes.
From S2P Require Import Hash.
From S2P Require Import WpaCommon.
From S2P Require Import WpaIe.

(** ** Data (wpa_auth_i.h, wpa_auth.h) *)

Inductive wpa_ptk_states :=
  | WPA_PTK_INITIALIZE | WPA_PTK_DISCONNECT | WPA_PTK_DISCONNECTED | WPA_PTK_AUTHENTICATION
  | WPA_PTK_AUTHENTICATION2 | WPA_PTK_INITPMK | WPA_PTK_INITPSK | WPA_PTK_PTKSTART
  | WPA_PTK_PTKCALCNEGOTIATING | WPA_PTK_PTKCALCNEGOTIATING2 | WPA_PTK_PTKINITNEGOTIATING
  | WPA_PTK_PTKINITDONE.
Inductive wpa_ptk_group_states :=
  | WPA_PTK_GROUP_IDLE | WPA_PTK_GROUP_REKEYNEGOTIATING | WPA_PTK_GROUP_REKEYESTABLISHED
  | WPA_PTK_GROUP_KEYERROR.
Inductive wpa_group_states :=
  | WPA_GROUP_GTK_INIT | WPA_GROUP_SETKEYS | WPA_GROUP_SETKEYSDONE | WPA_GROUP_FATAL_FAILURE.
Inductive wpa_version := WPA_VERSION_NO_WPA | WPA_VERSION_WPA | WPA_VERSION_WPA2.
Inductive wpa_event :=
  | WPA_AUTH | WPA_ASSOC | WPA_DISASSOC | WPA_DEAUTH | WPA_REAUTH | WPA_REAUTH_EAPOL | WPA_ASSOC_FT.
Inductive wpa_eapol_var :=
  | WPA_EAPOL_portEnabled | WPA_EAPOL_portValid | WPA_EAPOL_authorized | WPA_EAPOL_portControl_Auto
  | WPA_EAPOL_keyRun | WPA_EAPOL_keyAvailable | WPA_EAPOL_keyDone | WPA_EAPOL_inc_EapolFramesTx.

#[global] Instance wpa_ptk_states_eq_dec : EqDecision wpa_ptk_states.
Proof. solve_decision. Defined.
#[global] Instance wpa_ptk_group_states_eq_dec : EqDecision wpa_ptk_group_states.
Proof. solve_decision. Defined.
#[global] Instance wpa_group_states_eq_dec : EqDecision wpa_group_states.
Proof. solve_decision. Defined.
#[global] Instance wpa_version_eq_dec : EqDecision wpa_version.
Proof. solve_decision. Defined.
#[global] Instance wpa_event_eq_dec : EqDecision wpa_event.
Proof. solve_decision. Defined.
#[global] Instance wpa_eapol_var_eq_dec : EqDecision wpa_eapol_var.
Proof. solve_decision. Defined.

Definition RSNA_MAX_EAPOL_RETRIES : nat := 4.
Definition dot11RSNAConfigGroupUpdateCount : Z := 4.
Definition dot11RSNAConfigPairwiseUpdateCount : Z := 4.
Definition eapol_key_timeout_first : Z := 100.
Definition eapol_key_timeout_subseq : Z := 1000.
Definition eapol_key_timeout_first_group : Z := 500.

(** The handlers of the timeouts. *)
Inductive wpa_handler :=
  | wpa_send_eapol_timeout_h | wpa_rekey_ptk_h | wpa_sm_call_step_h | wpa_rekey_gtk_h | wpa_rekey_gmk_h
  | ieee80211_tkip_countermeasures_stop_h.
#[global] Instance wpa_handler_eq_dec : EqDecision wpa_handler.
Proof. solve_decision. Defined.

(** A replay counter and whether it is valid. *)
Definition replay_slot : Type := list Z * bool.
Definition replay_zero : list replay_slot := replicate RSNA_MAX_EAPOL_RETRIES (replicate 8 0, false).

(** A PMKSA cache entry: the PMK and its identifier. *)
Record wpa_pmksa := mk_wpa_pmksa { pmksa_pmk : list Z; pmksa_pmkid : list Z }.

(** [struct wpa_state_machine].  The last members are what the callbacks of
    wpa_auth_glue.c know about the station: its PSKs, the MSK, the variables
    of its EAPOL state machine, and whether it is in the list of stations;
    [freed] means that the memory has been released. *)
Record wpa_sm := mk_wpa_sm {
  sm_addr : list Z;
  wpa_ptk_state : wpa_ptk_states;
  wpa_ptk_group_state : wpa_ptk_group_states;
  Init : bool;
  DeauthenticationRequest : bool;
  AuthenticationRequest : bool;
  ReAuthenticationRequest : bool;
  Disconnect : bool;
  TimeoutCtr : Z;
  GTimeoutCtr : Z;
  TimeoutEvt : bool;
  EAPOLKeyReceived : bool;
  EAPOLKeyPairwise : bool;
  EAPOLKeyRequest : bool;
  MICVerified : bool;
  GUpdateStationKeys : bool;
  ANonce : list Z;
  SNonce : list Z;
  alt_SNonce : list Z;
  alt_replay_counter : list Z;
  PMK : list Z;
  PTK : wpa_ptk;
  PTK_valid : bool;
  pairwise_set : bool;
  keycount : Z;
  Pair : bool;
  key_replay : list replay_slot;
  prev_key_replay : list replay_slot;
  PInitAKeys : bool;
  PTKRequest : bool;
  has_GTK : bool;
  PtkGroupInit : bool;
  last_rx_eapol_key : option (list Z);
  last_rx_eapol_key_len : Z;
  changed : bool;
  in_step_loop : bool;
  pending_deinit : bool;
  started : bool;
  mgmt_frame_prot : bool;
  rx_eapol_key_secure : bool;
  update_snonce : bool;
  alt_snonce_valid : bool;
  req_replay_counter : list Z;
  req_replay_counter_used : bool;
  wpa_ie : option (list Z);
  wpa : wpa_version;
  pairwise : Z;
  wpa_key_mgmt : Z;
  pmksa : option wpa_pmksa;
  RemoteMICFailures : Z;
  pending_1_of_4_timeout : bool;
  psks : list (list Z);
  msk : option (list Z);
  has_eapol_sm : bool;
  keyRun : bool;
  keyAvailable : bool;
  listed : bool;
  freed : bool
}.

#[global] Instance eta_wpa_sm : Eta wpa_sm := fun s =>
  mk_wpa_sm (sm_addr s) (wpa_ptk_state s) (wpa_ptk_group_state s) (Init s) (DeauthenticationRequest s)
    (AuthenticationRequest s) (ReAuthenticationRequest s) (Disconnect s) (TimeoutCtr s) (GTimeoutCtr s)
    (TimeoutEvt s) (EAPOLKeyReceived s) (EAPOLKeyPairwise s) (EAPOLKeyRequest s) (MICVerified s)
    (GUpdateStationKeys s) (ANonce s) (SNonce s) (alt_SNonce s) (alt_replay_counter s) (PMK s) (PTK s)
    (PTK_valid s) (pairwise_set s) (keycount s) (Pair s) (key_replay s) (prev_key_replay s)
    (PInitAKeys s) (PTKRequest s) (has_GTK s) (PtkGroupInit s) (last_rx_eapol_key s)
    (last_rx_eapol_key_len s) (changed s)
    (in_step_loop s) (pending_deinit s) (started s) (mgmt_frame_prot s) (rx_eapol_key_secure s)
    (update_snonce s) (alt_snonce_valid s) (req_replay_counter s) (req_replay_counter_used s) (wpa_ie s)
    (wpa s) (pairwise s) (wpa_key_mgmt s) (pmksa s) (RemoteMICFailures s) (pending_1_of_4_timeout s)
    (psks s) (msk s) (has_eapol_sm s) (keyRun s) (keyAvailable s) (listed s) (freed s).

(** [os_zalloc]. *)
Definition blank_sm : wpa_sm :=
  mk_wpa_sm (replicate 6 0) WPA_PTK_INITIALIZE WPA_PTK_GROUP_IDLE false false false false false 0 0 false
    false false false false false (replicate 32 0) (replicate 32 0) (replicate 32 0) (replicate 8 0) []
    ptk_zero false false 0 false replay_zero replay_zero false false false false None 0 false false
    false false false false false false (replicate 8 0) false None WPA_VERSION_NO_WPA 0 0 None 0 false [] None
    false false false false false.

(** [struct wpa_group] *)
Record wpa_group := mk_wpa_group {
  vlan_id : Z;
  GInit : bool;
  GKeyDoneStations : Z;
  GTKReKey : bool;
  GTK_len : Z;
  GN : Z;
  GM : Z;
  GTKAuthenticator : bool;
  Counter : list Z;
  wpa_group_state : wpa_group_states;
  GMK : list Z;
  GTK : list (list Z);
  GNonce : list Z;
  gchanged : bool;
  first_sta_seen : bool;
  reject_4way_hs_for_entropy : bool;
  IGTK : list (list Z);
  GN_igtk : Z;
  GM_igtk : Z
}.
#[global] Instance eta_wpa_group : Eta wpa_group := fun g =>
  mk_wpa_group (vlan_id g) (GInit g) (GKeyDoneStations g) (GTKReKey g) (GTK_len g) (GN g) (GM g)
    (GTKAuthenticator g) (Counter g) (wpa_group_state g) (GMK g) (GTK g) (GNonce g) (gchanged g)
    (first_sta_seen g) (reject_4way_hs_for_entropy g) (IGTK g) (GN_igtk g) (GM_igtk g).

Definition blank_group : wpa_group :=
  mk_wpa_group 0 false 0 false 0 0 0 false (replicate 32 0) WPA_GROUP_GTK_INIT (replicate 32 0)
    [replicate 32 0; replicate 32 0] (replicate 32 0) false false false
    [replicate 32 0; replicate 32 0] 0 0.

(** What the callbacks are told; stations are named by their number. *)
Inductive wpa_out :=
  | w_send_eapol (sta : nat) (encrypt : bool) (frame : list Z)
  | w_set_key (alg : wpa_alg) (sta : option nat) (idx : Z) (key : list Z) (res : Z)
  | w_set_eapol (sta : nat) (var : wpa_eapol_var) (value : bool)
  | w_disconnect (sta : nat)
  | w_psk_failure (sta : nat)
  | w_countermeasures (on : bool).

Record world := mk_world {
  conf : wpa_auth_config;
  wpa_addr : list Z;
  own_ie : list Z;
  grp : wpa_group;
  me : wpa_sm;
  idx : nat;
  stas : list wpa_sm;
  lp : eloop_data wpa_handler;
  tick : nat;
  outs : list wpa_out;
  dot11RSNA4WayHandshakeFailures : Z;
  TKIPRemoteMICFailures : Z;
  michael_mic_failure_time : os_reltime;
  michael_mic_failures : Z;
  tkip_countermeasures : bool;
  CounterMeasuresInvoked : Z;
  pmksa_cache : list (list Z * wpa_pmksa);
  AuthenticationSuiteSelected : Z;
  PairwiseCipherSelected : Z;
  GroupCipherSelected : Z;
  PMKIDUsed : list Z;
  fault : bool;
  stuck : bool
}.
#[global] Instance eta_world : Eta world := fun w =>
  mk_world (conf w) (wpa_addr w) (own_ie w) (grp w) (me w) (idx w) (stas w) (lp w) (tick w) (outs w)
    (dot11RSNA4WayHandshakeFailures w) (TKIPRemoteMICFailures w)
    (michael_mic_failure_time w) (michael_mic_failures w) (tkip_countermeasures w) (CounterMeasuresInvoked w)
    (pmksa_cache w) (AuthenticationSuiteSelected w) (PairwiseCipherSelected w) (GroupCipherSelected w)
    (PMKIDUsed w) (fault w) (stuck w).

(** The answers of the environment to its [n]-th question. *)
Class Oracle := {
  o_random : nat -> bool * list Z;
  o_time : nat -> list Z;
  o_oom : nat -> bool;
  o_pool_ready : nat -> bool;
  o_set_key : nat -> Z;
  o_seqnum : nat -> option (list Z);
  o_group_ptr : list Z
}.

(** ** Operations *)

Section operations.
Context `{AC : !AesCipher} `{O : !Oracle}.

Abbreviation W := (cmd world).

(** *** The environment *)

(** Ask the next question. *)
Definition ask {A} (f : nat -> A) (k : A -> W) : W :=
  fun w => k (f (tick w)) (setter tick Datatypes.S w).

(** [random_get_bytes]: whether it succeeded, and what it has written in
    either case. *)
Definition random_get_bytes (n : nat) (k : bool -> list Z -> W) : W :=
  ask o_random (fun '(ok, r) => k ok (pad_to n r)).

Definition told (o : wpa_out) : W := (outs <~ (fun w => o :: outs w))%cmd.
Definition told_me (o : nat -> wpa_out) : W := (outs <~ (fun w => o (idx w) :: outs w))%cmd.

(** Bring the station [j] to [me]. *)
Definition stored (w : world) : list wpa_sm := <[idx w := me w]> (stas w).
Definition focus (j : nat) : W :=
  fun w =>
    let all := stored w in
    (stas ::= all ;; me ::= nth j all blank_sm ;; idx ::= j)%cmd w.

(** [hostapd_wpa_auth_for_each_sta]: the list starts with the newest. *)
Definition for_each_sta (cb : W) : W :=
  fun w =>
    let i := idx w in
    focus i (fold_left (fun w j => let w := focus j w in if listed (me w) then cb w else w)
                       (rev (seq 0 (length (stas w)))) w).

(** *** The event loop *)

Definition sta_ctx (w : world) : Z := Z.of_nat (idx w) + 1.
Definition register_ms (ms : Z) : W :=
  (lp <~ (fun w => eloop_register_timeout (ms / 1000) (ms mod 1000 * 1000) wpa_send_eapol_timeout_h 0
                     (sta_ctx w) (lp w)))%cmd.
Definition cancel_me (h : wpa_handler) : W :=
  (lp <~ (fun w => snd (eloop_cancel_timeout h 0 (sta_ctx w) (lp w))))%cmd.
Definition cancel_call_step : W :=
  (lp <~ (fun w => snd (eloop_cancel_timeout wpa_sm_call_step_h (sta_ctx w) 0 (lp w))))%cmd.
Definition register_gtk (secs usecs : Z) : W :=
  (lp <~ (fun w => eloop_register_timeout secs usecs wpa_rekey_gtk_h 0 0 (lp w)))%cmd.
Definition cancel_gtk : W :=
  (lp <~ (fun w => snd (eloop_cancel_timeout wpa_rekey_gtk_h 0 0 (lp w))))%cmd.

(** *** Callbacks (wpa_auth_glue.c) *)

Definition wpa_auth_set_eapol (var : wpa_eapol_var) (value : bool) : W :=
  (told_me (fun i => w_set_eapol i var value) ;;
   WHEN (fun w => has_eapol_sm (me w)) DO
     match var with
     | WPA_EAPOL_keyRun => (me ∷ keyRun ::= value)%cmd
     | WPA_EAPOL_keyAvailable => (me ∷ keyAvailable ::= value)%cmd
     | _ => skip
     end)%cmd.

(** [wpa_auth_get_eapol(...) > 0] *)
Definition get_keyRun (w : world) : bool := has_eapol_sm (me w) && keyRun (me w).
Definition get_keyAvailable (w : world) : bool := has_eapol_sm (me w) && keyAvailable (me w).

(** [hostapd_wpa_auth_get_msk] with room for 64 octets. *)
Definition wpa_auth_get_msk (w : world) : option (list Z) := option_map (take 64) (msk (me w)).

(** [wpa_auth_get_psk] with a NULL previous PSK; the others follow in order. *)
Definition wpa_auth_get_psk (w : world) : option (list Z) := head (psks (me w)).

Definition wpa_auth_set_key (alg : wpa_alg) (sta : option nat) (kidx : Z) (key : list Z) (k : Z -> W) : W :=
  ask o_set_key (fun res => told (w_set_key alg sta kidx key res) ;; k res)%cmd.

(** *** Keys of the group *)

(** [PRF-256(random, "Init Counter", address || time || pointer)]. *)
Definition wpa_group_init_gmk_and_counter (k : bool -> W) : W :=
  random_get_bytes WPA_GMK_LEN (fun ok gmk =>
    grp ∷ GMK ::= gmk ;;
    (if ok then
       ask o_time (fun now =>
       random_get_bytes 32 (fun ok rkey =>
         if ok then
           fun w =>
             match sha1_prf rkey "Init Counter" (wpa_addr w ++ now ++ o_group_ptr) 32 with
             | None => k false w
             | Some c => k true (setter grp (setter Counter (fun _ => c)) w)
             end
         else k false))
     else k false))%cmd.

(** The GTK and whether it was derived without an error. *)
Definition wpa_gmk_to_gtk (label : string) (len : Z) (k : list Z -> bool -> W) : W :=
  ask o_time (fun now =>
  random_get_bytes 16 (fun ok rnd w =>
    let d := wpa_addr w ++ GNonce (grp w) ++ now ++ rnd in
    k (default [] (sha256_prf (GMK (grp w)) label d len)) ok w)).

Definition inc_byte_array (c : list Z) : list Z := inc_counter c.

(** [os_memcpy(group->GNonce, group->Counter, WPA_NONCE_LEN);
    inc_byte_array(group->Counter, WPA_NONCE_LEN);] *)
Definition next_nonce : W :=
  (grp ∷ GNonce <~ (fun w => Counter (grp w)) ;;
   grp ∷ Counter <~ (fun w => inc_byte_array (Counter (grp w))))%cmd.

(** [group->GTK[n]], an array of 32 octets that the derivation writes to. *)
Definition put_key (keys : list (list Z)) (n : Z) (key : list Z) : list (list Z) :=
  <[Z.to_nat n := mem_write 0 key (nth (Z.to_nat n) keys [])]> keys.
Definition get_key (keys : list (list Z)) (n len : Z) : list Z :=
  slice (nth (Z.to_nat n) keys []) 0 len.

Definition wpa_gtk_update (k : bool -> W) : W :=
  (next_nonce ;;
   fun w =>
     wpa_gmk_to_gtk "Group key expansion" (GTK_len (grp w)) (fun key ok =>
       grp ∷ GTK <~ (fun w => put_key (GTK (grp w)) (GN (grp w) - 1) key) ;;
       fun w =>
         if uses_mfp (conf w) then
           (next_nonce ;;
            wpa_gmk_to_gtk "IGTK key expansion" (wpa_cipher_key_len (group_mgmt_cipher (conf w)))
              (fun key ok2 =>
                 grp ∷ IGTK <~ (fun w => put_key (IGTK (grp w)) (GN_igtk (grp w) - 4) key) ;;
                 k (ok && ok2)))%cmd w
         else k ok w)%cmd w)%cmd.

Definition current_gtk (w : world) : list Z := get_key (GTK (grp w)) (GN (grp w) - 1) (GTK_len (grp w)).
Definition current_igtk (w : world) : list Z :=
  get_key (IGTK (grp w)) (GN_igtk (grp w) - 4) (wpa_cipher_key_len (group_mgmt_cipher (conf w))).

Definition wpa_group_config_group_keys (k : bool -> W) : W :=
  fun w =>
    wpa_auth_set_key (wpa_cipher_to_alg (wpa_group_cipher (conf w))) None (GN (grp w)) (current_gtk w)
      (fun res w =>
         let ok := negb (res <? 0) in
         if uses_mfp (conf w) && ok then
           wpa_auth_set_key (wpa_cipher_to_alg (group_mgmt_cipher (conf w))) None (GN_igtk (grp w))
             (current_igtk w) (fun res => k (negb (res <? 0))) w
         else k ok w) w.

Definition wpa_group_gtk_init : W :=
  (grp ∷ gchanged ::= false ;;
   grp ∷ wpa_group_state ::= WPA_GROUP_GTK_INIT ;;
   grp ∷ GTK ::= [replicate 32 0; replicate 32 0] ;;
   grp ∷ GN ::= 1 ;;
   grp ∷ GM ::= 2 ;;
   grp ∷ GN_igtk ::= 4 ;;
   grp ∷ GM_igtk ::= 5 ;;
   wpa_gtk_update (fun _ => skip))%cmd.

(** *** Replay counters *)

Fixpoint wpa_replay_counter_valid (ctr : list replay_slot) (replay_counter : list Z) : bool :=
  match ctr with
  | [] => false
  | (c, valid) :: ctr =>
      if negb valid then false
      else if bool_decide (replay_counter = c) then true
      else wpa_replay_counter_valid ctr replay_counter
  end.

(** NULL for the counter marks all of them. *)
Definition wpa_replay_counter_mark_invalid (ctr : list replay_slot) (replay_counter : option (list Z))
    : list replay_slot :=
  map (fun '(c, valid) =>
         (c, if valid && match replay_counter with None => true | Some r => bool_decide (r = c) end
             then false else valid)) ctr.

(** The counters of the pending requests move on and a new one becomes the
    first. *)
Definition push_replay (ctr : list replay_slot) : list replay_slot :=
  match ctr with
  | (c, v) :: rest => (inc_byte_array c, true) :: take 3 ((c, v) :: rest)
  | [] => []
  end.

(** *** Sending EAPOL-Key frames *)

Definition wpa_use_aes_cmac (s : wpa_sm) : bool :=
  wpa_key_mgmt_sha256 (wpa_key_mgmt s) || (wpa_key_mgmt s =? WPA_KEY_MGMT_OSEN).

Definition key_version (s : wpa_sm) (force_version : Z) : Z :=
  if negb (force_version =? 0) then force_version
  else if (wpa_key_mgmt s =? WPA_KEY_MGMT_OSEN) || wpa_key_mgmt_suite_b (wpa_key_mgmt s)
  then WPA_KEY_INFO_TYPE_AKM_DEFINED
  else if wpa_use_aes_cmac s then WPA_KEY_INFO_TYPE_AES_128_CMAC
  else if negb (pairwise s =? WPA_CIPHER_TKIP) then WPA_KEY_INFO_TYPE_HMAC_SHA1_AES
  else WPA_KEY_INFO_TYPE_HMAC_MD5_RC4.

(** Key Data is encrypted with the AES key wrap. *)
Definition wraps_key_data (s : wpa_sm) (version : Z) : bool :=
  (version =? WPA_KEY_INFO_TYPE_HMAC_SHA1_AES) || (wpa_key_mgmt s =? WPA_KEY_MGMT_OSEN) ||
  wpa_key_mgmt_suite_b (wpa_key_mgmt s) || (version =? WPA_KEY_INFO_TYPE_AES_128_CMAC).

(** [pad_len] *)
Definition kde_padding (len : Z) : Z := if len mod 8 =? 0 then 0 else 8 - len mod 8.

(** The plaintext buffer: the KDEs, and 0xdd and zeros as padding. *)
Definition padded_kde (kde : list Z) : list Z :=
  let pad_len := kde_padding (zlen kde) in
  kde ++ if pad_len =? 0 then [] else 0xdd :: replicate (Z.to_nat (pad_len - 1)) 0.

Definition ptk_kek (p : wpa_ptk) : list Z := take (Z.to_nat (kek_len p)) (kek p).
Definition ptk_kck (p : wpa_ptk) : list Z := take (Z.to_nat (kck_len p)) (kck p).

(** The Key Data field, the Key IV and the length field, or [None] where the
    frame is given up. *)
Definition encode_key_data (version : Z) (encr : bool) (kde : option (list Z)) (w : world)
    : option (list Z * list Z * Z) :=
  let s := me w in
  let no_iv := replicate 16 0 in
  match kde with
  | None =>
      let n := (if wraps_key_data s version && encr then 8 else 0)%nat in
      Some (replicate n 0, no_iv, 0)
  | Some kde =>
      if negb encr then Some (kde, no_iv, zlen kde)
      else if wraps_key_data s version then
        let buf := padded_kde kde in
        match aes_wrap (ptk_kek (PTK s)) (Z.to_nat (zlen buf / 8)) buf with
        | None => None
        | Some c => Some (c, no_iv, zlen buf + 8)
        end
      else if kek_len (PTK s) =? 16 then
        let iv := drop 16 (Counter (grp w)) in
        Some (rc4_skip (iv ++ ptk_kek (PTK s)) 256 kde, iv, zlen kde)
      else None
  end.

(** [inc_byte_array(sm->group->Counter, ...)] of the RC4 branch. *)
Definition uses_rc4 (version : Z) (encr : bool) (kde : option (list Z)) (s : wpa_sm) : bool :=
  encr && non_null kde && negb (wraps_key_data s version) && (kek_len (PTK s) =? 16).

Definition key_info_bits (s : wpa_sm) (key_info version keyidx : Z) (encr : bool) : Z :=
  let v := Z.lor key_info version in
  let v := if encr && bool_decide (wpa s = WPA_VERSION_WPA2) then Z.lor v WPA_KEY_INFO_ENCR_KEY_DATA else v in
  if bool_decide (wpa s = WPA_VERSION_WPA2) then v
  else Z.lor v (Z.shiftl keyidx WPA_KEY_INFO_KEY_INDEX_SHIFT).

(** The frame without its MIC. *)
Definition eapol_key_frame (w : world) (key_info : Z) (key_rsc nonce : option (list Z))
    (iv kd mic : list Z) (kd_len : Z) : list Z :=
  let s := me w in
  let mic_len := wpa_mic_len (wpa_key_mgmt s) in
  let alg := if has_bits key_info WPA_KEY_INFO_KEY_TYPE then pairwise s else wpa_group_cipher (conf w) in
  let key_length := if has_bits key_info WPA_KEY_INFO_SMK_MESSAGE then 0 else wpa_cipher_key_len alg in
  key_frame (eapol_version (conf w)) 3 (sizeof_wpa_eapol_key mic_len + zlen kd)
    (if bool_decide (wpa s = WPA_VERSION_WPA2) then EAPOL_KEY_TYPE_RSN else EAPOL_KEY_TYPE_WPA)
    key_info key_length (match key_replay s with (c, _) :: _ => c | [] => [] end)
    (default (replicate 32 0) nonce) iv (default (replicate 8 0) key_rsc) mic kd_len kd.

Definition zero_mic (s : wpa_sm) : list Z := replicate (Z.to_nat (wpa_mic_len (wpa_key_mgmt s))) 0.

Definition send_frame (frame : list Z) : W :=
  (wpa_auth_set_eapol WPA_EAPOL_inc_EapolFramesTx true ;;
   outs <~ (fun w => w_send_eapol (idx w) (pairwise_set (me w)) frame :: outs w))%cmd.

(** The MIC, and the frame goes out; a MIC that cannot be computed stays
    zero. *)
Definition finish_frame (version key_info : Z) (key_rsc nonce : option (list Z))
    (iv kd : list Z) (kd_len : Z) : W :=
  fun w =>
    let s := me w in
    let frame mic := eapol_key_frame w key_info key_rsc nonce iv kd mic kd_len in
    if has_bits key_info WPA_KEY_INFO_MIC then
      if negb (PTK_valid s) then w
      else
        let mic := default (zero_mic s)
          (wpa_eapol_key_mic (ptk_kck (PTK s)) (wpa_key_mgmt s) version (frame (zero_mic s))) in
        send_frame (frame mic) w
    else send_frame (frame (zero_mic s)) w.

(** [__wpa_send_eapol] *)
Definition send_eapol_now (key_info : Z) (key_rsc nonce kde : option (list Z)) (keyidx : Z)
    (encr : bool) (force_version : Z) : W :=
  ask o_oom (fun oom =>
    if oom then skip
    else
      (fun w =>
         let version := key_version (me w) force_version in
         let key_info := key_info_bits (me w) key_info version keyidx encr in
         (me ∷ key_replay <~ (fun w => push_replay (key_replay (me w))) ;;
          fun w =>
            if encr && non_null kde then
              ask o_oom (fun oom =>
                if oom then skip
                else fun w =>
                  match encode_key_data version encr kde w with
                  | None => w
                  | Some (kd, iv, kd_len) =>
                      ((if uses_rc4 version encr kde (me w)
                        then grp ∷ Counter <~ (fun w => inc_byte_array (Counter (grp w))) else skip) ;;
                       finish_frame version key_info key_rsc nonce iv kd kd_len)%cmd w
                  end) w
            else
              match encode_key_data version encr kde w with
              | None => w
              | Some (kd, iv, kd_len) => finish_frame version key_info key_rsc nonce iv kd kd_len w
              end)%cmd w))%cmd.

Definition wpa_send_eapol (key_info : Z) (key_rsc nonce kde : option (list Z)) (keyidx : Z)
    (encr : bool) : W :=
  (send_eapol_now key_info key_rsc nonce kde keyidx encr 0 ;;
   fun w =>
     let pairwise := has_bits key_info WPA_KEY_INFO_KEY_TYPE in
     let ctr := if pairwise then TimeoutCtr (me w) else GTimeoutCtr (me w) in
     let timeout_ms :=
       if (ctr =? 1) && tx_status (conf w)
       then (if pairwise then eapol_key_timeout_first else eapol_key_timeout_first_group)
       else eapol_key_timeout_subseq in
     ((if pairwise && (ctr =? 1) && negb (has_bits key_info WPA_KEY_INFO_MIC)
       then me ∷ pending_1_of_4_timeout ::= true else skip) ;;
      register_ms timeout_ms)%cmd w)%cmd.

(** *** Checking the MIC *)

(** [true] is the result 0.  The frame is restored after its MIC field has
    been cleared for the computation. *)
Definition wpa_verify_key_mic (akmp : Z) (p : wpa_ptk) (d : list Z) : bool :=
  let mic_len := wpa_mic_len akmp in
  if zlen d <? off_key + sizeof_wpa_eapol_key 16 then false
  else
    let key_info := WPA_GET_BE16 d off_key_info in
    let mic := slice d off_key_mic mic_len in
    let cleared := mem_write off_key_mic (replicate (Z.to_nat mic_len) 0) d in
    match wpa_eapol_key_mic (ptk_kck p) akmp (Z.land key_info WPA_KEY_INFO_TYPE_MASK) cleared with
    | None => false
    | Some m => bool_decide (mic = take (Z.to_nat mic_len) m)
    end.

(** *** The pairwise key *)

Definition wpa_remove_ptk : W :=
  (me ∷ PTK_valid ::= false ;;
   me ∷ PTK ::= ptk_zero ;;
   (fun w => wpa_auth_set_key WPA_ALG_NONE (Some (idx w)) 0 [] (fun _ => skip) w) ;;
   me ∷ pairwise_set ::= false ;;
   cancel_me wpa_rekey_ptk_h)%cmd.

Definition wpa_request_new_ptk : W :=
  (me ∷ PTKRequest ::= true ;;
   me ∷ PTK_valid ::= false)%cmd.

Definition wpa_derive_ptk (w : world) (snonce pmk : list Z) : wpa_ptk :=
  let s := me w in
  wpa_pmk_to_ptk pmk "Pairwise key expansion" (wpa_addr w) (sm_addr s) (ANonce s) snonce
    (wpa_key_mgmt s) (pairwise s).

(** [for (;;)] over the keys the station may use: its PSKs in order, or the
    PMK. *)
Definition pmk_candidates (s : wpa_sm) : list (list Z) :=
  if wpa_key_mgmt_wpa_psk (wpa_key_mgmt s) then map (take PMK_LEN) (psks s) else [PMK s].

Definition find_pmk (w : world) (snonce d : list Z) : option (list Z) :=
  List.find (fun pmk => wpa_verify_key_mic (wpa_key_mgmt (me w)) (wpa_derive_ptk w snonce pmk) d)
            (pmk_candidates (me w)).

(** *** States of the PTK machine *)

Definition enter_ptk (st : wpa_ptk_states) : W :=
  (me ∷ changed ::= true ;; me ∷ wpa_ptk_state ::= st)%cmd.
Definition enter_ptk_group (st : wpa_ptk_group_states) : W :=
  (me ∷ changed ::= true ;; me ∷ wpa_ptk_group_state ::= st)%cmd.

(** [if (sm->GUpdateStationKeys) sm->group->GKeyDoneStations--;
    sm->GUpdateStationKeys = FALSE;] *)
Definition station_keys_done : W :=
  (WHEN (fun w => GUpdateStationKeys (me w))
     DO (grp ∷ GKeyDoneStations <~ (fun w => GKeyDoneStations (grp w) - 1)) ;;
   me ∷ GUpdateStationKeys ::= false)%cmd.

Definition WPA_PTK_INITIALIZE_Enter : W :=
  (enter_ptk WPA_PTK_INITIALIZE ;;
   WHEN (fun w => Init (me w)) DO (me ∷ changed ::= false) ;;
   me ∷ keycount ::= 0 ;;
   station_keys_done ;;
   WHEN (fun w => bool_decide (wpa (me w) = WPA_VERSION_WPA)) DO (me ∷ PInitAKeys ::= false) ;;
   me ∷ Pair ::= true ;;
   wpa_auth_set_eapol WPA_EAPOL_portEnabled false ;;
   wpa_remove_ptk ;;
   wpa_auth_set_eapol WPA_EAPOL_portValid false ;;
   me ∷ TimeoutCtr ::= 0 ;;
   WHEN (fun w => wpa_key_mgmt_wpa_psk (wpa_key_mgmt (me w)))
     DO wpa_auth_set_eapol WPA_EAPOL_authorized false)%cmd.

Definition WPA_PTK_DISCONNECTED_Enter : W :=
  (enter_ptk WPA_PTK_DISCONNECTED ;;
   me ∷ DeauthenticationRequest ::= false)%cmd.

Definition WPA_PTK_AUTHENTICATION_Enter : W :=
  (enter_ptk WPA_PTK_AUTHENTICATION ;;
   me ∷ PTK ::= ptk_zero ;;
   me ∷ PTK_valid ::= false ;;
   wpa_auth_set_eapol WPA_EAPOL_portControl_Auto true ;;
   wpa_auth_set_eapol WPA_EAPOL_portEnabled true ;;
   me ∷ AuthenticationRequest ::= false)%cmd.

Definition wpa_group_ensure_init : W :=
  fun w =>
    if first_sta_seen (grp w) then w
    else
      let failed := (grp ∷ first_sta_seen ::= false ;; grp ∷ reject_4way_hs_for_entropy ::= true)%cmd in
      ask o_pool_ready (fun ready =>
        (if ready then grp ∷ first_sta_seen ::= true ;; grp ∷ reject_4way_hs_for_entropy ::= false
         else grp ∷ reject_4way_hs_for_entropy ::= true) ;;
        wpa_group_init_gmk_and_counter (fun ok =>
          if ok then
            wpa_gtk_update (fun ok =>
              if ok then wpa_group_config_group_keys (fun ok => if ok then skip else failed) else failed)
          else failed))%cmd w.

Definition WPA_PTK_AUTHENTICATION2_Enter : W :=
  (enter_ptk WPA_PTK_AUTHENTICATION2 ;;
   wpa_group_ensure_init ;;
   me ∷ ReAuthenticationRequest ::= false ;;
   random_get_bytes WPA_NONCE_LEN (fun ok n =>
     me ∷ ANonce ::= n ;;
     (if ok then me ∷ TimeoutCtr ::= 0 else me ∷ Disconnect ::= true)))%cmd.

Definition WPA_PTK_INITPMK_Enter : W :=
  (enter_ptk WPA_PTK_INITPMK ;;
   fun w =>
     let finish := (me ∷ req_replay_counter_used ::= false ;; wpa_auth_set_eapol WPA_EAPOL_keyRun false)%cmd in
     match pmksa (me w) with
     | Some e => (me ∷ PMK ::= pmksa_pmk e ;; finish)%cmd w
     | None =>
         match wpa_auth_get_msk w with
         | Some key =>
             let pmk_len := if has_bits (wpa_key_mgmt (me w)) WPA_KEY_MGMT_IEEE8021X_SUITE_B_192
                            then PMK_LEN_SUITE_B_192 else PMK_LEN in
             if (length key <? pmk_len)%nat then (me ∷ Disconnect ::= true)%cmd w
             else (me ∷ PMK ::= take pmk_len key ;; finish)%cmd w
         | None => (me ∷ Disconnect ::= true)%cmd w
         end
     end)%cmd.

Definition WPA_PTK_INITPSK_Enter : W :=
  (enter_ptk WPA_PTK_INITPSK ;;
   (fun w => match wpa_auth_get_psk w with
             | Some psk => (me ∷ PMK ::= take PMK_LEN psk)%cmd w
             | None => w
             end) ;;
   me ∷ req_replay_counter_used ::= false)%cmd.

(** The PMKID KDE of message 1/4. *)
Definition pmkid_kde (w : world) : option (list Z) :=
  let s := me w in
  if bool_decide (wpa s = WPA_VERSION_WPA2) && wpa_key_mgmt_wpa_ieee8021x (wpa_key_mgmt s) &&
     negb (wpa_key_mgmt s =? WPA_KEY_MGMT_OSEN) then
    let hdr := [WLAN_EID_VENDOR_SPECIFIC; RSN_SELECTOR_LEN + Z.of_nat PMKID_LEN] ++
               WPA_PUT_BE32 RSN_KEY_DATA_PMKID in
    match pmksa s with
    | Some e => Some (hdr ++ pmksa_pmkid e)
    | None =>
        if wpa_key_mgmt_suite_b (wpa_key_mgmt s) then None
        else Some (hdr ++ rsn_pmkid (PMK s) (wpa_addr w) (sm_addr s) (wpa_key_mgmt_sha256 (wpa_key_mgmt s)))
    end
  else None.

Definition WPA_PTK_PTKSTART_Enter : W :=
  (enter_ptk WPA_PTK_PTKSTART ;;
   me ∷ PTKRequest ::= false ;;
   me ∷ TimeoutEvt ::= false ;;
   me ∷ alt_snonce_valid ::= false ;;
   me ∷ TimeoutCtr <~ (fun w => TimeoutCtr (me w) + 1) ;;
   fun w =>
     if dot11RSNAConfigPairwiseUpdateCount <? TimeoutCtr (me w) then w
     else wpa_send_eapol (WPA_KEY_INFO_ACK + WPA_KEY_INFO_KEY_TYPE) None (Some (ANonce (me w)))
            (pmkid_kde w) 0 false w)%cmd.

(** The last received frame has been lost for want of memory, but its length
    has not: the MIC of a null pointer is computed. *)
Definition last_frame_lost (s : wpa_sm) : bool :=
  negb (non_null (last_rx_eapol_key s)) && (off_key + sizeof_wpa_eapol_key 16 <=? last_rx_eapol_key_len s) &&
  non_null (head (pmk_candidates s)).

Definition WPA_PTK_PTKCALCNEGOTIATING_Enter : W :=
  (enter_ptk WPA_PTK_PTKCALCNEGOTIATING ;;
   me ∷ EAPOLKeyReceived ::= false ;;
   me ∷ update_snonce ::= false ;;
   fun w =>
     if last_frame_lost (me w) then (fault ::= true)%cmd w
     else
       match find_pmk w (SNonce (me w)) (default [] (last_rx_eapol_key (me w))) with
       | None =>
           if wpa_key_mgmt_wpa_psk (wpa_key_mgmt (me w)) && non_null (head (psks (me w)))
           then told_me w_psk_failure w else w
       | Some pmk =>
           (me ∷ pending_1_of_4_timeout ::= false ;;
            cancel_me wpa_send_eapol_timeout_h ;;
            (if wpa_key_mgmt_wpa_psk (wpa_key_mgmt (me w)) then me ∷ PMK ::= pmk else skip) ;;
            me ∷ MICVerified ::= true ;;
            me ∷ PTK ::= wpa_derive_ptk w (SNonce (me w)) pmk ;;
            me ∷ PTK_valid ::= true)%cmd w
       end)%cmd.

Definition WPA_PTK_PTKCALCNEGOTIATING2_Enter : W :=
  (enter_ptk WPA_PTK_PTKCALCNEGOTIATING2 ;;
   me ∷ TimeoutCtr ::= 0)%cmd.

(** *** Message 3/4 and the group key messages *)

(** [wpa_auth_get_seqnum] *)
Definition wpa_auth_get_seqnum (k : option (list Z) -> W) : W :=
  ask o_seqnum (fun r => k (option_map (pad_to 8) r)).

(** [ieee80211w_kde_add]: the IGTK KDE, or nothing. *)
Definition ieee80211w_kde_add (k : list Z -> W) : W :=
  fun w =>
    if negb (mgmt_frame_prot (me w)) then k [] w
    else
      let add pn igtk := wpa_add_kde RSN_KEY_DATA_IGTK ([u8 (GN_igtk (grp w)); 0] ++ pn ++ igtk) [] in
      let len := wpa_cipher_key_len (group_mgmt_cipher (conf w)) in
      let with_pn pn : W := fun w =>
        if disable_gtk (conf w) then
          random_get_bytes (Z.to_nat len) (fun ok igtk => if ok then k (add pn igtk) else k []) w
        else k (add pn (current_igtk w)) w in
      if bool_decide (wpa_group_state (grp w) = WPA_GROUP_SETKEYSDONE)
      then wpa_auth_get_seqnum (fun r => with_pn (match r with Some rsc => take 6 rsc | None => replicate 6 0 end)) w
      else with_pn (replicate 6 0) w.

Definition gtk_kde (keyidx : Z) (gtk : list Z) : list Z :=
  wpa_add_kde RSN_KEY_DATA_GROUPKEY [Z.land keyidx 3; 0] gtk.

(** The GTK to send, which [disable_gtk] makes a random one for every
    station; [None] is a failure of the random number generator. *)
Definition gtk_for_sta (k : option (list Z) -> W) : W :=
  fun w =>
    if disable_gtk (conf w)
    then random_get_bytes (Z.to_nat (GTK_len (grp w))) (fun ok gtk => k (if ok then Some gtk else None)) w
    else k (Some (current_gtk w)) w.

(** The element of the AP in message 3/4: a station that uses WPA gets only
    the WPA element. *)
Definition own_ie_for_sta (w : world) : list Z :=
  let ie := own_ie w in
  let next l := drop (Z.to_nat (byte_at l 1 + 2)) l in
  if bool_decide (wpa (me w) = WPA_VERSION_WPA) && has_bits (conf_wpa (conf w)) WPA_PROTO_RSN &&
     (byte_at ie 1 + 2 <? zlen ie) && (byte_at ie 0 =? WLAN_EID_RSN) then
    let ie := next ie in
    let ie := if byte_at ie 0 =? WLAN_EID_MOBILITY_DOMAIN then next ie else ie in
    take (Z.to_nat (byte_at ie 1 + 2)) ie
  else ie.

Definition send_3of4 (secure : bool) (rsc : option (list Z)) (kde : list Z) (keyidx : Z) (encr : bool) : W :=
  fun w =>
    wpa_send_eapol ((if secure then WPA_KEY_INFO_SECURE else 0) + WPA_KEY_INFO_MIC + WPA_KEY_INFO_ACK +
                    WPA_KEY_INFO_INSTALL + WPA_KEY_INFO_KEY_TYPE)
      rsc (Some (ANonce (me w))) (Some kde) keyidx encr w.

Definition WPA_PTK_PTKINITNEGOTIATING_Enter : W :=
  (enter_ptk WPA_PTK_PTKINITNEGOTIATING ;;
   me ∷ TimeoutEvt ::= false ;;
   me ∷ TimeoutCtr <~ (fun w => TimeoutCtr (me w) + 1) ;;
   fun w =>
     if dot11RSNAConfigPairwiseUpdateCount <? TimeoutCtr (me w) then w
     else
       wpa_auth_get_seqnum (fun r w =>
         let rsc := default (replicate 8 0) r in
         if bool_decide (wpa (me w) = WPA_VERSION_WPA2) then
           gtk_for_sta (fun gtk =>
             match gtk with
             | None => skip
             | Some gtk =>
                 ask o_oom (fun oom =>
                   if oom then skip
                   else fun w =>
                     ieee80211w_kde_add (fun igtk_kde =>
                       send_3of4 true (Some rsc)
                         (own_ie_for_sta w ++ gtk_kde (GN (grp w)) gtk ++ igtk_kde) (GN (grp w)) true) w)
             end) w
         else
           ask o_oom (fun oom =>
             if oom then skip
             else fun w =>
               ieee80211w_kde_add (fun igtk_kde =>
                 send_3of4 (rx_eapol_key_secure (me w)) None (own_ie_for_sta w ++ igtk_kde) 0 false) w) w) w)%cmd.

(** *** The PTK group machine *)

Definition WPA_PTK_GROUP_IDLE_Enter : W :=
  (enter_ptk_group WPA_PTK_GROUP_IDLE ;;
   WHEN (fun w => Init (me w)) DO (me ∷ changed ::= false) ;;
   me ∷ GTimeoutCtr ::= 0)%cmd.

Definition send_group_1of2 (rsc kde : list Z) : W :=
  fun w =>
    wpa_send_eapol (WPA_KEY_INFO_SECURE + WPA_KEY_INFO_MIC + WPA_KEY_INFO_ACK +
                    (if negb (Pair (me w)) then WPA_KEY_INFO_INSTALL else 0))
      (Some rsc) (Some (GNonce (grp w))) (Some kde) (GN (grp w)) true w.

Definition WPA_PTK_GROUP_REKEYNEGOTIATING_Enter : W :=
  (enter_ptk_group WPA_PTK_GROUP_REKEYNEGOTIATING ;;
   me ∷ GTimeoutCtr <~ (fun w => GTimeoutCtr (me w) + 1) ;;
   fun w =>
     if dot11RSNAConfigGroupUpdateCount <? GTimeoutCtr (me w) then w
     else
       (WHEN (fun w => bool_decide (wpa (me w) = WPA_VERSION_WPA)) DO (me ∷ PInitAKeys ::= false) ;;
        me ∷ TimeoutEvt ::= false ;;
        fun w =>
          let send (rsc : list Z) : W :=
            gtk_for_sta (fun gtk =>
              match gtk with
              | None => skip
              | Some gtk => fun w =>
                  if bool_decide (wpa (me w) = WPA_VERSION_WPA2) then
                    ask o_oom (fun oom =>
                      if oom then skip
                      else ieee80211w_kde_add (fun igtk_kde w =>
                             send_group_1of2 rsc (gtk_kde (GN (grp w)) gtk ++ igtk_kde) w)) w
                  else send_group_1of2 rsc gtk w
              end) in
          if bool_decide (wpa_group_state (grp w) = WPA_GROUP_SETKEYSDONE)
          then wpa_auth_get_seqnum (fun r => send (default (replicate 8 0) r)) w
          else send (replicate 8 0) w)%cmd w)%cmd.

Definition WPA_PTK_GROUP_REKEYESTABLISHED_Enter : W :=
  (enter_ptk_group WPA_PTK_GROUP_REKEYESTABLISHED ;;
   me ∷ EAPOLKeyReceived ::= false ;;
   station_keys_done ;;
   me ∷ GTimeoutCtr ::= 0 ;;
   me ∷ has_GTK ::= true)%cmd.

Definition WPA_PTK_GROUP_KEYERROR_Enter : W :=
  (enter_ptk_group WPA_PTK_GROUP_KEYERROR ;;
   station_keys_done ;;
   me ∷ Disconnect ::= true)%cmd.

(** [SM_STEP(WPA_PTK_GROUP)] *)
Definition WPA_PTK_GROUP_Step : W :=
  fun w =>
    let s := me w in
    if Init s || PtkGroupInit s
    then (WPA_PTK_GROUP_IDLE_Enter ;; me ∷ PtkGroupInit ::= false)%cmd w
    else
      match wpa_ptk_group_state s with
      | WPA_PTK_GROUP_IDLE =>
          if GUpdateStationKeys s || (bool_decide (wpa s = WPA_VERSION_WPA) && PInitAKeys s)
          then WPA_PTK_GROUP_REKEYNEGOTIATING_Enter w else w
      | WPA_PTK_GROUP_REKEYNEGOTIATING =>
          if EAPOLKeyReceived s && negb (EAPOLKeyRequest s) && negb (EAPOLKeyPairwise s) && MICVerified s
          then WPA_PTK_GROUP_REKEYESTABLISHED_Enter w
          else if dot11RSNAConfigGroupUpdateCount <? GTimeoutCtr s then WPA_PTK_GROUP_KEYERROR_Enter w
          else if TimeoutEvt s then WPA_PTK_GROUP_REKEYNEGOTIATING_Enter w
          else w
      | WPA_PTK_GROUP_KEYERROR => WPA_PTK_GROUP_IDLE_Enter w
      | WPA_PTK_GROUP_REKEYESTABLISHED => WPA_PTK_GROUP_IDLE_Enter w
      end.

(** *** Operations that run a machine

    [rec] is [wpa_sm_step] where one of them is called while another one, or
    the same one, is running. *)

Section nested.
Context (rec : W).

(** [wpa_auth_sm_event], up to the call of [wpa_sm_step] and with it.  The
    event WPA_ASSOC_FT and the event WPA_AUTH of a mesh are those of builds
    this one is not. *)
Definition sm_event_flags (event : wpa_event) : W :=
  match event with
  | WPA_AUTH | WPA_ASSOC | WPA_ASSOC_FT => skip
  | WPA_DEAUTH | WPA_DISASSOC => (me ∷ DeauthenticationRequest ::= true)%cmd
  | WPA_REAUTH | WPA_REAUTH_EAPOL =>
      fun w =>
        if negb (started (me w)) then
          (me ∷ started ::= true ;;
           me ∷ Init ::= true ;;
           rec ;;
           WHEN (fun w => negb (freed (me w)))
             DO (me ∷ Init ::= false ;; me ∷ AuthenticationRequest ::= true))%cmd w
        else
          (WHEN (fun w => GUpdateStationKeys (me w))
             DO (grp ∷ GKeyDoneStations <~ (fun w => GKeyDoneStations (grp w) - 1) ;;
                 me ∷ GUpdateStationKeys ::= false ;;
                 me ∷ PtkGroupInit ::= true) ;;
           me ∷ ReAuthenticationRequest ::= true)%cmd w
  end.

Definition wpa_auth_sm_event (event : wpa_event) : W :=
  (sm_event_flags event ;;
   fun w =>
     if freed (me w) then w
     else
       (WHEN (fun w => negb (mgmt_frame_prot (me w) && bool_decide (event = WPA_AUTH)))
          DO (me ∷ PTK_valid ::= false ;;
              me ∷ PTK ::= ptk_zero ;;
              WHEN (fun _ => negb (bool_decide (event = WPA_REAUTH_EAPOL))) DO wpa_remove_ptk) ;;
        fun w => if in_step_loop (me w) then (me ∷ changed ::= true)%cmd w else rec w)%cmd w)%cmd.

(** [wpa_sta_disconnect]: [ap_sta_disconnect] takes the port away and tells
    the machine ([wpa_auth_sm_event]). *)
Definition wpa_sta_disconnect : W :=
  (told_me w_disconnect ;;
   WHEN (fun w => listed (me w)) DO wpa_auth_sm_event WPA_DEAUTH)%cmd.

Definition WPA_PTK_DISCONNECT_Enter : W :=
  (enter_ptk WPA_PTK_DISCONNECT ;;
   me ∷ Disconnect ::= false ;;
   wpa_sta_disconnect)%cmd.

Definition initdone_tail : W :=
  (wpa_auth_set_eapol WPA_EAPOL_portValid true ;;
   wpa_auth_set_eapol WPA_EAPOL_keyAvailable false ;;
   wpa_auth_set_eapol WPA_EAPOL_keyDone true ;;
   IF (fun w => bool_decide (wpa (me w) = WPA_VERSION_WPA))
     THEN (me ∷ PInitAKeys ::= true) ELSE (me ∷ has_GTK ::= true))%cmd.

(** The timer that will rekey the key. *)
Definition arm_rekey : W :=
  (WHEN (fun w => negb (wpa_ptk_rekey (conf w) =? 0))
     DO (cancel_me wpa_rekey_ptk_h ;;
         lp <~ (fun w => eloop_register_timeout (wpa_ptk_rekey (conf w)) 0 wpa_rekey_ptk_h 0
                           (sta_ctx w) (lp w))))%cmd.
Definition port_open : W :=
  (WHEN (fun w => wpa_key_mgmt_wpa_psk (wpa_key_mgmt (me w))) DO wpa_auth_set_eapol WPA_EAPOL_authorized true ;;
   initdone_tail)%cmd.
Definition key_installed : W := (me ∷ pairwise_set ::= true ;; arm_rekey ;; port_open)%cmd.

(** [if (sm->Pair)]: the key is handed to the driver. *)
Definition install_key : W :=
  fun w =>
    if Pair (me w) then
      wpa_auth_set_key (wpa_cipher_to_alg (pairwise (me w))) (Some (idx w)) 0
        (slice (tk (PTK (me w))) 0 (wpa_cipher_key_len (pairwise (me w))))
        (fun res => if negb (res =? 0) then wpa_sta_disconnect else key_installed) w
    else initdone_tail w.

Definition WPA_PTK_PTKINITDONE_Enter : W :=
  (enter_ptk WPA_PTK_PTKINITDONE ;;
   me ∷ EAPOLKeyReceived ::= false ;;
   install_key)%cmd.

Definition count_failure : W :=
  (dot11RSNA4WayHandshakeFailures <~ (fun w => dot11RSNA4WayHandshakeFailures w + 1))%cmd.

(** A message of the pairwise handshake that is not a request. *)
Definition pairwise_received (s : wpa_sm) : bool :=
  EAPOLKeyReceived s && negb (EAPOLKeyRequest s) && EAPOLKeyPairwise s.

Definition WPA_PTK_switch : W :=
  fun w =>
    let s := me w in
    match wpa_ptk_state s with
    | WPA_PTK_INITIALIZE => w
    | WPA_PTK_DISCONNECT => WPA_PTK_DISCONNECTED_Enter w
    | WPA_PTK_DISCONNECTED => WPA_PTK_INITIALIZE_Enter w
    | WPA_PTK_AUTHENTICATION => WPA_PTK_AUTHENTICATION2_Enter w
    | WPA_PTK_AUTHENTICATION2 =>
        if wpa_key_mgmt_wpa_ieee8021x (wpa_key_mgmt s) && get_keyRun w then WPA_PTK_INITPMK_Enter w
        else if wpa_key_mgmt_wpa_psk (wpa_key_mgmt s) then WPA_PTK_INITPSK_Enter w
        else w
    | WPA_PTK_INITPMK =>
        if get_keyAvailable w then WPA_PTK_PTKSTART_Enter w
        else (count_failure ;; WPA_PTK_DISCONNECT_Enter)%cmd w
    | WPA_PTK_INITPSK =>
        if non_null (wpa_auth_get_psk w) then WPA_PTK_PTKSTART_Enter w
        else (count_failure ;; WPA_PTK_DISCONNECT_Enter)%cmd w
    | WPA_PTK_PTKSTART =>
        if pairwise_received s then WPA_PTK_PTKCALCNEGOTIATING_Enter w
        else if dot11RSNAConfigPairwiseUpdateCount <? TimeoutCtr s
        then (count_failure ;; WPA_PTK_DISCONNECT_Enter)%cmd w
        else if TimeoutEvt s then WPA_PTK_PTKSTART_Enter w
        else w
    | WPA_PTK_PTKCALCNEGOTIATING =>
        if MICVerified s then WPA_PTK_PTKCALCNEGOTIATING2_Enter w
        else if pairwise_received s then WPA_PTK_PTKCALCNEGOTIATING_Enter w
        else if TimeoutEvt s then WPA_PTK_PTKSTART_Enter w
        else w
    | WPA_PTK_PTKCALCNEGOTIATING2 => WPA_PTK_PTKINITNEGOTIATING_Enter w
    | WPA_PTK_PTKINITNEGOTIATING =>
        if update_snonce s then WPA_PTK_PTKCALCNEGOTIATING_Enter w
        else if pairwise_received s && MICVerified s then WPA_PTK_PTKINITDONE_Enter w
        else if dot11RSNAConfigPairwiseUpdateCount <? TimeoutCtr s
        then (count_failure ;; WPA_PTK_DISCONNECT_Enter)%cmd w
        else if TimeoutEvt s then WPA_PTK_PTKINITNEGOTIATING_Enter w
        else w
    | WPA_PTK_PTKINITDONE => w
    end.

(** [SM_STEP(WPA_PTK)] *)
Definition WPA_PTK_Step : W :=
  fun w =>
    let s := me w in
    if Init s then WPA_PTK_INITIALIZE_Enter w
    else if Disconnect s then WPA_PTK_DISCONNECT_Enter w
    else if DeauthenticationRequest s then WPA_PTK_DISCONNECTED_Enter w
    else if AuthenticationRequest s then WPA_PTK_AUTHENTICATION_Enter w
    else if ReAuthenticationRequest s then WPA_PTK_AUTHENTICATION2_Enter w
    else if PTKRequest s then WPA_PTK_PTKSTART_Enter w
    else WPA_PTK_switch w.
End nested.

(** *** The group key machine *)

Section group.
Context (rec : W).

(** [wpa_group_update_sta]; the station is in the group, and WNM sleep mode
    is not in this build. *)
Definition wpa_group_update_sta : W :=
  fun w =>
    if negb (bool_decide (wpa_ptk_state (me w) = WPA_PTK_PTKINITDONE))
    then (me ∷ GUpdateStationKeys ::= false)%cmd w
    else
      (grp ∷ GKeyDoneStations <~ (fun w => GKeyDoneStations (grp w) + 1) ;;
       me ∷ GUpdateStationKeys ::= true ;;
       rec)%cmd w.

(** The new and the old key change places. *)
Definition swap_keys : W :=
  fun w =>
    let tmp := GM (grp w) in
    let tmp_igtk := GM_igtk (grp w) in
    (grp ∷ GM <~ (fun w => GN (grp w)) ;;
     grp ∷ GN ::= tmp ;;
     grp ∷ GM_igtk <~ (fun w => GN_igtk (grp w)) ;;
     grp ∷ GN_igtk ::= tmp_igtk)%cmd w.

Definition wpa_group_setkeys : W :=
  (grp ∷ gchanged ::= true ;;
   grp ∷ wpa_group_state ::= WPA_GROUP_SETKEYS ;;
   grp ∷ GTKReKey ::= false ;;
   swap_keys ;;
   wpa_gtk_update (fun _ => skip) ;;
   WHEN (fun w => negb (GKeyDoneStations (grp w) =? 0)) DO (grp ∷ GKeyDoneStations ::= 0) ;;
   for_each_sta wpa_group_update_sta)%cmd.

(** [wpa_group_disconnect_cb], for every station. *)
Definition wpa_group_fatal_failure : W :=
  (grp ∷ gchanged ::= true ;;
   grp ∷ wpa_group_state ::= WPA_GROUP_FATAL_FAILURE ;;
   for_each_sta (me ∷ Disconnect ::= true))%cmd.

Definition wpa_group_setkeysdone : W :=
  (grp ∷ gchanged ::= true ;;
   grp ∷ wpa_group_state ::= WPA_GROUP_SETKEYSDONE ;;
   wpa_group_config_group_keys (fun ok => if ok then skip else wpa_group_fatal_failure))%cmd.

Definition wpa_group_sm_step : W :=
  fun w =>
    let g := grp w in
    if GInit g then wpa_group_gtk_init w
    else
      match wpa_group_state g with
      | WPA_GROUP_FATAL_FAILURE => w
      | WPA_GROUP_GTK_INIT => if GTKAuthenticator g then wpa_group_setkeysdone w else w
      | WPA_GROUP_SETKEYSDONE => if GTKReKey g then wpa_group_setkeys w else w
      | WPA_GROUP_SETKEYS =>
          if GKeyDoneStations g =? 0 then wpa_group_setkeysdone w
          else if GTKReKey g then wpa_group_setkeys w
          else w
      end.

(** One iteration of the loop of [wpa_sm_step]; a pending removal ends it
    early. *)
Definition unless_deinit (c : W) : W := fun w => if pending_deinit (me w) then w else c w.
Definition sm_step_body : W :=
  unless_deinit
    (me ∷ changed ::= false ;;
     grp ∷ gchanged ::= false ;;
     WPA_PTK_Step rec ;;
     unless_deinit (WPA_PTK_GROUP_Step ;; unless_deinit wpa_group_sm_step))%cmd.
Definition sm_step_again (w : world) : bool :=
  negb (pending_deinit (me w)) && (changed (me w) || gchanged (grp w)).
End group.

Definition wpa_free_sta_sm : W :=
  (station_keys_done ;;
   me ∷ last_rx_eapol_key ::= None ;;
   me ∷ wpa_ie ::= None ;;
   me ∷ freed ::= true)%cmd.

(** The iterations of one loop, and how deep calls can nest: a station's
    loop, the one of a station it rekeys, and the refused call of a station
    that is running already. *)
Definition step_fuel : nat := 256.
Definition nest_fuel : nat := 3.

(** The body of [wpa_sm_step] for a machine that is not running. *)
Definition enter_loop : W := (me ∷ in_step_loop ::= true)%cmd.
Definition exit_loop : W :=
  (me ∷ in_step_loop ::= false ;;
   WHEN (fun w => pending_deinit (me w)) DO wpa_free_sta_sm)%cmd.
Definition sm_step_loop (rec : W) : W :=
  fun w =>
    match do_while (sm_step_body rec) sm_step_again step_fuel w with
    | Some w => w
    | None => (stuck ::= true)%cmd w
    end.
Definition sm_step_run (rec : W) : W := (enter_loop ;; sm_step_loop rec ;; exit_loop)%cmd.

Fixpoint wpa_sm_step_n (n : nat) : W :=
  fun w =>
    if in_step_loop (me w) then w
    else
      match n with
      | 0%nat => (stuck ::= true)%cmd w
      | Datatypes.S n => sm_step_run (wpa_sm_step_n n) w
      end.
Definition wpa_sm_step : W := wpa_sm_step_n nest_fuel.

(** *** Rekeying (timeout handlers) *)

Definition reregister (secs : world -> Z) (h : wpa_handler) : W :=
  WHEN (fun w => negb (secs w =? 0))%cmd
    DO (lp <~ (fun w => eloop_register_timeout (secs w) 0 h 0 0 (lp w))).

Definition wpa_rekey_gmk : W :=
  (random_get_bytes WPA_GMK_LEN (fun _ gmk => grp ∷ GMK ::= gmk) ;;
   reregister (fun w => wpa_gmk_rekey (conf w)) wpa_rekey_gmk_h)%cmd.

Definition wpa_rekey_gtk : W :=
  (grp ∷ GTKReKey ::= true ;;
   (fun w =>
      match do_while (fun w => wpa_group_sm_step wpa_sm_step ((grp ∷ gchanged ::= false)%cmd w))
                     (fun w => gchanged (grp w)) step_fuel w with
      | Some w => w
      | None => (stuck ::= true)%cmd w
      end) ;;
   reregister (fun w => wpa_group_rekey (conf w)) wpa_rekey_gtk_h)%cmd.

Definition wpa_rekey_ptk : W := (wpa_request_new_ptk ;; wpa_sm_step)%cmd.

Definition wpa_send_eapol_timeout : W :=
  (me ∷ pending_1_of_4_timeout ::= false ;;
   me ∷ TimeoutEvt ::= true ;;
   wpa_sm_step)%cmd.

Definition wpa_sm_call_step : W := wpa_sm_step.

Definition wpa_auth_sm_notify : W :=
  (lp <~ (fun w => eloop_register_timeout 0 0 wpa_sm_call_step_h (sta_ctx w) 0 (lp w)))%cmd.

(** Both group keys are replaced and configured. *)
Definition wpa_gtk_rekey : W :=
  let once := (swap_keys ;;
               wpa_gtk_update (fun _ => skip) ;;
               wpa_group_config_group_keys (fun _ => skip))%cmd in
  (once ;; once)%cmd.

(** *** The authenticator and its stations *)

(** [wpa_group_init] with [delay_init]: a failure leaves no group. *)
Definition wpa_group_init : W :=
  (grp ::= blank_group ;;
   grp ∷ GTKAuthenticator ::= true ;;
   grp ∷ GTK_len <~ (fun w => wpa_cipher_key_len (wpa_group_cipher (conf w))) ;;
   wpa_group_init_gmk_and_counter (fun ok => if ok then grp ∷ GInit ::= true else skip))%cmd.

(** [None] is NULL. *)
Definition wpa_init (addr : list Z) (cf : wpa_auth_config) (oom : bool) (e : eloop_data wpa_handler)
    : option world :=
  let? ie := wpa_auth_gen_wpa_ie cf oom in
  let w := mk_world cf addr ie blank_group blank_sm 0 [] e 0 [] 0 0 (mk_reltime 0 0) 0 false 0
             [] 0 0 0 (replicate PMKID_LEN 0) false false in
  let w := wpa_group_init w in
  if negb (GInit (grp w)) then None
  else
    Some ((reregister (fun w => wpa_gmk_rekey (conf w)) wpa_rekey_gmk_h ;;
           reregister (fun w => wpa_group_rekey (conf w)) wpa_rekey_gtk_h)%cmd w).

(** [true] is the result 0. *)
Definition wpa_init_keys : W :=
  (wpa_group_sm_step wpa_sm_step ;;
   grp ∷ GInit ::= false ;;
   wpa_group_sm_step wpa_sm_step)%cmd.
Definition init_keys_ok (w : world) : bool := negb (bool_decide (wpa_group_state (grp w) = WPA_GROUP_FATAL_FAILURE)).

Definition wpa_deinit : W :=
  (lp <~ (fun w => snd (eloop_cancel_timeout wpa_rekey_gmk_h 0 0 (lp w))) ;;
   cancel_gtk)%cmd.

Definition wpa_reconfig (cf : wpa_auth_config) : W :=
  (conf ::= cf ;;
   ask o_oom (fun oom =>
     match wpa_auth_gen_wpa_ie cf oom with
     | None => skip
     | Some ie =>
         own_ie ::= ie ;;
         grp ∷ GTK_len <~ (fun w => wpa_cipher_key_len (wpa_group_cipher (conf w))) ;;
         grp ∷ GInit ::= true ;;
         wpa_group_sm_step wpa_sm_step ;;
         grp ∷ GInit ::= false ;;
         wpa_group_sm_step wpa_sm_step
     end))%cmd.

Definition wpa_auth_reconfig_group_keys : W := wpa_group_config_group_keys (fun _ => skip).

(** A new station gets the next number. *)
Definition new_sta (addr : list Z) : wpa_sm :=
  setter listed (fun _ => true) (setter sm_addr (fun _ => addr) blank_sm).
Definition wpa_auth_sta_init (addr : list Z) : W :=
  fun w =>
    if bool_decide (wpa_group_state (grp w) = WPA_GROUP_FATAL_FAILURE) then w
    else
      ask o_oom (fun oom w =>
        if oom then w
        else
          let all := stored w in
          (stas ::= all ++ [new_sta addr] ;;
           me ::= new_sta addr ;;
           idx ::= length all)%cmd w) w.

Definition wpa_auth_sta_associated : W :=
  fun w =>
    if conf_wpa (conf w) =? 0 then w
    else if started (me w) then
      (me ∷ key_replay ::= replay_zero ;;
       me ∷ ReAuthenticationRequest ::= true ;;
       wpa_sm_step)%cmd w
    else
      (me ∷ started ::= true ;;
       me ∷ Init ::= true ;;
       wpa_sm_step ;;
       WHEN (fun w => negb (freed (me w)))
         DO (me ∷ Init ::= false ;;
             me ∷ AuthenticationRequest ::= true ;;
             wpa_sm_step))%cmd w.

Definition wpa_auth_sta_no_wpa : W := (me ∷ wpa_key_mgmt ::= 0)%cmd.

(** The station leaves the list of stations first ([ap_free_sta]). *)
Definition wpa_auth_sta_deinit : W :=
  (me ∷ listed ::= false ;;
   WHEN (fun w => wpa_strict_rekey (conf w) && has_GTK (me w)) DO (cancel_gtk ;; register_gtk 0 500000) ;;
   cancel_me wpa_send_eapol_timeout_h ;;
   me ∷ pending_1_of_4_timeout ::= false ;;
   cancel_call_step ;;
   cancel_me wpa_rekey_ptk_h ;;
   IF (fun w => in_step_loop (me w)) THEN (me ∷ pending_deinit ::= true) ELSE wpa_free_sta_sm)%cmd.

Definition wpa_auth_eapol_key_tx_status (ack : bool) : W :=
  (WHEN (fun w => pending_1_of_4_timeout (me w) && ack)
     DO (cancel_me wpa_send_eapol_timeout_h ;; register_ms eapol_key_timeout_subseq))%cmd.

(** *** Michael MIC failures (tkip_countermeasures.c) *)

Definition os_reltime_expired (now ts : os_reltime) (timeout_secs : Z) : bool :=
  let age := os_reltime_sub now ts in
  (timeout_secs <? sec age) || ((sec age =? timeout_secs) && (0 <? usec age)).

Definition ieee80211_tkip_countermeasures_stop : W :=
  (tkip_countermeasures ::= false ;; told (w_countermeasures false))%cmd.

Definition ieee80211_tkip_countermeasures_start : W :=
  (CounterMeasuresInvoked <~ (fun w => CounterMeasuresInvoked w + 1) ;;
   tkip_countermeasures ::= true ;;
   told (w_countermeasures true) ;;
   wpa_gtk_rekey ;;
   lp <~ (fun w => snd (eloop_cancel_timeout ieee80211_tkip_countermeasures_stop_h 0 0 (lp w))) ;;
   lp <~ (fun w => eloop_register_timeout 60 0 ieee80211_tkip_countermeasures_stop_h 0 0 (lp w)) ;;
   for_each_sta (told_me w_disconnect ;; wpa_auth_sta_deinit))%cmd.

(** [michael_mic_failure] for a report that is not [local]; the result
    tells whether the stations have been removed. *)
Definition michael_mic_failure (k : bool -> W) : W :=
  fun w =>
    let t := now (lp w) in
    let stamp := (michael_mic_failure_time ::= t)%cmd in
    if os_reltime_expired t (michael_mic_failure_time w) 60
    then (michael_mic_failures ::= 1 ;; stamp ;; k false)%cmd w
    else
      (michael_mic_failures <~ (fun w => michael_mic_failures w + 1) ;;
       fun w =>
         if 1 <? michael_mic_failures w
         then (ieee80211_tkip_countermeasures_start ;; stamp ;; k true)%cmd w
         else (stamp ;; k false)%cmd w)%cmd w.

(** *** Received EAPOL-Key frames *)

Inductive key_msg := PAIRWISE_2 | PAIRWISE_4 | GROUP_2 | REQUEST | SMK_M1 | SMK_M3 | SMK_ERROR.
#[local] Instance key_msg_eq_dec : EqDecision key_msg.
Proof. solve_decision. Defined.

(** [n] octets from the offset [i], all of them inside. *)
Definition rd_slice (l : list Z) (i n : Z) : option (list Z) :=
  if (0 <=? i) && (0 <=? n) && (i + n <=? zlen l) then Some (slice l i n) else None.
Definition rd_be16 (l : list Z) (i : Z) : option Z :=
  let? a := rd l i in let? b := rd l (i + 1) in Some (Z.lor (Z.shiftl a 8) b).

(** The fields of the frame [wpa_receive] reads. *)
Record eapol_key := mk_key {
  kf_type : Z;
  kf_info : Z;
  kf_replay : list Z;
  kf_nonce : list Z;
  kf_data_length : Z
}.
Definition read_key (mic_len : Z) (d : list Z) : option eapol_key :=
  let? type := rd d off_key in
  let? info := rd_be16 d off_key_info in
  let? replay := rd_slice d off_replay_counter (Z.of_nat WPA_REPLAY_COUNTER_LEN) in
  let? nonce := rd_slice d off_key_nonce (Z.of_nat WPA_NONCE_LEN) in
  let? len := rd_be16 d (off_key_data_length mic_len) in
  Some (mk_key type info replay nonce len).

Definition key_type_ok (s : wpa_sm) (type : Z) : bool :=
  if bool_decide (wpa s = WPA_VERSION_WPA2)
  then (type =? EAPOL_KEY_TYPE_WPA) || (type =? EAPOL_KEY_TYPE_RSN)
  else type =? EAPOL_KEY_TYPE_WPA.

Definition classify (key_info key_data_length : Z) : key_msg :=
  if has_bits key_info WPA_KEY_INFO_SMK_MESSAGE && has_bits key_info WPA_KEY_INFO_REQUEST
  then (if has_bits key_info WPA_KEY_INFO_ERROR then SMK_ERROR else SMK_M1)
  else if has_bits key_info WPA_KEY_INFO_SMK_MESSAGE then SMK_M3
  else if has_bits key_info WPA_KEY_INFO_REQUEST then REQUEST
  else if negb (has_bits key_info WPA_KEY_INFO_KEY_TYPE) then GROUP_2
  else if key_data_length =? 0 then PAIRWISE_4
  else PAIRWISE_2.

(** The descriptor version that the cipher and the key management demand. *)
Definition version_ok (s : wpa_sm) (ver : Z) : bool :=
  let ccmp := (pairwise s =? WPA_CIPHER_CCMP) || (pairwise s =? WPA_CIPHER_GCMP) in
  let suite_b := wpa_key_mgmt_suite_b (wpa_key_mgmt s) in
  negb (ccmp &&
        (wpa_use_aes_cmac s && negb (wpa_key_mgmt s =? WPA_KEY_MGMT_OSEN) && negb suite_b &&
         negb (ver =? WPA_KEY_INFO_TYPE_AES_128_CMAC)
         || negb (wpa_use_aes_cmac s) && negb (ver =? WPA_KEY_INFO_TYPE_HMAC_SHA1_AES))) &&
  negb (suite_b && negb (ver =? WPA_KEY_INFO_TYPE_AKM_DEFINED)).
Definition checks_version (m : key_msg) : bool :=
  match m with REQUEST | PAIRWISE_2 | PAIRWISE_4 | GROUP_2 => true | _ => false end.

(** [memcmp(a, b) <= 0] *)
Definition memle (a b : list Z) : bool := negb (memlt b a).

(** The replay counter; [k] is [continue_processing]. *)
Definition check_replay (m : key_msg) (f : eapol_key) (k : W) : W :=
  fun w =>
    let s := me w in
    let negotiating := bool_decide (wpa_ptk_state s = WPA_PTK_PTKINITNEGOTIATING) in
    if has_bits (kf_info f) WPA_KEY_INFO_REQUEST then
      if req_replay_counter_used s && memle (kf_replay f) (req_replay_counter s) then w else k w
    else if wpa_replay_counter_valid (key_replay s) (kf_replay f) then k w
    else if bool_decide (m = PAIRWISE_2) && wpa_replay_counter_valid (prev_key_replay s) (kf_replay f) &&
            negotiating && negb (bool_decide (SNonce s = kf_nonce f))
    then
      (me ∷ update_snonce ::= true ;;
       me ∷ alt_SNonce <~ (fun w => SNonce (me w)) ;;
       me ∷ alt_snonce_valid ::= true ;;
       me ∷ alt_replay_counter <~ (fun w => match key_replay (me w) with (c, _) :: _ => c | [] => [] end) ;;
       k)%cmd w
    else if bool_decide (m = PAIRWISE_4) && alt_snonce_valid s && negotiating &&
            bool_decide (kf_replay f = alt_replay_counter s)
    then k w
    else w.

(** The element of message 2/4 that is compared with the association's. *)
Definition eapol_key_ie (kd : list Z) (kde : wpa_eapol_ie_parse) : option (list Z) :=
  match k_rsn_ie kde, k_osen kde with
  | Some a, _ => area kd (Some a)
  | None, Some a => area kd (Some a)
  | None, None => area kd (k_wpa_ie kde)
  end.

Definition check_2of4 (kd : list Z) (k : W) : W :=
  fun w =>
    let s := me w in
    if negb (bool_decide (wpa_ptk_state s = WPA_PTK_PTKSTART)) &&
       negb (bool_decide (wpa_ptk_state s = WPA_PTK_PTKCALCNEGOTIATING)) &&
       (negb (update_snonce s) || negb (bool_decide (wpa_ptk_state s = WPA_PTK_PTKINITNEGOTIATING)))
    then w
    else if reject_4way_hs_for_entropy (grp w) then wpa_sta_disconnect wpa_sm_step w
    else
      match wpa_parse_kde_ies kd with
      | None => (fault ::= true)%cmd w
      | Some (res, kde) =>
          if res <? 0 then w
          else if negb (wpa_compare_rsn_ie (wpa_ie s) (eapol_key_ie kd kde))
          then wpa_sta_disconnect wpa_sm_step w
          else k w
      end.

(** [switch (msg)]; SMK messages are for builds with CONFIG_PEERKEY. *)
Definition check_msg (m : key_msg) (kd : list Z) (k : W) : W :=
  fun w =>
    let s := me w in
    match m with
    | PAIRWISE_2 => check_2of4 kd k w
    | PAIRWISE_4 =>
        if bool_decide (wpa_ptk_state s = WPA_PTK_PTKINITNEGOTIATING) && PTK_valid s then k w else w
    | GROUP_2 =>
        if bool_decide (wpa_ptk_group_state s = WPA_PTK_GROUP_REKEYNEGOTIATING) && PTK_valid s then k w else w
    | SMK_M1 | SMK_M3 | SMK_ERROR => w
    | REQUEST => k w
    end.

(** [true] is the result 0. *)
Definition wpa_try_alt_snonce (d : list Z) (w : world) : option world :=
  match find_pmk w (alt_SNonce (me w)) d with
  | None => None
  | Some pmk =>
      Some ((me ∷ alt_snonce_valid ::= false ;;
             me ∷ SNonce <~ (fun w => alt_SNonce (me w)) ;;
             me ∷ PTK ::= wpa_derive_ptk w (alt_SNonce (me w)) pmk ;;
             me ∷ PTK_valid ::= true)%cmd w)
  end.

Definition mic_verified : W :=
  (me ∷ MICVerified ::= true ;;
   cancel_me wpa_send_eapol_timeout_h ;;
   me ∷ pending_1_of_4_timeout ::= false)%cmd.

Definition check_mic (m : key_msg) (d : list Z) (k : W) : W :=
  (me ∷ MICVerified ::= false ;;
   fun w =>
     let s := me w in
     if PTK_valid s && negb (update_snonce s) then
       if wpa_verify_key_mic (wpa_key_mgmt s) (PTK s) d then (mic_verified ;; k)%cmd w
       else if bool_decide (m = PAIRWISE_4) && alt_snonce_valid s then
         match wpa_try_alt_snonce d w with
         | Some w => (mic_verified ;; k)%cmd w
         | None => w
         end
       else w
     else k w)%cmd.

(** [wpa_receive_error_report]; [k] is called unless the station is gone. *)
Definition wpa_receive_error_report (group : bool) (k : W) : W :=
  fun w =>
    let cipher := if group then wpa_group_cipher (conf w) else pairwise (me w) in
    if negb (cipher =? WPA_CIPHER_TKIP) then (wpa_request_new_ptk ;; k)%cmd w
    else
      michael_mic_failure (fun removed =>
        if removed then skip
        else
          (me ∷ RemoteMICFailures <~ (fun w => RemoteMICFailures (me w) + 1) ;;
           TKIPRemoteMICFailures <~ (fun w => TKIPRemoteMICFailures w + 1) ;;
           wpa_request_new_ptk ;; k)%cmd) w.

(** A request of the station, whose MIC must have been verified. *)
Definition process_request (f : eapol_key) (kd : list Z) (k : W) : W :=
  fun w =>
    if negb (MICVerified (me w)) then w
    else
      (me ∷ req_replay_counter_used ::= true ;;
       me ∷ req_replay_counter ::= kf_replay f ;;
       fun w =>
         let rekey := (cancel_gtk ;; wpa_rekey_gtk ;; k)%cmd in
         let pairwise := has_bits (kf_info f) WPA_KEY_INFO_KEY_TYPE in
         if has_bits (kf_info f) WPA_KEY_INFO_ERROR then wpa_receive_error_report (negb pairwise) k w
         else if pairwise then (wpa_request_new_ptk ;; k)%cmd w
         else if 0 <? kf_data_length f then
           match wpa_parse_kde_ies kd with
           | None => (fault ::= true)%cmd w
           | Some (res, kde) => if (res =? 0) && non_null (k_mac_addr kde) then k w else rekey w
           end
         else rekey w)%cmd w.

(** A response: its counter cannot be used again. *)
Definition process_response (m : key_msg) (f : eapol_key) : W :=
  (me ∷ key_replay <~ (fun w => wpa_replay_counter_mark_invalid (key_replay (me w)) (Some (kf_replay f))) ;;
   (if bool_decide (m = PAIRWISE_2)
    then me ∷ prev_key_replay <~ (fun w => key_replay (me w))
    else me ∷ prev_key_replay ::= replay_zero) ;;
   me ∷ key_replay <~ (fun w => wpa_replay_counter_mark_invalid (key_replay (me w)) None))%cmd.

(** The frame is kept, and the machines are told. *)
Definition deliver (f : eapol_key) (d : list Z) : W :=
  (me ∷ last_rx_eapol_key ::= None ;;
   ask o_oom (fun oom =>
     if oom then skip
     else
       (me ∷ last_rx_eapol_key ::= Some d ;;
        me ∷ last_rx_eapol_key_len ::= zlen d ;;
        me ∷ rx_eapol_key_secure ::= has_bits (kf_info f) WPA_KEY_INFO_SECURE ;;
        me ∷ EAPOLKeyReceived ::= true ;;
        me ∷ EAPOLKeyPairwise ::= has_bits (kf_info f) WPA_KEY_INFO_KEY_TYPE ;;
        me ∷ EAPOLKeyRequest ::= has_bits (kf_info f) WPA_KEY_INFO_REQUEST ;;
        me ∷ SNonce ::= kf_nonce f ;;
        wpa_sm_step)%cmd))%cmd.

Definition receive_checked (m : key_msg) (f : eapol_key) (kd d : list Z) : W :=
  check_replay m f
    (check_msg m kd
       (fun w =>
          if has_bits (kf_info f) WPA_KEY_INFO_ACK then w
          else if negb (has_bits (kf_info f) WPA_KEY_INFO_MIC) then w
          else
            check_mic m d
              (if has_bits (kf_info f) WPA_KEY_INFO_REQUEST
               then process_request f kd (deliver f d)
               else (process_response m f ;; deliver f d))%cmd w)).

Definition wpa_receive (d : list Z) : W :=
  fun w =>
    let s := me w in
    let mic_len := wpa_mic_len (wpa_key_mgmt s) in
    let hdrs := off_key + sizeof_wpa_eapol_key mic_len in
    if conf_wpa (conf w) =? 0 then w
    else if zlen d <? hdrs then w
    else
      match read_key mic_len d with
      | None => (fault ::= true)%cmd w
      | Some f =>
          if zlen d - hdrs <? kf_data_length f then w
          else if negb (key_type_ok s (kf_type f)) then w
          else
            match rd_slice d (off_key_data mic_len) (kf_data_length f) with
            | None => (fault ::= true)%cmd w
            | Some kd =>
                let m := classify (kf_info f) (kf_data_length f) in
                if checks_version m && negb (version_ok s (Z.land (kf_info f) WPA_KEY_INFO_TYPE_MASK)) then w
                else receive_checked m f kd d w
            end
      end.

(** *** Association (wpa_auth_ie.c) *)

Inductive wpa_ie_result :=
  | WPA_IE_OK | WPA_INVALID_IE | WPA_INVALID_GROUP | WPA_INVALID_PAIRWISE | WPA_INVALID_AKMP
  | WPA_NOT_ENABLED | WPA_ALLOC_FAIL | WPA_MGMT_FRAME_PROTECTION_VIOLATION | WPA_INVALID_MGMT_GROUP_CIPHER
  | WPA_INVALID_MDIE | WPA_INVALID_PROTO.

(** The selectors of the MIB; a suite that is not known counts as [dflt]. *)
Definition mib_cipher (proto cipher dflt : Z) : Z :=
  let sel := wpa_cipher_to_suite proto cipher in if sel =? 0 then dflt else sel.
Definition rsn_akm_selector : Z -> Z :=
  first_bit
    [(WPA_KEY_MGMT_IEEE8021X_SUITE_B_192, RSN_AUTH_KEY_MGMT_802_1X_SUITE_B_192);
     (WPA_KEY_MGMT_IEEE8021X_SUITE_B, RSN_AUTH_KEY_MGMT_802_1X_SUITE_B);
     (WPA_KEY_MGMT_IEEE8021X_SHA256, RSN_AUTH_KEY_MGMT_802_1X_SHA256);
     (WPA_KEY_MGMT_PSK_SHA256, RSN_AUTH_KEY_MGMT_PSK_SHA256);
     (WPA_KEY_MGMT_IEEE8021X, RSN_AUTH_KEY_MGMT_UNSPEC_802_1X);
     (WPA_KEY_MGMT_PSK, RSN_AUTH_KEY_MGMT_PSK_OVER_802_1X)] RSN_AUTH_KEY_MGMT_UNSPEC_802_1X.
Definition wpa_akm_selector : Z -> Z :=
  first_bit
    [(WPA_KEY_MGMT_IEEE8021X, WPA_AUTH_KEY_MGMT_UNSPEC_802_1X);
     (WPA_KEY_MGMT_PSK, WPA_AUTH_KEY_MGMT_PSK_OVER_802_1X)] WPA_AUTH_KEY_MGMT_UNSPEC_802_1X.

(** The suite that is used when several are common. *)
Definition pick_key_mgmt : Z -> Z :=
  first_bit
    (map (fun c => (c, c))
       [WPA_KEY_MGMT_IEEE8021X_SUITE_B_192; WPA_KEY_MGMT_IEEE8021X_SUITE_B; WPA_KEY_MGMT_IEEE8021X_SHA256;
        WPA_KEY_MGMT_PSK_SHA256; WPA_KEY_MGMT_IEEE8021X]) WPA_KEY_MGMT_PSK.

Definition parse_element (version : Z) (ie : list Z) (k : Z -> wpa_ie_data -> W) : W :=
  let rsn := version =? WPA_PROTO_RSN in
  match (if rsn then wpa_parse_wpa_ie_rsn ie else wpa_parse_wpa_ie_wpa ie) with
  | None => (fault ::= true)%cmd
  | Some (res, d) =>
      (AuthenticationSuiteSelected ::= (if rsn then rsn_akm_selector else wpa_akm_selector) (d_key_mgmt d) ;;
       PairwiseCipherSelected ::=
         mib_cipher version (d_pairwise d) (if rsn then RSN_CIPHER_SUITE_CCMP else RSN_CIPHER_SUITE_TKIP) ;;
       GroupCipherSelected ::=
         mib_cipher version (d_group d) (if rsn then RSN_CIPHER_SUITE_CCMP else WPA_CIPHER_SUITE_TKIP) ;;
       k res d)%cmd
  end.

(** Management frame protection, required by the configuration: an error. *)
Definition mfp_violation (cf : wpa_auth_config) (d : wpa_ie_data) (ciphers : Z) : option wpa_ie_result :=
  if negb (bool_decide (ieee80211w cf = MGMT_FRAME_PROTECTION_REQUIRED)) then None
  else if negb (has_bits (d_capabilities d) WPA_CAPABILITY_MFPC) then Some WPA_MGMT_FRAME_PROTECTION_VIOLATION
  else if has_bits ciphers WPA_CIPHER_TKIP then Some WPA_MGMT_FRAME_PROTECTION_VIOLATION
  else if negb (d_mgmt_group d =? group_mgmt_cipher cf) then Some WPA_INVALID_MGMT_GROUP_CIPHER
  else None.

(** [pmksa_cache_auth_get] *)
Definition pmksa_cache_auth_get (cache : list (list Z * wpa_pmksa)) (spa pmkid : list Z) : option wpa_pmksa :=
  option_map snd (List.find (fun '(a, e) => bool_decide (a = spa) && bool_decide (pmksa_pmkid e = pmkid)) cache).

(** The cache entry of the first PMKID that has one. *)
Fixpoint find_pmksa (cache : list (list Z * wpa_pmksa)) (spa ie : list Z) (pos : Z) (n : nat)
    : option (option wpa_pmksa) :=
  match n with
  | 0%nat => Some None
  | Datatypes.S n =>
      let? id := rd_slice ie pos (Z.of_nat PMKID_LEN) in
      match pmksa_cache_auth_get cache spa id with
      | Some e => Some (Some e)
      | None => find_pmksa cache spa ie (pos + Z.of_nat PMKID_LEN) n
      end
  end.

(** A longer element needs new memory; a shorter one takes the old. *)
Definition store_wpa_ie (ie : list Z) (k : wpa_ie_result -> W) : W :=
  fun w =>
    if match wpa_ie (me w) with None => true | Some old => zlen old <? zlen ie end then
      (me ∷ wpa_ie ::= None ;;
       ask o_oom (fun oom =>
         if oom then k WPA_ALLOC_FAIL else me ∷ wpa_ie ::= Some ie ;; k WPA_IE_OK))%cmd w
    else (me ∷ wpa_ie ::= Some ie ;; k WPA_IE_OK)%cmd w.

Definition wpa_validate_wpa_ie (ie : list Z) (k : wpa_ie_result -> W) : W :=
  match rd ie 0 with
  | None => k WPA_INVALID_IE
  | Some id =>
      let version := if id =? WLAN_EID_RSN then WPA_PROTO_RSN else WPA_PROTO_WPA in
      fun w =>
        if negb (has_bits (conf_wpa (conf w)) version) then k WPA_INVALID_PROTO w
        else
          parse_element version ie (fun res d w =>
            let cf := conf w in
            let key_mgmt := Z.land (d_key_mgmt d) (conf_key_mgmt cf) in
            let ciphers := Z.land (d_pairwise d)
              (if version =? WPA_PROTO_RSN then rsn_pairwise cf else wpa_pairwise cf) in
            if negb (res =? 0) then k WPA_INVALID_IE w
            else if negb (d_group d =? wpa_group_cipher cf) then k WPA_INVALID_GROUP w
            else if key_mgmt =? 0 then k WPA_INVALID_AKMP w
            else
              (me ∷ wpa_key_mgmt ::= pick_key_mgmt key_mgmt ;;
               if ciphers =? 0 then k WPA_INVALID_PAIRWISE
               else
                 match mfp_violation cf d ciphers with
                 | Some e => k e
                 | None =>
                     me ∷ mgmt_frame_prot ::= uses_mfp cf && has_bits (d_capabilities d) WPA_CAPABILITY_MFPC ;;
                     me ∷ pairwise ::= wpa_pick_pairwise_cipher ciphers ;;
                     if wpa_pick_pairwise_cipher ciphers <? 0 then k WPA_INVALID_PAIRWISE
                     else
                       me ∷ wpa ::= (if id =? WLAN_EID_RSN then WPA_VERSION_WPA2 else WPA_VERSION_WPA) ;;
                       fun w =>
                         match find_pmksa (pmksa_cache w) (sm_addr (me w)) ie (default 0 (d_pmkid d))
                                 (Z.to_nat (d_num_pmkid d)) with
                         | None => (fault ::= true)%cmd w
                         | Some e =>
                             (me ∷ pmksa ::= e ;;
                              (match e with Some e => PMKIDUsed ::= pmksa_pmkid e | None => skip end) ;;
                              store_wpa_ie ie k)%cmd w
                         end
                 end)%cmd w) w
  end.

(** *** Events *)

(** What can happen to the authenticator: calls from the rest of hostapd, each
    about the station with a number, and timeouts.  [EvEnv] changes what the
    callbacks answer about a station. *)
Inductive wpa_ev :=
  | EvInitKeys
  | EvReconfig (cf : wpa_auth_config)
  | EvReconfigKeys
  | EvCache (cache : list (list Z * wpa_pmksa))
  | EvStaInit (addr : list Z)
  | EvEnv (i : nat) (new_psks : list (list Z)) (new_msk : option (list Z)) (eapol run avail : bool)
  | EvValidate (i : nat) (ie : list Z)
  | EvNoWpa (i : nat)
  | EvClearPmksa (i : nat)
  | EvAssociated (i : nat)
  | EvSm (i : nat) (event : wpa_event)
  | EvNotify (i : nat)
  | EvRemovePtk (i : nat)
  | EvReceive (i : nat) (d : list Z)
  | EvTxStatus (i : nat) (ack : bool)
  | EvMicFailure
  | EvDeinit (i : nat)
  | EvClock (usecs : Z)
  | EvTimeout.

(** A station that is in the list. *)
Definition on (i : nat) (c : W) : W :=
  fun w =>
    if (i <? length (stas w))%nat then
      let w := focus i w in if listed (me w) && negb (freed (me w)) then c w else w
    else w.

(** The station a timeout's context is about. *)
Definition ctx_sta (c : Z) : nat := Z.to_nat (c - 1).

Definition run_handler (t : eloop_timeout wpa_handler) : W :=
  match handler t with
  | wpa_send_eapol_timeout_h => on (ctx_sta (user_ctx t)) wpa_send_eapol_timeout
  | wpa_rekey_ptk_h => on (ctx_sta (user_ctx t)) wpa_rekey_ptk
  | wpa_sm_call_step_h => on (ctx_sta (eloop_ctx t)) wpa_sm_call_step
  | wpa_rekey_gtk_h => wpa_rekey_gtk
  | wpa_rekey_gmk_h => wpa_rekey_gmk
  | ieee80211_tkip_countermeasures_stop_h => ieee80211_tkip_countermeasures_stop
  end.

Definition wpa_event_step (e : wpa_ev) : W :=
  match e with
  | EvInitKeys => wpa_init_keys
  | EvReconfig cf => wpa_reconfig cf
  | EvReconfigKeys => wpa_auth_reconfig_group_keys
  | EvCache cache => (pmksa_cache ::= cache)%cmd
  | EvStaInit addr => wpa_auth_sta_init addr
  | EvEnv i new_psks new_msk eapol run avail =>
      on i (me ∷ psks ::= new_psks ;; me ∷ msk ::= new_msk ;; me ∷ has_eapol_sm ::= eapol ;;
            me ∷ keyRun ::= run ;; me ∷ keyAvailable ::= avail)%cmd
  | EvValidate i ie => on i (wpa_validate_wpa_ie ie (fun _ => skip))
  | EvNoWpa i => on i wpa_auth_sta_no_wpa
  | EvClearPmksa i => on i (me ∷ pmksa ::= None)%cmd
  | EvAssociated i => on i wpa_auth_sta_associated
  | EvSm i event => on i (wpa_auth_sm_event wpa_sm_step event)
  | EvNotify i => on i wpa_auth_sm_notify
  | EvRemovePtk i => on i wpa_remove_ptk
  | EvReceive i d => on i (wpa_receive d)
  | EvTxStatus i ack => on i (wpa_auth_eapol_key_tx_status ack)
  | EvMicFailure => michael_mic_failure (fun _ => skip)
  | EvDeinit i => on i wpa_auth_sta_deinit
  | EvClock usecs =>
      (lp <~ (fun w => eloop_step (OpTick usecs) (lp w)))%cmd
  | EvTimeout => fun w =>
      match eloop_run_timeout (lp w) with
      | None => w
      | Some (t, e) => run_handler t ((lp ::= e)%cmd w)
      end
  end.

Definition wpa_run (es : list wpa_ev) (w : world) : world := fold_left (fun w e => wpa_event_step e w) es w.

End operations.
