(* ===== verification/WpaElements.v ===== *)
(** * The WPA and RSN elements and the Key Data field: properties

    No element or Key Data field that comes from a station makes its parser
    read outside it, and what a parser points to lies inside; an element
    written from a configuration is read back as that configuration; what
    association settles on is something the configuration allows; and the
    group key goes through the encrypted Key Data field unchanged. *)

From Stdlib Require Import String.
From S2P Require Import Prelude.
From S2P Require Import Eloop.
From S2P Require Import Wpabuf.
From S2P Require Import Common.
From S2P Require Import Aes.
From S2P Require Import Hash.
From S2P Require Import WpaCommon.
From S2P Require Import WpaIe.
From S2P Require Import WpaAuth.

(** ** Reads *)

Lemma rd_byte l i v : bytes l -> rd l i = Some v -> byte v.
Proof.
  unfold bytes, rd. rewrite Forall_lookup. intros H. destruct (0 <=? i); [|done]. apply H.
Qed.

Lemma selector_some buf i : 0 <= i -> i + 4 <= zlen buf -> exists v, selector_get buf i = Some v.
Proof.
  intros H1 H2. unfold selector_get.
  destruct (rd_some buf i) as [? ->]; [lia|]. destruct (rd_some buf (i + 1)) as [? ->]; [lia|].
  destruct (rd_some buf (i + 2)) as [? ->]; [lia|]. destruct (rd_some buf (i + 3)) as [? ->]; [lia|]. by eexists.
Qed.
Lemma le16_some buf i : bytes buf -> 0 <= i -> i + 2 <= zlen buf -> exists v, rd_le16 buf i = Some v /\ 0 <= v.
Proof.
  intros Hb H1 H2. unfold rd_le16.
  destruct (rd_some buf i) as [a Ea]; [lia|]. destruct (rd_some buf (i + 1)) as [b Eb]; [lia|]. rewrite Ea, Eb.
  eexists; split; [done|]. apply Z.lor_nonneg. pose proof (rd_byte _ _ _ Hb Ea) as [? _].
  pose proof (rd_byte _ _ _ Hb Eb) as [? _]. split; [by apply Z.shiftl_nonneg|done].
Qed.

(** ** Elements *)

Section elements.
Context (buf : list Z) (Hb : bytes buf).

(** The PMKIDs lie inside the element. *)
Definition pmkids_inside (d : wpa_ie_data) : Prop :=
  0 <= d_num_pmkid d /\
  match d_pmkid d with
  | None => d_num_pmkid d = 0
  | Some p => 0 <= p /\ p + Z.of_nat PMKID_LEN * d_num_pmkid d <= zlen buf
  end.
Definition fine (r : parsed) : Prop := exists res d, r = Some (res, d) /\ pmkids_inside d.
Definition fine_at (k : Z -> Z -> wpa_ie_data -> parsed) : Prop :=
  forall pos left d, 0 <= pos -> 0 <= left -> pos + left = zlen buf -> pmkids_inside d -> fine (k pos left d).

Lemma fine_stop res d : pmkids_inside d -> fine (Some (res, d)).
Proof. intros H. by exists res, d. Qed.

Lemma read_suites_some f count pos acc : 0 <= pos -> pos + 4 * Z.of_nat count <= zlen buf ->
  exists v, read_suites f count buf pos acc = Some v.
Proof.
  revert pos acc; induction count as [|n IH]; intros pos acc H1 H2; [by eexists|]. cbn [read_suites].
  destruct (selector_some buf pos) as [v ->]; [lia|lia|]. apply IH; unfold RSN_SELECTOR_LEN; lia.
Qed.

Lemma div_le a b c : 0 < b -> ~ (a / b < c) -> b * c <= a.
Proof. intros Hp H. pose proof (Z.mul_div_le a b Hp). nia. Qed.

Lemma parse_list_fine f botch short put k :
  (forall v d, pmkids_inside d -> pmkids_inside (put v d)) -> fine_at k ->
  fine_at (fun pos left d => parse_list f botch short put buf pos left d k).
Proof.
  intros Hput Hk pos left d H1 H2 H3 Hd. unfold parse_list. destruct (Z.leb_spec 2 left).
  2:{ destruct (left =? 1); [by apply fine_stop|by apply Hk]. }
  destruct (le16_some buf pos Hb) as (n & -> & Hn); [lia|lia|].
  destruct (_ || _) eqn:E; [apply fine_stop; by apply Hput|]. apply orb_false_elim in E as [_ E].
  apply Z.ltb_ge in E. pose proof (div_le (left - 2) RSN_SELECTOR_LEN n ltac:(reflexivity) ltac:(lia)) as Hle.
  unfold RSN_SELECTOR_LEN in *. destruct (read_suites_some f (Z.to_nat n) (pos + 2) 0) as [v ->]; [lia|lia|].
  apply Hk; [lia|lia|lia|by apply Hput].
Qed.

Lemma capabilities_fine k : fine_at k -> fine_at (fun pos left d => parse_capabilities buf pos left d k).
Proof.
  intros Hk pos left d H1 H2 H3 Hd. unfold parse_capabilities. destruct (Z.leb_spec 2 left); [|by apply Hk].
  destruct (le16_some buf pos Hb) as (n & -> & Hn); [lia|lia|]. apply Hk; [lia|lia|lia|exact Hd].
Qed.

Lemma pmkids_fine k : fine_at k -> fine_at (fun pos left d => parse_pmkids buf pos left d k).
Proof.
  intros Hk pos left d H1 H2 H3 Hd. unfold parse_pmkids. destruct (Z.leb_spec 2 left); [|by apply Hk].
  destruct (le16_some buf pos Hb) as (n & -> & Hn); [lia|lia|].
  destruct (Z.ltb_spec ((left - 2) / Z.of_nat PMKID_LEN) n) as [|E]; [by apply fine_stop|].
  pose proof (div_le (left - 2) (Z.of_nat PMKID_LEN) n ltac:(reflexivity) ltac:(lia)) as Hle.
  change (Z.of_nat PMKID_LEN) with 16 in *.
  apply Hk; [lia|lia|lia|]. split; [exact Hn|]. cbn [d_pmkid setter]. change (d_num_pmkid _) with n.
  change (0 <= pos + 2 /\ pos + 2 + 16 * n <= zlen buf). lia.
Qed.

Lemma mgmt_group_fine : fine_at (parse_mgmt_group buf).
Proof.
  intros pos left d H1 H2 H3 Hd. unfold parse_mgmt_group. destruct (Z.leb_spec 4 left); [|by apply fine_stop].
  destruct (selector_some buf pos) as [v ->]; [lia|lia|]. cbv zeta. destruct (negb _); apply fine_stop; exact Hd.
Qed.

Lemma rsn_suites_fine : fine_at (parse_rsn_suites buf).
Proof.
  assert (Rest : fine_at (fun pos left d =>
    parse_list rsn_selector_to_bitfield (-4) (-5) put_pairwise buf pos left d (fun pos left d =>
      if has_bits (d_pairwise d) WPA_CIPHER_AES_128_CMAC then Some (-1, d)
      else
        parse_list rsn_key_mgmt_to_bitfield (-6) (-7) put_key_mgmt buf pos left d (fun pos left d =>
        parse_capabilities buf pos left d (fun pos left d =>
        parse_pmkids buf pos left d (fun pos left d =>
        parse_mgmt_group buf pos left d)))))).
  { apply parse_list_fine; [by intros|]. intros pos left d H1 H2 H3 Hd. destruct (has_bits _ _); [by apply fine_stop|].
    revert pos left d H1 H2 H3 Hd. apply (parse_list_fine _ (-6) (-7)); [by intros|].
    apply capabilities_fine, pmkids_fine, mgmt_group_fine. }
  intros pos left d H1 H2 H3 Hd. unfold parse_rsn_suites. cbv zeta. unfold RSN_SELECTOR_LEN in *.
  destruct (Z.leb_spec 4 left).
  - destruct (selector_some buf pos) as [v ->]; [lia|lia|]. destruct (negb _); [apply fine_stop; exact Hd|].
    apply Rest; [lia|lia|lia|exact Hd].
  - destruct (0 <? left); [by apply fine_stop|by apply Rest].
Qed.

Lemma wpa_suites_fine : fine_at (parse_wpa_suites buf).
Proof.
  assert (Rest : fine_at (fun pos left d =>
    parse_list wpa_selector_to_bitfield (-4) (-5) put_pairwise buf pos left d (fun pos left d =>
    parse_list wpa_key_mgmt_to_bitfield (-6) (-7) put_key_mgmt buf pos left d (fun pos left d =>
    parse_capabilities buf pos left d (fun pos left d => Some (0, d)))))).
  { apply parse_list_fine; [by intros|]. apply parse_list_fine; [by intros|]. apply capabilities_fine.
    intros pos left d _ _ _ Hd. by apply fine_stop. }
  intros pos left d H1 H2 H3 Hd. unfold parse_wpa_suites. cbv zeta. unfold RSN_SELECTOR_LEN in *.
  destruct (Z.leb_spec 4 left).
  - destruct (selector_some buf pos) as [v ->]; [lia|lia|]. apply Rest; [lia|lia|lia|exact Hd].
  - destruct (0 <? left); [by apply fine_stop|by apply Rest].
Qed.

Lemma defaults_inside : pmkids_inside rsn_defaults /\ pmkids_inside wpa_defaults.
Proof. done. Qed.

Lemma rsn_fine : fine (wpa_parse_wpa_ie_rsn buf).
Proof.
  destruct defaults_inside as [Hd _]. unfold wpa_parse_wpa_ie_rsn. cbv zeta.
  destruct (Z.ltb_spec (zlen buf) 4); [by apply fine_stop|].
  destruct (rd_some buf 0) as [id ->]; [lia|]. destruct (rd_some buf 1) as [elen ->]; [lia|].
  assert (Rest : fine (if negb (id =? WLAN_EID_RSN) || negb (elen =? zlen buf - 2) then Some (-2, rsn_defaults)
    else let? version := rd_le16 buf 2 in
         if negb (version =? RSN_VERSION) then Some (-2, rsn_defaults)
         else parse_rsn_suites buf 4 (zlen buf - 4) rsn_defaults)).
  { destruct (_ || _); [by apply fine_stop|]. destruct (le16_some buf 2 Hb) as (v & -> & _); [lia|lia|].
    destruct (negb _); [by apply fine_stop|]. apply rsn_suites_fine; [lia|lia|lia|done]. }
  destruct ((6 <=? zlen buf) && (4 <=? elen) && (elen =? zlen buf - 2)) eqn:E; [|exact Rest].
  bool_hyps. destruct (selector_some buf 2) as [v ->]; [lia|lia|].
  destruct (v =? OSEN_IE_VENDOR_TYPE); [|exact Rest]. apply rsn_suites_fine; [lia|lia|lia|done].
Qed.

Lemma wpa_fine : fine (wpa_parse_wpa_ie_wpa buf).
Proof.
  destruct defaults_inside as [_ Hd]. unfold wpa_parse_wpa_ie_wpa. cbv zeta.
  destruct (Z.ltb_spec (zlen buf) 8); [by apply fine_stop|].
  destruct (rd_some buf 0) as [id ->]; [lia|]. destruct (rd_some buf 1) as [elen ->]; [lia|].
  destruct (selector_some buf 2) as [oui ->]; [lia|lia|]. destruct (le16_some buf 6 Hb) as (v & -> & _); [lia|lia|].
  destruct (_ || _); [by apply fine_stop|]. apply wpa_suites_fine; [lia|lia|lia|done].
Qed.

Lemma find_pmksa_some cache spa pos n : 0 <= pos -> pos + 16 * Z.of_nat n <= zlen buf ->
  exists e, find_pmksa cache spa buf pos n = Some e.
Proof.
  revert pos; induction n as [|n IH]; intros pos H1 H2; [by eexists|]. cbn [find_pmksa].
  unfold rd_slice. change (Z.of_nat PMKID_LEN) with 16.
  replace ((0 <=? pos) && (0 <=? 16) && (pos + 16 <=? zlen buf)) with true by
    (symmetry; rewrite !andb_true_iff, !Z.leb_le; lia).
  destruct (pmksa_cache_auth_get _ _ _); [by eexists|]. apply IH; lia.
Qed.

(** ** Key Data *)

Definition area_inside (p : option (Z * Z)) : Prop :=
  match p with Some (pos, len) => 0 <= pos /\ 0 <= len /\ pos + len <= zlen buf | None => True end.
Record kde_inside (k : wpa_eapol_ie_parse) : Prop := mk_kde_inside {
  ki_wpa_ie : area_inside (k_wpa_ie k);
  ki_rsn_ie : area_inside (k_rsn_ie k);
  ki_pmkid : forall p, k_pmkid k = Some p -> 0 <= p /\ p + Z.of_nat PMKID_LEN <= zlen buf;
  ki_gtk : area_inside (k_gtk k);
  ki_mac_addr : area_inside (k_mac_addr k);
  ki_igtk : area_inside (k_igtk k);
  ki_osen : area_inside (k_osen k)
}.

Lemma is_selector_some pos ok sel : 0 <= pos -> (ok = true -> pos + 6 <= zlen buf) ->
  exists b, is_selector buf pos ok sel = Some b /\ (b = true -> ok = true).
Proof.
  intros H1 H2. unfold is_selector. destruct ok; [|by eexists].
  destruct (selector_some buf (pos + 2)) as [v ->]; [lia|specialize (H2 eq_refl); lia|]. by eexists.
Qed.

Lemma is_wpa_ie_some pos len : 0 <= pos -> pos + 2 + len <= zlen buf -> exists b, is_wpa_ie buf pos len = Some b.
Proof.
  intros H1 H2. unfold is_wpa_ie.
  destruct (is_selector_some pos (6 <=? len) WPA_OUI_TYPE) as (b & -> & Hok); [done|intros E; bool_hyps; lia|].
  destruct b; [|by eexists]. specialize (Hok eq_refl). bool_hyps.
  destruct (rd_some buf (pos + 2 + 4)) as [v0 ->]; [lia|]. destruct (v0 =? 1); [|by eexists].
  destruct (rd_some buf (pos + 2 + 4 + 1)) as [v1 ->]; [lia|]. by eexists.
Qed.

Lemma generic_inside pos len ie : 0 <= pos -> rd buf (pos + 1) = Some len -> pos + 2 + len <= zlen buf -> kde_inside ie ->
  exists res ie', wpa_parse_generic buf pos (zlen buf) ie = Some (res, ie') /\ kde_inside ie'.
Proof.
  intros H1 Hl H2 Hi. pose proof (rd_byte _ _ _ Hb Hl) as [Hl0 _]. unfold wpa_parse_generic. rewrite Hl. cbv zeta.
  destruct (len =? 0); [by eexists _, _|].
  destruct (is_wpa_ie_some pos len) as [b ->]; [done|done|].
  destruct b; [eexists _, _; split; [done|]; destruct Hi; split; try done; cbn; lia|].
  repeat (match goal with |- context [is_selector buf pos ?ok ?sel] =>
    let b := fresh "b" in let Hok := fresh "Hok" in
    destruct (is_selector_some pos ok sel) as (b & -> & Hok); [done|intros E; bool_hyps; unfold RSN_SELECTOR_LEN in *; lia|];
    destruct b; [specialize (Hok eq_refl); bool_hyps; eexists _, _; split; [done|]; destruct Hi;
      unfold RSN_SELECTOR_LEN in *; split; try done; cbn; try lia; intros ? [= <-]; change (Z.of_nat PMKID_LEN) with 16; lia|] end).
  by eexists _, _.
Qed.

Lemma kde_loop_inside fuel pos ie : 0 <= pos -> kde_inside ie ->
  exists res ie', parse_kde_loop fuel buf pos ie = Some (res, ie') /\ kde_inside ie'.
Proof.
  revert pos ie; induction fuel as [|fuel IH]; intros pos ie H1 Hi; [by eexists _, _|]. cbn [parse_kde_loop].
  destruct (Z.ltb_spec 1 (zlen buf - pos)); [|by eexists _, _].
  destruct (rd_some buf pos) as [id ->]; [lia|]. destruct (rd_some buf (pos + 1)) as [len El]; [lia|]. rewrite El.
  destruct (_ && _); [by eexists _, _|]. destruct (Z.ltb_spec (zlen buf - pos) (2 + len)); [by eexists _, _|].
  pose proof (rd_byte _ _ _ Hb El) as [Hl0 _].
  destruct (id =? WLAN_EID_RSN).
  { apply IH; [lia|]. destruct Hi. split; try done. cbn. lia. }
  destruct (id =? WLAN_EID_VENDOR_SPECIFIC); [|apply IH; [lia|done]].
  destruct (generic_inside pos len ie) as (res & ie' & -> & Hi'); [done|done|lia|done|].
  destruct (res <? 0); [by eexists _, _|]. destruct (0 <? res); [by eexists _, _|]. apply IH; [lia|done].
Qed.

Lemma kde_ies_inside : exists res k, wpa_parse_kde_ies buf = Some (res, k) /\ kde_inside k.
Proof. apply kde_loop_inside; [lia|]. by split. Qed.
End elements.

(** ** Writing and reading *)

Lemma rd_in buf i : 0 <= i < zlen buf -> rd buf i = Some (byte_at buf i).
Proof. intros H. unfold byte_at. by destruct (rd_some buf i H) as [v ->]. Qed.
Lemma rd_at pre a post : rd (pre ++ a :: post) (zlen pre) = Some a.
Proof.
  unfold rd, zlen. destruct (Z.leb_spec 0 (Z.of_nat (length pre))); [|lia]. rewrite Nat2Z.id.
  by rewrite lookup_app_r, Nat.sub_diag by lia.
Qed.

Lemma selector_at pre v post : selector_get (pre ++ WPA_PUT_BE32 v ++ post) (zlen pre) = Some (u32 v).
Proof.
  pose proof (zlen_nonneg pre). pose proof (zlen_nonneg post).
  assert (Hl : zlen (pre ++ WPA_PUT_BE32 v ++ post) = zlen pre + 4 + zlen post).
  { rewrite !zlen_app. change (zlen (WPA_PUT_BE32 v)) with 4. lia. }
  unfold selector_get. rewrite !rd_in by lia. rewrite <- (get_put_be32 pre v post). reflexivity.
Qed.
Lemma le16_at pre v post : rd_le16 (pre ++ WPA_PUT_LE16 v ++ post) (zlen pre) = Some (u16 v).
Proof.
  pose proof (zlen_nonneg pre). pose proof (zlen_nonneg post).
  unfold rd_le16, WPA_PUT_LE16. cbn [app]. rewrite rd_at.
  change (pre ++ ?a :: ?b :: post) with (pre ++ [a] ++ b :: post).
  assert (E : forall a b, rd (pre ++ [a] ++ b :: post) (zlen pre + 1) = Some b).
  { intros a b. rewrite app_assoc. replace (zlen pre + 1) with (zlen (pre ++ [a])) by (rewrite zlen_app; done). apply rd_at. }
  rewrite E. f_equal. rewrite land_ff, shiftl_lor; [|lia|apply mod_byte]. pose proof (u16_range v).
  rewrite Z.shiftr_div_pow2 by lia. change (2 ^ 8) with 256. pose proof (Z.div_mod (u16 v) 256 ltac:(lia)). lia.
Qed.

Lemma octets_at f sels pre post acc : Forall (fun s => 0 <= s < 2 ^ 32) sels ->
  read_suites f (length sels) (pre ++ suite_octets sels ++ post) (zlen pre) acc =
  Some (fold_left (fun a s => Z.lor a (f s)) sels acc).
Proof.
  intros Hs. revert pre acc; induction Hs as [|s sels Hr _ IH]; intros pre acc; [done|].
  cbn [length read_suites fold_left]. change (suite_octets (s :: sels)) with (WPA_PUT_BE32 s ++ suite_octets sels).
  rewrite <- (app_assoc (WPA_PUT_BE32 s)), selector_at, u32_small by done.
  rewrite app_assoc. change RSN_SELECTOR_LEN with (zlen (WPA_PUT_BE32 s)). rewrite <- zlen_app. apply IH.
Qed.
Lemma zlen_octets sels : zlen (suite_octets sels) = 4 * zlen sels.
Proof.
  induction sels as [|s sels IH]; [done|]. change (suite_octets (s :: sels)) with (WPA_PUT_BE32 s ++ suite_octets sels).
  rewrite zlen_app, zlen_cons, IH. change (zlen (WPA_PUT_BE32 s)) with 4. lia.
Qed.
Lemma zlen_counted sels : zlen (counted sels) = 2 + 4 * zlen sels.
Proof. unfold counted. rewrite zlen_app, zlen_octets. done. Qed.

(** A counted list is read back as the union of its suites. *)
Lemma counted_at f botch short put sels pre post d k :
  Forall (fun s => 0 <= s < 2 ^ 32) sels -> 0 < zlen sels < 65536 ->
  parse_list f botch short put (pre ++ counted sels ++ post) (zlen pre) (zlen (counted sels) + zlen post) d k =
  k (zlen (pre ++ counted sels)) (zlen post) (put (fold_left (fun a s => Z.lor a (f s)) sels 0) d).
Proof.
  intros Hs Hn. pose proof (zlen_nonneg post). unfold parse_list. rewrite zlen_counted.
  destruct (Z.leb_spec 2 (2 + 4 * zlen sels + zlen post)); [|lia].
  unfold counted at 1. rewrite <- (app_assoc (WPA_PUT_LE16 _)), le16_at, u16_small by lia.
  destruct (Z.eqb_spec (zlen sels) 0); [lia|]. unfold RSN_SELECTOR_LEN.
  destruct (Z.ltb_spec ((2 + 4 * zlen sels + zlen post - 2) / 4) (zlen sels)) as [E|_].
  { exfalso. assert (zlen sels <= (2 + 4 * zlen sels + zlen post - 2) / 4) by (apply Z.div_le_lower_bound; lia). lia. }
  cbn [orb]. unfold counted at 1. rewrite <- (app_assoc (WPA_PUT_LE16 _)), (app_assoc pre).
  change 2 with (zlen (WPA_PUT_LE16 (zlen sels))) at 1. rewrite <- zlen_app.
  replace (Z.to_nat (zlen sels)) with (length sels) by (unfold zlen; lia). rewrite octets_at by done.
  f_equal; [|lia]. rewrite !zlen_app, zlen_counted. change (zlen (WPA_PUT_LE16 (zlen sels))) with 2. lia.
Qed.

(** The suites of a table of single bits. *)
Lemma put_suites_union f table bits :
  (forall b s, List.In (b, s) table -> f s = b /\ exists n, 0 <= n /\ b = 2 ^ n) ->
  forall acc, fold_left (fun a s => Z.lor a (f s)) (put_suites table bits) acc =
  Z.lor acc (Z.land bits (fold_right (fun '(b, _) => Z.lor b) 0 table)).
Proof.
  induction table as [|[b s] table IH]; intros H acc; [by rewrite Z.land_0_r, Z.lor_0_r|].
  destruct (H b s) as (Hf & n & Hn & Hb); [by left|]. specialize (IH (fun b s Hin => H b s (or_intror Hin))).
  cbn [fold_right]. rewrite Z.land_lor_distr_r.
  assert (E : Z.land bits b = if has_bits bits b then b else 0).
  { unfold has_bits. destruct (Z.eqb_spec (Z.land bits b) 0) as [|Ne]; [done|]. cbn [negb].
    destruct (Z.testbit bits n) eqn:T.
    - apply Z.bits_inj'. intros m Hm. rewrite Z.land_spec. rewrite Hb, Z.pow2_bits_eqb by done.
      destruct (Z.eqb_spec n m); [by subst m; rewrite T|by rewrite andb_false_r].
    - destruct Ne. apply Z.bits_inj'. intros m Hm. rewrite Z.land_spec, Hb, Z.pow2_bits_eqb, Z.bits_0 by done.
      destruct (Z.eqb_spec n m); [by subst m; rewrite T|by rewrite andb_false_r]. }
  unfold put_suites in *. cbn [List.filter]. rewrite E. destruct (has_bits bits b).
  - cbn [map fold_left snd]. rewrite IH, Hf. by rewrite Z.lor_assoc.
  - rewrite IH, Z.lor_0_l. done.
Qed.
Lemma put_suites_range table bits : Forall (fun '(_, s) => 0 <= s < 2 ^ 32) table ->
  Forall (fun s => 0 <= s < 2 ^ 32) (put_suites table bits) /\ zlen (put_suites table bits) <= zlen table.
Proof.
  intros H. unfold put_suites, zlen. rewrite length_map. split.
  - apply Forall_map. rewrite List.Forall_forall in *. intros [b s] Hin. apply filter_In in Hin as [Hin _].
    exact (H _ Hin).
  - pose proof (List.filter_length_le (fun '(b, _) => has_bits bits b) table). lia.
Qed.

(** *** The RSN element *)

Definition rsn_cipher_mask : Z :=
  WPA_CIPHER_CCMP_256 + WPA_CIPHER_GCMP_256 + WPA_CIPHER_CCMP + WPA_CIPHER_GCMP + WPA_CIPHER_TKIP + WPA_CIPHER_NONE.
Definition rsn_akm_mask : Z :=
  WPA_KEY_MGMT_IEEE8021X + WPA_KEY_MGMT_PSK + WPA_KEY_MGMT_IEEE8021X_SHA256 + WPA_KEY_MGMT_PSK_SHA256 +
  WPA_KEY_MGMT_IEEE8021X_SUITE_B + WPA_KEY_MGMT_IEEE8021X_SUITE_B_192.
Definition subset (bits mask : Z) : Prop := Z.land bits mask = bits.

Ltac single_bit := first [ exists 0; by split | exists 1; by split | exists 3; by split | exists 4; by split
  | exists 6; by split | exists 7; by split | exists 8; by split | exists 9; by split | exists 16; by split
  | exists 17; by split ].
Ltac table_bits := intros ? ? Hin; repeat (destruct Hin as [[= <- <-]|Hin]; [split; [reflexivity|single_bit]|]); destruct Hin.

Lemma rsn_ciphers_read bits : subset bits rsn_cipher_mask ->
  fold_left (fun a s => Z.lor a (rsn_selector_to_bitfield s)) (rsn_cipher_put_suites bits) 0 = bits.
Proof. intros H. unfold rsn_cipher_put_suites. rewrite put_suites_union; [exact H|table_bits]. Qed.
Lemma rsn_akms_read bits : subset bits rsn_akm_mask ->
  fold_left (fun a s => Z.lor a (rsn_key_mgmt_to_bitfield s)) (rsn_key_mgmt_suites bits) 0 = bits.
Proof. intros H. unfold rsn_key_mgmt_suites. rewrite put_suites_union; [exact H|table_bits]. Qed.
Lemma rsn_tables_range bits :
  Forall (fun s => 0 <= s < 2 ^ 32) (rsn_cipher_put_suites bits) /\ zlen (rsn_cipher_put_suites bits) <= 6 /\
  Forall (fun s => 0 <= s < 2 ^ 32) (rsn_key_mgmt_suites bits) /\ zlen (rsn_key_mgmt_suites bits) <= 6.
Proof.
  assert (R : forall t, forallb (fun '(_, s) => (0 <=? s) && (s <? 2 ^ 32)) t = true ->
      Forall (fun '(_, s) => 0 <= s < 2 ^ 32) (t : list (Z * Z))).
  { intros t Ht. apply List.Forall_forall. intros [b s] Hin. rewrite forallb_forall in Ht. specialize (Ht _ Hin).
    change ((0 <=? s) && (s <? 2 ^ 32) = true) in Ht. bool_hyps. lia. }
  destruct (put_suites_range _ bits (R
    [(WPA_CIPHER_CCMP_256, RSN_CIPHER_SUITE_CCMP_256); (WPA_CIPHER_GCMP_256, RSN_CIPHER_SUITE_GCMP_256);
     (WPA_CIPHER_CCMP, RSN_CIPHER_SUITE_CCMP); (WPA_CIPHER_GCMP, RSN_CIPHER_SUITE_GCMP);
     (WPA_CIPHER_TKIP, RSN_CIPHER_SUITE_TKIP); (WPA_CIPHER_NONE, RSN_CIPHER_SUITE_NONE)] eq_refl)) as [A1 A2].
  destruct (put_suites_range _ bits (R
    [(WPA_KEY_MGMT_IEEE8021X, RSN_AUTH_KEY_MGMT_UNSPEC_802_1X);
     (WPA_KEY_MGMT_PSK, RSN_AUTH_KEY_MGMT_PSK_OVER_802_1X);
     (WPA_KEY_MGMT_IEEE8021X_SHA256, RSN_AUTH_KEY_MGMT_802_1X_SHA256);
     (WPA_KEY_MGMT_PSK_SHA256, RSN_AUTH_KEY_MGMT_PSK_SHA256);
     (WPA_KEY_MGMT_IEEE8021X_SUITE_B, RSN_AUTH_KEY_MGMT_802_1X_SUITE_B);
     (WPA_KEY_MGMT_IEEE8021X_SUITE_B_192, RSN_AUTH_KEY_MGMT_802_1X_SUITE_B_192)] eq_refl)) as [B1 B2].
  done.
Qed.

Lemma rsn_capab_range cf : 0 <= rsn_capab cf < 65536.
Proof.
  unfold rsn_capab, mfp_capab. destruct (rsn_preauth cf), (peerkey cf), (wmm_enabled cf), (ieee80211w cf); vm_compute; split; done.
Qed.

Lemma group_selector group : wpa_cipher_valid_group group = true ->
  let s := wpa_cipher_to_suite WPA_PROTO_RSN group in
  0 <= s < 2 ^ 32 /\ s / 2 ^ 16 = 0x000f /\ rsn_selector_to_bitfield s = group.
Proof.
  intros H. unfold wpa_cipher_valid_group, wpa_cipher_valid_pairwise in H.
  repeat (apply orb_true_iff in H as [H|H]); apply Z.eqb_eq in H; subst group; vm_compute; repeat split; congruence.
Qed.

(** The management group cipher is written where it is not the default. *)
Lemma mgmt_field_cases cf len used has m : rsn_mgmt_field cf len used has = Some m ->
  (m = [] /\ (if uses_mfp cf then group_mgmt_cipher cf else WPA_CIPHER_AES_128_CMAC) = WPA_CIPHER_AES_128_CMAC) \/
  exists s, mgmt_suite (group_mgmt_cipher cf) = Some s /\ uses_mfp cf = true /\
    m = (if has then [] else WPA_PUT_LE16 0) ++ WPA_PUT_BE32 s.
Proof.
  unfold rsn_mgmt_field. intros Hm. destruct (uses_mfp cf) eqn:Hu; cbn [andb] in Hm; [|by injection Hm as <-; left].
  destruct (Z.eqb_spec (group_mgmt_cipher cf) WPA_CIPHER_AES_128_CMAC) as [E|]; cbn [negb] in Hm; [by injection Hm as <-; left|].
  destruct (_ <? _); [done|]. destruct (mgmt_suite _) as [s|] eqn:Es; [|done]. injection Hm as <-. right. by exists s.
Qed.
Lemma mgmt_group_at cf s pre d : mgmt_suite (group_mgmt_cipher cf) = Some s ->
  parse_mgmt_group (pre ++ WPA_PUT_BE32 s) (zlen pre) 4 d = Some (0, setter d_mgmt_group (fun _ => group_mgmt_cipher cf) d).
Proof.
  intros Hs. unfold parse_mgmt_group. change (4 <=? 4) with true. cbv iota.
  rewrite <- (app_nil_r (WPA_PUT_BE32 s)), selector_at. unfold mgmt_suite in Hs.
  repeat (case_match; [match goal with E : (_ =? _) = true |- _ => apply Z.eqb_eq in E; rewrite E end; injection Hs as <-; reflexivity|]).
  done.
Qed.

(** What follows the capabilities is read back, [num] PMKIDs from [pm] on. *)
Definition tail_is (cf : wpa_auth_config) (buf : list Z) (pos left : Z) (d : wpa_ie_data) (num : Z) (pm : option Z) : Prop :=
  parse_pmkids buf pos left d (parse_mgmt_group buf) =
  Some (0, setter d_mgmt_group (fun _ => if uses_mfp cf then group_mgmt_cipher cf else WPA_CIPHER_AES_128_CMAC)
             (setter d_num_pmkid (fun _ => num) (setter d_pmkid (fun _ => pm) d))).

Lemma tail_without cf len used m pre d : rsn_mgmt_field cf len used false = Some m ->
  d_num_pmkid d = 0 -> d_pmkid d = None -> d_mgmt_group d = WPA_CIPHER_AES_128_CMAC ->
  exists pm, tail_is cf (pre ++ m) (zlen pre) (zlen m) d 0 pm.
Proof.
  intros Hm Hn0 Hp0 Hm0. destruct (mgmt_field_cases _ _ _ _ _ Hm) as [[-> Ecf]|(s & Hs & Hu & ->)].
  - exists None. unfold tail_is, parse_pmkids, parse_mgmt_group. rewrite Ecf. change (zlen []) with 0. cbn [Z.leb].
    f_equal. f_equal. rewrite <- Hm0. by destruct d; cbn in *; subst.
  - exists (Some (zlen pre + 2)). unfold tail_is, parse_pmkids. rewrite Hu.
    change (zlen (WPA_PUT_LE16 0 ++ WPA_PUT_BE32 s)) with 6. change (2 <=? 6) with true. cbv iota.
    rewrite le16_at. change (u16 0) with 0. change ((6 - 2) / Z.of_nat PMKID_LEN <? 0) with false. cbv iota.
    change (6 - 2 - 0 * Z.of_nat PMKID_LEN) with 4. rewrite app_assoc.
    replace (zlen pre + 2 + 0 * Z.of_nat PMKID_LEN) with (zlen (pre ++ WPA_PUT_LE16 0))
      by (rewrite zlen_app; change (zlen (WPA_PUT_LE16 0)) with 2; lia).
    by apply mgmt_group_at.
Qed.

Lemma tail_with cf len used m q pre d : rsn_mgmt_field cf len used true = Some m -> length q = PMKID_LEN ->
  d_mgmt_group d = WPA_CIPHER_AES_128_CMAC ->
  tail_is cf (pre ++ (WPA_PUT_LE16 1 ++ q) ++ m) (zlen pre) (zlen (WPA_PUT_LE16 1 ++ q) + zlen m) d 1 (Some (zlen pre + 2)) /\
  slice (pre ++ (WPA_PUT_LE16 1 ++ q) ++ m) (zlen pre + 2) (Z.of_nat PMKID_LEN) = q.
Proof.
  intros Hm Hlen Hm0. assert (Hq : zlen q = 16) by (unfold zlen; rewrite Hlen; done). pose proof (zlen_nonneg m). split.
  - unfold tail_is, parse_pmkids. rewrite zlen_app, Hq. change (zlen (WPA_PUT_LE16 1)) with 2.
    destruct (Z.leb_spec 2 (2 + 16 + zlen m)); [|lia].
    replace (rd_le16 _ (zlen pre)) with (Some 1) by (by rewrite <- (app_assoc (WPA_PUT_LE16 1)), le16_at).
    change (Z.of_nat PMKID_LEN) with 16. destruct (Z.ltb_spec ((2 + 16 + zlen m - 2) / 16) 1) as [Hd|_].
    { exfalso. assert (1 <= (2 + 16 + zlen m - 2) / 16) by (apply Z.div_le_lower_bound; lia). lia. }
    replace (2 + 16 + zlen m - 2 - 1 * 16) with (zlen m) by lia.
    replace (zlen pre + 2 + 1 * 16) with (zlen (pre ++ WPA_PUT_LE16 1 ++ q))
      by (rewrite !zlen_app, Hq; change (zlen (WPA_PUT_LE16 1)) with 2; lia).
    rewrite app_assoc. destruct (mgmt_field_cases _ _ _ _ _ Hm) as [[-> Ecf]|(s & Hs & Hu & ->)].
    + rewrite Ecf. unfold parse_mgmt_group. change (zlen []) with 0. cbn [Z.leb]. f_equal. f_equal. rewrite <- Hm0. by destruct d.
    + rewrite Hu. by apply mgmt_group_at.
  - rewrite slice_app_r by lia. replace (zlen pre + 2 - zlen pre) with (zlen (WPA_PUT_LE16 1)) by (change (zlen (WPA_PUT_LE16 1)) with 2; lia).
    rewrite <- app_assoc, slice_app_r by lia. rewrite Z.sub_diag. unfold slice. change (Z.to_nat 0) with 0%nat.
    rewrite drop_0. change (Z.to_nat (Z.of_nat PMKID_LEN)) with PMKID_LEN. rewrite <- Hlen. apply take_app_length.
Qed.

(** A configuration the parser knows all the suites of. *)
Record rsn_config (cf : wpa_auth_config) : Prop := mk_rsn_config {
  rc_pairwise : subset (rsn_pairwise cf) rsn_cipher_mask;
  rc_key_mgmt : subset (conf_key_mgmt cf) rsn_akm_mask;
  rc_group : wpa_cipher_valid_group (wpa_group_cipher cf) = true
}.

(** What the element says of the configuration. *)
Definition announces (cf : wpa_auth_config) (pmkid : option (list Z)) (ie : list Z) (d : wpa_ie_data) : Prop :=
  d_proto d = WPA_PROTO_RSN /\ d_group d = wpa_group_cipher cf /\ d_pairwise d = rsn_pairwise cf /\
  d_key_mgmt d = conf_key_mgmt cf /\ d_capabilities d = rsn_capab cf /\
  d_mgmt_group d = (if uses_mfp cf then group_mgmt_cipher cf else WPA_CIPHER_AES_128_CMAC) /\
  match pmkid with
  | None => d_num_pmkid d = 0
  | Some q => d_num_pmkid d = 1 /\ exists off, d_pmkid d = Some off /\ slice ie off (Z.of_nat PMKID_LEN) = q
  end.

Lemma no_cmac bits : subset bits rsn_cipher_mask -> has_bits bits WPA_CIPHER_AES_128_CMAC = false.
Proof. intros H. unfold has_bits. rewrite <- H, <- Z.land_assoc. by rewrite Z.land_0_r. Qed.

(** The suites from the group cipher on, up to the capabilities. *)
Lemma suites_read cf group ciphers akms pre t d k : rsn_config cf ->
  group = wpa_cipher_to_suite WPA_PROTO_RSN (wpa_group_cipher cf) ->
  ciphers = rsn_cipher_put_suites (rsn_pairwise cf) -> akms = rsn_key_mgmt_suites (conf_key_mgmt cf) ->
  0 < zlen ciphers -> 0 < zlen akms ->
  k = (fun d => parse_pmkids (pre ++ (WPA_PUT_BE32 group ++ counted ciphers ++ counted akms ++ WPA_PUT_LE16 (rsn_capab cf)) ++ t)
                  (zlen pre + (4 + zlen (counted ciphers) + zlen (counted akms) + 2)) (zlen t) d
                  (parse_mgmt_group (pre ++ (WPA_PUT_BE32 group ++ counted ciphers ++ counted akms ++ WPA_PUT_LE16 (rsn_capab cf)) ++ t))) ->
  parse_rsn_suites (pre ++ (WPA_PUT_BE32 group ++ counted ciphers ++ counted akms ++ WPA_PUT_LE16 (rsn_capab cf)) ++ t) (zlen pre)
    (4 + zlen (counted ciphers) + zlen (counted akms) + 2 + zlen t) d =
  k (setter d_capabilities (fun _ => rsn_capab cf) (put_key_mgmt (conf_key_mgmt cf)
       (put_pairwise (rsn_pairwise cf) (setter d_group (fun _ => wpa_group_cipher cf) d)))).
Proof.
  intros Hc Hg Hci Hak Hn1 Hn2 ->. destruct (rsn_tables_range (rsn_pairwise cf)) as (R1 & L1 & _).
  destruct (rsn_tables_range (conf_key_mgmt cf)) as (_ & _ & R2 & L2). rewrite <- Hci in R1, L1. rewrite <- Hak in R2, L2.
  destruct (group_selector _ (rc_group _ Hc)) as (G1 & _ & G3). rewrite <- Hg in G1, G3.
  pose proof (rsn_ciphers_read _ (rc_pairwise _ Hc)) as U1. pose proof (rsn_akms_read _ (rc_key_mgmt _ Hc)) as U2.
  rewrite <- Hci in U1. rewrite <- Hak in U2. clear Hci Hak Hg.
  pose proof (zlen_nonneg t). pose proof (zlen_counted ciphers). pose proof (zlen_counted akms). pose proof (rsn_capab_range cf).
  unfold parse_rsn_suites. cbv zeta. unfold RSN_SELECTOR_LEN at 1.
  destruct (Z.leb_spec 4 (4 + zlen (counted ciphers) + zlen (counted akms) + 2 + zlen t)); [|lia].
  replace (selector_get _ (zlen pre)) with (Some group) by (by rewrite <- !app_assoc, selector_at, u32_small).
  rewrite G3, (rc_group _ Hc). cbn [negb].
  set (buf := pre ++ _).
  assert (B1 : buf = (pre ++ WPA_PUT_BE32 group) ++ counted ciphers ++ (counted akms ++ WPA_PUT_LE16 (rsn_capab cf) ++ t))
    by (unfold buf; by rewrite <- !app_assoc).
  assert (B2 : buf = ((pre ++ WPA_PUT_BE32 group) ++ counted ciphers) ++ counted akms ++ (WPA_PUT_LE16 (rsn_capab cf) ++ t))
    by (rewrite B1; by rewrite <- !app_assoc).
  assert (B3 : buf = (((pre ++ WPA_PUT_BE32 group) ++ counted ciphers) ++ counted akms) ++ WPA_PUT_LE16 (rsn_capab cf) ++ t)
    by (rewrite B2; by rewrite <- !app_assoc).
  change RSN_SELECTOR_LEN with (zlen (WPA_PUT_BE32 group)). rewrite <- zlen_app.
  replace (4 + zlen (counted ciphers) + zlen (counted akms) + 2 + zlen t - zlen (WPA_PUT_BE32 group))
    with (zlen (counted ciphers) + zlen (counted akms ++ WPA_PUT_LE16 (rsn_capab cf) ++ t))
    by (rewrite !zlen_app; change (zlen (WPA_PUT_LE16 (rsn_capab cf))) with 2; change (zlen (WPA_PUT_BE32 group)) with 4; lia).
  rewrite B1 at 1. rewrite counted_at by (done || lia). rewrite U1. cbv beta.
  change (d_pairwise (put_pairwise (rsn_pairwise cf) _)) with (rsn_pairwise cf). rewrite (no_cmac _ (rc_pairwise _ Hc)).
  rewrite (zlen_app (counted akms)). rewrite B2 at 1. rewrite counted_at by (done || lia). rewrite U2. cbv beta.
  unfold parse_capabilities. rewrite zlen_app. change (zlen (WPA_PUT_LE16 (rsn_capab cf))) with 2.
  destruct (Z.leb_spec 2 (2 + zlen t)); [|lia]. rewrite B3 at 1. rewrite le16_at, u16_small by done.
  rewrite !zlen_app. change (zlen (WPA_PUT_BE32 group)) with 4.
  replace (zlen pre + 4 + zlen (counted ciphers) + zlen (counted akms) + 2)
    with (zlen pre + (4 + zlen (counted ciphers) + zlen (counted akms) + 2)) by lia.
  by replace (2 + zlen t - 2) with (zlen t) by lia.
Qed.

Lemma group_octets g : 0 <= g < 2 ^ 32 -> g / 2 ^ 16 = 0x000f -> exists r, WPA_PUT_BE32 g = 0 :: 15 :: r.
Proof.
  intros Hr Hd. unfold WPA_PUT_BE32. rewrite !shiftr_byte by lia. rewrite Hd. eexists.
  replace (g / 2 ^ 24) with 0; [reflexivity|].
  change (2 ^ 24) with (2 ^ 16 * 2 ^ 8). rewrite <- Z.div_div by lia. by rewrite Hd.
Qed.

(** The suites of the element. *)
Definition rsn_suites (cf : wpa_auth_config) : list Z :=
  WPA_PUT_BE32 (wpa_cipher_to_suite WPA_PROTO_RSN (wpa_group_cipher cf)) ++
  counted (rsn_cipher_put_suites (rsn_pairwise cf)) ++ counted (rsn_key_mgmt_suites (conf_key_mgmt cf)) ++
  WPA_PUT_LE16 (rsn_capab cf).
Lemma zlen_rsn_suites cf : zlen (rsn_suites cf) =
  4 + zlen (counted (rsn_cipher_put_suites (rsn_pairwise cf))) + zlen (counted (rsn_key_mgmt_suites (conf_key_mgmt cf))) + 2.
Proof.
  unfold rsn_suites. rewrite !zlen_app. change (zlen (WPA_PUT_LE16 (rsn_capab cf))) with 2.
  generalize (wpa_cipher_to_suite WPA_PROTO_RSN (wpa_group_cipher cf)). intros g. change (zlen (WPA_PUT_BE32 g)) with 4. lia.
Qed.

(** The parts of a written element, and its length. *)
Record rsn_parts (cf : wpa_auth_config) (len : Z) (pmkid : option (list Z)) (ie p m : list Z) (L : Z) : Prop := mk_rsn_parts {
  rp_ie : ie = [WLAN_EID_RSN; L; 1; 0] ++ rsn_suites cf ++ (p ++ m);
  rp_len : zlen ie = 2 + L;
  rp_pmkid : rsn_pmkid_field len (2 + zlen ([1; 0] ++ rsn_suites cf)) pmkid = Some p;
  rp_mgmt : rsn_mgmt_field cf len (2 + zlen ([1; 0] ++ rsn_suites cf) + zlen p) (non_null pmkid) = Some m;
  rp_ciphers : 0 < zlen (rsn_cipher_put_suites (rsn_pairwise cf));
  rp_akms : 0 < zlen (rsn_key_mgmt_suites (conf_key_mgmt cf))
}.
Lemma rsn_element_parts cf len pmkid ie : (forall q, pmkid = Some q -> length q = PMKID_LEN) ->
  wpa_write_rsn_ie cf len pmkid = Some ie -> exists p m L, rsn_parts cf len pmkid ie p m L.
Proof.
  intros Hlen. unfold wpa_write_rsn_ie. cbv zeta. pose proof (zlen_rsn_suites cf) as HX. rewrite !zlen_counted in HX.
  destruct (rsn_tables_range (rsn_pairwise cf)) as (_ & L1 & _). destruct (rsn_tables_range (conf_key_mgmt cf)) as (_ & _ & _ & L2).
  destruct (_ || _) eqn:E0; [done|]. apply orb_false_elim in E0 as [E0 N2]. apply orb_false_elim in E0 as [_ N1].
  apply Z.eqb_neq in N1, N2. pose proof (zlen_nonneg (rsn_cipher_put_suites (rsn_pairwise cf))).
  pose proof (zlen_nonneg (rsn_key_mgmt_suites (conf_key_mgmt cf))).
  match goal with |- context [rsn_pmkid_field len (2 + zlen ?b) pmkid] => change b with ([1; 0] ++ rsn_suites cf) end.
  destruct (rsn_pmkid_field _ _ _) as [p|] eqn:Ep; [|done]. destruct (rsn_mgmt_field _ _ _ _) as [m|] eqn:Em; [|done].
  intros E. assert (Hie : ie = element WLAN_EID_RSN (([1; 0] ++ rsn_suites cf) ++ p ++ m)) by congruence. clear E.
  assert (Hm : zlen m <= 6).
  { destruct (mgmt_field_cases _ _ _ _ _ Em) as [[-> _]|(s & _ & _ & ->)]; [done|]. rewrite zlen_app.
    change (zlen (WPA_PUT_BE32 s)) with 4. by destruct (non_null pmkid). }
  assert (Hp : zlen p <= 18).
  { destruct pmkid as [q|]; cbn [rsn_pmkid_field] in Ep; [|by injection Ep as <-]. destruct (_ <? _); [done|].
    assert (p = WPA_PUT_LE16 1 ++ q) as -> by congruence. rewrite zlen_app. unfold zlen at 2. rewrite (Hlen q eq_refl). done. }
  pose proof (zlen_nonneg p). pose proof (zlen_nonneg m).
  assert (HL : zlen (([1; 0] ++ rsn_suites cf) ++ p ++ m) = 2 + zlen (rsn_suites cf) + zlen p + zlen m).
  { rewrite !zlen_app. change (zlen [1; 0]) with 2. lia. }
  unfold element in Hie. rewrite HL, u8_small in Hie by lia. exists p, m, (2 + zlen (rsn_suites cf) + zlen p + zlen m).
  split; [exact Hie| |done|done|lia|lia]. rewrite Hie, zlen_app, HL. done.
Qed.

Lemma rsn_header_read cf len pmkid ie p m L : rsn_config cf -> rsn_parts cf len pmkid ie p m L ->
  wpa_parse_wpa_ie_rsn ie = parse_rsn_suites ie 4 (zlen ie - 4) rsn_defaults.
Proof.
  intros Hc [Hie Hz _ _ _ _]. destruct (group_selector _ (rc_group _ Hc)) as (G1 & G2 & _).
  destruct (group_octets _ G1 G2) as [r Er]. unfold wpa_parse_wpa_ie_rsn. cbv zeta.
  assert (Hge : 4 <= zlen ie).
  { rewrite Hie, zlen_app. change (zlen [WLAN_EID_RSN; L; 1; 0]) with 4. pose proof (zlen_nonneg (rsn_suites cf ++ p ++ m)). lia. }
  destruct (Z.ltb_spec (zlen ie) 4); [lia|].
  assert (E0 : rd ie 0 = Some WLAN_EID_RSN) by (by rewrite Hie). assert (E1 : rd ie 1 = Some L) by (by rewrite Hie).
  assert (E2 : rd_le16 ie 2 = Some 1) by (by rewrite Hie).
  assert (Ho : selector_get ie 2 = Some 0x0100000f) by (rewrite Hie; unfold rsn_suites; rewrite Er; reflexivity).
  rewrite E0, E1, E2, Ho. change (0x0100000f =? OSEN_IE_VENDOR_TYPE) with false.
  replace (L =? zlen ie - 2) with true by (symmetry; apply Z.eqb_eq; lia). rewrite andb_true_r.
  by destruct ((6 <=? zlen ie) && (4 <=? L)).
Qed.

(** C25: the RSN element that wpa_write_rsn_ie writes for a configuration,
    with or without a PMKID, is read back by wpa_parse_wpa_ie_rsn without an
    error as that configuration: its group cipher, its pairwise ciphers, its
    key management suites, its capabilities, its management group cipher and
    the PMKID. *)
Theorem rsn_element_roundtrip cf len pmkid ie : rsn_config cf ->
  (forall q, pmkid = Some q -> length q = PMKID_LEN) -> wpa_write_rsn_ie cf len pmkid = Some ie ->
  exists d, wpa_parse_wpa_ie_rsn ie = Some (0, d) /\ announces cf pmkid ie d.
Proof.
  intros Hc Hlen Hw. destruct (rsn_element_parts cf len pmkid ie Hlen Hw) as (p & m & L & P).
  rewrite (rsn_header_read _ _ _ _ _ _ _ Hc P). destruct P as [Hie Hz Ep Em N1 N2]. pose proof (zlen_rsn_suites cf) as HX.
  assert (Hl : zlen ie - 4 = zlen (rsn_suites cf) + zlen (p ++ m)).
  { rewrite Hie, !zlen_app. change (zlen [WLAN_EID_RSN; L; 1; 0]) with 4. lia. }
  set (pre := [WLAN_EID_RSN; L; 1; 0] ++ rsn_suites cf).
  assert (Hpre : ie = pre ++ p ++ m) by (rewrite Hie; unfold pre; by rewrite <- app_assoc).
  set (d := setter d_capabilities (fun _ => rsn_capab cf) (put_key_mgmt (conf_key_mgmt cf)
       (put_pairwise (rsn_pairwise cf) (setter d_group (fun _ => wpa_group_cipher cf) rsn_defaults)))).
  assert (E : parse_rsn_suites ie 4 (zlen ie - 4) rsn_defaults = parse_pmkids ie (zlen pre) (zlen (p ++ m)) d (parse_mgmt_group ie)).
  { rewrite Hl, HX. unfold pre. rewrite (zlen_app _ (rsn_suites cf)), HX, Hie.
    exact (suites_read cf _ _ _ [WLAN_EID_RSN; L; 1; 0] (p ++ m) rsn_defaults _ Hc eq_refl eq_refl eq_refl N1 N2 eq_refl). }
  rewrite E. assert (Hd : d_num_pmkid d = 0 /\ d_pmkid d = None /\ d_mgmt_group d = WPA_CIPHER_AES_128_CMAC) by done.
  destruct Hd as (D1 & D2 & D3). clear E Hl Hie.
  destruct pmkid as [q|]; cbn [rsn_pmkid_field non_null] in Ep, Em.
  - destruct (_ <? _); [done|]. assert (p = WPA_PUT_LE16 1 ++ q) as -> by congruence.
    destruct (tail_with cf len _ m q pre d Em (Hlen q eq_refl) D3) as [T1 T2]. rewrite <- Hpre in T1, T2.
    rewrite zlen_app. unfold tail_is in T1. rewrite T1. eexists; split; [done|]. repeat split. by eexists.
  - injection Ep as <-. destruct (tail_without cf len _ m pre d Em D1 D2 D3) as [pm T].
    rewrite app_nil_l in *. rewrite <- Hpre in T. unfold tail_is in T. rewrite T. eexists; split; [done|]. repeat split.
Qed.

(** ** What is received *)

Lemma rd_be16_some d i : 0 <= i -> i + 2 <= zlen d -> exists v, rd_be16 d i = Some v.
Proof.
  intros H1 H2. unfold rd_be16. destruct (rd_some d i) as [? ->]; [lia|]. destruct (rd_some d (i + 1)) as [? ->]; [lia|].
  by eexists.
Qed.
Lemma rd_slice_some d i n : 0 <= i -> 0 <= n -> i + n <= zlen d -> exists v, rd_slice d i n = Some v.
Proof.
  intros H1 H2 H3. unfold rd_slice. destruct (Z.leb_spec 0 i); [|lia]. destruct (Z.leb_spec 0 n); [|lia].
  destruct (Z.leb_spec (i + n) (zlen d)); [by eexists|lia].
Qed.

Lemma read_key_some mic_len d : 16 <= mic_len -> off_key + sizeof_wpa_eapol_key mic_len <= zlen d ->
  exists f, read_key mic_len d = Some f.
Proof.
  intros Hm Hd. unfold read_key, sizeof_wpa_eapol_key, off_key_data_length, off_key_mic, off_key_id, off_key_rsc,
    off_key_iv, off_key_nonce, off_replay_counter, off_key_length, off_key_info, off_key in *.
  destruct (rd_some d 4) as [? ->]; [lia|]. destruct (rd_be16_some d (4 + 1)) as [? ->]; [lia|lia|].
  destruct (rd_slice_some d (4 + 1 + 2 + 2) (Z.of_nat WPA_REPLAY_COUNTER_LEN)) as [? ->];
    [lia|lia|change (Z.of_nat WPA_REPLAY_COUNTER_LEN) with 8; lia|].
  destruct (rd_slice_some d (4 + 1 + 2 + 2 + 8) (Z.of_nat WPA_NONCE_LEN)) as [? ->];
    [lia|lia|change (Z.of_nat WPA_NONCE_LEN) with 32; lia|].
  edestruct (rd_be16_some d) as [? ->]; [| |by eexists]; lia.
Qed.

(** C27: nothing that a station sends makes the authenticator's parsers read
    outside it.  wpa_parse_kde_ies, wpa_parse_wpa_ie_rsn and
    wpa_parse_wpa_ie_wpa have a result on any octets, and every element,
    KDE, PMKID list they point to lies inside them; an EAPOL-Key frame whose
    length wpa_receive has checked has all its fields, and its Key Data. *)
Theorem received_octets_in_bounds buf : bytes buf ->
  (exists res k, wpa_parse_kde_ies buf = Some (res, k) /\ kde_inside buf k) /\
  (exists res d, wpa_parse_wpa_ie_rsn buf = Some (res, d) /\ pmkids_inside buf d) /\
  (exists res d, wpa_parse_wpa_ie_wpa buf = Some (res, d) /\ pmkids_inside buf d) /\
  (forall akmp, let mic_len := wpa_mic_len akmp in
     off_key + sizeof_wpa_eapol_key mic_len <= zlen buf ->
     exists f, read_key mic_len buf = Some f /\
       (0 <= kf_data_length f <= zlen buf - (off_key + sizeof_wpa_eapol_key mic_len) ->
        exists kd, rd_slice buf (off_key_data mic_len) (kf_data_length f) = Some kd)).
Proof.
  intros Hb. split; [by apply kde_ies_inside|]. split; [by apply rsn_fine|]. split; [by apply wpa_fine|].
  intros akmp mic_len Hl. assert (Hm : 16 <= mic_len) by (unfold mic_len, wpa_mic_len; destruct (_ =? _); lia).
  destruct (read_key_some mic_len buf Hm Hl) as [f Hf]. exists f. split; [done|]. intros Hn.
  apply rd_slice_some; [|lia|].
  - unfold off_key_data, sizeof_wpa_eapol_key, off_key_mic, off_key_id, off_key_rsc, off_key_iv, off_key_nonce,
      off_replay_counter, off_key_length, off_key_info, off_key. lia.
  - unfold off_key_data. lia.
Qed.

Definition demo_kde : list Z := gtk_kde 1 (replicate 16 7) ++ [48; 2; 1; 0; 221; 0].
Lemma received_octets_in_bounds_witness :
  wpa_parse_kde_ies demo_kde = Some (0, mk_kde None (Some (24, 4)) None (Some (6, 18)) None None None) /\
  exists res k, wpa_parse_kde_ies demo_kde = Some (res, k) /\ kde_inside demo_kde k.
Proof.
  split; [vm_compute; reflexivity|]. apply (received_octets_in_bounds demo_kde).
  apply (bool_decide_unpack _). vm_compute. exact I.
Defined.

(** ** The group key in the Key Data field *)

Lemma zlen_kde sel d d2 : zlen (wpa_add_kde sel d d2) = 6 + zlen d + zlen d2.
Proof. unfold wpa_add_kde. rewrite !zlen_app. change (zlen (WPA_PUT_BE32 sel)) with 4. cbn [zlen length]. rewrite zlen_cons, zlen_cons, zlen_nil. lia. Qed.

Section kde_at.
Context (pre post d d2 : list Z) (sel : Z) (ie : wpa_eapol_ie_parse).
Context (Hsel : 0 <= sel < 2 ^ 32) (Hlen : 2 < zlen d + zlen d2 <= 251).
Let buf := pre ++ wpa_add_kde sel d d2 ++ post.

Lemma kde_header : rd buf (zlen pre) = Some WLAN_EID_VENDOR_SPECIFIC /\ rd buf (zlen pre + 1) = Some (4 + zlen d + zlen d2).
Proof.
  unfold buf, wpa_add_kde, RSN_SELECTOR_LEN. rewrite u8_small by lia. cbn [app]. split; [apply rd_at|].
  set (rest := (WPA_PUT_BE32 sel ++ d ++ d2) ++ post). cbn [app].
  replace (pre ++ WLAN_EID_VENDOR_SPECIFIC :: (4 + zlen d + zlen d2) :: rest)
    with ((pre ++ [WLAN_EID_VENDOR_SPECIFIC]) ++ (4 + zlen d + zlen d2) :: rest) by (by rewrite <- app_assoc).
  replace (zlen pre + 1) with (zlen (pre ++ [WLAN_EID_VENDOR_SPECIFIC])) by (by rewrite zlen_app). apply rd_at.
Qed.
Lemma kde_selector ok s : is_selector buf (zlen pre) ok s = Some (ok && (sel =? s)).
Proof.
  unfold is_selector. destruct ok; [|done]. unfold buf, wpa_add_kde, RSN_SELECTOR_LEN.
  set (h := [WLAN_EID_VENDOR_SPECIFIC; u8 (4 + zlen d + zlen d2)]).
  replace (pre ++ (h ++ WPA_PUT_BE32 sel ++ d ++ d2) ++ post) with ((pre ++ h) ++ WPA_PUT_BE32 sel ++ (d ++ d2 ++ post))
    by (by rewrite <- !app_assoc).
  replace (zlen pre + 2) with (zlen (pre ++ h)) by (by rewrite zlen_app). by rewrite selector_at, u32_small.
Qed.
Lemma zlen_buf : zlen buf = zlen pre + (6 + zlen d + zlen d2) + zlen post.
Proof. unfold buf. rewrite !zlen_app, zlen_kde. lia. Qed.

(** The KDEs that carry keys. *)
Definition put_key_kde : wpa_eapol_ie_parse :=
  if sel =? RSN_KEY_DATA_GROUPKEY then setter k_gtk (fun _ => Some (zlen pre + 6, zlen d + zlen d2)) ie
  else setter k_igtk (fun _ => Some (zlen pre + 6, zlen d + zlen d2)) ie.
Lemma kde_generic end_ : sel = RSN_KEY_DATA_GROUPKEY \/ sel = RSN_KEY_DATA_IGTK ->
  wpa_parse_generic buf (zlen pre) end_ ie = Some (0, put_key_kde).
Proof.
  intros Hs. destruct kde_header as [_ E]. unfold wpa_parse_generic, is_wpa_ie. rewrite E, !kde_selector. cbv zeta.
  destruct (Z.eqb_spec (4 + zlen d + zlen d2) 0); [lia|]. unfold put_key_kde, RSN_SELECTOR_LEN.
  assert (L : (4 + 2 <? 4 + zlen d + zlen d2) = true) by (apply Z.ltb_lt; lia). rewrite L.
  replace (zlen pre + 2 + 4) with (zlen pre + 6) by lia. replace (4 + zlen d + zlen d2 - 4) with (zlen d + zlen d2) by lia.
  destruct Hs as [-> | ->]; rewrite !andb_false_r; reflexivity.
Qed.
Lemma kde_step fuel : sel = RSN_KEY_DATA_GROUPKEY \/ sel = RSN_KEY_DATA_IGTK ->
  parse_kde_loop (Datatypes.S fuel) buf (zlen pre) ie =
  parse_kde_loop fuel buf (zlen (pre ++ wpa_add_kde sel d d2)) put_key_kde.
Proof.
  intros Hs. destruct kde_header as [E0 E1]. pose proof zlen_buf as Hb. pose proof (zlen_nonneg post). pose proof (zlen_nonneg pre).
  cbn [parse_kde_loop]. rewrite E0, E1. destruct (Z.ltb_spec 1 (zlen buf - zlen pre)); [|lia].
  destruct (Z.eqb_spec (zlen pre) (zlen buf - 1)); [lia|]. destruct (Z.eqb_spec (4 + zlen d + zlen d2) 0); [lia|].
  rewrite andb_false_r. destruct (Z.ltb_spec (zlen buf - zlen pre) (2 + (4 + zlen d + zlen d2))); [lia|].
  change (WLAN_EID_VENDOR_SPECIFIC =? WLAN_EID_RSN) with false. change (WLAN_EID_VENDOR_SPECIFIC =? WLAN_EID_VENDOR_SPECIFIC) with true.
  cbv iota. rewrite (kde_generic (zlen buf) Hs). change (0 <? 0) with false. cbv iota.
  f_equal. rewrite zlen_app, zlen_kde. lia.
Qed.
End kde_at.

(** Padding ends the loop. *)
Lemma padding_stops fuel pre n ie : parse_kde_loop fuel (pre ++ if n =? 0 then [] else 0xdd :: replicate (Z.to_nat (n - 1)) 0)
  (zlen pre) ie = Some (0, ie).
Proof.
  destruct fuel as [|fuel]; [done|]. cbn [parse_kde_loop]. rewrite zlen_app. destruct (Z.eqb_spec n 0) as [|Hn].
  - rewrite zlen_nil. destruct (Z.ltb_spec 1 (zlen pre + 0 - zlen pre)); [lia|done].
  - destruct (Z.ltb_spec 1 (zlen pre + zlen (0xdd :: replicate (Z.to_nat (n - 1)) 0) - zlen pre)) as [H|]; [|done].
    rewrite zlen_cons, zlen_replicate in H. destruct (Z.to_nat (n - 1)) as [|k]; [lia|]. cbn [replicate].
    rewrite rd_at. replace (pre ++ 0xdd :: 0 :: replicate k 0) with ((pre ++ [0xdd]) ++ 0 :: replicate k 0) by (by rewrite <- app_assoc).
    replace (zlen pre + 1) with (zlen (pre ++ [0xdd])) by (by rewrite zlen_app). rewrite rd_at. by rewrite orb_true_r.
Qed.

Definition igtk_part (igtk : option (list Z)) : list Z :=
  match igtk with Some d => wpa_add_kde RSN_KEY_DATA_IGTK d [] | None => [] end.

Lemma slice_body pre sel d d2 post :
  slice (pre ++ wpa_add_kde sel d d2 ++ post) (zlen pre + 6) (zlen d + zlen d2) = d ++ d2.
Proof.
  unfold wpa_add_kde. set (h := [WLAN_EID_VENDOR_SPECIFIC; u8 (RSN_SELECTOR_LEN + zlen d + zlen d2)] ++ WPA_PUT_BE32 sel).
  replace (pre ++ ([WLAN_EID_VENDOR_SPECIFIC; u8 (RSN_SELECTOR_LEN + zlen d + zlen d2)] ++ WPA_PUT_BE32 sel ++ d ++ d2) ++ post)
    with ((pre ++ h) ++ (d ++ d2) ++ post) by (unfold h; by rewrite <- !app_assoc).
  replace (zlen pre + 6) with (zlen (pre ++ h)) by (by rewrite zlen_app). rewrite slice_app_r, Z.sub_diag by lia.
  unfold slice. change (Z.to_nat 0) with 0%nat. rewrite drop_0, <- zlen_app. unfold zlen. rewrite Nat2Z.id. apply take_app_length.
Qed.

(** What a station finds in the decrypted Key Data. *)
Lemma key_data_parsed idx gtk igtk : 0 < zlen gtk <= 249 ->
  (forall d, igtk = Some d -> 2 < zlen d <= 251) ->
  let plain := padded_kde (gtk_kde idx gtk ++ igtk_part igtk) in
  exists k, wpa_parse_kde_ies plain = Some (0, k) /\ area plain (k_gtk k) = Some ([Z.land idx 3; 0] ++ gtk) /\
    area plain (k_igtk k) = igtk.
Proof.
  intros Hg Hi plain. set (pad := if kde_padding (zlen (gtk_kde idx gtk ++ igtk_part igtk)) =? 0 then [] else
    0xdd :: replicate (Z.to_nat (kde_padding (zlen (gtk_kde idx gtk ++ igtk_part igtk)) - 1)) 0).
  assert (Hp : plain = [] ++ gtk_kde idx gtk ++ (igtk_part igtk ++ pad)) by (unfold plain, padded_kde; by rewrite <- app_assoc).
  assert (Hd : 2 < zlen [Z.land idx 3; 0] + zlen gtk <= 251) by (rewrite zlen_cons, zlen_cons, zlen_nil; lia).
  assert (Hf : exists fuel, length plain = Datatypes.S (Datatypes.S fuel)).
  { pose proof (zlen_kde RSN_KEY_DATA_GROUPKEY [Z.land idx 3; 0] gtk) as Hz. rewrite Hp. unfold gtk_kde. cbn [app].
    unfold wpa_add_kde at 1. cbn [app length]. by eexists. }
  destruct Hf as [fuel Hf]. unfold wpa_parse_kde_ies. rewrite Hf.
  set (k1 := put_key_kde [] [Z.land idx 3; 0] gtk RSN_KEY_DATA_GROUPKEY kde_empty).
  set (k2 := match igtk with Some d => put_key_kde (gtk_kde idx gtk) d [] RSN_KEY_DATA_IGTK k1 | None => k1 end).
  assert (E : parse_kde_loop (Datatypes.S (Datatypes.S fuel)) ([] ++ gtk_kde idx gtk ++ (igtk_part igtk ++ pad)) (zlen (@nil Z)) kde_empty = Some (0, k2)).
  { unfold gtk_kde at 1. rewrite (kde_step [] _ _ gtk RSN_KEY_DATA_GROUPKEY _ ltac:(done) Hd) by (by left).
    fold (gtk_kde idx gtk) k1. cbn [app]. unfold k2. destruct igtk as [d|]; cbn [igtk_part].
    - assert (Hdi : 2 < zlen d + zlen (@nil Z) <= 251) by (rewrite zlen_nil; specialize (Hi d eq_refl); lia).
      rewrite (kde_step (gtk_kde idx gtk) pad d [] RSN_KEY_DATA_IGTK _ ltac:(done) Hdi) by (by right).
      rewrite app_assoc. apply padding_stops.
    - cbn [app]. apply padding_stops. }
  exists k2. split; [rewrite Hp; exact E|].
  assert (G : k_gtk k2 = Some (zlen (@nil Z) + 6, zlen [Z.land idx 3; 0] + zlen gtk)) by (unfold k2; by destruct igtk).
  split.
  - rewrite G. cbn [area]. rewrite Hp. f_equal. apply (slice_body [] RSN_KEY_DATA_GROUPKEY).
  - destruct igtk as [d|]; [|done].
    change (k_igtk k2) with (Some (zlen (gtk_kde idx gtk) + 6, zlen d + zlen (@nil Z))).
    cbn [area]. rewrite Hp, app_nil_l. cbn [igtk_part]. by rewrite slice_body, app_nil_r.
Qed.

Lemma padded_length kde : exists n, length (padded_kde kde) = (8 * n)%nat /\ n = Z.to_nat (zlen (padded_kde kde) / 8).
Proof.
  assert (H : zlen (padded_kde kde) mod 8 = 0).
  { unfold padded_kde, kde_padding. cbv zeta. destruct (Z.eqb_spec (zlen kde mod 8) 0) as [E|E].
    - change (0 =? 0) with true. cbv iota. by rewrite app_nil_r.
    - pose proof (Z.mod_pos_bound (zlen kde) 8 ltac:(lia)). destruct (Z.eqb_spec (8 - zlen kde mod 8) 0); [lia|].
      rewrite zlen_app, zlen_cons, zlen_replicate. rewrite Z2Nat.id by lia.
      replace (zlen kde + (1 + (8 - zlen kde mod 8 - 1))) with ((zlen kde / 8 + 1) * 8)
        by (pose proof (Z.div_mod (zlen kde) 8 ltac:(lia)); lia). by apply Z.mod_mul. }
  pose proof (Z.div_mod (zlen (padded_kde kde)) 8 ltac:(lia)) as E. rewrite H in E.
  exists (Z.to_nat (zlen (padded_kde kde) / 8)). split; [|done]. unfold zlen in *. lia.
Qed.
Lemma kde_bytes sel d d2 : bytes d -> bytes d2 -> bytes (wpa_add_kde sel d d2).
Proof.
  intros H1 H2. unfold wpa_add_kde. apply bytes_app. split.
  - repeat constructor; try done; unfold byte; apply u8_range.
  - apply bytes_app. split; [|by apply bytes_app]. unfold WPA_PUT_BE32. rewrite !land_ff. repeat constructor; apply mod_byte.
Qed.
Lemma padded_kde_bytes kde : bytes kde -> bytes (padded_kde kde).
Proof.
  intros H. unfold padded_kde. cbv zeta. apply bytes_app. split; [done|]. destruct (_ =? 0); [constructor|].
  constructor; [done|]. by apply Forall_replicate.
Qed.

(** C26: the group key reaches the station.  The Key Data of a message that
    carries the group key KDE and, with protected management frames, the IGTK
    KDE (message 3/4 of an RSN station, message 1/2 of a group handshake)
    unwraps with the key encryption key of the pairwise key to octets in which
    the KDE parser finds the key identifier, the group key and the IGTK KDE
    that were put in; the length field is the length of the Key Data. *)
Theorem group_key_delivered `{AL : AesLaws} version idx gtk igtk w kd iv n :
  0 < zlen gtk <= 249 -> bytes gtk -> (forall d, igtk = Some d -> 2 < zlen d <= 251 /\ bytes d) ->
  wraps_key_data (me w) version = true ->
  encode_key_data version true (Some (gtk_kde idx gtk ++ igtk_part igtk)) w = Some (kd, iv, n) ->
  n = zlen kd /\
  exists plain k, aes_unwrap (ptk_kek (PTK (me w))) (Z.to_nat (n / 8 - 1)) kd = Some plain /\
    wpa_parse_kde_ies plain = Some (0, k) /\
    area plain (k_gtk k) = Some ([Z.land idx 3; 0] ++ gtk) /\ area plain (k_igtk k) = igtk.
Proof.
  intros Hg Hb Hi Hw E. unfold encode_key_data in E. cbn [negb] in E. rewrite Hw in E. cbv zeta in E.
  set (kde := gtk_kde idx gtk ++ igtk_part igtk) in *. set (plain := padded_kde kde) in *.
  destruct (aes_wrap _ _ plain) as [c|] eqn:Ec; [|done]. injection E as <- _ <-.
  destruct (padded_length kde) as (m & Hm & Em). fold plain in Hm, Em. rewrite <- Em in Ec.
  assert (Hbp : bytes plain).
  { apply padded_kde_bytes, bytes_app. split.
    - apply kde_bytes; [|done]. constructor; [|by repeat constructor]. unfold byte. change 3 with (Z.ones 2).
      rewrite Z.land_ones by lia. pose proof (Z.mod_pos_bound idx (2 ^ 2) ltac:(lia)). lia.
    - destruct igtk as [d|]; [|constructor]. apply kde_bytes; [by apply Hi|constructor]. }
  assert (Hz : zlen plain = 8 * Z.of_nat m) by (unfold zlen; lia).
  split; [symmetry; unfold zlen at 1; rewrite (wrap_length _ _ _ _ Hm Hbp Ec); lia|].
  destruct (key_data_parsed idx gtk igtk Hg) as (k & K1 & K2 & K3); [intros d Hd; by apply Hi|].
  exists plain, k. split; [|done]. replace (Z.to_nat ((zlen plain + 8) / 8 - 1)) with m.
  - by apply wrap_then_unwrap.
  - rewrite Hz. replace (8 * Z.of_nat m + 8) with ((Z.of_nat m + 1) * 8) by lia. rewrite Z.div_mul by lia. lia.
Qed.

#[local] Existing Instance demo_cipher.
#[local] Existing Instance demo_cipher_laws.
Definition demo_wrapping : world :=
  mk_world (mk_conf WPA_PROTO_RSN WPA_KEY_MGMT_PSK 0 WPA_CIPHER_CCMP 0 false 0 0 WPA_CIPHER_CCMP false 2 false false true
              NO_MGMT_FRAME_PROTECTION WPA_CIPHER_AES_128_CMAC false)
    [] [] blank_group
    (setter PTK (fun _ => mk_ptk (replicate 24 1) (pad_to 32 (map Z.of_nat (seq 1 16))) (replicate 32 0) 16 16 16) blank_sm)
    0 [] (mk_eloop (mk_reltime 0 0) []) 0 [] 0 0 (mk_reltime 0 0) 0 false 0 [] 0 0 0 [] false false.
Definition demo_gtk : list Z := map Z.of_nat (seq 100 16).
Definition demo_igtk : list Z := [4; 0; 0; 0; 0; 0; 0; 0] ++ map Z.of_nat (seq 200 16).
Definition demo_key_data : list Z :=
  match encode_key_data 2 true (Some (gtk_kde 1 demo_gtk ++ igtk_part (Some demo_igtk))) demo_wrapping with
  | Some (kd, _, _) => kd | None => [] end.

Lemma group_key_delivered_witness :
  zlen demo_key_data = 64 /\
  exists plain k, aes_unwrap (ptk_kek (PTK (me demo_wrapping))) 7 demo_key_data = Some plain /\
    wpa_parse_kde_ies plain = Some (0, k) /\
    area plain (k_gtk k) = Some ([1; 0] ++ demo_gtk) /\ area plain (k_igtk k) = Some demo_igtk.
Proof.
  split; [vm_compute; reflexivity|].
  apply (group_key_delivered 2 1 demo_gtk (Some demo_igtk) demo_wrapping demo_key_data (replicate 16 0) 64).
  - vm_compute. split; [reflexivity|discriminate].
  - apply (bool_decide_unpack _). vm_compute. exact I.
  - intros d [= <-]. split; [vm_compute; split; [reflexivity|discriminate]|].
    apply (bool_decide_unpack _). vm_compute. exact I.
  - vm_compute. reflexivity.
  - vm_compute. reflexivity.
Defined.

Definition demo_rsn_conf : wpa_auth_config :=
  mk_conf WPA_PROTO_RSN (WPA_KEY_MGMT_PSK + WPA_KEY_MGMT_PSK_SHA256) 0 WPA_CIPHER_TKIP 600 false 0 0
    (WPA_CIPHER_CCMP + WPA_CIPHER_TKIP) false 2 false true true MGMT_FRAME_PROTECTION_OPTIONAL WPA_CIPHER_BIP_GMAC_128 false.
Definition demo_rsn_ie : list Z := default [] (wpa_write_rsn_ie demo_rsn_conf 128 (Some (map Z.of_nat (seq 50 16)))).
Lemma rsn_element_roundtrip_witness :
  zlen demo_rsn_ie = 52 /\
  exists d, wpa_parse_wpa_ie_rsn demo_rsn_ie = Some (0, d) /\ announces demo_rsn_conf (Some (map Z.of_nat (seq 50 16))) demo_rsn_ie d.
Proof.
  split; [vm_compute; reflexivity|]. apply (rsn_element_roundtrip demo_rsn_conf 128).
  - by split; vm_compute.
  - intros q [= <-]. reflexivity.
  - vm_compute. reflexivity.
Defined.

(** ** Association *)

Lemma first_bit_cases table dflt bits :
  (exists b v, List.In (b, v) table /\ has_bits bits b = true /\ first_bit table dflt bits = v) \/
  (first_bit table dflt bits = dflt /\ forall b v, List.In (b, v) table -> has_bits bits b = false).
Proof.
  induction table as [|[b v] table IH]; [by right|]. cbn [first_bit]. destruct (has_bits bits b) eqn:E.
  - left. exists b, v. split; [by left|done].
  - destruct IH as [(b' & v' & Hin & H)|[H1 H2]]; [left; exists b', v'; split; [by right|done]|right].
    split; [done|]. intros b' v' [[= <- <-]|Hin]; [done|by eapply H2].
Qed.
(** A table of suites and themselves. *)
Lemma first_bit_self cs dflt bits : let v := first_bit (map (fun c => (c, c)) cs) dflt bits in
  (List.In v cs /\ has_bits bits v = true) \/ (v = dflt /\ forall c, List.In c cs -> has_bits bits c = false).
Proof.
  cbv zeta. destruct (first_bit_cases (map (fun c => (c, c)) cs) dflt bits) as [(b & v & Hin & Hb & ->)|[-> H]].
  - apply in_map_iff in Hin as (c & [= <- <-] & Hin). by left.
  - right. split; [done|]. intros c Hc. apply (H c c). by apply (in_map (fun c => (c, c))).
Qed.
Lemma has_bits_land_r a b c : has_bits (Z.land a b) c = true -> has_bits b c = true.
Proof.
  unfold has_bits. intros H. apply negb_true_iff, Z.eqb_neq in H. apply negb_true_iff, Z.eqb_neq. intros E.
  by rewrite <- Z.land_assoc, E, Z.land_0_r in H.
Qed.
Lemma has_bits_lor v a b : has_bits v (Z.lor a b) = has_bits v a || has_bits v b.
Proof.
  unfold has_bits. rewrite Z.land_lor_distr_r. destruct (Z.eqb_spec (Z.land v a) 0) as [E|E].
  - by rewrite E, Z.lor_0_l.
  - destruct (Z.eqb_spec (Z.lor (Z.land v a) (Z.land v b)) 0) as [E2|]; [|done]. apply Z.lor_eq_0_iff in E2. tauto.
Qed.

Definition pairwise_suites : list Z :=
  [WPA_CIPHER_CCMP_256; WPA_CIPHER_GCMP_256; WPA_CIPHER_CCMP; WPA_CIPHER_GCMP; WPA_CIPHER_TKIP].
Definition akm_suites : list Z :=
  [WPA_KEY_MGMT_IEEE8021X_SUITE_B_192; WPA_KEY_MGMT_IEEE8021X_SUITE_B; WPA_KEY_MGMT_IEEE8021X_SHA256;
   WPA_KEY_MGMT_PSK_SHA256; WPA_KEY_MGMT_IEEE8021X; WPA_KEY_MGMT_PSK].

Lemma picked_key_mgmt offered conf : subset conf rsn_akm_mask -> Z.land offered conf <> 0 ->
  let akm := pick_key_mgmt (Z.land offered conf) in List.In akm akm_suites /\ has_bits conf akm = true.
Proof.
  intros Hc Hn akm. assert (H : List.In akm akm_suites /\ has_bits (Z.land offered conf) akm = true).
  { destruct (first_bit_self (removelast akm_suites) WPA_KEY_MGMT_PSK (Z.land offered conf)) as [[Hin Hb]|[E Hno]].
    - split; [|exact Hb]. cbn [removelast akm_suites] in Hin. unfold akm_suites. cbn [List.In] in *. tauto.
    - change (akm = WPA_KEY_MGMT_PSK) in E. rewrite E. split; [cbn; tauto|].
      assert (Hm : has_bits (Z.land offered conf) rsn_akm_mask = true).
      { unfold has_bits. rewrite <- Z.land_assoc, Hc. by apply negb_true_iff, Z.eqb_neq. }
      change rsn_akm_mask with (Z.lor (Z.lor (Z.lor (Z.lor (Z.lor WPA_KEY_MGMT_IEEE8021X_SUITE_B_192 WPA_KEY_MGMT_IEEE8021X_SUITE_B)
        WPA_KEY_MGMT_IEEE8021X_SHA256) WPA_KEY_MGMT_PSK_SHA256) WPA_KEY_MGMT_IEEE8021X) WPA_KEY_MGMT_PSK) in Hm.
      rewrite !has_bits_lor, !Hno in Hm by (cbn; tauto). exact Hm. }
  destruct H as [H1 H2]. split; [done|by eapply has_bits_land_r].
Qed.
Lemma picked_pairwise ciphers : (wpa_pick_pairwise_cipher ciphers <? 0) = false ->
  List.In (wpa_pick_pairwise_cipher ciphers) pairwise_suites /\ has_bits ciphers (wpa_pick_pairwise_cipher ciphers) = true.
Proof.
  intros H. destruct (first_bit_self pairwise_suites (-1) ciphers) as [Hin|[E _]]; [exact Hin|].
  change (wpa_pick_pairwise_cipher ciphers = -1) in E. by rewrite E in H.
Qed.

(** What an association may settle on. *)
Record negotiated (cf : wpa_auth_config) (ie : list Z) (s : wpa_sm) : Prop := mk_negotiated {
  ng_version : exists v ciphers,
    (rd ie 0 = Some WLAN_EID_RSN /\ wpa s = WPA_VERSION_WPA2 /\ v = WPA_PROTO_RSN /\ ciphers = rsn_pairwise cf \/
     rd ie 0 <> Some WLAN_EID_RSN /\ wpa s = WPA_VERSION_WPA /\ v = WPA_PROTO_WPA /\ ciphers = wpa_pairwise cf) /\
    has_bits (conf_wpa cf) v = true /\ has_bits ciphers (pairwise s) = true;
  ng_pairwise : List.In (pairwise s) pairwise_suites;
  ng_key_mgmt : List.In (wpa_key_mgmt s) akm_suites /\ has_bits (conf_key_mgmt cf) (wpa_key_mgmt s) = true;
  ng_mfp : mgmt_frame_prot s = true -> uses_mfp cf = true;
  ng_required : ieee80211w cf = MGMT_FRAME_PROTECTION_REQUIRED -> mgmt_frame_prot s = true /\ pairwise s <> WPA_CIPHER_TKIP;
  ng_ie : wpa_ie s = Some ie
}.

Section association.
Context `{AC : !AesCipher} `{O : !Oracle}.

(** [k] is called at the end, in a state that [P] holds of if the result is
    good. *)
Definition returns (k : wpa_ie_result -> cmd world) (P : wpa_sm -> Prop) (w w' : world) : Prop :=
  exists r v, w' = k r v /\ conf v = conf w /\ fault v = fault w /\ (r = WPA_IE_OK -> P (me v)).

Lemma returns_error k P r w v : conf v = conf w -> fault v = fault w -> r <> WPA_IE_OK -> returns k P w (k r v).
Proof. intros H1 H2 Hr. by exists r, v. Qed.

Lemma store_returns ie k (P : wpa_sm -> Prop) w0 w : conf w = conf w0 -> fault w = fault w0 ->
  P (setter wpa_ie (fun _ => Some ie) (me w)) -> returns k P w0 (store_wpa_ie ie k w).
Proof.
  intros Hc Hf HP. unfold store_wpa_ie. destruct (match wpa_ie (me w) with None => true | Some old => zlen old <? zlen ie end).
  - unfold seq_cmd, ask. destruct (o_oom _); [by apply returns_error|].
    eexists WPA_IE_OK, _. split; [reflexivity|]. split; [done|]. split; [done|]. intros _.
    change (P (setter wpa_ie (fun _ => Some ie) (setter wpa_ie (fun _ => None) (me w)))). by destruct (me w).
  - eexists WPA_IE_OK, _. split; [reflexivity|]. split; [done|]. split; [done|]. by intros _.
Qed.

(** The last part, after the element has been accepted. *)
Lemma pmksa_returns ie d k (P : wpa_sm -> Prop) w0 w : pmkids_inside ie d -> conf w = conf w0 -> fault w = fault w0 ->
  (forall e, P (setter wpa_ie (fun _ => Some ie) (setter pmksa (fun _ => e) (me w)))) ->
  returns k P w0
    (match find_pmksa (pmksa_cache w) (sm_addr (me w)) ie (default 0 (d_pmkid d)) (Z.to_nat (d_num_pmkid d)) with
     | None => (fault ::= true)%cmd w
     | Some e =>
         (me ∷ pmksa ::= e ;;
          (match e with Some e => PMKIDUsed ::= pmksa_pmkid e | None => skip end) ;;
          store_wpa_ie ie k)%cmd w
     end).
Proof.
  intros [Hn Hd] Hc Hf HP.
  assert (Hb : 0 <= default 0 (d_pmkid d) /\ (d_num_pmkid d <> 0 -> default 0 (d_pmkid d) + 16 * d_num_pmkid d <= zlen ie)).
  { destruct (d_pmkid d) as [p|]; cbn [default]; [|by rewrite Hd]. change (Z.of_nat PMKID_LEN) with 16 in Hd.
    destruct Hd. split; [done|by intros]. }
  destruct Hb as [Hb1 Hb2]. destruct (Z.eq_dec (d_num_pmkid d) 0) as [E|E].
  - rewrite E. change (Z.to_nat 0) with 0%nat. cbn [find_pmksa]. unfold seq_cmd.
    apply store_returns; [done|done|apply HP].
  - destruct (find_pmksa_some ie (pmksa_cache w) (sm_addr (me w)) (default 0 (d_pmkid d)) (Z.to_nat (d_num_pmkid d))) as [e ->];
      [done|rewrite Z2Nat.id by done; auto|].
    unfold seq_cmd. apply store_returns; destruct e; first [exact Hc|exact Hf|apply HP].
Qed.

Lemma parse_element_known version ie k w : bytes ie ->
  exists res d sel1 sel2 sel3, pmkids_inside ie d /\
    parse_element version ie k w =
    k res d ((AuthenticationSuiteSelected ::= sel1 ;; PairwiseCipherSelected ::= sel2 ;; GroupCipherSelected ::= sel3)%cmd w).
Proof.
  intros Hb. unfold parse_element. cbv zeta.
  assert (H : exists res d, (if version =? WPA_PROTO_RSN then wpa_parse_wpa_ie_rsn ie else wpa_parse_wpa_ie_wpa ie) = Some (res, d) /\
    pmkids_inside ie d) by (destruct (version =? _); [by apply rsn_fine|by apply wpa_fine]).
  destruct H as (res & d & -> & Hd). by eexists res, d, _, _, _.
Qed.

Lemma mfp_no_violation cf d ciphers : mfp_violation cf d ciphers = None -> ieee80211w cf = MGMT_FRAME_PROTECTION_REQUIRED ->
  has_bits (d_capabilities d) WPA_CAPABILITY_MFPC = true /\ has_bits ciphers WPA_CIPHER_TKIP = false.
Proof.
  unfold mfp_violation. intros H E. rewrite bool_decide_true in H by done. cbn [negb] in H.
  destruct (has_bits (d_capabilities d) _); cbn [negb] in H; [|done]. by destruct (has_bits ciphers _).
Qed.

(** C24: the association of a station (wpa_validate_wpa_ie) settles on nothing
    that the configuration does not allow: it ends without a fault on any
    octets, and where it returns WPA_IE_OK the version, the pairwise cipher
    and the key management suite of the station are single, known and
    configured ones, management frame protection is on only where it is
    configured, and on and without TKIP where it is required. *)
Theorem association_negotiates ie k w : bytes ie -> subset (conf_key_mgmt (conf w)) rsn_akm_mask ->
  returns k (negotiated (conf w) ie) w (wpa_validate_wpa_ie ie k w).
Proof.
  intros Hb Hakm. unfold wpa_validate_wpa_ie. destruct (rd ie 0) as [id|] eqn:Eid; [|by apply returns_error]. cbv zeta.
  destruct (has_bits (conf_wpa (conf w)) _) eqn:Hv; [|by apply returns_error]. cbn [negb].
  set (version := if id =? WLAN_EID_RSN then WPA_PROTO_RSN else WPA_PROTO_WPA) in *.
  match goal with |- returns _ _ _ (parse_element _ _ ?f w) =>
    destruct (parse_element_known version ie f w Hb) as (res & d & s1 & s2 & s3 & Hd & ->) end.
  set (w1 := (_ ;; _)%cmd w).
  assert (E1 : conf w1 = conf w /\ fault w1 = fault w /\ me w1 = me w) by done. clearbody w1. destruct E1 as (C1 & F1 & M1).
  rewrite C1. set (cf := conf w) in *.
  set (ciphers := Z.land (d_pairwise d) (if version =? WPA_PROTO_RSN then rsn_pairwise cf else wpa_pairwise cf)).
  destruct (negb (res =? 0)); [by apply returns_error|]. destruct (negb _); [by apply returns_error|].
  destruct (Z.eqb_spec (Z.land (d_key_mgmt d) (conf_key_mgmt cf)) 0) as [|Hk]; [by apply returns_error|].
  destruct (picked_key_mgmt _ _ Hakm Hk) as [K1 K2]. set (akm := pick_key_mgmt _) in *. unfold seq_cmd at 1.
  destruct (ciphers =? 0); [by apply returns_error|]. destruct (mfp_violation cf d ciphers) eqn:Hm.
  { apply returns_error; [done|done|]. unfold mfp_violation in Hm. repeat (case_match; try discriminate Hm); by simplify_eq. }
  unfold seq_cmd at 1 2. destruct (wpa_pick_pairwise_cipher ciphers <? 0) eqn:Hp; [by apply returns_error|].
  destruct (picked_pairwise _ Hp) as [P1 P2]. unfold seq_cmd at 1.
  apply pmksa_returns; [done|done|done|]. intros e.
  set (s := setter wpa_ie _ _).
  assert (S : pairwise s = wpa_pick_pairwise_cipher ciphers /\ wpa_key_mgmt s = akm /\
    mgmt_frame_prot s = uses_mfp cf && has_bits (d_capabilities d) WPA_CAPABILITY_MFPC /\
    wpa s = (if id =? WLAN_EID_RSN then WPA_VERSION_WPA2 else WPA_VERSION_WPA) /\ wpa_ie s = Some ie) by done.
  clearbody s. destruct S as (S1 & S2 & S3 & S4 & S5). rewrite <- S1 in P1, P2. rewrite <- S2 in K1, K2.
  split; [|done|done| | |done].
  - exists version, (if version =? WPA_PROTO_RSN then rsn_pairwise cf else wpa_pairwise cf).
    split; [|split; [done|by eapply has_bits_land_r]]. rewrite Eid, S4. unfold version.
    destruct (Z.eqb_spec id WLAN_EID_RSN) as [->|Hne]; [by left|right]. split; [congruence|done].
  - rewrite S3. by intros [? _]%andb_prop.
  - intros Hr. destruct (mfp_no_violation _ _ _ Hm Hr) as [R1 R2]. split.
    + rewrite S3, R1. unfold uses_mfp. by rewrite bool_decide_false by (rewrite Hr; done).
    + intros E. rewrite E in P2. congruence.
Qed.
End association.

#[local] Instance plain_oracle : Oracle := {|
  o_random n := (true, replicate 32 (Z.of_nat n + 1));
  o_time _ := replicate 8 0;
  o_oom _ := false;
  o_pool_ready _ := true;
  o_set_key _ := 0;
  o_seqnum _ := None;
  o_group_ptr := replicate 8 0
|}.
Definition demo_associating : world := setter conf (fun _ => demo_rsn_conf) demo_wrapping.
Definition demo_own_ie : list Z := default [] (wpa_write_rsn_ie demo_rsn_conf 128 None).
Lemma association_negotiates_witness :
  let k := fun (_ : wpa_ie_result) => skip in
  pairwise (me (wpa_validate_wpa_ie demo_own_ie k demo_associating)) = WPA_CIPHER_CCMP /\
  returns k (negotiated demo_rsn_conf demo_own_ie) demo_associating (wpa_validate_wpa_ie demo_own_ie k demo_associating).
Proof.
  split; [vm_compute; reflexivity|]. apply (association_negotiates demo_own_ie (fun _ => skip) demo_associating).
  - apply (bool_decide_unpack _). vm_compute. exact I.
  - vm_compute. reflexivity.
Defined.
