(* ===== verification/WpaSteps.v ===== *)
(** * The WPA authenticator: what the operations change

    Most of what an operation of WpaAuth.v does (deriving group keys, building
    and sending frames, asking the environment, timers) leaves the part of the
    state alone that decides how the machines go on.  [sm_view] and [grp_view]
    erase the rest, and an operation that changes nothing else is [Quiet]; one
    that passes a result on to a continuation is [Quietk]. *)

From Stdlib Require Import String.
From S2P Require Import Prelude.
From S2P Require Import Eloop.
From S2P Require Import Wpabuf.
From S2P Require Import Common.
From S2P Require Import Aes.
From S2P Require Import Hash.
From S2P Require Import WpaCommon.
From S2P Require Import WpaIe.
From S2P Require Import WpaAuth.

(** ** Views *)

Definition sm_view (s : wpa_sm) : wpa_sm :=
  mk_wpa_sm (sm_addr s) (wpa_ptk_state s) (wpa_ptk_group_state s) (Init s) (DeauthenticationRequest s)
    (AuthenticationRequest s) (ReAuthenticationRequest s) (Disconnect s) (TimeoutCtr s) (GTimeoutCtr s)
    (TimeoutEvt s) (EAPOLKeyReceived s) (EAPOLKeyPairwise s) (EAPOLKeyRequest s) (MICVerified s)
    (GUpdateStationKeys s) [] [] [] [] (PMK s) (PTK s) (PTK_valid s) false 0 false [] []
    (PInitAKeys s) (PTKRequest s) false (PtkGroupInit s) (last_rx_eapol_key s) 0 (changed s)
    (in_step_loop s) (pending_deinit s) (started s) (mgmt_frame_prot s) false
    (update_snonce s) false [] false None (wpa s) (pairwise s) (wpa_key_mgmt s) (pmksa s) 0 false
    (psks s) (msk s) (has_eapol_sm s) false false (listed s) (freed s).

Definition grp_view (g : wpa_group) : wpa_group :=
  mk_wpa_group (vlan_id g) (GInit g) (GKeyDoneStations g) (GTKReKey g) (GTK_len g) (GN g) (GM g)
    (GTKAuthenticator g) [] (wpa_group_state g) [] [] [] (gchanged g) false false [] (GN_igtk g) (GM_igtk g).

(** The pairwise keys that have been set. *)
Definition is_pairwise_key (o : wpa_out) : bool :=
  match o with w_set_key alg (Some _) _ _ _ => negb (bool_decide (alg = WPA_ALG_NONE)) | _ => false end.
Definition pairwise_keys (w : world) : list wpa_out := List.filter is_pairwise_key (outs w).

(** The timers that rekey a pairwise key. *)
Definition is_rekey (t : eloop_timeout wpa_handler) : bool := bool_decide (handler t = wpa_rekey_ptk_h).
Definition rekey_timers (e : eloop_data wpa_handler) : list (eloop_timeout wpa_handler) :=
  List.filter is_rekey (timeout e).

Record quiet (w w' : world) : Prop := mk_quiet {
  q_me : sm_view (me w') = sm_view (me w);
  q_grp : grp_view (grp w') = grp_view (grp w);
  q_stas : stas w' = stas w;
  q_idx : idx w' = idx w;
  q_addr : wpa_addr w' = wpa_addr w;
  q_conf : conf w' = conf w;
  q_cache : pmksa_cache w' = pmksa_cache w;
  q_stuck : stuck w' = stuck w;
  q_keys : pairwise_keys w' = pairwise_keys w;
  q_timers : forall t, List.In t (rekey_timers (lp w')) -> List.In t (rekey_timers (lp w))
}.

Lemma quiet_refl w : quiet w w.
Proof. by split. Qed.
Lemma quiet_trans w1 w2 w3 : quiet w1 w2 -> quiet w2 w3 -> quiet w1 w3.
Proof. intros [] []. split; try (by etrans); eauto. Qed.

Definition Quiet (c : cmd world) : Prop := forall w, quiet w (c w).
Definition Quietk {A} (f : (A -> cmd world) -> cmd world) : Prop :=
  forall k w, exists x w', quiet w w' /\ f k w = k x w'.

Lemma Quiet_skip : Quiet skip.
Proof. intros w. apply quiet_refl. Qed.
Lemma Quiet_seq c1 c2 : Quiet c1 -> Quiet c2 -> Quiet (c1 ;; c2)%cmd.
Proof. intros H1 H2 w. eapply quiet_trans; [apply H1|apply H2]. Qed.
Lemma Quiet_when p c : Quiet c -> Quiet (WHEN p DO c)%cmd.
Proof. intros H w. unfold when. destruct (p w); [apply H|apply quiet_refl]. Qed.
Lemma Quiet_if (b : bool) c1 c2 : Quiet c1 -> Quiet c2 -> Quiet (if b then c1 else c2).
Proof. by destruct b. Qed.
Lemma Quiet_if_at (p : world -> bool) (c1 c2 : world -> world) :
  Quiet c1 -> Quiet c2 -> Quiet (fun w => if p w then c1 w else c2 w).
Proof. intros H1 H2 w. destruct (p w); [apply H1|apply H2]. Qed.
Lemma Quiet_call {A} (f : (A -> cmd world) -> cmd world) k :
  Quietk f -> (forall x, Quiet (k x)) -> Quiet (f k).
Proof.
  intros Hf Hk w. destruct (Hf k w) as (x & w' & Hq & ->). eapply quiet_trans; [exact Hq|apply Hk].
Qed.
(** A command that is chosen by the state it starts in. *)
Lemma Quiet_at (f : world -> cmd world) : (forall w, Quiet (f w)) -> Quiet (fun w => f w w).
Proof. intros H w. apply H. Qed.

Lemma Quietk_id {A} (x : A) : Quietk (fun k => k x).
Proof. intros k w. exists x, w. split; [apply quiet_refl|done]. Qed.
Lemma Quietk_seq {A} c (f : (A -> cmd world) -> cmd world) :
  Quiet c -> Quietk f -> Quietk (fun k => c ;; f k)%cmd.
Proof.
  intros Hc Hf k w. destruct (Hf k (c w)) as (x & w' & Hq & E). exists x, w'. split; [|exact E].
  eapply quiet_trans; [apply Hc|exact Hq].
Qed.
Lemma Quietk_bind {A B} (f : (A -> cmd world) -> cmd world) (g : A -> (B -> cmd world) -> cmd world) :
  Quietk f -> (forall x, Quietk (g x)) -> Quietk (fun k => f (fun x => g x k)).
Proof.
  intros Hf Hg k w. destruct (Hf (fun x => g x k) w) as (x & w' & Hq & ->).
  destruct (Hg x k w') as (y & w2 & Hq2 & ->). exists y, w2. split; [|done]. by eapply quiet_trans.
Qed.
Lemma Quietk_if {A} (b : bool) (f g : (A -> cmd world) -> cmd world) :
  Quietk f -> Quietk g -> Quietk (fun k => if b then f k else g k).
Proof. by destruct b. Qed.
Lemma Quietk_at {A} (f : world -> (A -> cmd world) -> cmd world) :
  (forall w, Quietk (f w)) -> Quietk (fun k w => f w k w).
Proof. intros H k w. apply H. Qed.

(** Assignments to the members that the views erase. *)
Ltac quiet_assign :=
  intros ?; split; first [reflexivity | done | (intros ?; exact id)].

Create HintDb quiet.
#[export] Hint Resolve Quiet_skip : quiet.

(** Taking an operation apart; the hints know the operations it calls. *)
Ltac quiet_step :=
  first
  [ solve [eauto 1 with quiet]
  | lazymatch goal with
    | |- Quiet (seq_cmd _ _) => apply Quiet_seq
    | |- Quiet (when _ _) => apply Quiet_when
    | |- Quiet (if _ then _ else _) => apply Quiet_if
    | |- Quiet (match ?x with _ => _ end) => destruct x
    | |- Quiet (fun _ => _) => let w := fresh "w" in intros w; cbv beta zeta
    | |- quiet ?w ?w => apply quiet_refl
    | |- quiet _ (match ?x with _ => _ end) => destruct x
    | |- quiet ?w (?c ?w) => refine ((_ : Quiet c) w)
    end
  | solve [quiet_assign]
  | apply Quiet_call; [solve [eauto 1 with quiet] | intros] ].
Ltac quiet := intros; repeat quiet_step.

(** *** The environment and the event loop *)

Section steps.
Context `{AC : !AesCipher} `{O : !Oracle}.

Lemma Quietk_ask {A} (f : nat -> A) : Quietk (ask f).
Proof. intros k w. exists (f (tick w)), (setter tick Datatypes.S w). split; [|reflexivity]. split; first [reflexivity|by intros]. Qed.
Lemma Quietk_random n : Quietk (fun k => random_get_bytes n (fun ok l => k (ok, l))).
Proof.
  intros k w. unfold random_get_bytes. destruct (Quietk_ask o_random (fun '(ok, r) => k (ok, pad_to n r)) w)
    as ([ok r] & w' & Hq & ->). by exists (ok, pad_to n r), w'.
Qed.
Lemma Quiet_random n k : (forall ok l, Quiet (k ok l)) -> Quiet (random_get_bytes n k).
Proof.
  intros Hk. unfold random_get_bytes. apply Quiet_call; [apply Quietk_ask|]. by intros [ok r].
Qed.

Lemma Quiet_told o : is_pairwise_key o = false -> Quiet (told o).
Proof.
  intros Ho w. unfold told, assign_from. split; try reflexivity; [|by intros].
  unfold pairwise_keys. cbn [outs setter]. simpl. by rewrite Ho.
Qed.
Lemma Quiet_told_me o : (forall i, is_pairwise_key (o i) = false) -> Quiet (told_me o).
Proof. intros Ho w. apply (Quiet_told (o (idx w))), Ho. Qed.

(** A change of the event loop. *)
Lemma Quiet_lp (f : world -> eloop_data wpa_handler) :
  (forall w t, List.In t (rekey_timers (f w)) -> List.In t (rekey_timers (lp w))) -> Quiet (lp <~ f)%cmd.
Proof. intros Hf w. split; first [reflexivity|exact (Hf w)]. Qed.

Lemma rekey_register secs usecs h ed ud (e : eloop_data wpa_handler) t :
  List.In t (rekey_timers (eloop_register_timeout secs usecs h ed ud e)) ->
  List.In t (rekey_timers e) \/ (handler t = h /\ user_ctx t = ud /\ h = wpa_rekey_ptk_h).
Proof.
  unfold eloop_register_timeout. destruct (i64 _ <? _); [by left|]. unfold rekey_timers, set_timeout. cbn [timeout].
  rewrite !filter_In. intros [Hin Hr].
  apply (Permutation_in _ (insert_timeout_perm _ _)) in Hin. destruct Hin as [<-|Hin]; [|by left].
  right. unfold is_rekey in Hr. apply bool_decide_eq_true in Hr. done.
Qed.
Lemma rekey_cancel h ed ud (e : eloop_data wpa_handler) t :
  List.In t (rekey_timers (snd (eloop_cancel_timeout h ed ud e))) -> List.In t (rekey_timers e).
Proof. unfold eloop_cancel_timeout, rekey_timers. cbn. rewrite !filter_In. tauto. Qed.

Lemma Quiet_register (secs usecs ed ud : world -> Z) h : h <> wpa_rekey_ptk_h ->
  Quiet (lp <~ (fun w => eloop_register_timeout (secs w) (usecs w) h (ed w) (ud w) (lp w)))%cmd.
Proof. intros Hh. apply Quiet_lp. intros w t Ht. destruct (rekey_register _ _ _ _ _ _ _ Ht) as [?|(_ & _ & ?)]; done. Qed.
Lemma Quiet_cancel (h : wpa_handler) (ed ud : world -> Z) :
  Quiet (lp <~ (fun w => snd (eloop_cancel_timeout h (ed w) (ud w) (lp w))))%cmd.
Proof. apply Quiet_lp. intros w t. apply rekey_cancel. Qed.
Lemma Quiet_register_ms ms : Quiet (register_ms ms).
Proof. by apply (Quiet_register (fun _ => ms / 1000) (fun _ => ms mod 1000 * 1000) (fun _ => 0) sta_ctx). Qed.
Lemma Quiet_cancel_me h : Quiet (cancel_me h).
Proof. apply (Quiet_cancel h (fun _ => 0) sta_ctx). Qed.
Lemma Quiet_cancel_call_step : Quiet cancel_call_step.
Proof. apply (Quiet_cancel wpa_sm_call_step_h sta_ctx (fun _ => 0)). Qed.
Lemma Quiet_register_gtk a b : Quiet (register_gtk a b).
Proof. by apply (Quiet_register (fun _ => a) (fun _ => b) (fun _ => 0) (fun _ => 0)). Qed.
Lemma Quiet_cancel_gtk : Quiet cancel_gtk.
Proof. apply (Quiet_cancel wpa_rekey_gtk_h (fun _ => 0) (fun _ => 0)). Qed.
Lemma Quiet_reregister secs h : h <> wpa_rekey_ptk_h -> Quiet (reregister secs h).
Proof. intros Hh. unfold reregister. apply Quiet_when. by apply (Quiet_register secs (fun _ => 0) (fun _ => 0) (fun _ => 0)). Qed.
End steps.

#[export] Hint Resolve Quietk_ask Quiet_register_ms Quiet_cancel_me Quiet_cancel_call_step Quiet_register_gtk
  Quiet_cancel_gtk : quiet.

(** A result and the state it is passed on in, after cases are decided. *)
Ltac quietk_done := eexists _, _; split; [|reflexivity]; split; first [reflexivity | by intros].

Section callbacks.
Context `{AC : !AesCipher} `{O : !Oracle}.

(** *** Callbacks and group keys *)

Lemma Quiet_set_eapol v b : Quiet (wpa_auth_set_eapol v b).
Proof.
  unfold wpa_auth_set_eapol. apply Quiet_seq; [by apply Quiet_told_me|]. apply Quiet_when. destruct v; quiet.
Qed.

Lemma Quietk_set_key_group alg kidx key : Quietk (wpa_auth_set_key alg None kidx key).
Proof.
  unfold wpa_auth_set_key. apply (Quietk_bind (ask o_set_key)); [apply Quietk_ask|]. intros res.
  apply (Quietk_seq _ (fun k => k res)); [by apply Quiet_told|apply Quietk_id].
Qed.

Lemma Quietk_init_gmk : Quietk wpa_group_init_gmk_and_counter.
Proof.
  intros k w. unfold wpa_group_init_gmk_and_counter, random_get_bytes, ask.
  destruct (o_random (tick w)) as [[] gmk]; [|quietk_done]. unfold seq_cmd, assign_in.
  cbn [tick setter]. destruct (o_random _) as [[] rkey]; [|quietk_done].
  destruct (sha1_prf _ _ _ _); quietk_done.
Qed.

Lemma Quietk_gmk_to_gtk label len :
  Quietk (fun k => wpa_gmk_to_gtk label len (fun key ok => k (key, ok))).
Proof.
  intros k w. unfold wpa_gmk_to_gtk, random_get_bytes, ask. cbn [tick setter].
  destruct (o_random _) as [ok rnd]. quietk_done.
Qed.

Lemma Quiet_next_nonce : Quiet next_nonce.
Proof. unfold next_nonce. quiet. Qed.

Lemma Quietk_gtk_update : Quietk wpa_gtk_update.
Proof.
  intros k w. unfold wpa_gtk_update, seq_cmd at 1.
  destruct (Quietk_gmk_to_gtk "Group key expansion" (GTK_len (grp (next_nonce w)))
    (fun '(key, ok) => (grp ∷ GTK <~ (fun w => put_key (GTK (grp w)) (GN (grp w) - 1) key) ;;
       fun w => if uses_mfp (conf w) then
           (next_nonce ;;
            wpa_gmk_to_gtk "IGTK key expansion" (wpa_cipher_key_len (group_mgmt_cipher (conf w)))
              (fun key ok2 =>
                 grp ∷ IGTK <~ (fun w => put_key (IGTK (grp w)) (GN_igtk (grp w) - 4) key) ;;
                 k (ok && ok2)))%cmd w
         else k ok w)%cmd) (next_nonce w)) as ([key ok] & w1 & Hq1 & E). rewrite E. clear E.
  pose proof (quiet_trans _ _ _ (Quiet_next_nonce w) Hq1) as Hq. clear Hq1.
  unfold seq_cmd at 1. set (w2 := assign_in_from grp GTK _ w1).
  assert (Hq2 : quiet w w2) by (eapply quiet_trans; [exact Hq|]; unfold w2; split; first [reflexivity|by intros]).
  clearbody w2. clear Hq w1. destruct (uses_mfp (conf w2)); [|by exists ok, w2].
  unfold seq_cmd at 1.
  destruct (Quietk_gmk_to_gtk "IGTK key expansion" (wpa_cipher_key_len (group_mgmt_cipher (conf w2)))
    (fun '(key, ok2) => (grp ∷ IGTK <~ (fun w => put_key (IGTK (grp w)) (GN_igtk (grp w) - 4) key) ;;
                 k (ok && ok2))%cmd) (next_nonce w2)) as ([key2 ok2] & w3 & Hq3 & E). rewrite E. clear E.
  exists (ok && ok2), (assign_in_from grp IGTK (fun w => put_key (IGTK (grp w)) (GN_igtk (grp w) - 4) key2) w3).
  split; [|reflexivity]. eapply quiet_trans; [exact Hq2|]. eapply quiet_trans; [apply Quiet_next_nonce|].
  eapply quiet_trans; [exact Hq3|]. split; first [reflexivity|by intros].
Qed.

Lemma Quietk_config_group_keys : Quietk wpa_group_config_group_keys.
Proof.
  intros k w. unfold wpa_group_config_group_keys.
  match goal with |- context [wpa_auth_set_key ?a None ?b ?c ?f w] =>
    destruct (Quietk_set_key_group a b c f w) as (res & w1 & Hq & ->) end.
  destruct (uses_mfp (conf w1) && _); [|by eauto].
  match goal with |- context [wpa_auth_set_key ?a None ?b ?c ?f w1] =>
    destruct (Quietk_set_key_group a b c f w1) as (res2 & w2 & Hq2 & ->) end.
  eexists _, _. split; [eapply quiet_trans; eassumption|reflexivity].
Qed.
End callbacks.

#[export] Hint Resolve Quiet_set_eapol Quietk_set_key_group Quietk_init_gmk Quiet_next_nonce Quietk_gtk_update
  Quietk_config_group_keys : quiet.

Section sending.
Context `{AC : !AesCipher} `{O : !Oracle}.

(** *** Sending *)

Lemma Quiet_send_frame f : Quiet (send_frame f).
Proof.
  unfold send_frame. apply Quiet_seq; [apply Quiet_set_eapol|].
  intros w. apply (Quiet_told (w_send_eapol (idx w) (pairwise_set (me w)) f)). done.
Qed.
Lemma Quiet_finish_frame v ki rsc n iv kd kdl : Quiet (finish_frame v ki rsc n iv kd kdl).
Proof. unfold finish_frame. pose proof Quiet_send_frame. quiet. Qed.

Lemma Quiet_send_eapol_now ki rsc n kde kidx encr fv : Quiet (send_eapol_now ki rsc n kde kidx encr fv).
Proof.
  unfold send_eapol_now. pose proof Quiet_finish_frame. apply Quiet_call; [apply Quietk_ask|]. intros oom.
  apply Quiet_if; [apply Quiet_skip|]. intros w. cbv zeta. refine ((_ : Quiet _) w).
  apply Quiet_seq; [quiet|]. intros w1. cbv beta. destruct (encr && non_null kde).
  - refine ((_ : Quiet _) w1). apply Quiet_call; [apply Quietk_ask|]. intros oom2. apply Quiet_if; [apply Quiet_skip|].
    quiet.
  - quiet.
Qed.
Lemma Quiet_wpa_send_eapol ki rsc n kde kidx encr : Quiet (wpa_send_eapol ki rsc n kde kidx encr).
Proof.
  unfold wpa_send_eapol. apply Quiet_seq; [apply Quiet_send_eapol_now|]. intros w. cbv beta zeta.
  refine ((_ : Quiet _) w). apply Quiet_seq; [quiet|]. apply Quiet_register_ms.
Qed.

Lemma Quietk_get_seqnum : Quietk wpa_auth_get_seqnum.
Proof.
  apply (Quietk_bind (ask o_seqnum) (fun r k => k (option_map (pad_to 8) r))); [apply Quietk_ask|].
  intros r. apply Quietk_id.
Qed.
Lemma Quietk_gtk_for_sta : Quietk gtk_for_sta.
Proof.
  intros k w. unfold gtk_for_sta. destruct (disable_gtk (conf w)); [|eexists _, w; split; [apply quiet_refl|done]].
  destruct (Quietk_random (Z.to_nat (GTK_len (grp w))) (fun '(ok, gtk) => k (if ok then Some gtk else None)) w)
    as ([ok l] & w1 & Hq & E). exists (if ok then Some l else None), w1. split; [exact Hq|exact E].
Qed.
Lemma Quietk_ieee80211w_kde_add : Quietk ieee80211w_kde_add.
Proof.
  intros k w. unfold ieee80211w_kde_add. destruct (negb _); [by exists [], w; split; [apply quiet_refl|]|].
  unfold wpa_auth_get_seqnum, random_get_bytes, ask. destruct (bool_decide _).
  - destruct (disable_gtk _); [|quietk_done]. destruct (o_random _) as [[] l]; quietk_done.
  - destruct (disable_gtk _); [|quietk_done]. destruct (o_random _) as [[] l]; quietk_done.
Qed.
Lemma Quiet_send_3of4 a b c d e : Quiet (send_3of4 a b c d e).
Proof. intros w. apply Quiet_wpa_send_eapol. Qed.
Lemma Quiet_send_group_1of2 rsc kde : Quiet (send_group_1of2 rsc kde).
Proof. intros w. apply Quiet_wpa_send_eapol. Qed.
End sending.

#[export] Hint Resolve Quiet_send_frame Quiet_wpa_send_eapol Quietk_get_seqnum Quietk_gtk_for_sta
  Quietk_ieee80211w_kde_add Quiet_send_3of4 Quiet_send_group_1of2 : quiet.

(** ** The control skeleton

    [core] is what the views keep of a station and of the group.  Every
    entry of a state has its effect on the core, a command written like the
    entry itself without what is quiet. *)

Record core := mk_core { cme : wpa_sm; cgrp : wpa_group }.
#[export] Instance eta_core : Eta core := fun c => mk_core (cme c) (cgrp c).
Definition view (w : world) : core := mk_core (sm_view (me w)) (grp_view (grp w)).

(** The rest of the world, as far as the stations are concerned. *)
Record stays (w w' : world) : Prop := mk_stays {
  s_stas : stas w' = stas w;
  s_idx : idx w' = idx w;
  s_addr : wpa_addr w' = wpa_addr w;
  s_conf : conf w' = conf w;
  s_cache : pmksa_cache w' = pmksa_cache w;
  s_stuck : stuck w' = stuck w;
  s_keys : pairwise_keys w' = pairwise_keys w;
  s_timers : forall t, List.In t (rekey_timers (lp w')) -> List.In t (rekey_timers (lp w))
}.

Lemma stays_refl w : stays w w.
Proof. by split. Qed.
Lemma stays_trans w1 w2 w3 : stays w1 w2 -> stays w2 w3 -> stays w1 w3.
Proof. intros [] []. split; try (by etrans); eauto. Qed.
Lemma quiet_stays w w' : quiet w w' -> stays w w'.
Proof. by intros []. Qed.
Lemma quiet_view w w' : quiet w w' -> view w' = view w.
Proof. intros []. unfold view. congruence. Qed.

(** [c] does to the core what [d] does, and nothing else. *)
Definition Sim (d : cmd core) (c : cmd world) : Prop :=
  forall w, stays w (c w) /\ view (c w) = d (view w).

Lemma Sim_quiet c : Quiet c -> Sim skip c.
Proof. intros H w. split; [apply quiet_stays, H|apply quiet_view, H]. Qed.
Lemma Sim_seq d1 d2 c1 c2 : Sim d1 c1 -> Sim d2 c2 -> Sim (d1 ;; d2)%cmd (c1 ;; c2)%cmd.
Proof.
  intros H1 H2 w. destruct (H1 w) as [S1 V1], (H2 (c1 w)) as [S2 V2]. unfold seq_cmd.
  split; [by eapply stays_trans|]. by rewrite V2, V1.
Qed.
Lemma Sim_then_quiet d c1 c2 : Sim d c1 -> Quiet c2 -> Sim d (c1 ;; c2)%cmd.
Proof.
  intros H1 H2 w. destruct (H1 w) as [S1 V1]. unfold seq_cmd.
  split; [eapply stays_trans; [done|apply quiet_stays, H2]|]. by rewrite (quiet_view _ _ (H2 _)).
Qed.
Lemma Sim_quiet_then d c1 c2 : Quiet c1 -> Sim d c2 -> Sim d (c1 ;; c2)%cmd.
Proof.
  intros H1 H2 w. destruct (H2 (c1 w)) as [S2 V2]. unfold seq_cmd.
  split; [eapply stays_trans; [apply quiet_stays, H1|done]|]. by rewrite V2, (quiet_view _ _ (H1 _)).
Qed.
Lemma Sim_when (q : core -> bool) (p : world -> bool) d c :
  (forall w, p w = q (view w)) -> Sim d c -> Sim (WHEN q DO d)%cmd (WHEN p DO c)%cmd.
Proof.
  intros Hp H w. unfold when. rewrite Hp. destruct (q (view w)); [apply H|]. split; [apply stays_refl|done].
Qed.
Lemma Sim_if (b : bool) d1 d2 c1 c2 : Sim d1 c1 -> Sim d2 c2 -> Sim (if b then d1 else d2) (if b then c1 else c2).
Proof. by destruct b. Qed.

Create HintDb sim.

(** In lockstep; quiet operations are passed over. *)
Ltac sim_step :=
  first
  [ solve [eauto 1 with sim]
  | solve [apply Sim_quiet; quiet]
  | lazymatch goal with
    | |- Sim (if _ then _ else _) (if _ then _ else _) => apply Sim_if
    | |- Sim (when _ _) (when _ _) => apply Sim_when; [reflexivity|]
    | |- Sim (assign_in _ _ _) (assign_in _ _ _) => intros ?; split; [split; first [reflexivity | by intros]|reflexivity]
    | |- Sim (assign_in_from _ _ _) (assign_in_from _ _ _) =>
        intros ?; split; [split; first [reflexivity | by intros]|reflexivity]
    | |- Sim (seq_cmd _ _) (seq_cmd _ _) =>
        first [ apply Sim_quiet_then; [solve [quiet]|] | apply Sim_seq; [solve [sim]|] ]
    | |- Sim _ (seq_cmd _ _) =>
        first [ apply Sim_quiet_then; [solve [quiet]|] | apply Sim_then_quiet; [|solve [quiet]] ]
    end ]
with sim := repeat sim_step.

Definition core_enter (st : wpa_ptk_states) : cmd core :=
  (cme ∷ changed ::= true ;; cme ∷ wpa_ptk_state ::= st)%cmd.
Definition core_enter_group (st : wpa_ptk_group_states) : cmd core :=
  (cme ∷ changed ::= true ;; cme ∷ wpa_ptk_group_state ::= st)%cmd.
Definition core_keys_done : cmd core :=
  (WHEN (fun c => GUpdateStationKeys (cme c))
     DO (cgrp ∷ GKeyDoneStations <~ (fun c => GKeyDoneStations (cgrp c) - 1)) ;;
   cme ∷ GUpdateStationKeys ::= false)%cmd.
Definition core_no_ptk : cmd core := (cme ∷ PTK_valid ::= false ;; cme ∷ PTK ::= ptk_zero)%cmd.

Definition core_INITIALIZE : cmd core :=
  (core_enter WPA_PTK_INITIALIZE ;;
   WHEN (fun c => Init (cme c)) DO (cme ∷ changed ::= false) ;;
   core_keys_done ;;
   WHEN (fun c => bool_decide (wpa (cme c) = WPA_VERSION_WPA)) DO (cme ∷ PInitAKeys ::= false) ;;
   core_no_ptk ;;
   cme ∷ TimeoutCtr ::= 0)%cmd.
Definition core_DISCONNECTED : cmd core :=
  (core_enter WPA_PTK_DISCONNECTED ;; cme ∷ DeauthenticationRequest ::= false)%cmd.
Definition core_AUTHENTICATION : cmd core :=
  (core_enter WPA_PTK_AUTHENTICATION ;; cme ∷ PTK ::= ptk_zero ;; cme ∷ PTK_valid ::= false ;;
   cme ∷ AuthenticationRequest ::= false)%cmd.
Definition core_AUTHENTICATION2 (ok : bool) : cmd core :=
  (core_enter WPA_PTK_AUTHENTICATION2 ;;
   cme ∷ ReAuthenticationRequest ::= false ;;
   if ok then cme ∷ TimeoutCtr ::= 0 else cme ∷ Disconnect ::= true)%cmd.
Definition core_INITPMK (key : option (list Z)) : cmd core :=
  (core_enter WPA_PTK_INITPMK ;;
   match key with Some k => cme ∷ PMK ::= k | None => cme ∷ Disconnect ::= true end)%cmd.
Definition core_INITPSK (key : option (list Z)) : cmd core :=
  (core_enter WPA_PTK_INITPSK ;;
   match key with Some k => cme ∷ PMK ::= k | None => skip end)%cmd.
Definition core_PTKSTART : cmd core :=
  (core_enter WPA_PTK_PTKSTART ;;
   cme ∷ PTKRequest ::= false ;;
   cme ∷ TimeoutEvt ::= false ;;
   cme ∷ TimeoutCtr <~ (fun c => TimeoutCtr (cme c) + 1))%cmd.
(** The PMK, if it is a new one, and the PTK, if one fits the frame. *)
Definition core_PTKCALC (found : option (option (list Z) * wpa_ptk)) : cmd core :=
  (core_enter WPA_PTK_PTKCALCNEGOTIATING ;;
   cme ∷ EAPOLKeyReceived ::= false ;;
   cme ∷ update_snonce ::= false ;;
   match found with
   | None => skip
   | Some (pmk, ptk) =>
       match pmk with Some k => cme ∷ PMK ::= k | None => skip end ;;
       cme ∷ MICVerified ::= true ;;
       cme ∷ PTK ::= ptk ;;
       cme ∷ PTK_valid ::= true
   end)%cmd.
Definition core_PTKCALC2 : cmd core :=
  (core_enter WPA_PTK_PTKCALCNEGOTIATING2 ;; cme ∷ TimeoutCtr ::= 0)%cmd.
Definition core_PTKINITNEG : cmd core :=
  (core_enter WPA_PTK_PTKINITNEGOTIATING ;;
   cme ∷ TimeoutEvt ::= false ;;
   cme ∷ TimeoutCtr <~ (fun c => TimeoutCtr (cme c) + 1))%cmd.

Definition core_IDLE : cmd core :=
  (core_enter_group WPA_PTK_GROUP_IDLE ;;
   WHEN (fun c => Init (cme c)) DO (cme ∷ changed ::= false) ;;
   cme ∷ GTimeoutCtr ::= 0)%cmd.
Definition core_REKEYNEG : cmd core :=
  (core_enter_group WPA_PTK_GROUP_REKEYNEGOTIATING ;;
   cme ∷ GTimeoutCtr <~ (fun c => GTimeoutCtr (cme c) + 1) ;;
   WHEN (fun c => negb (dot11RSNAConfigGroupUpdateCount <? GTimeoutCtr (cme c)))
     DO (WHEN (fun c => bool_decide (wpa (cme c) = WPA_VERSION_WPA)) DO (cme ∷ PInitAKeys ::= false) ;;
         cme ∷ TimeoutEvt ::= false))%cmd.
Definition core_REKEYESTABLISHED : cmd core :=
  (core_enter_group WPA_PTK_GROUP_REKEYESTABLISHED ;;
   cme ∷ EAPOLKeyReceived ::= false ;;
   core_keys_done ;;
   cme ∷ GTimeoutCtr ::= 0)%cmd.
Definition core_KEYERROR : cmd core :=
  (core_enter_group WPA_PTK_GROUP_KEYERROR ;; core_keys_done ;; cme ∷ Disconnect ::= true)%cmd.

(** What a disconnection leaves in a station whose machine is running. *)
Definition core_deauth : cmd core :=
  (WHEN (fun c => listed (cme c))
     DO (cme ∷ DeauthenticationRequest ::= true ;;
         WHEN (fun c => negb (freed (cme c))) DO (core_no_ptk ;; cme ∷ changed ::= true)))%cmd.
Definition core_DISCONNECT : cmd core :=
  (core_enter WPA_PTK_DISCONNECT ;; cme ∷ Disconnect ::= false ;; core_deauth)%cmd.
Definition core_port_open : cmd core :=
  (WHEN (fun c => bool_decide (wpa (cme c) = WPA_VERSION_WPA)) DO (cme ∷ PInitAKeys ::= true))%cmd.
Definition core_PTKINITDONE (installed : bool) : cmd core :=
  (core_enter WPA_PTK_PTKINITDONE ;;
   cme ∷ EAPOLKeyReceived ::= false ;;
   if installed then core_port_open else core_deauth)%cmd.

(** The key that INITPMK finds. *)
Definition initpmk_key (s : wpa_sm) : option (list Z) :=
  match pmksa s with
  | Some e => Some (pmksa_pmk e)
  | None =>
      match option_map (take 64) (msk s) with
      | Some key =>
          let pmk_len := if has_bits (wpa_key_mgmt s) WPA_KEY_MGMT_IEEE8021X_SUITE_B_192
                         then PMK_LEN_SUITE_B_192 else PMK_LEN in
          if (length key <? pmk_len)%nat then None else Some (take pmk_len key)
      | None => None
      end
  end.

Section entries.
Context `{AC : !AesCipher} `{O : !Oracle}.

(** [Sim] in one state. *)
Definition sim_at (d : cmd core) (c : cmd world) (w : world) : Prop :=
  stays w (c w) /\ view (c w) = d (view w).

Lemma sim_at_seq d1 d2 c1 c2 w : Sim d1 c1 -> sim_at d2 c2 (c1 w) -> sim_at (d1 ;; d2)%cmd (c1 ;; c2)%cmd w.
Proof.
  intros H1 [S2 V2]. destruct (H1 w) as [S1 V1]. unfold seq_cmd.
  split; [by eapply stays_trans|]. by rewrite V2, V1.
Qed.
Lemma sim_at_quiet d c1 c2 w : Quiet c1 -> sim_at d c2 (c1 w) -> sim_at d (c1 ;; c2)%cmd w.
Proof. intros H1. apply (sim_at_seq skip), Sim_quiet, H1. Qed.
Lemma sim_at_moved d c w w' : quiet w w' -> sim_at d c w' -> stays w (c w') /\ view (c w') = d (view w).
Proof.
  intros Hq [S V]. split; [eapply stays_trans; [by apply quiet_stays|done]|]. by rewrite V, (quiet_view _ _ Hq).
Qed.

Lemma Sim_enter_ptk st : Sim (core_enter st) (enter_ptk st).
Proof. unfold core_enter, enter_ptk. sim. Qed.
Lemma Sim_enter_group st : Sim (core_enter_group st) (enter_ptk_group st).
Proof. unfold core_enter_group, enter_ptk_group. sim. Qed.
Lemma Sim_keys_done : Sim core_keys_done station_keys_done.
Proof. unfold core_keys_done, station_keys_done. sim. Qed.

Lemma Quiet_set_key_none (k : Z -> cmd world) (key : list Z) (i : Z) :
  (forall x, Quiet (k x)) -> Quiet (fun w => wpa_auth_set_key WPA_ALG_NONE (Some (idx w)) i key k w).
Proof.
  intros Hk w. unfold wpa_auth_set_key, ask, seq_cmd. eapply quiet_trans; [|apply Hk].
  eapply quiet_trans; [|apply Quiet_told; reflexivity]. split; first [reflexivity|by intros].
Qed.

Lemma Sim_remove_ptk : Sim core_no_ptk wpa_remove_ptk.
Proof.
  unfold core_no_ptk, wpa_remove_ptk. apply (Sim_seq (cme ∷ PTK_valid ::= false) (cme ∷ PTK ::= ptk_zero)); [sim|].
  apply Sim_then_quiet; [sim|]. apply Quiet_seq; [|quiet].
  apply (Quiet_set_key_none (fun _ => skip)). intros _. apply Quiet_skip.
Qed.
End entries.
#[export] Hint Resolve Sim_enter_ptk Sim_enter_group Sim_keys_done Sim_remove_ptk : sim.

Section ptk_entries.
Context `{AC : !AesCipher} `{O : !Oracle}.

Lemma Sim_INITIALIZE : Sim core_INITIALIZE WPA_PTK_INITIALIZE_Enter.
Proof. unfold core_INITIALIZE, WPA_PTK_INITIALIZE_Enter. sim. Qed.
Lemma Sim_DISCONNECTED : Sim core_DISCONNECTED WPA_PTK_DISCONNECTED_Enter.
Proof. unfold core_DISCONNECTED, WPA_PTK_DISCONNECTED_Enter. sim. Qed.
Lemma Sim_AUTHENTICATION : Sim core_AUTHENTICATION WPA_PTK_AUTHENTICATION_Enter.
Proof. unfold core_AUTHENTICATION, WPA_PTK_AUTHENTICATION_Enter. sim. Qed.
Lemma Sim_PTKSTART : Sim core_PTKSTART WPA_PTK_PTKSTART_Enter.
Proof. unfold core_PTKSTART, WPA_PTK_PTKSTART_Enter. sim. Qed.
Lemma Sim_PTKCALC2 : Sim core_PTKCALC2 WPA_PTK_PTKCALCNEGOTIATING2_Enter.
Proof. unfold core_PTKCALC2, WPA_PTK_PTKCALCNEGOTIATING2_Enter. sim. Qed.

Lemma Quiet_ensure_init : Quiet wpa_group_ensure_init.
Proof.
  unfold wpa_group_ensure_init. intros w. destruct (first_sta_seen (grp w)); [apply quiet_refl|]. cbv zeta.
  refine ((_ : Quiet _) w). apply Quiet_call; [apply Quietk_ask|]. intros ready.
  apply Quiet_seq; [destruct ready; quiet|]. apply Quiet_call; [apply Quietk_init_gmk|]. intros ok.
  apply Quiet_if; [|quiet]. apply Quiet_call; [apply Quietk_gtk_update|]. intros ok2.
  apply Quiet_if; [|quiet]. apply Quiet_call; [apply Quietk_config_group_keys|]. intros ok3. quiet.
Qed.

Lemma sim_at_random n (F : bool -> list Z -> cmd world) (D : bool -> cmd core) w :
  (forall ok l, Sim (D ok) (F ok l)) -> sim_at (D (fst (o_random (tick w)))) (random_get_bytes n F) w.
Proof.
  intros H. unfold sim_at, random_get_bytes, ask. destruct (o_random (tick w)) as [ok r]. cbn [fst].
  apply (sim_at_moved _ (F ok (pad_to n r)) w (setter tick Datatypes.S w)).
  - split; first [reflexivity|by intros].
  - apply H.
Qed.

Lemma Sim_AUTHENTICATION2 w : exists ok, sim_at (core_AUTHENTICATION2 ok) WPA_PTK_AUTHENTICATION2_Enter w.
Proof.
  unfold WPA_PTK_AUTHENTICATION2_Enter, core_AUTHENTICATION2.
  set (w1 := enter_ptk WPA_PTK_AUTHENTICATION2 w). set (w2 := wpa_group_ensure_init w1).
  set (w3 := (me ∷ ReAuthenticationRequest ::= false)%cmd w2).
  exists (fst (o_random (tick w3))).
  apply sim_at_seq; [apply Sim_enter_ptk|]. fold w1. apply sim_at_quiet; [apply Quiet_ensure_init|]. fold w2.
  apply sim_at_seq; [sim|]. fold w3.
  apply (sim_at_random _ _ (fun ok => if ok then cme ∷ TimeoutCtr ::= 0 else cme ∷ Disconnect ::= true)%cmd).
  intros ok l. apply Sim_quiet_then; [quiet|]. sim.
Qed.

Lemma Sim_INITPMK w : sim_at (core_INITPMK (initpmk_key (me w))) WPA_PTK_INITPMK_Enter w.
Proof.
  unfold WPA_PTK_INITPMK_Enter, core_INITPMK. apply sim_at_seq; [apply Sim_enter_ptk|].
  set (w1 := enter_ptk WPA_PTK_INITPMK w).
  replace (initpmk_key (me w)) with (initpmk_key (me w1)) by reflexivity. clearbody w1. clear w.
  unfold sim_at, initpmk_key, wpa_auth_get_msk. cbv beta zeta.
  assert (Hd : Sim (cme ∷ Disconnect ::= true)%cmd (me ∷ Disconnect ::= true)%cmd) by sim.
  destruct (pmksa (me w1)) as [e|].
  - revert w1. change (Sim (cme ∷ PMK ::= pmksa_pmk e)%cmd
      (me ∷ PMK ::= pmksa_pmk e ;; me ∷ req_replay_counter_used ::= false ;; wpa_auth_set_eapol WPA_EAPOL_keyRun false)%cmd).
    sim.
  - destruct (option_map (take 64) (msk (me w1))) as [key|]; [|exact (Hd w1)].
    destruct (length key <? _)%nat; [exact (Hd w1)|].
    set (l := if has_bits _ _ then _ else _). clearbody l. revert w1. change (Sim (cme ∷ PMK ::= take l key)%cmd
      (me ∷ PMK ::= take l key ;; me ∷ req_replay_counter_used ::= false ;; wpa_auth_set_eapol WPA_EAPOL_keyRun false)%cmd).
    sim.
Qed.

Lemma Sim_INITPSK w :
  sim_at (core_INITPSK (option_map (take PMK_LEN) (head (psks (me w))))) WPA_PTK_INITPSK_Enter w.
Proof.
  unfold WPA_PTK_INITPSK_Enter, core_INITPSK, wpa_auth_get_psk. apply sim_at_seq; [apply Sim_enter_ptk|].
  set (w1 := enter_ptk WPA_PTK_INITPSK w).
  replace (head (psks (me w))) with (head (psks (me w1))) by reflexivity. clearbody w1. clear w.
  unfold sim_at, seq_cmd. destruct (head (psks (me w1))) as [psk|]; cbn [option_map].
  - revert w1. change (Sim (cme ∷ PMK ::= take PMK_LEN psk)%cmd
      (me ∷ PMK ::= take PMK_LEN psk ;; me ∷ req_replay_counter_used ::= false)%cmd). sim.
  - revert w1. change (Sim skip (me ∷ req_replay_counter_used ::= false)%cmd). sim.
Qed.
End ptk_entries.
#[export] Hint Resolve Quiet_ensure_init : quiet.

Section more_entries.
Context `{AC : !AesCipher} `{O : !Oracle}.

Lemma Sim_PTKINITNEG : Sim core_PTKINITNEG WPA_PTK_PTKINITNEGOTIATING_Enter.
Proof.
  unfold core_PTKINITNEG, WPA_PTK_PTKINITNEGOTIATING_Enter.
  apply Sim_seq; [sim|]. apply Sim_seq; [sim|]. apply Sim_then_quiet; [sim|].
  intros w. destruct (_ <? _); [apply quiet_refl|]. refine ((_ : Quiet (wpa_auth_get_seqnum _)) w).
  apply Quiet_call; [apply Quietk_get_seqnum|]. intros r w1. cbv zeta. destruct (bool_decide _).
  - refine ((_ : Quiet (gtk_for_sta _)) w1). apply Quiet_call; [apply Quietk_gtk_for_sta|].
    intros [gtk|]; [|apply Quiet_skip]. apply Quiet_call; [apply Quietk_ask|]. intros oom.
    apply Quiet_if; [apply Quiet_skip|]. intros w2. refine ((_ : Quiet (ieee80211w_kde_add _)) w2).
    apply Quiet_call; [apply Quietk_ieee80211w_kde_add|]. intros x. apply Quiet_send_3of4.
  - refine ((_ : Quiet (ask _ _)) w1). apply Quiet_call; [apply Quietk_ask|]. intros oom.
    apply Quiet_if; [apply Quiet_skip|]. intros w2. refine ((_ : Quiet (ieee80211w_kde_add _)) w2).
    apply Quiet_call; [apply Quietk_ieee80211w_kde_add|]. intros x. apply Quiet_send_3of4.
Qed.

(** A key of [s] and a frame whose MIC its PTK verifies. *)
Definition confirmed (aa : list Z) (s : wpa_sm) (pmk d : list Z) (p : wpa_ptk) : Prop :=
  List.In pmk (pmk_candidates s) /\ last_rx_eapol_key s = Some d /\
  wpa_verify_key_mic (wpa_key_mgmt s) p d = true /\
  exists an sn, p = wpa_pmk_to_ptk pmk "Pairwise key expansion" aa (sm_addr s) an sn (wpa_key_mgmt s) (pairwise s).

Definition found_ok (aa : list Z) (s : wpa_sm) (found : option (option (list Z) * wpa_ptk)) : Prop :=
  match found with
  | None => True
  | Some (new, p) =>
      exists pmk d, confirmed aa s pmk d p /\
        new = if wpa_key_mgmt_wpa_psk (wpa_key_mgmt s) then Some pmk else None
  end.

Lemma Sim_skip_then d c : Sim d c -> Sim (skip ;; d)%cmd c.
Proof. exact id. Qed.
Lemma short_frame_unverified akm p d : zlen d < off_key + sizeof_wpa_eapol_key 16 -> wpa_verify_key_mic akm p d = false.
Proof. intros H. unfold wpa_verify_key_mic. by rewrite (proj2 (Z.ltb_lt _ _) H). Qed.

Lemma find_pmk_spec w sn d pmk : find_pmk w sn d = Some pmk ->
  List.In pmk (pmk_candidates (me w)) /\ wpa_verify_key_mic (wpa_key_mgmt (me w)) (wpa_derive_ptk w sn pmk) d = true.
Proof. intros H. exact (find_some _ _ H). Qed.

Lemma Sim_PTKCALC w : exists found, found_ok (wpa_addr w) (sm_view (me w)) found /\
  sim_at (core_PTKCALC found) WPA_PTK_PTKCALCNEGOTIATING_Enter w.
Proof.
  set (w1 := (enter_ptk WPA_PTK_PTKCALCNEGOTIATING ;; me ∷ EAPOLKeyReceived ::= false ;; me ∷ update_snonce ::= false)%cmd w).
  assert (Hs : forall found, found_ok (wpa_addr w1) (sm_view (me w1)) found -> found_ok (wpa_addr w) (sm_view (me w)) found)
    by (intros found; exact id).
  assert (E : forall d c, sim_at d c w1 ->
    sim_at (core_enter WPA_PTK_PTKCALCNEGOTIATING ;; cme ∷ EAPOLKeyReceived ::= false ;;
            cme ∷ update_snonce ::= false ;; d)%cmd
           (enter_ptk WPA_PTK_PTKCALCNEGOTIATING ;; me ∷ EAPOLKeyReceived ::= false ;;
            me ∷ update_snonce ::= false ;; c)%cmd w).
  { intros d c H. apply sim_at_seq; [sim|]. apply sim_at_seq; [sim|]. apply sim_at_seq; [sim|]. exact H. }
  enough (exists found, found_ok (wpa_addr w1) (sm_view (me w1)) found /\
    sim_at (match found with
     | None => skip
     | Some (pmk, ptk) =>
         match pmk with Some k => cme ∷ PMK ::= k | None => skip end ;;
         cme ∷ MICVerified ::= true ;; cme ∷ PTK ::= ptk ;; cme ∷ PTK_valid ::= true
     end)%cmd (fun w =>
     if last_frame_lost (me w) then (fault ::= true)%cmd w
     else
       match find_pmk w (SNonce (me w)) (default [] (last_rx_eapol_key (me w))) with
       | None =>
           if wpa_key_mgmt_wpa_psk (wpa_key_mgmt (me w)) && non_null (head (psks (me w)))
           then told_me w_psk_failure w else w
       | Some pmk =>
           (me ∷ pending_1_of_4_timeout ::= false ;;
            cancel_me wpa_send_eapol_timeout_h ;;
            (if wpa_key_mgmt_wpa_psk (wpa_key_mgmt (me w)) then me ∷ PMK ::= pmk else skip) ;;
            me ∷ MICVerified ::= true ;;
            me ∷ PTK ::= wpa_derive_ptk w (SNonce (me w)) pmk ;;
            me ∷ PTK_valid ::= true)%cmd w
       end) w1) as (found & Hf & H).
  { exists found. split; [by apply Hs|]. apply (E _ _ H). }
  clearbody w1. clear E Hs w. unfold sim_at. cbv beta.
  destruct (last_frame_lost (me w1)).
  { exists None. split; [done|]. change (sim_at skip (fault ::= true)%cmd w1). revert w1.
    refine (_ : Sim _ _). apply Sim_quiet. quiet_assign. }
  destruct (find_pmk _ _ _) as [pmk|] eqn:F.
  - apply find_pmk_spec in F as [Hin Hv].
    destruct (last_rx_eapol_key (me w1)) as [d|] eqn:D; [|by rewrite short_frame_unverified in Hv].
    cbn [default] in Hv. exists (Some (if wpa_key_mgmt_wpa_psk (wpa_key_mgmt (me w1)) then Some pmk else None,
                 wpa_derive_ptk w1 (SNonce (me w1)) pmk)). split.
    + exists pmk, d. split; [|reflexivity]. split; [exact Hin|]. split; [exact D|]. split; [exact Hv|].
      by exists (ANonce (me w1)), (SNonce (me w1)).
    + cbn [sm_view wpa_key_mgmt]. set (p := wpa_derive_ptk w1 _ _). clearbody p.
      set (k := wpa_key_mgmt_wpa_psk _). clearbody k. clear Hin Hv D. revert w1. refine (_ : Sim _ _).
      destruct k; sim. apply Sim_skip_then. sim.
  - exists None. split; [done|]. destruct (_ && _); [|split; [apply stays_refl|done]].
    clear F. revert w1. refine (_ : Sim skip _). apply Sim_quiet. by apply Quiet_told_me.
Qed.

Lemma Sim_lose_ptk : Sim core_no_ptk (me ∷ PTK_valid ::= false ;; me ∷ PTK ::= ptk_zero ;; wpa_remove_ptk)%cmd.
Proof.
  intros w. set (w1 := (me ∷ PTK_valid ::= false ;; me ∷ PTK ::= ptk_zero)%cmd w).
  assert (S1 : stays w w1) by (split; first [reflexivity|by intros]).
  assert (V1 : view w1 = core_no_ptk (view w)) by reflexivity.
  change ((me ∷ PTK_valid ::= false ;; me ∷ PTK ::= ptk_zero ;; wpa_remove_ptk)%cmd w) with (wpa_remove_ptk w1).
  clearbody w1. destruct (Sim_remove_ptk w1) as [S V].
  split; [by eapply stays_trans|]. rewrite V, V1. reflexivity.
Qed.

(** A station that is disconnected while its machine runs. *)
Lemma Sim_disconnect rec w : in_step_loop (me w) = true -> sim_at core_deauth (wpa_sta_disconnect rec) w.
Proof.
  intros Hl. unfold wpa_sta_disconnect, core_deauth. apply sim_at_quiet; [by apply Quiet_told_me|].
  set (w1 := told_me w_disconnect w). assert (Hl1 : in_step_loop (me w1) = true) by exact Hl. clearbody w1. clear Hl w.
  unfold sim_at, when. change (listed (me w1)) with (listed (cme (view w1))).
  destruct (listed (cme (view w1))); [|split; [apply stays_refl|done]].
  unfold wpa_auth_sm_event, sm_event_flags. apply sim_at_seq; [sim|].
  set (w2 := (me ∷ DeauthenticationRequest ::= true)%cmd w1).
  assert (Hl2 : in_step_loop (me w2) = true) by exact Hl1. clearbody w2. clear Hl1 w1.
  unfold sim_at, when. change (freed (cme (view w2))) with (freed (me w2)).
  destruct (freed (me w2)); [split; [apply stays_refl|done]|]. cbn [negb].
  pose proof Sim_lose_ptk as HS.
  match goal with |- context [(?c1 ;; ?c2)%cmd w2] => set (lose := c1); set (tail := c2) end.
  assert (HL : Sim core_no_ptk lose).
  { intros w. unfold lose, when. rewrite (bool_decide_eq_false_2 (WPA_DEAUTH = WPA_AUTH)) by done.
    rewrite andb_false_r. cbn [negb].
    rewrite (bool_decide_eq_false_2 (WPA_DEAUTH = WPA_REAUTH_EAPOL)) by done. apply HS. }
  apply (sim_at_seq _ _ lose tail w2 HL).
  assert (Hl3 : in_step_loop (cme (view (lose w2))) = true) by (rewrite (proj2 (HL w2)); exact Hl2).
  clearbody lose. set (w3 := lose w2) in *. clearbody w3. clear HL HS Hl2 w2. unfold sim_at, tail.
  change (in_step_loop (me w3) = true) in Hl3. rewrite Hl3. revert w3 Hl3. intros w _. revert w.
  refine (_ : Sim (cme ∷ changed ::= true) (me ∷ changed ::= true)%cmd). sim.
Qed.
End more_entries.

(** ** One step of the PTK machine

    [ptk_move] is the machine on the core: every move has its guard, and a
    machine that stays where it is has none that applies. *)

Definition no_request (s : wpa_sm) : bool :=
  negb (Init s) && negb (Disconnect s) && negb (DeauthenticationRequest s) && negb (AuthenticationRequest s) &&
  negb (ReAuthenticationRequest s) && negb (PTKRequest s).

(** The states whose machine waits, with what it waits for. *)
Definition waiting (s : wpa_sm) : bool :=
  match wpa_ptk_state s with
  | WPA_PTK_INITIALIZE | WPA_PTK_AUTHENTICATION2 | WPA_PTK_PTKINITDONE => true
  | WPA_PTK_PTKSTART => negb (pairwise_received s)
  | WPA_PTK_PTKCALCNEGOTIATING => negb (MICVerified s) && negb (pairwise_received s)
  | WPA_PTK_PTKINITNEGOTIATING => negb (update_snonce s) && negb (pairwise_received s && MICVerified s)
  | _ => false
  end.

Section moves.
Context `{AC : !AesCipher}.

Inductive ptk_switch (aa : list Z) (s : wpa_sm) : cmd core -> Prop :=
  | sw_stay : waiting s = true -> ptk_switch aa s skip
  | sw_disconnected : wpa_ptk_state s = WPA_PTK_DISCONNECT -> ptk_switch aa s core_DISCONNECTED
  | sw_initialize : wpa_ptk_state s = WPA_PTK_DISCONNECTED -> ptk_switch aa s core_INITIALIZE
  | sw_auth2 ok : wpa_ptk_state s = WPA_PTK_AUTHENTICATION -> ptk_switch aa s (core_AUTHENTICATION2 ok)
  | sw_initpmk : wpa_ptk_state s = WPA_PTK_AUTHENTICATION2 -> ptk_switch aa s (core_INITPMK (initpmk_key s))
  | sw_initpsk : wpa_ptk_state s = WPA_PTK_AUTHENTICATION2 ->
      ptk_switch aa s (core_INITPSK (option_map (take PMK_LEN) (head (psks s))))
  | sw_start_pmk : wpa_ptk_state s = WPA_PTK_INITPMK -> ptk_switch aa s core_PTKSTART
  | sw_start_psk : wpa_ptk_state s = WPA_PTK_INITPSK -> non_null (head (psks s)) = true ->
      ptk_switch aa s core_PTKSTART
  | sw_start_again : wpa_ptk_state s = WPA_PTK_PTKSTART \/ wpa_ptk_state s = WPA_PTK_PTKCALCNEGOTIATING ->
      TimeoutEvt s = true -> ptk_switch aa s core_PTKSTART
  | sw_fail : wpa_ptk_state s = WPA_PTK_INITPMK \/ wpa_ptk_state s = WPA_PTK_INITPSK \/
              wpa_ptk_state s = WPA_PTK_PTKSTART \/ wpa_ptk_state s = WPA_PTK_PTKINITNEGOTIATING ->
      ptk_switch aa s core_DISCONNECT
  | sw_calc found : (wpa_ptk_state s = WPA_PTK_PTKSTART \/ wpa_ptk_state s = WPA_PTK_PTKCALCNEGOTIATING) /\
                      pairwise_received s = true \/
                    wpa_ptk_state s = WPA_PTK_PTKINITNEGOTIATING /\ update_snonce s = true ->
      found_ok aa s found -> ptk_switch aa s (core_PTKCALC found)
  | sw_calc2 : wpa_ptk_state s = WPA_PTK_PTKCALCNEGOTIATING -> MICVerified s = true -> ptk_switch aa s core_PTKCALC2
  | sw_initneg : wpa_ptk_state s = WPA_PTK_PTKCALCNEGOTIATING2 -> ptk_switch aa s core_PTKINITNEG
  | sw_initneg_again : wpa_ptk_state s = WPA_PTK_PTKINITNEGOTIATING -> TimeoutEvt s = true ->
      ptk_switch aa s core_PTKINITNEG
  | sw_initdone ok : wpa_ptk_state s = WPA_PTK_PTKINITNEGOTIATING -> pairwise_received s = true ->
      MICVerified s = true -> ptk_switch aa s (core_PTKINITDONE ok).

Inductive ptk_move (aa : list Z) (s : wpa_sm) : cmd core -> Prop :=
  | mv_init : Init s = true -> ptk_move aa s core_INITIALIZE
  | mv_disconnect : Init s = false -> Disconnect s = true -> ptk_move aa s core_DISCONNECT
  | mv_disconnected : Init s = false -> DeauthenticationRequest s = true -> ptk_move aa s core_DISCONNECTED
  | mv_authentication : Init s = false -> AuthenticationRequest s = true -> ptk_move aa s core_AUTHENTICATION
  | mv_authentication2 ok : Init s = false -> ReAuthenticationRequest s = true -> ptk_move aa s (core_AUTHENTICATION2 ok)
  | mv_ptkstart : Init s = false -> PTKRequest s = true -> ptk_move aa s core_PTKSTART
  | mv_switch d : no_request s = true -> ptk_switch aa s d -> ptk_move aa s d.

End moves.

(** What a step may do besides: the keys are installed where the handshake
    ends. *)
Definition completes (s : wpa_sm) : bool :=
  bool_decide (wpa_ptk_state s = WPA_PTK_PTKINITNEGOTIATING) && pairwise_received s && MICVerified s.

Record installs (w w' : world) : Prop := mk_installs {
  i_stas : stas w' = stas w;
  i_idx : idx w' = idx w;
  i_addr : wpa_addr w' = wpa_addr w;
  i_conf : conf w' = conf w;
  i_cache : pmksa_cache w' = pmksa_cache w;
  i_stuck : stuck w' = stuck w;
  i_keys : pairwise_keys w' = pairwise_keys w \/
    completes (me w) = true /\
    exists alg res, pairwise_keys w' =
      w_set_key alg (Some (idx w)) 0 (slice (tk (PTK (me w))) 0 (wpa_cipher_key_len (pairwise (me w)))) res
        :: pairwise_keys w;
  i_timers : forall t, List.In t (rekey_timers (lp w')) ->
    List.In t (rekey_timers (lp w)) \/ (completes (me w) = true /\ user_ctx t = sta_ctx w)
}.

Lemma stays_installs w w' : stays w w' -> installs w w'.
Proof. intros []. split; auto. Qed.
Lemma installs_then w1 w2 w3 : installs w1 w2 -> stays w2 w3 -> installs w1 w3.
Proof.
  intros [] []. split; try congruence; [|by auto].
  destruct i_keys0 as [E|(Hc & alg & res & E)]; [left|right; split; [done|]; exists alg, res]; congruence.
Qed.

Section ptk_step.
Context `{AC : !AesCipher} `{O : !Oracle}.

Lemma Quiet_count_failure : Quiet count_failure.
Proof. unfold count_failure. quiet_assign. Qed.

Lemma Sim_DISCONNECT rec w : in_step_loop (me w) = true -> sim_at core_DISCONNECT (WPA_PTK_DISCONNECT_Enter rec) w.
Proof.
  intros Hl. unfold core_DISCONNECT, WPA_PTK_DISCONNECT_Enter. apply sim_at_seq; [sim|]. apply sim_at_seq; [sim|].
  apply Sim_disconnect. exact Hl.
Qed.
Lemma Sim_fail rec w : in_step_loop (me w) = true ->
  sim_at core_DISCONNECT (count_failure ;; WPA_PTK_DISCONNECT_Enter rec)%cmd w.
Proof. intros Hl. apply sim_at_quiet; [apply Quiet_count_failure|]. apply Sim_DISCONNECT. exact Hl. Qed.

Lemma Sim_initdone_tail :
  Sim (WHEN (fun c => bool_decide (wpa (cme c) = WPA_VERSION_WPA)) DO (cme ∷ PInitAKeys ::= true))%cmd initdone_tail.
Proof.
  unfold initdone_tail. do 3 (apply Sim_quiet_then; [quiet|]). intros w. unfold when, ite.
  change (wpa (cme (view w))) with (wpa (me w)). destruct (bool_decide _); revert w.
  - refine (_ : Sim (cme ∷ PInitAKeys ::= true)%cmd (me ∷ PInitAKeys ::= true)%cmd). sim.
  - refine (_ : Sim skip (me ∷ has_GTK ::= true)%cmd). apply Sim_quiet. quiet.
Qed.
End ptk_step.

Section initdone.
Context `{AC : !AesCipher} `{O : !Oracle}.

Lemma arm_rekey_installs w w1 : completes (me w) = true -> idx w1 = idx w -> installs w w1 -> installs w (arm_rekey w1).
Proof.
  intros Hc Hi []. unfold arm_rekey, when. destruct (negb _); [|by split]. unfold seq_cmd.
  pose proof (quiet_stays _ _ (Quiet_cancel_me wpa_rekey_ptk_h w1)) as []. set (w2 := cancel_me _ w1) in *. clearbody w2.
  split; cbn [stas idx wpa_addr conf pmksa_cache stuck assign_from setter]; try congruence.
  - change (pairwise_keys (setter lp _ w2)) with (pairwise_keys w2). rewrite s_keys0. done.
  - intros t Ht. destruct (rekey_register _ _ _ _ _ _ _ Ht) as [H|(_ & Hu & _)].
    + apply i_timers0. by apply s_timers0.
    + right. split; [done|]. rewrite Hu. unfold sta_ctx. congruence.
Qed.
Lemma arm_rekey_view w : view (arm_rekey w) = view w.
Proof.
  unfold arm_rekey, when. destruct (negb _); [|done]. unfold seq_cmd.
  rewrite <- (quiet_view _ _ (Quiet_cancel_me wpa_rekey_ptk_h w)). reflexivity.
Qed.

(** After the driver has taken the key. *)
Lemma Sim_port_open : Sim core_port_open port_open.
Proof. apply Sim_quiet_then; [quiet|apply Sim_initdone_tail]. Qed.

Lemma key_installed_does w w1 : completes (me w) = true -> idx w1 = idx w -> installs w w1 ->
  installs w (key_installed w1) /\ view (key_installed w1) = core_port_open (view w1).
Proof.
  intros Hc Hi H. unfold key_installed, seq_cmd at 1 3.
  set (w2 := (me ∷ pairwise_set ::= true)%cmd w1).
  assert (Q : quiet w1 w2) by (split; first [reflexivity|by intros]).
  assert (H2 : installs w w2) by (eapply installs_then; [exact H|by apply quiet_stays]).
  assert (Hi2 : idx w2 = idx w) by exact Hi. rewrite <- (quiet_view _ _ Q). clearbody w2. clear Q H Hi w1.
  pose proof (arm_rekey_installs _ _ Hc Hi2 H2) as H3. rewrite <- (arm_rekey_view w2). unfold seq_cmd.
  set (w3 := arm_rekey w2) in *. clearbody w3. clear H2 Hi2 w2.
  destruct (Sim_port_open w3) as [S V]. split; [by eapply installs_then|exact V].
Qed.
End initdone.

Section whole_step.
Context `{AC : !AesCipher} `{O : !Oracle}.

(** What the machine does in one step, seen from outside. *)
Definition steps_as (d : cmd core) (c : cmd world) (w : world) : Prop :=
  installs w (c w) /\ view (c w) = d (view w).

Lemma sim_steps_as d c w : sim_at d c w -> steps_as d c w.
Proof. intros [S V]. split; [by apply stays_installs|exact V]. Qed.

Lemma set_pairwise_key w w1 alg k :
  completes (me w) = true -> idx w1 = idx w -> PTK (me w1) = PTK (me w) -> pairwise (me w1) = pairwise (me w) ->
  installs w w1 -> pairwise_keys w1 = pairwise_keys w ->
  exists res w2, installs w w2 /\ view w2 = view w1 /\ idx w2 = idx w /\ in_step_loop (me w2) = in_step_loop (me w1) /\
    wpa_auth_set_key alg (Some (idx w1)) 0 (slice (tk (PTK (me w1))) 0 (wpa_cipher_key_len (pairwise (me w1)))) k w1 =
    k res w2.
Proof.
  intros Hc Hi Hp Hci [] Hk. unfold wpa_auth_set_key, ask. set (res := o_set_key (tick w1)). clearbody res.
  unfold seq_cmd. eexists res, _. split; [|split; [|split; [|split; [|reflexivity]]]];
    [|reflexivity|exact Hi|reflexivity].
  split; try done. unfold told, assign_from. unfold pairwise_keys at 1 3. cbn [outs setter is_pairwise_key List.filter].
  rewrite Hi, Hp, Hci. destruct (negb (bool_decide (alg = WPA_ALG_NONE))).
  - right. split; [done|]. exists alg, res. change (List.filter is_pairwise_key (outs w1)) with (pairwise_keys w1).
    by rewrite Hk.
  - left. exact Hk.
Qed.

Lemma PTKINITDONE_does rec w : in_step_loop (me w) = true -> completes (me w) = true ->
  exists ok, steps_as (core_PTKINITDONE ok) (WPA_PTK_PTKINITDONE_Enter rec) w.
Proof.
  intros Hl Hc. unfold WPA_PTK_PTKINITDONE_Enter, core_PTKINITDONE.
  set (w1 := (enter_ptk WPA_PTK_PTKINITDONE ;; me ∷ EAPOLKeyReceived ::= false)%cmd w).
  assert (HS : Sim (core_enter WPA_PTK_PTKINITDONE ;; cme ∷ EAPOLKeyReceived ::= false)%cmd
                   (enter_ptk WPA_PTK_PTKINITDONE ;; me ∷ EAPOLKeyReceived ::= false)%cmd) by sim.
  destruct (HS w) as [S1 V1]. fold w1 in S1, V1.
  enough (exists ok : bool, installs w (install_key rec w1) /\ view (install_key rec w1) = (if ok then core_port_open else core_deauth) (view w1)) as (ok & HI & HV).
  { exists ok. split; [exact HI|]. etrans; [exact HV|]. rewrite V1. reflexivity. }
  assert (Hi : idx w1 = idx w) by reflexivity. assert (Hp : PTK (me w1) = PTK (me w)) by reflexivity.
  assert (Hci : pairwise (me w1) = pairwise (me w)) by reflexivity.
  assert (Hl1 : in_step_loop (me w1) = true) by exact Hl. clearbody w1. clear HS V1.
  unfold install_key. destruct (Pair (me w1)).
  - destruct (set_pairwise_key w w1 (wpa_cipher_to_alg (pairwise (me w1)))
      (fun res => if negb (res =? 0) then wpa_sta_disconnect rec else key_installed) Hc Hi Hp Hci
      (stays_installs _ _ S1) (s_keys _ _ S1)) as (res & w2 & I2 & V2 & Hi2 & Hl2 & ->). rewrite <- V2.
    destruct (res =? 0); cbn [negb].
    + exists true. by apply key_installed_does.
    + exists false. destruct (Sim_disconnect rec w2) as [S V]; [by rewrite Hl2|].
      split; [by eapply installs_then|exact V].
  - exists true. destruct (Sim_initdone_tail w1) as [S V]. split; [|exact V].
    apply stays_installs. by eapply stays_trans.
Qed.
End whole_step.

Section step_theorem.
Context `{AC : !AesCipher} `{O : !Oracle}.

Lemma switch_does rec w : in_step_loop (me w) = true -> no_request (me w) = true ->
  exists d, ptk_switch (wpa_addr w) (sm_view (me w)) d /\ steps_as d (WPA_PTK_switch rec) w.
Proof.
  intros Hl Hn.
  assert (Fail : wpa_ptk_state (me w) = WPA_PTK_INITPMK \/ wpa_ptk_state (me w) = WPA_PTK_INITPSK \/
                 wpa_ptk_state (me w) = WPA_PTK_PTKSTART \/ wpa_ptk_state (me w) = WPA_PTK_PTKINITNEGOTIATING ->
      exists d, ptk_switch (wpa_addr w) (sm_view (me w)) d /\
        steps_as d (count_failure ;; WPA_PTK_DISCONNECT_Enter rec)%cmd w).
  { intros H. exists core_DISCONNECT. split; [by apply sw_fail|]. apply sim_steps_as. by apply Sim_fail. }
  assert (Stay : waiting (me w) = true ->
      exists d, ptk_switch (wpa_addr w) (sm_view (me w)) d /\ steps_as d skip w).
  { intros H. exists skip. split; [by apply sw_stay|]. split; [apply stays_installs, stays_refl|done]. }
  assert (Calc : (wpa_ptk_state (me w) = WPA_PTK_PTKSTART \/ wpa_ptk_state (me w) = WPA_PTK_PTKCALCNEGOTIATING) /\
                 pairwise_received (me w) = true \/
                 wpa_ptk_state (me w) = WPA_PTK_PTKINITNEGOTIATING /\ update_snonce (me w) = true ->
      exists d, ptk_switch (wpa_addr w) (sm_view (me w)) d /\ steps_as d WPA_PTK_PTKCALCNEGOTIATING_Enter w).
  { intros H. destruct (Sim_PTKCALC w) as (found & Hf & S). exists (core_PTKCALC found). split; [apply sw_calc; [exact H|exact Hf]|].
    by apply sim_steps_as. }
  assert (Go : forall d c, ptk_switch (wpa_addr w) (sm_view (me w)) d -> Sim d c ->
      exists d, ptk_switch (wpa_addr w) (sm_view (me w)) d /\ steps_as d c w).
  { intros d c Hd H. exists d. split; [done|]. apply sim_steps_as, H. }
  unfold steps_as, WPA_PTK_switch in *. unfold waiting in Stay.
  destruct (wpa_ptk_state (me w)) eqn:Hs; try (apply Stay; reflexivity).
  - apply (Go core_DISCONNECTED); [by apply sw_disconnected|apply Sim_DISCONNECTED].
  - apply (Go core_INITIALIZE); [by apply sw_initialize|apply Sim_INITIALIZE].
  - destruct (Sim_AUTHENTICATION2 w) as [ok S]. exists (core_AUTHENTICATION2 ok). split; [by apply sw_auth2|].
    by apply sim_steps_as.
  - destruct (_ && get_keyRun w).
    { exists (core_INITPMK (initpmk_key (me w))). split; [exact (sw_initpmk _ (sm_view (me w)) Hs)|]. apply sim_steps_as, Sim_INITPMK. }
    destruct (wpa_key_mgmt_wpa_psk _); [|by apply Stay].
    exists (core_INITPSK (option_map (take PMK_LEN) (head (psks (me w))))).
    split; [exact (sw_initpsk _ (sm_view (me w)) Hs)|]. apply sim_steps_as, Sim_INITPSK.
  - destruct (get_keyAvailable w); [|apply Fail; tauto].
    apply (Go core_PTKSTART); [by apply sw_start_pmk|apply Sim_PTKSTART].
  - destruct (non_null _) eqn:Hp; [|apply Fail; tauto].
    apply (Go core_PTKSTART); [by apply sw_start_psk|apply Sim_PTKSTART].
  - destruct (pairwise_received (me w)) eqn:Hr; [apply Calc; tauto|]. destruct (_ <? _); [apply Fail; tauto|].
    destruct (TimeoutEvt (me w)) eqn:Ht; [|by apply Stay].
    apply (Go core_PTKSTART); [apply sw_start_again; [by left|done]|apply Sim_PTKSTART].
  - destruct (MICVerified (me w)) eqn:Hm; [apply (Go core_PTKCALC2); [by apply sw_calc2|apply Sim_PTKCALC2]|].
    destruct (pairwise_received (me w)) eqn:Hr; [apply Calc; tauto|].
    destruct (TimeoutEvt (me w)) eqn:Ht; [|by apply Stay].
    apply (Go core_PTKSTART); [apply sw_start_again; [by right|done]|apply Sim_PTKSTART].
  - apply (Go core_PTKINITNEG); [by apply sw_initneg|apply Sim_PTKINITNEG].
  - destruct (update_snonce (me w)) eqn:Hu; [apply Calc; tauto|].
    destruct (pairwise_received (me w) && MICVerified (me w)) eqn:Hr.
    + bool_hyps. destruct (PTKINITDONE_does rec w Hl) as [ok S].
      { unfold completes. rewrite bool_decide_eq_true_2 by done. by rewrite H, H0. }
      exists (core_PTKINITDONE ok). split; [by apply sw_initdone|done].
    + destruct (_ <? _); [apply Fail; tauto|].
      destruct (TimeoutEvt (me w)) eqn:Ht; [|by apply Stay].
      apply (Go core_PTKINITNEG); [by apply sw_initneg_again|apply Sim_PTKINITNEG].
Qed.

Lemma PTK_Step_does rec w : in_step_loop (me w) = true ->
  exists d, ptk_move (wpa_addr w) (sm_view (me w)) d /\ steps_as d (WPA_PTK_Step rec) w.
Proof.
  intros Hl.
  assert (Go : forall d c, ptk_move (wpa_addr w) (sm_view (me w)) d -> Sim d c ->
      exists d, ptk_move (wpa_addr w) (sm_view (me w)) d /\ steps_as d c w).
  { intros d c Hd H. exists d. split; [done|]. apply sim_steps_as, H. }
  unfold steps_as, WPA_PTK_Step in *.
  destruct (Init (me w)) eqn:H1; [apply (Go core_INITIALIZE); [by apply mv_init|apply Sim_INITIALIZE]|].
  destruct (Disconnect (me w)) eqn:H2.
  { exists core_DISCONNECT. split; [by apply mv_disconnect|]. apply sim_steps_as. by apply Sim_DISCONNECT. }
  destruct (DeauthenticationRequest (me w)) eqn:H3;
    [apply (Go core_DISCONNECTED); [by apply mv_disconnected|apply Sim_DISCONNECTED]|].
  destruct (AuthenticationRequest (me w)) eqn:H4;
    [apply (Go core_AUTHENTICATION); [by apply mv_authentication|apply Sim_AUTHENTICATION]|].
  destruct (ReAuthenticationRequest (me w)) eqn:H5.
  { destruct (Sim_AUTHENTICATION2 w) as [ok S]. exists (core_AUTHENTICATION2 ok). split; [by apply mv_authentication2|].
    by apply sim_steps_as. }
  destruct (PTKRequest (me w)) eqn:H6; [apply (Go core_PTKSTART); [by apply mv_ptkstart|apply Sim_PTKSTART]|].
  assert (Hn : no_request (me w) = true) by (unfold no_request; by rewrite H1, H2, H3, H4, H5, H6).
  destruct (switch_does rec w Hl Hn) as (d & Hd & S). exists d. split; [by apply mv_switch|exact S].
Qed.
End step_theorem.

(** ** One step of the PTK group machine *)

Inductive group_move (s : wpa_sm) : cmd core -> Prop :=
  | gm_init : Init s || PtkGroupInit s = true -> group_move s (core_IDLE ;; cme ∷ PtkGroupInit ::= false)%cmd
  | gm_stay : group_move s skip
  | gm_rekey : Init s = false -> wpa_ptk_group_state s = WPA_PTK_GROUP_IDLE ->
      GUpdateStationKeys s || bool_decide (wpa s = WPA_VERSION_WPA) && PInitAKeys s = true ->
      group_move s core_REKEYNEG
  | gm_established : Init s = false -> wpa_ptk_group_state s = WPA_PTK_GROUP_REKEYNEGOTIATING ->
      group_move s core_REKEYESTABLISHED
  | gm_error : Init s = false -> wpa_ptk_group_state s = WPA_PTK_GROUP_REKEYNEGOTIATING ->
      dot11RSNAConfigGroupUpdateCount < GTimeoutCtr s -> group_move s core_KEYERROR
  | gm_again : Init s = false -> wpa_ptk_group_state s = WPA_PTK_GROUP_REKEYNEGOTIATING ->
      GTimeoutCtr s <= dot11RSNAConfigGroupUpdateCount -> TimeoutEvt s = true -> group_move s core_REKEYNEG
  | gm_back : Init s = false -> wpa_ptk_group_state s = WPA_PTK_GROUP_REKEYESTABLISHED \/
              wpa_ptk_group_state s = WPA_PTK_GROUP_KEYERROR -> group_move s core_IDLE.

Lemma Sim_unless (q : core -> bool) (p : world -> bool) d c :
  (forall w, p w = q (view w)) -> Sim d c -> Sim (WHEN (fun c => negb (q c)) DO d)%cmd (fun w => if p w then w else c w).
Proof.
  intros Hp H w. unfold when. rewrite Hp. destruct (q (view w)); [split; [apply stays_refl|done]|apply H].
Qed.

Section group_entries.
Context `{AC : !AesCipher} `{O : !Oracle}.

Lemma Sim_IDLE : Sim core_IDLE WPA_PTK_GROUP_IDLE_Enter.
Proof. unfold core_IDLE, WPA_PTK_GROUP_IDLE_Enter. sim. Qed.
Lemma Sim_IDLE_init :
  Sim (core_IDLE ;; cme ∷ PtkGroupInit ::= false)%cmd (WPA_PTK_GROUP_IDLE_Enter ;; me ∷ PtkGroupInit ::= false)%cmd.
Proof. apply Sim_seq; [apply Sim_IDLE|sim]. Qed.
Lemma Sim_ESTABLISHED : Sim core_REKEYESTABLISHED WPA_PTK_GROUP_REKEYESTABLISHED_Enter.
Proof. unfold core_REKEYESTABLISHED, WPA_PTK_GROUP_REKEYESTABLISHED_Enter. sim. Qed.
Lemma Sim_KEYERROR : Sim core_KEYERROR WPA_PTK_GROUP_KEYERROR_Enter.
Proof. unfold core_KEYERROR, WPA_PTK_GROUP_KEYERROR_Enter. sim. Qed.

Lemma Quiet_send_group_message (rsc : list Z) :
  Quiet (gtk_for_sta (fun gtk =>
    match gtk with
    | None => skip
    | Some gtk => fun w =>
        if bool_decide (wpa (me w) = WPA_VERSION_WPA2) then
          ask o_oom (fun oom =>
            if oom then skip
            else ieee80211w_kde_add (fun igtk_kde w =>
                   send_group_1of2 rsc (gtk_kde (GN (grp w)) gtk ++ igtk_kde) w)) w
        else send_group_1of2 rsc gtk w
    end)).
Proof.
  apply Quiet_call; [apply Quietk_gtk_for_sta|]. intros [gtk|]; [|apply Quiet_skip].
  apply Quiet_if_at; [|apply Quiet_send_group_1of2]. apply Quiet_call; [apply Quietk_ask|]. intros oom.
  apply Quiet_if; [apply Quiet_skip|]. apply Quiet_call; [apply Quietk_ieee80211w_kde_add|].
  intros x w. apply Quiet_send_group_1of2.
Qed.

Lemma Sim_REKEYNEG : Sim core_REKEYNEG WPA_PTK_GROUP_REKEYNEGOTIATING_Enter.
Proof.
  unfold core_REKEYNEG, WPA_PTK_GROUP_REKEYNEGOTIATING_Enter. apply Sim_seq; [sim|]. apply Sim_seq; [sim|].
  apply (Sim_unless (fun c => dot11RSNAConfigGroupUpdateCount <? GTimeoutCtr (cme c))); [reflexivity|].
  apply Sim_seq; [sim|]. apply Sim_then_quiet; [sim|]. cbv zeta.
  apply Quiet_if_at; [|apply Quiet_send_group_message].
  apply Quiet_call; [apply Quietk_get_seqnum|]. intros r. apply Quiet_send_group_message.
Qed.

Lemma GROUP_Step_does w :
  exists d, group_move (sm_view (me w)) d /\ sim_at d WPA_PTK_GROUP_Step w.
Proof.
  assert (Go : forall d c, group_move (sm_view (me w)) d -> Sim d c ->
      exists d, group_move (sm_view (me w)) d /\ sim_at d c w).
  { intros d c Hd H. exists d. split; [done|apply H]. }
  assert (Stay : exists d, group_move (sm_view (me w)) d /\ sim_at d skip w).
  { exists skip. split; [apply gm_stay|split; [apply stays_refl|done]]. }
  unfold sim_at, WPA_PTK_GROUP_Step in *. cbv zeta.
  destruct (Init (me w) || PtkGroupInit (me w)) eqn:Hi; [apply (Go _ _ (gm_init (sm_view (me w)) Hi) Sim_IDLE_init)|].
  apply orb_false_elim in Hi as [Hi _]. destruct (wpa_ptk_group_state (me w)) eqn:Hs.
  - destruct (_ || _) eqn:Hu; [|exact Stay]. exact (Go _ _ (gm_rekey (sm_view (me w)) Hi Hs Hu) Sim_REKEYNEG).
  - destruct (_ && _); [exact (Go _ _ (gm_established (sm_view (me w)) Hi Hs) Sim_ESTABLISHED)|].
    destruct (_ <? _) eqn:Ht; bool_hyps; [exact (Go _ _ (gm_error (sm_view (me w)) Hi Hs Ht) Sim_KEYERROR)|].
    destruct (TimeoutEvt (me w)) eqn:He; [|exact Stay].
    exact (Go _ _ (gm_again (sm_view (me w)) Hi Hs Ht He) Sim_REKEYNEG).
  - exact (Go _ _ (gm_back (sm_view (me w)) Hi (or_introl Hs)) Sim_IDLE).
  - exact (Go _ _ (gm_back (sm_view (me w)) Hi (or_intror Hs)) Sim_IDLE).
Qed.
End group_entries.
