(* ===== verification/WpaRun.v ===== *)
(** * The WPA authenticator: runs of the machines

    [wpa_sm_step] runs the machine of one station until nothing changes, and
    rekeying the group key runs the machines of other stations in the middle
    of it.  A run is a sequence of small steps ([wstep]) between worlds that
    are told apart by the [views] of their stations and of the group, and it
    always ends ([wpa_sm_step_runs]): every iteration lowers [measure], and a
    run inside another one changes no more than two flags of a station whose
    machine is running already ([flagged]). *)

From Stdlib Require Import String.
From S2P Require Import Prelude.
From S2P Require Import Eloop.
From S2P Require Import Wpabuf.
From S2P Require Import Common.
From S2P Require Import Aes.
From S2P Require Import Hash.
From S2P Require Import WpaCommon.
From S2P Require Import WpaIe.
From S2P Require Import WpaAuth.
From S2P Require Import WpaSteps.

(** ** The stations of a world *)

Definition views (w : world) : list wpa_sm := map sm_view (stored w).
Definition gview (w : world) : wpa_group := grp_view (grp w).

(** There is a station in the focus, or there are none. *)
Definition focused (w : world) : Prop := (idx w < length (stas w))%nat \/ stas w = [].

Lemma length_stored w : length (stored w) = length (stas w).
Proof. unfold stored. apply length_insert. Qed.
Lemma length_views w : length (views w) = length (stas w).
Proof. unfold views. by rewrite length_map, length_stored. Qed.

Lemma views_me w : (idx w < length (stas w))%nat -> views w !! idx w = Some (sm_view (me w)).
Proof. intros H. unfold views, stored. rewrite list_lookup_fmap, list_lookup_insert_eq by done. done. Qed.
Lemma views_stas w : views w = <[idx w := sm_view (me w)]> (map sm_view (stas w)).
Proof. unfold views, stored. apply list_fmap_insert. Qed.
Lemma views_update w w' : stas w' = stas w -> idx w' = idx w -> views w' = <[idx w := sm_view (me w')]> (views w).
Proof. intros Hs Hi. rewrite !views_stas, Hs, Hi. by rewrite list_insert_insert_eq. Qed.
Lemma views_same w w' : stas w' = stas w -> idx w' = idx w -> sm_view (me w') = sm_view (me w) -> views w' = views w.
Proof. intros Hs Hi Hm. by rewrite !views_stas, Hs, Hi, Hm. Qed.

Lemma stored_focus j w : stored (focus j w) = stored w.
Proof.
  unfold focus, seq_cmd, assign. unfold stored at 1. cbn [idx me stas setter].
  destruct (stored w !! j) as [s|] eqn:E.
  - rewrite (nth_lookup_Some _ _ _ _ E). by apply list_insert_id.
  - apply lookup_ge_None in E. by rewrite list_insert_ge.
Qed.
Lemma views_focus j w : views (focus j w) = views w.
Proof. unfold views. by rewrite stored_focus. Qed.
Lemma idx_focus j w : idx (focus j w) = j.
Proof. reflexivity. Qed.
Lemma stas_focus j w : stas (focus j w) = stored w.
Proof. reflexivity. Qed.
Lemma length_stas_focus j w : length (stas (focus j w)) = length (stas w).
Proof. rewrite stas_focus. apply length_stored. Qed.

(** ** Small steps *)

Section small_steps.
Context `{AC : !AesCipher}.

(** What leaves the stations and the group alone, as far as they are seen. *)
Record same_rest (w w' : world) : Prop := mk_same_rest {
  r_addr : wpa_addr w' = wpa_addr w;
  r_cache : pmksa_cache w' = pmksa_cache w;
  r_stuck : stuck w' = stuck w
}.

(** [s] with two of its flags replaced. *)
Definition flagged (disc upd : bool) (s : wpa_sm) : wpa_sm :=
  setter Disconnect (fun _ => disc) (setter GUpdateStationKeys (fun _ => upd) s).

Inductive wstep (w w' : world) : Prop :=
  | ws_quiet : quiet w w' -> wstep w w'
  | ws_focus j : (j < length (stas w))%nat \/ stas w = [] -> w' = focus j w -> wstep w w'
  | ws_group : stays w w' -> sm_view (me w') = sm_view (me w) -> wstep w w'
  | ws_flags b : stays w w' -> sm_view (me w') = sm_view (flagged (Disconnect (me w) || b) (GUpdateStationKeys (me w')) (me w)) ->
      wstep w w'
  | ws_enter : in_step_loop (me w) = false -> stays w w' ->
      view w' = (cme ∷ in_step_loop ::= true)%cmd (view w) -> wstep w w'
  | ws_reset : in_step_loop (me w) = true -> stays w w' ->
      view w' = (cme ∷ changed ::= false ;; cgrp ∷ gchanged ::= false)%cmd (view w) -> wstep w w'
  | ws_ptk d : (idx w < length (stas w))%nat -> in_step_loop (me w) = true -> ptk_move (wpa_addr w) (sm_view (me w)) d -> installs w w' ->
      view w' = d (view w) -> wstep w w'
  | ws_ptk_group d : in_step_loop (me w) = true -> group_move (sm_view (me w)) d -> stays w w' ->
      view w' = d (view w) -> wstep w w'
  | ws_exit : in_step_loop (me w) = true -> waiting (me w) = true -> stays w w' ->
      view w' = (cme ∷ in_step_loop ::= false)%cmd (view w) -> wstep w w'.

Definition wsteps : world -> world -> Prop := rtc wstep.

Lemma wsteps_one w w' : wstep w w' -> wsteps w w'.
Proof. apply rtc_once. Qed.
Lemma wsteps_quiet w w' : quiet w w' -> wsteps w w'.
Proof. intros. by apply wsteps_one, ws_quiet. Qed.

(** *** What every step keeps *)

Lemma installs_rest w w' : installs w w' -> same_rest w w'.
Proof. intros []. by split. Qed.
Lemma stays_rest w w' : stays w w' -> same_rest w w'.
Proof. intros []. by split. Qed.

End small_steps.

(** ** The measure

    What a flag can still set in motion, and how far a machine is from a
    state where it waits.  A station that is being initialised goes nowhere. *)

Definition ptk_rank (st : wpa_ptk_states) : Z :=
  match st with
  | WPA_PTK_INITIALIZE | WPA_PTK_PTKINITDONE => 0
  | WPA_PTK_DISCONNECTED => 1
  | WPA_PTK_DISCONNECT => 2
  | WPA_PTK_PTKINITNEGOTIATING => 10
  | WPA_PTK_PTKCALCNEGOTIATING2 => 11
  | WPA_PTK_PTKSTART | WPA_PTK_PTKCALCNEGOTIATING => 12
  | WPA_PTK_INITPMK | WPA_PTK_INITPSK => 13
  | WPA_PTK_AUTHENTICATION2 => 19
  | WPA_PTK_AUTHENTICATION => 25
  end.

Definition weight (b : bool) (n : Z) : Z := if b then n else 0.

Definition ptk_group_rank (s : wpa_sm) : Z :=
  match wpa_ptk_group_state s with
  | WPA_PTK_GROUP_IDLE => weight (GUpdateStationKeys s) 9
  | WPA_PTK_GROUP_REKEYNEGOTIATING => 7 + weight (GTimeoutCtr s <=? dot11RSNAConfigGroupUpdateCount) 1
  | WPA_PTK_GROUP_REKEYESTABLISHED | WPA_PTK_GROUP_KEYERROR => 1 + weight (GUpdateStationKeys s) 9
  end.

Definition flag_weights (s : wpa_sm) : Z :=
  weight (Disconnect s) 5 + weight (DeauthenticationRequest s) 2 + weight (AuthenticationRequest s) 26 +
  weight (ReAuthenticationRequest s) 25 + weight (PTKRequest s) 13 + weight (TimeoutEvt s) 1 +
  weight (EAPOLKeyReceived s) 1 + weight (update_snonce s) 3 + weight (PtkGroupInit s) 10 +
  weight (match wpa s with WPA_VERSION_WPA => PInitAKeys s | _ => false end) 9.

Definition mu (s : wpa_sm) : Z :=
  if Init s then 0 else flag_weights s + ptk_rank (wpa_ptk_state s) + ptk_group_rank s.

(** An idle group machine has not counted any timeout. *)
Definition idle_ok (s : wpa_sm) : Prop := wpa_ptk_group_state s = WPA_PTK_GROUP_IDLE -> GTimeoutCtr s = 0.

Lemma weight_range b n : 0 <= n -> 0 <= weight b n <= n.
Proof. destruct b; cbn; lia. Qed.
Lemma mu_range s : 0 <= mu s <= 137.
Proof.
  unfold mu, flag_weights, ptk_group_rank. destruct (Init s); [lia|].
  assert (0 <= ptk_rank (wpa_ptk_state s) <= 25) by (destruct (wpa_ptk_state s); cbn; lia).
  repeat match goal with |- context [weight ?b ?n] => pose proof (weight_range b n ltac:(lia)); generalize dependent (weight b n); intros end.
  destruct (wpa_ptk_group_state s); lia.
Qed.

(** What a move of either machine keeps of a running station. *)
Record keeps (s s' : wpa_sm) : Prop := mk_keeps {
  k_addr : sm_addr s' = sm_addr s;
  k_loop : in_step_loop s' = in_step_loop s;
  k_pending : pending_deinit s' = pending_deinit s;
  k_init : Init s' = Init s;
  k_listed : listed s' = listed s;
  k_freed : freed s' = freed s
}.

(** Evaluating the effect of an entry on a known record. *)
Declare Reduction core_red :=
  cbv beta iota zeta delta
    [core_INITIALIZE core_DISCONNECT core_DISCONNECTED core_AUTHENTICATION core_AUTHENTICATION2 core_INITPMK core_INITPSK
     core_PTKSTART core_PTKCALC core_PTKCALC2 core_PTKINITNEG core_PTKINITDONE core_port_open core_deauth core_no_ptk
     core_keys_done core_enter core_enter_group core_IDLE core_REKEYNEG core_REKEYESTABLISHED core_KEYERROR
     negb andb orb bool_decide decide decide_rel wpa_version_eq_dec wpa_version_rec wpa_version_rect
     seq_cmd assign assign_in assign_in_from assign_from when skip setter cme cgrp eta_core eta_wpa_sm eta_wpa_group
     sm_addr wpa_ptk_state wpa_ptk_group_state Init DeauthenticationRequest AuthenticationRequest
     ReAuthenticationRequest Disconnect TimeoutCtr GTimeoutCtr TimeoutEvt EAPOLKeyReceived
     EAPOLKeyPairwise EAPOLKeyRequest MICVerified GUpdateStationKeys ANonce SNonce alt_SNonce
     alt_replay_counter PMK PTK PTK_valid pairwise_set keycount Pair key_replay prev_key_replay
     PInitAKeys PTKRequest has_GTK PtkGroupInit last_rx_eapol_key last_rx_eapol_key_len changed
     in_step_loop pending_deinit started mgmt_frame_prot rx_eapol_key_secure update_snonce
     alt_snonce_valid req_replay_counter req_replay_counter_used wpa_ie wpa pairwise wpa_key_mgmt
     pmksa RemoteMICFailures pending_1_of_4_timeout psks msk has_eapol_sm keyRun keyAvailable listed
     freed vlan_id GInit GKeyDoneStations GTKReKey GTK_len GN GM GTKAuthenticator Counter
     wpa_group_state GMK GTK GNonce gchanged first_sta_seen reject_4way_hs_for_entropy IGTK GN_igtk
     GM_igtk].
Ltac core_eval := match goal with |- ?G => let G := eval core_red in G in change_no_check G end.
Ltac core_eval_in H := let T := type of H in let U := eval core_red in T in assert_fails (constr_eq T U); change_no_check U in H.

Record measured (s s' : wpa_sm) : Prop := mk_measured {
  m_keeps : keeps s s';
  m_idle : idle_ok s -> idle_ok s';
  m_mu : mu s' <= mu s;
  m_less : changed s = false -> changed s' = true -> mu s' < mu s
}.

(** The conditions in an entry are decided before it is evaluated. *)
Ltac core_cases s :=
  lazymatch goal with
  | |- context [core_INITIALIZE] => destruct (GUpdateStationKeys s) eqn:?, (Init s) eqn:?, (wpa s) eqn:?
  | |- context [core_DISCONNECT] => destruct (listed s) eqn:?, (freed s) eqn:?
  | |- context [core_PTKINITDONE ?ok] => destruct ok; [destruct (wpa s) eqn:?|destruct (listed s) eqn:?, (freed s) eqn:?]
  | |- context [core_AUTHENTICATION2 ?ok] => destruct ok
  | |- context [core_INITPMK ?k] => lazymatch k with Some _ => idtac | None => idtac | _ => destruct k end
  | |- context [core_INITPSK ?k] => lazymatch k with Some _ => idtac | None => idtac | _ => destruct k end
  | |- context [core_PTKCALC ?k] => lazymatch k with Some _ => idtac | None => idtac | _ => destruct k as [[[] ?]|] end
  | |- context [core_IDLE] => destruct (Init s) eqn:?
  | |- context [core_REKEYNEG] =>
      destruct (dot11RSNAConfigGroupUpdateCount <? GTimeoutCtr s + 1) eqn:?, (wpa s) eqn:?, (GUpdateStationKeys s) eqn:?,
        (PInitAKeys s) eqn:?
  | |- context [core_REKEYESTABLISHED] => destruct (GUpdateStationKeys s) eqn:?
  | |- context [core_KEYERROR] => destruct (GUpdateStationKeys s) eqn:?
  | _ => idtac
  end.
Ltac core_solve s :=
  core_cases s; destruct s;
  repeat match goal with
    | H : _ = _ |- _ => core_eval_in H
    | H : _ <= _ |- _ => core_eval_in H
    | H : _ < _ |- _ => core_eval_in H
    end;
  repeat match goal with H : ?x = _ |- _ => is_var x; subst x | H : _ = ?x |- _ => is_var x; subst x end;
  try discriminate; core_eval;
  repeat match goal with H : ?b = _ |- context [if ?b then _ else _] => rewrite H end; core_eval.

Lemma ptk_rank_nonneg st : 0 <= ptk_rank st.
Proof. destruct st; cbn; lia. Qed.

(** Comparing measures. *)
Ltac weigh :=
  repeat match goal with
  | |- context [weight ?b ?n] =>
      lazymatch b with
      | true => change (weight true n) with n
      | false => change (weight false n) with 0
      | ?x <=? ?y => destruct (Z.leb_spec x y)
      | _ => pose proof (weight_range b n ltac:(lia)); generalize dependent (weight b n); intros
      end
  | |- context [ptk_rank ?st] => is_var st; pose proof (ptk_rank_nonneg st); generalize dependent (ptk_rank st); intros
  end.
Ltac measure_solve :=
  unfold mu, flag_weights, ptk_group_rank; core_eval; cbn [ptk_rank orb andb negb];
  repeat match goal with |- context [match ?x with
    | WPA_PTK_GROUP_IDLE => _ | WPA_PTK_GROUP_REKEYNEGOTIATING => _ | WPA_PTK_GROUP_REKEYESTABLISHED => _
    | WPA_PTK_GROUP_KEYERROR => _ end] => destruct x end;
  weigh; bool_hyps; unfold dot11RSNAConfigGroupUpdateCount in *; lia.
Ltac measured_solve :=
  split; [split; reflexivity | unfold idle_ok; core_eval; intros; first [discriminate|auto] | intros; measure_solve | core_eval; intros; first [discriminate|measure_solve]].

Section measure.
Context `{AC : !AesCipher}.

Lemma ptk_move_measured aa s g d : changed s = false -> ptk_move aa s d ->
  let s' := cme (d (mk_core s g)) in
  measured s s' /\ (changed s' = false \/ Init s' = true -> waiting s' = true).
Proof.
  intros Hc Hm. destruct Hm as [Hi|Hi Hd|Hi Hd|Hi Hd|ok Hi Hd|Hi Hd|d Hn Hd].
  all: try (core_solve s; (split; [measured_solve|by intros [?|?]])).
  unfold no_request in Hn. bool_hyps. destruct Hd as [Hs|Hs|Hs|ok Hs|Hs|Hs|Hs|Hs Hp|Hs Ht|Hs|found Hs Hf|Hs Hv|Hs|Hs Ht|ok Hs Hr Hv].
  all: repeat match goal with H : _ \/ _ |- _ => destruct H | H : _ /\ _ |- _ => destruct H
       | H : pairwise_received _ = true |- _ => unfold pairwise_received in H; bool_hyps end.
  all: try (core_solve s; (split; [measured_solve|by intros [?|?]])).
Qed.

Lemma group_move_measured s g d : group_move s d -> idle_ok s ->
  let s' := cme (d (mk_core s g)) in
  measured s s' /\ (waiting s = true -> waiting s' = true) /\ (changed s' = false -> changed s = false \/ Init s = true).
Proof.
  intros Hm Hi. unfold idle_ok in Hi.
  destruct Hm as [Hn| |Hn Hs Hu|Hn Hs|Hn Hs Ht|Hn Hs Ht He|Hn Hs].
  2:{ split; [split; [by split|done|apply Z.le_refl|intros ? ?; simpl in *; congruence]|auto]. }
  all: repeat match goal with H : _ \/ _ |- _ => destruct H end.
  all: try (specialize (Hi Hs)).
  all: core_solve s; (split; [measured_solve|split; [|first [by intros|by right]]]).
  all: intros Hw; unfold waiting, pairwise_received in *; core_eval_in Hw; core_eval; try exact Hw.
  all: destruct wpa_ptk_state; try done; [destruct MICVerified|destruct update_snonce]; done.
Qed.
End measure.

(** ** Runs inside runs *)

(** How far the group is from a state where it waits. *)
Definition grank (g : wpa_group) : Z :=
  match wpa_group_state g with
  | WPA_GROUP_FATAL_FAILURE => 0
  | WPA_GROUP_SETKEYSDONE => 1
  | WPA_GROUP_SETKEYS | WPA_GROUP_GTK_INIT => 2
  end + weight (GTKReKey g) 2.

Lemma grank_range g : 0 <= grank g <= 4.
Proof. unfold grank. pose proof (weight_range (GTKReKey g) 2). destruct (wpa_group_state g); lia. Qed.

Lemma flagged_flagged a b c d s : flagged a b (flagged c d s) = flagged a b s.
Proof. reflexivity. Qed.
Lemma flagged_same s : flagged (Disconnect s) (GUpdateStationKeys s) s = s.
Proof. by destruct s. Qed.
Lemma mu_flagged a b s : mu (flagged a b s) <= mu s + 14.
Proof.
  unfold mu, flagged. core_eval. destruct s. core_eval. destruct Init; [lia|].
  unfold flag_weights, ptk_group_rank. core_eval.
  destruct wpa_ptk_group_state; weigh; lia.
Qed.

(** What holds of every station between two steps. *)
Definition sound_sm (s : wpa_sm) : Prop := pending_deinit s = false /\ idle_ok s.
Record winv (w : world) : Prop := mk_winv {
  wi_focused : focused w;
  wi_group : GInit (grp w) = false;
  wi_stas : forall i s, views w !! i = Some s -> sound_sm s
}.

Section nested.
Context `{AC : !AesCipher}.

(** A run that leaves the stations alone whose machines are running, but for
    two flags. *)
Record loosely (w w' : world) : Prop := mk_loosely {
  l_steps : wsteps w w';
  l_len : length (stas w') = length (stas w);
  l_stuck : stuck w' = stuck w;
  l_inv : winv w -> winv w';
  l_loops : forall i s s', views w !! i = Some s -> views w' !! i = Some s' -> in_step_loop s' = in_step_loop s;
  l_running : forall i s s', views w !! i = Some s -> views w' !! i = Some s' -> in_step_loop s = true ->
    exists a b, s' = flagged a b s;
  l_rekey : GTKReKey (grp w') = true -> GTKReKey (grp w) = true;
  l_rank : grank (grp w') <= grank (grp w)
}.

(** The flags are changed only where the group has moved on. *)
Definition nested (w w' : world) : Prop :=
  loosely w w' /\
  (grank (grp w') < grank (grp w) \/
   forall i s, views w !! i = Some s -> in_step_loop s = true -> views w' !! i = Some s).

Lemma lookup_other w w' i s' : length (stas w') = length (stas w) -> views w' !! i = Some s' -> exists s, views w !! i = Some s.
Proof.
  intros Hl H. apply lookup_lt_is_Some_2. apply lookup_lt_Some in H. rewrite length_views in *. congruence.
Qed.

Lemma loosely_trans w1 w2 w3 : loosely w1 w2 -> loosely w2 w3 -> loosely w1 w3.
Proof.
  intros [A1 A2 A3 A4 A5 A6 A7 A8] [B1 B2 B3 B4 B5 B6 B7 B8]. split; try congruence; auto; [by etrans| | |lia].
  - intros i s s3 Hs Hs3. destruct (lookup_other w2 w3 i s3 B2 Hs3) as [s2 Hs2].
    rewrite (B5 _ _ _ Hs2 Hs3). eauto.
  - intros i s s3 Hs Hs3 Hl. destruct (lookup_other w2 w3 i s3 B2 Hs3) as [s2 Hs2].
    destruct (A6 _ _ _ Hs Hs2 Hl) as (a & b & ->).
    destruct (B6 _ _ _ Hs2 Hs3 Hl) as (c & d & ->). by exists c, d.
Qed.
Lemma nested_trans w1 w2 w3 : nested w1 w2 -> nested w2 w3 -> nested w1 w3.
Proof.
  intros [A A'] [B B']. split; [by eapply loosely_trans|].
  pose proof (l_rank _ _ A). pose proof (l_rank _ _ B).
  destruct A' as [A'|A']; [left; lia|]. destruct B' as [B'|B']; [left; lia|]. right.
  intros i s Hs Hl. apply B'; [by apply A'|done].
Qed.
(** Flags may change once the group has moved on. *)
Lemma nested_then_loosely w1 w2 w3 : nested w1 w2 -> grank (grp w2) < grank (grp w1) -> loosely w2 w3 -> nested w1 w3.
Proof.
  intros [A _] Hr B. split; [by eapply loosely_trans|]. left. pose proof (l_rank _ _ B). lia.
Qed.

(** Nothing but the group has changed, or the station in the focus. *)
Lemma same_views_nested w w' : wstep w w' -> views w' = views w -> focused w' ->
  length (stas w') = length (stas w) -> stuck w' = stuck w ->
  GInit (grp w') = GInit (grp w) -> (GTKReKey (grp w') = true -> GTKReKey (grp w) = true) ->
  grank (grp w') <= grank (grp w) -> nested w w'.
Proof.
  intros Hw Hv Hf Hl Hs Hg Hk Hr. split; [split; try done|]; rewrite ?Hv.
  - by apply wsteps_one.
  - intros []. split; [done|congruence|by rewrite Hv].
  - intros. congruence.
  - intros i s s' H1 H2 _. exists (Disconnect s), (GUpdateStationKeys s). rewrite flagged_same. congruence.
  - right. auto.
Qed.

Lemma gview_group w w' : gview w' = gview w ->
  GInit (grp w') = GInit (grp w) /\ GTKReKey (grp w') = GTKReKey (grp w) /\ wpa_group_state (grp w') = wpa_group_state (grp w).
Proof.
  intros H. apply (f_equal (fun g => (GInit g, GTKReKey g, wpa_group_state g))) in H. cbn in H. by simplify_eq.
Qed.
Lemma grank_same g g' : GTKReKey g' = GTKReKey g -> wpa_group_state g' = wpa_group_state g -> grank g' = grank g.
Proof. intros H1 H2. unfold grank. by rewrite H1, H2. Qed.

Lemma quiet_nested w w' : focused w -> quiet w w' -> nested w w'.
Proof.
  intros Hf Hq. pose proof Hq as []. destruct (gview_group w w') as (G1 & G2 & G3); [done|].
  apply same_views_nested; try congruence.
  - by apply ws_quiet.
  - by apply views_same.
  - unfold focused. by rewrite q_stas, q_idx.
  - rewrite (grank_same _ _ G2 G3). lia.
Qed.
Lemma nested_refl w : focused w -> nested w w.
Proof. intros Hf. apply quiet_nested; [done|apply quiet_refl]. Qed.

Lemma focus_nested j w : (j < length (stas w))%nat \/ stas w = [] -> nested w (focus j w).
Proof.
  intros Hj. apply same_views_nested; try done; [by eapply ws_focus|apply views_focus| |apply length_stas_focus].
  unfold focused. rewrite length_stas_focus, idx_focus. destruct Hj as [?|Hs]; [by left|right].
  rewrite stas_focus. unfold stored. by rewrite Hs.
Qed.

Lemma group_nested w w' : focused w -> stays w w' -> sm_view (me w') = sm_view (me w) ->
  GInit (grp w') = GInit (grp w) -> (GTKReKey (grp w') = true -> GTKReKey (grp w) = true) ->
  grank (grp w') <= grank (grp w) -> nested w w'.
Proof.
  intros Hf S Hm Hg Hk Hr. apply same_views_nested; try done; try apply S.
  - by apply ws_group.
  - apply views_same; [apply S|apply S|done].
  - unfold focused. by rewrite (s_stas _ _ S), (s_idx _ _ S).
  - by rewrite (s_stas _ _ S).
Qed.
End nested.

Section group_runs.
Context `{AC : !AesCipher} `{O : !Oracle}.

Lemma lookup_updated w w' i s s' : focused w -> stas w' = stas w -> idx w' = idx w ->
  views w !! i = Some s -> views w' !! i = Some s' ->
  i = idx w /\ s = sm_view (me w) /\ s' = sm_view (me w') \/ i <> idx w /\ s' = s.
Proof.
  intros [Hf|Hf] Hs Hi H H'.
  - rewrite (views_update _ _ Hs Hi) in H'. destruct (decide (i = idx w)) as [->|Hn].
    + left. rewrite list_lookup_insert_eq in H' by (by rewrite length_views). rewrite (views_me _ Hf) in H. by simplify_eq.
    + right. rewrite list_lookup_insert_ne in H' by done. by simplify_eq.
  - apply lookup_lt_Some in H. rewrite length_views, Hf in H. simpl in H. lia.
Qed.

Lemma flags_loosely w w' b : focused w -> stays w w' ->
  sm_view (me w') = sm_view (flagged (Disconnect (me w) || b) (GUpdateStationKeys (me w')) (me w)) ->
  GInit (grp w') = GInit (grp w) -> (GTKReKey (grp w') = true -> GTKReKey (grp w) = true) ->
  grank (grp w') <= grank (grp w) -> loosely w w'.
Proof.
  intros Hf S Hm Hg Hk Hr. pose proof S as [Hs Hi _ _ _ Ht _ _].
  assert (Hflag : forall i s s', views w !! i = Some s -> views w' !! i = Some s' -> exists a b, s' = flagged a b s).
  { intros i s s' H H'. destruct (lookup_updated _ _ _ _ _ Hf Hs Hi H H') as [(_ & -> & ->)|(_ & ->)].
    - rewrite Hm. by eexists _, _.
    - exists (Disconnect s), (GUpdateStationKeys s). by rewrite flagged_same. }
  split; try done.
  - by eapply wsteps_one, ws_flags.
  - by rewrite Hs.
  - intros [Hw1 Hw2 Hw3]. split; [unfold focused; by rewrite Hs, Hi|congruence|].
    intros i s' H'. destruct (lookup_other w w' i s' ltac:(by rewrite Hs) H') as [s H].
    destruct (Hflag _ _ _ H H') as (x & y & ->). apply (Hw3 _ _ H).
  - intros i s s' H H'. destruct (Hflag _ _ _ H H') as (x & y & ->). done.
  - intros i s s' H H' _. eauto.
Qed.

(** *** All the stations *)

Lemma focus_step cb j w : (j < length (stas w))%nat ->
  (loosely (focus j w) (cb (focus j w)) /\ idx (cb (focus j w)) = j) ->
  let w' := let w := focus j w in if listed (me w) then cb w else w in loosely w w'.
Proof.
  intros Hj [H Hi]. cbv zeta. destruct (focus_nested j w (or_introl Hj)) as [F _].
  destruct (listed _); [by eapply loosely_trans|done].
Qed.

Lemma for_each_loosely (Q : world -> Prop) cb w :
  (forall w w', loosely w w' -> Q w -> Q w') ->
  (forall w, winv w -> Q w -> (idx w < length (stas w))%nat -> loosely w (cb w) /\ idx (cb w) = idx w) ->
  winv w -> Q w -> loosely w (for_each_sta cb w) /\ idx (for_each_sta cb w) = idx w.
Proof.
  intros HQ Hcb Hw Hq. unfold for_each_sta. split; [|reflexivity].
  enough (forall l w1, (forall j, List.In j l -> (j < length (stas w))%nat) -> loosely w w1 ->
    loosely w (fold_left (fun w j => let w := focus j w in if listed (me w) then cb w else w) l w1)) as Hfold.
  { set (w' := fold_left _ _ w).
    assert (H : loosely w w').
    { apply Hfold; [intros j Hj; apply in_rev, in_seq in Hj; lia|]. apply nested_refl, Hw. }
    eapply loosely_trans; [exact H|]. apply focus_nested. rewrite (l_len _ _ H).
    destruct (wi_focused _ Hw) as [?|Hs]; [by left|right].
    apply length_zero_iff_nil. by rewrite (l_len _ _ H), Hs. }
  induction l as [|j l IH]; intros w1 Hl H1; [done|]. simpl. apply IH; [intros; apply Hl; by right|].
  assert (Hj : (j < length (stas w1))%nat) by (rewrite (l_len _ _ H1); apply Hl; by left).
  eapply loosely_trans; [exact H1|]. apply (focus_step cb j w1 Hj).
  pose proof (proj1 (focus_nested j w1 (or_introl Hj))) as F.
  destruct (Hcb (focus j w1)) as [A B]; [by apply (l_inv _ _ F), (l_inv _ _ H1)| |by rewrite length_stas_focus|].
  - apply (HQ _ _ F), (HQ _ _ H1), Hq.
  - by rewrite idx_focus in B.
Qed.
End group_runs.

Section group_step.
Context `{AC : !AesCipher} `{O : !Oracle}.

(** [c] is a run as [nested] describes it, in the same focus. *)
Definition runs (c : cmd world) (w : world) : Prop := nested w (c w) /\ idx (c w) = idx w.
Definition runs_loosely (c : cmd world) (w : world) : Prop := loosely w (c w) /\ idx (c w) = idx w.

(** What is asked of the machine that a rekeying runs. *)
Definition good_rec (rec : cmd world) : Prop :=
  forall w, winv w -> (idx w < length (stas w))%nat -> GTKReKey (grp w) = false -> runs rec w.

Lemma runs_quiet c w : winv w -> Quiet c -> runs c w.
Proof. intros Hw H. split; [apply quiet_nested; [apply Hw|apply H]|apply H]. Qed.
Lemma runs_loose c w : runs c w -> runs_loosely c w.
Proof. intros [[H _] Hi]. by split. Qed.
Lemma runs_loosely_seq c1 c2 w : runs_loosely c1 w -> runs_loosely c2 (c1 w) -> runs_loosely (c1 ;; c2)%cmd w.
Proof. intros [A1 A2] [B1 B2]. split; [by eapply loosely_trans|]. unfold seq_cmd. congruence. Qed.
Lemma runs_seq c1 c2 w : runs c1 w -> runs c2 (c1 w) -> runs (c1 ;; c2)%cmd w.
Proof. intros [A1 A2] [B1 B2]. split; [by eapply nested_trans|]. unfold seq_cmd. congruence. Qed.
Lemma runs_then_loosely c1 c2 w : runs c1 w -> grank (grp (c1 w)) < grank (grp w) -> runs_loosely c2 (c1 w) ->
  runs (c1 ;; c2)%cmd w /\ grank (grp ((c1 ;; c2)%cmd w)) < grank (grp w).
Proof.
  intros [A1 A2] Hr [B1 B2]. split; [split; [by eapply nested_then_loosely|]; unfold seq_cmd; congruence|].
  unfold seq_cmd. pose proof (l_rank _ _ B1). lia.
Qed.

Lemma runs_winv c w : winv w -> runs_loosely c w -> winv (c w).
Proof. intros Hw [H _]. by apply (l_inv _ _ H). Qed.
Lemma runs_rekey c w : runs_loosely c w -> GTKReKey (grp w) = false -> GTKReKey (grp (c w)) = false.
Proof. intros [H _] Hk. apply not_true_is_false. intros Hk'. apply (l_rekey _ _ H) in Hk'. congruence. Qed.

(** The group is assigned to. *)
Lemma runs_group c w : winv w -> stays w (c w) -> sm_view (me (c w)) = sm_view (me w) ->
  GInit (grp (c w)) = GInit (grp w) -> (GTKReKey (grp (c w)) = true -> GTKReKey (grp w) = true) ->
  grank (grp (c w)) <= grank (grp w) -> runs c w.
Proof. intros Hw S. intros. split; [|apply S]. apply group_nested; try done. apply Hw. Qed.

Definition to_fatal : cmd world :=
  (grp ∷ gchanged ::= true ;; grp ∷ wpa_group_state ::= WPA_GROUP_FATAL_FAILURE)%cmd.

Lemma disconnect_all_runs w : winv w -> runs_loosely (for_each_sta (me ∷ Disconnect ::= true)%cmd) w.
Proof.
  intros Hw. apply (for_each_loosely (fun _ => True)); try done. intros w1 Hw1 _ Hi. split; [|done].
  apply (flags_loosely _ _ true); [apply Hw1|split; first [reflexivity|by intros]| |done|done|reflexivity].
  rewrite orb_true_r. reflexivity.
Qed.

Lemma fatal_failure_runs w : winv w -> wpa_group_state (grp w) <> WPA_GROUP_FATAL_FAILURE ->
  runs wpa_group_fatal_failure w /\ grank (grp (wpa_group_fatal_failure w)) < grank (grp w).
Proof.
  intros Hw Hs.
  assert (Hr : grank (grp (to_fatal w)) < grank (grp w)).
  { unfold grank. cbn. destruct (wpa_group_state (grp w)); [| | |done]; lia. }
  assert (R : runs to_fatal w).
  { apply runs_group; [done|split; first [reflexivity|by intros]|done|done|done|lia]. }
  exact (runs_then_loosely to_fatal (for_each_sta (me ∷ Disconnect ::= true)%cmd) w R Hr
    (disconnect_all_runs _ (runs_winv _ _ Hw (runs_loose _ _ R)))).
Qed.

Definition to_setkeysdone : cmd world :=
  (grp ∷ gchanged ::= true ;; grp ∷ wpa_group_state ::= WPA_GROUP_SETKEYSDONE)%cmd.

Lemma setkeysdone_runs w : winv w -> 1 + weight (GTKReKey (grp w)) 2 < grank (grp w) ->
  runs wpa_group_setkeysdone w /\ grank (grp (wpa_group_setkeysdone w)) < grank (grp w).
Proof.
  intros Hw Hr.
  assert (R : runs to_setkeysdone w).
  { apply runs_group; [done|split; first [reflexivity|by intros]|done|done|done|]. unfold grank at 1. cbn. lia. }
  assert (Hr1 : grank (grp (to_setkeysdone w)) < grank (grp w)) by (unfold grank at 1; cbn; lia).
  apply (runs_then_loosely to_setkeysdone
    (wpa_group_config_group_keys (fun ok => if ok then skip else wpa_group_fatal_failure)) w R Hr1).
  assert (Hs1 : wpa_group_state (grp (to_setkeysdone w)) = WPA_GROUP_SETKEYSDONE) by reflexivity.
  pose proof (runs_winv _ _ Hw (runs_loose _ _ R)) as Hw1.
  set (w1 := to_setkeysdone w) in *. clearbody w1. clear R Hr Hr1 Hw w.
  destruct (Quietk_config_group_keys (fun ok => if ok then skip else wpa_group_fatal_failure) w1) as (ok & w2 & Hq & E).
  unfold runs_loosely. rewrite E. clear E.
  pose proof (quiet_nested _ _ (wi_focused _ Hw1) Hq) as [N _]. pose proof (l_inv _ _ N Hw1) as Hw2.
  destruct (gview_group w1 w2) as (_ & _ & G3); [apply Hq|].
  destruct ok; [split; [done|apply Hq]|].
  destruct (fatal_failure_runs w2 Hw2) as [[[F _] Fi] _]; [by rewrite G3, Hs1|].
  split; [by eapply loosely_trans|]. rewrite Fi. apply Hq.
Qed.

Lemma update_sta_runs rec w : good_rec rec -> winv w -> (idx w < length (stas w))%nat -> GTKReKey (grp w) = false ->
  runs_loosely (wpa_group_update_sta rec) w.
Proof.
  intros Hrec Hw Hi Hk. unfold runs_loosely, wpa_group_update_sta. destruct (negb _).
  - split; [|done]. apply (flags_loosely _ _ false); [apply Hw|split; first [reflexivity|by intros]| |done|done|reflexivity].
    rewrite orb_false_r. reflexivity.
  - apply (runs_loosely_seq (grp ∷ GKeyDoneStations <~ (fun w => GKeyDoneStations (grp w) + 1)) (me ∷ GUpdateStationKeys ::= true ;; rec)).
    { apply runs_loose, runs_group; [done|split; first [reflexivity|by intros]|done|done|done|reflexivity]. }
    set (w1 := (grp ∷ GKeyDoneStations <~ _)%cmd w).
    assert (R : runs_loosely (me ∷ GUpdateStationKeys ::= true)%cmd w1).
    { split; [|done]. apply (flags_loosely _ _ false); [apply Hw|split; first [reflexivity|by intros]| |done|done|reflexivity].
      rewrite orb_false_r. reflexivity. }
    apply runs_loosely_seq; [done|]. apply runs_loose, Hrec; [|exact Hi|exact Hk]. apply runs_winv; [|done].
    destruct Hw as [Hw1 Hw2 Hw3]. split; [exact Hw1|exact Hw2|exact Hw3].
Qed.

Definition to_setkeys : cmd world :=
  (grp ∷ gchanged ::= true ;; grp ∷ wpa_group_state ::= WPA_GROUP_SETKEYS ;; grp ∷ GTKReKey ::= false)%cmd.

Definition setkeys_rest (rec : cmd world) : cmd world :=
  (swap_keys ;; wpa_gtk_update (fun _ => skip) ;;
   WHEN (fun w => negb (GKeyDoneStations (grp w) =? 0)) DO (grp ∷ GKeyDoneStations ::= 0) ;;
   for_each_sta (wpa_group_update_sta rec))%cmd.
Lemma setkeys_eq rec : wpa_group_setkeys rec = (to_setkeys ;; setkeys_rest rec)%cmd.
Proof. unfold wpa_group_setkeys, setkeys_rest, to_setkeys, seq_cmd. reflexivity. Qed.

Lemma setkeys_runs rec w : good_rec rec -> winv w -> 2 < grank (grp w) ->
  runs (wpa_group_setkeys rec) w /\ grank (grp (wpa_group_setkeys rec w)) < grank (grp w).
Proof.
  intros Hrec Hw Hr.
  assert (R : runs to_setkeys w).
  { apply runs_group; [done|split; first [reflexivity|by intros]|done|done|done|]. unfold grank at 1. cbn. lia. }
  assert (Hr1 : grank (grp (to_setkeys w)) < grank (grp w)) by (unfold grank at 1; cbn; lia).
  rewrite setkeys_eq. apply (runs_then_loosely _ _ w R Hr1).
  assert (Hk : GTKReKey (grp (to_setkeys w)) = false) by reflexivity.
  pose proof (runs_winv _ _ Hw (runs_loose _ _ R)) as Hw1.
  set (w1 := to_setkeys w) in *. clearbody w1. clear R Hr Hr1 Hw w. unfold setkeys_rest.
  assert (R2 : runs_loosely swap_keys w1).
  { apply runs_loose, runs_group; [done|split; first [reflexivity|by intros]|done|done|done|reflexivity]. }
  apply runs_loosely_seq; [done|]. pose proof (runs_winv _ _ Hw1 R2) as Hw2. pose proof (runs_rekey _ _ R2 Hk) as Hk2.
  set (w2 := swap_keys w1) in *. clearbody w2. clear R2 Hk Hw1 w1.
  assert (R3 : runs_loosely (wpa_gtk_update (fun _ => skip)) w2).
  { apply runs_loose, runs_quiet; [done|]. apply Quiet_call; [apply Quietk_gtk_update|]. intros _. apply Quiet_skip. }
  apply runs_loosely_seq; [done|]. pose proof (runs_winv _ _ Hw2 R3) as Hw3. pose proof (runs_rekey _ _ R3 Hk2) as Hk3.
  set (w3 := wpa_gtk_update _ w2) in *. clearbody w3. clear R3 Hk2 Hw2 w2.
  assert (R4 : runs_loosely (WHEN (fun w => negb (GKeyDoneStations (grp w) =? 0)) DO (grp ∷ GKeyDoneStations ::= 0))%cmd w3).
  { unfold when, runs_loosely. destruct (negb _); [|split; [apply nested_refl, Hw3|done]].
    apply runs_loose, runs_group; [done|split; first [reflexivity|by intros]|done|done|done|reflexivity]. }
  apply runs_loosely_seq; [done|]. pose proof (runs_winv _ _ Hw3 R4) as Hw4. pose proof (runs_rekey _ _ R4 Hk3) as Hk4.
  apply (for_each_loosely (fun w => GTKReKey (grp w) = false)); try done.
  - intros v v' L Hv. apply not_true_is_false. intros Hv'. apply (l_rekey _ _ L) in Hv'. congruence.
  - intros v Hv Hkv Hi. by apply update_sta_runs.
Qed.

(** The group machine either leaves the world alone or moves on. *)
Lemma group_sm_step_runs rec w : winv w -> (GTKReKey (grp w) = true -> good_rec rec) ->
  wpa_group_sm_step rec w = w \/
  (runs (wpa_group_sm_step rec) w /\ grank (grp (wpa_group_sm_step rec w)) < grank (grp w)).
Proof.
  intros Hw Hrec. unfold runs, wpa_group_sm_step. rewrite (wi_group _ Hw).
  destruct (wpa_group_state (grp w)) eqn:Hs; [| | |by left].
  - destruct (GTKAuthenticator (grp w)); [|by left]. right. apply setkeysdone_runs; [done|]. unfold grank. rewrite Hs. lia.
  - destruct (GKeyDoneStations (grp w) =? 0).
    { right. apply setkeysdone_runs; [done|]. unfold grank. rewrite Hs. lia. }
    destruct (GTKReKey (grp w)) eqn:Hk; [|by left]. right. apply setkeys_runs; [by apply Hrec|done|].
    unfold grank. rewrite Hs, Hk. cbn. lia.
  - destruct (GTKReKey (grp w)) eqn:Hk; [|by left]. right. apply setkeys_runs; [by apply Hrec|done|].
    unfold grank. rewrite Hs, Hk. cbn. lia.
Qed.
End group_step.

(** ** One iteration *)

(** The members of the group that the machines of a station leave alone. *)
Definition gsame (g g' : wpa_group) : Prop :=
  GInit g' = GInit g /\ GTKReKey g' = GTKReKey g /\ wpa_group_state g' = wpa_group_state g /\ gchanged g' = gchanged g.

Lemma gsame_trans g1 g2 g3 : gsame g1 g2 -> gsame g2 g3 -> gsame g1 g3.
Proof. unfold gsame. intros (?&?&?&?) (?&?&?&?). split_and!; congruence. Qed.

Definition Gsame (d : cmd core) : Prop := forall c, gsame (cgrp c) (cgrp (d c)).
Lemma Gsame_seq d1 d2 : Gsame d1 -> Gsame d2 -> Gsame (d1 ;; d2)%cmd.
Proof. intros H1 H2 c. eapply gsame_trans; [apply H1|apply H2]. Qed.
Lemma Gsame_when p d : Gsame d -> Gsame (WHEN p DO d)%cmd.
Proof. intros H c. unfold when. destruct (p c); [apply H|by split_and!]. Qed.
Ltac gsame :=
  repeat lazymatch goal with
  | |- Gsame (seq_cmd _ _) => apply Gsame_seq
  | |- Gsame (when _ _) => apply Gsame_when
  | |- Gsame (match ?x with _ => _ end) => destruct x
  | |- Gsame skip => intros c; by split_and!
  | |- Gsame (assign_in _ _ _) => intros c; by split_and!
  | |- Gsame (assign_in_from _ _ _) => intros c; by split_and!
  | |- Gsame ?d => let h := head d in unfold h
  end
with head t := lazymatch t with ?f _ => head f | _ => t end.

Section iteration.
Context `{AC : !AesCipher} `{O : !Oracle}.

Lemma ptk_move_gsame aa s d : ptk_move aa s d -> Gsame d.
Proof. intros Hm. destruct Hm as [| | | | | |d Hn Hd]; [..|destruct Hd]; gsame. Qed.
Lemma group_move_gsame s d : group_move s d -> Gsame d.
Proof. intros Hm. destruct Hm; gsame. Qed.

(** A step of the station in the focus, which is running: the others are
    left alone, or changed no more than a run inside the step changes them. *)
Record turn (w w' : world) : Prop := mk_turn {
  t_steps : wsteps w w';
  t_idx : idx w' = idx w;
  t_len : length (stas w') = length (stas w);
  t_stuck : stuck w' = stuck w;
  t_inv : winv w -> winv w';
  t_loops : forall i s s', views w !! i = Some s -> views w' !! i = Some s' -> in_step_loop s' = in_step_loop s;
  t_others : forall i s s', i <> idx w -> views w !! i = Some s -> views w' !! i = Some s' -> in_step_loop s = true ->
    s' = s \/ grank (grp w') < grank (grp w) /\ exists a b, s' = flagged a b s;
  t_rekey : GTKReKey (grp w') = true -> GTKReKey (grp w) = true;
  t_rank : grank (grp w') <= grank (grp w)
}.

Lemma turn_trans w1 w2 w3 : turn w1 w2 -> turn w2 w3 -> turn w1 w3.
Proof.
  intros [A1 A2 A3 A4 A5 A6 A7 A8 A9] [B1 B2 B3 B4 B5 B6 B7 B8 B9]. split; try congruence; auto; [by etrans| | |lia].
  - intros i s s3 Hs Hs3. destruct (lookup_other w2 w3 i s3 B3 Hs3) as [s2 Hs2].
    rewrite (B6 _ _ _ Hs2 Hs3). eauto.
  - intros i s s3 Hi Hs Hs3 Hl. destruct (lookup_other w2 w3 i s3 B3 Hs3) as [s2 Hs2].
    assert (Hl2 : in_step_loop s2 = true) by (rewrite (A6 _ _ _ Hs Hs2); done).
    destruct (A7 _ _ _ Hi Hs Hs2 Hl) as [->|(Hr & a & b & ->)];
      (destruct (B7 i _ _ ltac:(congruence) Hs2 Hs3 Hl2) as [->|(Hr' & x & y & ->)]; [|right]).
    + by left.
    + split; [lia|by exists x, y].
    + right. split; [lia|by exists a, b].
    + split; [lia|by exists x, y].
Qed.

Lemma nested_turn w w' : nested w w' -> idx w' = idx w -> turn w w'.
Proof.
  intros [[A1 A2 A3 A4 A5 A6 A7 A8] B] Hi. split; try done.
  intros i s s' _ Hs Hs' Hl. destruct B as [Hr|Hsame].
  - right. split; [done|eauto].
  - left. rewrite (Hsame _ _ Hs Hl) in Hs'. congruence.
Qed.

(** The station in the focus has changed, and the group hardly. *)
Lemma own_turn w w' : winv w -> wstep w w' -> installs w w' ->
  GInit (grp w') = GInit (grp w) -> GTKReKey (grp w') = GTKReKey (grp w) ->
  wpa_group_state (grp w') = wpa_group_state (grp w) ->
  in_step_loop (me w') = in_step_loop (me w) -> (sound_sm (sm_view (me w)) -> sound_sm (sm_view (me w'))) -> turn w w'.
Proof.
  intros Hw Hstep HI G1 G2 G3 Hloop Hsound. pose proof HI as [Hs Hi _ _ _ Ht _ _]. destruct Hw as [Hf Hg Hsm].
  assert (Hr : grank (grp w') = grank (grp w)) by (apply grank_same; done).
  split; try done.
  - by apply wsteps_one.
  - by rewrite Hs.
  - intros _. split; [unfold focused; by rewrite Hs, Hi|congruence|].
    intros i s' H'. destruct (lookup_other w w' i s' ltac:(by rewrite Hs) H') as [s H].
    destruct (lookup_updated _ _ _ _ _ Hf Hs Hi H H') as [(-> & -> & ->)|(_ & ->)]; [|by eapply Hsm].
    apply Hsound. by eapply Hsm.
  - intros i s s' H H'. by destruct (lookup_updated _ _ _ _ _ Hf Hs Hi H H') as [(-> & -> & ->)|(_ & ->)].
  - intros i s s' Hn H H' _. destruct (lookup_updated _ _ _ _ _ Hf Hs Hi H H') as [(-> & -> & ->)|(_ & ->)]; [done|by left].
  - congruence.
  - lia.
Qed.

Lemma reset_turn w : winv w -> in_step_loop (me w) = true ->
  turn w ((me ∷ changed ::= false ;; grp ∷ gchanged ::= false)%cmd w).
Proof.
  intros Hw Hl.
  assert (S : stays w ((me ∷ changed ::= false ;; grp ∷ gchanged ::= false)%cmd w)) by (split; first [reflexivity|by intros]).
  apply own_turn; try done; [by apply ws_reset|by apply stays_installs].
Qed.

Lemma ptk_turn rec w : winv w -> (idx w < length (stas w))%nat -> in_step_loop (me w) = true -> changed (me w) = false ->
  let w' := WPA_PTK_Step rec w in
  turn w w' /\ measured (me w) (sm_view (me w')) /\ gchanged (grp w') = gchanged (grp w) /\
  (changed (me w') = false \/ Init (me w') = true -> waiting (me w') = true).
Proof.
  intros Hw Hf Hl Hc w'. destruct (PTK_Step_does rec w Hl) as (d & Hd & HI & HV). fold w' in HI, HV.
  pose proof (ptk_move_gsame _ _ _ Hd (view w)) as (G1 & G2 & G3 & G4). rewrite <- HV in G1, G2, G3, G4.
  destruct (ptk_move_measured (wpa_addr w) (sm_view (me w)) (gview w) d Hc Hd) as [HM HW]. change (mk_core (sm_view (me w)) (gview w)) with (view w) in HM, HW.
  rewrite <- HV in HM, HW. pose proof HM as [HK HId Hmu Hless].
  split; [|split; [|split; [exact G4|exact HW]]].
  - apply own_turn; try done; [by eapply ws_ptk|exact (k_loop _ _ HK)|].
    intros [Hp Hi]. split; [|by apply HId]. etrans; [exact (k_pending _ _ HK)|exact Hp].
  - split; [|exact HId|exact Hmu|exact Hless]. destruct HK. by split.
Qed.

Lemma ptk_group_turn w : winv w -> in_step_loop (me w) = true -> idle_ok (me w) ->
  let w' := WPA_PTK_GROUP_Step w in
  turn w w' /\ measured (me w) (sm_view (me w')) /\ gchanged (grp w') = gchanged (grp w) /\
  (waiting (me w) = true -> waiting (me w') = true) /\
  (changed (me w') = false -> changed (me w) = false \/ Init (me w) = true).
Proof.
  intros Hw Hl Hi w'. destruct (GROUP_Step_does w) as (d & Hd & S & HV). fold w' in S, HV.
  pose proof (group_move_gsame _ _ Hd (view w)) as (G1 & G2 & G3 & G4). rewrite <- HV in G1, G2, G3, G4.
  destruct (group_move_measured (sm_view (me w)) (gview w) d Hd Hi) as (HM & HW & HC).
  change (mk_core (sm_view (me w)) (gview w)) with (view w) in HM, HW, HC.
  rewrite <- HV in HM, HW, HC. pose proof HM as [HK HId Hmu Hless].
  split; [|split; [|split; [exact G4|split; [exact HW|exact HC]]]].
  - apply own_turn; try done; [by eapply ws_ptk_group|by apply stays_installs|exact (k_loop _ _ HK)|].
    intros [Hp _]. split; [|by apply HId]. etrans; [exact (k_pending _ _ HK)|exact Hp].
  - split; [|exact HId|exact Hmu|exact Hless]. destruct HK. by split.
Qed.
End iteration.

Section loop.
Context `{AC : !AesCipher} `{O : !Oracle}.

Definition measure (w : world) : Z := mu (me w) + 15 * grank (grp w).
Lemma measure_range w : 0 <= measure w <= 197.
Proof. unfold measure. pose proof (mu_range (me w)). pose proof (grank_range (grp w)). lia. Qed.

(** A world whose station in the focus is running. *)
Record running (w : world) : Prop := mk_running {
  ru_winv : winv w;
  ru_focus : (idx w < length (stas w))%nat;
  ru_loop : in_step_loop (me w) = true
}.

Lemma sound_me w : winv w -> (idx w < length (stas w))%nat -> sound_sm (me w).
Proof. intros Hw Hi. exact (wi_stas _ Hw _ _ (views_me _ Hi)). Qed.

Lemma turn_running w w' : running w -> turn w w' -> running w'.
Proof.
  intros [Hw Hi Hl] T. assert (Hi' : (idx w' < length (stas w'))%nat) by (by rewrite (t_idx _ _ T), (t_len _ _ T)).
  split; [by apply (t_inv _ _ T)|done|]. pose proof (views_me w' Hi') as H'. rewrite (t_idx _ _ T) in H'.
  exact (eq_trans (t_loops _ _ T _ _ _ (views_me _ Hi) H') Hl).
Qed.

Lemma unless_deinit_runs c w : running w -> unless_deinit c w = c w.
Proof. intros [Hw Hi _]. unfold unless_deinit. by rewrite (proj1 (sound_me _ Hw Hi)). Qed.

(** The group machine at the end of an iteration. *)
Lemma group_turn rec w : running w -> (GTKReKey (grp w) = true -> good_rec rec) ->
  let w' := wpa_group_sm_step rec w in
  turn w w' /\ (w' = w \/ measure w' < measure w) /\ changed (me w') = changed (me w) /\
  (waiting (me w) = true -> waiting (me w') = true).
Proof.
  intros [Hw Hi Hl] Hrec w'. destruct (group_sm_step_runs rec w Hw Hrec) as [E|[[N Hi'] Hr]].
  - subst w'. rewrite E. split; [|by auto]. apply nested_turn; [apply nested_refl, Hw|done].
  - fold w' in N, Hi', Hr. split; [by apply nested_turn|].
    assert (Hi2 : (idx w' < length (stas w'))%nat) by (by rewrite Hi', (l_len _ _ (proj1 N))).
    pose proof (views_me w' Hi2) as H'. rewrite Hi' in H'.
    destruct (l_running _ _ (proj1 N) _ _ _ (views_me _ Hi) H' Hl) as (a & b & E).
    assert (Hmu : mu (sm_view (me w')) <= mu (sm_view (me w)) + 14) by (rewrite E; apply mu_flagged).
    change (mu (me w') <= mu (me w) + 14) in Hmu.
    split; [right; unfold measure; lia|].
    split; [exact (f_equal changed E)|]. intros H. exact (eq_trans (f_equal waiting E) H).
Qed.

Definition reset : cmd world := (me ∷ changed ::= false ;; grp ∷ gchanged ::= false)%cmd.
Lemma body_eq rec : sm_step_body rec =
  unless_deinit (reset ;; WPA_PTK_Step rec ;; unless_deinit (WPA_PTK_GROUP_Step ;; unless_deinit (wpa_group_sm_step rec)))%cmd.
Proof. unfold sm_step_body, reset, seq_cmd. reflexivity. Qed.
Lemma reset_does w : running w ->
  turn w (reset w) /\ measure (reset w) = measure w /\ changed (me (reset w)) = false /\ gchanged (grp (reset w)) = false.
Proof. intros Hr. split; [exact (reset_turn w (ru_winv _ Hr) (ru_loop _ Hr))|]. by split_and!. Qed.

(** The four steps of an iteration together. *)
Lemma iteration w w1 w2 w3 w4 : running w ->
  turn w w1 /\ measure w1 = measure w /\ changed (me w1) = false /\ gchanged (grp w1) = false ->
  turn w1 w2 /\ measured (me w1) (sm_view (me w2)) /\ gchanged (grp w2) = gchanged (grp w1) /\
    (changed (me w2) = false \/ Init (me w2) = true -> waiting (me w2) = true) ->
  turn w2 w3 /\ measured (me w2) (sm_view (me w3)) /\ gchanged (grp w3) = gchanged (grp w2) /\
    (waiting (me w2) = true -> waiting (me w3) = true) /\
    (changed (me w3) = false -> changed (me w2) = false \/ Init (me w2) = true) ->
  turn w3 w4 /\ (w4 = w3 \/ measure w4 < measure w3) /\ changed (me w4) = changed (me w3) /\
    (waiting (me w3) = true -> waiting (me w4) = true) ->
  turn w w4 /\ (sm_step_again w4 = true -> measure w4 < measure w) /\
  (sm_step_again w4 = false -> waiting (me w4) = true).
Proof.
  intros Hr (T1 & Hm1 & Hc1 & Hg1) (T2 & M2 & G2 & W2) (T3 & M3 & G3 & W3 & C3) (T4 & M4 & C4 & W4).
  pose proof (turn_trans _ _ _ T1 (turn_trans _ _ _ T2 (turn_trans _ _ _ T3 T4))) as T.
  pose proof (m_mu _ _ M2 : mu (me w2) <= mu (me w1)) as Hmu2.
  pose proof (m_mu _ _ M3 : mu (me w3) <= mu (me w2)) as Hmu3.
  pose proof (t_rank _ _ T2) as R2. pose proof (t_rank _ _ T3) as R3.
  split; [done|]. split.
  - intros Ha. destruct M4 as [->|M4]; [|unfold measure in *; lia].
    assert (Hc3 : changed (me w3) = true).
    { unfold sm_step_again in Ha. rewrite G3, G2, Hg1, orb_false_r in Ha. by apply andb_prop in Ha as [_ ?]. }
    destruct (changed (me w2)) eqn:Hc2.
    + pose proof (m_less _ _ M2 Hc1 Hc2 : mu (me w2) < mu (me w1)). unfold measure in *. lia.
    + pose proof (m_less _ _ M3 Hc2 Hc3 : mu (me w3) < mu (me w2)). unfold measure in *. lia.
  - intros Ha. apply W4, W3, W2, C3. rewrite <- C4.
    pose proof (turn_running _ _ Hr T) as Hr4. unfold sm_step_again in Ha.
    rewrite (proj1 (sound_me _ (ru_winv _ Hr4) (ru_focus _ Hr4))) in Ha. by apply orb_false_elim in Ha as [? _].
Qed.

Lemma body_turn rec w : running w -> (GTKReKey (grp w) = true -> good_rec rec) ->
  turn w (sm_step_body rec w) /\
  (sm_step_again (sm_step_body rec w) = true -> measure (sm_step_body rec w) < measure w) /\
  (sm_step_again (sm_step_body rec w) = false -> waiting (me (sm_step_body rec w)) = true).
Proof.
  intros Hr Hrec. rewrite body_eq, unless_deinit_runs by done. cbv beta delta [seq_cmd].
  pose proof (reset_does w Hr) as D1. set (w1 := reset w) in *. clearbody w1.
  pose proof (turn_running _ _ Hr (proj1 D1)) as Hr1.
  pose proof (ptk_turn rec w1 (ru_winv _ Hr1) (ru_focus _ Hr1) (ru_loop _ Hr1) (proj1 (proj2 (proj2 D1)))) as D2. cbv zeta in D2.
  set (w2 := WPA_PTK_Step rec w1) in *. clearbody w2. pose proof (turn_running _ _ Hr1 (proj1 D2)) as Hr2.
  rewrite unless_deinit_runs by done.
  pose proof (ptk_group_turn w2 (ru_winv _ Hr2) (ru_loop _ Hr2)
    (proj2 (sound_me _ (ru_winv _ Hr2) (ru_focus _ Hr2)))) as D3. cbv zeta in D3.
  set (w3 := WPA_PTK_GROUP_Step w2) in *. clearbody w3. pose proof (turn_running _ _ Hr2 (proj1 D3)) as Hr3.
  rewrite unless_deinit_runs by done.
  pose proof (turn_trans _ _ _ (proj1 D1) (turn_trans _ _ _ (proj1 D2) (proj1 D3))) as T13.
  exact (iteration w w1 w2 w3 _ Hr D1 D2 D3 (group_turn rec w3 Hr3 (fun Hk => Hrec (t_rekey _ _ T13 Hk)))).
Qed.
End loop.

(** ** The whole machine *)

Section machine.
Context `{AC : !AesCipher} `{O : !Oracle}.

Lemma enough_fuel w : (Datatypes.S (Z.to_nat (measure w)) <= step_fuel)%nat.
Proof. pose proof (measure_range w). unfold step_fuel. lia. Qed.

(** The loop comes to an end, in a station that waits. *)
Lemma loop_ends rec w : running w -> (GTKReKey (grp w) = true -> good_rec rec) ->
  exists r, do_while (sm_step_body rec) sm_step_again step_fuel w = Some r /\ turn w r /\ waiting (me r) = true.
Proof.
  intros Hr Hrec.
  set (P := fun v => running v /\ turn w v).
  assert (Hrefl : turn w w) by (apply nested_turn; [apply nested_refl, Hr|done]).
  assert (Hbody : forall v, P v -> P (sm_step_body rec v) /\
    (sm_step_again (sm_step_body rec v) = true -> measure (sm_step_body rec v) < measure v) /\
    (sm_step_again (sm_step_body rec v) = false -> waiting (me (sm_step_body rec v)) = true)).
  { intros v [Hv Tv]. destruct (body_turn rec v Hv) as (T & HM & HW); [intros Hk; by apply Hrec, (t_rekey _ _ Tv)|].
    split; [|by split]. split; [by eapply turn_running|by eapply turn_trans]. }
  destruct (do_while_terminates (sm_step_body rec) sm_step_again P (fun v => Z.to_nat (measure v)) w) as [r E].
  - by split.
  - intros v Pv Ha. destruct (Hbody v Pv) as (Pv' & HM & _). split; [done|]. specialize (HM Ha).
    pose proof (measure_range v). pose proof (measure_range (sm_step_body rec v)). lia.
  - apply (do_while_more_fuel _ _ _ _ _ _ (enough_fuel w)) in E.
    exists r. split; [done|].
    destruct (do_while_last _ _ P _ _ _ (conj Hr Hrefl) (fun v Pv _ => proj1 (Hbody v Pv)) E) as (v & Pv & -> & Ha).
    destruct (Hbody v Pv) as ([_ T] & _ & HW). split; [done|by apply HW].
Qed.

Lemma own_winv w w' : winv w -> stas w' = stas w -> idx w' = idx w -> GInit (grp w') = GInit (grp w) ->
  (sound_sm (sm_view (me w)) -> sound_sm (sm_view (me w'))) -> winv w'.
Proof.
  intros [Hf Hg Hsm] Hs Hi HG H. split; [unfold focused; by rewrite Hs, Hi|congruence|].
  intros i s' H'. destruct (lookup_other w w' i s' ltac:(by rewrite Hs) H') as [s Hl].
  destruct (lookup_updated _ _ _ _ _ Hf Hs Hi Hl H') as [(-> & -> & ->)|(_ & ->)]; [|by eapply Hsm].
  apply H. by eapply Hsm.
Qed.

Lemma enter_loop_running w : winv w -> (idx w < length (stas w))%nat -> in_step_loop (me w) = false ->
  wstep w (enter_loop w) /\ running (enter_loop w).
Proof.
  intros Hw Hi Hl.
  assert (Hstep : wstep w (enter_loop w)) by (apply ws_enter; [done|split; first [reflexivity|by intros]|reflexivity]).
  split; [done|]. split; [|exact Hi|reflexivity]. by apply (own_winv w).
Qed.

Lemma exit_loop_does w : running w -> waiting (me w) = true ->
  wstep w (exit_loop w) /\ winv (exit_loop w) /\ exit_loop w = (me ∷ in_step_loop ::= false)%cmd w.
Proof.
  intros [Hv Hi Hl] Hw.
  assert (E : exit_loop w = (me ∷ in_step_loop ::= false)%cmd w).
  { unfold exit_loop, seq_cmd, when. change (pending_deinit (me ((me ∷ in_step_loop ::= false)%cmd w))) with (pending_deinit (me w)).
    by rewrite (proj1 (sound_me w Hv Hi)). }
  rewrite E. split; [|split; [|done]].
  - apply ws_exit; [done|done|split; first [reflexivity|by intros]|reflexivity].
  - by apply (own_winv w).
Qed.

(** Only the station in the focus has changed. *)
Record own_change (w w' : world) : Prop := mk_own_change {
  o_stas : stas w' = stas w;
  o_idx : idx w' = idx w;
  o_stuck : stuck w' = stuck w;
  o_rekey : GTKReKey (grp w') = GTKReKey (grp w);
  o_rank : grank (grp w') = grank (grp w)
}.

(** One station from before the loop to behind it. *)
Lemma through_loop w w1 w2 w3 i s s' : focused w -> focused w2 -> own_change w w1 -> turn w1 w2 -> own_change w2 w3 ->
  in_step_loop (me w) = false -> in_step_loop (me w3) = false ->
  views w !! i = Some s -> views w3 !! i = Some s' ->
  i = idx w /\ in_step_loop s = false /\ in_step_loop s' = false \/
  i <> idx w /\ views w1 !! i = Some s /\ views w2 !! i = Some s'.
Proof.
  intros Hf Hf2 [Hs1 Hi1 _ _ _] T [Hs3 Hi3 _ _ _] Hl Hl3 H H'.
  destruct (lookup_other w2 w3 i s' ltac:(by rewrite Hs3) H') as [s2 H2].
  destruct (lookup_other w1 w2 i s2 (t_len _ _ T) H2) as [s1 H1].
  pose proof (t_idx _ _ T) as Hi2.
  destruct (lookup_updated _ _ _ _ _ Hf Hs1 Hi1 H H1) as [(-> & -> & ->)|(Hn & ->)];
    (destruct (lookup_updated _ _ _ _ _ Hf2 Hs3 Hi3 H2 H') as [(E & -> & ->)|(Hn' & ->)]); try congruence.
  - left. by split_and!.
  - by right.
Qed.

Lemma loop_nested w w1 w2 w3 : winv w -> in_step_loop (me w) = false ->
  wstep w w1 -> own_change w w1 -> turn w1 w2 -> wstep w2 w3 -> own_change w2 w3 ->
  winv w2 -> winv w3 -> in_step_loop (me w3) = false -> nested w w3 /\ idx w3 = idx w.
Proof.
  intros Hw Hl S1 O1 T S3 O3 Hw2 Hw3 Hl3.
  pose proof (fun i s s' => through_loop w w1 w2 w3 i s s' (wi_focused _ Hw) (wi_focused _ Hw2) O1 T O3 Hl Hl3) as One.
  destruct O1 as [Hs1 Hi1 Ht1 Hk1 Hr1], O3 as [Hs3 Hi3 Ht3 Hk3 Hr3].
  assert (L : loosely w w3).
  { split.
    - etrans; [by apply wsteps_one|]. etrans; [apply T|by apply wsteps_one].
    - by rewrite Hs3, (t_len _ _ T), Hs1.
    - by rewrite Ht3, (t_stuck _ _ T).
    - by intros _.
    - intros i s s' H H'. destruct (One i s s' H H') as [(_ & -> & ->)|(Hn & H1 & H2)]; [done|].
      exact (t_loops _ _ T _ _ _ H1 H2).
    - intros i s s' H H' Hls. destruct (One i s s' H H') as [(_ & ? & _)|(Hn & H1 & H2)]; [congruence|].
      destruct (t_others _ _ T i s s' ltac:(congruence) H1 H2 Hls) as [->|(_ & ?)]; [|done].
      exists (Disconnect s), (GUpdateStationKeys s). by rewrite flagged_same.
    - rewrite Hk3. intros Hk. rewrite <- Hk1. by apply (t_rekey _ _ T).
    - rewrite Hr3, <- Hr1. apply T. }
  split; [split; [exact L|]|by rewrite Hi3, (t_idx _ _ T)].
  destruct (decide (grank (grp w3) < grank (grp w))) as [|Hnot]; [by left|right].
  intros i s H Hls. destruct (lookup_lt_is_Some_2 (views w3) i) as [s' H'].
  { rewrite length_views, (l_len _ _ L), <- length_views. by eapply lookup_lt_Some. }
  rewrite H'. f_equal. destruct (One i s s' H H') as [(_ & ? & _)|(Hn & H1 & H2)]; [congruence|].
  destruct (t_others _ _ T i s s' ltac:(congruence) H1 H2 Hls) as [->|(Hr & _)]; [done|]. lia.
Qed.

(** Every run of the machine ends, and changes no more than two flags of a
    station whose machine is running already. *)
Lemma wpa_sm_step_n_runs n w : winv w -> (idx w < length (stas w))%nat ->
  (GTKReKey (grp w) = true -> good_rec (wpa_sm_step_n n)) -> runs (wpa_sm_step_n (Datatypes.S n)) w.
Proof.
  intros Hw Hi Hrec.
  change (wpa_sm_step_n (Datatypes.S n)) with (fun w => if in_step_loop (me w) then w else sm_step_run (wpa_sm_step_n n) w).
  unfold runs. destruct (in_step_loop (me w)) eqn:Hl; [split; [apply nested_refl, Hw|done]|].
  set (rec := wpa_sm_step_n n) in *. clearbody rec. unfold sm_step_run, seq_cmd.
  destruct (enter_loop_running w Hw Hi Hl) as [S1 R1].
  assert (O1 : own_change w (enter_loop w)) by (by split).
  set (w1 := enter_loop w) in *. clearbody w1.
  destruct (loop_ends rec w1 R1) as (w2 & E & T & Hwait); [by rewrite (o_rekey _ _ O1)|]. unfold sm_step_loop. rewrite E.
  pose proof (turn_running _ _ R1 T) as R2. destruct (exit_loop_does w2 R2 Hwait) as (S3 & W3 & E3).
  assert (O3 : own_change w2 (exit_loop w2) /\ in_step_loop (me (exit_loop w2)) = false) by (by rewrite E3).
  set (w3 := exit_loop w2) in *. clearbody w3. clear E3. destruct O3 as [O3 Hl3].
  by apply (loop_nested w w1 w2 w3); try apply R2.
Qed.

Lemma wpa_sm_step_n_good n : good_rec (wpa_sm_step_n (Datatypes.S n)).
Proof. intros w Hw Hi Hk. apply wpa_sm_step_n_runs; [done|done|congruence]. Qed.

(** [nest_fuel] is enough. *)
Lemma wpa_sm_step_runs w : winv w -> (idx w < length (stas w))%nat -> runs wpa_sm_step w.
Proof. intros Hw Hi. apply wpa_sm_step_n_runs; [done|done|]. intros _. apply wpa_sm_step_n_good. Qed.
Lemma wpa_sm_step_good : good_rec wpa_sm_step.
Proof. intros w Hw Hi _. by apply wpa_sm_step_runs. Qed.

(** The run of the station in the focus, from where its loop is entered. *)
Lemma wpa_sm_step_enters w : winv w -> (idx w < length (stas w))%nat -> in_step_loop (me w) = false ->
  wsteps (enter_loop w) (wpa_sm_step w).
Proof.
  intros Hw Hi Hl.
  change wpa_sm_step with (fun w => if in_step_loop (me w) then w else sm_step_run (wpa_sm_step_n 2) w).
  cbv beta. rewrite Hl. pose proof (wpa_sm_step_n_good 1) as Hrec. set (rec := wpa_sm_step_n 2) in *. clearbody rec.
  unfold sm_step_run, seq_cmd. destruct (enter_loop_running w Hw Hi Hl) as [_ R1].
  set (w1 := enter_loop w) in *. clearbody w1.
  destruct (loop_ends rec w1 R1) as (w2 & E & T & Hwait); [done|]. unfold sm_step_loop. rewrite E.
  pose proof (turn_running _ _ R1 T) as R2. destruct (exit_loop_does w2 R2 Hwait) as (S3 & _ & _).
  etrans; [apply T|by apply wsteps_one].
Qed.
End machine.
