(* ===== verification/WpaSafety.v ===== *)
(** * The WPA authenticator: which keys are installed

    The invariant behind the safety of the 4-way handshake.  [K i a] are the
    pairwise master keys of the station with the number [i] and the address
    [a], and [F i] the frames received from it; a pairwise transient key is
    [good] if it has been derived from such a key and verifies the MIC of
    such a frame.  [sta_ok] holds of every station at every moment, and
    [at_rest] of those whose machine is not running: [safe] is kept by every
    small step ([wstep_safe]) and so by every run of the machines. *)

From Stdlib Require Import String.
From S2P Require Import Prelude.
From S2P Require Import Eloop.
From S2P Require Import Wpabuf.
From S2P Require Import Common.
From S2P Require Import Aes.
From S2P Require Import Hash.
From S2P Require Import WpaCommon.
From S2P Require Import WpaIe.
From S2P Require Import WpaAuth.
From S2P Require Import WpaSteps.
From S2P Require Import WpaRun.

Definition handshake (s : wpa_sm) : Prop :=
  match wpa_ptk_state s with
  | WPA_PTK_PTKCALCNEGOTIATING | WPA_PTK_PTKCALCNEGOTIATING2 | WPA_PTK_PTKINITNEGOTIATING => True
  | _ => False
  end.
Definition negotiating (s : wpa_sm) : Prop :=
  match wpa_ptk_state s with WPA_PTK_PTKCALCNEGOTIATING2 | WPA_PTK_PTKINITNEGOTIATING => True | _ => False end.

(** The states before there is a pairwise master key. *)
Definition early (s : wpa_sm) : Prop :=
  match wpa_ptk_state s with
  | WPA_PTK_INITIALIZE | WPA_PTK_DISCONNECT | WPA_PTK_DISCONNECTED | WPA_PTK_AUTHENTICATION
  | WPA_PTK_AUTHENTICATION2 => True
  | WPA_PTK_INITPMK => Disconnect s = true
  | WPA_PTK_INITPSK => psks s = []
  | _ => False
  end.

(** A station that nothing is being done with. *)
Definition at_rest (s : wpa_sm) : Prop :=
  match wpa_ptk_state s with
  | WPA_PTK_INITPMK | WPA_PTK_INITPSK | WPA_PTK_PTKCALCNEGOTIATING2 => False
  | WPA_PTK_PTKCALCNEGOTIATING | WPA_PTK_PTKINITNEGOTIATING => pairwise_received s = false
  | _ => True
  end.

Section safety.
Context `{AC : !AesCipher}.
Context (aa : list Z) (K : nat -> list Z -> list Z -> Prop) (F : nat -> list Z -> Prop).

Definition good (i : nat) (a : list Z) (p : wpa_ptk) : Prop :=
  exists pmk d an sn akm cipher,
    K i a pmk /\ F i d /\ p = wpa_pmk_to_ptk pmk "Pairwise key expansion" aa a an sn akm cipher /\
    wpa_verify_key_mic akm p d = true.

Record sta_ok (i : nat) (s : wpa_sm) : Prop := mk_sta_ok {
  so_pmk : K i (sm_addr s) (PMK s) \/ PTKRequest s = false /\ early s;
  so_psks : Forall (fun k => K i (sm_addr s) (take PMK_LEN k)) (psks s);
  so_msk : forall m n, msk s = Some m -> n = PMK_LEN \/ n = PMK_LEN_SUITE_B_192 ->
    K i (sm_addr s) (take n (take 64 m));
  so_pmksa : forall e, pmksa s = Some e -> K i (sm_addr s) (pmksa_pmk e);
  so_ptk : PTK_valid s = true -> good i (sm_addr s) (PTK s) /\ K i (sm_addr s) (PMK s);
  so_mic : handshake s -> pairwise_received s = true -> MICVerified s = true -> good i (sm_addr s) (PTK s);
  so_received : negotiating s -> pairwise_received s = true -> MICVerified s = true \/ update_snonce s = true;
  so_last : forall d, last_rx_eapol_key s = Some d -> F i d
}.

Lemma initpmk_key_known i s k : sta_ok i s -> initpmk_key s = Some k -> K i (sm_addr s) k.
Proof.
  intros [] E. unfold initpmk_key in E. destruct (pmksa s) as [e|]; [simplify_eq; auto|].
  destruct (msk s) as [m|]; [|done]. cbn [option_map] in E. cbv zeta in E.
  destruct (has_bits _ _); (destruct (_ <? _)%nat; [done|]); simplify_eq; apply so_msk0; auto.
Qed.
Lemma initpsk_key_known i s k : sta_ok i s -> option_map (take PMK_LEN) (head (psks s)) = Some k -> K i (sm_addr s) k.
Proof. intros [] E. destruct (psks s) as [|p l]; [done|]. simpl in E. simplify_eq. by inversion so_psks0. Qed.

Lemma found_good i s pmk p : sta_ok i s -> K i (sm_addr s) (PMK s) -> found_ok aa s (Some (pmk, p)) ->
  good i (sm_addr s) p /\ forall k, pmk = Some k -> K i (sm_addr s) k.
Proof.
  intros Hok Hpmk (key & d & (Hin & Hd & Hv & an & sn & ->) & ->).
  assert (Hk : K i (sm_addr s) key).
  { unfold pmk_candidates in Hin. destruct (wpa_key_mgmt_wpa_psk _).
    - apply in_map_iff in Hin as (k & <- & Hin). pose proof (so_psks _ _ Hok) as Hf. rewrite List.Forall_forall in Hf. by apply Hf.
    - destruct Hin as [<-|[]]. done. }
  split.
  - exists key, d, an, sn, (wpa_key_mgmt s), (pairwise s). split_and!; try done. by eapply so_last.
  - intros k. destruct (wpa_key_mgmt_wpa_psk _); intros; simplify_eq. done.
Qed.


(** The parts of [sta_ok] after an entry has been evaluated. *)
Ltac sta_ok_eval Hok :=
  destruct Hok as [O1 O2 O3 O4 O5 O6 O7 O8]; unfold early, handshake, negotiating, pairwise_received in O1, O6, O7;
  repeat match goal with H : _ |- _ => core_eval_in H end;
  (split; [split; unfold early, handshake, negotiating, pairwise_received; core_eval|];
   try done; try tauto; try solve [destruct O1 as [?|[? ?]]; first [done|tauto]]).

Lemma ptk_move_ok i s g d : sta_ok i s -> ptk_move aa s d ->
  let s' := cme (d (mk_core s g)) in
  sta_ok i s' /\ (K i (sm_addr s) (PMK s) -> K i (sm_addr s) (PMK s')).
Proof.
  intros Hok Hm.
  destruct Hm as [Hi|Hi Hd|Hi Hd|Hi Hd|ok Hi Hd|Hi Hd|d Hn Hd].
  1-6: core_solve s; sta_ok_eval Hok.
  unfold no_request in Hn. bool_hyps.
  destruct Hd as [Hs|Hs|Hs|ok Hs|Hs|Hs|Hs|Hs Hp|Hs Ht|Hs|found Hs Hf|Hs Hv|Hs|Hs Ht|ok Hs Hr Hv].
  5: pose proof (fun k => initpmk_key_known i s k Hok) as Hkey; destruct (initpmk_key s) as [k|]; [specialize (Hkey k eq_refl)|].
  7: pose proof (fun k => initpsk_key_known i s k Hok) as Hkey; destruct (psks s) as [|k] eqn:Hps; [|specialize (Hkey _ eq_refl)].
  all: try match goal with |- context [core_PTKCALC ?f] =>
      assert (HK : K i (sm_addr s) (PMK s)) by
        (destruct (so_pmk _ _ Hok) as [?|[_ He]]; [done|]; unfold early in He;
         destruct Hs as [[[Hs|Hs] _]|[Hs _]]; rewrite Hs in He; done);
      destruct f as [[new p]|]; [destruct (found_good _ _ _ _ Hok HK Hf) as [Hg Hnew]; destruct new as [k|]; [specialize (Hnew k eq_refl)|]|]
    end.
  10: { assert (HK : K i (sm_addr s) (PMK s)).
       { destruct (so_pmk _ _ Hok) as [?|[_ He]]; [done|]. unfold early in He. rewrite Hs in He. by rewrite He in Hp. }
       destruct (psks s) as [|k l] eqn:Hps; [done|]. core_solve s; sta_ok_eval Hok. }
  all: cbn [head option_map].
  all: try (core_solve s; sta_ok_eval Hok; fail).
  destruct Hs; core_solve s; sta_ok_eval Hok.
Qed.

Lemma group_move_ok i s g d : sta_ok i s -> group_move s d ->
  let s' := cme (d (mk_core s g)) in
  sta_ok i s' /\ (K i (sm_addr s) (PMK s) -> K i (sm_addr s) (PMK s')).
Proof.
  intros Hok Hm. destruct Hm as [Hn| |Hn Hs Hu|Hn Hs|Hn Hs Ht|Hn Hs Ht He|Hn Hs].
  all: try (core_solve s; sta_ok_eval Hok).
  all: destruct O1 as [?|[? ?]]; [by left|right; split; [done|by destruct wpa_ptk_state]].
Qed.

Lemma flagged_ok i s a b : sta_ok i s -> (Disconnect s = true -> a = true) -> sta_ok i (flagged a b s).
Proof.
  intros [] Ha. split; try done. destruct so_pmk0 as [?|[? He]]; [by left|right]. split; [done|].
  unfold early in *. change (wpa_ptk_state (flagged a b s)) with (wpa_ptk_state s).
  destruct (wpa_ptk_state s); try done. by apply Ha.
Qed.

Lemma waiting_at_rest i s : sta_ok i s -> waiting s = true -> at_rest s.
Proof.
  intros Hok Hw. pose proof (so_received _ _ Hok) as Hr. unfold waiting, at_rest, negotiating in *.
  destruct (wpa_ptk_state s); try done; bool_hyps; [done|].
  apply not_true_is_false. intros Hp. rewrite Hp in *. destruct (Hr I eq_refl) as [E|E]; rewrite E in *; done.
Qed.

(** ** The world *)

Definition key_ok (w : world) (o : wpa_out) : Prop :=
  match o with
  | w_set_key alg (Some i) kidx key res =>
      exists s p n, views w !! i = Some s /\ good i (sm_addr s) p /\ key = slice (tk p) 0 n
  | _ => True
  end.

Record safe (w : world) : Prop := mk_safe {
  sf_addr : wpa_addr w = aa;
  sf_cache : forall i a e, List.In (a, e) (pmksa_cache w) -> K i a (pmksa_pmk e);
  sf_stas : forall i s, views w !! i = Some s -> sta_ok i s /\ (in_step_loop s = true \/ at_rest s);
  sf_keys : forall o, List.In o (pairwise_keys w) -> key_ok w o;
  sf_timers : forall t, List.In t (rekey_timers (lp w)) ->
    exists s, views w !! (ctx_sta (user_ctx t)) = Some s /\ K (ctx_sta (user_ctx t)) (sm_addr s) (PMK s)
}.

(** Every station is what it was, or has moved on from it. *)
Definition follows (w w' : world) : Prop :=
  forall i s, views w !! i = Some s ->
    exists s', views w' !! i = Some s' /\ sm_addr s' = sm_addr s /\
               (K i (sm_addr s) (PMK s) -> K i (sm_addr s) (PMK s')).

Lemma follows_same w w' : views w' = views w -> follows w w'.
Proof. intros E i s H. exists s. by rewrite E. Qed.

Lemma key_ok_follows w w' o : follows w w' -> key_ok w o -> key_ok w' o.
Proof.
  intros Hf. destruct o as [| alg [i|] | | | |]; try done. intros (s & p & n & Hs & Hg & ->).
  destruct (Hf _ _ Hs) as (s' & Hs' & Ha & _). exists s', p, n. by rewrite Ha.
Qed.
End safety.

Section steps.
Context `{AC : !AesCipher}.
Context (aa : list Z) (K : nat -> list Z -> list Z -> Prop) (F : nat -> list Z -> Prop).

(** Nothing is seen to change. *)
Lemma same_safe w w' : safe aa K F w -> views w' = views w -> wpa_addr w' = wpa_addr w ->
  pmksa_cache w' = pmksa_cache w -> pairwise_keys w' = pairwise_keys w ->
  (forall t, List.In t (rekey_timers (lp w')) -> List.In t (rekey_timers (lp w))) -> safe aa K F w'.
Proof.
  intros [] Hv Ha Hc Hk Ht. split; try congruence; try (rewrite ?Hc, ?Hv; done).
  - intros o Ho. rewrite Hk in Ho. apply (key_ok_follows aa K F w); [by apply follows_same|auto].
  - intros t Hin. rewrite Hv. auto.
Qed.

Lemma completes_good i s : sta_ok aa K F i s -> completes s = true -> good aa K F i (sm_addr s) (PTK s) /\ K i (sm_addr s) (PMK s).
Proof.
  intros Hok Hc. unfold completes in Hc. bool_hyps. split.
  - apply (so_mic _ _ _ _ _ Hok); [|done|done]. unfold handshake. by rewrite H.
  - destruct (so_pmk _ _ _ _ _ Hok) as [?|[_ He]]; [done|]. unfold early in He. by rewrite H in He.
Qed.

(** The station in the focus has moved on. *)
Lemma own_safe w w' : safe aa K F w -> focused w -> installs w w' ->
  stays w w' \/ (idx w < length (stas w))%nat ->
  (sta_ok aa K F (idx w) (sm_view (me w)) /\ (in_step_loop (me w) = true \/ at_rest (me w)) ->
   (sta_ok aa K F (idx w) (sm_view (me w')) /\ (in_step_loop (me w') = true \/ at_rest (me w'))) /\
   sm_addr (me w') = sm_addr (me w) /\
   (K (idx w) (sm_addr (me w)) (PMK (me w)) -> K (idx w) (sm_addr (me w)) (PMK (me w')))) ->
  safe aa K F w'.
Proof.
  intros [] Hf HI Hin Hme. pose proof HI as [Hs Hi Ha Hcf Hc Ht Hk Htm].
  assert (Hk' : pairwise_keys w' = pairwise_keys w \/ completes (me w) = true /\ (idx w < length (stas w))%nat /\
    exists alg res, pairwise_keys w' =
      w_set_key alg (Some (idx w)) 0 (slice (tk (PTK (me w))) 0 (wpa_cipher_key_len (pairwise (me w)))) res
        :: pairwise_keys w).
  { destruct Hin as [[]|Hin]; [by left|]. destruct Hk as [?|[? ?]]; [by left|by right]. }
  assert (Htm' : forall t, List.In t (rekey_timers (lp w')) ->
    List.In t (rekey_timers (lp w)) \/ (completes (me w) = true /\ (idx w < length (stas w))%nat /\ user_ctx t = sta_ctx w)).
  { intros t Ht'. destruct Hin as [[]|Hin]; [by left; auto|]. destruct (Htm t Ht') as [?|[? ?]]; [by left|by right]. }
  clear Hk Htm Hin.
  assert (Fol : follows K w w').
  { intros i s H. destruct (lookup_lt_is_Some_2 (views w') i) as [s' H'].
    { rewrite length_views, Hs, <- length_views. by eapply lookup_lt_Some. }
    exists s'. split; [done|]. destruct (lookup_updated _ _ _ _ _ Hf Hs Hi H H') as [(-> & -> & ->)|(_ & ->)]; [|done].
    apply Hme, (sf_stas0 _ _ H). }
  split; try congruence.
  - rewrite Hc. done.
  - intros i s' H'. destruct (lookup_other w w' i s' ltac:(by rewrite Hs) H') as [s H].
    destruct (lookup_updated _ _ _ _ _ Hf Hs Hi H H') as [(-> & -> & ->)|(_ & ->)]; [|by apply sf_stas0].
    apply Hme, (sf_stas0 _ _ H).
  - intros o Ho. destruct Hk' as [Hk|(Hcp & Hin & alg & res & Hk)]; rewrite Hk in Ho.
    + apply (key_ok_follows aa K F w); [done|auto].
    + destruct Ho as [<-|Ho]; [|apply (key_ok_follows aa K F w); [done|auto]].
      apply (key_ok_follows aa K F w); [done|]. pose proof (views_me _ Hin) as Hv.
      exists (sm_view (me w)), (PTK (me w)). eexists. split; [done|]. split; [|reflexivity].
      apply (completes_good _ (sm_view (me w))); [apply (sf_stas0 _ _ Hv)|done].
  - intros t Ht'. destruct (Htm' t Ht') as [Hold|(Hcp & Hin & Hu)].
    + destruct (sf_timers0 t Hold) as (s & H & HK). destruct (Fol _ _ H) as (s' & H' & HA & HP).
      exists s'. split; [done|]. rewrite HA. auto.
    + pose proof (views_me _ Hin) as Hv. destruct (Fol _ _ Hv) as (s' & H' & HA & HP).
      assert (E : ctx_sta (user_ctx t) = idx w) by (rewrite Hu; unfold ctx_sta, sta_ctx; lia).
      rewrite E. exists s'. split; [done|]. rewrite HA. apply HP.
      apply (completes_good _ (sm_view (me w))); [apply (sf_stas0 _ _ Hv)|done].
Qed.
End steps.

Section run_safety.
Context `{AC : !AesCipher}.
Context (aa : list Z) (K : nat -> list Z -> list Z -> Prop) (F : nat -> list Z -> Prop).

Lemma wstep_focused w w' : focused w -> wstep w w' -> focused w'.
Proof.
  assert (A : stas w' = stas w -> idx w' = idx w -> focused w -> focused w') by (intros Hs Hi; unfold focused; by rewrite Hs, Hi).
  intros Hf Hs. destruct Hs as [Hq|j Hj ->|S|b S|? S|? S|d ? ? ? S|d ? ? S|? ? S]; try (destruct S; by apply A).
  - destruct Hq. by apply A.
  - unfold focused. rewrite length_stas_focus, idx_focus. destruct Hj as [?|Hs]; [by left|right].
    rewrite stas_focus. unfold stored. by rewrite Hs.
Qed.

(** A step whose effect on the station in the focus is known. *)
Lemma effect_safe w w' d : safe aa K F w -> focused w -> installs w w' ->
  stays w w' \/ (idx w < length (stas w))%nat -> view w' = d (view w) ->
  (sta_ok aa K F (idx w) (sm_view (me w)) -> in_step_loop (me w) = true \/ at_rest (me w) ->
   let s' := cme (d (view w)) in
   (sta_ok aa K F (idx w) s' /\ (in_step_loop s' = true \/ at_rest s')) /\ sm_addr s' = sm_addr (me w) /\
   (K (idx w) (sm_addr (me w)) (PMK (me w)) -> K (idx w) (sm_addr (me w)) (PMK s'))) ->
  safe aa K F w'.
Proof.
  intros Hsafe Hf HI Hc HV Heff. apply (own_safe _ _ _ w); try done. intros [Hok Hr].
  specialize (Heff Hok Hr). rewrite <- HV in Heff. exact Heff.
Qed.

Lemma ptk_move_keeps s g d : ptk_move aa s d -> keeps s (cme (d (mk_core s g))).
Proof.
  intros Hm. destruct Hm as [Hi|Hi Hd|Hi Hd|Hi Hd|ok Hi Hd|Hi Hd|d Hn Hd]; [..|destruct Hd].
  all: core_solve s; split; reflexivity.
Qed.
Lemma group_move_keeps s g d : group_move s d -> keeps s (cme (d (mk_core s g))).
Proof. intros Hm. destruct Hm; core_solve s; split; reflexivity. Qed.

Lemma wstep_safe w w' : focused w -> wstep w w' -> safe aa K F w -> safe aa K F w'.
Proof.
  intros Hf Hs Hsafe. destruct Hs as [Hq|j Hj ->|S Hm|b S Hm|Hl S HV|Hl S HV|d Hi Hl Hd S HV|d Hl Hd S HV|Hl Hw S HV].
  - destruct Hq. apply (same_safe aa K F w); try done. by apply views_same.
  - apply (same_safe aa K F w); try done. apply views_focus.
  - destruct S. apply (same_safe aa K F w); try done. by apply views_same.
  - apply (own_safe _ _ _ w); [done|done|by apply stays_installs|by left|].
    intros [Hok Hr].
    change ((sta_ok aa K F (idx w) (sm_view (me w')) /\ (in_step_loop (sm_view (me w')) = true \/ at_rest (sm_view (me w')))) /\
            sm_addr (sm_view (me w')) = sm_addr (me w) /\
            (K (idx w) (sm_addr (me w)) (PMK (me w)) -> K (idx w) (sm_addr (me w)) (PMK (sm_view (me w'))))).
    rewrite Hm. split; [|done]. split; [|exact Hr].
    apply (flagged_ok _ _ _ _ (sm_view (me w))); [done|]. intros Hd. change (Disconnect (me w) = true) in Hd. by rewrite Hd.
  - apply (effect_safe w w' (cme ∷ in_step_loop ::= true)%cmd); [done|done|by apply stays_installs|by left|done|].
    intros Hok _. split; [|done]. split; [|by left]. destruct Hok. by split.
  - apply (effect_safe w w' (cme ∷ changed ::= false ;; cgrp ∷ gchanged ::= false)%cmd);
      [done|done|by apply stays_installs|by left|done|].
    intros Hok _. split; [|done]. split; [|by left]. destruct Hok. by split.
  - rewrite (sf_addr _ _ _ _ Hsafe) in Hd.
    apply (effect_safe w w' d); [done|done|done|by right|done|]. intros Hok _.
    pose proof (ptk_move_keeps _ (gview w) _ Hd) as [Ka Kl _ _ _ _]. destruct (ptk_move_ok _ _ _ _ _ (gview w) _ Hok Hd) as [A B].
    split; [split; [exact A|left; exact (eq_trans Kl Hl)]|split; [exact Ka|exact B]].
  - apply (effect_safe w w' d); [done|done|by apply stays_installs|by left|done|]. intros Hok _.
    pose proof (group_move_keeps _ (gview w) _ Hd) as [Ka Kl _ _ _ _]. destruct (group_move_ok _ _ _ _ _ (gview w) _ Hok Hd) as [A B].
    split; [split; [exact A|left; exact (eq_trans Kl Hl)]|split; [exact Ka|exact B]].
  - apply (effect_safe w w' (cme ∷ in_step_loop ::= false)%cmd); [done|done|by apply stays_installs|by left|done|].
    intros Hok _. split; [|done]. split; [by destruct Hok; split|right].
    exact (waiting_at_rest aa K F _ _ Hok Hw).
Qed.

Lemma wsteps_safe w w' : focused w -> wsteps w w' -> safe aa K F w -> safe aa K F w'.
Proof.
  intros Hf Hs. induction Hs as [w|w1 w2 w3 Hs _ IH]; [done|]. intros Hsafe. apply IH.
  - by eapply wstep_focused.
  - by eapply wstep_safe.
Qed.
End run_safety.

(** ** Between two events *)

Section events.
Context `{AC : !AesCipher} `{O : !Oracle}.
Context (aa : list Z) (K : nat -> list Z -> list Z -> Prop) (F : nat -> list Z -> Prop).

Definition here (w : world) : Prop := (idx w < length (stas w))%nat.
Definition calm (w : world) : Prop := forall i s, views w !! i = Some s -> in_step_loop s = false.

(** The world between two events. *)
Record ok (w : world) : Prop := mk_ok {
  ok_winv : winv w;
  ok_safe : safe aa K F w;
  ok_calm : calm w
}.

(** The same while an event is handled: the station in the focus need not be
    at rest, but the invariant holds of it. *)
Record nearly (w : world) : Prop := mk_nearly {
  nr_winv : winv w;
  nr_here : here w;
  nr_safe : safe aa K F (enter_loop w);
  nr_calm : calm w
}.

Lemma sta_ok_view i s : sta_ok aa K F i (sm_view s) <-> sta_ok aa K F i s.
Proof. split; intros []; by split. Qed.
Lemma sta_ok_loop i b s : sta_ok aa K F i (setter in_step_loop (fun _ => b) s) <-> sta_ok aa K F i s.
Proof. split; intros []; by split. Qed.

Lemma ok_me w : ok w -> here w -> sta_ok aa K F (idx w) (me w) /\ at_rest (me w) /\ in_step_loop (me w) = false.
Proof.
  intros [_ Hs Hc] Hi. destruct (sf_stas _ _ _ _ Hs _ _ (views_me _ Hi)) as [Ho Hr].
  pose proof (Hc _ _ (views_me _ Hi)) as Hl. change (in_step_loop (me w) = false) in Hl.
  split; [by apply sta_ok_view|]. split; [|done].
  destruct Hr as [Hr|Hr]; [change (in_step_loop (me w) = true) in Hr; congruence|exact Hr].
Qed.
Lemma nearly_me w : nearly w -> sta_ok aa K F (idx w) (me w) /\ in_step_loop (me w) = false.
Proof.
  intros [_ Hi Hs Hc]. destruct (sf_stas _ _ _ _ Hs _ _ (views_me (enter_loop w) Hi)) as [Ho _].
  split; [|exact (Hc _ _ (views_me _ Hi))].
  apply sta_ok_view. apply (sta_ok_loop _ true). exact Ho.
Qed.

(** An edit of the station in the focus. *)
Record edited (i : nat) (s s' : wpa_sm) : Prop := mk_edited {
  ed_addr : sm_addr s' = sm_addr s;
  ed_loop : in_step_loop s' = in_step_loop s;
  ed_pending : pending_deinit s' = pending_deinit s;
  ed_idle : idle_ok s -> idle_ok s';
  ed_pmk : K i (sm_addr s) (PMK s) -> K i (sm_addr s) (PMK s')
}.

Lemma edit_winv w w' : winv w -> stays w w' -> GInit (grp w') = GInit (grp w) -> edited (idx w) (me w) (me w') -> winv w'.
Proof.
  intros Hw S Hg []. apply (own_winv w); [done|apply S|apply S|done|].
  intros [Hp Hi]. split; [exact (eq_trans ed_pending0 Hp)|exact (ed_idle0 Hi)].
Qed.
Lemma edit_calm w w' : calm w -> focused w -> stays w w' -> edited (idx w) (me w) (me w') -> calm w'.
Proof.
  intros Hc Hf S [] i s' H'. destruct (lookup_other w w' i s' ltac:(by rewrite (s_stas _ _ S)) H') as [s H].
  pose proof (Hc _ _ H) as Hl.
  destruct (lookup_updated _ _ _ _ _ Hf (s_stas _ _ S) (s_idx _ _ S) H H') as [(-> & -> & ->)|(_ & ->)]; [|done].
  exact (eq_trans ed_loop0 Hl).
Qed.

Lemma ok_edit w w' : ok w -> here w -> stays w w' -> GInit (grp w') = GInit (grp w) -> edited (idx w) (me w) (me w') ->
  sta_ok aa K F (idx w) (me w') -> at_rest (me w') -> ok w' /\ here w'.
Proof.
  intros Hok Hi S Hg He Hs Hr. pose proof (ok_winv _ Hok) as Hw.
  split; [|unfold here; by rewrite (s_idx _ _ S), (s_stas _ _ S)]. split.
  - by apply (edit_winv w).
  - destruct He. apply (own_safe _ _ _ w); [apply Hok|apply Hw|by apply stays_installs|by left|].
    intros _. split; [split; [by apply sta_ok_view|by right]|done].
  - apply (edit_calm w); try done; [apply Hok|apply Hw].
Qed.

Lemma nearly_edit w w' : nearly w -> stays w w' -> GInit (grp w') = GInit (grp w) -> edited (idx w) (me w) (me w') ->
  sta_ok aa K F (idx w) (me w') -> nearly w'.
Proof.
  intros Hn S Hg He Hs. pose proof (nr_winv _ Hn) as Hw. split.
  - by apply (edit_winv w).
  - unfold here. rewrite (s_idx _ _ S), (s_stas _ _ S). apply Hn.
  - destruct He. apply (own_safe _ _ _ (enter_loop w)); [apply Hn|exact (wi_focused _ Hw)| | |].
    + apply stays_installs. destruct S. by split.
    + right. exact (nr_here _ Hn).
    + intros _. split; [split; [|by left]|done]. apply (sta_ok_view _ (me (enter_loop w'))).
      by apply (sta_ok_loop _ true).
  - apply (edit_calm w); try done; [apply Hn|apply Hw].
Qed.

Lemma ok_nearly w : ok w -> here w -> nearly w.
Proof.
  intros Hok Hi. destruct (ok_me _ Hok Hi) as (Hs & _ & Hl). destruct Hok as [Hw Hsafe Hc]. split; try done.
  apply (wstep_safe aa K F w); [apply Hw|by apply enter_loop_running|done].
Qed.

(** The machine of the station in the focus is run. *)
Lemma nearly_step w : nearly w ->
  ok (wpa_sm_step w) /\ here (wpa_sm_step w) /\ stuck (wpa_sm_step w) = stuck w /\ idx (wpa_sm_step w) = idx w /\
  length (stas (wpa_sm_step w)) = length (stas w).
Proof.
  intros Hn. pose proof (nearly_me _ Hn) as [_ Hl]. destruct Hn as [Hw Hi Hs Hc].
  destruct (wpa_sm_step_runs w Hw Hi) as [[L _] Hidx].
  split; [split|].
  - by apply (l_inv _ _ L).
  - apply (wsteps_safe aa K F (enter_loop w)); [exact (wi_focused _ Hw)|by apply wpa_sm_step_enters|done].
  - intros i s' H'. destruct (lookup_other w _ i s' (l_len _ _ L) H') as [s H].
    rewrite (l_loops _ _ L _ _ _ H H'). by eapply Hc.
  - split; [unfold here; by rewrite Hidx, (l_len _ _ L)|]. split; [apply L|]. split; [done|apply L].
Qed.
End events.
