(* ===== verification/WpaEvents.v ===== *)
(** * The WPA authenticator: events

    Every call that the rest of hostapd makes, every received frame and every
    timeout keeps the invariant [ok] of WpaSafety.v and ends ([event_ok]), if
    what it brings is accounted for ([allowed]): keys that the callbacks
    return are in [K], frames in [F]. *)

From Stdlib Require Import String.
From S2P Require Import Prelude.
From S2P Require Import Eloop.
From S2P Require Import Wpabuf.
From S2P Require Import Common.
From S2P Require Import Aes.
From S2P Require Import Hash.
From S2P Require Import WpaCommon.
From S2P Require Import WpaIe.
From S2P Require Import WpaAuth.
From S2P Require Import WpaSteps.
From S2P Require Import WpaRun.
From S2P Require Import WpaSafety.

Section handlers.
Context `{AC : !AesCipher} `{O : !Oracle}.
Context (aa : list Z) (K : nat -> list Z -> list Z -> Prop) (F : nat -> list Z -> Prop).

Abbreviation ok := (ok aa K F).
Abbreviation nearly := (nearly aa K F).
Abbreviation sta_ok := (sta_ok aa K F).
Abbreviation good := (good aa K F).

(** ** Handlers *)

(** The world after an operation on the station in the focus. *)
Record outcome (w w' : world) : Prop := mk_outcome {
  oc_here : here w';
  oc_stuck : stuck w' = stuck w;
  oc_idx : idx w' = idx w;
  oc_len : length (stas w') = length (stas w)
}.

Definition done_ok (w w' : world) : Prop := ok w' /\ outcome w w'.
Definition keeps_ok (c : cmd world) : Prop := forall w, ok w -> here w -> done_ok w (c w).
Definition keeps_nearly (c : cmd world) : Prop := forall w, nearly w -> nearly (c w) /\ outcome w (c w).
(** From the middle of an event to its end. *)
Definition finishes (c : cmd world) : Prop := forall w, nearly w -> done_ok w (c w).

Lemma outcome_refl w : here w -> outcome w w.
Proof. by split. Qed.
Lemma outcome_trans w1 w2 w3 : outcome w1 w2 -> outcome w2 w3 -> outcome w1 w3.
Proof. intros [] []. split; [done|congruence..]. Qed.
Lemma stays_outcome w w' : here w -> stays w w' -> outcome w w'.
Proof. intros Hi S. split; try apply S; [unfold here|]; by rewrite ?(s_idx _ _ S), (s_stas _ _ S). Qed.
Lemma done_trans w1 w2 w3 : outcome w1 w2 -> done_ok w2 w3 -> done_ok w1 w3.
Proof. intros H1 [H2 H3]. split; [done|by eapply outcome_trans]. Qed.

Lemma keeps_ok_skip : keeps_ok skip.
Proof. intros w Hw Hi. split; [done|by apply outcome_refl]. Qed.
Lemma keeps_ok_seq c1 c2 : keeps_ok c1 -> keeps_ok c2 -> keeps_ok (c1 ;; c2)%cmd.
Proof.
  intros H1 H2 w Hw Hi. destruct (H1 w Hw Hi) as [Ho1 Hc1]. apply (done_trans _ (c1 w)); [done|].
  apply H2; [done|apply Hc1].
Qed.
Lemma keeps_ok_when p c : keeps_ok c -> keeps_ok (WHEN p DO c)%cmd.
Proof. intros H w. unfold when. destruct (p w); [apply H|apply keeps_ok_skip]. Qed.
Lemma keeps_ok_if (b : bool) c1 c2 : keeps_ok c1 -> keeps_ok c2 -> keeps_ok (if b then c1 else c2).
Proof. by destruct b. Qed.
Lemma keeps_nearly_seq c1 c2 : keeps_nearly c1 -> keeps_nearly c2 -> keeps_nearly (c1 ;; c2)%cmd.
Proof.
  intros H1 H2 w Hw. destruct (H1 w Hw) as [Hn1 Hc1]. destruct (H2 _ Hn1) as [Hn2 Hc2].
  split; [exact Hn2|by eapply outcome_trans].
Qed.
Lemma finishes_seq c1 c2 : keeps_nearly c1 -> finishes c2 -> finishes (c1 ;; c2)%cmd.
Proof.
  intros H1 H2 w Hw. destruct (H1 w Hw) as [Hn1 Hc1]. apply (done_trans _ (c1 w)); [done|]. by apply H2.
Qed.
Lemma finishes_then c1 c2 : finishes c1 -> keeps_ok c2 -> finishes (c1 ;; c2)%cmd.
Proof.
  intros H1 H2 w Hw. destruct (H1 w Hw) as [Hn1 Hc1]. apply (done_trans _ (c1 w)); [done|]. apply H2; [done|apply Hc1].
Qed.
Lemma ok_finishes c w : finishes c -> ok w -> here w -> done_ok w (c w).
Proof. intros H Hw Hi. apply H. by apply ok_nearly. Qed.

Lemma step_finishes : finishes wpa_sm_step.
Proof.
  intros w Hn. destruct (nearly_step _ _ _ w Hn) as (Ho & Hi & Hs & Hx & Hl). split; [done|by split].
Qed.

Lemma quiet_edited i w w' : quiet w w' -> edited K i (me w) (me w') /\ (sta_ok i (me w) -> sta_ok i (me w')) /\
  (at_rest (me w) -> at_rest (me w')) /\ GInit (grp w') = GInit (grp w).
Proof.
  intros [Hv Hg _ _ _ _ _ _ _ _].
  assert (E : forall A (f : wpa_sm -> A), (forall s, f (sm_view s) = f s) -> f (me w') = f (me w)).
  { intros A f Hf. by rewrite <- Hf, Hv, Hf. }
  split; [split|split; [|split]].
  - by apply (E _ sm_addr).
  - by apply (E _ in_step_loop).
  - by apply (E _ pending_deinit).
  - intros H. rewrite <- (E _ idle_ok) in H by done. done.
  - rewrite (E _ PMK) by done. done.
  - intros H. apply (sta_ok_view aa K F). rewrite Hv. by apply sta_ok_view.
  - intros H. rewrite <- (E _ at_rest) in H by done. done.
  - by apply gview_group.
Qed.

Lemma quiet_keeps_ok c : Quiet c -> keeps_ok c.
Proof.
  intros Hq w Hw Hi. specialize (Hq w). destruct (quiet_edited (idx w) _ _ Hq) as (He & Hs & Hr & Hg).
  destruct (ok_me _ _ _ _ Hw Hi) as (Hs0 & Hr0 & _). pose proof (quiet_stays _ _ Hq) as S.
  split; [apply (ok_edit aa K F w); auto|by apply stays_outcome].
Qed.
Lemma quiet_keeps_nearly c : Quiet c -> keeps_nearly c.
Proof.
  intros Hq w Hw. specialize (Hq w). destruct (quiet_edited (idx w) _ _ Hq) as (He & Hs & Hr & Hg).
  destruct (nearly_me _ _ _ _ Hw) as (Hs0 & _). pose proof (quiet_stays _ _ Hq) as S.
  split; [apply (nearly_edit aa K F w); auto|apply stays_outcome; [apply Hw|done]].
Qed.

(** An assignment to members of the station. *)
Lemma edit_keeps_ok c : (forall w, stays w (c w)) -> (forall w, GInit (grp (c w)) = GInit (grp w)) ->
  (forall w, here w -> sta_ok (idx w) (me w) -> at_rest (me w) ->
     edited K (idx w) (me w) (me (c w)) /\ sta_ok (idx w) (me (c w)) /\ at_rest (me (c w))) -> keeps_ok c.
Proof.
  intros S Hg He w Hw Hi. destruct (ok_me _ _ _ _ Hw Hi) as (Hs0 & Hr0 & _).
  destruct (He w Hi Hs0 Hr0) as (A & B & C).
  split; [by apply (ok_edit aa K F w)|by apply stays_outcome].
Qed.
Lemma edit_keeps_nearly c : (forall w, stays w (c w)) -> (forall w, GInit (grp (c w)) = GInit (grp w)) ->
  (forall w, here w -> sta_ok (idx w) (me w) ->
     edited K (idx w) (me w) (me (c w)) /\ sta_ok (idx w) (me (c w))) -> keeps_nearly c.
Proof.
  intros S Hg He w Hw. destruct (nearly_me _ _ _ _ Hw) as (Hs0 & _).
  destruct (He w (nr_here _ _ _ _ Hw) Hs0) as (A & B).
  split; [by apply (nearly_edit aa K F w)|apply stays_outcome; [apply Hw|done]].
Qed.
End handlers.

(** Edits that touch nothing the invariant speaks of, and others. *)
Ltac edit_stays := intros ?; split; first [reflexivity|by intros].
Ltac edit_ok := let Hs := fresh "Hs" in intros ? ? Hs ?; split; [split; try done|split; [destruct Hs; split; try done|try done]].
Ltac edit_nearly := let Hs := fresh "Hs" in intros ? ? Hs; split; [split; try done|destruct Hs; split; try done].

Section handlers2.
Context `{AC : !AesCipher} `{O : !Oracle}.
Context (aa : list Z) (K : nat -> list Z -> list Z -> Prop) (F : nat -> list Z -> Prop).
Abbreviation keeps_ok := (keeps_ok aa K F).
Abbreviation keeps_nearly := (keeps_nearly aa K F).
Abbreviation finishes := (finishes aa K F).


(** What a command does to the core of the world is enough to know. *)
Lemma sim_keeps_ok d c : Sim d c -> Gsame d ->
  (forall i c0, sta_ok aa K F i (cme c0) -> at_rest (cme c0) ->
     edited K i (cme c0) (cme (d c0)) /\ sta_ok aa K F i (cme (d c0)) /\ at_rest (cme (d c0))) -> keeps_ok c.
Proof.
  intros HS Hg He w Hw Hi. destruct (HS w) as [S V]. destruct (ok_me _ _ _ _ Hw Hi) as (Hs0 & Hr0 & _).
  destruct (He (idx w) (view w)) as (A & B & C); [by apply sta_ok_view|exact Hr0|].
  pose proof (Hg (view w)) as (G1 & _). rewrite <- V in A, B, C, G1.
  split; [|by apply stays_outcome].
  apply (ok_edit aa K F w); [done|done|done|exact G1| |by apply (sta_ok_view aa K F)|exact C].
  destruct A. by split.
Qed.

Lemma no_ptk_edit i s : sta_ok aa K F i s -> at_rest s ->
  let s' := setter PTK_valid (fun _ => false) (setter PTK (fun _ => ptk_zero) s) in
  edited K i s s' /\ sta_ok aa K F i s' /\ at_rest s'.
Proof.
  intros Hs Hr s'. split; [by split|]. split; [|exact Hr]. destruct Hs. split; try done.
  intros Hh Hp _. exfalso. change (pairwise_received s = true) in Hp. change (handshake s) in Hh.
  unfold at_rest, handshake in *. destruct (wpa_ptk_state s); try done; congruence.
Qed.
Lemma remove_ptk_ok : keeps_ok wpa_remove_ptk.
Proof.
  apply (sim_keeps_ok core_no_ptk); [apply Sim_remove_ptk|gsame|]. intros i c0. apply no_ptk_edit.
Qed.
Lemma clear_ptk_ok : keeps_ok (me ∷ PTK_valid ::= false ;; me ∷ PTK ::= ptk_zero)%cmd.
Proof.
  apply (sim_keeps_ok core_no_ptk); [unfold core_no_ptk; sim|gsame|]. intros i c0. apply no_ptk_edit.
Qed.

(** A command that is chosen by the state it starts in. *)
Lemma keeps_ok_at (f : world -> cmd world) : (forall w, keeps_ok (f w)) -> keeps_ok (fun w => f w w).
Proof. intros H w. apply H. Qed.

(** *** wpa_auth_sm_event *)

Lemma start_machine : keeps_ok (me ∷ started ::= true ;; me ∷ Init ::= true ;; wpa_sm_step)%cmd.
Proof.
  intros w Hw Hi. apply ok_finishes; [|done|done].
  apply finishes_seq; [apply edit_keeps_nearly; [edit_stays|done|edit_nearly]|].
  apply finishes_seq; [apply edit_keeps_nearly; [edit_stays|done|edit_nearly]|]. apply step_finishes.
Qed.

Lemma sm_event_flags_ok event : keeps_ok (sm_event_flags wpa_sm_step event).
Proof.
  assert (Flag : keeps_ok (me ∷ DeauthenticationRequest ::= true)%cmd) by (apply edit_keeps_ok; [edit_stays|done|edit_ok]).
  assert (Re : keeps_ok (fun w => if negb (started (me w)) then
          (me ∷ started ::= true ;; me ∷ Init ::= true ;; wpa_sm_step ;;
           WHEN (fun w => negb (freed (me w))) DO (me ∷ Init ::= false ;; me ∷ AuthenticationRequest ::= true))%cmd w
        else (WHEN (fun w => GUpdateStationKeys (me w))
             DO (grp ∷ GKeyDoneStations <~ (fun w => GKeyDoneStations (grp w) - 1) ;;
                 me ∷ GUpdateStationKeys ::= false ;;
                 me ∷ PtkGroupInit ::= true) ;;
           me ∷ ReAuthenticationRequest ::= true)%cmd w)).
  { intros w. destruct (negb (started (me w))); revert w.
    - refine (keeps_ok_seq aa K F (me ∷ started ::= true ;; me ∷ Init ::= true ;; wpa_sm_step)%cmd _ start_machine _).
      apply keeps_ok_when. apply edit_keeps_ok; [edit_stays|done|edit_ok].
    - apply keeps_ok_seq.
      + apply keeps_ok_when. apply edit_keeps_ok; [edit_stays|done|edit_ok].
      + apply edit_keeps_ok; [edit_stays|done|edit_ok]. }
  destruct event; try exact (keeps_ok_skip aa K F); first [exact Flag|exact Re].
Qed.
End handlers2.

Section handlers3.
Context `{AC : !AesCipher} `{O : !Oracle}.
Context (aa : list Z) (K : nat -> list Z -> list Z -> Prop) (F : nat -> list Z -> Prop).
Abbreviation ok := (ok aa K F).
Abbreviation keeps_ok := (keeps_ok aa K F).
Abbreviation keeps_nearly := (keeps_nearly aa K F).
Abbreviation finishes := (finishes aa K F).

Lemma sm_event_ok event : keeps_ok (wpa_auth_sm_event wpa_sm_step event).
Proof.
  unfold wpa_auth_sm_event. apply keeps_ok_seq; [apply sm_event_flags_ok|].
  intros w. destruct (freed (me w)); [apply keeps_ok_skip|]. revert w.
  apply keeps_ok_seq.
  { apply keeps_ok_when.
    refine (keeps_ok_seq aa K F (me ∷ PTK_valid ::= false ;; me ∷ PTK ::= ptk_zero)%cmd
      (WHEN (fun _ => negb (bool_decide (event = WPA_REAUTH_EAPOL))) DO wpa_remove_ptk)%cmd (clear_ptk_ok aa K F) _).
    apply keeps_ok_when, remove_ptk_ok. }
  intros w Hw Hi. destruct (ok_me _ _ _ _ Hw Hi) as (_ & _ & Hl). rewrite Hl.
  apply (ok_finishes aa K F); [apply step_finishes|done|done].
Qed.

Lemma disconnect_ok : keeps_ok (wpa_sta_disconnect wpa_sm_step).
Proof.
  unfold wpa_sta_disconnect. apply keeps_ok_seq; [apply quiet_keeps_ok; by apply Quiet_told_me|].
  apply keeps_ok_when, sm_event_ok.
Qed.

(** ** All stations, and the group *)

(** The same without a station in the focus. *)
Record after (w w' : world) : Prop := mk_after {
  af_ok : ok w';
  af_stuck : stuck w' = stuck w;
  af_idx : idx w' = idx w;
  af_len : length (stas w') = length (stas w)
}.
Lemma after_refl w : ok w -> after w w.
Proof. by split. Qed.
Lemma after_trans w1 w2 w3 : after w1 w2 -> after w2 w3 -> after w1 w3.
Proof. intros [] []. split; [done|congruence..]. Qed.
Lemma after_done w w' : here w -> after w w' -> done_ok aa K F w w'.
Proof. intros Hi []. split; [done|]. split; try done. unfold here in *. congruence. Qed.
Lemma done_after w w' : done_ok aa K F w w' -> after w w'.
Proof. intros [? []]. by split. Qed.

Lemma nested_after w c : ok w -> runs c w -> after w (c w).
Proof.
  intros [Hw Hs Hc] [[L _] Hi]. split; [split|apply L|done|apply L].
  - by apply (l_inv _ _ L).
  - apply (wsteps_safe aa K F w); [apply Hw|apply L|done].
  - intros i s' H'. destruct (lookup_other w _ i s' (l_len _ _ L) H') as [s H].
    rewrite (l_loops _ _ L _ _ _ H H'). by eapply Hc.
Qed.

Lemma focus_ok j w : ok w -> (j < length (stas w))%nat -> ok (focus j w) /\ here (focus j w).
Proof.
  intros [Hw Hs Hc] Hj. destruct (focus_nested j w (or_introl Hj)) as [L _].
  split; [split|unfold here; by rewrite length_stas_focus].
  - by apply (l_inv _ _ L).
  - apply (wsteps_safe aa K F w); [apply Hw|apply L|done].
  - intros i s H. rewrite views_focus in H. by eapply Hc.
Qed.

Lemma for_each_after cb w : keeps_ok cb -> ok w -> after w (for_each_sta cb w).
Proof.
  intros Hcb Hw. unfold for_each_sta.
  enough (forall l w1, (forall j, List.In j l -> (j < length (stas w))%nat) ->
    ok w1 -> stuck w1 = stuck w -> length (stas w1) = length (stas w) ->
    let w2 := fold_left (fun w j => let w := focus j w in if listed (me w) then cb w else w) l w1 in
    ok w2 /\ stuck w2 = stuck w /\ length (stas w2) = length (stas w)) as Hfold.
  { destruct (Hfold (rev (seq 0 (length (stas w)))) w) as (A & B & C); try done.
    { intros j Hj. apply in_rev, in_seq in Hj. lia. }
    set (w2 := fold_left _ _ w) in *. clearbody w2.
    split; [|done|done|by rewrite length_stas_focus].
    destruct (wi_focused _ (ok_winv _ _ _ _ Hw)) as [Hi|Hs].
    - apply focus_ok; [done|by rewrite C].
    - assert (Hs2 : stas w2 = []) by (apply length_zero_iff_nil; by rewrite C, Hs).
      destruct (focus_nested (idx w) w2 (or_intror Hs2)) as [L _]. split.
      + by apply (l_inv _ _ L), A.
      + apply (wsteps_safe aa K F w2); [apply A|apply L|apply A].
      + intros i s H. rewrite views_focus in H. by eapply (ok_calm _ _ _ _ A). }
  induction l as [|j l IH]; intros w1 Hl H1 Hs1 Hl1; [done|]. cbn [fold_left]. cbv zeta in IH |- *.
  destruct (focus_ok j w1 H1) as [Hf Hi]; [rewrite Hl1; apply Hl; by left|].
  destruct (listed (me (focus j w1))).
  - destruct (Hcb _ Hf Hi) as [Hok Hoc]. apply IH; [intros; apply Hl; by right|exact Hok| |].
    + rewrite (oc_stuck _ _ Hoc). exact Hs1.
    + by rewrite (oc_len _ _ Hoc), length_stas_focus.
  - apply IH; [intros; apply Hl; by right|exact Hf|exact Hs1|by rewrite length_stas_focus].
Qed.

Lemma sta_deinit_ok : keeps_ok wpa_auth_sta_deinit.
Proof.
  unfold wpa_auth_sta_deinit. apply keeps_ok_seq; [apply edit_keeps_ok; [edit_stays|done|edit_ok]|].
  apply keeps_ok_seq; [apply quiet_keeps_ok; quiet|]. apply keeps_ok_seq; [apply quiet_keeps_ok; quiet|].
  apply keeps_ok_seq; [apply quiet_keeps_ok; quiet|]. apply keeps_ok_seq; [apply quiet_keeps_ok; quiet|].
  apply keeps_ok_seq; [apply quiet_keeps_ok; quiet|].
  intros w Hw Hi. destruct (ok_me _ _ _ _ Hw Hi) as (_ & _ & Hl). unfold ite. rewrite Hl. revert w Hw Hi Hl.
  intros w Hw Hi _. revert w Hw Hi. unfold wpa_free_sta_sm. apply keeps_ok_seq; [|apply keeps_ok_seq; [|apply keeps_ok_seq]].
  - unfold station_keys_done. apply keeps_ok_seq.
    + apply keeps_ok_when. apply edit_keeps_ok; [edit_stays|done|edit_ok].
    + apply edit_keeps_ok; [edit_stays|done|edit_ok].
  - apply edit_keeps_ok; [edit_stays|done|edit_ok].
  - apply quiet_keeps_ok; quiet.
  - apply edit_keeps_ok; [edit_stays|done|edit_ok].
Qed.
End handlers3.

Section handlers4.
Context `{AC : !AesCipher} `{O : !Oracle}.
Context (aa : list Z) (K : nat -> list Z -> list Z -> Prop) (F : nat -> list Z -> Prop).
Abbreviation ok := (ok aa K F).
Abbreviation keeps_ok := (keeps_ok aa K F).
Abbreviation after := (after aa K F).

(** A change that the stations do not notice. *)
Lemma same_after w w' : ok w -> stas w' = stas w -> idx w' = idx w -> sm_view (me w') = sm_view (me w) ->
  wpa_addr w' = wpa_addr w -> pmksa_cache w' = pmksa_cache w -> stuck w' = stuck w ->
  pairwise_keys w' = pairwise_keys w ->
  (forall t, List.In t (rekey_timers (lp w')) -> List.In t (rekey_timers (lp w))) ->
  GInit (grp w') = false -> after w w'.
Proof.
  intros [[Hf Hg Hsm] Hs Hc] H1 H2 H3 H4 H5 H6 H7 H8 H9. pose proof (views_same _ _ H1 H2 H3) as Hv.
  split; [split|done|done|by rewrite H1].
  - split; [unfold focused; by rewrite H1, H2|done|by rewrite Hv].
  - by apply (same_safe aa K F w).
  - unfold calm. by rewrite Hv.
Qed.
Ltac same_after := apply same_after; first [done | reflexivity | intros ?; exact id | idtac].

Lemma quiet_after c w : Quiet c -> ok w -> after w (c w).
Proof.
  intros Hq Hw. pose proof (Hq w) as []. destruct (gview_group w (c w)) as (G1 & _); [done|].
  apply same_after; try done. rewrite G1. apply (wi_group _ (ok_winv _ _ _ _ Hw)).
Qed.

Lemma group_step_after w : ok w ->
  after w (wpa_group_sm_step wpa_sm_step w) /\
  (wpa_group_sm_step wpa_sm_step w = w \/ grank (grp (wpa_group_sm_step wpa_sm_step w)) < grank (grp w)).
Proof.
  intros Hw. destruct (group_sm_step_runs wpa_sm_step w (ok_winv _ _ _ _ Hw)) as [E|[R Hr]]; [intros _; apply wpa_sm_step_good| |].
  - rewrite E. split; [by apply after_refl|by left].
  - split; [by apply nested_after|by right].
Qed.

(** The loop of [wpa_rekey_gtk]. *)
Definition group_round : cmd world := fun w => wpa_group_sm_step wpa_sm_step ((grp ∷ gchanged ::= false)%cmd w).
Definition group_again (w : world) : bool := gchanged (grp w).

Lemma group_round_after w : ok w -> after w (group_round w) /\
  (group_again (group_round w) = true -> grank (grp (group_round w)) < grank (grp w)).
Proof.
  intros Hw. unfold group_round. set (w1 := (grp ∷ gchanged ::= false)%cmd w).
  assert (A1 : after w w1).
  { apply same_after; try done. apply (wi_group _ (ok_winv _ _ _ _ Hw)). }
  assert (Hr1 : grank (grp w1) = grank (grp w)) by reflexivity. assert (Hg1 : gchanged (grp w1) = false) by reflexivity.
  clearbody w1. destruct (group_step_after w1 (af_ok _ _ _ _ _ A1)) as [A2 Hr].
  split; [by eapply after_trans|]. rewrite <- Hr1. destruct Hr as [E|Hr]; [|done].
  unfold group_again. rewrite E. congruence.
Qed.

Lemma group_loop_after w : ok w ->
  exists r, do_while group_round group_again step_fuel w = Some r /\ after w r.
Proof.
  intros Hw.
  destruct (do_while_terminates group_round group_again ok (fun v => Z.to_nat (grank (grp v))) w Hw) as [r E].
  - intros v Hv Ha. destruct (group_round_after v Hv) as [A Hr]. split; [apply A|]. specialize (Hr Ha).
    pose proof (grank_range (grp (group_round v))). lia.
  - assert (Hfuel : (Datatypes.S (Z.to_nat (grank (grp w))) <= step_fuel)%nat).
    { pose proof (grank_range (grp w)). unfold step_fuel. lia. }
    apply (do_while_more_fuel _ _ _ _ _ _ Hfuel) in E. exists r. split; [done|].
    apply (do_while_inv group_round group_again (after w) step_fuel w r); [by apply after_refl| |done].
    intros v Hv. eapply after_trans; [exact Hv|]. apply group_round_after, Hv.
Qed.

Lemma rekey_gtk_after w : ok w -> after w (wpa_rekey_gtk w).
Proof.
  intros Hw. unfold wpa_rekey_gtk, seq_cmd. set (w1 := (grp ∷ GTKReKey ::= true)%cmd w).
  assert (A1 : after w w1).
  { apply same_after; try done. apply (wi_group _ (ok_winv _ _ _ _ Hw)). }
  clearbody w1. destruct (group_loop_after w1 (af_ok _ _ _ _ _ A1)) as (w2 & E & A2).
  change (do_while (fun w => wpa_group_sm_step wpa_sm_step ((grp ∷ gchanged ::= false)%cmd w))
            (fun w => gchanged (grp w)) step_fuel w1) with (do_while group_round group_again step_fuel w1).
  rewrite E. eapply after_trans; [exact A1|]. eapply after_trans; [exact A2|].
  apply quiet_after; [by apply Quiet_reregister|apply A2].
Qed.

Lemma rekey_gmk_after w : ok w -> after w (wpa_rekey_gmk w).
Proof.
  intros Hw. apply quiet_after; [|done]. unfold wpa_rekey_gmk. apply Quiet_seq; [|by apply Quiet_reregister].
  apply Quiet_random. intros _ l. quiet.
Qed.

Lemma init_keys_after w : ok w -> after w (wpa_init_keys w).
Proof.
  intros Hw. unfold wpa_init_keys, seq_cmd. destruct (group_step_after w Hw) as [A1 _].
  set (w1 := wpa_group_sm_step wpa_sm_step w) in *. clearbody w1.
  assert (A2 : after w1 ((grp ∷ GInit ::= false)%cmd w1)) by (apply same_after; try done; apply A1).
  eapply after_trans; [exact A1|]. eapply after_trans; [exact A2|].
  apply group_step_after, A2.
Qed.
End handlers4.

Section handlers5.
Context `{AC : !AesCipher} `{O : !Oracle}.
Context (aa : list Z) (K : nat -> list Z -> list Z -> Prop) (F : nat -> list Z -> Prop).
Abbreviation ok := (ok aa K F).
Abbreviation keeps_ok := (keeps_ok aa K F).
Abbreviation after := (after aa K F).

(** The stations do not notice, whatever becomes of the group. *)
Record plain (w w' : world) : Prop := mk_plain {
  pl_stas : stas w' = stas w;
  pl_idx : idx w' = idx w;
  pl_me : sm_view (me w') = sm_view (me w);
  pl_addr : wpa_addr w' = wpa_addr w;
  pl_cache : pmksa_cache w' = pmksa_cache w;
  pl_stuck : stuck w' = stuck w;
  pl_keys : pairwise_keys w' = pairwise_keys w;
  pl_timers : forall t, List.In t (rekey_timers (lp w')) -> List.In t (rekey_timers (lp w))
}.
Lemma plain_trans w1 w2 w3 : plain w1 w2 -> plain w2 w3 -> plain w1 w3.
Proof. intros [] []. split; try congruence. auto. Qed.
Lemma plain_quiet c w : Quiet c -> plain w (c w).
Proof. intros Hq. by destruct (Hq w). Qed.
Lemma plain_after w w' : ok w -> plain w w' -> GInit (grp w') = false -> after w w'.
Proof. intros Hw [] Hg. by apply same_after. Qed.

Lemma gtk_init_plain w : plain w (wpa_group_gtk_init w) /\ GInit (grp (wpa_group_gtk_init w)) = GInit (grp w).
Proof.
  unfold wpa_group_gtk_init.
  set (c := (grp ∷ gchanged ::= false ;; grp ∷ wpa_group_state ::= WPA_GROUP_GTK_INIT ;;
    grp ∷ GTK ::= [replicate 32 0; replicate 32 0] ;; grp ∷ GN ::= 1 ;; grp ∷ GM ::= 2 ;;
    grp ∷ GN_igtk ::= 4 ;; grp ∷ GM_igtk ::= 5)%cmd).
  change (plain w (wpa_gtk_update (fun _ => skip) (c w)) /\ GInit (grp (wpa_gtk_update (fun _ => skip) (c w))) = GInit (grp w)).
  assert (P : plain w (c w)) by (split; first [reflexivity|by intros]).
  assert (G : GInit (grp (c w)) = GInit (grp w)) by reflexivity. set (w1 := c w) in *. clearbody w1.
  assert (Q : Quiet (wpa_gtk_update (fun _ => skip))).
  { apply Quiet_call; [apply Quietk_gtk_update|]. intros _. apply Quiet_skip. }
  split; [eapply plain_trans; [exact P|by apply plain_quiet]|].
  destruct (gview_group w1 (wpa_gtk_update (fun _ => skip) w1)) as (-> & _); [apply Q|done].
Qed.

Definition set_config (cf : wpa_auth_config) (ie : list Z) : cmd world :=
  (own_ie ::= ie ;; grp ∷ GTK_len <~ (fun w => wpa_cipher_key_len (wpa_group_cipher (conf w))) ;; grp ∷ GInit ::= true)%cmd.

Lemma reconfig_after cf w : ok w -> after w (wpa_reconfig cf w).
Proof.
  intros Hw. unfold wpa_reconfig, ask, seq_cmd.
  set (w0 := setter tick Datatypes.S ((conf ::= cf)%cmd w)).
  assert (P0 : plain w w0) by (split; first [reflexivity|by intros]).
  assert (G0 : GInit (grp w0) = false) by exact (wi_group _ (ok_winv _ _ _ _ Hw)).
  destruct (wpa_auth_gen_wpa_ie cf _) as [ie|]; [|by apply plain_after].
  change (after w (wpa_group_sm_step wpa_sm_step ((grp ∷ GInit ::= false)%cmd
    (wpa_group_sm_step wpa_sm_step (set_config cf ie w0))))).
  assert (P1 : plain w0 (set_config cf ie w0)) by (split; first [reflexivity|by intros]).
  assert (G1 : GInit (grp (set_config cf ie w0)) = true) by reflexivity.
  pose proof (plain_trans _ _ _ P0 P1) as P01. set (w1 := set_config cf ie w0) in *. clearbody w1. clear P0 G0 P1 w0.
  assert (E : wpa_group_sm_step wpa_sm_step w1 = wpa_group_gtk_init w1) by (unfold wpa_group_sm_step; by rewrite G1).
  rewrite E. destruct (gtk_init_plain w1) as [P2 _]. pose proof (plain_trans _ _ _ P01 P2) as P.
  set (w2 := wpa_group_gtk_init w1) in *. clearbody w2.
  assert (A : after w ((grp ∷ GInit ::= false)%cmd w2)).
  { apply plain_after; [done| |reflexivity]. eapply plain_trans; [exact P|]. split; first [reflexivity|by intros]. }
  eapply after_trans; [exact A|]. apply group_step_after, A.
Qed.

(** ** Michael MIC failures *)


Lemma swap_keys_plain w : plain w (swap_keys w) /\ GInit (grp (swap_keys w)) = GInit (grp w).
Proof. split; [split; first [reflexivity|by intros]|done]. Qed.

Definition rekey_once : cmd world :=
  (swap_keys ;; wpa_gtk_update (fun _ => skip) ;; wpa_group_config_group_keys (fun _ => skip))%cmd.
Lemma rekey_once_after w : ok w -> after w (rekey_once w).
Proof.
  intros Hw. unfold rekey_once, seq_cmd. destruct (swap_keys_plain w) as [P G].
  assert (A1 : after w (swap_keys w)).
  { apply plain_after; [done|done|]. rewrite G. apply (wi_group _ (ok_winv _ _ _ _ Hw)). }
  set (w1 := swap_keys w) in *. clearbody w1. eapply after_trans; [exact A1|].
  assert (A2 : after w1 (wpa_gtk_update (fun _ => skip) w1)).
  { apply quiet_after; [|apply A1]. apply Quiet_call; [apply Quietk_gtk_update|]. intros _. apply Quiet_skip. }
  eapply after_trans; [exact A2|]. apply quiet_after; [|apply A2].
  apply Quiet_call; [apply Quietk_config_group_keys|]. intros _. apply Quiet_skip.
Qed.

Definition count_cm : cmd world :=
  (CounterMeasuresInvoked <~ (fun w => CounterMeasuresInvoked w + 1) ;; tkip_countermeasures ::= true ;;
   told (w_countermeasures true))%cmd.
Definition restart_cm_timer : cmd world :=
  (lp <~ (fun w => snd (eloop_cancel_timeout ieee80211_tkip_countermeasures_stop_h 0 0 (lp w))) ;;
   lp <~ (fun w => eloop_register_timeout 60 0 ieee80211_tkip_countermeasures_stop_h 0 0 (lp w)))%cmd.
Lemma countermeasures_eq : ieee80211_tkip_countermeasures_start =
  (count_cm ;; (rekey_once ;; rekey_once) ;; restart_cm_timer ;;
   for_each_sta (told_me w_disconnect ;; wpa_auth_sta_deinit))%cmd.
Proof.
  unfold ieee80211_tkip_countermeasures_start, wpa_gtk_rekey, count_cm, restart_cm_timer, rekey_once. cbv zeta.
  unfold seq_cmd. reflexivity.
Qed.

Lemma countermeasures_after w : ok w -> after w (ieee80211_tkip_countermeasures_start w).
Proof.
  intros Hw. rewrite countermeasures_eq. unfold seq_cmd at 1 2 3 4.
  assert (A1 : after w (count_cm w)).
  { apply plain_after; [done| |exact (wi_group _ (ok_winv _ _ _ _ Hw))]. split; first [reflexivity|by intros]. }
  set (w1 := count_cm w) in *. clearbody w1.
  pose proof (rekey_once_after w1 (af_ok _ _ _ _ _ A1)) as A2. set (w2 := rekey_once w1) in *. clearbody w2.
  pose proof (rekey_once_after w2 (af_ok _ _ _ _ _ A2)) as A3. set (w3 := rekey_once w2) in *. clearbody w3.
  assert (A4 : after w3 (restart_cm_timer w3)).
  { apply quiet_after; [|apply A3]. apply Quiet_seq.
    - apply (Quiet_cancel _ (fun _ => 0) (fun _ => 0)).
    - by apply (Quiet_register (fun _ => 60) (fun _ => 0) (fun _ => 0) (fun _ => 0)). }
  set (w4 := restart_cm_timer w3) in *. clearbody w4.
  eapply after_trans; [exact A1|]. eapply after_trans; [exact A2|]. eapply after_trans; [exact A3|].
  eapply after_trans; [exact A4|]. apply for_each_after; [|apply A4].
  apply keeps_ok_seq; [apply quiet_keeps_ok; by apply Quiet_told_me|apply sta_deinit_ok].
Qed.

(** What is done after the report has been counted; the station is the same
    unless the stations have been removed. *)
Lemma michael_after k w : ok w ->
  (forall removed w', after w w' -> (removed = false -> me w' = me w) -> after w' (k removed w')) ->
  after w (michael_mic_failure k w).
Proof.
  intros Hw Hk. unfold michael_mic_failure.
  assert (P : forall (c : cmd world), (forall w, plain w (c w)) -> (forall w, GInit (grp (c w)) = GInit (grp w)) ->
    forall w, ok w -> after w (c w)).
  { intros c Hc Hg v Hv. apply plain_after; [done|apply Hc|]. rewrite Hg. apply (wi_group _ (ok_winv _ _ _ _ Hv)). }
  set (stamp := (michael_mic_failure_time ::= now (lp w))%cmd). cbv zeta.
  assert (Hstamp : forall v, ok v -> after v (stamp v)) by (apply P; [intros v; split; first [reflexivity|by intros]|done]).
  assert (Hme : forall v, me (stamp v) = me v) by done.
  clearbody stamp. destruct (os_reltime_expired _ _ _).
  - unfold seq_cmd. set (w1 := (michael_mic_failures ::= 1)%cmd w).
    assert (A1 : after w w1) by (apply (P (michael_mic_failures ::= 1)%cmd); [intros v; split; first [reflexivity|by intros]|done|done]).
    assert (E1 : me w1 = me w) by done.
    clearbody w1. pose proof (after_trans _ _ _ _ _ _ A1 (Hstamp _ (af_ok _ _ _ _ _ A1))) as A2.
    eapply after_trans; [exact A2|]. apply Hk; [done|]. by rewrite Hme.
  - unfold seq_cmd at 1. set (w1 := (michael_mic_failures <~ (fun w => michael_mic_failures w + 1))%cmd w).
    assert (A1 : after w w1) by (apply (P (michael_mic_failures <~ (fun w => michael_mic_failures w + 1))%cmd); [intros v; split; first [reflexivity|by intros]|done|done]).
    assert (E1 : me w1 = me w) by done.
    clearbody w1. cbv beta. destruct (1 <? _); unfold seq_cmd.
    + pose proof (after_trans _ _ _ _ _ _ A1 (countermeasures_after _ (af_ok _ _ _ _ _ A1))) as A2.
      set (w2 := ieee80211_tkip_countermeasures_start w1) in *. clearbody w2.
      pose proof (after_trans _ _ _ _ _ _ A2 (Hstamp _ (af_ok _ _ _ _ _ A2))) as A3.
      eapply after_trans; [exact A3|]. by apply Hk.
    + pose proof (after_trans _ _ _ _ _ _ A1 (Hstamp _ (af_ok _ _ _ _ _ A1))) as A2.
      eapply after_trans; [exact A2|]. apply Hk; [done|]. by rewrite Hme.
Qed.
End handlers5.

(** ** Received frames *)

Section reception.
Context `{AC : !AesCipher} `{O : !Oracle}.
Context (aa : list Z) (K : nat -> list Z -> list Z -> Prop) (F : nat -> list Z -> Prop).
Abbreviation ok := (ok aa K F).
Abbreviation keeps_ok := (keeps_ok aa K F).
Abbreviation after := (after aa K F).
Abbreviation done_ok := (done_ok aa K F).

(** What must be known of the station when a frame is handed to its
    machine. *)
Definition deliverable (f : eapol_key) (i : nat) (s : wpa_sm) : Prop :=
  has_bits (kf_info f) WPA_KEY_INFO_REQUEST = false -> has_bits (kf_info f) WPA_KEY_INFO_KEY_TYPE = true ->
  (handshake s -> MICVerified s = true -> good aa K F i (sm_addr s) (PTK s)) /\
  (negotiating s -> MICVerified s = true \/ update_snonce s = true).

Definition frame_in (f : eapol_key) (d : list Z) : cmd world :=
  (me ∷ last_rx_eapol_key ::= Some d ;;
   me ∷ last_rx_eapol_key_len ::= zlen d ;;
   me ∷ rx_eapol_key_secure ::= has_bits (kf_info f) WPA_KEY_INFO_SECURE ;;
   me ∷ EAPOLKeyReceived ::= true ;;
   me ∷ EAPOLKeyPairwise ::= has_bits (kf_info f) WPA_KEY_INFO_KEY_TYPE ;;
   me ∷ EAPOLKeyRequest ::= has_bits (kf_info f) WPA_KEY_INFO_REQUEST ;;
   me ∷ SNonce ::= kf_nonce f)%cmd.
Lemma deliver_eq f d : deliver f d =
  (me ∷ last_rx_eapol_key ::= None ;; ask o_oom (fun oom => if oom then skip else (frame_in f d ;; wpa_sm_step)))%cmd.
Proof. unfold deliver, frame_in, seq_cmd. reflexivity. Qed.

Lemma frame_in_sta f d w : let s := me w in let s' := me (frame_in f d w) in
  F (idx w) d -> deliverable f (idx w) s -> sta_ok aa K F (idx w) s ->
  edited K (idx w) s s' /\ sta_ok aa K F (idx w) s'.
Proof.
  intros s s' HF HD Hs. split; [by split|]. destruct Hs. split; try done.
  - intros Hh Hp Hm. change (pairwise_received s') with
      (true && negb (has_bits (kf_info f) WPA_KEY_INFO_REQUEST) && has_bits (kf_info f) WPA_KEY_INFO_KEY_TYPE) in Hp.
    bool_hyps. by apply HD.
  - intros Hn Hp. change (pairwise_received s') with
      (true && negb (has_bits (kf_info f) WPA_KEY_INFO_REQUEST) && has_bits (kf_info f) WPA_KEY_INFO_KEY_TYPE) in Hp.
    bool_hyps. by apply HD.
  - intros d' E. change (Some d = Some d') in E. by simplify_eq.
Qed.

Lemma deliver_ok f d w : ok w -> here w -> F (idx w) d -> deliverable f (idx w) (me w) -> done_ok w (deliver f d w).
Proof.
  intros Hw Hi HF HD. rewrite deliver_eq. unfold seq_cmd at 1.
  assert (H1 : keeps_ok (me ∷ last_rx_eapol_key ::= None)%cmd) by (apply edit_keeps_ok; [edit_stays|done|edit_ok]).
  destruct (H1 w Hw Hi) as [Hw1 Hc1]. assert (HD1 : deliverable f (idx w) (me ((me ∷ last_rx_eapol_key ::= None)%cmd w))) by exact HD.
  set (w1 := (me ∷ last_rx_eapol_key ::= None)%cmd w) in *. clearbody w1.
  apply (done_trans _ _ _ _ w1); [done|]. rewrite <- (oc_idx _ _ Hc1) in HF, HD1. pose proof (oc_here _ _ Hc1) as Hi1.
  clear H1 Hw Hi HD Hc1 w. unfold ask. set (w2 := setter tick Datatypes.S w1).
  assert (H2 : done_ok w1 w2) by (apply (quiet_keeps_ok aa K F (setter tick Datatypes.S)); [intros v; split; first [reflexivity|by intros]|done|done]).
  assert (HF2 : F (idx w2) d) by exact HF. assert (HD2 : deliverable f (idx w2) (me w2)) by exact HD1.
  set (b := o_oom _). clearbody w2 b. destruct H2 as [Hw2 Hc2]. destruct b; [by split|].
  apply (done_trans _ _ _ _ w2); [done|]. pose proof (ok_nearly _ _ _ _ Hw2 (oc_here _ _ Hc2)) as Hn.
  destruct (nearly_me _ _ _ _ Hn) as (Hs & _). destruct (frame_in_sta f d w2 HF2 HD2 Hs) as [He Hs'].
  assert (S : stays w2 (frame_in f d w2)) by (split; first [reflexivity|by intros]).
  assert (G : GInit (grp (frame_in f d w2)) = GInit (grp w2)) by reflexivity.
  pose proof (nearly_edit _ _ _ _ _ Hn S G He Hs') as Hn3.
  unfold seq_cmd. pose proof (stays_outcome _ _ (oc_here _ _ Hc2) S) as Hc3. set (w3 := frame_in f d w2) in *. clearbody w3.
  apply (done_trans _ _ _ _ w3); [done|]. exact (step_finishes aa K F w3 Hn3).
Qed.

(** *** Requests and responses *)

Lemma request_new_ptk_ok w : ok w -> here w -> K (idx w) (sm_addr (me w)) (PMK (me w)) -> done_ok w (wpa_request_new_ptk w).
Proof.
  intros Hw Hi HK. destruct (ok_me _ _ _ _ Hw Hi) as (Hs & Hr & _).
  assert (S : stays w (wpa_request_new_ptk w)) by (split; first [reflexivity|by intros]).
  split; [|by apply stays_outcome].
  apply (ok_edit aa K F w); try done. destruct Hs. split; try done. by left.
Qed.

Lemma request_deliverable f i s : has_bits (kf_info f) WPA_KEY_INFO_REQUEST = true -> deliverable f i s.
Proof. intros H H'. congruence. Qed.

(** A continuation that wants the frame to be one that has been received. *)
Definition goes_on (d : list Z) (P : nat -> wpa_sm -> Prop) (k : cmd world) : Prop :=
  forall w, ok w -> here w -> F (idx w) d -> P (idx w) (me w) -> done_ok w (k w).

Lemma goes_on_from d P k w w1 : goes_on d P k -> F (idx w) d -> done_ok w w1 -> P (idx w) (me w1) -> done_ok w (k w1).
Proof.
  intros Hk HF [Hw Hc] HP. apply (done_trans _ _ _ _ w1); [done|]. rewrite <- (oc_idx _ _ Hc) in HF, HP.
  apply Hk; [done|apply Hc|done|done].
Qed.

Definition anyone (i : nat) (s : wpa_sm) : Prop := True.
Definition keyed (i : nat) (s : wpa_sm) : Prop := PTK_valid s = true.

Lemma keyed_pmk w : ok w -> here w -> PTK_valid (me w) = true -> K (idx w) (sm_addr (me w)) (PMK (me w)).
Proof. intros Hw Hi Hv. destruct (ok_me _ _ _ _ Hw Hi) as (Hs & _ & _). by apply (so_ptk _ _ _ _ _ Hs). Qed.

Lemma new_ptk_goes_on d k : goes_on d anyone k -> goes_on d keyed (wpa_request_new_ptk ;; k)%cmd.
Proof.
  intros Hk w Hw Hi HF Hv. apply (goes_on_from d anyone k w (wpa_request_new_ptk w)); [done|done| |done].
  apply request_new_ptk_ok; [done|done|by apply keyed_pmk].
Qed.

Lemma error_report_goes_on d group k : goes_on d anyone k -> goes_on d keyed (wpa_receive_error_report group k).
Proof.
  intros Hk w Hw Hi HF Hv. unfold wpa_receive_error_report. cbv zeta. set (cipher := if group then _ else _). clearbody cipher.
  destruct (negb (cipher =? _)); [by apply (new_ptk_goes_on d)|].
  apply after_done; [done|]. apply michael_after; [done|]. intros removed w' A E.
  destruct removed; [apply after_refl, A|]. specialize (E eq_refl).
  pose proof (after_done _ _ _ _ _ Hi A) as [Hw' Hc']. rewrite <- (oc_idx _ _ Hc') in HF. rewrite <- E in Hv.
  unfold seq_cmd at 1 2. set (w2 := (TKIPRemoteMICFailures <~ _)%cmd _).
  assert (D2 : done_ok w' w2).
  { refine (quiet_keeps_ok aa K F (me ∷ RemoteMICFailures <~ (fun w => RemoteMICFailures (me w) + 1) ;;
      TKIPRemoteMICFailures <~ (fun w => TKIPRemoteMICFailures w + 1))%cmd _ w' Hw' (oc_here _ _ Hc')).
    intros v; split; first [reflexivity|by intros]. }
  assert (Hv2 : PTK_valid (me w2) = true) by exact Hv. clearbody w2.
  apply (done_after aa K F), (goes_on_from d keyed (wpa_request_new_ptk ;; k)%cmd w' w2); [by apply new_ptk_goes_on|done|done|done].
Qed.

Lemma rekey_goes_on d k : goes_on d anyone k -> goes_on d anyone (cancel_gtk ;; wpa_rekey_gtk ;; k)%cmd.
Proof.
  intros Hk w Hw Hi HF _. unfold seq_cmd. apply (goes_on_from d anyone k w (wpa_rekey_gtk (cancel_gtk w))); [done|done| |done].
  assert (D1 : done_ok w (cancel_gtk w)) by (apply quiet_keeps_ok; [apply Quiet_cancel_gtk|done|done]).
  apply (done_trans _ _ _ _ (cancel_gtk w)); [apply D1|]. apply after_done; [apply D1|]. apply rekey_gtk_after, D1.
Qed.

Lemma process_request_goes_on d f kd k : goes_on d anyone k ->
  goes_on d (fun i s => MICVerified s = true -> PTK_valid s = true) (process_request f kd k).
Proof.
  intros Hk w Hw Hi HF Hm. unfold process_request. destruct (MICVerified (me w)); [|split; [done|by apply outcome_refl]].
  specialize (Hm eq_refl). cbn [negb]. unfold seq_cmd at 1 2.
  set (w1 := (me ∷ req_replay_counter ::= kf_replay f)%cmd ((me ∷ req_replay_counter_used ::= true)%cmd w)).
  assert (D1 : done_ok w w1).
  { refine (quiet_keeps_ok aa K F (me ∷ req_replay_counter_used ::= true ;; me ∷ req_replay_counter ::= kf_replay f)%cmd _ w Hw Hi).
    intros v; split; first [reflexivity|by intros]. }
  assert (Hv1 : PTK_valid (me w1) = true) by exact Hm. clearbody w1. cbv beta zeta.
  assert (Quit : done_ok w ((fault ::= true)%cmd w1)).
  { apply (done_trans _ _ _ _ w1); [apply D1|].
    apply (quiet_keeps_ok aa K F (fault ::= true)%cmd); [intros v; split; first [reflexivity|by intros]|apply D1|apply D1]. }
  destruct (has_bits _ WPA_KEY_INFO_ERROR); [exact (goes_on_from d keyed _ w w1 (error_report_goes_on d _ k Hk) HF D1 Hv1)|].
  destruct (has_bits _ WPA_KEY_INFO_KEY_TYPE); [exact (goes_on_from d keyed _ w w1 (new_ptk_goes_on d k Hk) HF D1 Hv1)|].
  pose proof (rekey_goes_on d k Hk) as Hrekey.
  destruct (0 <? _); [|exact (goes_on_from d anyone _ w w1 Hrekey HF D1 I)].
  destruct (wpa_parse_kde_ies kd) as [[res kde]|]; [|exact Quit].
  destruct (_ && _); [exact (goes_on_from d anyone _ w w1 Hk HF D1 I)|exact (goes_on_from d anyone _ w w1 Hrekey HF D1 I)].
Qed.

Lemma process_response_ok m f : keeps_ok (process_response m f).
Proof. apply quiet_keeps_ok. unfold process_response. quiet. Qed.
End reception.

Section receive.
Context `{AC : !AesCipher} `{O : !Oracle}.
Context (aa : list Z) (K : nat -> list Z -> list Z -> Prop) (F : nat -> list Z -> Prop).
Abbreviation ok := (ok aa K F).
Abbreviation keeps_ok := (keeps_ok aa K F).
Abbreviation done_ok := (done_ok aa K F).
Abbreviation goes_on := (goes_on aa K F).

(** The station's state is one that waits for the message. *)
Definition msg_expected (m : key_msg) (i : nat) (s : wpa_sm) : Prop :=
  match m with
  | PAIRWISE_2 => wpa_ptk_state s = WPA_PTK_PTKSTART \/ wpa_ptk_state s = WPA_PTK_PTKCALCNEGOTIATING \/
                  update_snonce s = true
  | PAIRWISE_4 => PTK_valid s = true
  | GROUP_2 | REQUEST => True
  | _ => False
  end.
(** The MIC has been looked at. *)
Definition mic_checked (m : key_msg) (i : nat) (s : wpa_sm) : Prop :=
  msg_expected m i s /\ (MICVerified s = true -> PTK_valid s = true) /\
  (m = PAIRWISE_2 \/ m = PAIRWISE_4 -> negotiating s -> MICVerified s = true \/ update_snonce s = true).

Lemma at_rest_received s : at_rest s -> handshake s -> pairwise_received s = false.
Proof. unfold at_rest, handshake. by destruct (wpa_ptk_state s). Qed.
Lemma negotiating_handshake s : negotiating s -> handshake s.
Proof. unfold negotiating, handshake. by destruct (wpa_ptk_state s). Qed.

Lemma mic_flag_ok b : keeps_ok (me ∷ MICVerified ::= b)%cmd.
Proof.
  apply edit_keeps_ok; [edit_stays|done|]. intros w Hi Hs Hr. split; [by split|]. split; [|exact Hr].
  pose proof (at_rest_received _ Hr) as Hp. destruct Hs. split; try done.
  - intros Hh Hp' _. specialize (Hp Hh). change (pairwise_received (me w) = true) in Hp'. congruence.
  - intros Hn Hp'. specialize (Hp (negotiating_handshake _ Hn)). change (pairwise_received (me w) = true) in Hp'. congruence.
Qed.

Lemma mic_verified_ok : keeps_ok mic_verified.
Proof.
  unfold mic_verified. apply keeps_ok_seq; [apply mic_flag_ok|]. apply quiet_keeps_ok. quiet.
Qed.
Lemma mic_verified_keeps w : PTK_valid (me (mic_verified w)) = PTK_valid (me w) /\ MICVerified (me (mic_verified w)) = true /\
  wpa_ptk_state (me (mic_verified w)) = wpa_ptk_state (me w) /\ update_snonce (me (mic_verified w)) = update_snonce (me w).
Proof. done. Qed.

(** The alternative SNonce gives a key that verifies the frame. *)
Lemma alt_snonce_ok d w w' : ok w -> here w -> F (idx w) d -> PTK_valid (me w) = true ->
  wpa_try_alt_snonce d w = Some w' -> done_ok w w' /\ PTK_valid (me w') = true /\
  wpa_ptk_state (me w') = wpa_ptk_state (me w) /\ update_snonce (me w') = update_snonce (me w).
Proof.
  intros Hw Hi HF Hv. unfold wpa_try_alt_snonce. destruct (find_pmk _ _ _) as [pmk|] eqn:E; [|done]. intros E'.
  apply find_pmk_spec in E as [Hin Hmic]. destruct (ok_me _ _ _ _ Hw Hi) as (Hs & Hr & _).
  pose proof (keyed_pmk aa K F w Hw Hi Hv) as HK.
  assert (Hkey : K (idx w) (sm_addr (me w)) pmk).
  { unfold pmk_candidates in Hin. destruct (wpa_key_mgmt_wpa_psk _).
    - apply in_map_iff in Hin as (k & <- & Hin). pose proof (so_psks _ _ _ _ _ Hs) as Hf.
      rewrite List.Forall_forall in Hf. by apply Hf.
    - by destruct Hin as [<-|[]]. }
  assert (Hgood : good aa K F (idx w) (sm_addr (me w)) (wpa_derive_ptk w (alt_SNonce (me w)) pmk)).
  { exists pmk, d, (ANonce (me w)), (alt_SNonce (me w)), (wpa_key_mgmt (me w)), (pairwise (me w)).
    split_and!; try done. unfold wpa_derive_ptk. by rewrite (sf_addr _ _ _ _ (ok_safe _ _ _ _ Hw)). }
  set (p := wpa_derive_ptk w _ pmk) in *. clearbody p. clear Hin Hmic.
  assert (S : stays w w') by (simplify_eq; split; first [reflexivity|by intros]).
  split; [|by simplify_eq]. split; [|by apply stays_outcome].
  apply (ok_edit aa K F w); [done|done|done|by simplify_eq|by simplify_eq|simplify_eq|by simplify_eq].
  pose proof (at_rest_received _ Hr) as Hp. destruct Hs. split; try done.
Qed.

Lemma check_mic_goes_on m d k : goes_on d (mic_checked m) k -> goes_on d (msg_expected m) (check_mic m d k).
Proof.
  intros Hk w Hw Hi HF Hm. unfold check_mic, seq_cmd at 1.
  assert (D1 : done_ok w ((me ∷ MICVerified ::= false)%cmd w)) by (by apply mic_flag_ok).
  assert (Hm1 : msg_expected m (idx w) (me ((me ∷ MICVerified ::= false)%cmd w))) by (by destruct m).
  assert (Hf1 : MICVerified (me ((me ∷ MICVerified ::= false)%cmd w)) = false) by done.
  set (w1 := (me ∷ MICVerified ::= false)%cmd w) in *. clearbody w1. cbv zeta.
  pose proof (proj2 D1) as C1. apply (done_trans _ _ _ _ w1); [done|]. rewrite <- (oc_idx _ _ C1) in HF, Hm1.
  pose proof (oc_here _ _ C1) as Hi1. destruct D1 as [Hw1 _]. clear Hw Hi Hm C1 w.
  destruct (PTK_valid (me w1)) eqn:Hv; cbn [andb].
  2:{ apply Hk; try done. split; [done|]. split; [congruence|]. intros [->| ->] Hn; simpl in Hm1; [|congruence].
      unfold negotiating in Hn. destruct Hm1 as [E|[E|?]]; [by rewrite E in Hn..|by right]. }
  destruct (update_snonce (me w1)) eqn:Hu; cbn [negb].
  { apply Hk; try done. split; [done|]. split; [congruence|]. by right. }
  assert (Finish : forall v, done_ok w1 v -> msg_expected m (idx w1) (me v) -> PTK_valid (me v) = true ->
    done_ok w1 (k (mic_verified v))).
  { intros v [Hv1 Cv] Hmv Hvv.
    assert (Dv : done_ok v (mic_verified v)) by (apply mic_verified_ok; [done|apply Cv]).
    destruct (mic_verified_keeps v) as (E1 & E2 & E3 & E4). set (v' := mic_verified v) in *. clearbody v'.
    apply (goes_on_from aa K F d (mic_checked m) k w1 v'); [done|done| |].
    - apply (done_trans _ _ _ _ v); done.
    - split; [destruct m; simpl in *; congruence|]. split; [congruence|by left]. }
  destruct (wpa_verify_key_mic _ _ d); [apply (Finish w1); [split; [done|by apply outcome_refl]|done|done]|].
  destruct (bool_decide (m = PAIRWISE_4) && alt_snonce_valid (me w1)) eqn:Hp4; [|split; [done|by apply outcome_refl]].
  destruct (wpa_try_alt_snonce d w1) as [w2|] eqn:Ha; [|split; [done|by apply outcome_refl]].
  destruct (alt_snonce_ok d w1 w2 Hw1 Hi1 HF Hv Ha) as (D2 & Hv2 & _). bool_hyps. subst m.
  by apply (Finish w2).
Qed.
End receive.

Section receive2.
Context `{AC : !AesCipher} `{O : !Oracle}.
Context (aa : list Z) (K : nat -> list Z -> list Z -> Prop) (F : nat -> list Z -> Prop).
Abbreviation ok := (ok aa K F).
Abbreviation keeps_ok := (keeps_ok aa K F).
Abbreviation done_ok := (done_ok aa K F).
Abbreviation goes_on := (goes_on aa K F).

Lemma stops d P : goes_on d P (fun w => w).
Proof. intros w Hw Hi _ _. split; [done|by apply outcome_refl]. Qed.
Lemma goes_on_keeps d P c : keeps_ok c -> goes_on d P c.
Proof. intros H w Hw Hi _ _. by apply H. Qed.

Lemma check_2of4_goes_on d kd k : goes_on d (msg_expected PAIRWISE_2) k -> goes_on d anyone (check_2of4 kd k).
Proof.
  intros Hk w Hw Hi HF _. unfold check_2of4. cbv zeta.
  destruct (_ && _ && _) eqn:Hst; [split; [done|by apply outcome_refl]|].
  destruct (reject_4way_hs_for_entropy (grp w)); [by apply disconnect_ok|].
  destruct (wpa_parse_kde_ies kd) as [[res kde]|].
  2:{ apply (goes_on_keeps d anyone (fault ::= true)%cmd); try done. apply quiet_keeps_ok. quiet_assign. }
  destruct (res <? 0); [split; [done|by apply outcome_refl]|].
  destruct (negb (wpa_compare_rsn_ie _ _)); [by apply disconnect_ok|].
  apply Hk; try done. unfold msg_expected.
  destruct (decide (wpa_ptk_state (me w) = WPA_PTK_PTKSTART)) as [|N1]; [by left|].
  destruct (decide (wpa_ptk_state (me w) = WPA_PTK_PTKCALCNEGOTIATING)) as [|N2]; [by right; left|].
  right; right. rewrite !bool_decide_eq_false_2 in Hst by done. cbn [negb andb] in Hst. apply orb_false_elim in Hst as [Hu _].
  by apply negb_false_iff in Hu.
Qed.

Lemma check_msg_goes_on d m kd k : goes_on d (msg_expected m) k -> goes_on d anyone (check_msg m kd k).
Proof.
  intros Hk w Hw Hi HF Hany. destruct m; unfold check_msg; try (by apply (stops d anyone)).
  - by apply (check_2of4_goes_on d kd k).
  - destruct (_ && PTK_valid (me w)) eqn:E; [|by apply (stops d anyone)]. bool_hyps. by apply Hk.
  - destruct (_ && PTK_valid (me w)) eqn:E; [|by apply (stops d anyone)]. by apply Hk.
  - by apply Hk.
Qed.

Lemma check_replay_goes_on d m f k : goes_on d anyone k -> goes_on d anyone (check_replay m f k).
Proof.
  intros Hk w Hw Hi HF Hany. unfold check_replay. cbv zeta.
  destruct (has_bits _ _); [destruct (_ && _); [by apply (stops d anyone)|by apply Hk]|].
  destruct (wpa_replay_counter_valid _ _); [by apply Hk|].
  destruct (_ && negb (bool_decide (SNonce _ = _))).
  - set (c := (me ∷ update_snonce ::= true ;; me ∷ alt_SNonce <~ (fun w => SNonce (me w)) ;;
       me ∷ alt_snonce_valid ::= true ;;
       me ∷ alt_replay_counter <~ (fun w => match key_replay (me w) with (c, _) :: _ => c | [] => [] end))%cmd).
    change (done_ok w (k (c w))).
    assert (Hc : keeps_ok c) by (apply edit_keeps_ok; [edit_stays|done|edit_ok; by right]).
    apply (goes_on_from aa K F d anyone k w (c w)); [done|done|by apply Hc|done].
  - destruct (_ && bool_decide (kf_replay f = _)); [by apply Hk|by apply (stops d anyone)].
Qed.

(** The message classes that have the bits of a pairwise response. *)
Lemma classify_pairwise info len : has_bits info WPA_KEY_INFO_REQUEST = false ->
  has_bits info WPA_KEY_INFO_KEY_TYPE = true ->
  classify info len = PAIRWISE_2 \/ classify info len = PAIRWISE_4 \/ classify info len = SMK_M3.
Proof.
  intros H1 H2. unfold classify. rewrite H1, H2, andb_false_r. cbn [negb].
  destruct (has_bits info WPA_KEY_INFO_SMK_MESSAGE); [by auto|]. destruct (len =? 0); auto.
Qed.

Lemma checked_deliverable f w : ok w -> here w ->
  mic_checked (classify (kf_info f) (kf_data_length f)) (idx w) (me w) -> deliverable aa K F f (idx w) (me w).
Proof.
  intros Hw Hi (He & Hm & Hn) Hr Hk. destruct (ok_me _ _ _ _ Hw Hi) as (Hs & _ & _). split.
  - intros _ Hv. by apply (so_ptk _ _ _ _ _ Hs), Hm.
  - apply Hn. destruct (classify_pairwise (kf_info f) (kf_data_length f) Hr Hk) as [E|[E|E]]; [by left|by right|].
    rewrite E in He. done.
Qed.

Lemma deliver_goes_on f d : goes_on d (deliverable aa K F f) (deliver f d).
Proof. intros w Hw Hi HF HD. by apply deliver_ok. Qed.

Lemma process_response_goes_on m f d :
  goes_on d (deliverable aa K F f) (process_response m f ;; deliver f d)%cmd.
Proof.
  intros w Hw Hi HF HD. unfold seq_cmd.
  assert (Hkeep : deliverable aa K F f (idx w) (me (process_response m f w))).
  { unfold process_response. destruct (bool_decide _); exact HD. }
  exact (goes_on_from aa K F d _ _ w _ (deliver_goes_on f d) HF (process_response_ok aa K F m f w Hw Hi) Hkeep).
Qed.

Lemma receive_checked_ok f kd d :
  goes_on d anyone (receive_checked (classify (kf_info f) (kf_data_length f)) f kd d).
Proof.
  unfold receive_checked. set (m := classify _ _). apply check_replay_goes_on, check_msg_goes_on.
  intros w Hw Hi HF Hm. destruct (has_bits _ WPA_KEY_INFO_ACK); [by apply (stops d anyone)|].
  destruct (has_bits _ WPA_KEY_INFO_MIC); cbn [negb]; [|by apply (stops d anyone)].
  apply (check_mic_goes_on aa K F m d); [|done|done|done|done]. clear w Hw Hi HF Hm.
  intros w Hw Hi HF Hm. destruct (has_bits (kf_info f) WPA_KEY_INFO_REQUEST) eqn:Hreq.
  - apply (process_request_goes_on aa K F d f kd); [|done|done|done|apply Hm].
    intros v Hv Hiv HFv _. apply deliver_ok; try done. by apply request_deliverable.
  - apply process_response_goes_on; try done. by apply checked_deliverable.
Qed.

Lemma receive_ok d w : ok w -> here w -> F (idx w) d -> done_ok w (wpa_receive d w).
Proof.
  intros Hw Hi HF. unfold wpa_receive. cbv zeta.
  assert (Hq : done_ok w w) by (split; [done|by apply outcome_refl]).
  assert (Hfault : done_ok w ((fault ::= true)%cmd w)).
  { apply (quiet_keeps_ok aa K F (fault ::= true)%cmd); [quiet_assign|done|done]. }
  destruct (conf_wpa (conf w) =? 0); [done|]. destruct (_ <? _); [done|].
  destruct (read_key _ d) as [f|]; [|done]. destruct (_ <? _); [done|]. destruct (negb (key_type_ok _ _)); [done|].
  destruct (rd_slice d _ _) as [kd|]; [|done]. destruct (_ && _); [done|]. by apply receive_checked_ok.
Qed.
End receive2.

(** ** Events *)

Section all_events.
Context `{AC : !AesCipher} `{O : !Oracle}.
Context (aa : list Z) (K : nat -> list Z -> list Z -> Prop) (F : nat -> list Z -> Prop).
Abbreviation ok := (ok aa K F).
Abbreviation keeps_ok := (keeps_ok aa K F).
Abbreviation finishes := (finishes aa K F).
Abbreviation after := (after aa K F).

(** What an event brings is accounted for. *)
Definition allowed (e : wpa_ev) : Prop :=
  match e with
  | EvCache cache => forall i a e, List.In (a, e) cache -> K i a (pmksa_pmk e)
  | EvEnv i new_psks new_msk _ _ _ =>
      (forall a k, List.In k new_psks -> K i a (take PMK_LEN k)) /\
      (forall a m n, new_msk = Some m -> n = PMK_LEN \/ n = PMK_LEN_SUITE_B_192 -> K i a (take n (take 64 m)))
  | EvReceive i d => F i d
  | _ => True
  end.

Lemma quiet_step (c : cmd world) : Quiet c -> keeps_ok c.
Proof. apply quiet_keeps_ok. Qed.

(** *** Association *)

Lemma associated_ok : keeps_ok wpa_auth_sta_associated.
Proof.
  intros w. unfold wpa_auth_sta_associated. destruct (conf_wpa (conf w) =? 0); [apply keeps_ok_skip|].
  destruct (started (me w)); revert w.
  - intros w Hw Hi. apply (ok_finishes aa K F); [|done|done].
    apply finishes_seq; [apply quiet_keeps_nearly; quiet_assign|].
    apply finishes_seq; [apply edit_keeps_nearly; [edit_stays|done|edit_nearly]|]. apply step_finishes.
  - refine (keeps_ok_seq aa K F (me ∷ started ::= true ;; me ∷ Init ::= true ;; wpa_sm_step)%cmd _ (start_machine aa K F) _).
    apply keeps_ok_when. intros w Hw Hi. apply (ok_finishes aa K F); [|done|done].
    apply finishes_seq; [apply edit_keeps_nearly; [edit_stays|done|edit_nearly]|].
    apply finishes_seq; [apply edit_keeps_nearly; [edit_stays|done|edit_nearly]|]. apply step_finishes.
Qed.

(** A member that the invariant does not speak of. *)
Lemma store_wpa_ie_ok ie k : (forall r, keeps_ok (k r)) -> keeps_ok (store_wpa_ie ie k).
Proof.
  intros Hk w. unfold store_wpa_ie. destruct (match wpa_ie (me w) with None => true | Some old => zlen old <? zlen ie end); revert w.
  - apply keeps_ok_seq; [apply quiet_step; quiet_assign|]. unfold ask. intros w. cbv beta.
    destruct (o_oom (tick w)); revert w.
    + refine (keeps_ok_seq aa K F (setter tick Datatypes.S) (k WPA_ALLOC_FAIL) _ (Hk _)).
      apply quiet_step. intros v; split; first [reflexivity|by intros].
    + refine (keeps_ok_seq aa K F (setter tick Datatypes.S) (me ∷ wpa_ie ::= Some ie ;; k WPA_IE_OK)%cmd _ _).
      * apply quiet_step. intros v; split; first [reflexivity|by intros].
      * apply keeps_ok_seq; [apply quiet_step; quiet_assign|apply Hk].
  - apply keeps_ok_seq; [apply quiet_step; quiet_assign|apply Hk].
Qed.

Lemma find_pmksa_in cache spa ie pos n e : find_pmksa cache spa ie pos n = Some (Some e) -> List.In (spa, e) cache.
Proof.
  revert pos; induction n as [|n IH]; intros pos H; [done|]. simpl in H.
  destruct (rd_slice ie pos _) as [id|]; [|done]. destruct (pmksa_cache_auth_get cache spa id) as [e'|] eqn:E; [|eauto].
  simplify_eq. unfold pmksa_cache_auth_get in E. destruct (List.find _ cache) as [[a e']|] eqn:Hf; [|done].
  simpl in E. simplify_eq. apply find_some in Hf as [Hin Hb]. bool_hyps. by subst a.
Qed.

Lemma pmksa_edit_ok w e : ok w -> here w -> (forall x, e = Some x -> List.In (sm_addr (me w), x) (pmksa_cache w)) ->
  done_ok aa K F w ((me ∷ pmksa ::= e)%cmd w).
Proof.
  intros Hw Hi He. destruct (ok_me _ _ _ _ Hw Hi) as (Hs & Hr & _).
  assert (S : stays w ((me ∷ pmksa ::= e)%cmd w)) by (split; first [reflexivity|by intros]).
  split; [|by apply stays_outcome]. apply (ok_edit aa K F w); try done. destruct Hs. split; try done.
  intros x Hx. change (e = Some x) in Hx. apply (sf_cache _ _ _ _ (ok_safe _ _ _ _ Hw)), He, Hx.
Qed.
End all_events.

(** *** The events of one station *)

Section station_events.
Context `{AC : !AesCipher} `{O : !Oracle}.
Context (aa : list Z) (K : nat -> list Z -> list Z -> Prop) (F : nat -> list Z -> Prop).
Abbreviation ok := (ok aa K F).
Abbreviation keeps_ok := (keeps_ok aa K F).
Abbreviation finishes := (finishes aa K F).
Abbreviation after := (after aa K F).

Lemma parse_element_ok version ie k : (forall r d, keeps_ok (k r d)) -> keeps_ok (parse_element version ie k).
Proof.
  intros Hk. unfold parse_element. cbv zeta. destruct (if version =? WPA_PROTO_RSN then wpa_parse_wpa_ie_rsn ie else wpa_parse_wpa_ie_wpa ie) as [[res d]|].
  - apply keeps_ok_seq; [apply quiet_keeps_ok; quiet_assign|].
    apply keeps_ok_seq; [apply quiet_keeps_ok; quiet_assign|].
    apply keeps_ok_seq; [apply quiet_keeps_ok; quiet_assign|apply Hk].
  - apply quiet_keeps_ok; quiet_assign.
Qed.

(** What is done with a cache entry that may have been found. *)
Lemma pmksa_found_ok ie pos n k : (forall r, keeps_ok (k r)) ->
  keeps_ok (fun w =>
    match find_pmksa (pmksa_cache w) (sm_addr (me w)) ie pos n with
    | None => (fault ::= true)%cmd w
    | Some e =>
        (me ∷ pmksa ::= e ;;
         (match e with Some e => PMKIDUsed ::= pmksa_pmkid e | None => skip end) ;;
         store_wpa_ie ie k)%cmd w
    end).
Proof.
  intros Hk w Hw Hi. destruct (find_pmksa _ _ _ _ _) as [e|] eqn:E.
  2:{ apply (quiet_keeps_ok aa K F (fault ::= true)%cmd); [quiet_assign|done|done]. }
  unfold seq_cmd at 1.
  assert (D : done_ok aa K F w ((me ∷ pmksa ::= e)%cmd w)).
  { apply pmksa_edit_ok; [done|done|]. intros x ->. by apply (find_pmksa_in _ _ ie pos n). }
  set (w1 := (me ∷ pmksa ::= e)%cmd w) in *. clearbody w1.
  apply (done_trans _ _ _ _ w1); [apply D|].
  refine (keeps_ok_seq aa K F (match e with Some e => PMKIDUsed ::= pmksa_pmkid e | None => skip end)%cmd (store_wpa_ie ie k) _ _ w1 (proj1 D) (oc_here _ _ (proj2 D))).
  - apply quiet_keeps_ok. destruct e; [quiet_assign|apply Quiet_skip].
  - by apply store_wpa_ie_ok.
Qed.

Lemma validate_ok ie k : (forall r, keeps_ok (k r)) -> keeps_ok (wpa_validate_wpa_ie ie k).
Proof.
  intros Hk. unfold wpa_validate_wpa_ie. destruct (rd ie 0) as [id|]; [|apply Hk]. cbv zeta.
  set (version := if id =? WLAN_EID_RSN then WPA_PROTO_RSN else WPA_PROTO_WPA). clearbody version. intros w. destruct (negb _); [apply Hk|]. revert w.
  apply parse_element_ok. intros res d w. set (cf := conf w). clearbody cf.
  destruct (negb (res =? 0)); [apply Hk|]. destruct (negb _); [apply Hk|]. destruct (_ =? 0); [apply Hk|].
  set (ciphers := Z.land (d_pairwise d) _). clearbody ciphers. revert w.
  apply keeps_ok_seq; [apply edit_keeps_ok; [edit_stays|done|edit_ok]|].
  destruct (ciphers =? 0); [apply Hk|]. destruct (mfp_violation cf d ciphers); [apply Hk|].
  apply keeps_ok_seq; [apply edit_keeps_ok; [edit_stays|done|edit_ok]|].
  apply keeps_ok_seq; [apply edit_keeps_ok; [edit_stays|done|edit_ok]|].
  destruct (_ <? 0); [apply Hk|].
  apply keeps_ok_seq; [apply edit_keeps_ok; [edit_stays|done|edit_ok]|]. by apply pmksa_found_ok.
Qed.

(** *** Dispatch *)

(** A handler that is called for a station in the list. *)
Lemma on_ok i c w : (forall v, v = focus i w -> ok v -> here v -> idx v = i -> done_ok aa K F v (c v)) -> ok w ->
  ok (on i c w) /\ stuck (on i c w) = stuck w.
Proof.
  intros Hc Hw. unfold on. destruct (Nat.ltb_spec i (length (stas w))) as [Hl|]; [|done].
  destruct (focus_ok aa K F i w Hw Hl) as [Hf Hi]. cbv zeta. destruct (_ && _); [|by split].
  destruct (Hc _ eq_refl Hf Hi) as [H1 H2]; [reflexivity|]. split; [exact H1|]. exact (oc_stuck _ _ H2).
Qed.

Lemma on_keeps_ok i c w : keeps_ok c -> ok w -> ok (on i c w) /\ stuck (on i c w) = stuck w.
Proof. intros Hc Hw. apply on_ok; [|done]. intros v _ Hv Hi _. by apply Hc. Qed.

(** What the callbacks answer changes. *)
Lemma psks_ok new_psks w : (forall a k, List.In k new_psks -> K (idx w) a (take PMK_LEN k)) -> ok w -> here w ->
  done_ok aa K F w ((me ∷ psks ::= new_psks)%cmd w).
Proof.
  intros Hp Hw Hi. destruct (ok_me _ _ _ _ Hw Hi) as (Hs & Hr & _).
  assert (S : stays w ((me ∷ psks ::= new_psks)%cmd w)) by (split; first [reflexivity|by intros]).
  split; [|by apply stays_outcome]. apply (ok_edit aa K F w); [done|done|done|done|by split| |exact Hr].
  destruct Hs. split; try done.
  - destruct so_pmk as [?|[? He]]; [by left|right; split; [done|]]. unfold early, at_rest in *.
    change (wpa_ptk_state (me ((me ∷ psks ::= new_psks)%cmd w))) with (wpa_ptk_state (me w)).
    by destruct (wpa_ptk_state (me w)).
  - apply List.Forall_forall. intros k Hk. by apply Hp.
Qed.
Lemma msk_ok new_msk w :
  (forall a m n, new_msk = Some m -> n = PMK_LEN \/ n = PMK_LEN_SUITE_B_192 -> K (idx w) a (take n (take 64 m))) ->
  ok w -> here w -> done_ok aa K F w ((me ∷ msk ::= new_msk)%cmd w).
Proof.
  intros Hm Hw Hi. destruct (ok_me _ _ _ _ Hw Hi) as (Hs & Hr & _).
  assert (S : stays w ((me ∷ msk ::= new_msk)%cmd w)) by (split; first [reflexivity|by intros]).
  split; [|by apply stays_outcome]. apply (ok_edit aa K F w); [done|done|done|done|by split| |exact Hr].
  destruct Hs. split; try done. intros m n E. by apply Hm.
Qed.

Lemma env_ok i new_psks new_msk eapol run avail w :
  (forall a k, List.In k new_psks -> K i a (take PMK_LEN k)) ->
  (forall a m n, new_msk = Some m -> n = PMK_LEN \/ n = PMK_LEN_SUITE_B_192 -> K i a (take n (take 64 m))) ->
  ok w -> here w -> idx w = i ->
  done_ok aa K F w ((me ∷ psks ::= new_psks ;; me ∷ msk ::= new_msk ;; me ∷ has_eapol_sm ::= eapol ;;
            me ∷ keyRun ::= run ;; me ∷ keyAvailable ::= avail)%cmd w).
Proof.
  intros Hp Hm Hw Hi <-. unfold seq_cmd at 1 2. pose proof (psks_ok new_psks w Hp Hw Hi) as [H1 C1].
  set (w1 := (me ∷ psks ::= new_psks)%cmd w) in *. clearbody w1. rewrite <- (oc_idx _ _ C1) in Hm.
  apply (done_trans _ _ _ _ w1); [done|]. pose proof (msk_ok new_msk w1 Hm H1 (oc_here _ _ C1)) as [H2 C2].
  set (w2 := (me ∷ msk ::= new_msk)%cmd w1) in *. clearbody w2. apply (done_trans _ _ _ _ w2); [done|].
  refine (keeps_ok_seq aa K F (me ∷ has_eapol_sm ::= eapol)%cmd (me ∷ keyRun ::= run ;; me ∷ keyAvailable ::= avail)%cmd _ _ w2 H2 (oc_here _ _ C2));
    [|apply keeps_ok_seq]; (apply edit_keeps_ok; [edit_stays|done|edit_ok]).
Qed.
End station_events.

(** *** Timeouts, and every event *)

Section every_event.
Context `{AC : !AesCipher} `{O : !Oracle}.
Context (aa : list Z) (K : nat -> list Z -> list Z -> Prop) (F : nat -> list Z -> Prop).
Abbreviation ok := (ok aa K F).
Abbreviation keeps_ok := (keeps_ok aa K F).
Abbreviation after := (after aa K F).
Abbreviation allowed := (allowed K F).

(** The machine is run after a flag has been raised. *)
Lemma send_eapol_timeout_ok : keeps_ok wpa_send_eapol_timeout.
Proof.
  intros w Hw Hi. apply (ok_finishes aa K F); [|done|done].
  apply finishes_seq; [apply edit_keeps_nearly; [edit_stays|done|edit_nearly]|].
  apply finishes_seq; [apply edit_keeps_nearly; [edit_stays|done|edit_nearly]|]. apply step_finishes.
Qed.
Lemma call_step_ok : keeps_ok wpa_sm_call_step.
Proof. intros w Hw Hi. by apply (ok_finishes aa K F); [apply step_finishes|..]. Qed.
Lemma rekey_ptk_ok w : ok w -> here w -> K (idx w) (sm_addr (me w)) (PMK (me w)) -> done_ok aa K F w (wpa_rekey_ptk w).
Proof.
  intros Hw Hi HK. unfold wpa_rekey_ptk, seq_cmd.
  destruct (request_new_ptk_ok aa K F w Hw Hi HK) as [H1 C1]. apply (done_trans _ _ _ _ (wpa_request_new_ptk w)); [done|].
  apply (ok_finishes aa K F); [apply step_finishes|done|apply C1].
Qed.

(** What the focus shows of a station. *)
Lemma focus_sees i w s : views w !! i = Some s -> (i < length (stas w))%nat ->
  sm_addr (me (focus i w)) = sm_addr s /\ PMK (me (focus i w)) = PMK s.
Proof.
  intros H Hl. assert (Hi : here (focus i w)) by (unfold here; by rewrite length_stas_focus).
  pose proof (views_me _ Hi) as E. rewrite views_focus in E. change (idx (focus i w)) with i in E.
  rewrite E in H. injection H as <-. done.
Qed.

Lemma set_lp_after e w : ok w -> (forall t, List.In t (rekey_timers e) -> List.In t (rekey_timers (lp w))) ->
  after w ((lp ::= e)%cmd w).
Proof.
  intros Hw Ht. apply plain_after; [done| |exact (wi_group _ (ok_winv _ _ _ _ Hw))]. split; first [reflexivity|exact Ht].
Qed.

(** A handler is called when its timer has left the queue. *)
Definition timer_ok (w : world) (t : eloop_timeout wpa_handler) : Prop :=
  handler t = wpa_rekey_ptk_h ->
  exists s, views w !! ctx_sta (user_ctx t) = Some s /\ K (ctx_sta (user_ctx t)) (sm_addr s) (PMK s).
Lemma run_handler_ok t w : ok w -> timer_ok w t -> ok (run_handler t w) /\ stuck (run_handler t w) = stuck w.
Proof.
  intros Hw Ht. unfold run_handler, timer_ok in *. destruct (handler t).
  - apply (on_keeps_ok aa K F); [apply send_eapol_timeout_ok|done].
  - destruct (Ht eq_refl) as (s & Hs & HK). apply (on_ok aa K F); [|done]. intros v -> Hv Hi E.
    assert (Hl : (ctx_sta (user_ctx t) < length (stas w))%nat) by (rewrite <- length_views; by eapply lookup_lt_Some).
    destruct (focus_sees _ _ _ Hs Hl) as [EA EP]. apply rekey_ptk_ok; [done|done|]. by rewrite E, EA, EP.
  - apply (on_keeps_ok aa K F); [apply call_step_ok|done].
  - destruct (rekey_gtk_after aa K F w Hw); by split.
  - destruct (rekey_gmk_after aa K F w Hw); by split.
  - assert (A : after w (ieee80211_tkip_countermeasures_stop w)).
    { apply plain_after; [done| |exact (wi_group _ (ok_winv _ _ _ _ Hw))]. split; first [reflexivity|by intros]. }
    by destruct A.
Qed.

Lemma timeout_ok w : ok w -> ok (wpa_event_step EvTimeout w) /\ stuck (wpa_event_step EvTimeout w) = stuck w.
Proof.
  intros Hw. cbn [wpa_event_step]. unfold eloop_run_timeout. destruct (timeout (lp w)) as [|t rest] eqn:E; [done|].
  destruct (negb _); [|done].
  pose proof (set_lp_after (set_timeout (lp w) rest) w Hw) as A.
  assert (Hsub : forall t', List.In t' rest -> List.In t' (timeout (lp w))) by (intros; rewrite E; by right).
  destruct A as [A1 A2 _ _].
  { intros t' Hin. unfold rekey_timers in *. rewrite filter_In in *. destruct Hin. split; [by apply Hsub|done]. }
  assert (Ht : timer_ok ((lp ::= set_timeout (lp w) rest)%cmd w) t).
  { intros Hh. apply (sf_timers _ _ _ _ (ok_safe _ _ _ _ Hw)). unfold rekey_timers. apply filter_In.
    split; [rewrite E; by left|]. unfold is_rekey. by apply bool_decide_eq_true. }
  set (w1 := (lp ::= set_timeout (lp w) rest)%cmd w) in *. clearbody w1.
  destruct (run_handler_ok t w1 A1 Ht) as [B1 B2]. split; [done|]. congruence.
Qed.

(** *** A new station *)

Lemma new_sta_ok i addr : sta_ok aa K F i (new_sta addr).
Proof. split; try done. by right. Qed.

Definition with_sta (addr : list Z) : cmd world := fun w =>
  let all := stored w in (stas ::= all ++ [new_sta addr] ;; me ::= new_sta addr ;; idx ::= length all)%cmd w.
Lemma with_sta_views addr w : views (with_sta addr w) = views w ++ [sm_view (new_sta addr)].
Proof.
  rewrite views_stas. change (stas (with_sta addr w)) with (stored w ++ [new_sta addr]).
  change (idx (with_sta addr w)) with (length (stored w)). change (me (with_sta addr w)) with (new_sta addr).
  rewrite map_app. unfold views. rewrite <- (length_map sm_view). 
  rewrite insert_app_r_alt by done. by rewrite Nat.sub_diag.
Qed.
Lemma with_sta_ok addr w : ok w -> ok (with_sta addr w) /\ stuck (with_sta addr w) = stuck w.
Proof.
  intros Hw. split; [|reflexivity]. pose proof (with_sta_views addr w) as V.
  assert (Hi : here (with_sta addr w)).
  { unfold here. change (idx (with_sta addr w)) with (length (stored w)).
    change (stas (with_sta addr w)) with (stored w ++ [new_sta addr]). rewrite length_app. cbn. lia. }
  assert (Hold : forall i s, views (with_sta addr w) !! i = Some s -> views w !! i = Some s \/ s = sm_view (new_sta addr)).
  { intros i s. rewrite V. intros H. apply lookup_app_Some in H as [?|[_ H]]; [by left|right].
    apply list_lookup_singleton_Some in H as [_ <-]. done. }
  assert (Hkeep : forall i s, views w !! i = Some s -> views (with_sta addr w) !! i = Some s).
  { intros i s H. rewrite V. by apply lookup_app_l_Some. }
  assert (G : grp (with_sta addr w) = grp w) by reflexivity.
  assert (E : wpa_addr (with_sta addr w) = wpa_addr w /\ pmksa_cache (with_sta addr w) = pmksa_cache w /\
    pairwise_keys (with_sta addr w) = pairwise_keys w /\ lp (with_sta addr w) = lp w) by done.
  set (w' := with_sta addr w) in *. clearbody w'. destruct E as (E1 & E2 & E3 & E4).
  destruct Hw as [[Hf Hg Hsm] [Sa Sc Ss Sk St] Hc].
  split; [split|split|].
  - by left.
  - by rewrite G.
  - intros i s H. destruct (Hold _ _ H) as [?| ->]; [by eapply Hsm|]. by split.
  - congruence.
  - by rewrite E2.
  - intros i s H. destruct (Hold _ _ H) as [?| ->]; [by apply Ss|].
    split; [apply sta_ok_view, new_sta_ok|by right].
  - intros o. rewrite E3. intros Ho. specialize (Sk o Ho). destruct o as [| alg [j|] | | | |]; try done.
    destruct Sk as (s & p & n & H & Hg' & ->). exists s, p, n. auto.
  - intros t. rewrite E4. intros Ht. destruct (St t Ht) as (s & H & HK). exists s. auto.
  - intros i s H. destruct (Hold _ _ H) as [?| ->]; [by eapply Hc|done].
Qed.

Lemma sta_init_ok addr w : ok w -> ok (wpa_auth_sta_init addr w) /\ stuck (wpa_auth_sta_init addr w) = stuck w.
Proof.
  intros Hw. unfold wpa_auth_sta_init. destruct (bool_decide _); [done|]. unfold ask.
  assert (A : after w (setter tick Datatypes.S w)).
  { apply plain_after; [done| |exact (wi_group _ (ok_winv _ _ _ _ Hw))]. split; first [reflexivity|by intros]. }
  set (w1 := setter tick Datatypes.S w) in *. set (oom := o_oom _). clearbody w1 oom. destruct A as [A1 A2 _ _].
  destruct oom; [done|]. change (ok (with_sta addr w1) /\ stuck (with_sta addr w1) = stuck w). rewrite <- A2.
  by apply with_sta_ok.
Qed.

Lemma cache_ok cache w : (forall i a e, List.In (a, e) cache -> K i a (pmksa_pmk e)) -> ok w ->
  ok ((pmksa_cache ::= cache)%cmd w).
Proof.
  intros HK [[Hf Hg Hsm] [] Hc]. split; [by split|by split|done].
Qed.

(** Every event is handled to its end, and keeps the invariant. *)
Lemma event_ok e w : ok w -> allowed e -> ok (wpa_event_step e w) /\ stuck (wpa_event_step e w) = stuck w.
Proof.
  intros Hw He.
  assert (A : forall w', after w w' -> ok w' /\ stuck w' = stuck w) by (intros w' []; by split).
  destruct e as [|cf| |cache|addr|i ps m b1 b2 b3|i ie|i|i|i|i ev|i|i|i d|i ack| |i|us|]; cbn [wpa_event_step].
  - apply A, init_keys_after, Hw.
  - apply A, reconfig_after, Hw.
  - apply A, quiet_after; [|done]. unfold wpa_auth_reconfig_group_keys. apply Quiet_call; [apply Quietk_config_group_keys|].
    intros _. apply Quiet_skip.
  - split; [by apply cache_ok|done].
  - by apply sta_init_ok.
  - destruct He as [Hp Hm]. apply (on_ok aa K F); [|done]. intros v _ Hv Hi E. by apply (env_ok aa K F i).
  - apply (on_keeps_ok aa K F); [|done]. apply validate_ok. intros r. apply keeps_ok_skip.
  - apply (on_keeps_ok aa K F); [|done]. unfold wpa_auth_sta_no_wpa. apply edit_keeps_ok; [edit_stays|done|edit_ok].
  - apply (on_keeps_ok aa K F); [|done]. apply edit_keeps_ok; [edit_stays|done|edit_ok].
  - apply (on_keeps_ok aa K F); [apply associated_ok|done].
  - apply (on_keeps_ok aa K F); [apply sm_event_ok|done].
  - apply (on_keeps_ok aa K F); [|done]. apply quiet_keeps_ok.
    by apply (Quiet_register (fun _ => 0) (fun _ => 0) sta_ctx (fun _ => 0)).
  - apply (on_keeps_ok aa K F); [apply remove_ptk_ok|done].
  - apply (on_ok aa K F); [|done]. intros v _ Hv Hi E. apply receive_ok; [done|done|by rewrite E].
  - apply (on_keeps_ok aa K F); [|done]. apply quiet_keeps_ok. unfold wpa_auth_eapol_key_tx_status. quiet.
  - apply A, michael_after; [done|]. intros _ w' Hw' _. apply after_refl, Hw'.
  - apply (on_keeps_ok aa K F); [apply sta_deinit_ok|done].
  - apply A, quiet_after; [|done]. apply Quiet_lp. by intros v t.
  - by apply timeout_ok.
Qed.

(** ** Runs *)

Lemma run_ok es w : ok w -> Forall allowed es -> ok (wpa_run es w) /\ stuck (wpa_run es w) = stuck w.
Proof.
  intros Hw He. unfold wpa_run. revert w Hw; induction He as [|e es Ha _ IH]; intros w Hw; [done|]. cbn [fold_left].
  destruct (event_ok e w Hw Ha) as [H1 H2]. destruct (IH _ H1) as [H3 H4]. split; [done|]. by rewrite H4.
Qed.
End every_event.
