(* ===== verification/WpaProperties.v ===== *)
(** * The WPA authenticator: properties of its runs

    [wpa_run] from the authenticator that [wpa_init] and [wpa_init_keys] set
    up, for any sequence of events: which keys are handed to the driver, and
    that every event is handled to its end.  The invariant is the one of
    WpaSafety.v, kept by every event (WpaEvents.v); what is known of a
    station are the master keys its callbacks and the PMKSA cache have given,
    and the frames received from it. *)

From Stdlib Require Import String.
From S2P Require Import Prelude.
From S2P Require Import Eloop.
From S2P Require Import Wpabuf.
From S2P Require Import Common.
From S2P Require Import Aes.
From S2P Require Import Hash.
From S2P Require Import WpaCommon.
From S2P Require Import WpaIe.
From S2P Require Import WpaAuth.
From S2P Require Import WpaSteps.
From S2P Require Import WpaRun.
From S2P Require Import WpaSafety.
From S2P Require Import WpaEvents.

(** A pairwise master key that the events [es] have given for the station
    with the number [i] and the address [a]. *)
Inductive known_pmk (es : list wpa_ev) (i : nat) (a : list Z) : list Z -> Prop :=
  | known_cache cache e : List.In (EvCache cache) es -> List.In (a, e) cache -> known_pmk es i a (pmksa_pmk e)
  | known_psk ps m b1 b2 b3 k : List.In (EvEnv i ps m b1 b2 b3) es -> List.In k ps -> known_pmk es i a (take PMK_LEN k)
  | known_msk ps m b1 b2 b3 n : List.In (EvEnv i ps (Some m) b1 b2 b3) es -> n = PMK_LEN \/ n = PMK_LEN_SUITE_B_192 ->
      known_pmk es i a (take n (take 64 m)).

(** A frame that has been received from the station. *)
Definition received (es : list wpa_ev) (i : nat) (d : list Z) : Prop := List.In (EvReceive i d) es.

Definition station_addr (w : world) (i : nat) : list Z := sm_addr (nth i (stored w) blank_sm).

Section init.
Context `{AC : !AesCipher} `{O : !Oracle}.
Context (aa : list Z) (K : nat -> list Z -> list Z -> Prop) (F : nat -> list Z -> Prop).

(** The authenticator before there are stations. *)
Record fresh (w : world) : Prop := mk_fresh {
  fr_stas : stas w = [];
  fr_addr : wpa_addr w = aa;
  fr_cache : pmksa_cache w = [];
  fr_keys : pairwise_keys w = [];
  fr_timers : rekey_timers (lp w) = [];
  fr_stuck : stuck w = false
}.
Lemma fresh_plain w w' : fresh w -> plain w w' -> fresh w'.
Proof.
  intros [] []. split; try congruence.
  assert (H : forall t, ~ List.In t (rekey_timers (lp w'))) by (intros t Ht; apply pl_timers in Ht; by rewrite fr_timers0 in Ht).
  destruct (rekey_timers (lp w')) as [|t l]; [done|]. destruct (H t). by left.
Qed.
Lemma fresh_quiet c w : Quiet c -> fresh w -> fresh (c w).
Proof. intros Hq Hf. apply (fresh_plain w); [done|by apply plain_quiet]. Qed.

Lemma fresh_ok w : fresh w -> GInit (grp w) = false -> ok aa K F w.
Proof.
  intros [] Hg. assert (V : views w = []) by (unfold views, stored; rewrite fr_stas0; by destruct (idx w)).
  split; [split|split|].
  - by right.
  - done.
  - intros i s. by rewrite V, lookup_nil.
  - done.
  - by rewrite fr_cache0.
  - intros i s. by rewrite V, lookup_nil.
  - intros o. by rewrite fr_keys0.
  - intros t. by rewrite fr_timers0.
  - intros i s. by rewrite V, lookup_nil.
Qed.

Lemma group_init_fresh w : fresh w -> fresh (wpa_group_init w).
Proof.
  intros Hf. unfold wpa_group_init.
  set (c := (grp ::= blank_group ;; grp ∷ GTKAuthenticator ::= true ;;
    grp ∷ GTK_len <~ (fun w => wpa_cipher_key_len (wpa_group_cipher (conf w))))%cmd).
  set (k := (fun ok : bool => if ok then (grp ∷ GInit ::= true)%cmd else skip)).
  change (fresh (wpa_group_init_gmk_and_counter k (c w))).
  assert (H : fresh (c w)) by (apply (fresh_plain w); [done|split; first [reflexivity|by intros]]).
  set (w1 := c w) in *. clearbody w1.
  destruct (Quietk_init_gmk k w1) as (ok & w2 & Hq & ->).
  assert (H2 : fresh w2) by (apply (fresh_plain w1); [done|by destruct Hq]).
  destruct ok; [|done]. apply (fresh_plain w2); [done|]. split; first [reflexivity|by intros].
Qed.

Lemma init_fresh cf oom e w0 : rekey_timers e = [] -> wpa_init aa cf oom e = Some w0 ->
  fresh w0 /\ GInit (grp w0) = true.
Proof.
  intros He. unfold wpa_init. destruct (wpa_auth_gen_wpa_ie cf oom) as [ie|]; [|done].
  set (w := mk_world _ _ _ _ _ _ _ _ _ _ _ _ _ _ _ _ _ _ _ _ _ _ _). cbv zeta. intros E.
  assert (Hf : fresh (wpa_group_init w)) by (apply group_init_fresh; by split). clearbody w.
  set (w1 := wpa_group_init w) in *. clearbody w1. destruct (GInit (grp w1)) eqn:G; [|done]. cbn [negb] in E.
  injection E as <-. set (c := (reregister (fun w => wpa_gmk_rekey (conf w)) wpa_rekey_gmk_h ;;
    reregister (fun w => wpa_group_rekey (conf w)) wpa_rekey_gtk_h)%cmd).
  assert (Q : Quiet c) by (apply Quiet_seq; by apply Quiet_reregister).
  split; [exact (fresh_quiet c w1 Q Hf)|]. change (GInit (grp (c w1)) = true). rewrite <- G.
  destruct (gview_group w1 (c w1)) as (G1 & _); [apply Q|done].
Qed.

Lemma fresh_init_keys w : fresh w -> GInit (grp w) = true -> ok aa K F (wpa_init_keys w) /\ stuck (wpa_init_keys w) = false.
Proof.
  intros Hf Hg. unfold wpa_init_keys, seq_cmd.
  assert (E : wpa_group_sm_step wpa_sm_step w = wpa_group_gtk_init w) by (unfold wpa_group_sm_step; by rewrite Hg).
  rewrite E. destruct (gtk_init_plain w) as [P _]. pose proof (fresh_plain _ _ Hf P) as H1.
  set (w1 := wpa_group_gtk_init w) in *. clearbody w1.
  assert (H2 : fresh ((grp ∷ GInit ::= false)%cmd w1)) by (apply (fresh_plain w1); [done|split; first [reflexivity|by intros]]).
  assert (G2 : GInit (grp ((grp ∷ GInit ::= false)%cmd w1)) = false) by done.
  set (w2 := (grp ∷ GInit ::= false)%cmd w1) in *. clearbody w2.
  destruct (group_step_after aa K F w2 (fresh_ok _ H2 G2)) as [[A1 A2 _ _] _]. split; [done|].
  rewrite A2. apply H2.
Qed.
End init.

(** The keys and frames of the events account for every event. *)
Lemma events_allowed es : Forall (allowed (known_pmk es) (received es)) es.
Proof.
  apply List.Forall_forall. intros e He. destruct e as [|cf| |cache|addr|i ps m b1 b2 b3|i ie|i|i|i|i ev|i|i|i d|i ack| |i|us|]; try done.
  - intros i a e Hin. by eapply known_cache.
  - split.
    + intros a k Hk. by eapply known_psk.
    + intros a k n -> Hn. by eapply known_msk.
Qed.

Section runs.
Context `{AC : !AesCipher} `{O : !Oracle}.

(** The authenticator has been set up and the events have been handled. *)
Lemma run_invariant addr cf oom e w0 es :
  rekey_timers e = [] -> wpa_init addr cf oom e = Some w0 ->
  let w := wpa_run es (wpa_init_keys w0) in
  ok addr (known_pmk es) (received es) w /\ stuck w = false.
Proof.
  intros He Hi. destruct (init_fresh addr cf oom e w0 He Hi) as [Hf Hg].
  destruct (fresh_init_keys addr (known_pmk es) (received es) w0 Hf Hg) as [H1 H2]. cbv zeta.
  set (w1 := wpa_init_keys w0) in *. clearbody w1.
  destruct (run_ok _ _ _ es w1 H1 (events_allowed es)) as [H3 H4]. split; [done|]. congruence.
Qed.

(** C1: a pairwise key that the authenticator hands to the driver for a
    station (wpa_auth_set_key with an algorithm other than NONE) is the
    temporal key of a pairwise transient key that has been derived from a
    master key of that station (its PSKs, its MSK or a PMKSA cache entry for
    its address) and that verifies the MIC of an EAPOL-Key frame received
    from the station, whatever frames, calls and timeouts there have been in
    whatever order. *)
Theorem installed_key_authentic addr cf oom e w0 es alg i kidx key res :
  timeout e = [] -> wpa_init addr cf oom e = Some w0 ->
  let w := wpa_run es (wpa_init_keys w0) in
  List.In (w_set_key alg (Some i) kidx key res) (outs w) -> alg <> WPA_ALG_NONE ->
  exists pmk d anonce snonce akm cipher n,
    let p := wpa_pmk_to_ptk pmk "Pairwise key expansion" addr (station_addr w i) anonce snonce akm cipher in
    known_pmk es i (station_addr w i) pmk /\ received es i d /\
    wpa_verify_key_mic akm p d = true /\ key = slice (tk p) 0 n.
Proof.
  intros He Hi w Hin Ha. destruct (run_invariant addr cf oom e w0 es) as [Hok _]; [by unfold rekey_timers; rewrite He|done|].
  fold w in Hok. assert (Hp : List.In (w_set_key alg (Some i) kidx key res) (pairwise_keys w)).
  { apply filter_In. split; [done|]. cbn [is_pairwise_key]. by rewrite bool_decide_eq_false_2. }
  destruct (sf_keys _ _ _ _ (ok_safe _ _ _ _ Hok) _ Hp) as (s & p & n & Hs & Hg & ->).
  assert (E : sm_addr s = station_addr w i).
  { unfold views in Hs. rewrite list_lookup_fmap in Hs. unfold station_addr. rewrite nth_lookup.
    destruct (stored w !! i) as [s0|]; [|done]. cbn in Hs. injection Hs as <-. done. }
  rewrite E in Hg. destruct Hg as (pmk & d & an & sn & akm & cipher & HK & HF & -> & HV).
  by exists pmk, d, an, sn, akm, cipher, n.
Qed.

(** C6: every event is handled to its end: the loops of the state machines
    (wpa_sm_step, wpa_rekey_gtk, and a station's loop inside another one)
    never exhaust the iterations they are given, whatever the configuration,
    the frames, the calls, the timeouts and the environment's answers. *)
Theorem machines_always_return addr cf oom e w0 es :
  timeout e = [] -> wpa_init addr cf oom e = Some w0 ->
  stuck (wpa_run es (wpa_init_keys w0)) = false.
Proof.
  intros He Hi. by apply (run_invariant addr cf oom e w0 es); [unfold rekey_timers; rewrite He|].
Qed.
End runs.

(** ** A handshake *)

#[local] Instance demo_oracle : Oracle := {|
  o_random n := (true, replicate 32 (Z.of_nat n + 1));
  o_time _ := replicate 8 0;
  o_oom _ := false;
  o_pool_ready _ := true;
  o_set_key _ := 0;
  o_seqnum _ := None;
  o_group_ptr := replicate 8 0
|}.
#[local] Existing Instance demo_cipher.

Definition demo_aa : list Z := [2; 0; 0; 0; 0; 1].
Definition demo_spa : list Z := [2; 0; 0; 0; 0; 2].
Definition demo_conf : wpa_auth_config :=
  mk_conf WPA_PROTO_RSN WPA_KEY_MGMT_PSK 0 WPA_CIPHER_CCMP 600 false 0 0 WPA_CIPHER_CCMP
    false 2 false false true NO_MGMT_FRAME_PROTECTION WPA_CIPHER_AES_128_CMAC false.
Definition demo_psk : list Z := replicate 32 7.
Definition demo_ie : list Z := default [] (wpa_write_rsn_ie demo_conf 128 None).
Definition demo_eloop : eloop_data wpa_handler := mk_eloop (mk_reltime 100 0) [].
Definition demo_none : world :=
  mk_world demo_conf demo_aa [] blank_group blank_sm 0 [] demo_eloop 0 [] 0 0 (mk_reltime 0 0) 0 false 0 [] 0 0 0 []
    false false.
Definition demo_start : world := default demo_none (wpa_init demo_aa demo_conf false demo_eloop).

(** The station's side: its nonce, the authenticator's (the sixth random
    number) and the key of the two. *)
Definition demo_snonce : list Z := replicate 32 9.
Definition demo_boot : list wpa_ev :=
  [EvStaInit demo_spa; EvEnv 0 [demo_psk] None true false false; EvValidate 0 demo_ie; EvAssociated 0].
Definition demo_anonce : list Z := ANonce (me (wpa_run demo_boot (wpa_init_keys demo_start))).
Definition demo_ptk : wpa_ptk :=
  wpa_pmk_to_ptk demo_psk "Pairwise key expansion" demo_aa demo_spa demo_anonce demo_snonce WPA_KEY_MGMT_PSK
    WPA_CIPHER_CCMP.
Definition demo_message (info : Z) (counter nonce kd : list Z) : list Z :=
  let f mic := key_frame 2 3 (95 + zlen kd) 2 info 0 counter nonce (replicate 16 0) (replicate 8 0) mic (zlen kd) kd in
  f (default [] (wpa_eapol_key_mic (ptk_kck demo_ptk) WPA_KEY_MGMT_PSK 2 (f (replicate 16 0)))).
Definition demo_m2 : list Z := demo_message (2 + 8 + 256) [0; 0; 0; 0; 0; 0; 0; 1] demo_snonce demo_ie.
Definition demo_m4 : list Z := demo_message (2 + 8 + 256 + 512) [0; 0; 0; 0; 0; 0; 0; 2] (replicate 32 0) [].
Definition demo_events : list wpa_ev := demo_boot ++ [EvReceive 0 demo_m2; EvReceive 0 demo_m4].
Definition demo_key : list Z := Eval vm_compute in tk demo_ptk.
Abbreviation demo_end := (wpa_run demo_events (wpa_init_keys demo_start)).

Lemma demo_starts : wpa_init demo_aa demo_conf false demo_eloop = Some demo_start.
Proof. vm_compute. reflexivity. Qed.
Lemma demo_installs : List.In (w_set_key WPA_ALG_CCMP (Some 0%nat) 0 (take 16 demo_key) 0) (outs demo_end).
Proof. apply (nth_error_In (outs demo_end) 4). vm_compute. reflexivity. Qed.
Lemma demo_done : wpa_ptk_state (me demo_end) = WPA_PTK_PTKINITDONE.
Proof. vm_compute. reflexivity. Qed.

Lemma installed_key_authentic_witness :
  List.In (w_set_key WPA_ALG_CCMP (Some 0%nat) 0 (take 16 demo_key) 0) (outs demo_end) /\
  exists pmk d anonce snonce akm cipher n,
    let p := wpa_pmk_to_ptk pmk "Pairwise key expansion" demo_aa (station_addr demo_end 0) anonce snonce akm cipher in
    known_pmk demo_events 0 (station_addr demo_end 0) pmk /\ received demo_events 0 d /\
    wpa_verify_key_mic akm p d = true /\ take 16 demo_key = slice (tk p) 0 n.
Proof.
  split; [exact demo_installs|].
  assert (N : WPA_ALG_CCMP <> WPA_ALG_NONE) by discriminate.
  exact (installed_key_authentic demo_aa demo_conf false demo_eloop demo_start demo_events WPA_ALG_CCMP 0 0
           (take 16 demo_key) 0 eq_refl demo_starts demo_installs N).
Defined.

Lemma machines_always_return_witness :
  wpa_ptk_state (me demo_end) = WPA_PTK_PTKINITDONE /\ stuck demo_end = false.
Proof.
  split; [exact demo_done|].
  exact (machines_always_return demo_aa demo_conf false demo_eloop demo_start demo_events eq_refl demo_starts).
Defined.
