(* ===== verification/EapolAuth.v ===== *)
(** * The IEEE 802.1X authenticator (src/src/eapol_auth/eapol_auth_sm.c)

    [struct eapol_state_machine] is the record [eapol_sm]: six state machines
    that share their variables.  Each [SM_STATE(X, Y)] is the command
    [X_Y_Enter] and each [SM_STEP(X)] is [X_Step]; [eapol_sm_step_run] runs
    them, and then the EAP server, until nothing changes any more.

    The EAP server is the interface [EapEngine]; [eap_if] points into it, so a
    write through the pointer is a change of the engine ([eap_update]).  The
    callbacks of the lower layer are recorded in [out], newest first.  Timers
    go to the event loop of Eloop.v. *)

From Stdlib Require Import String.
From S2P Require Import Prelude.
From S2P Require Import Eloop.
From S2P Require Import Wpabuf.
From S2P Require Import Common.
From S2P Require Import EapCommon.
From S2P Require Import EapServer.

(** ** eapol_auth_sm_i.h *)

Inductive PortTypes := ForceUnauthorized | ForceAuthorized | Auto.
Inductive PortState := Unauthorized | Authorized.
Inductive ControlledDirection := Both | In.

Inductive auth_pae :=
  | AUTH_PAE_INITIALIZE | AUTH_PAE_DISCONNECTED | AUTH_PAE_CONNECTING
  | AUTH_PAE_AUTHENTICATING | AUTH_PAE_AUTHENTICATED | AUTH_PAE_ABORTING
  | AUTH_PAE_HELD | AUTH_PAE_FORCE_AUTH | AUTH_PAE_FORCE_UNAUTH | AUTH_PAE_RESTART.
Inductive be_auth :=
  | BE_AUTH_REQUEST | BE_AUTH_RESPONSE | BE_AUTH_SUCCESS | BE_AUTH_FAIL
  | BE_AUTH_TIMEOUT | BE_AUTH_IDLE | BE_AUTH_INITIALIZE | BE_AUTH_IGNORE.
Inductive reauth_timer := REAUTH_TIMER_INITIALIZE | REAUTH_TIMER_REAUTHENTICATE.
Inductive auth_key_tx := AUTH_KEY_TX_NO_KEY_TRANSMIT | AUTH_KEY_TX_KEY_TRANSMIT.
Inductive key_rx := KEY_RX_NO_KEY_RECEIVE | KEY_RX_KEY_RECEIVE.
Inductive ctrl_dir := CTRL_DIR_FORCE_BOTH | CTRL_DIR_IN_OR_BOTH.

#[global] Instance PortTypes_eq_dec : EqDecision PortTypes.
Proof. solve_decision. Defined.
#[global] Instance PortState_eq_dec : EqDecision PortState.
Proof. solve_decision. Defined.
#[global] Instance ControlledDirection_eq_dec : EqDecision ControlledDirection.
Proof. solve_decision. Defined.
#[global] Instance auth_pae_eq_dec : EqDecision auth_pae.
Proof. solve_decision. Defined.
#[global] Instance be_auth_eq_dec : EqDecision be_auth.
Proof. solve_decision. Defined.
#[global] Instance reauth_timer_eq_dec : EqDecision reauth_timer.
Proof. solve_decision. Defined.
#[global] Instance auth_key_tx_eq_dec : EqDecision auth_key_tx.
Proof. solve_decision. Defined.
#[global] Instance key_rx_eq_dec : EqDecision key_rx.
Proof. solve_decision. Defined.
#[global] Instance ctrl_dir_eq_dec : EqDecision ctrl_dir.
Proof. solve_decision. Defined.

Definition AUTH_PAE_DEFAULT_quietPeriod : Z := 60.
Definition AUTH_PAE_DEFAULT_reAuthMax : Z := 2.
Definition BE_AUTH_DEFAULT_serverTimeout : Z := 30.

(** Bits of [flags] (eapol_auth_sm.h). *)
Definition EAPOL_SM_PREAUTH : Z := 0.
Definition EAPOL_SM_WAIT_START : Z := 1.
Definition EAPOL_SM_USES_WPA : Z := 2.
Definition EAPOL_SM_FROM_PMKSA_CACHE : Z := 3.

Definition IEEE802_1X_TYPE_EAP_PACKET : Z := 0.

(** The counters, grouped as in the source; each is an [unsigned int]. *)
Record pae_counters := mk_pae_counters {
  authEntersConnecting : Z;
  authEapLogoffsWhileConnecting : Z;
  authEntersAuthenticating : Z;
  authAuthSuccessesWhileAuthenticating : Z;
  authAuthTimeoutsWhileAuthenticating : Z;
  authAuthFailWhileAuthenticating : Z;
  authAuthEapStartsWhileAuthenticating : Z;
  authAuthEapLogoffWhileAuthenticating : Z;
  authAuthReauthsWhileAuthenticated : Z;
  authAuthEapStartsWhileAuthenticated : Z;
  authAuthEapLogoffWhileAuthenticated : Z
}.
#[global] Instance eta_pae_counters : Eta pae_counters := fun r =>
  mk_pae_counters (authEntersConnecting r) (authEapLogoffsWhileConnecting r)
    (authEntersAuthenticating r) (authAuthSuccessesWhileAuthenticating r)
    (authAuthTimeoutsWhileAuthenticating r) (authAuthFailWhileAuthenticating r)
    (authAuthEapStartsWhileAuthenticating r) (authAuthEapLogoffWhileAuthenticating r)
    (authAuthReauthsWhileAuthenticated r) (authAuthEapStartsWhileAuthenticated r)
    (authAuthEapLogoffWhileAuthenticated r).

Record be_counters := mk_be_counters {
  backendResponses : Z;
  backendAccessChallenges : Z;
  backendOtherRequestsToSupplicant : Z;
  backendAuthSuccesses : Z;
  backendAuthFails : Z
}.
#[global] Instance eta_be_counters : Eta be_counters := fun r =>
  mk_be_counters (backendResponses r) (backendAccessChallenges r)
    (backendOtherRequestsToSupplicant r) (backendAuthSuccesses r) (backendAuthFails r).

(** The transmit part of the authenticator statistics table. *)
Record tx_counters := mk_tx_counters {
  dot1xAuthEapolFramesTx : Z;
  dot1xAuthEapolReqIdFramesTx : Z;
  dot1xAuthEapolReqFramesTx : Z
}.
#[global] Instance eta_tx_counters : Eta tx_counters := fun r =>
  mk_tx_counters (dot1xAuthEapolFramesTx r) (dot1xAuthEapolReqIdFramesTx r)
    (dot1xAuthEapolReqFramesTx r).

(** The receive part. *)
Record rx_counters := mk_rx_counters {
  dot1xAuthEapolFramesRx : Z;
  dot1xAuthEapolStartFramesRx : Z;
  dot1xAuthEapolLogoffFramesRx : Z;
  dot1xAuthEapolRespIdFramesRx : Z;
  dot1xAuthEapolRespFramesRx : Z;
  dot1xAuthInvalidEapolFramesRx : Z;
  dot1xAuthEapLengthErrorFramesRx : Z;
  dot1xAuthLastEapolFrameVersion : Z
}.
#[global] Instance eta_rx_counters : Eta rx_counters := fun r =>
  mk_rx_counters (dot1xAuthEapolFramesRx r) (dot1xAuthEapolStartFramesRx r)
    (dot1xAuthEapolLogoffFramesRx r) (dot1xAuthEapolRespIdFramesRx r)
    (dot1xAuthEapolRespFramesRx r) (dot1xAuthInvalidEapolFramesRx r)
    (dot1xAuthEapLengthErrorFramesRx r) (dot1xAuthLastEapolFrameVersion r).

(** [struct eapol_auth_config]; what only the EAP server reads is in
    [conf_eap]. *)
Record eapol_auth_config := mk_eapol_conf {
  eap_reauth_period : Z;
  wpa : bool;
  individual_wep_key_len : Z;
  use_eap_server : bool;
  eap_req_id_text : option (list Z);
  eap_req_id_text_len : Z;
  erp_send_reauth_start : bool;
  erp_domain : option (list Z);
  use_erp : bool;
  conf_eap : eap_params
}.

(** [struct eapol_authenticator] without the callbacks. *)
Record eapol_authenticator := mk_eapol {
  conf : eapol_auth_config;
  default_wep_key : option (list Z);
  default_wep_key_idx : Z
}.

Inductive eapol_event := EAPOL_AUTH_SM_CHANGE | EAPOL_AUTH_REAUTHENTICATE.

(** The calls of [struct eapol_auth_cb] that tell the lower layer something,
    and the disconnection that some of them cause. *)
Inductive eapol_out :=
  | eapol_send (type : Z) (d : list Z)
  | aaa_send (d : list Z)
  | finished (success preauth remediation : bool)
  | set_port_authorized (authorized : bool)
  | abort_auth
  | tx_key
  | eapol_event_cb (type : eapol_event)
  | sta_deauth (reason : Z).

(** The handlers the authenticator registers with the event loop. *)
Inductive eapol_handler := eapol_port_timers_tick_h | eapol_sm_step_cb_h.

#[global] Instance eapol_handler_eq_dec : EqDecision eapol_handler.
Proof. solve_decision. Defined.

(** The EAP server, as the authenticator uses it; [engine_remediation e] tells
    whether the step from [e] looks up a user that needs remediation. *)
Class EapEngine (E : Type) := {
  engine_if : E -> eap_eapol_interface;
  engine_update : (eap_eapol_interface -> eap_eapol_interface) -> E -> E;
  engine_step : E -> E * bool;
  engine_pending_cb : E -> E;
  engine_clear_identity : E -> E;
  engine_notify_cached : E -> E;
  engine_init : eap_config -> option E;
  engine_remediation : E -> bool
}.

(** [struct eapol_state_machine]; [self] is its address, [alive] the answer of
    [sta_entry_alive], [loop] the event loop, [oom] whether allocations fail:
    they are the environment of the code. *)
Record eapol_sm {E : Type} := mk_eapol_sm {
  aWhile : Z; quietWhile : Z; reAuthWhen : Z;
  authAbort : bool; authFail : bool; authPortStatus : option PortState; authStart : bool;
  authTimeout : bool; authSuccess : bool; eapolEap : bool; initialize : bool;
  keyDone : bool; keyRun : bool; keyTxEnabled : bool; portControl : PortTypes;
  portValid : bool; reAuthenticate : bool;
  auth_pae_state : auth_pae;
  eapolLogoff : bool; eapolStart : bool; portMode : option PortTypes; reAuthCount : Z;
  quietPeriod : Z; reAuthMax : Z; pae_count : pae_counters;
  be_auth_state : be_auth; serverTimeout : Z; be_count : be_counters;
  reauth_timer_state : reauth_timer; reAuthPeriod : Z; reAuthEnabled : bool;
  auth_key_tx_state : auth_key_tx;
  key_rx_state : key_rx; rxKey : bool;
  ctrl_dir_state : ctrl_dir; adminControlledDirections : ControlledDirection;
  operControlledDirections : ControlledDirection; operEdge : bool;
  tx_count : tx_counters; rx_count : rx_counters;
  addr : list Z; flags : Z; radius_identifier : Z; last_eap_id : Z;
  identity : option (list Z); eap_type_authsrv : Z; eap_type_supp : Z;
  radius_cui : option wpabuf;
  eap : E;
  initializing : bool; changed : bool; eapol : eapol_authenticator;
  remediation : bool; acct_multi_session_id : Z;
  self : Z; alive : bool; loop : eloop_data eapol_handler; oom : bool; out : list eapol_out
}.
Arguments eapol_sm E : clear implicits.

#[global] Instance eta_eapol_sm {E} : Eta (eapol_sm E) := fun s =>
  mk_eapol_sm E (aWhile s) (quietWhile s) (reAuthWhen s)
    (authAbort s) (authFail s) (authPortStatus s) (authStart s)
    (authTimeout s) (authSuccess s) (eapolEap s) (initialize s)
    (keyDone s) (keyRun s) (keyTxEnabled s) (portControl s)
    (portValid s) (reAuthenticate s) (auth_pae_state s)
    (eapolLogoff s) (eapolStart s) (portMode s) (reAuthCount s)
    (quietPeriod s) (reAuthMax s) (pae_count s)
    (be_auth_state s) (serverTimeout s) (be_count s)
    (reauth_timer_state s) (reAuthPeriod s) (reAuthEnabled s) (auth_key_tx_state s)
    (key_rx_state s) (rxKey s) (ctrl_dir_state s) (adminControlledDirections s)
    (operControlledDirections s) (operEdge s) (tx_count s) (rx_count s)
    (addr s) (flags s) (radius_identifier s) (last_eap_id s)
    (identity s) (eap_type_authsrv s) (eap_type_supp s) (radius_cui s) (eap s)
    (initializing s) (changed s) (eapol s)
    (remediation s) (acct_multi_session_id s)
    (self s) (alive s) (loop s) (oom s) (out s).

Section eapol.
Context {E : Type} `{EE : !EapEngine E}.
Abbreviation S := (eapol_sm E).

(** [sm->eap_if], the interface structure inside [sm->eap]. *)
Definition eap_if (s : S) : eap_eapol_interface := engine_if (eap s).
#[local] Instance set_eap_if : Setter eap_if := fun g s => setter eap (engine_update g) s.

Definition emit (o : S -> eapol_out) : cmd S := out <~ (fun s => o s :: out s).
Definition flag (b : Z) (s : S) : bool := Z.testbit (flags s) b.

(** A counter is incremented modulo 2^32. *)
Definition incr (n : Z) : Z := u32 (n + 1).

Definition setPortAuthorized : cmd S := emit (fun _ => set_port_authorized true).
Definition setPortUnauthorized : cmd S := emit (fun _ => set_port_authorized false).

(** [eapol_auth_step]: run the machines from the event loop. *)
Definition eapol_auth_step : cmd S :=
  (loop <~ (fun s => eloop_register_timeout 0 0 eapol_sm_step_cb_h (self s) 0 (loop s)))%cmd.

(** *** What hostapd's callbacks do to the machine

    [ap_sta_disconnect] (ap/sta_info.c) closes the port of the machine that
    calls it; the callbacks that call it do nothing for a station that is
    gone. *)
Definition WLAN_REASON_PREV_AUTH_NOT_VALID : Z := 2.
Definition WLAN_REASON_IEEE_802_1X_AUTH_FAILED : Z := 23.

(** ap/ieee802_1x.c *)
Definition ieee802_1x_notify_port_enabled (enabled : bool) : cmd S :=
  (eap_if ∷ portEnabled ::= enabled ;; eapol_auth_step)%cmd.

Definition ap_sta_disconnect (reason : Z) : cmd S :=
  (emit (fun _ => sta_deauth reason) ;; ieee802_1x_notify_port_enabled false)%cmd.

Definition ieee802_1x_abort_auth : cmd S :=
  (WHEN (fun s => alive s && eapTimeout (eap_if s)) DO
     (eap_if ∷ portEnabled ::= false ;;
      ap_sta_disconnect WLAN_REASON_PREV_AUTH_NOT_VALID))%cmd.

Definition abortAuth : cmd S := (emit (fun _ => abort_auth) ;; ieee802_1x_abort_auth)%cmd.

(** [cb.finished]: a failure disconnects the station, unless it
    pre-authenticates. *)
Definition cb_finished (success : bool) : cmd S :=
  (emit (fun s => finished success (flag EAPOL_SM_PREAUTH s) (remediation s)) ;;
   WHEN (fun s => alive s && negb (flag EAPOL_SM_PREAUTH s) && negb success)
     DO ap_sta_disconnect WLAN_REASON_IEEE_802_1X_AUTH_FAILED)%cmd.

Definition eapol_auth_tx_canned_eap (success : bool) : cmd S :=
  (update last_eap_id (fun n => u8 (n + 1)) ;;
   emit (fun s => eapol_send IEEE802_1X_TYPE_EAP_PACKET
     (eap_hdr_bytes (if success then EAP_CODE_SUCCESS else EAP_CODE_FAILURE)
        (last_eap_id s) sizeof_eap_hdr)) ;;
   tx_count ∷ dot1xAuthEapolFramesTx <~ (fun s => incr (dot1xAuthEapolFramesTx (tx_count s))))%cmd.

Definition eapol_auth_tx_req : cmd S :=
  fun s =>
    match eapReqData (eap_if s) with
    | Some req =>
        if wpabuf_len req <? sizeof_eap_hdr then s
        else if flag EAPOL_SM_WAIT_START s then s
        else
          (last_eap_id ::= eap_get_id req ;;
           emit (fun _ => eapol_send IEEE802_1X_TYPE_EAP_PACKET (wpabuf_head req)) ;;
           tx_count ∷ dot1xAuthEapolFramesTx <~
             (fun s => incr (dot1xAuthEapolFramesTx (tx_count s))) ;;
           (if eap_get_type req =? EAP_TYPE_IDENTITY then
              tx_count ∷ dot1xAuthEapolReqIdFramesTx <~
                (fun s => incr (dot1xAuthEapolReqIdFramesTx (tx_count s)))
            else
              tx_count ∷ dot1xAuthEapolReqFramesTx <~
                (fun s => incr (dot1xAuthEapolReqFramesTx (tx_count s)))))%cmd s
    | None => s
    end.

(** ** Authenticator PAE state machine *)

Definition PAE_ENTRY (t : auth_pae) (g : bool) : cmd S := SM_ENTRY auth_pae_state changed t g.
Definition in_pae (t : auth_pae) (s : S) : bool := bool_decide (auth_pae_state s = t).

Definition AUTH_PAE_INITIALIZE_Enter (g : bool) : cmd S :=
  (PAE_ENTRY AUTH_PAE_INITIALIZE g ;;
   portMode ::= Some Auto ;;
   keyRun ::= false)%cmd.

Definition AUTH_PAE_DISCONNECTED_Enter : cmd S :=
  fun s =>
    let from_initialize := in_pae AUTH_PAE_INITIALIZE s in
    (WHEN eapolLogoff DO
       (IF in_pae AUTH_PAE_CONNECTING THEN
          (pae_count ∷ authEapLogoffsWhileConnecting <~
             (fun s => incr (authEapLogoffsWhileConnecting (pae_count s))))
        ELSE
          (WHEN in_pae AUTH_PAE_AUTHENTICATED DO
             (pae_count ∷ authAuthEapLogoffWhileAuthenticated <~
                (fun s => incr (authAuthEapLogoffWhileAuthenticated (pae_count s)))))) ;;
     PAE_ENTRY AUTH_PAE_DISCONNECTED false ;;
     authPortStatus ::= Some Unauthorized ;;
     setPortUnauthorized ;;
     reAuthCount ::= 0 ;;
     eapolLogoff ::= false ;;
     WHEN (fun _ => negb from_initialize) DO cb_finished false)%cmd s.

Definition AUTH_PAE_RESTART_Enter : cmd S :=
  (WHEN in_pae AUTH_PAE_AUTHENTICATED DO
     (WHEN reAuthenticate DO
        (pae_count ∷ authAuthReauthsWhileAuthenticated <~
           (fun s => incr (authAuthReauthsWhileAuthenticated (pae_count s)))) ;;
      WHEN eapolStart DO
        (pae_count ∷ authAuthEapStartsWhileAuthenticated <~
           (fun s => incr (authAuthEapStartsWhileAuthenticated (pae_count s)))) ;;
      WHEN eapolLogoff DO
        (pae_count ∷ authAuthEapLogoffWhileAuthenticated <~
           (fun s => incr (authAuthEapLogoffWhileAuthenticated (pae_count s))))) ;;
   PAE_ENTRY AUTH_PAE_RESTART false ;;
   eap_if ∷ eapRestart ::= true)%cmd.

Definition AUTH_PAE_CONNECTING_Enter : cmd S :=
  (WHEN (fun s => negb (in_pae AUTH_PAE_CONNECTING s)) DO
     (pae_count ∷ authEntersConnecting <~ (fun s => incr (authEntersConnecting (pae_count s)))) ;;
   PAE_ENTRY AUTH_PAE_CONNECTING false ;;
   reAuthenticate ::= false ;;
   update reAuthCount incr)%cmd.

Definition AUTH_PAE_HELD_Enter : cmd S :=
  (WHEN (fun s => in_pae AUTH_PAE_AUTHENTICATING s && authFail s) DO
     (pae_count ∷ authAuthFailWhileAuthenticating <~
        (fun s => incr (authAuthFailWhileAuthenticating (pae_count s)))) ;;
   PAE_ENTRY AUTH_PAE_HELD false ;;
   authPortStatus ::= Some Unauthorized ;;
   setPortUnauthorized ;;
   quietWhile <~ (fun s => i32 (quietPeriod s)) ;;
   eapolLogoff ::= false ;;
   cb_finished false)%cmd.

Definition AUTH_PAE_AUTHENTICATED_Enter : cmd S :=
  (WHEN (fun s => in_pae AUTH_PAE_AUTHENTICATING s && authSuccess s) DO
     (pae_count ∷ authAuthSuccessesWhileAuthenticating <~
        (fun s => incr (authAuthSuccessesWhileAuthenticating (pae_count s)))) ;;
   PAE_ENTRY AUTH_PAE_AUTHENTICATED false ;;
   authPortStatus ::= Some Authorized ;;
   setPortAuthorized ;;
   reAuthCount ::= 0 ;;
   cb_finished true)%cmd.

Definition AUTH_PAE_AUTHENTICATING_Enter : cmd S :=
  (PAE_ENTRY AUTH_PAE_AUTHENTICATING false ;;
   eapolStart ::= false ;;
   authSuccess ::= false ;;
   authFail ::= false ;;
   authTimeout ::= false ;;
   authStart ::= true ;;
   keyRun ::= false ;;
   keyDone ::= false)%cmd.

Definition AUTH_PAE_ABORTING_Enter : cmd S :=
  (WHEN in_pae AUTH_PAE_AUTHENTICATING DO
     (WHEN authTimeout DO
        (pae_count ∷ authAuthTimeoutsWhileAuthenticating <~
           (fun s => incr (authAuthTimeoutsWhileAuthenticating (pae_count s)))) ;;
      WHEN eapolStart DO
        (pae_count ∷ authAuthEapStartsWhileAuthenticating <~
           (fun s => incr (authAuthEapStartsWhileAuthenticating (pae_count s)))) ;;
      WHEN eapolLogoff DO
        (pae_count ∷ authAuthEapLogoffWhileAuthenticating <~
           (fun s => incr (authAuthEapLogoffWhileAuthenticating (pae_count s))))) ;;
   PAE_ENTRY AUTH_PAE_ABORTING false ;;
   authAbort ::= true ;;
   keyRun ::= false ;;
   keyDone ::= false)%cmd.

Definition AUTH_PAE_FORCE_AUTH_Enter (g : bool) : cmd S :=
  (PAE_ENTRY AUTH_PAE_FORCE_AUTH g ;;
   authPortStatus ::= Some Authorized ;;
   setPortAuthorized ;;
   portMode ::= Some ForceAuthorized ;;
   eapolStart ::= false ;;
   eapol_auth_tx_canned_eap true)%cmd.

Definition AUTH_PAE_FORCE_UNAUTH_Enter (g : bool) : cmd S :=
  (PAE_ENTRY AUTH_PAE_FORCE_UNAUTH g ;;
   authPortStatus ::= Some Unauthorized ;;
   setPortUnauthorized ;;
   portMode ::= Some ForceUnauthorized ;;
   eapolStart ::= false ;;
   eapol_auth_tx_canned_eap false)%cmd.

(** [sm->portControl == c && sm->portMode != sm->portControl] *)
Definition mode_differs (c : PortTypes) (s : S) : bool :=
  bool_decide (portControl s = c) && negb (bool_decide (portMode s = Some (portControl s))).

Definition down (s : S) : bool := initialize s || negb (portEnabled (eap_if s)).

Definition AUTH_PAE_switch : cmd S :=
  fun s =>
    match auth_pae_state s with
    | AUTH_PAE_INITIALIZE => AUTH_PAE_DISCONNECTED_Enter s
    | AUTH_PAE_DISCONNECTED => AUTH_PAE_RESTART_Enter s
    | AUTH_PAE_RESTART =>
        if negb (eapRestart (eap_if s)) then AUTH_PAE_CONNECTING_Enter s else s
    | AUTH_PAE_HELD => if quietWhile s =? 0 then AUTH_PAE_RESTART_Enter s else s
    | AUTH_PAE_CONNECTING =>
        if eapolLogoff s || (reAuthMax s <? reAuthCount s) then AUTH_PAE_DISCONNECTED_Enter s
        else if (eapReq (eap_if s) && (reAuthCount s <=? reAuthMax s)) ||
                eapSuccess (eap_if s) || eapFail (eap_if s)
        then AUTH_PAE_AUTHENTICATING_Enter s
        else s
    | AUTH_PAE_AUTHENTICATED =>
        if eapolStart s || reAuthenticate s then AUTH_PAE_RESTART_Enter s
        else if eapolLogoff s || negb (portValid s) then AUTH_PAE_DISCONNECTED_Enter s
        else s
    | AUTH_PAE_AUTHENTICATING =>
        if authSuccess s && portValid s then AUTH_PAE_AUTHENTICATED_Enter s
        else if authFail s || (keyDone s && negb (portValid s)) then AUTH_PAE_HELD_Enter s
        else if eapolStart s || eapolLogoff s || authTimeout s then AUTH_PAE_ABORTING_Enter s
        else s
    | AUTH_PAE_ABORTING =>
        if eapolLogoff s && negb (authAbort s) then AUTH_PAE_DISCONNECTED_Enter s
        else if negb (eapolLogoff s) && negb (authAbort s) then AUTH_PAE_RESTART_Enter s
        else s
    | AUTH_PAE_FORCE_AUTH => if eapolStart s then AUTH_PAE_FORCE_AUTH_Enter false s else s
    | AUTH_PAE_FORCE_UNAUTH => if eapolStart s then AUTH_PAE_FORCE_UNAUTH_Enter false s else s
    end.

Definition AUTH_PAE_Step : cmd S :=
  fun s =>
    if mode_differs Auto s || down s then AUTH_PAE_INITIALIZE_Enter true s
    else if mode_differs ForceAuthorized s && negb (down s) then AUTH_PAE_FORCE_AUTH_Enter true s
    else if mode_differs ForceUnauthorized s && negb (down s)
    then AUTH_PAE_FORCE_UNAUTH_Enter true s
    else AUTH_PAE_switch s.

(** ** Backend authentication state machine *)

Definition BE_ENTRY (t : be_auth) (g : bool) : cmd S := SM_ENTRY be_auth_state changed t g.

Definition BE_AUTH_INITIALIZE_Enter (g : bool) : cmd S :=
  (BE_ENTRY BE_AUTH_INITIALIZE g ;;
   abortAuth ;;
   eap_if ∷ eapNoReq ::= false ;;
   authAbort ::= false)%cmd.

Definition BE_AUTH_REQUEST_Enter : cmd S :=
  (BE_ENTRY BE_AUTH_REQUEST false ;;
   eapol_auth_tx_req ;;
   eap_if ∷ eapReq ::= false ;;
   be_count ∷ backendOtherRequestsToSupplicant <~
     (fun s => incr (backendOtherRequestsToSupplicant (be_count s))) ;;
   eapolEap ::= false)%cmd.

Definition BE_AUTH_RESPONSE_Enter : cmd S :=
  (BE_ENTRY BE_AUTH_RESPONSE false ;;
   authTimeout ::= false ;;
   eapolEap ::= false ;;
   eap_if ∷ eapNoReq ::= false ;;
   aWhile <~ (fun s => i32 (serverTimeout s)) ;;
   eap_if ∷ eapResp ::= true ;;
   be_count ∷ backendResponses <~ (fun s => incr (backendResponses (be_count s))))%cmd.

Definition BE_AUTH_SUCCESS_Enter : cmd S :=
  (BE_ENTRY BE_AUTH_SUCCESS false ;;
   eapol_auth_tx_req ;;
   authSuccess ::= true ;;
   keyRun ::= true)%cmd.

Definition BE_AUTH_FAIL_Enter : cmd S :=
  (BE_ENTRY BE_AUTH_FAIL false ;; eapol_auth_tx_req ;; authFail ::= true)%cmd.

Definition BE_AUTH_TIMEOUT_Enter : cmd S :=
  (BE_ENTRY BE_AUTH_TIMEOUT false ;; authTimeout ::= true)%cmd.

Definition BE_AUTH_IDLE_Enter : cmd S :=
  (BE_ENTRY BE_AUTH_IDLE false ;; authStart ::= false)%cmd.

Definition BE_AUTH_IGNORE_Enter : cmd S :=
  (BE_ENTRY BE_AUTH_IGNORE false ;; eap_if ∷ eapNoReq ::= false)%cmd.

(** What RESPONSE does after the first [if]. *)
Definition BE_AUTH_response : cmd S :=
  fun s =>
    if eapReq (eap_if s) then
      (be_count ∷ backendAccessChallenges <~
         (fun s => incr (backendAccessChallenges (be_count s))) ;;
       BE_AUTH_REQUEST_Enter)%cmd s
    else if aWhile s =? 0 then BE_AUTH_TIMEOUT_Enter s
    else if eapFail (eap_if s) then
      (be_count ∷ backendAuthFails <~ (fun s => incr (backendAuthFails (be_count s))) ;;
       BE_AUTH_FAIL_Enter)%cmd s
    else if eapSuccess (eap_if s) then
      (be_count ∷ backendAuthSuccesses <~ (fun s => incr (backendAuthSuccesses (be_count s))) ;;
       BE_AUTH_SUCCESS_Enter)%cmd s
    else s.

(** REQUEST and IGNORE have the same transitions. *)
Definition BE_AUTH_request : cmd S :=
  fun s =>
    if eapolEap s then BE_AUTH_RESPONSE_Enter s
    else if eapReq (eap_if s) then BE_AUTH_REQUEST_Enter s
    else if eapTimeout (eap_if s) then BE_AUTH_TIMEOUT_Enter s
    else s.

Definition BE_AUTH_switch : cmd S :=
  fun s =>
    match be_auth_state s with
    | BE_AUTH_INITIALIZE | BE_AUTH_SUCCESS | BE_AUTH_FAIL | BE_AUTH_TIMEOUT => BE_AUTH_IDLE_Enter s
    | BE_AUTH_REQUEST | BE_AUTH_IGNORE => BE_AUTH_request s
    | BE_AUTH_RESPONSE =>
        (WHEN (fun s => eapNoReq (eap_if s)) DO BE_AUTH_IGNORE_Enter ;; BE_AUTH_response)%cmd s
    | BE_AUTH_IDLE =>
        if eapFail (eap_if s) && authStart s then BE_AUTH_FAIL_Enter s
        else if eapReq (eap_if s) && authStart s then BE_AUTH_REQUEST_Enter s
        else if eapSuccess (eap_if s) && authStart s then BE_AUTH_SUCCESS_Enter s
        else s
    end.

Definition not_auto (s : S) : bool := negb (bool_decide (portControl s = Auto)).

Definition BE_AUTH_Step : cmd S :=
  fun s =>
    if not_auto s || initialize s || authAbort s then BE_AUTH_INITIALIZE_Enter true s
    else BE_AUTH_switch s.

(** ** Reauthentication timer state machine *)

Definition REAUTH_TIMER_INITIALIZE_Enter (g : bool) : cmd S :=
  (SM_ENTRY reauth_timer_state changed REAUTH_TIMER_INITIALIZE g ;;
   reAuthWhen <~ (fun s => i32 (reAuthPeriod s)))%cmd.

Definition REAUTH_TIMER_REAUTHENTICATE_Enter : cmd S :=
  (SM_ENTRY reauth_timer_state changed REAUTH_TIMER_REAUTHENTICATE false ;;
   reAuthenticate ::= true ;;
   emit (fun _ => eapol_event_cb EAPOL_AUTH_REAUTHENTICATE))%cmd.

Definition REAUTH_TIMER_Step : cmd S :=
  fun s =>
    if not_auto s || initialize s || bool_decide (authPortStatus s = Some Unauthorized) ||
       negb (reAuthEnabled s)
    then REAUTH_TIMER_INITIALIZE_Enter true s
    else
      match reauth_timer_state s with
      | REAUTH_TIMER_INITIALIZE =>
          if reAuthWhen s =? 0 then REAUTH_TIMER_REAUTHENTICATE_Enter s else s
      | REAUTH_TIMER_REAUTHENTICATE => REAUTH_TIMER_INITIALIZE_Enter false s
      end.

(** ** Authenticator key transmit state machine *)

Definition AUTH_KEY_TX_NO_KEY_TRANSMIT_Enter (g : bool) : cmd S :=
  SM_ENTRY auth_key_tx_state changed AUTH_KEY_TX_NO_KEY_TRANSMIT g.

Definition AUTH_KEY_TX_KEY_TRANSMIT_Enter : cmd S :=
  (SM_ENTRY auth_key_tx_state changed AUTH_KEY_TX_KEY_TRANSMIT false ;;
   emit (fun _ => tx_key) ;;
   eap_if ∷ eapKeyAvailable ::= false ;;
   keyDone ::= true)%cmd.

Definition AUTH_KEY_TX_Step : cmd S :=
  fun s =>
    if initialize s || not_auto s then AUTH_KEY_TX_NO_KEY_TRANSMIT_Enter true s
    else
      match auth_key_tx_state s with
      | AUTH_KEY_TX_NO_KEY_TRANSMIT =>
          if keyTxEnabled s && eapKeyAvailable (eap_if s) && keyRun s &&
             negb (flag EAPOL_SM_USES_WPA s)
          then AUTH_KEY_TX_KEY_TRANSMIT_Enter s else s
      | AUTH_KEY_TX_KEY_TRANSMIT =>
          if negb (keyTxEnabled s) || negb (keyRun s) then AUTH_KEY_TX_NO_KEY_TRANSMIT_Enter false s
          else if eapKeyAvailable (eap_if s) then AUTH_KEY_TX_KEY_TRANSMIT_Enter s
          else s
      end.

(** ** Key receive state machine *)

Definition KEY_RX_NO_KEY_RECEIVE_Enter (g : bool) : cmd S :=
  SM_ENTRY key_rx_state changed KEY_RX_NO_KEY_RECEIVE g.

Definition KEY_RX_KEY_RECEIVE_Enter : cmd S :=
  (SM_ENTRY key_rx_state changed KEY_RX_KEY_RECEIVE false ;; rxKey ::= false)%cmd.

Definition KEY_RX_Step : cmd S :=
  fun s =>
    if down s then KEY_RX_NO_KEY_RECEIVE_Enter true s
    else if rxKey s then KEY_RX_KEY_RECEIVE_Enter s else s.

(** ** Controlled directions state machine *)

Definition CTRL_DIR_FORCE_BOTH_Enter : cmd S :=
  (SM_ENTRY ctrl_dir_state changed CTRL_DIR_FORCE_BOTH false ;;
   operControlledDirections ::= Both)%cmd.

Definition CTRL_DIR_IN_OR_BOTH_Enter (g : bool) : cmd S :=
  (SM_ENTRY ctrl_dir_state changed CTRL_DIR_IN_OR_BOTH g ;;
   operControlledDirections <~ adminControlledDirections)%cmd.

Definition CTRL_DIR_Step : cmd S :=
  fun s =>
    if initialize s then CTRL_DIR_IN_OR_BOTH_Enter true s
    else
      match ctrl_dir_state s with
      | CTRL_DIR_FORCE_BOTH =>
          if portEnabled (eap_if s) && operEdge s then CTRL_DIR_IN_OR_BOTH_Enter false s else s
      | CTRL_DIR_IN_OR_BOTH =>
          (WHEN (fun s => negb (bool_decide (operControlledDirections s =
                                             adminControlledDirections s)))
             DO CTRL_DIR_IN_OR_BOTH_Enter false ;;
           WHEN (fun s => negb (portEnabled (eap_if s)) || negb (operEdge s))
             DO CTRL_DIR_FORCE_BOTH_Enter)%cmd s
      end.

(** ** Running the machines *)

(** [if (sm->initializing || eapol_sm_sta_entry_alive(eapol, addr)) ...] *)
Definition if_alive (c : cmd S) : cmd S :=
  (WHEN (fun s => initializing s || alive s) DO c)%cmd.

Definition six_steps : cmd S :=
  (AUTH_PAE_Step ;;
   if_alive BE_AUTH_Step ;;
   if_alive REAUTH_TIMER_Step ;;
   if_alive AUTH_KEY_TX_Step ;;
   if_alive KEY_RX_Step ;;
   if_alive CTRL_DIR_Step)%cmd.

Definition sm_states (s : S) :=
  (auth_pae_state s, be_auth_state s, reauth_timer_state s, auth_key_tx_state s,
   key_rx_state s, ctrl_dir_state s).

(** [eap_server_sm_step]; the user lookups it makes go through
    [eapol_sm_get_eap_user], which notes a user that needs remediation. *)
Definition run_engine (s : S) : S * bool :=
  let '(e, ch) := engine_step (eap s) in
  let remedy := engine_remediation (eap s) in
  let s := setter eap (fun _ => e) s in
  ((if remedy then setter remediation (fun _ => true) s else s), ch).

(** The end of a run in which the engine did not change: a message for the
    authentication server, and the event for the lower layer.  The C function
    returns early when there is no message to send. *)
Definition step_run_tail : cmd S :=
  fun s =>
    let s1 := (eap_if ∷ aaaEapResp ::= false)%cmd s in
    let sm_change : cmd S :=
      (WHEN alive DO emit (fun _ => eapol_event_cb EAPOL_AUTH_SM_CHANGE))%cmd in
    if alive s && aaaEapResp (eap_if s) then
      match aaaEapRespData (eap_if s) with
      | None => s1
      | Some d => (emit (fun _ => aaa_send (wpabuf_head d)) ;; sm_change)%cmd s1
      end
    else sm_change s.

(** The loop of [eapol_sm_step_run], with [max_steps] rounds left. *)
Fixpoint step_run_loop (max_steps : nat) (s : S) : S :=
  match max_steps with
  | O => s
  | Datatypes.S n =>
      let again (s : S) := match n with O => eapol_auth_step s | _ => step_run_loop n s end in
      let s' := six_steps s in
      if negb (bool_decide (sm_states s' = sm_states s)) then again s'
      else if alive s' then
        let '(s2, ch) := run_engine s' in
        if ch then again s2 else step_run_tail s2
      else step_run_tail s'
  end.

Definition eapol_sm_step_run : cmd S := step_run_loop 100.

Definition eapol_sm_step_cb : cmd S := eapol_sm_step_run.

Definition tick_down (n : Z) : Z := if 0 <? n then n - 1 else n.

Definition register_tick : cmd S :=
  (loop <~ (fun s => eloop_register_timeout 1 0 eapol_port_timers_tick_h 0 (self s) (loop s)))%cmd.
Definition cancel_tick : cmd S :=
  (loop <~ (fun s => snd (eloop_cancel_timeout eapol_port_timers_tick_h 0 (self s) (loop s))))%cmd.

Definition eapol_port_timers_tick : cmd S :=
  (update aWhile tick_down ;;
   update quietWhile tick_down ;;
   update reAuthWhen tick_down ;;
   eap_if ∷ retransWhile <~ (fun s => tick_down (retransWhile (eap_if s))) ;;
   eapol_sm_step_run ;;
   register_tick)%cmd.

Definition eapol_auth_initialize : cmd S :=
  (initializing ::= true ;;
   initialize ::= true ;;
   eapol_sm_step_run ;;
   initialize ::= false ;;
   eapol_sm_step_run ;;
   initializing ::= false ;;
   cancel_tick ;;
   register_tick)%cmd.

(** ** Inputs *)

Definition eapol_auth_eap_pending_cb (same_ctx : bool) (s : S) : Z * S :=
  if negb same_ctx then (-1, s)
  else (0, (update eap engine_pending_cb ;; eapol_auth_step)%cmd s).

Definition eapol_auth_reauthenticate : cmd S := (reAuthenticate ::= true ;; eapol_auth_step)%cmd.

Definition ieee802_1x_notify_port_valid (valid : bool) : cmd S :=
  (portValid ::= valid ;; eapol_auth_step)%cmd.
Definition ieee802_1x_notify_pre_auth (pre_auth : bool) : cmd S :=
  if pre_auth then update flags (fun f => Z.lor f 1) else update flags (fun f => Z.land f (-2)).

(** A PMKSA cache entry, as far as the machine takes data from it
    ([pmksa_cache_to_eapol_data], ap/pmksa_cache_auth.c). *)
Record pmksa_entry := mk_pmksa_entry {
  entry_identity : option (list Z);
  entry_cui : option wpabuf;
  entry_eap_type_authsrv : Z;
  entry_multi_session_id : Z
}.

Definition pmksa_cache_to_eapol_data (entry : pmksa_entry) : cmd S :=
  (WHEN (fun _ => non_null (entry_identity entry)) DO
     (identity <~ (fun s => if oom s then None else entry_identity entry)) ;;
   (fun s => match entry_cui entry with
             | Some c => setter radius_cui (fun _ => default None (wpabuf_dup (oom s) c)) s
             | None => s
             end) ;;
   eap_type_authsrv ::= entry_eap_type_authsrv entry ;;
   acct_multi_session_id ::= entry_multi_session_id entry)%cmd.

(** What [ieee802_1x_new_station] does when the station has a cached PMKSA:
    the machine starts as if the authentication had just succeeded. *)
Definition pmksa_station (entry : pmksa_entry) : cmd S :=
  (keyRun ::= true ;;
   eap_if ∷ eapKeyAvailable ::= true ;;
   auth_pae_state ::= AUTH_PAE_AUTHENTICATING ;;
   be_auth_state ::= BE_AUTH_SUCCESS ;;
   authSuccess ::= true ;;
   authFail ::= false ;;
   update eap engine_notify_cached ;;
   pmksa_cache_to_eapol_data entry)%cmd.

(** What the WPA state machine sets (ap/wpa_auth_glue.c); the authorisation
    of the station by the 4-way handshake does not go through this machine. *)
Inductive wpa_eapol_variable :=
  | WPA_EAPOL_portEnabled | WPA_EAPOL_portValid | WPA_EAPOL_authorized | WPA_EAPOL_portControl_Auto
  | WPA_EAPOL_keyRun | WPA_EAPOL_keyAvailable | WPA_EAPOL_keyDone | WPA_EAPOL_inc_EapolFramesTx.

Definition hostapd_wpa_auth_set_eapol (var : wpa_eapol_variable) (value : bool) : cmd S :=
  match var with
  | WPA_EAPOL_portEnabled => ieee802_1x_notify_port_enabled value
  | WPA_EAPOL_portValid => ieee802_1x_notify_port_valid value
  | WPA_EAPOL_authorized => skip
  | WPA_EAPOL_portControl_Auto => (portControl ::= Auto)%cmd
  | WPA_EAPOL_keyRun => (keyRun ::= value)%cmd
  | WPA_EAPOL_keyAvailable => (eap_if ∷ eapKeyAvailable ::= value)%cmd
  | WPA_EAPOL_keyDone => (keyDone ::= value)%cmd
  | WPA_EAPOL_inc_EapolFramesTx =>
      (tx_count ∷ dot1xAuthEapolFramesTx <~ (fun s => incr (dot1xAuthEapolFramesTx (tx_count s))))%cmd
  end.

(** The new state and the return value; [quietPeriod] and the like are
    [unsigned int]. *)
Definition stepped (c : cmd S) (s : S) : Z * S := (0, eapol_auth_step (c s)).

Definition set_bool (f : S -> bool) `{!Setter f} (value : list Z) (s : S) : Z * S :=
  if streq value (chars "TRUE") then stepped (f ::= true)%cmd s
  else if streq value (chars "FALSE") then stepped (f ::= false)%cmd s
  else (-1, s).

Definition eapol_auth_set_conf (param value : list Z) (s : S) : Z * S :=
  if strcaseeq param (chars "AdminControlledDirections") then
    if streq value (chars "Both") then stepped (adminControlledDirections ::= Both)%cmd s
    else if streq value (chars "In") then stepped (adminControlledDirections ::= In)%cmd s
    else (-1, s)
  else if strcaseeq param (chars "AdminControlledPortControl") then
    if streq value (chars "ForceAuthorized") then stepped (portControl ::= ForceAuthorized)%cmd s
    else if streq value (chars "ForceUnauthorized")
    then stepped (portControl ::= ForceUnauthorized)%cmd s
    else if streq value (chars "Auto") then stepped (portControl ::= Auto)%cmd s
    else (-1, s)
  else if strcaseeq param (chars "quietPeriod") then
    (0, setter quietPeriod (fun _ => u32 (atoi value)) s)
  else if strcaseeq param (chars "serverTimeout") then
    (0, setter serverTimeout (fun _ => u32 (atoi value)) s)
  else if strcaseeq param (chars "reAuthPeriod") then
    (0, setter reAuthPeriod (fun _ => u32 (atoi value)) s)
  else if strcaseeq param (chars "reAuthEnabled") then set_bool reAuthEnabled value s
  else if strcaseeq param (chars "KeyTransmissionEnabled") then set_bool keyTxEnabled value s
  else (-1, s).

(** ** Creation and removal *)

(** The configuration [eapol_auth_alloc] gives the EAP server. *)
Definition engine_conf (a : eapol_authenticator) (sta : list Z)
    (assoc_wps assoc_p2p : option wpabuf) : eap_config :=
  let p := conf_eap (conf a) in
  mk_eap_config
    (mk_eap_params (ssl_ctx p) (msg_ctx p) (eap_sim_db_priv p) (pwd_group p)
       (pac_opaque_encr_key p) (eap_fast_a_id p) (eap_fast_a_id_len p) (eap_fast_a_id_info p)
       (eap_fast_prov p) (pac_key_lifetime p) (pac_key_refresh_time p)
       (eap_sim_aka_result_ind p) (tnc p) (wps p) assoc_wps assoc_p2p (fragment_size p)
       (pbc_in_m1 p) (server_id p) (server_id_len p) (tls_session_lifetime p))
    false (use_eap_server (conf a)) (use_erp (conf a)) (Some sta).

Definition no_pae_counters : pae_counters := mk_pae_counters 0 0 0 0 0 0 0 0 0 0 0.

(** The structure before [eapol_auth_initialize]: zeroed, then assigned. *)
Definition alloc_state (a : eapol_authenticator) (sta : list Z) (fl : Z) (e : E) (ptr : Z)
    (lp : eloop_data eapol_handler) (mem : bool) : S :=
  mk_eapol_sm E 0 0 0 false false None false false false false false false false
    (negb (wpa (conf a)) && (non_null (default_wep_key a) || (0 <? individual_wep_key_len (conf a))))
    Auto (negb (wpa (conf a))) false
    AUTH_PAE_INITIALIZE false false None 0 AUTH_PAE_DEFAULT_quietPeriod AUTH_PAE_DEFAULT_reAuthMax
    no_pae_counters
    BE_AUTH_INITIALIZE BE_AUTH_DEFAULT_serverTimeout (mk_be_counters 0 0 0 0 0)
    REAUTH_TIMER_INITIALIZE (u32 (eap_reauth_period (conf a))) (0 <? eap_reauth_period (conf a))
    AUTH_KEY_TX_NO_KEY_TRANSMIT KEY_RX_NO_KEY_RECEIVE false
    CTRL_DIR_IN_OR_BOTH Both Both false (mk_tx_counters 0 0 0)
    (mk_rx_counters 0 0 0 0 0 0 0 0)
    (take 6 sta) fl (-1) 0 None 0 0 None e false false a false 0 ptr false lp mem [].

Definition eapol_auth_free (s : S) : eloop_data eapol_handler :=
  snd (eloop_cancel_timeout eapol_sm_step_cb_h (self s) 0
    (snd (eloop_cancel_timeout eapol_port_timers_tick_h 0 (self s) (loop s)))).

(** [rnd]: what [radius_gen_session_id] produces, if it does.  The result is
    the structure or NULL, and the event loop. *)
Definition eapol_auth_alloc (a : option eapol_authenticator) (sta : list Z) (fl : Z)
    (assoc_wps assoc_p2p : option wpabuf) (id cui : option (list Z)) (rnd : option Z)
    (ptr : Z) (lp : eloop_data eapol_handler) (mem : bool) : option S * eloop_data eapol_handler :=
  match a with
  | None => (None, lp)
  | Some a =>
      if mem then (None, lp)
      else
        match engine_init (engine_conf a sta assoc_wps assoc_p2p) with
        | None =>
            (None, snd (eloop_cancel_timeout eapol_sm_step_cb_h ptr 0
                     (snd (eloop_cancel_timeout eapol_port_timers_tick_h 0 ptr lp))))
        | Some e =>
            let s := eapol_auth_initialize (alloc_state a sta fl e ptr lp mem) in
            let s := match id with
                     | Some i => setter identity (fun _ => Some (c_string i)) s
                     | None => s
                     end in
            let s := match cui with
                     | Some c => setter radius_cui (fun _ =>
                         default None (wpabuf_alloc_copy mem (c_string c))) s
                     | None => s
                     end in
            match rnd with
            | Some r => (Some (setter acct_multi_session_id (fun _ => r) s), loop s)
            | None => (None, eapol_auth_free s)
            end
        end
  end.

End eapol.

(** ** The configuration *)

(** [os_malloc] and [os_memcpy] of a member that may be NULL: [None] when the
    memory is exhausted. *)
Definition clone_data (mem : bool) (len : Z) (src : option (list Z)) : option (option (list Z)) :=
  match src with
  | Some d => if mem then None else Some (Some (take (Z.to_nat len) d))
  | None => Some None
  end.

Definition clone_str (mem : bool) (src : option (list Z)) : option (option (list Z)) :=
  match src with
  | Some d => if mem then None else Some (Some (c_string d))
  | None => Some None
  end.

(** [eapol_auth_conf_clone] into a zeroed structure: the copy, or [None] for
    the error. *)
Definition eapol_auth_conf_clone (mem : bool) (src : eapol_auth_config)
    : option eapol_auth_config :=
  let p := conf_eap src in
  let? text := clone_data mem (eap_req_id_text_len src) (eap_req_id_text src) in
  let? pac := clone_data mem 16 (pac_opaque_encr_key p) in
  let? a_id := clone_data mem (eap_fast_a_id_len p) (eap_fast_a_id p) in
  let? a_id_info := clone_str mem (eap_fast_a_id_info p) in
  let? dom := clone_str mem (erp_domain src) in
  Some (mk_eapol_conf (eap_reauth_period src) (wpa src) (individual_wep_key_len src)
    (use_eap_server src) text (if non_null text then eap_req_id_text_len src else 0)
    (erp_send_reauth_start src) dom (use_erp src)
    (mk_eap_params (ssl_ctx p) (msg_ctx p) (eap_sim_db_priv p) (pwd_group p)
       pac a_id (if non_null a_id then eap_fast_a_id_len p else 0) a_id_info
       (eap_fast_prov p) (pac_key_lifetime p) (pac_key_refresh_time p)
       (eap_sim_aka_result_ind p) (tnc p) (wps p) None None (fragment_size p)
       (pbc_in_m1 p) (server_id p) (server_id_len p) (tls_session_lifetime p))).

Definition eapol_auth_init (mem : bool) (c : eapol_auth_config) : option eapol_authenticator :=
  if mem then None
  else
    let? c' := eapol_auth_conf_clone mem c in
    Some (mk_eapol c' None (if 0 <? individual_wep_key_len c then 1 else 0)).
