(* ===== verification/EapolPort.v ===== *)
(** * The IEEE 802.1X authenticator: the controlled port

    What decides whether the port is open ([pview]), how each state machine
    changes it, the abstract specification [port_spec] of the port, and what
    the EAP server promises ([EapEngineLaws]). *)

From Stdlib Require Import String.
From S2P Require Import Prelude.
From S2P Require Import Eloop.
From S2P Require Import Wpabuf.
From S2P Require Import Common.
From S2P Require Import EapCommon.
From S2P Require Import EapServer.
From S2P Require Import EapolAuth.

(** A success the authenticator may use: not one of before a restart it has
    asked for. *)
Definition usable (i : eap_eapol_interface) : bool := eapSuccess i && negb (eapRestart i).

(** What the authenticator relies on.  [engine_valid] is kept by every
    operation; a step makes a success usable only when the engine has accepted
    the peer ([engine_accepts]), and never asks for a restart. *)
Class EapEngineLaws (E : Type) `{!EapEngine E} := {
  engine_valid : E -> Prop;
  engine_accepts : E -> Prop;
  engine_update_if g e : engine_if (engine_update g e) = g (engine_if e);
  engine_init_valid c e : engine_init c = Some e -> engine_valid e /\ eapSuccess (engine_if e) = false;
  engine_update_valid g e : engine_valid e -> engine_valid (engine_update g e);
  engine_pending_valid e : engine_valid e -> engine_valid (engine_pending_cb e);
  engine_pending_if e : engine_if (engine_pending_cb e) = engine_if e;
  engine_clear_valid e : engine_valid e -> engine_valid (engine_clear_identity e);
  engine_clear_if e : engine_if (engine_clear_identity e) = engine_if e;
  engine_cached_valid e : engine_valid e -> engine_valid (engine_notify_cached e);
  engine_cached_if e : engine_if (engine_notify_cached e) = engine_if e;
  engine_step_valid e : engine_valid e -> engine_valid (fst (engine_step e));
  engine_step_success e :
    engine_valid e -> usable (engine_if (fst (engine_step e))) = true ->
    usable (engine_if e) = true \/ engine_accepts e;
  engine_step_restart e :
    eapRestart (engine_if e) = false -> eapRestart (engine_if (fst (engine_step e))) = false
}.

Section port.
Context {E : Type} `{EE : !EapEngine E, EL : !EapEngineLaws E}.
Abbreviation S := (eapol_sm E).
#[local] Existing Instance set_eap_if.

(** ** The view *)

(** The last time the lower layer was told about the port. *)
Fixpoint last_port (o : list eapol_out) : option bool :=
  match o with
  | set_port_authorized b :: _ => Some b
  | _ :: o => last_port o
  | [] => None
  end.

Record pview := mk_pview {
  v_pae : auth_pae; v_status : option PortState; v_port : option bool;
  v_success : bool; v_control : PortTypes; v_eap : bool; v_restart : bool
}.

Definition pv (s : S) : pview :=
  mk_pview (auth_pae_state s) (authPortStatus s) (last_port (out s)) (authSuccess s)
    (portControl s) (eapSuccess (eap_if s)) (eapRestart (eap_if s)).

Definition with_pae (t : auth_pae) (v : pview) : pview :=
  mk_pview t (v_status v) (v_port v) (v_success v) (v_control v) (v_eap v) (v_restart v).
Definition with_port (p : PortState) (v : pview) : pview :=
  mk_pview (v_pae v) (Some p) (Some (bool_decide (p = Authorized))) (v_success v) (v_control v)
    (v_eap v) (v_restart v).
Definition with_success (b : bool) (v : pview) : pview :=
  mk_pview (v_pae v) (v_status v) (v_port v) b (v_control v) (v_eap v) (v_restart v).
Definition with_restart (v : pview) : pview :=
  mk_pview (v_pae v) (v_status v) (v_port v) (v_success v) (v_control v) (v_eap v) true.

Lemma pae_pv t s : pv (setter auth_pae_state (fun _ => t) s) = with_pae t (pv s).
Proof. reflexivity. Qed.
Lemma success_pv b s : pv (setter authSuccess (fun _ => b) s) = with_success b (pv s).
Proof. reflexivity. Qed.

Lemma PAE_ENTRY_pv t g s : pv (PAE_ENTRY t g s) = with_pae t (pv s).
Proof. unfold PAE_ENTRY, SM_ENTRY. cmd_cases; open_cmds; rewrite pae_pv; by frames pv. Qed.

(** Telling the lower layer about the port goes with the assignment of the
    status. *)
Lemma open_pv s : pv (setPortAuthorized (setter authPortStatus (fun _ => Some Authorized) s)) =
  with_port Authorized (pv s).
Proof. reflexivity. Qed.
Lemma close_pv s : pv (setPortUnauthorized (setter authPortStatus (fun _ => Some Unauthorized) s)) =
  with_port Unauthorized (pv s).
Proof. reflexivity. Qed.

Lemma emit_pv o s :
  match o s with set_port_authorized _ => False | _ => True end -> pv (emit o s) = pv s.
Proof.
  intros H. unfold emit. open_cmds.
  transitivity (mk_pview (auth_pae_state s) (authPortStatus s) (last_port (o s :: out s))
    (authSuccess s) (portControl s) (eapSuccess (eap_if s)) (eapRestart (eap_if s))); [reflexivity|].
  destruct (o s); first [reflexivity|done].
Qed.

(** What else the authenticator writes through [eap_if]. *)
Definition keeps_if (g : eap_eapol_interface -> eap_eapol_interface) : Prop :=
  forall i, eapSuccess (g i) = eapSuccess i /\ eapRestart (g i) = eapRestart i.

Lemma set_if_pv g s :
  pv (setter eap_if g s) = mk_pview (auth_pae_state s) (authPortStatus s) (last_port (out s))
    (authSuccess s) (portControl s) (eapSuccess (g (eap_if s))) (eapRestart (g (eap_if s))).
Proof.
  transitivity (mk_pview (auth_pae_state s) (authPortStatus s) (last_port (out s))
    (authSuccess s) (portControl s) (eapSuccess (engine_if (engine_update g (eap s))))
    (eapRestart (engine_if (engine_update g (eap s))))); [reflexivity|].
  by rewrite engine_update_if.
Qed.

Lemma eap_if_pv g s : keeps_if g -> pv (setter eap_if g s) = pv s.
Proof. intros Hg. rewrite set_if_pv. by destruct (Hg (eap_if s)) as [-> ->]. Qed.

Lemma restart_pv s : pv (setter eap_if (setter eapRestart (fun _ => true)) s) = with_restart (pv s).
Proof. by rewrite set_if_pv. Qed.

(** Strip the commands that do not matter to the port. *)
Ltac pv_step :=
  first
    [ rewrite PAE_ENTRY_pv | rewrite open_pv | rewrite close_pv | rewrite pae_pv | rewrite success_pv | rewrite restart_pv
    | rewrite emit_pv by exact I
    | rewrite eap_if_pv by (intros ?; split; reflexivity)
    | match goal with
      | |- context [pv (@setter ?S ?T ?f ?i ?g ?s)] => rewrite (frame pv f i g s)
      end ].
Ltac pv_tac := repeat (cmd_cases; open_cmds; repeat pv_step).

Lemma step_pv s : pv (eapol_auth_step s) = pv s.
Proof. unfold eapol_auth_step. open_cmds. by frames pv. Qed.

Lemma canned_pv b s : pv (eapol_auth_tx_canned_eap b s) = pv s.
Proof. unfold eapol_auth_tx_canned_eap. open_cmds. repeat pv_step. reflexivity. Qed.

Lemma tx_req_pv s : pv (eapol_auth_tx_req s) = pv s.
Proof.
  unfold eapol_auth_tx_req. destruct (eapReqData (eap_if s)) as [req|]; [|done].
  destruct (_ <? _); [done|]. destruct (flag _ _); [done|].
  destruct (_ =? _); open_cmds; repeat pv_step; reflexivity.
Qed.

Lemma disconnect_pv r s : pv (ap_sta_disconnect r s) = pv s.
Proof.
  unfold ap_sta_disconnect, ieee802_1x_notify_port_enabled. open_cmds. rewrite step_pv. by repeat pv_step.
Qed.

Lemma finished_pv b s : pv (cb_finished b s) = pv s.
Proof.
  unfold cb_finished. open_cmds. unfold when. case_match; [rewrite disconnect_pv|]; by apply emit_pv.
Qed.

Lemma abortAuth_pv s : pv (abortAuth s) = pv s.
Proof.
  unfold abortAuth, ieee802_1x_abort_auth. open_cmds. unfold when.
  case_match; [rewrite disconnect_pv|]; by repeat pv_step.
Qed.

(** ** The states of the PAE *)

Lemma PAE_states_pv g s :
  pv (AUTH_PAE_INITIALIZE_Enter g s) = with_pae AUTH_PAE_INITIALIZE (pv s) /\
  pv (AUTH_PAE_RESTART_Enter s) = with_restart (with_pae AUTH_PAE_RESTART (pv s)) /\
  pv (AUTH_PAE_CONNECTING_Enter s) = with_pae AUTH_PAE_CONNECTING (pv s) /\
  pv (AUTH_PAE_AUTHENTICATING_Enter s) = with_success false (with_pae AUTH_PAE_AUTHENTICATING (pv s)) /\
  pv (AUTH_PAE_ABORTING_Enter s) = with_pae AUTH_PAE_ABORTING (pv s).
Proof.
  split; [|split; [|split; [|split]]].
  - unfold AUTH_PAE_INITIALIZE_Enter. pv_tac. reflexivity.
  - unfold AUTH_PAE_RESTART_Enter. pv_tac; reflexivity.
  - unfold AUTH_PAE_CONNECTING_Enter. pv_tac; reflexivity.
  - unfold AUTH_PAE_AUTHENTICATING_Enter. pv_tac. reflexivity.
  - unfold AUTH_PAE_ABORTING_Enter. pv_tac; reflexivity.
Qed.

Lemma PAE_ports_pv g s :
  pv (AUTH_PAE_DISCONNECTED_Enter s) = with_port Unauthorized (with_pae AUTH_PAE_DISCONNECTED (pv s)) /\
  pv (AUTH_PAE_HELD_Enter s) = with_port Unauthorized (with_pae AUTH_PAE_HELD (pv s)) /\
  pv (AUTH_PAE_AUTHENTICATED_Enter s) = with_port Authorized (with_pae AUTH_PAE_AUTHENTICATED (pv s)) /\
  pv (AUTH_PAE_FORCE_AUTH_Enter g s) = with_port Authorized (with_pae AUTH_PAE_FORCE_AUTH (pv s)) /\
  pv (AUTH_PAE_FORCE_UNAUTH_Enter g s) = with_port Unauthorized (with_pae AUTH_PAE_FORCE_UNAUTH (pv s)).
Proof.
  split; [|split; [|split; [|split]]].
  - unfold AUTH_PAE_DISCONNECTED_Enter. cbv zeta. pv_tac; try rewrite finished_pv; pv_tac; reflexivity.
  - unfold AUTH_PAE_HELD_Enter. pv_tac; rewrite finished_pv; pv_tac; reflexivity.
  - unfold AUTH_PAE_AUTHENTICATED_Enter. pv_tac; rewrite finished_pv; pv_tac; reflexivity.
  - unfold AUTH_PAE_FORCE_AUTH_Enter. open_cmds. rewrite canned_pv. pv_tac. reflexivity.
  - unfold AUTH_PAE_FORCE_UNAUTH_Enter. open_cmds. rewrite canned_pv. pv_tac. reflexivity.
Qed.

(** ** When the port can open *)

(** The port is not open, and nothing that has happened opens it: another
    acceptance is needed.  A success from before the restart that the machine
    has asked for does not count. *)
Definition closed (v : pview) : Prop :=
  v_status v <> Some Authorized /\ v_control v <> ForceAuthorized /\
  match v_pae v with
  | AUTH_PAE_AUTHENTICATED | AUTH_PAE_FORCE_AUTH => False
  | AUTH_PAE_RESTART => v_eap v && negb (v_restart v) = false
  | AUTH_PAE_CONNECTING => v_eap v = false /\ v_restart v = false
  | AUTH_PAE_AUTHENTICATING => v_eap v = false /\ v_restart v = false /\ v_success v = false
  | _ => True
  end.

(** The lower layer knows the status, and the states of the PAE agree with
    it. *)
Definition coherent (v : pview) : Prop :=
  v_port v = option_map (fun p => bool_decide (p = Authorized)) (v_status v) /\
  match v_pae v with
  | AUTH_PAE_DISCONNECTED | AUTH_PAE_HELD | AUTH_PAE_FORCE_UNAUTH => v_status v = Some Unauthorized
  | AUTH_PAE_AUTHENTICATED | AUTH_PAE_FORCE_AUTH => v_status v = Some Authorized
  | _ => True
  end.

(** A step that does not open the port on its own. *)
Definition sound_step (v v' : pview) : Prop := (closed v -> closed v') /\ (coherent v -> coherent v').

Lemma sound_refl v : sound_step v v.
Proof. by split. Qed.

Lemma sound_trans v1 v2 v3 : sound_step v1 v2 -> sound_step v2 v3 -> sound_step v1 v3.
Proof. intros [H1 H2] [H3 H4]. split; auto. Qed.

(** States that leave the port alone. *)
Lemma sound_pae t v :
  match t with AUTH_PAE_INITIALIZE | AUTH_PAE_ABORTING => True | _ => False end ->
  sound_step v (with_pae t v).
Proof.
  intros Ht. split.
  - intros (H1 & H2 & _). split; [exact H1|]. split; [exact H2|]. by destruct t.
  - intros [H1 H2]. split; [exact H1|]. cbn. by destruct t.
Qed.

Lemma sound_restart v : sound_step v (with_restart (with_pae AUTH_PAE_RESTART v)).
Proof.
  split.
  - intros (H1 & H2 & _). split; [exact H1|]. split; [exact H2|]. apply andb_false_r.
  - intros [H1 _]. by split.
Qed.

Lemma sound_connecting v :
  v_pae v = AUTH_PAE_RESTART -> v_restart v = false -> sound_step v (with_pae AUTH_PAE_CONNECTING v).
Proof.
  intros Hp Hr. split; [|by intros [H _]; split]. intros (H1 & H2 & H3).
  split; [exact H1|]. split; [exact H2|]. rewrite Hp, Hr, andb_true_r in H3. by split.
Qed.

Lemma sound_authenticating v :
  v_pae v = AUTH_PAE_CONNECTING ->
  sound_step v (with_success false (with_pae AUTH_PAE_AUTHENTICATING v)).
Proof.
  intros Hp. split; [|by intros [H _]; split]. intros (H1 & H2 & H3).
  split; [exact H1|]. split; [exact H2|]. rewrite Hp in H3. destruct H3. by repeat split.
Qed.

Lemma sound_open t v :
  match t with AUTH_PAE_AUTHENTICATED | AUTH_PAE_FORCE_AUTH => True | _ => False end ->
  ~ closed v -> sound_step v (with_port Authorized (with_pae t v)).
Proof.
  intros Ht Hc. split; [done|]. intros _. split; [done|]. cbn. by destruct t.
Qed.

Lemma sound_close t v :
  match t with AUTH_PAE_DISCONNECTED | AUTH_PAE_HELD | AUTH_PAE_FORCE_UNAUTH => True | _ => False end ->
  sound_step v (with_port Unauthorized (with_pae t v)).
Proof.
  intros Ht. split.
  - intros (_ & H & _). split; [discriminate|]. split; [exact H|]. by destruct t.
  - intros _. split; [done|]. cbn. by destruct t.
Qed.

Lemma PAE_switch_sound s : sound_step (pv s) (pv (AUTH_PAE_switch s)).
Proof.
  destruct (PAE_states_pv false s) as (_ & H2 & H3 & H4 & H5).
  destruct (PAE_ports_pv false s) as (P1 & P2 & P3 & P4 & P5).
  unfold AUTH_PAE_switch.
  destruct (auth_pae_state s) eqn:Es;
    repeat match goal with |- context [if ?b then _ else _] => destruct b eqn:? end;
    rewrite ?H2, ?H3, ?H4, ?H5, ?P1, ?P2, ?P3, ?P4, ?P5;
    try solve [apply sound_refl|by apply sound_pae|by apply sound_close|apply sound_restart].
  - by apply sound_authenticating.
  - apply sound_open; [done|]. intros (_ & _ & Hx). unfold pv in Hx. cbn [v_pae] in Hx. rewrite Es in Hx.
    bool_hyps. destruct Hx as (_ & _ & Hx). cbn [v_success] in Hx. rewrite Hx in H. discriminate H.
  - apply sound_open; [done|]. intros (_ & _ & H). cbn in H. by rewrite Es in H.
  - bool_hyps. by apply sound_connecting.
Qed.

Lemma PAE_Step_sound s : sound_step (pv s) (pv (AUTH_PAE_Step s)).
Proof.
  unfold AUTH_PAE_Step. destruct (PAE_states_pv true s) as (H1 & _).
  destruct (PAE_ports_pv true s) as (_ & _ & _ & P4 & P5).
  destruct (_ || _); [rewrite H1; by apply sound_pae|].
  destruct (mode_differs ForceAuthorized s && _) eqn:Ef.
  { rewrite P4. apply sound_open; [done|]. unfold mode_differs in Ef. bool_hyps.
    intros (_ & Hc & _). by apply Hc. }
  destruct (mode_differs ForceUnauthorized s && _); [rewrite P5; by apply sound_close|].
  apply PAE_switch_sound.
Qed.

(** ** The other machines *)

Lemma entry_pv {St} `{!EqDecision St} (f : S -> St) `{!Setter f} t g s :
  (forall h s, pv (setter f h s) = pv s) -> pv (SM_ENTRY f changed t g s) = pv s.
Proof. intros Hf. unfold SM_ENTRY. cmd_cases; open_cmds; rewrite Hf; by frames pv. Qed.

Lemma BE_ENTRY_pv t g s : pv (BE_ENTRY t g s) = pv s.
Proof. unfold BE_ENTRY. by apply entry_pv. Qed.

Ltac be_tac :=
  open_cmds;
  repeat first [rewrite BE_ENTRY_pv | rewrite tx_req_pv | rewrite abortAuth_pv | pv_step].

Lemma BE_states_pv g s :
  pv (BE_AUTH_INITIALIZE_Enter g s) = pv s /\ pv (BE_AUTH_REQUEST_Enter s) = pv s /\
  pv (BE_AUTH_RESPONSE_Enter s) = pv s /\ pv (BE_AUTH_FAIL_Enter s) = pv s /\
  pv (BE_AUTH_TIMEOUT_Enter s) = pv s /\ pv (BE_AUTH_IDLE_Enter s) = pv s /\
  pv (BE_AUTH_IGNORE_Enter s) = pv s /\ pv (BE_AUTH_SUCCESS_Enter s) = with_success true (pv s).
Proof.
  unfold BE_AUTH_INITIALIZE_Enter, BE_AUTH_REQUEST_Enter, BE_AUTH_RESPONSE_Enter, BE_AUTH_FAIL_Enter,
    BE_AUTH_TIMEOUT_Enter, BE_AUTH_IDLE_Enter, BE_AUTH_IGNORE_Enter, BE_AUTH_SUCCESS_Enter.
  repeat split; be_tac; reflexivity.
Qed.

Lemma BE_success_sound s s1 :
  pv s1 = pv s -> v_eap (pv s) = true -> sound_step (pv s) (pv (BE_AUTH_SUCCESS_Enter s1)).
Proof.
  intros H He. destruct (BE_states_pv false s1) as (_ & _ & _ & _ & _ & _ & _ & ->). rewrite H.
  split; [|intros Hc; exact Hc]. intros (H1 & H2 & H3). split; [exact H1|]. split; [exact H2|].
  unfold with_success. cbn [v_pae v_eap v_restart v_success].
  destruct (v_pae (pv s)); try exact H3. destruct H3 as [H3 _]. rewrite He in H3. discriminate H3.
Qed.

Lemma same_sound s s' : pv s' = pv s -> sound_step (pv s) (pv s').
Proof. intros ->. apply sound_refl. Qed.

Lemma BE_response_sound s : sound_step (pv s) (pv (BE_AUTH_response s)).
Proof.
  unfold BE_AUTH_response. open_cmds.
  destruct (eapReq (eap_if s)).
  { set (s1 := setter be_count _ s). destruct (BE_states_pv false s1) as (_ & H & _).
    apply same_sound. rewrite H. unfold s1. by frames pv. }
  destruct (BE_states_pv false s) as (_ & _ & _ & _ & H & _).
  destruct (_ =? _); [by apply same_sound|]. destruct (eapFail (eap_if s)).
  { set (s1 := setter be_count _ s). destruct (BE_states_pv false s1) as (_ & _ & _ & H1 & _).
    apply same_sound. rewrite H1. unfold s1. by frames pv. }
  destruct (eapSuccess (eap_if s)) eqn:Es; [|apply sound_refl].
  apply BE_success_sound; [by frames pv|exact Es].
Qed.

Lemma BE_Step_sound s : sound_step (pv s) (pv (BE_AUTH_Step s)).
Proof.
  unfold BE_AUTH_Step. destruct (BE_states_pv true s) as (H1 & H2 & H3 & H4 & H5 & H6 & H7 & _).
  destruct (_ || _); [by apply same_sound|]. unfold BE_AUTH_switch, BE_AUTH_request.
  destruct (be_auth_state s);
    try (repeat match goal with |- context [if ?b then _ else _] => destruct b end;
         first [by apply same_sound|apply sound_refl]).
  - open_cmds. unfold when. destruct (eapNoReq (eap_if s)); [|apply BE_response_sound].
    rewrite <-H7. apply BE_response_sound.
  - destruct (_ && _); [by apply same_sound|]. destruct (_ && _); [by apply same_sound|].
    destruct (eapSuccess (eap_if s) && authStart s) eqn:Ea; [|apply sound_refl]. bool_hyps.
    by apply BE_success_sound.
Qed.

Lemma timer_Step_pv s : pv (REAUTH_TIMER_Step s) = pv s.
Proof.
  assert (H1 : forall g s, pv (REAUTH_TIMER_INITIALIZE_Enter g s) = pv s).
  { intros g s1. unfold REAUTH_TIMER_INITIALIZE_Enter. open_cmds. pv_step. by apply entry_pv. }
  unfold REAUTH_TIMER_Step, REAUTH_TIMER_REAUTHENTICATE_Enter. open_cmds.
  repeat case_match; rewrite ?H1; try done; repeat pv_step; by apply entry_pv.
Qed.

Lemma key_tx_Step_pv s : pv (AUTH_KEY_TX_Step s) = pv s.
Proof.
  unfold AUTH_KEY_TX_Step, AUTH_KEY_TX_NO_KEY_TRANSMIT_Enter, AUTH_KEY_TX_KEY_TRANSMIT_Enter. open_cmds.
  repeat case_match; try done; repeat pv_step; by apply entry_pv.
Qed.

Lemma key_rx_Step_pv s : pv (KEY_RX_Step s) = pv s.
Proof.
  unfold KEY_RX_Step, KEY_RX_NO_KEY_RECEIVE_Enter, KEY_RX_KEY_RECEIVE_Enter. open_cmds.
  repeat case_match; try done; repeat pv_step; by apply entry_pv.
Qed.

Lemma ctrl_dir_Step_pv s : pv (CTRL_DIR_Step s) = pv s.
Proof.
  assert (H1 : forall g s, pv (CTRL_DIR_IN_OR_BOTH_Enter g s) = pv s).
  { intros g s1. unfold CTRL_DIR_IN_OR_BOTH_Enter. open_cmds. pv_step. by apply entry_pv. }
  assert (H2 : forall s, pv (CTRL_DIR_FORCE_BOTH_Enter s) = pv s).
  { intros s1. unfold CTRL_DIR_FORCE_BOTH_Enter. open_cmds. pv_step. by apply entry_pv. }
  unfold CTRL_DIR_Step. destruct (initialize s); [apply H1|].
  destruct (ctrl_dir_state s); [destruct (_ && _); [apply H1|done]|].
  open_cmds. unfold when. repeat case_match; by rewrite ?H2, ?H1.
Qed.

(** ** Runs *)

(** The engine states a run steps, in their order. *)
Fixpoint step_run_log (max_steps : nat) (s : S) : list E :=
  match max_steps with
  | O => []
  | Datatypes.S n =>
      let s' := six_steps s in
      if negb (bool_decide (sm_states s' = sm_states s)) then step_run_log n s'
      else if alive s' then
        let '(s2, ch) := run_engine s' in
        eap s' :: (if ch then step_run_log n s2 else [])
      else []
  end.

(** The engine is valid, the view is coherent, and the port is shut unless [G]. *)
Definition port_inv (s : S) (G : Prop) : Prop :=
  engine_valid (eap s) /\ coherent (pv s) /\ (closed (pv s) \/ G).

Definition accepted (l : list E) : Prop := exists e, List.In e l /\ engine_accepts e.

Lemma port_inv_weaken s (G G' : Prop) : (G -> G') -> port_inv s G -> port_inv s G'.
Proof. intros H (H1 & H2 & H3). split; [exact H1|]. split; [exact H2|]. tauto. Qed.

(** ** Timers, and what the machines leave alone *)

(** The timers of the machine at address [p]. *)
Definition is_tick (p : Z) : eloop_timeout eapol_handler -> bool :=
  exact_match eapol_port_timers_tick_h 0 p.
Definition is_step (p : Z) : eloop_timeout eapol_handler -> bool :=
  exact_match eapol_sm_step_cb_h p 0.

(** The clock is not about to wrap. *)
Definition clock_ok (t : os_reltime) : Prop := 0 <= sec t < 2 ^ 62.

Definition ticks (p : Z) (l : eloop_data eapol_handler) : nat :=
  length (List.filter (is_tick p) (timeout l)).

(** What a run keeps: only [eapol_auth_step] changes the timers, and it adds
    no tick. *)
Definition tv (s : S) : bool * Z * os_reltime * nat * Z :=
  (alive s, self s, now (loop s), ticks (self s) (loop s), authEntersAuthenticating (pae_count s)).

Lemma insert_filter (p : eloop_timeout eapol_handler -> bool) t l :
  length (List.filter p (insert_timeout t l)) =
  ((if p t then 1 else 0) + length (List.filter p l))%nat.
Proof.
  induction l as [|u l IH]; cbn [insert_timeout]; [cbn; by destruct (p t)|].
  destruct (os_reltime_before _ _); cbn [List.filter]; [by destruct (p t)|].
  destruct (p u); cbn [length]; rewrite IH; lia.
Qed.

Lemma register_ticks secs h a b p l :
  0 <= secs -> - 2 ^ 63 <= sec (now l) -> sec (now l) + secs < 2 ^ 63 ->
  now (eloop_register_timeout secs 0 h a b l) = now l /\
  ticks p (eloop_register_timeout secs 0 h a b l) =
  ((if bool_decide (h = eapol_port_timers_tick_h) && Z.eqb a 0 && Z.eqb b p then 1 else 0) + ticks p l)%nat.
Proof.
  intros H1 H2 H3. unfold eloop_register_timeout, ticks. rewrite i64_small by lia.
  destruct (Z.ltb_spec (sec (now l) + secs) (sec (now l))); [lia|].
  cbn [set_timeout now timeout]. split; [done|]. by rewrite insert_filter.
Qed.
Lemma loop_tv s g :
  tv (setter loop g s) = (alive s, self s, now (g (loop s)), ticks (self s) (g (loop s)),
    authEntersAuthenticating (pae_count s)).
Proof. reflexivity. Qed.

Lemma step_tv s : clock_ok (now (loop s)) -> tv (eapol_auth_step s) = tv s.
Proof.
  intros H. unfold eapol_auth_step. open_cmds. rewrite loop_tv. unfold clock_ok in H.
  destruct (register_ticks 0 eapol_sm_step_cb_h (self s) 0 (self s) (loop s)) as [-> ->]; [lia..|].
  reflexivity.
Qed.

Lemma tv_now s s' : tv s' = tv s -> now (loop s') = now (loop s).
Proof. unfold tv. by intros [= _ _ -> _ _]. Qed.

(** Commands that change the engine only through its interface; the only
    timers they register are steps, and the counter stays. *)
Definition tame (s s' : S) : Prop :=
  (engine_valid (eap s) -> engine_valid (eap s')) /\ alive s' = alive s /\
  (clock_ok (now (loop s)) -> tv s' = tv s).

Lemma sound_inv_pv s s' G :
  sound_step (pv s) (pv s') -> (engine_valid (eap s) -> engine_valid (eap s')) ->
  port_inv s G -> port_inv s' G.
Proof. intros [H1 H2] Ht (K1 & K2 & K3). split; [exact (Ht K1)|]. split; [auto|]. destruct K3; auto. Qed.

Lemma sound_inv s s' G : sound_step (pv s) (pv s') -> tame s s' -> port_inv s G -> port_inv s' G.
Proof. intros H [Ht _]. by apply sound_inv_pv. Qed.

Lemma tame_if s s1 g : tame s s1 -> tame s (setter eap_if g s1).
Proof. intros [H1 H2]. split; [|exact H2]. intros Hv. apply (engine_update_valid g (eap s1)). exact (H1 Hv). Qed.

Lemma tame_step s s1 : tame s s1 -> tame s (eapol_auth_step s1).
Proof.
  intros (H1 & H2 & H3). split; [exact H1|]. split; [exact H2|]. intros Hc. rewrite <-(H3 Hc).
  apply step_tv. rewrite (tv_now _ _ (H3 Hc)). exact Hc.
Qed.

Lemma tame_eq s s1 s2 : eap s2 = eap s1 -> tv s2 = tv s1 -> tame s s1 -> tame s s2.
Proof.
  intros H1 H2. assert (Ha : alive s2 = alive s1) by (unfold tv in H2; congruence).
  unfold tame. by rewrite H1, H2, Ha.
Qed.

Lemma tame_count s s1 g :
  (forall c, authEntersAuthenticating (g c) = authEntersAuthenticating c) ->
  tame s s1 -> tame s (setter pae_count g s1).
Proof.
  intros Hg. apply tame_eq; [by frames (@eap E)|].
  transitivity (alive s1, self s1, now (loop s1), ticks (self s1) (loop s1),
    authEntersAuthenticating (g (pae_count s1))); [reflexivity|].
  by rewrite Hg.
Qed.

Lemma tame_refl s : tame s s.
Proof. by repeat split. Qed.

Ltac tame_tac :=
  repeat first
    [ assumption
    | lazymatch goal with
      | |- tame _ (@setter _ _ eap_if _ _ _) => apply tame_if
      | |- tame _ (@setter _ _ pae_count _ _ _) => apply tame_count; [intros ?; reflexivity|]
      | |- tame _ (eapol_auth_step _) => apply tame_step
      | |- tame _ (@setter _ _ ?f ?i ?g ?s) =>
          eapply tame_eq; [exact (frame (@eap E) f i g s)|exact (frame tv f i g s)|]
      | |- tame ?s ?s => apply tame_refl
      end ].

Lemma entry_tame {St} `{!EqDecision St} (f : S -> St) `{!Setter f} t g s s1 :
  (forall h s, eap (setter f h s) = eap s) -> (forall h s, tv (setter f h s) = tv s) ->
  tame s s1 -> tame s (SM_ENTRY f changed t g s1).
Proof.
  intros Hf Hs H. unfold SM_ENTRY. cmd_cases; open_cmds;
    (eapply tame_eq; [apply Hf|apply Hs|]); tame_tac.
Qed.

Lemma tx_req_tame s s1 : tame s s1 -> tame s (eapol_auth_tx_req s1).
Proof.
  intros H. unfold eapol_auth_tx_req. destruct (eapReqData (eap_if s1)) as [req|]; [|done].
  destruct (_ <? _); [done|]. destruct (flag _ _); [done|].
  destruct (_ =? _); unfold emit; open_cmds; tame_tac.
Qed.

(** Unfold every command; assignments and entries are stripped from the
    outside. *)
Ltac tame_cmd :=
  unfold emit, setPortAuthorized, setPortUnauthorized, cb_finished, abortAuth, ieee802_1x_abort_auth,
    ap_sta_disconnect, ieee802_1x_notify_port_enabled, eapol_auth_tx_canned_eap, emit in *;
  cmd_cases; open_cmds;
  repeat first
    [ progress tame_tac
    | apply tx_req_tame
    | apply entry_tame; [reflexivity|reflexivity|] ].

Lemma PAE_Step_tame s : tame s (AUTH_PAE_Step s).
Proof.
  unfold AUTH_PAE_Step, AUTH_PAE_switch, AUTH_PAE_INITIALIZE_Enter, AUTH_PAE_FORCE_AUTH_Enter,
    AUTH_PAE_FORCE_UNAUTH_Enter, AUTH_PAE_DISCONNECTED_Enter, AUTH_PAE_RESTART_Enter,
    AUTH_PAE_CONNECTING_Enter, AUTH_PAE_HELD_Enter, AUTH_PAE_AUTHENTICATING_Enter,
    AUTH_PAE_ABORTING_Enter, AUTH_PAE_AUTHENTICATED_Enter, PAE_ENTRY. cbv zeta.
  destruct (_ || _); [tame_cmd|].
  destruct (_ && _); [tame_cmd|]. destruct (_ && _); [tame_cmd|].
  destruct (auth_pae_state s);
    repeat match goal with |- tame _ (if ?b then _ else _) => destruct b end;
    try apply tame_refl; tame_cmd.
Qed.

Lemma BE_Step_tame s : tame s (BE_AUTH_Step s).
Proof.
  unfold BE_AUTH_Step, BE_AUTH_switch, BE_AUTH_request, BE_AUTH_response, BE_AUTH_INITIALIZE_Enter,
    BE_AUTH_REQUEST_Enter, BE_AUTH_RESPONSE_Enter, BE_AUTH_SUCCESS_Enter, BE_AUTH_FAIL_Enter,
    BE_AUTH_TIMEOUT_Enter, BE_AUTH_IDLE_Enter, BE_AUTH_IGNORE_Enter, BE_ENTRY.
  destruct (_ || _); [tame_cmd|].
  destruct (be_auth_state s); open_cmds;
    repeat match goal with |- tame _ (if ?b then _ else _) => destruct b end;
    first [apply tame_refl|tame_cmd].
Qed.

Lemma small_Steps_tame s :
  tame s (REAUTH_TIMER_Step s) /\ tame s (AUTH_KEY_TX_Step s) /\ tame s (KEY_RX_Step s) /\
  tame s (CTRL_DIR_Step s).
Proof.
  unfold REAUTH_TIMER_Step, REAUTH_TIMER_INITIALIZE_Enter, REAUTH_TIMER_REAUTHENTICATE_Enter,
    AUTH_KEY_TX_Step, AUTH_KEY_TX_NO_KEY_TRANSMIT_Enter, AUTH_KEY_TX_KEY_TRANSMIT_Enter, KEY_RX_Step,
    KEY_RX_NO_KEY_RECEIVE_Enter, KEY_RX_KEY_RECEIVE_Enter, CTRL_DIR_Step, CTRL_DIR_FORCE_BOTH_Enter,
    CTRL_DIR_IN_OR_BOTH_Enter.
  split; [|split; [|split]]; repeat case_match; try apply tame_refl; tame_cmd.
Qed.

(** ** The invariant of a run *)

Lemma machine_inv (c : cmd S) G :
  (forall s, sound_step (pv s) (pv (c s)) /\ tame s (c s)) ->
  forall s, port_inv s G -> port_inv (c s) G.
Proof. intros Hc s H. destruct (Hc s). by eapply sound_inv. Qed.

Lemma if_alive_inv (c : cmd S) G :
  (forall s, port_inv s G -> port_inv (c s) G) -> forall s, port_inv s G -> port_inv (if_alive c s) G.
Proof. intros Hc s H. unfold if_alive, when. destruct (_ || _); auto. Qed.

Lemma six_steps_inv G s : port_inv s G -> port_inv (six_steps s) G.
Proof.
  assert (Hsame : forall c : cmd S, (forall s, pv (c s) = pv s) -> (forall s, tame s (c s)) ->
    forall s, port_inv s G -> port_inv (c s) G).
  { intros c H1 H2. apply machine_inv. intros s1. split; [by apply same_sound|apply H2]. }
  unfold six_steps. open_cmds. intros H.
  apply if_alive_inv; [apply Hsame; [apply ctrl_dir_Step_pv|apply small_Steps_tame]|].
  apply if_alive_inv; [apply Hsame; [apply key_rx_Step_pv|apply small_Steps_tame]|].
  apply if_alive_inv; [apply Hsame; [apply key_tx_Step_pv|apply small_Steps_tame]|].
  apply if_alive_inv; [apply Hsame; [apply timer_Step_pv|apply small_Steps_tame]|].
  apply if_alive_inv.
  { apply machine_inv. intros s1. split; [apply BE_Step_sound|apply BE_Step_tame]. }
  apply (machine_inv AUTH_PAE_Step); [|exact H].
  intros s1. split; [apply PAE_Step_sound|apply PAE_Step_tame].
Qed.

(** The engine may report success, on its own authority. *)
Definition with_if (i : eap_eapol_interface) (v : pview) : pview :=
  mk_pview (v_pae v) (v_status v) (v_port v) (v_success v) (v_control v) (eapSuccess i) (eapRestart i).

Lemma engine_closed v i i' (A : Prop) :
  v_eap v = eapSuccess i -> v_restart v = eapRestart i ->
  (usable i' = true -> usable i = true \/ A) -> (eapRestart i = false -> eapRestart i' = false) ->
  closed v -> closed (with_if i' v) \/ A.
Proof.
  intros He Hr Hs Hk (H1 & H2 & H3). unfold closed. cbn. unfold usable in Hs.
  destruct (v_pae v); try (by left; repeat split).
  - destruct H3 as [H3 H4]. rewrite He in H3. rewrite Hr in H4. rewrite H3, (Hk H4) in Hs.
    destruct (eapSuccess i'); [|by left; repeat split; auto]. destruct (Hs eq_refl); [discriminate|by right].
  - destruct H3 as (H3 & H4 & H5). rewrite He in H3. rewrite Hr in H4. rewrite H3, (Hk H4) in Hs.
    destruct (eapSuccess i'); [|by left; repeat split; auto]. destruct (Hs eq_refl); [discriminate|by right].
  - rewrite He, Hr in H3. rewrite H3 in Hs. destruct (eapSuccess i' && _); [|by left].
    destruct (Hs eq_refl); [discriminate|by right].
Qed.

Lemma run_engine_inv s (G : Prop) :
  port_inv s G -> port_inv (fst (run_engine s)) (G \/ engine_accepts (eap s)).
Proof.
  intros (H1 & H2 & H3). unfold run_engine. destruct (engine_step (eap s)) as [e ch] eqn:Ee. cbv zeta.
  cbn [fst]. set (s1 := setter eap _ s).
  assert (Hv : pv s1 = mk_pview (auth_pae_state s) (authPortStatus s) (last_port (out s))
    (authSuccess s) (portControl s) (eapSuccess (engine_if e)) (eapRestart (engine_if e))) by reflexivity.
  assert (Hval : engine_valid (eap s1)).
  { change (engine_valid e). pose proof (engine_step_valid (eap s) H1) as H. by rewrite Ee in H. }
  clearbody s1.
  assert (H : port_inv s1 (G \/ engine_accepts (eap s))).
  { split; [exact Hval|]. rewrite Hv. split; [exact H2|]. destruct H3 as [H3|H3]; [|by right; left].
    pose proof (engine_step_success (eap s) H1) as Hs. pose proof (engine_step_restart (eap s)) as Hr.
    rewrite Ee in Hs, Hr. cbn [fst] in Hs, Hr.
    destruct (engine_closed (pv s) (engine_if (eap s)) (engine_if e) (engine_accepts (eap s))) as [Hc|Hc];
      [reflexivity|reflexivity|exact Hs|exact Hr|exact H3|by left|by right; right]. }
  destruct (engine_remediation _); [|exact H].
  eapply sound_inv; [| |exact H].
  - apply same_sound. by frames pv.
  - tame_tac.
Qed.

Lemma frame_inv s s' G : pv s' = pv s -> eap s' = eap s -> port_inv s G -> port_inv s' G.
Proof.
  intros H1 H2. apply sound_inv_pv; [by apply same_sound|]. by rewrite H2.
Qed.

Lemma auth_step_inv s G : port_inv s G -> port_inv (eapol_auth_step s) G.
Proof. apply frame_inv; [apply step_pv|]. unfold eapol_auth_step. open_cmds. by frames (@eap E). Qed.

Lemma set_if_inv s g G :
  keeps_if g -> port_inv s G -> port_inv (setter eap_if g s) G.
Proof.
  intros Hg. apply sound_inv; [apply same_sound; by apply eap_if_pv|]. tame_tac.
Qed.

Lemma step_run_tail_inv s G : port_inv s G -> port_inv (step_run_tail s) G.
Proof.
  intros H. unfold step_run_tail, emit. open_cmds.
  set (s1 := setter eap_if _ s).
  assert (H1 : port_inv s1 G) by (apply set_if_inv; [by intros ?|exact H]). clearbody s1.
  assert (Ho : forall s o, match o with set_port_authorized _ => False | _ => True end ->
    port_inv s G -> port_inv (setter out (fun _ => o :: out s) s) G).
  { intros s2 o Ho. apply frame_inv; [|by frames (@eap E)]. exact (emit_pv (fun _ => o) s2 Ho). }
  destruct (alive s && _).
  - destruct (aaaEapRespData (eap_if s)); [|exact H1]. unfold when.
    destruct (alive _); [apply Ho; [exact I|]|]; apply Ho; done.
  - unfold when. destruct (alive s); [apply Ho; [exact I|exact H]|exact H].
Qed.

Lemma accepted_cons e l : accepted (e :: l) <-> engine_accepts e \/ accepted l.
Proof.
  unfold accepted. simpl. split.
  - intros (x & [->|Hx] & Ha); [by left|right; eauto].
  - intros [Ha|(x & Hx & Ha)]; eauto.
Qed.

Lemma step_run_inv n s (G : Prop) :
  port_inv s G -> port_inv (step_run_loop n s) (G \/ accepted (step_run_log n s)).
Proof.
  revert s G. induction n as [|n IH]; intros s G H.
  { cbn [step_run_loop]. eapply port_inv_weaken; [|exact H]. tauto. }
  cbn [step_run_loop step_run_log]. cbv zeta. apply (six_steps_inv G) in H.
  set (s' := six_steps s) in *. clearbody s'.
  assert (Hagain : forall (s1 : S) (G1 : Prop), port_inv s1 G1 ->
    port_inv (match n with O => eapol_auth_step s1 | Datatypes.S _ => step_run_loop n s1 end)
      (G1 \/ accepted (step_run_log n s1))).
  { intros s1 G1 H1. destruct n as [|n'].
    - eapply port_inv_weaken; [|by apply auth_step_inv]. tauto.
    - by apply IH. }
  destruct (negb _); [by apply Hagain|]. destruct (alive s').
  - pose proof (run_engine_inv s' G H) as H2. destruct (run_engine s') as [s2 ch]. cbn [fst] in H2.
    destruct ch.
    + eapply port_inv_weaken; [|apply Hagain, H2]. rewrite accepted_cons. tauto.
    + eapply port_inv_weaken; [|by apply step_run_tail_inv]. rewrite accepted_cons. tauto.
  - eapply port_inv_weaken; [|by apply step_run_tail_inv]. tauto.
Qed.

(** ** Events *)

(** What the authenticator reacts to: the event loop serving its timers, time
    passing, the controls and notifications of the lower layer, what it
    receives, and the messages of the authentication server
    ([InInterface], with [rx] for a received EAP packet), the WPA state machine
    ([InWpa]), and a station that returns with a cached key ([InCached]). *)
Inductive eapol_in :=
  | InDispatch
  | InTime (t : os_reltime)
  | InAlive (b : bool)
  | InPortEnabled (b : bool)
  | InPortValid (b : bool)
  | InPreAuth (b : bool)
  | InReauthenticate
  | InPendingCb
  | InConf (param value : list Z)
  | InStart
  | InLogoff
  | InInterface (rx : bool) (g : eap_eapol_interface -> eap_eapol_interface)
  | InWpa (var : wpa_eapol_variable) (value : bool)
  | InCached (entry : pmksa_entry).

(** A timer of another machine does nothing to this one. *)
Definition serve (t : eloop_timeout eapol_handler) : cmd S :=
  fun s =>
    if is_tick (self s) t then eapol_port_timers_tick s
    else if is_step (self s) t then eapol_sm_step_cb s
    else s.

Definition eapol_event_run (i : eapol_in) (s : S) : S :=
  match i with
  | InDispatch =>
      match eloop_run_timeout (loop s) with
      | Some (t, l) => serve t (setter loop (fun _ => l) s)
      | None => s
      end
  | InTime t => setter loop (fun l => mk_eloop t (timeout l)) s
  | InAlive b => setter alive (fun _ => b) s
  | InPortEnabled b => ieee802_1x_notify_port_enabled b s
  | InPortValid b => ieee802_1x_notify_port_valid b s
  | InPreAuth b => ieee802_1x_notify_pre_auth b s
  | InReauthenticate => eapol_auth_reauthenticate s
  | InPendingCb => snd (eapol_auth_eap_pending_cb true s)
  | InConf p v => snd (eapol_auth_set_conf p v s)
  | InStart =>
      (eapolStart ::= true ;; update eap engine_clear_identity ;; eapol_auth_step)%cmd s
  | InLogoff =>
      (eapolLogoff ::= true ;; update eap engine_clear_identity ;; eapol_auth_step)%cmd s
  | InInterface rx g =>
      (update eap_if g ;; WHEN (fun _ => rx) DO (eapolEap ::= true) ;; eapol_auth_step)%cmd s
  | InWpa var value => hostapd_wpa_auth_set_eapol var value s
  | InCached entry => pmksa_station entry s
  end.

Fixpoint eapol_run (l : list eapol_in) (s : S) : S :=
  match l with
  | [] => s
  | i :: l => eapol_run l (eapol_event_run i s)
  end.

(** The port timers of a tick, before the machines run. *)
Definition tick_timers : cmd S :=
  (update aWhile tick_down ;;
   update quietWhile tick_down ;;
   update reAuthWhen tick_down ;;
   eap_if ∷ retransWhile <~ (fun s => tick_down (retransWhile (eap_if s))))%cmd.

Definition event_log (i : eapol_in) (s : S) : list E :=
  match i with
  | InDispatch =>
      match eloop_run_timeout (loop s) with
      | Some (t, l) =>
          let s := setter loop (fun _ => l) s in
          if is_tick (self s) t then step_run_log 100 (tick_timers s)
          else if is_step (self s) t then step_run_log 100 s
          else []
      | None => []
      end
  | _ => []
  end.

(** The engine states a sequence of events steps. *)
Fixpoint run_log (l : list eapol_in) (s : S) : list E :=
  match l with
  | [] => []
  | i :: l => event_log i s ++ run_log l (eapol_event_run i s)
  end.

(** The event opens the port by configuration, or for a cached key. *)
Definition grants_port (i : eapol_in) : bool :=
  match i with
  | InConf p v =>
      strcaseeq p (chars "AdminControlledPortControl") && streq v (chars "ForceAuthorized")
  | InCached _ => true
  | _ => false
  end.

(** Only the engine writes [eapSuccess], and only the machines and the engine
    [eapRestart]; the clock does not wrap. *)
Definition in_ok (i : eapol_in) : Prop :=
  match i with InInterface _ g => keeps_if g | InTime t => clock_ok t | _ => True end.

Lemma accepted_app l k : accepted (l ++ k) <-> accepted l \/ accepted k.
Proof.
  unfold accepted. setoid_rewrite in_app_iff. split.
  - intros (e & [H|H] & Ha); [left|right]; eauto.
  - intros [(e & H & Ha)|(e & H & Ha)]; eauto.
Qed.

Ltac frame_tac := eapply frame_inv; [by frames pv|by frames (@eap E)|].

Lemma tick_timers_inv s G : port_inv s G -> port_inv (tick_timers s) G.
Proof.
  intros H. unfold tick_timers. open_cmds. apply set_if_inv; [by intros ?|].
  do 3 frame_tac. exact H.
Qed.

Lemma tick_split s :
  eapol_port_timers_tick s = register_tick (eapol_sm_step_run (tick_timers s)).
Proof. reflexivity. Qed.

Lemma register_tick_inv s G : port_inv s G -> port_inv (register_tick s) G.
Proof. intros H. unfold register_tick. open_cmds. by frame_tac. Qed.

Lemma stepped_inv (c : cmd S) s G : port_inv (c s) G -> port_inv (snd (stepped c s)) G.
Proof. intros H. unfold stepped. cbn [snd]. by apply auth_step_inv. Qed.

Lemma control_inv c s (G : Prop) :
  port_inv s G -> port_inv (setter portControl (fun _ => c) s) (G \/ c = ForceAuthorized).
Proof.
  intros (H1 & H2 & H3). split; [exact H1|]. split; [exact H2|].
  destruct H3 as [(K1 & K2 & K3)|H3]; [|by right; left].
  destruct c; [left|by right; right|left]; (split; [exact K1|]; split; [discriminate|exact K3]).
Qed.

Lemma set_bool_inv (f : S -> bool) `{!Setter f} v s G :
  (forall b, pv (setter f (fun _ => b) s) = pv s /\ eap (setter f (fun _ => b) s) = eap s) ->
  port_inv s G -> port_inv (snd (set_bool f v s)) G.
Proof.
  intros Hf H. unfold set_bool. destruct (streq v _); [|destruct (streq v _); [|exact H]];
    apply stepped_inv; destruct (Hf true), (Hf false); by apply (frame_inv s).
Qed.

Lemma set_conf_inv p v s (G : Prop) :
  port_inv s G -> port_inv (snd (eapol_auth_set_conf p v s)) (G \/ grants_port (InConf p v) = true).
Proof.
  intros H. assert (Hk : forall s', port_inv s' G -> port_inv s' (G \/ grants_port (InConf p v) = true))
    by (intros s'; apply port_inv_weaken; tauto).
  unfold eapol_auth_set_conf.
  destruct (strcaseeq p (chars "AdminControlledDirections")).
  { apply Hk. destruct (streq v (chars "Both")); [|destruct (streq v (chars "In")); [|exact H]];
      apply stepped_inv; open_cmds; by frame_tac. }
  unfold grants_port. destruct (strcaseeq p (chars "AdminControlledPortControl")).
  { destruct (streq v (chars "ForceAuthorized")).
    - apply stepped_inv. open_cmds. eapply port_inv_weaken; [|by apply control_inv]. tauto.
    - destruct (streq v (chars "ForceUnauthorized")); [|destruct (streq v (chars "Auto"));
        [|eapply port_inv_weaken; [|exact H]; tauto]];
        apply stepped_inv; open_cmds; (eapply port_inv_weaken; [|apply control_inv, H]);
        (intros [Hg|Hc]; [by left|discriminate Hc]). }
  eapply port_inv_weaken; [intros Hg; left; exact Hg|].
  destruct (strcaseeq p (chars "quietPeriod")); [cbn [snd]; by frame_tac|].
  destruct (strcaseeq p (chars "serverTimeout")); [cbn [snd]; by frame_tac|].
  destruct (strcaseeq p (chars "reAuthPeriod")); [cbn [snd]; by frame_tac|].
  destruct (strcaseeq p (chars "reAuthEnabled")).
  { apply set_bool_inv; [|exact H]. intros b. split; [by frames pv|by frames (@eap E)]. }
  destruct (strcaseeq p (chars "KeyTransmissionEnabled")); [|exact H].
  apply set_bool_inv; [|exact H]. intros b. split; [by frames pv|by frames (@eap E)].
Qed.

Lemma engine_inv s (f : E -> E) G :
  (forall e, engine_valid e -> engine_valid (f e)) -> (forall e, engine_if (f e) = engine_if e) ->
  port_inv s G -> port_inv (setter eap f s) G.
Proof.
  intros Hv Hi. apply sound_inv_pv.
  - apply same_sound. transitivity (mk_pview (auth_pae_state s) (authPortStatus s) (last_port (out s))
      (authSuccess s) (portControl s) (eapSuccess (engine_if (f (eap s))))
      (eapRestart (engine_if (f (eap s))))); [reflexivity|]. by rewrite Hi.
  - intros H. apply (Hv (eap s)). exact H.
Qed.

Lemma wpa_var_pv var value s :
  pv (hostapd_wpa_auth_set_eapol var value s) =
  match var with WPA_EAPOL_portControl_Auto => mk_pview (auth_pae_state s) (authPortStatus s)
    (last_port (out s)) (authSuccess s) Auto (eapSuccess (eap_if s)) (eapRestart (eap_if s)) | _ => pv s end.
Proof.
  destruct var; cbn [hostapd_wpa_auth_set_eapol];
    unfold ieee802_1x_notify_port_enabled, ieee802_1x_notify_port_valid; open_cmds;
    rewrite ?step_pv; by repeat pv_step.
Qed.

Lemma wpa_var_tame var value s : tame s (hostapd_wpa_auth_set_eapol var value s).
Proof.
  destruct var; cbn [hostapd_wpa_auth_set_eapol];
    unfold ieee802_1x_notify_port_enabled, ieee802_1x_notify_port_valid; open_cmds; tame_tac.
Qed.

Lemma wpa_var_inv var value s G : port_inv s G -> port_inv (hostapd_wpa_auth_set_eapol var value s) G.
Proof.
  apply sound_inv; [|apply wpa_var_tame]. rewrite wpa_var_pv.
  destruct var; try apply sound_refl. split; [|by intros H].
  intros (H1 & _ & H3). split; [exact H1|]. by split.
Qed.

(** The cached key speaks for the station. *)
Lemma pmksa_station_inv entry s (G : Prop) : port_inv s G -> port_inv (pmksa_station entry s) True.
Proof.
  intros H. unfold pmksa_station, pmksa_cache_to_eapol_data. open_cmds.
  assert (Hc : forall s', port_inv s' True ->
    port_inv (match entry_cui entry with
              | Some c => setter radius_cui (fun _ => default None (wpabuf_dup (oom s') c)) s'
              | None => s' end) True).
  { intros s' H'. destruct (entry_cui entry); [by frame_tac|exact H']. }
  do 2 frame_tac. apply Hc. unfold when.
  set (s0 := setter eap engine_notify_cached _).
  assert (H0 : port_inv s0 True).
  { unfold s0. apply engine_inv; [apply engine_cached_valid|apply engine_cached_if|]. frame_tac.
    set (s1 := setter keyRun _ s).
    assert (H1 : port_inv s1 G) by (unfold s1; by frame_tac). clearbody s1.
    set (s2 := setter eap_if _ s1).
    assert (H2 : port_inv s2 G) by (unfold s2; apply set_if_inv; [by intros ?|exact H1]). clearbody s2.
    destruct H2 as (K1 & [K2 K3] & _). split; [exact K1|]. split; [|by right]. by split. }
  clearbody s0. destruct (non_null _); [by frame_tac|exact H0].
Qed.

Lemma event_port_inv i s (G : Prop) :
  in_ok i -> port_inv s G ->
  port_inv (eapol_event_run i s) (G \/ accepted (event_log i s) \/ grants_port i = true).
Proof.
  intros Hok H.
  assert (Hk : forall s' (G' : Prop), port_inv s' G -> port_inv s' (G \/ G'))
    by (intros s' G'; apply port_inv_weaken; tauto).
  destruct i; cbn [eapol_event_run event_log];
    [|apply Hk|apply Hk|apply Hk|apply Hk|apply Hk|apply Hk|apply Hk| |apply Hk|apply Hk|apply Hk|apply Hk|].
  - destruct (eloop_run_timeout (loop s)) as [[t l]|]; [|by apply Hk].
    assert (H1 : port_inv (setter loop (fun _ => l) s) G) by (by frame_tac).
    set (s1 := setter loop _ s) in *. clearbody s1.
    unfold serve. cbv zeta. destruct (is_tick (self s1) t).
    { rewrite tick_split. apply register_tick_inv. apply tick_timers_inv in H1.
      eapply port_inv_weaken; [|by apply step_run_inv]. tauto. }
    destruct (is_step (self s1) t); [|by apply Hk].
    eapply port_inv_weaken; [|by apply step_run_inv]. tauto.
  - by frame_tac.
  - by frame_tac.
  - apply auth_step_inv. open_cmds. apply set_if_inv; [by intros ?|exact H].
  - apply auth_step_inv. open_cmds. by frame_tac.
  - unfold ieee802_1x_notify_pre_auth. destruct b; open_cmds; by frame_tac.
  - apply auth_step_inv. open_cmds. by frame_tac.
  - apply auth_step_inv. open_cmds. apply engine_inv; [apply engine_pending_valid|apply engine_pending_if|done].
  - eapply port_inv_weaken; [|by apply set_conf_inv]. tauto.
  - apply auth_step_inv. open_cmds. apply engine_inv; [apply engine_clear_valid|apply engine_clear_if|].
    by frame_tac.
  - apply auth_step_inv. open_cmds. apply engine_inv; [apply engine_clear_valid|apply engine_clear_if|].
    by frame_tac.
  - apply auth_step_inv. open_cmds. cbn [in_ok] in Hok.
    assert (H1 : port_inv (setter eap_if g s) G) by (by apply set_if_inv).
    set (s1 := setter eap_if g s) in *. clearbody s1. unfold when.
    destruct rx; [by frame_tac|exact H1].
  - by apply wpa_var_inv.
  - eapply port_inv_weaken; [|by eapply pmksa_station_inv]. cbn [grants_port]. tauto.
Qed.

Lemma run_port_inv l s (G : Prop) :
  Forall in_ok l -> port_inv s G ->
  port_inv (eapol_run l s) (G \/ accepted (run_log l s) \/ existsb grants_port l = true).
Proof.
  revert s G. induction l as [|i l IH]; intros s G Hl H; cbn [eapol_run run_log existsb].
  { eapply port_inv_weaken; [|exact H]. tauto. }
  apply Forall_cons in Hl as [Hi Hl].
  eapply port_inv_weaken; [|by apply IH; [|apply event_port_inv]].
  rewrite accepted_app, orb_true_iff. tauto.
Qed.

(** ** Timers and the unused counter *)

Lemma six_steps_tame s : tame s (six_steps s).
Proof.
  assert (Ht : forall s1 s2 s3, tame s1 s2 -> tame s2 s3 -> tame s1 s3).
  { intros s1 s2 s3 (H1 & H2 & H3) (K1 & K2 & K3). split; [auto|]. split; [congruence|].
    intros Hc. rewrite K3; [by apply H3|]. by rewrite (tv_now _ _ (H3 Hc)). }
  assert (Hif : forall (c : cmd S) s1, (forall s, tame s (c s)) -> tame s1 (if_alive c s1)).
  { intros c s1 Hc. unfold if_alive, when. destruct (_ || _); [apply Hc|apply tame_refl]. }
  unfold six_steps. open_cmds.
  eapply Ht; [|apply Hif; intros; apply small_Steps_tame].
  eapply Ht; [|apply Hif; intros; apply small_Steps_tame].
  eapply Ht; [|apply Hif; intros; apply small_Steps_tame].
  eapply Ht; [|apply Hif; intros; apply small_Steps_tame].
  eapply Ht; [|apply Hif; intros; apply BE_Step_tame]. apply PAE_Step_tame.
Qed.

Lemma run_engine_tv s : tv (fst (run_engine s)) = tv s.
Proof.
  unfold run_engine. destruct (engine_step (eap s)) as [e ch]. cbv zeta. cbn [fst].
  destruct (engine_remediation _); by frames tv.
Qed.

Lemma step_run_tail_tv s : tv (step_run_tail s) = tv s.
Proof.
  unfold step_run_tail, emit. open_cmds. unfold when.
  repeat case_match; by frames tv.
Qed.

Lemma step_run_tv n s : clock_ok (now (loop s)) -> tv (step_run_loop n s) = tv s.
Proof.
  revert s. induction n as [|n IH]; intros s H; [reflexivity|].
  cbn [step_run_loop]. cbv zeta. pose proof (proj2 (proj2 (six_steps_tame s)) H) as H1.
  set (s' := six_steps s) in *. clearbody s'. rewrite <-H1.
  assert (Hagain : forall s1 : S, tv s1 = tv s' ->
    tv (match n with O => eapol_auth_step s1 | Datatypes.S _ => step_run_loop n s1 end) = tv s').
  { intros s1 H2. assert (Hc : clock_ok (now (loop s1))).
    { unfold tv in H1, H2. injection H1 as _ _ H1 _ _. injection H2 as _ _ H2 _ _. by rewrite H2, H1. }
    rewrite <-H2. destruct n as [|n']; [by apply step_tv|by apply IH]. }
  destruct (negb _); [by apply Hagain|]. destruct (alive s'); [|apply step_run_tail_tv].
  pose proof (run_engine_tv s') as H2. destruct (run_engine s') as [s2 ch]. cbn [fst] in H2.
  destruct ch; [by apply Hagain|]. by rewrite step_run_tail_tv.
Qed.

(** One tick is registered, and nothing has counted the counter. *)
Definition timed (s : S) : Prop :=
  clock_ok (now (loop s)) /\ ticks (self s) (loop s) = 1%nat /\
  authEntersAuthenticating (pae_count s) = 0.

Lemma timed_eq s s' : tv s' = tv s -> timed s -> timed s'.
Proof. unfold tv, timed. by intros [= _ -> -> -> ->]. Qed.

Lemma step_timed s : timed s -> timed (eapol_auth_step s).
Proof. intros H. apply (timed_eq s); [apply step_tv, H|exact H]. Qed.

(** The tick has been served or cancelled. *)
Definition untimed (s : S) : Prop :=
  clock_ok (now (loop s)) /\ ticks (self s) (loop s) = 0%nat /\
  authEntersAuthenticating (pae_count s) = 0.

Lemma untimed_eq s s' : tv s' = tv s -> untimed s -> untimed s'.
Proof. unfold tv, untimed. by intros [= _ -> -> -> ->]. Qed.

Lemma register_tick_tv s :
  clock_ok (now (loop s)) ->
  tv (register_tick s) = (alive s, self s, now (loop s), Datatypes.S (ticks (self s) (loop s)),
    authEntersAuthenticating (pae_count s)).
Proof.
  intros H. unfold register_tick. open_cmds. rewrite loop_tv. unfold clock_ok in H.
  destruct (register_ticks 1 eapol_port_timers_tick_h 0 (self s) (self s) (loop s)) as [-> ->]; [lia..|].
  rewrite bool_decide_true by reflexivity. rewrite !Z.eqb_refl. reflexivity.
Qed.

Lemma register_tick_timed s : untimed s -> timed (register_tick s).
Proof.
  intros (H1 & H2 & H3). pose proof (register_tick_tv s H1) as Hv.
  set (s1 := register_tick s) in *. clearbody s1. unfold tv in Hv.
  injection Hv as _ K2 K3 K4 K5. unfold timed. rewrite K3, K4, K5, H2. by split.
Qed.

Lemma tick_timers_tv s : tv (tick_timers s) = tv s.
Proof. unfold tick_timers. open_cmds. by frames tv. Qed.

Lemma set_bool_timed (f : S -> bool) `{!Setter f} v s :
  (forall b, tv (setter f (fun _ => b) s) = tv s) -> timed s -> timed (snd (set_bool f v s)).
Proof.
  intros Hf H. unfold set_bool, stepped. destruct (streq v _); [|destruct (streq v _); [|exact H]];
    cbn [snd]; apply step_timed; (apply (timed_eq s); [apply Hf|exact H]).
Qed.

Lemma set_conf_timed p v s : timed s -> timed (snd (eapol_auth_set_conf p v s)).
Proof.
  intros H. unfold eapol_auth_set_conf.
  assert (Hk : forall s', tv s' = tv s -> timed (snd (0, s'))) by (intros s' K; by apply (timed_eq s)).
  assert (Hs : forall s', tv s' = tv s -> timed (snd (0, eapol_auth_step s')))
    by (intros s' K; cbn [snd]; apply step_timed; by apply (timed_eq s)).
  destruct (strcaseeq p (chars "AdminControlledDirections")).
  { destruct (streq v (chars "Both")); [|destruct (streq v (chars "In")); [|exact H]];
      apply Hs; open_cmds; by frames tv. }
  destruct (strcaseeq p (chars "AdminControlledPortControl")).
  { destruct (streq v (chars "ForceAuthorized")); [|destruct (streq v (chars "ForceUnauthorized"));
      [|destruct (streq v (chars "Auto")); [|exact H]]]; apply Hs; open_cmds; by frames tv. }
  destruct (strcaseeq p (chars "quietPeriod")); [apply Hk; by frames tv|].
  destruct (strcaseeq p (chars "serverTimeout")); [apply Hk; by frames tv|].
  destruct (strcaseeq p (chars "reAuthPeriod")); [apply Hk; by frames tv|].
  destruct (strcaseeq p (chars "reAuthEnabled")); [apply set_bool_timed; [|exact H]; intros b; by frames tv|].
  destruct (strcaseeq p (chars "KeyTransmissionEnabled")); [|exact H].
  apply set_bool_timed; [|exact H]. intros b. by frames tv.
Qed.

Lemma pop_ticks (s : S) t l :
  eloop_run_timeout (loop s) = Some (t, l) ->
  now l = now (loop s) /\
  ticks (self s) (loop s) = ((if is_tick (self s) t then 1 else 0) + ticks (self s) l)%nat.
Proof.
  unfold eloop_run_timeout, ticks. destruct (timeout (loop s)) as [|u k]; [discriminate|].
  destruct (negb _); [|discriminate]. intros [= <- <-]. split; [done|].
  cbn [List.filter timeout set_timeout]. by destruct (is_tick (self s) u).
Qed.

Lemma dispatch_timed s : timed s -> timed (eapol_event_run InDispatch s).
Proof.
  intros (H1 & H2 & H3). cbn [eapol_event_run].
  destruct (eloop_run_timeout (loop s)) as [[t l]|] eqn:El; [|by split].
  destruct (pop_ticks s t l El) as [Hn Ht]. rewrite Ht in H2.
  assert (Hv := loop_tv s (fun _ => l)). cbv beta in Hv.
  set (s1 := setter loop _ s) in *. clearbody s1. unfold tv in Hv. injection Hv as _ K2 K3 K4 K5.
  unfold serve. rewrite K2. destruct (is_tick (self s) t); cbn [Nat.add] in H2.
  { rewrite tick_split. apply register_tick_timed. apply (untimed_eq s1).
    - unfold eapol_sm_step_run. rewrite <-(tick_timers_tv s1). apply step_run_tv.
      rewrite (tv_now _ _ (tick_timers_tv s1)), K3, Hn. exact H1.
    - unfold untimed. rewrite K3, K4, K5, Hn. repeat split; try apply H1; lia. }
  assert (Hs1 : timed s1) by (unfold timed; rewrite K3, K4, K5, Hn; repeat split; try apply H1; lia).
  destruct (is_step (self s) t); [|exact Hs1].
  apply (timed_eq s1); [|exact Hs1]. apply step_run_tv. apply Hs1.
Qed.

Lemma event_timed i s : in_ok i -> timed s -> timed (eapol_event_run i s).
Proof.
  intros Hok H.
  assert (Hk : forall s', tv s' = tv s -> timed s') by (intros s' K; by apply (timed_eq s)).
  assert (Hs : forall s', tv s' = tv s -> timed (eapol_auth_step s')) by (intros s' K; apply step_timed; auto).
  destruct i; cbn [eapol_event_run].
  - by apply dispatch_timed.
  - cbn [in_ok] in Hok. destruct H as (_ & H2 & H3).
    assert (Hv := loop_tv s (fun l => mk_eloop t (timeout l))). cbv beta in Hv.
    set (s1 := setter loop _ s) in *. clearbody s1. unfold tv in Hv. injection Hv as _ K2 K3 K4 K5.
    unfold timed. rewrite K3, K4, K5. repeat split; try apply Hok; [exact H2|exact H3].
  - exact H.
  - apply Hs. open_cmds. by frames tv.
  - apply Hs. open_cmds. by frames tv.
  - unfold ieee802_1x_notify_pre_auth. destruct b; apply Hk; open_cmds; by frames tv.
  - apply Hs. open_cmds. by frames tv.
  - apply Hs. open_cmds. by frames tv.
  - by apply set_conf_timed.
  - apply Hs. open_cmds. by frames tv.
  - apply Hs. open_cmds. by frames tv.
  - apply Hs. open_cmds. unfold when. destruct rx; by frames tv.
  - apply Hk. apply (wpa_var_tame var value s). apply H.
  - apply Hk. unfold pmksa_station, pmksa_cache_to_eapol_data. open_cmds. unfold when.
    destruct (entry_cui entry), (non_null (entry_identity entry)); by frames tv.
Qed.

Lemma run_timed l s : Forall in_ok l -> timed s -> timed (eapol_run l s).
Proof.
  intros Hl. revert s. induction Hl as [|i l Hi Hl IH]; intros s H; cbn [eapol_run]; [exact H|].
  apply IH. by apply event_timed.
Qed.

(** ** Creation *)

Lemma dead_log n s : alive s = false -> step_run_log n s = [].
Proof.
  revert s. induction n as [|n IH]; intros s H; [done|]. cbn [step_run_log]. cbv zeta.
  assert (Ha : alive (six_steps s) = false).
  { by rewrite (proj1 (proj2 (six_steps_tame s))). }
  set (s' := six_steps s) in *. clearbody s'. rewrite Ha. destruct (negb _); [by apply IH|done].
Qed.

Lemma dead_run_inv n s G :
  alive s = false -> port_inv s G -> port_inv (step_run_loop n s) G.
Proof.
  intros Ha H. apply (step_run_inv n) in H. rewrite dead_log in H by exact Ha.
  eapply port_inv_weaken; [|exact H]. intros [Hg|(e & He & _)]; [exact Hg|destruct He].
Qed.
Lemma alloc_port_inv a sta fl e p lp mem :
  engine_valid e -> eapSuccess (engine_if e) = false -> port_inv (alloc_state a sta fl e p lp mem) False.
Proof.
  intros H1 H2. split; [exact H1|]. split; [by split|]. left. split; [discriminate|].
  split; [discriminate|]. exact I.
Qed.

(** What creation keeps. *)
Definition starting (s : S) : Prop :=
  port_inv s False /\ alive s = false /\ clock_ok (now (loop s)) /\
  authEntersAuthenticating (pae_count s) = 0.

Lemma starting_run s : starting s -> starting (eapol_sm_step_run s).
Proof.
  intros (H1 & H2 & H3 & H4). unfold eapol_sm_step_run.
  pose proof (dead_run_inv 100 s False H2 H1) as Hi. pose proof (step_run_tv 100 s H3) as K.
  set (s1 := step_run_loop 100 s) in *. clearbody s1. unfold tv in K.
  injection K as K1 _ K3 _ K5. unfold starting. rewrite K1, K3, K5. done.
Qed.

Lemma starting_eq s s' :
  pv s' = pv s -> eap s' = eap s -> tv s' = tv s -> starting s -> starting s'.
Proof.
  intros H1 H2 H3 (K1 & K2 & K3 & K4). unfold tv in H3. injection H3 as H3 _ H4 _ H5.
  unfold starting. rewrite H3, H4, H5. split; [by apply (frame_inv s)|done].
Qed.

Ltac start_tac :=
  match goal with |- starting (setter ?f _ ?s) =>
    apply (starting_eq s); [exact (frame pv f _ _ s)|exact (frame (@eap E) f _ _ s)|exact (frame tv f _ _ s)|]
  end.

Lemma cancel_ticks s :
  tv (cancel_tick s) = (alive s, self s, now (loop s), 0%nat, authEntersAuthenticating (pae_count s)).
Proof.
  unfold cancel_tick. open_cmds. rewrite loop_tv. do 2 f_equal. unfold ticks, is_tick.
  by rewrite cancelled_gone.
Qed.

Lemma initialize_ready s :
  starting s -> port_inv (eapol_auth_initialize s) False /\ timed (eapol_auth_initialize s).
Proof.
  intros H. unfold eapol_auth_initialize. open_cmds.
  match goal with |- port_inv (register_tick (cancel_tick ?x)) _ /\ _ => set (s5 := x) end.
  assert (H5 : starting s5).
  { unfold s5. start_tac. apply starting_run. start_tac. apply starting_run.
    do 2 start_tac. exact H. }
  clearbody s5. destruct H5 as (K1 & _ & K3 & K4). split.
  - apply register_tick_inv. unfold cancel_tick. open_cmds. by frame_tac.
  - apply register_tick_timed. pose proof (cancel_ticks s5) as K. set (s6 := cancel_tick s5) in *. clearbody s6.
    unfold tv in K. injection K as _ L2 L3 L4 L5. unfold untimed. rewrite L3, L4, L5, K4. done.
Qed.

Lemma alloc_ready a sta fl w1 w2 id cui rnd p lp mem s lp' :
  clock_ok (now lp) ->
  eapol_auth_alloc a sta fl w1 w2 id cui rnd p lp mem = (Some s, lp') -> port_inv s False /\ timed s.
Proof.
  intros Hc. unfold eapol_auth_alloc. destruct a as [a|]; [|discriminate]. destruct mem; [discriminate|].
  destruct (engine_init _) as [e|] eqn:Ee; [|discriminate]. cbv zeta.
  destruct (engine_init_valid _ _ Ee) as [Hv Hs].
  assert (H0 : starting (alloc_state a sta fl e p lp false)).
  { split; [by apply alloc_port_inv|]. split; [reflexivity|]. split; [exact Hc|reflexivity]. }
  destruct (initialize_ready _ H0) as [H1 H2].
  set (s1 := eapol_auth_initialize _) in *. clearbody s1. destruct rnd as [r|]; [|discriminate].
  intros [= <- _]. split.
  - destruct id, cui; repeat frame_tac; exact H1.
  - destruct id, cui; (eapply timed_eq; [|exact H2]); by frames tv.
Qed.

End port.
