(* ===== verification/EapolEap.v ===== *)
(** * The EAP server as the engine of the IEEE 802.1X authenticator

    The authenticator of EapolAuth.v runs the EAP server of EapServer.v
    through the interface [EapEngine]; here the server implements it, with the
    laws of [EapEngineLaws] proved: a success becomes usable only in a step
    that had the authority to report one. *)

From S2P Require Import Prelude.
From S2P Require Import Eloop.
From S2P Require Import EapolAuth.
From S2P Require Import EapolPort.
From S2P Require Import Wpabuf.
From S2P Require Import Common.
From S2P Require Import EapCommon.
From S2P Require Import EapServer.
From S2P Require Import EapControl.
From S2P Require Import EapSafety.
From S2P Require Import EapAuthority.
From S2P Require Import EapProperties.

Section engine.
Context {M P : Type} `{EM : !EapMethods M P, CB : !EapolCallbacks, EC : !ErpCrypto}.
Context `{ML : !EapMethodLaws}.
Abbreviation sm := (eap_sm M P).
Implicit Types s : sm.

(** The states [eap_server_sm_step] steps from. *)
Fixpoint step_states (n : nat) s : list sm :=
  match n with
  | O => []
  | Datatypes.S n =>
      let s := setter changed (fun _ => false) s in
      let s' := EAP_Step s in
      s :: (if changed s' then step_states n s' else [])
  end.

(** The machine has the authority to report success: the selected method has
    succeeded, the authentication server has accepted the peer, or an ERP
    message is fresh and authentic. *)
Definition eap_authority s : Prop :=
  (EAP_state s = EAP_SELECT_ACTION /\ method_succeeded s) \/
  (EAP_state s = EAP_AAA_IDLE /\ aaaSuccess (eap_if s) = true /\ aaaFail (eap_if s) = false) \/
  (eap_server s = true /\ rxInitiate s = true /\ erp_authentic s).

Definition needs_remediation s : bool :=
  match user s with Some u => remediation u | None => false end.

(** [e0]: the environment a new server starts in. *)
Definition eap_engine (e0 : eap_env) : EapEngine sm := {|
  engine_if := eap_if;
  engine_update := setter eap_if;
  engine_step s := default (s, false) (eap_server_sm_step step_fuel s);
  engine_pending_cb := eap_sm_pending_cb;
  engine_clear_identity := eap_server_clear_identity;
  engine_notify_cached := eap_sm_notify_cached;
  engine_init c := eap_server_sm_init c e0;
  engine_remediation s :=
    match eap_server_sm_step step_fuel s with
    | Some (s', _) => existsb needs_remediation (step_states step_fuel s ++ [s'])
    | None => false
    end
|}.

(** The default of [engine_step] is never used. *)
Lemma engine_step_eq e0 s :
  eap_server_sm_step step_fuel s = Some (engine_step (EapEngine := eap_engine e0) s).
Proof.
  cbn [engine_step eap_engine]. destruct (sm_step_ends s step_fuel (le_n _)) as [q ->]. reflexivity.
Qed.

Lemma justified_frame s s' :
  selection s' = selection s -> EAP_state s' = EAP_state s -> decision s' = decision s ->
  decision_justified s -> decision_justified s'.
Proof.
  intros H1 H2 H3 Hj E1 E2. apply (succeeded_selection s s' H1). apply Hj; congruence.
Qed.

Lemma Step_usable s :
  decision_justified s -> usable (eap_if (EAP_Step s)) = true -> usable (eap_if s) = true \/ eap_authority s.
Proof.
  intros Hj Hu. unfold usable in *. apply andb_prop in Hu as [H1 H2].
  destruct (Step_outcome s) as [(Hq & _ & Hr)|Ho]; [|left; by rewrite Ho in H1, H2; rewrite H1, H2].
  destruct Hq as [Hq|[[E D]|Ha]]; [|right; left; split; [exact E|exact (Hj E D)]|right; right; exact Ha].
  left. pose proof (Hq H1) as Hs. destruct Hr as [Hr|[_ Hr]].
  - injection Hr as Hr _. rewrite Hr in H2. unfold success in Hs. by rewrite Hs, H2.
  - unfold success in Hr. rewrite Hr in H1. discriminate H1.
Qed.

Lemma Step_restart s : eapRestart (eap_if s) = false -> eapRestart (eap_if (EAP_Step s)) = false.
Proof.
  intros H. destruct (Step_outcome s) as [(_ & _ & [Hr|[Hr _]])|Ho]; unfold asked in *; congruence.
Qed.

Lemma Step_port s : portEnabled (eap_if (EAP_Step s)) = portEnabled (eap_if s).
Proof.
  destruct (Step_outcome s) as [(_ & _ & [Hr|[Hr _]])|Ho]; unfold asked in *; congruence.
Qed.

(** An enabled port serves the restart it is asked for. *)
Lemma Step_restarted s : portEnabled (eap_if s) = true -> eapRestart (eap_if (EAP_Step s)) = false.
Proof.
  intros Hp. destruct (eapRestart (eap_if s)) eqn:Er; [|by apply Step_restart].
  unfold EAP_Step. rewrite Er, Hp. cbn [andb]. destruct (INITIALIZE_ctl true s) as (i & H & Hr & _).
  by rewrite ctl_if, H.
Qed.

Definition authorised (n : nat) s : Prop := exists s', List.In s' (step_states n s) /\ eap_authority s'.

Lemma sm_step_engine n p q :
  decision_justified (fst p) ->
  do_while sm_step_body (fun p => changed (fst p)) n p = Some q ->
  decision_justified (fst q) /\
  (usable (eap_if (fst q)) = true -> usable (eap_if (fst p)) = true \/ authorised n (fst p)).
Proof.
  revert p. induction n as [|n IH]; intros p Hj H; [discriminate|]. cbn [do_while] in H.
  unfold authorised. cbn [step_states]. cbv zeta.
  assert (Hb : fst (sm_step_body p) = EAP_Step (setter changed (fun _ => false) (fst p))) by reflexivity.
  set (s1 := setter changed _ (fst p)) in *.
  assert (H1 : decision_justified s1) by (by apply (justified_frame (fst p))).
  assert (Hi : eap_if s1 = eap_if (fst p)) by reflexivity.
  clearbody s1. rewrite <-Hi. pose proof (Step_justified s1 H1) as H2.
  pose proof (Step_usable s1 H1) as H3. rewrite <-Hb in *.
  set (p1 := sm_step_body p) in *. clearbody p1. destruct (changed (fst p1)) eqn:Ec.
  - destruct (IH p1 H2 H) as (K1 & K2). split; [exact K1|].
    intros Hu. destruct (K2 Hu) as [Hp|(s' & Hs & Ha)].
    + destruct (H3 Hp) as [|Ha]; [by left|right]. exists s1. split; [by left|exact Ha].
    + right. exists s'. split; [by right|exact Ha].
  - injection H as <-. split; [exact H2|].
    intros Hu. destruct (H3 Hu) as [|Ha]; [by left|right]. exists s1. split; [by left|exact Ha].
Qed.

(** The last law needs no validity: a restart is never asked for. *)
Lemma loop_restart n p q :
  do_while sm_step_body (fun p => changed (fst p)) n p = Some q ->
  eapRestart (eap_if (fst p)) = false -> eapRestart (eap_if (fst q)) = false.
Proof.
  intros H Hp. apply (do_while_inv _ _ (fun p : sm * bool => eapRestart (eap_if (fst p)) = false)) in H;
    [exact H|exact Hp|].
  intros p1 H1. unfold sm_step_body. cbn [fst].
  apply (Step_restart (setter changed (fun _ => false) (fst p1))). exact H1.
Qed.

Lemma loop_port n p q :
  do_while sm_step_body (fun p => changed (fst p)) n p = Some q ->
  portEnabled (eap_if (fst q)) = portEnabled (eap_if (fst p)).
Proof.
  intros H. apply (do_while_inv _ _ (fun p' : sm * bool =>
    portEnabled (eap_if (fst p')) = portEnabled (eap_if (fst p)))) in H; [exact H|reflexivity|].
  intros p1 H1. unfold sm_step_body. cbn [fst].
  rewrite (Step_port (setter changed (fun _ => false) (fst p1))). exact H1.
Qed.

Lemma loop_restarted n p q :
  do_while sm_step_body (fun p => changed (fst p)) n p = Some q ->
  portEnabled (eap_if (fst p)) = true -> eapRestart (eap_if (fst q)) = false.
Proof.
  destruct n as [|n]; [discriminate|]. cbn [do_while]. intros H Hp.
  pose proof (Step_restarted (setter changed (fun _ => false) (fst p))) as H1.
  assert (Hi : eap_if (setter changed (fun _ => false) (fst p)) = eap_if (fst p)) by reflexivity.
  rewrite Hi in H1. specialize (H1 Hp). clear Hi.
  change (eapRestart (eap_if (fst (sm_step_body p))) = false) in H1.
  destruct (changed (fst (sm_step_body p))); [exact (loop_restart _ _ _ H H1)|]. by injection H as <-.
Qed.

Lemma sm_step_spec n s q :
  eap_server_sm_step n s = Some q ->
  (eapRestart (eap_if s) = false -> eapRestart (eap_if (fst q)) = false) /\
  (decision_justified s ->
   decision_justified (fst q) /\
   (usable (eap_if (fst q)) = true -> usable (eap_if s) = true \/ authorised n s)).
Proof.
  unfold eap_server_sm_step. set (p := (s, false)). intros H. split.
  - exact (loop_restart n p q H).
  - intros Hj. destruct (sm_step_engine n p q Hj H) as (H1 & H2). by split.
Qed.

Definition eap_engine_laws (e0 : eap_env) : EapEngineLaws sm (EapEngine0 := eap_engine e0).
Proof.
  unshelve refine {| engine_valid := decision_justified; engine_accepts := authorised step_fuel |};
    cbn [engine_if engine_update engine_init engine_pending_cb engine_clear_identity eap_engine].
  - reflexivity.
  - intros c s. unfold eap_server_sm_init. destruct (oom e0); [discriminate|].
    intros [= <-]. split; [intros E; discriminate E|reflexivity].
  - intros g s. by apply justified_frame.
  - intros s. unfold eap_sm_pending_cb. open_cmds. unfold when. destruct (pending_is _ s); [|done].
    by apply justified_frame.
  - intros s. unfold eap_sm_pending_cb. open_cmds. unfold when. by destruct (pending_is _ s).
  - intros s. by apply justified_frame.
  - reflexivity.
  - intros s _ E. discriminate E.
  - reflexivity.
  - intros s Hj. apply (sm_step_spec _ s _ (engine_step_eq e0 s)), Hj.
  - intros s Hj. apply (sm_step_spec _ s _ (engine_step_eq e0 s)), Hj.
  - intros s. apply (sm_step_spec _ s _ (engine_step_eq e0 s)).
Defined.

(** What the port and a restart see of [eap_server_sm_step]. *)
Lemma sm_step_asked n s q :
  eap_server_sm_step n s = Some q ->
  portEnabled (eap_if (fst q)) = portEnabled (eap_if s) /\
  (portEnabled (eap_if s) = true -> eapRestart (eap_if (fst q)) = false).
Proof.
  unfold eap_server_sm_step. set (p := (s, false)). intros H. split.
  - exact (loop_port n p q H).
  - exact (loop_restarted n p q H).
Qed.
End engine.
