(* ===== verification/EapolProperties.v ===== *)
(** * The IEEE 802.1X authenticator: its properties

    Theorems about every authenticator [eapol_auth_alloc] creates, under any
    sequence of events; the last part puts the EAP server of EapServer.v
    underneath, and runs a peer's login through both. *)

From Stdlib Require Import String.
From S2P Require Import Prelude.
From S2P Require Import Wpabuf.
From S2P Require Import Common.
From S2P Require Import EapCommon.
From S2P Require Import EapServer.
From S2P Require Import EapControl.
From S2P Require Import EapSafety.
From S2P Require Import EapMethods.
From S2P Require Import EapProperties.
From S2P Require Import EapolEap.
From S2P Require Import Eloop.
From S2P Require Import EapolAuth.
From S2P Require Import EapolPort.

Section properties.
Context {E : Type} `{EE : !EapEngine E, EL : !EapEngineLaws E}.
Implicit Types s : eapol_sm E.

(** A new authenticator, and what happened to it. *)
Definition eapol_new (p : Z) (lp : eloop_data eapol_handler) s : Prop :=
  clock_ok (now lp) /\
  exists a sta fl w1 w2 id cui rnd mem lp',
    eapol_auth_alloc a sta fl w1 w2 id cui rnd p lp mem = (Some s, lp').

Lemma new_ready p lp s : eapol_new p lp s -> port_inv s False /\ timed s.
Proof.
  intros (Hc & a & sta & fl & w1 & w2 & id & cui & rnd & mem & lp' & H).
  by eapply alloc_ready.
Qed.

(** From a state in which the port is shut, an open port needs an acceptance
    or such an event. *)
Lemma port_authority p lp s l1 l2 :
  eapol_new p lp s -> Forall in_ok (l1 ++ l2) ->
  let s1 := eapol_run l1 s in
  closed (pv s) /\
  (closed (pv s1) -> authPortStatus (eapol_run l2 s1) = Some Authorized ->
   accepted (run_log l2 s1) \/ existsb grants_port l2 = true).
Proof.
  intros Hn Hl. apply Forall_app in Hl as [Hl1 Hl2]. apply new_ready in Hn as [Hn _]. cbv zeta.
  split; [destruct Hn as (_ & _ & [Hc|[]]); exact Hc|].
  assert (H1 : port_inv (eapol_run l1 s) True).
  { eapply port_inv_weaken; [|by apply run_port_inv]. done. }
  intros Hs Ho. set (s1 := eapol_run l1 s) in *.
  assert (H2 : port_inv s1 False) by (destruct H1 as (K1 & K2 & _); split; [exact K1|]; split; [exact K2|by left]).
  clearbody s1. apply (run_port_inv l2) in H2 as (_ & _ & [Hc|Hg]); [|tauto|exact Hl2].
  by destruct Hc as [Hc _].
Qed.

(** C9: The lower layer was last told the port status that the machine has,
    and the states of the PAE agree with it: closed in DISCONNECTED, HELD and
    FORCE_UNAUTH, open in AUTHENTICATED and FORCE_AUTH. *)
Theorem eapol_port_coherent p lp s l :
  eapol_new p lp s -> Forall in_ok l ->
  let s' := eapol_run l s in
  last_port (out s') = option_map (fun st => bool_decide (st = Authorized)) (authPortStatus s') /\
  match auth_pae_state s' with
  | AUTH_PAE_DISCONNECTED | AUTH_PAE_HELD | AUTH_PAE_FORCE_UNAUTH =>
      authPortStatus s' = Some Unauthorized
  | AUTH_PAE_AUTHENTICATED | AUTH_PAE_FORCE_AUTH => authPortStatus s' = Some Authorized
  | _ => True
  end.
Proof.
  intros Hn Hl. apply new_ready in Hn as [Hn _]. cbv zeta.
  apply (run_port_inv l) in Hn as (_ & H & _); [|exact Hl]. exact H.
Qed.


(** [authEntersAuthenticating] is never counted: it stays zero. *)
Theorem eapol_authenticating_uncounted p lp s l :
  eapol_new p lp s -> Forall in_ok l ->
  authEntersAuthenticating (pae_count (eapol_run l s)) = 0.
Proof.
  intros Hn Hl. apply new_ready in Hn as [_ Hn].
  by apply (run_timed l) in Hn as (_ & _ & H).
Qed.
End properties.

(** ** The configuration *)

(** A buffer of exactly its length, or none; a string without its NUL. *)
Definition exactly (len : Z) (d : option (list Z)) : Prop :=
  match d with Some d => zlen d = len | None => True end.
Definition no_nul (d : option (list Z)) : Prop :=
  match d with Some d => Forall (fun c => c <> 0) d | None => True end.

Definition conf_normal (c : eapol_auth_config) : Prop :=
  let p := conf_eap c in
  exactly (eap_req_id_text_len c) (eap_req_id_text c) /\
  (eap_req_id_text c = None -> eap_req_id_text_len c = 0) /\
  exactly 16 (pac_opaque_encr_key p) /\ exactly (eap_fast_a_id_len p) (eap_fast_a_id p) /\
  (eap_fast_a_id p = None -> eap_fast_a_id_len p = 0) /\
  no_nul (eap_fast_a_id_info p) /\ no_nul (erp_domain c) /\
  assoc_wps_ie p = None /\ assoc_p2p_ie p = None.

Lemma c_string_no_nul d : Forall (fun c => c <> 0) d -> c_string d = d.
Proof.
  induction 1 as [|c d Hc _ IH]; [done|]. cbn [c_string].
  rewrite (proj2 (Z.eqb_neq _ _)) by exact Hc. by rewrite IH.
Qed.

Lemma c_string_clean d : Forall (fun c => c <> 0) (c_string d).
Proof.
  induction d as [|c d IH]; cbn [c_string]; [constructor|].
  destruct (Z.eqb_spec c 0); [constructor|by constructor].
Qed.

Lemma clone_data_self len (d : option (list Z)) : exactly len d -> clone_data false len d = Some d.
Proof.
  destruct d as [d|]; [|done]. intros H. unfold exactly, zlen in H. unfold clone_data.
  rewrite firstn_all2; [done|lia].
Qed.

Lemma clone_str_self (d : option (list Z)) : no_nul d -> clone_str false d = Some d.
Proof. destruct d as [d|]; [|done]. intros H. unfold clone_str. by rewrite c_string_no_nul. Qed.

Definition enough (len : Z) (d : option (list Z)) : Prop :=
  match d with Some d => 0 <= len <= zlen d | None => True end.

Lemma clone_data_exactly len (d : option (list Z)) :
  enough len d -> exists d', clone_data false len d = Some d' /\ exactly len d' /\ (d' = None <-> d = None).
Proof.
  destruct d as [d|]; intros H; [|by exists None]. eexists. split; [reflexivity|].
  split; [unfold exactly, enough, zlen in *; rewrite length_take; lia|by split].
Qed.

Lemma clone_str_clean (d : option (list Z)) : exists d', clone_str false d = Some d' /\ no_nul d'.
Proof.
  destruct d as [d|]; [|by exists None]. eexists. split; [reflexivity|]. apply c_string_clean.
Qed.

Lemma exactly_len len (d' : option (list Z)) :
  exactly len d' -> exactly (if non_null d' then len else 0) d' /\
  (d' = None -> (if non_null d' then len else 0) = 0).
Proof. destruct d'; by split. Qed.

Lemma clone_self c : conf_normal c -> eapol_auth_conf_clone false c = Some c.
Proof.
  intros (H1 & H2 & H3 & H4 & H5 & H6 & H7 & H8 & H9). destruct c as [? ? ? ? text len ? dom ? p].
  destruct p. cbn in *. unfold eapol_auth_conf_clone. cbn.
  rewrite clone_data_self by done. rewrite clone_data_self by done. rewrite clone_data_self by done.
  rewrite !clone_str_self by done. subst. f_equal. f_equal.
  - destruct text; [done|]. symmetry. by apply H2.
  - f_equal. destruct eap_fast_a_id; [done|]. symmetry. by apply H5.
Qed.

Lemma clone_normal src :
  enough (eap_req_id_text_len src) (eap_req_id_text src) ->
  enough 16 (pac_opaque_encr_key (conf_eap src)) ->
  enough (eap_fast_a_id_len (conf_eap src)) (eap_fast_a_id (conf_eap src)) ->
  exists c, eapol_auth_conf_clone false src = Some c /\ conf_normal c.
Proof.
  intros H1 H2 H3. unfold eapol_auth_conf_clone.
  destruct (clone_data_exactly _ _ H1) as (text & -> & T & _).
  destruct (clone_data_exactly _ _ H2) as (pac & -> & T2 & _).
  destruct (clone_data_exactly _ _ H3) as (a_id & -> & T3 & _).
  destruct (clone_str_clean (eap_fast_a_id_info (conf_eap src))) as (info & -> & T4).
  destruct (clone_str_clean (erp_domain src)) as (dom & -> & T5).
  eexists. split; [reflexivity|]. unfold conf_normal. cbn.
  destruct (exactly_len _ text T), (exactly_len _ a_id T3). by repeat (split; [assumption|]).
Qed.

(** The configuration an authenticator works with is a faithful copy: of
    a configuration whose buffers have the lengths it says, the clone is
    normal, is the configuration itself if that is normal, and its own clone;
    and cloning fails exactly when the memory is exhausted and there is a
    buffer to copy. *)
Theorem eapol_conf_clone_exact src :
  enough (eap_req_id_text_len src) (eap_req_id_text src) ->
  enough 16 (pac_opaque_encr_key (conf_eap src)) ->
  enough (eap_fast_a_id_len (conf_eap src)) (eap_fast_a_id (conf_eap src)) ->
  (exists c, eapol_auth_conf_clone false src = Some c /\ conf_normal c /\
     eapol_auth_conf_clone false c = Some c /\ (conf_normal src -> c = src)) /\
  (eapol_auth_conf_clone true src = None <->
   eap_req_id_text src <> None \/ pac_opaque_encr_key (conf_eap src) <> None \/
   eap_fast_a_id (conf_eap src) <> None \/ eap_fast_a_id_info (conf_eap src) <> None \/
   erp_domain src <> None).
Proof.
  intros H1 H2 H3. split.
  - destruct (clone_normal src H1 H2 H3) as (c & Hc & Hn). exists c.
    split; [exact Hc|]. split; [exact Hn|]. split; [by apply clone_self|].
    intros H. apply clone_self in H. congruence.
  - clear H1 H2 H3. unfold eapol_auth_conf_clone, clone_data, clone_str.
    destruct (eap_req_id_text src), (pac_opaque_encr_key (conf_eap src)),
      (eap_fast_a_id (conf_eap src)), (eap_fast_a_id_info (conf_eap src)), (erp_domain src);
      intuition congruence.
Qed.

(** ** The EAP server underneath *)

Section composition.
Context {M P : Type} `{EM : !EapMethods M P, CB : !EapolCallbacks, EC : !ErpCrypto}.
Context `{ML : !EapMethodLaws}.

(** C7: With the EAP server of EapServer.v underneath, a new authenticator's
    port is shut; and whenever the port is shut and later found open, the
    server has in between gone through a state in which the selected method
    (never Identity) had succeeded, the authentication server had accepted the
    peer, or a fresh and authentic Re-auth message was held -- or the port was
    opened by configuration or for a cached key.  A success from before a restart does not count. *)
Theorem eapol_eap_authority e0 p lp s l1 l2 :
  let EE := eap_engine e0 in
  eapol_new p lp s -> Forall in_ok (l1 ++ l2) ->
  let s1 := eapol_run l1 s in
  closed (pv s) /\
  (closed (pv s1) -> authPortStatus (eapol_run l2 s1) = Some Authorized ->
   (exists e e', List.In e (run_log l2 s1) /\ List.In e' (step_states step_fuel e) /\ eap_authority e') \/
   existsb grants_port l2 = true).
Proof.
  cbv zeta. intros Hn Hl.
  destruct (port_authority (EL := eap_engine_laws e0) p lp s l1 l2 Hn Hl) as [Hc H]. split; [exact Hc|].
  intros Hs Ho. destruct (H Hs Ho) as [(e & He & e' & H1 & H2)|Hf]; [left|by right].
  exists e, e'. by split.
Qed.
End composition.

(** ** Witnesses *)

Definition demo_authenticator : eapol_authenticator :=
  mk_eapol (mk_eapol_conf 3600 true 0 true None 0 false None true demo_params) None 0.
Definition demo_loop : eloop_data eapol_handler := mk_eloop (mk_reltime 100 0) [].

#[local] Instance demo_engine : EapEngine (eap_sm eap_method method_data) :=
  eap_engine (EM := demo_methods false) (CB := demo_callbacks false) demo_env.
#[local] Instance demo_engine_laws : EapEngineLaws (eap_sm eap_method method_data) :=
  eap_engine_laws (EM := demo_methods false) (CB := demo_callbacks false) (ML := demo_laws false) demo_env.

Definition demo_alloc : option (eapol_sm (eap_sm eap_method method_data)) * eloop_data eapol_handler :=
  eapol_auth_alloc (Some demo_authenticator) [2; 0; 0; 0; 0; 1] 0 None None None None (Some 7) 4096
    demo_loop false.
Definition demo_port : eapol_sm (eap_sm eap_method method_data) :=
  match fst demo_alloc with
  | Some s => s
  | None => alloc_state demo_authenticator [] 0 demo_sm 0 demo_loop false
  end.

Lemma demo_port_new : eapol_new 4096 demo_loop demo_port.
Proof.
  split; [by vm_compute|].
  exists (Some demo_authenticator), [2; 0; 0; 0; 0; 1], 0, None, None, None, None, (Some 7), false,
    (snd demo_alloc).
  vm_compute. reflexivity.
Defined.

(** A received EAP packet, served by the event loop. *)
Definition demo_receive (d : list Z) : list eapol_in :=
  [InInterface true (setter eapRespData (fun _ => Some (mk_wpabuf (zlen d) d 0))); InDispatch].
Definition demo_up : list eapol_in := [InAlive true; InPortEnabled true; InPortValid true; InDispatch; InDispatch].
Definition demo_login : list eapol_in :=
  demo_up ++ demo_receive (demo_response 77 EAP_TYPE_IDENTITY (chars "user")) ++
  demo_receive (demo_response 78 EAP_TYPE_GTC (chars "secret")).
(** The peer logs off, which disconnects it, comes back, and logs in again. *)
Definition demo_logoff : list eapol_in :=
  [InLogoff; InDispatch; InDispatch; InPortEnabled true; InDispatch; InDispatch].
Definition demo_again : list eapol_in :=
  demo_receive (demo_response 79 EAP_TYPE_IDENTITY (chars "user")) ++
  demo_receive (demo_response 80 EAP_TYPE_GTC (chars "secret")).

Lemma demo_in_ok : Forall in_ok ((demo_login ++ demo_logoff) ++ demo_again).
Proof.
  unfold demo_login, demo_logoff, demo_again, demo_up, demo_receive. simpl app.
  repeat (apply Forall_cons; split); try apply Forall_nil; try exact I; by intros i.
Defined.

Lemma eapol_eap_authority_witness :
  let s1 := eapol_run (demo_login ++ demo_logoff) demo_port in
  authPortStatus (eapol_run demo_login demo_port) = Some Authorized /\
  authPortStatus s1 = Some Unauthorized /\
  authPortStatus (eapol_run demo_again s1) = Some Authorized /\
  ((exists e e', List.In e (run_log demo_again s1) /\ 
      List.In e' (step_states (EM := demo_methods false) (CB := demo_callbacks false) step_fuel e) /\
      eap_authority (EM := demo_methods false) (CB := demo_callbacks false) e') \/
   existsb grants_port demo_again = true).
Proof.
  cbv zeta. split; [vm_compute; reflexivity|]. split; [vm_compute; reflexivity|].
  split; [vm_compute; reflexivity|].
  pose proof (eapol_eap_authority (EM := demo_methods false) (CB := demo_callbacks false) (ML := demo_laws false)
    demo_env 4096 demo_loop demo_port (demo_login ++ demo_logoff) demo_again demo_port_new demo_in_ok) as [_ H].
  apply H; clear H.
  - vm_compute. repeat split; discriminate.
  - vm_compute. reflexivity.
Defined.

Lemma demo_login_ok : Forall in_ok demo_login.
Proof. apply (Forall_app in_ok demo_login demo_logoff), (Forall_app in_ok _ demo_again), demo_in_ok. Defined.

Lemma eapol_port_coherent_witness :
  last_port (out (eapol_run demo_login demo_port)) = Some true.
Proof.
  destruct (eapol_port_coherent 4096 demo_loop demo_port demo_login demo_port_new demo_login_ok) as [H _].
  rewrite H. vm_compute. reflexivity.
Defined.


Lemma eapol_authenticating_uncounted_witness :
  auth_pae_state (eapol_run demo_up demo_port) = AUTH_PAE_AUTHENTICATING /\
  authEntersAuthenticating (pae_count (eapol_run demo_login demo_port)) = 0.
Proof.
  split; [vm_compute; reflexivity|].
  exact (eapol_authenticating_uncounted 4096 demo_loop demo_port demo_login demo_port_new demo_login_ok).
Defined.

Lemma eapol_conf_clone_exact_witness :
  exists c, eapol_auth_conf_clone false
    (mk_eapol_conf 3600 true 0 true (Some (chars "hello")) 5 false (Some (chars "a.org" ++ [0; 65])) true
       demo_params) = Some c /\ conf_normal c /\ erp_domain c = Some (chars "a.org").
Proof.
  destruct (eapol_conf_clone_exact (mk_eapol_conf 3600 true 0 true (Some (chars "hello")) 5 false
    (Some (chars "a.org" ++ [0; 65])) true demo_params)) as [(c & Hc & Hn & _) _].
  - vm_compute. by split.
  - exact I.
  - exact I.
  - exists c. split; [exact Hc|]. split; [exact Hn|]. revert Hc. vm_compute. by intros [= <-].
Defined.
