(* ===== verification/Ieee8021x.v ===== *)
(** * Stations and EAPOL frames (src/src/ap/ieee802_1x.c)

    What hostapd does with the EAPOL frames of one station: [sta_info] is the
    part of [struct sta_info] that ieee802_1x.c works on, with the machine of
    EapolAuth.v once there is one; [bss] is the part of the configuration it
    reads.  A frame is the list of its octets, and every access to it goes
    through [rd]: an access outside it sets [sta_fault] and ends the handler.

    The machine records its callbacks in [out]; [run_sm] runs the machine and
    then the callbacks, in their order.  The build has CONFIG_ERP and neither
    CONFIG_WPS, CONFIG_HS20 nor CONFIG_IEEE80211R; CONFIG_MACSEC, which this
    program adds, is the member [config_macsec].  The WPA state machine of the
    station is the data it is asked for ([wpa_sta]); what it is told is
    recorded in [sent]. *)

From S2P Require Import Prelude.
From S2P Require Import Eloop.
From S2P Require Import Wpabuf.
From S2P Require Import Common.
From S2P Require Import WpaCommon.
From S2P Require Import EapCommon.
From S2P Require Import EapServer.
From S2P Require Import EapolAuth.
From S2P Require Import EapolPort.

(** ** Data *)

(** Bits of [sta->flags] (sta_info.h). *)
Definition WLAN_STA_AUTH : Z := 0.
Definition WLAN_STA_ASSOC : Z := 1.
Definition WLAN_STA_AUTHORIZED : Z := 5.
Definition WLAN_STA_PREAUTH : Z := 8.
Definition WLAN_STA_WPS : Z := 12.
Definition WLAN_STA_MAYBE_WPS : Z := 13.
Definition WLAN_STA_PENDING_DEAUTH_CB : Z := 30.

(** eapol_common.h *)
Definition sizeof_ieee802_1x_hdr : Z := 4.
Definition sizeof_ieee802_1x_eapol_key : Z := 44.
Definition IEEE802_1X_TYPE_EAPOL_START : Z := 1.
Definition IEEE802_1X_TYPE_EAPOL_LOGOFF : Z := 2.
Definition IEEE802_1X_TYPE_EAPOL_KEY : Z := 3.
Definition IEEE802_1X_TYPE_EAPOL_ENCAPSULATED_ASF_ALERT : Z := 4.
Definition IEEE802_1X_TYPE_EAPOL_MKA : Z := 5.

(** The configuration of the BSS, and its authenticator. *)
Record bss := mk_bss {
  ieee802_1x : bool;
  bss_wpa : bool;
  osen : bool;
  wps_state : bool;
  eapol_version : Z;
  wired : bool;
  config_macsec : bool;
  eapol_auth : option eapol_authenticator
}.

(** What [sta->wpa_sm] is asked for. *)
Record wpa_sta := mk_wpa_sta {
  wpa_key_mgmt : Z;
  pairwise_set : bool;
  pmksa : option pmksa_entry
}.
#[global] Instance eta_wpa_sta : Eta wpa_sta := fun w =>
  mk_wpa_sta (wpa_key_mgmt w) (pairwise_set w) (pmksa w).

Definition wpa_auth_sta_key_mgmt (w : option wpa_sta) : Z :=
  match w with Some w => wpa_key_mgmt w | None => -1 end.
Definition wpa_auth_pairwise_set (w : option wpa_sta) : bool :=
  match w with Some w => pairwise_set w | None => false end.
Definition wpa_auth_sta_get_pmksa (w : option wpa_sta) : option pmksa_entry :=
  match w with Some w => pmksa w | None => None end.
Definition wpa_auth_sta_clear_pmksa (w : option wpa_sta) : option wpa_sta :=
  option_map (setter pmksa (fun _ => None)) w.

(** The calls out of ieee802_1x.c: the frame for the driver or the
    pre-authentication socket, the driver's flag and disconnection,
    accounting, the WPA state machine, and the callbacks handled elsewhere. *)
Inductive sta_out :=
  | send_eapol (encrypt : bool) (frame : list Z)
  | rsn_preauth_send (frame : list Z)
  | hostapd_set_authorized (authorized : bool)
  | sta_authorized_cb (authorized : bool)
  | accounting_sta_start
  | accounting_sta_stop
  | drv_sta_deauth (reason : Z)
  | wpa_deauth_event
  | wpa_reauth_event
  | wpa_auth_sm_notify
  | wpa_receive (frame : list Z)
  | other_callback (o : eapol_out).

(** [struct sta_info]; [sta_loop] is the event loop while there is no
    machine (the machine has it otherwise). *)
Record sta_info {E : Type} := mk_sta {
  sta_addr : list Z;
  sta_flags : Z;
  eapol_machine : option (eapol_sm E);
  wpa_machine : option wpa_sta;
  pending_eapol_rx : option (list Z * os_reltime);
  client_random : list Z;
  server_random : list Z;
  user_request : bool;
  deauth_reason : Z;
  sta_wps_ie : option wpabuf;
  sta_p2p_ie : option wpabuf;
  sta_identity : option (list Z);
  sta_radius_cui : option (list Z);
  sent : list sta_out;
  sta_fault : bool;
  sta_loop : eloop_data eapol_handler
}.
Arguments sta_info E : clear implicits.

#[global] Instance eta_sta_info {E} : Eta (sta_info E) := fun s =>
  mk_sta E (sta_addr s) (sta_flags s) (eapol_machine s) (wpa_machine s) (pending_eapol_rx s)
    (client_random s) (server_random s) (user_request s) (deauth_reason s)
    (sta_wps_ie s) (sta_p2p_ie s) (sta_identity s) (sta_radius_cui s) (sent s) (sta_fault s)
    (sta_loop s).

(** What the allocations of a handler return: the address of a machine, the
    random session identifier, and whether the memory is exhausted. *)
Record alloc_env := mk_alloc { alloc_ptr : Z; alloc_rnd : option Z; alloc_oom : bool }.

(** ** Operations *)

Section station.
Context {E : Type} `{EE : !EapEngine E}.
Abbreviation S := (eapol_sm E).
Abbreviation sta := (sta_info E).
#[local] Existing Instance set_eap_if.

Definition sta_flag (b : Z) (s : sta) : bool := Z.testbit (sta_flags s) b.
Definition call (o : sta_out) : cmd sta := (sent <~ (fun s => o :: sent s))%cmd.
Definition fault : cmd sta := (sta_fault ::= true)%cmd.

(** Read an octet of a frame. *)
Definition reading (buf : list Z) (i : Z) (k : Z -> cmd sta) : cmd sta :=
  match rd buf i with Some v => k v | None => fault end.

(** Read [n] octets. *)
Definition reading_n (buf : list Z) (i n : Z) (k : list Z -> cmd sta) : cmd sta :=
  if (0 <=? i) && (i + n <=? zlen buf) then k (slice buf i n) else fault.

(** A statement on the members of the machine, if there is one. *)
Definition on_sm (c : cmd S) : cmd sta := update eapol_machine (option_map c).

(** *** Sending *)

(** The server's random number of a TLS ServerHello (EAP-TLS). *)
Definition save_server_random (d : list Z) : cmd sta :=
  reading d 10 (fun t =>
    if t =? 0x16 then
      reading d 15 (fun h =>
        if h =? 0x02 then reading_n d 21 32 (fun r => server_random ::= r)%cmd else skip)
    else skip).

Definition ieee802_1x_send (b : bss) (oom : bool) (type : Z) (d : list Z) : cmd sta :=
  fun s =>
    if oom then s
    else
      let frame := [u8 (eapol_version b); u8 type] ++ WPA_PUT_BE16 (zlen d) ++ d in
      let s := if config_macsec b then save_server_random d s else s in
      if sta_flag WLAN_STA_PREAUTH s then call (rsn_preauth_send frame) s
      else call (send_eapol (wpa_auth_pairwise_set (wpa_machine s)) frame) s.

(** *** Authorisation *)

(** ap/sta_info.c *)
Definition ap_sta_set_authorized (authorized : bool) : cmd sta :=
  fun s =>
    if Bool.eqb authorized (sta_flag WLAN_STA_AUTHORIZED s) then s
    else
      (update sta_flags (fun f => if authorized then Z.setbit f WLAN_STA_AUTHORIZED
                                  else Z.clearbit f WLAN_STA_AUTHORIZED) ;;
       call (sta_authorized_cb authorized))%cmd s.

Definition ieee802_1x_set_sta_authorized (authorized : bool) : cmd sta :=
  fun s =>
    if sta_flag WLAN_STA_PREAUTH s then s
    else
      (ap_sta_set_authorized authorized ;;
       call (hostapd_set_authorized authorized) ;;
       if authorized then call accounting_sta_start else skip)%cmd s.

(** The part of [ap_sta_disconnect] that concerns the station; the part that
    concerns the machine is in EapolAuth.v. *)
Definition sta_disconnect (reason : Z) : cmd sta :=
  (call (drv_sta_deauth reason) ;;
   ap_sta_set_authorized false ;;
   call wpa_deauth_event ;;
   update sta_flags (fun f => Z.clearbit (Z.clearbit f WLAN_STA_AUTH) WLAN_STA_ASSOC) ;;
   deauth_reason ::= reason ;;
   update sta_flags (fun f => Z.setbit f WLAN_STA_PENDING_DEAUTH_CB))%cmd.

(** *** The callbacks of the machine *)

Definition callback (b : bss) (oom : bool) (o : eapol_out) : cmd sta :=
  match o with
  | eapol_send type d => ieee802_1x_send b oom type d
  | set_port_authorized a => ieee802_1x_set_sta_authorized a
  | sta_deauth reason => sta_disconnect reason
  | eapol_event_cb EAPOL_AUTH_SM_CHANGE => call wpa_auth_sm_notify
  | eapol_event_cb EAPOL_AUTH_REAUTHENTICATE => call wpa_reauth_event
  | o => call (other_callback o)
  end.

Fixpoint callbacks (b : bss) (oom : bool) (l : list eapol_out) : cmd sta :=
  match l with
  | [] => skip
  | o :: l => (callback b oom o ;; callbacks b oom l)%cmd
  end.

(** The first [n] of the recorded callbacks, the oldest first. *)
Definition newest (n : nat) (m : S) : list eapol_out := rev (take n (out m)).

(** Run the machine, and then its callbacks. *)
Definition run_sm (b : bss) (c : cmd S) : cmd sta :=
  fun s =>
    match eapol_machine s with
    | None => s
    | Some m =>
        let m' := c m in
        callbacks b (oom m) (newest (length (out m') - length (out m)) m')
          (setter eapol_machine (fun _ => Some m') s)
    end.

(** *** Received EAP packets *)

(** The supplicant's random number of a TLS ClientHello (EAP-TLS); [data]
    is the offset of the octets after the EAP header. *)
Definition save_client_random (buf : list Z) (data type : Z) : cmd sta :=
  if type =? 0x0d then
    reading buf (data + 2) (fun t =>
      if t =? 0x16 then
        reading buf (data + 7) (fun h =>
          if h =? 0x01
          then reading_n buf (data + 13) 32 (fun r => client_random ::= r)%cmd
          else skip)
      else skip)
  else skip.

(** [wpabuf_alloc_copy] of the packet, and the signal to the machines. *)
Definition store_response (packet : list Z) : cmd S :=
  (eap_if ∷ eapRespData <~ (fun m => default None (wpabuf_alloc_copy (oom m) packet)) ;;
   eapolEap ::= true)%cmd.

(** The EAP packet is [len] octets of [buf] at offset [eap]. *)
Definition handle_eap_response (b : bss) (buf : list Z) (eap len : Z) : cmd sta :=
  fun s =>
    if negb (non_null (eapol_machine s)) then s
    else if len <? sizeof_eap_hdr + 1 then s
    else
      reading buf (eap + sizeof_eap_hdr) (fun type =>
        (on_sm (eap_type_supp ::= type) ;;
         (if config_macsec b then save_client_random buf (eap + sizeof_eap_hdr) type else skip) ;;
         on_sm (rx_count ∷ dot1xAuthEapolRespFramesRx <~
                  (fun m => incr (dot1xAuthEapolRespFramesRx (rx_count m))) ;;
                store_response (slice buf eap len)))%cmd) s.

Definition handle_eap_initiate (buf : list Z) (eap len : Z) : cmd sta :=
  fun s =>
    if negb (non_null (eapol_machine s)) then s
    else if len <? sizeof_eap_hdr + 1 then s
    else reading buf (eap + sizeof_eap_hdr) (fun _ => on_sm (store_response (slice buf eap len))) s.

(** [len] octets of [buf] from offset [at_] on. *)
Definition handle_eap (b : bss) (buf : list Z) (at_ len : Z) : cmd sta :=
  if len <? sizeof_eap_hdr then skip
  else
    reading buf at_ (fun code =>
    reading buf (at_ + 2) (fun hi =>
    reading buf (at_ + 3) (fun lo =>
      let eap_len := Z.lor (Z.shiftl hi 8) lo in
      if eap_len <? sizeof_eap_hdr then skip
      else if len <? eap_len then skip
      else if code =? EAP_CODE_RESPONSE then handle_eap_response b buf at_ eap_len
      else if code =? EAP_CODE_INITIATE then handle_eap_initiate buf at_ eap_len
      else skip))).

(** *** The machine of a station *)

Definition alloc_flags (s : sta) : Z :=
  Z.lor (if sta_flag WLAN_STA_PREAUTH s then 2 ^ EAPOL_SM_PREAUTH else 0)
    (match wpa_machine s with
     | Some w => Z.lor (2 ^ EAPOL_SM_USES_WPA)
                   (if non_null (pmksa w) then 2 ^ EAPOL_SM_FROM_PMKSA_CACHE else 0)
     | None => 0
     end).

(** The callbacks of a machine while [eapol_auth_alloc] initializes it; they
    find the station without a machine. *)
Definition alloc_callbacks (b : bss) (e : alloc_env) (s : sta) : list eapol_out :=
  match eapol_auth b with
  | Some a =>
      if alloc_oom e then []
      else
        match engine_init (engine_conf a (sta_addr s) (sta_wps_ie s) (sta_p2p_ie s)) with
        | Some en =>
            rev (out (eapol_auth_initialize (alloc_state a (sta_addr s) (alloc_flags s) en
                        (alloc_ptr e) (sta_loop s) (alloc_oom e))))
        | None => []
        end
  | None => []
  end.

Definition ieee802_1x_alloc_eapol_sm (b : bss) (e : alloc_env) (s : sta) : option S * sta :=
  let '(m, l) := eapol_auth_alloc (eapol_auth b) (sta_addr s) (alloc_flags s) (sta_wps_ie s)
                   (sta_p2p_ie s) (sta_identity s) (sta_radius_cui s) (alloc_rnd e) (alloc_ptr e)
                   (sta_loop s) (alloc_oom e) in
  (m, callbacks b (alloc_oom e) (alloc_callbacks b e s) (setter sta_loop (fun _ => l) s)).

(** [if (!sta->eapol_sm) { sta->eapol_sm = ieee802_1x_alloc_eapol_sm(...); }]:
    the answer of [sta_entry_alive] is yes from now on. *)
Definition need_eapol_sm (b : bss) (e : alloc_env) : cmd sta :=
  fun s =>
    match eapol_machine s with
    | Some _ => s
    | None =>
        let '(m, s) := ieee802_1x_alloc_eapol_sm b e s in
        setter eapol_machine (fun _ => option_map (setter alive (fun _ => true)) m) s
    end.

Definition ieee802_1x_free_station : cmd sta :=
  fun s =>
    let s := setter pending_eapol_rx (fun _ => None) s in
    match eapol_machine s with
    | None => s
    | Some m => (sta_loop ::= eapol_auth_free m ;; eapol_machine ::= None)%cmd s
    end.

(** *** Received frames *)

Definition ieee802_1x_save_eapol (e : alloc_env) (now : os_reltime) (buf : list Z) : cmd sta :=
  (pending_eapol_rx ::= (if alloc_oom e then None else Some (buf, now)))%cmd.

Definition port_enabled : cmd S := (eap_if ∷ portEnabled ::= true)%cmd.

(** [switch (hdr->type)]. *)
Definition receive_switch (b : bss) (buf : list Z) (type datalen : Z) : cmd sta :=
  (if type =? IEEE802_1X_TYPE_EAP_PACKET then handle_eap b buf sizeof_ieee802_1x_hdr datalen
   else if type =? IEEE802_1X_TYPE_EAPOL_START then
     on_sm (update flags (fun f => Z.clearbit f EAPOL_SM_WAIT_START)) ;;
     update wpa_machine wpa_auth_sta_clear_pmksa ;;
     on_sm (eapolStart ::= true ;;
            rx_count ∷ dot1xAuthEapolStartFramesRx <~
              (fun m => incr (dot1xAuthEapolStartFramesRx (rx_count m))) ;;
            update eap engine_clear_identity) ;;
     call wpa_reauth_event
   else if type =? IEEE802_1X_TYPE_EAPOL_LOGOFF then
     user_request ::= true ;;
     call accounting_sta_stop ;;
     on_sm (eapolLogoff ::= true ;;
            rx_count ∷ dot1xAuthEapolLogoffFramesRx <~
              (fun m => incr (dot1xAuthEapolLogoffFramesRx (rx_count m))) ;;
            update eap engine_clear_identity)
   else if (type =? IEEE802_1X_TYPE_EAPOL_KEY) ||
           (type =? IEEE802_1X_TYPE_EAPOL_ENCAPSULATED_ASF_ALERT) ||
           (config_macsec b && (type =? IEEE802_1X_TYPE_EAPOL_MKA)) then skip
   else
     on_sm (rx_count ∷ dot1xAuthInvalidEapolFramesRx <~
              (fun m => incr (dot1xAuthInvalidEapolFramesRx (rx_count m)))))%cmd.

(** After which the machine runs. *)
Definition receive_type (b : bss) (buf : list Z) (type datalen : Z) : cmd sta :=
  (receive_switch b buf type datalen ;; on_sm eapol_auth_step)%cmd.

(** An EAPOL-Key frame of WPA or RSN. *)
Definition wpa_key_frame (type datalen : Z) (buf : list Z) : bool :=
  (sizeof_ieee802_1x_eapol_key <=? datalen) && (type =? IEEE802_1X_TYPE_EAPOL_KEY) &&
  ((byte_at buf sizeof_ieee802_1x_hdr =? EAPOL_KEY_TYPE_WPA) ||
   (byte_at buf sizeof_ieee802_1x_hdr =? EAPOL_KEY_TYPE_RSN)).

Definition uses_psk (s : sta) : bool :=
  let key_mgmt := wpa_auth_sta_key_mgmt (wpa_machine s) in
  negb (key_mgmt =? -1) && wpa_key_mgmt_wpa_psk key_mgmt.

(** A frame whose header has been read. *)
Definition receive_pdu (b : bss) (e : alloc_env) (buf : list Z) (version type datalen : Z) : cmd sta :=
  (on_sm (rx_count ∷ dot1xAuthLastEapolFrameVersion ::= version ;;
          rx_count ∷ dot1xAuthEapolFramesRx <~ (fun m => incr (dot1xAuthEapolFramesRx (rx_count m)))) ;;
   fun s =>
     if wpa_key_frame type datalen buf
     then call (wpa_receive (slice buf 0 (sizeof_ieee802_1x_hdr + datalen))) s
     else if negb (ieee802_1x b) && negb (osen b) &&
             negb (sta_flag WLAN_STA_WPS s || sta_flag WLAN_STA_MAYBE_WPS s) then s
     else if uses_psk s then s
     else
       let old := non_null (eapol_machine s) in
       let s := need_eapol_sm b e s in
       if negb (non_null (eapol_machine s)) then s
       else
         receive_type b buf type datalen (if old then s else on_sm port_enabled s))%cmd.

Definition ieee802_1x_receive (b : bss) (e : alloc_env) (now : os_reltime) (buf : list Z) : cmd sta :=
  fun s =>
    if negb (ieee802_1x b) && negb (bss_wpa b) && negb (osen b) && negb (wps_state b) then s
    else if negb (sta_flag WLAN_STA_ASSOC s || sta_flag WLAN_STA_PREAUTH s) && negb (wired b) then
      if sta_flag WLAN_STA_AUTH s then ieee802_1x_save_eapol e now buf s else s
    else if zlen buf <? sizeof_ieee802_1x_hdr then s
    else
      reading buf 0 (fun version => reading buf 1 (fun type =>
      reading buf 2 (fun hi => reading buf 3 (fun lo =>
        let datalen := Z.lor (Z.shiftl hi 8) lo in
        if zlen buf - sizeof_ieee802_1x_hdr <? datalen then
          on_sm (rx_count ∷ dot1xAuthEapLengthErrorFramesRx <~
                   (fun m => incr (dot1xAuthEapLengthErrorFramesRx (rx_count m))))
        else receive_pdu b e buf version type datalen)))) s.

(** *** A station that has associated *)

Definition ieee802_1x_new_station (b : bss) (e : alloc_env) : cmd sta :=
  fun s =>
    if negb (ieee802_1x b) && negb (osen b) then ieee802_1x_free_station s
    else if uses_psk s then ieee802_1x_free_station s
    else
      let reassoc := non_null (eapol_machine s) in
      let s := need_eapol_sm b e s in
      if negb (non_null (eapol_machine s)) then s
      else
        (on_sm port_enabled ;;
         fun s =>
           match wpa_auth_sta_get_pmksa (wpa_machine s) with
           | Some entry => on_sm (pmksa_station entry) s
           | None =>
               on_sm ((if reassoc then reAuthenticate ::= true else skip) ;; eapol_auth_step) s
           end)%cmd s.

(** ** Events *)

Inductive sta_in :=
  | StaReceive (e : alloc_env) (now : os_reltime) (buf : list Z)
  | StaNew (e : alloc_env)
  | StaFree
  | StaMachine (i : eapol_in)
  | StaWpa (w : option wpa_sta)
  | StaAuthorized (authorized : bool)
  | StaAssociated (flags : Z).

(** The bits that the association of a station changes. *)
Definition associate (f : Z) : cmd sta :=
  update sta_flags (fun old =>
    if Z.testbit old WLAN_STA_AUTHORIZED then Z.setbit f WLAN_STA_AUTHORIZED
    else Z.clearbit f WLAN_STA_AUTHORIZED).

Definition sta_event (b : bss) (i : sta_in) : cmd sta :=
  match i with
  | StaReceive e now buf => ieee802_1x_receive b e now buf
  | StaNew e => ieee802_1x_new_station b e
  | StaFree => ieee802_1x_free_station
  | StaMachine i =>
      fun s =>
        match eapol_machine s, i with
        | None, InTime t => setter sta_loop (fun l => mk_eloop t (timeout l)) s
        | _, _ => run_sm b (eapol_event_run i) s
        end
  | StaWpa w => (wpa_machine ::= w)%cmd
  | StaAuthorized a => ieee802_1x_set_sta_authorized a
  | StaAssociated f => associate f
  end.

Fixpoint sta_run (b : bss) (l : list sta_in) (s : sta) : sta :=
  match l with
  | [] => s
  | i :: l => sta_run b l (sta_event b i s)
  end.
End station.

(** ** The authorised flag *)

Section authorised.
Context {E : Type} `{EE : !EapEngine E, EL : !EapEngineLaws E}.
Abbreviation S := (eapol_sm E).
Abbreviation sta := (sta_info E).
#[local] Existing Instance set_eap_if.
#[local] Opaque Z.testbit.
Implicit Types (s : sta) (m : S) (b : bss).

(** What the invariant is about. *)
Definition sv s : option S * eloop_data eapol_handler * bool * bool :=
  (eapol_machine s, sta_loop s, sta_flag WLAN_STA_AUTHORIZED s, sta_flag WLAN_STA_PREAUTH s).

Lemma flags_sv (f : Z -> Z) s :
  (forall z, Z.testbit (f z) WLAN_STA_PREAUTH = Z.testbit z WLAN_STA_PREAUTH) ->
  sv (setter sta_flags f s) =
  (eapol_machine s, sta_loop s, Z.testbit (f (sta_flags s)) WLAN_STA_AUTHORIZED, sta_flag WLAN_STA_PREAUTH s).
Proof.
  intros H. transitivity (eapol_machine s, sta_loop s, Z.testbit (f (sta_flags s)) WLAN_STA_AUTHORIZED,
    Z.testbit (f (sta_flags s)) WLAN_STA_PREAUTH); [reflexivity|]. by rewrite H.
Qed.

Lemma flags_keep_sv (f : Z -> Z) s :
  (forall z, Z.testbit (f z) WLAN_STA_PREAUTH = Z.testbit z WLAN_STA_PREAUTH) ->
  (forall z, Z.testbit (f z) WLAN_STA_AUTHORIZED = Z.testbit z WLAN_STA_AUTHORIZED) ->
  sv (setter sta_flags f s) = sv s.
Proof. intros H1 H2. rewrite flags_sv by exact H1. by rewrite H2. Qed.

Lemma reading_sv buf i (k : Z -> cmd sta) s :
  (forall v, sv (k v s) = sv s) -> sv (reading buf i k s) = sv s.
Proof. intros H. unfold reading. destruct (rd buf i); [apply H|]. unfold fault. open_cmds. by frames sv. Qed.

Lemma reading_n_sv buf i n (k : list Z -> cmd sta) s :
  (forall v, sv (k v s) = sv s) -> sv (reading_n buf i n k s) = sv s.
Proof. intros H. unfold reading_n. destruct (_ && _); [apply H|]. unfold fault. open_cmds. by frames sv. Qed.

Lemma send_sv b o t d s : sv (ieee802_1x_send b o t d s) = sv s.
Proof.
  unfold ieee802_1x_send. destruct o; [done|]. cbv zeta.
  assert (H : sv (save_server_random d s) = sv s).
  { unfold save_server_random. apply reading_sv. intros v. destruct (v =? 22); [|done].
    apply reading_sv. intros w. destruct (w =? 2); [|done]. apply reading_n_sv. intros r.
    open_cmds. by frames sv. }
  assert (H' : sv (if config_macsec b then save_server_random d s else s) = sv s) by (by destruct (config_macsec b)).
  set (s' := if config_macsec b then _ else s) in *. clearbody s'. rewrite <-H'.
  destruct (sta_flag WLAN_STA_PREAUTH s'); unfold call; open_cmds; by frames sv.
Qed.

Lemma set_authorized_sv a s :
  sv (ap_sta_set_authorized a s) = (eapol_machine s, sta_loop s, a, sta_flag WLAN_STA_PREAUTH s).
Proof.
  unfold ap_sta_set_authorized. destruct (Bool.eqb a _) eqn:Ea.
  { apply Bool.eqb_prop in Ea as ->. reflexivity. }
  unfold call. open_cmds. frames sv. rewrite flags_sv.
  - destruct a; [by rewrite Z.setbit_eq|by rewrite Z.clearbit_eq].
  - intros z. destruct a; [apply Z.setbit_neq; [done|discriminate]|apply Z.clearbit_neq; discriminate].
Qed.

Lemma disconnect_sv r s :
  sv (sta_disconnect r s) = (eapol_machine s, sta_loop s, false, sta_flag WLAN_STA_PREAUTH s).
Proof.
  unfold sta_disconnect, call. open_cmds.
  rewrite flags_keep_sv by (intros z; apply Z.setbit_neq; [done|discriminate]). frames sv.
  rewrite flags_keep_sv by (intros z; rewrite !Z.clearbit_neq by discriminate; done). frames sv.
  rewrite set_authorized_sv. reflexivity.
Qed.

(** The callbacks leave the machine alone; what sets the flag is an open
    port. *)
Lemma callback_sv b o c s :
  match c with
  | set_port_authorized _ | sta_deauth _ => True
  | _ => sv (callback b o c s) = sv s
  end.
Proof.
  destruct c; try exact I; try apply send_sv; try (destruct type); unfold callback, call; open_cmds; by frames sv.
Qed.

Lemma set_sta_authorized_sv a s :
  sv (ieee802_1x_set_sta_authorized a s) =
  (eapol_machine s, sta_loop s,
   if sta_flag WLAN_STA_PREAUTH s then sta_flag WLAN_STA_AUTHORIZED s else a, sta_flag WLAN_STA_PREAUTH s).
Proof.
  unfold ieee802_1x_set_sta_authorized. destruct (sta_flag WLAN_STA_PREAUTH s) eqn:Ep; [unfold sv; by rewrite Ep|].
  unfold call. open_cmds. rewrite <-Ep, <-(set_authorized_sv a s). destruct a; by frames sv.
Qed.

Lemma last_port_app l k :
  last_port (l ++ k) = match last_port l with Some x => Some x | None => last_port k end.
Proof. induction l as [|o l IH]; [done|]. cbn [app last_port]. destruct o; exact IH || done. Qed.

Lemma callbacks_sv b o l s :
  sv (callbacks b o l s) =
    (eapol_machine s, sta_loop s, sta_flag WLAN_STA_AUTHORIZED (callbacks b o l s), sta_flag WLAN_STA_PREAUTH s) /\
  (sta_flag WLAN_STA_AUTHORIZED (callbacks b o l s) = true ->
   last_port (rev l) = Some true \/
   (sta_flag WLAN_STA_AUTHORIZED s = true /\ (last_port (rev l) = None \/ sta_flag WLAN_STA_PREAUTH s = true))).
Proof.
  revert s. induction l as [|c l IH]; intros s; [split; [done|by right; split; [|left]]|].
  cbn [callbacks]. unfold seq_cmd. destruct (IH (callback b o c s)) as [H1 H2].
  set (s' := callbacks b o l (callback b o c s)) in *. cbn [rev]. rewrite last_port_app.
  pose proof (callback_sv b o c s) as Hc.
  assert (Hq : forall x, sv (callback b o c s) = (eapol_machine s, sta_loop s, x, sta_flag WLAN_STA_PREAUTH s) ->
    sv s' = (eapol_machine s, sta_loop s, sta_flag WLAN_STA_AUTHORIZED s', sta_flag WLAN_STA_PREAUTH s) /\
    (sta_flag WLAN_STA_AUTHORIZED s' = true -> last_port (rev l) = Some true \/
      (x = true /\ (last_port (rev l) = None \/ sta_flag WLAN_STA_PREAUTH s = true)))).
  { intros x [= E1 E2 E3 E4]. rewrite H1. rewrite <-E3, <-E4, <-E1, <-E2. by split. }
  assert (Hsame : sv (callback b o c s) = sv s -> last_port [c] = None -> 
    sv s' = (eapol_machine s, sta_loop s, sta_flag WLAN_STA_AUTHORIZED s', sta_flag WLAN_STA_PREAUTH s) /\
    (sta_flag WLAN_STA_AUTHORIZED s' = true ->
     match last_port (rev l) with Some x => Some x | None => last_port [c] end = Some true \/
     (sta_flag WLAN_STA_AUTHORIZED s = true /\
      (match last_port (rev l) with Some x => Some x | None => last_port [c] end = None \/
       sta_flag WLAN_STA_PREAUTH s = true)))).
  { intros Es Hl. destruct (Hq _ Es) as [K1 K2]. split; [exact K1|]. rewrite Hl.
    intros F. destruct (last_port (rev l)); apply K2, F. }
  destruct c; try (apply Hsame; [exact Hc|reflexivity]); clear Hsame Hc.
  - cbn [callback] in Hq. destruct (Hq _ (set_sta_authorized_sv authorized s)) as [K1 K2]. split; [exact K1|].
    intros F. cbn [last_port]. destruct (K2 F) as [->|[Hx Hy]]; [by left|].
    destruct (sta_flag WLAN_STA_PREAUTH s).
    + right. split; [exact Hx|by right].
    + destruct Hy as [->|Hy]; [|discriminate Hy]. left. by subst authorized.
  - cbn [callback] in Hq. destruct (Hq _ (disconnect_sv reason s)) as [K1 K2]. split; [exact K1|].
    intros F. destruct (K2 F) as [->|[Hx _]]; [by left|discriminate Hx].
Qed.

(** *** The invariant *)

(** What holds of the machine; [G]: what may open the port has happened. *)
Definition ready m (G : Prop) : Prop := port_inv m G /\ timed m.

Definition sta_inv s (G : Prop) : Prop :=
  match eapol_machine s with
  | Some m => ready m G
  | None => clock_ok (now (sta_loop s))
  end /\ (sta_flag WLAN_STA_AUTHORIZED s = true -> G).

Lemma ready_weaken m (G G' : Prop) : (G -> G') -> ready m G -> ready m G'.
Proof. intros H [H1 H2]. split; [by apply (port_inv_weaken m G)|exact H2]. Qed.

Lemma sta_inv_weaken s (G G' : Prop) : (G -> G') -> sta_inv s G -> sta_inv s G'.
Proof.
  intros H [H1 H2]. split; [|tauto]. destruct (eapol_machine s) as [m|]; [|exact H1].
  by apply (ready_weaken m G).
Qed.

Lemma sv_inv s s' G : sv s' = sv s -> sta_inv s G -> sta_inv s' G.
Proof. unfold sta_inv. intros [= -> -> -> _]. done. Qed.

(** Commands of the machine that keep what holds of it. *)
Definition keeps (c : cmd S) : Prop := forall m G, ready m G -> ready (c m) G.

Lemma seq_keeps (c d : cmd S) : keeps c -> keeps d -> keeps (seq_cmd c d).
Proof. intros Hc Hd m G H. by apply Hd, Hc. Qed.

Lemma frame_keeps (c : cmd S) :
  (forall m, pv (c m) = pv m) -> (forall m, eap (c m) = eap m) -> (forall m, tv (c m) = tv m) -> keeps c.
Proof. intros H1 H2 H3 m G [K1 K2]. split; [by apply (frame_inv m)|by apply (timed_eq m)]. Qed.

Ltac keeps_frames := apply frame_keeps; intros m; open_cmds; first [by frames (@pv E EE)|by frames (@eap E)|by frames (@tv E)].

Lemma if_keeps (g : S -> eap_eapol_interface -> eap_eapol_interface) :
  (forall m, keeps_if (g m)) -> keeps (fun m => setter eap_if (g m) m).
Proof.
  intros Hg m G [H1 H2]. split; [by apply set_if_inv|]. apply (timed_eq m); [by frames (@tv E)|exact H2].
Qed.

Lemma clear_keeps : keeps (update eap engine_clear_identity).
Proof.
  intros m G [H1 H2]. split; [|apply (timed_eq m); [open_cmds; by frames (@tv E)|exact H2]].
  apply engine_inv; [apply engine_clear_valid|apply engine_clear_if|exact H1].
Qed.

Lemma step_keeps : keeps eapol_auth_step.
Proof. intros m G [H1 H2]. split; [by apply auth_step_inv|by apply step_timed]. Qed.

Lemma store_keeps p : keeps (store_response p).
Proof.
  apply seq_keeps; [|keeps_frames].
  apply (if_keeps (fun m => setter eapRespData (fun _ => default None (wpabuf_alloc_copy (oom m) p)))).
  by intros m i.
Qed.

Lemma enabled_keeps : keeps port_enabled.
Proof. apply (if_keeps (fun _ => setter portEnabled (fun _ => true))). by intros m i. Qed.

(** *** The handlers *)

Lemma on_sm_inv (c : cmd S) s G : keeps c -> sta_inv s G -> sta_inv (on_sm c s) G.
Proof.
  intros Hc [H1 H2]. split; [|exact H2].
  change (eapol_machine (on_sm c s)) with (option_map c (eapol_machine s)).
  change (sta_loop (on_sm c s)) with (sta_loop s).
  destruct (eapol_machine s) as [m|]; [by apply Hc|exact H1].
Qed.

Lemma reading_inv buf i (k : Z -> cmd sta) s G :
  (forall v, sta_inv (k v s) G) -> sta_inv s G -> sta_inv (reading buf i k s) G.
Proof. intros H Hs. unfold reading. destruct (rd buf i); [apply H|]. by apply (sv_inv s). Qed.

Lemma save_client_sv buf d t s : sv (save_client_random buf d t s) = sv s.
Proof.
  unfold save_client_random. destruct (t =? 13); [|done].
  apply reading_sv. intros v. destruct (v =? 22); [|done].
  apply reading_sv. intros w. destruct (w =? 1); [|done]. apply reading_n_sv. intros r.
  open_cmds. by frames sv.
Qed.

Lemma handle_eap_inv b buf at_ len s G : sta_inv s G -> sta_inv (handle_eap b buf at_ len s) G.
Proof.
  intros H. unfold handle_eap. destruct (len <? sizeof_eap_hdr); [exact H|].
  apply reading_inv; [intros code|exact H]. apply reading_inv; [intros hi|exact H].
  apply reading_inv; [intros lo|exact H]. cbv zeta. set (n := Z.lor _ lo).
  destruct (n <? sizeof_eap_hdr); [exact H|]. destruct (len <? n); [exact H|].
  destruct (code =? EAP_CODE_RESPONSE); [|destruct (code =? EAP_CODE_INITIATE); [|exact H]].
  - unfold handle_eap_response. destruct (negb _); [exact H|]. destruct (n <? _); [exact H|].
    apply reading_inv; [intros type|exact H]. unfold seq_cmd at 1 2.
    apply on_sm_inv; [apply seq_keeps; [keeps_frames|apply store_keeps]|].
    assert (H1 : sta_inv (on_sm (eap_type_supp ::= type)%cmd s) G) by (apply on_sm_inv; [keeps_frames|exact H]).
    set (s1 := on_sm _ s) in *. clearbody s1. destruct (config_macsec b); [|exact H1].
    apply (sv_inv s1); [apply save_client_sv|exact H1].
  - unfold handle_eap_initiate. destruct (negb _); [exact H|]. destruct (n <? _); [exact H|].
    apply reading_inv; [intros type|exact H]. apply on_sm_inv; [apply store_keeps|exact H].
Qed.

Lemma receive_type_inv b buf type len s G : sta_inv s G -> sta_inv (receive_type b buf type len s) G.
Proof.
  intros H. unfold receive_type, seq_cmd. apply on_sm_inv; [apply step_keeps|]. unfold receive_switch.
  destruct (type =? IEEE802_1X_TYPE_EAP_PACKET); [by apply handle_eap_inv|].
  destruct (type =? IEEE802_1X_TYPE_EAPOL_START).
  { open_cmds. unfold call. open_cmds. eapply sv_inv; [by frames sv|].
    match goal with |- sta_inv (on_sm ?c ?x) _ => apply (on_sm_inv c x) end.
    { do 2 (apply seq_keeps; [keeps_frames|]). apply clear_keeps. }
    eapply sv_inv; [by frames sv|]. apply on_sm_inv; [keeps_frames|exact H]. }
  destruct (type =? IEEE802_1X_TYPE_EAPOL_LOGOFF).
  { unfold seq_cmd at 1 2. apply on_sm_inv; [do 2 (apply seq_keeps; [keeps_frames|]); apply clear_keeps|].
    by apply (sv_inv s). }
  destruct (_ || _); [exact H|]. apply on_sm_inv; [keeps_frames|exact H].
Qed.

(** *** Creation and removal *)

Lemma open_why m (G : Prop) : port_inv m G -> last_port (out m) = Some true -> G.
Proof.
  intros (_ & [K1 _] & [(K2 & _)|HG]) Hl; [|exact HG]. cbn [pv v_port v_status] in *. rewrite K1 in Hl.
  destruct (authPortStatus m) as [[]|]; cbn in *; try rewrite bool_decide_false in Hl by discriminate; congruence.
Qed.

Lemma initialized_shut a sta fl en p lp mem :
  clock_ok (now lp) -> engine_valid en -> eapSuccess (engine_if en) = false ->
  last_port (out (eapol_auth_initialize (alloc_state a sta fl en p lp mem))) <> Some true.
Proof.
  intros Hc Hv Hs. assert (H0 : starting (alloc_state a sta fl en p lp mem)).
  { split; [by apply alloc_port_inv|]. by split. }
  exact (open_why _ False (proj1 (initialize_ready _ H0))).
Qed.

Lemma callbacks_shut b o l s (G : Prop) :
  last_port (rev l) <> Some true -> sta_inv s G -> sta_inv (callbacks b o l s) G.
Proof.
  intros Hl [H1 H2]. destruct (callbacks_sv b o l s) as [[= E1 E2 _] Ha].
  unfold sta_inv. rewrite E1, E2. split; [exact H1|]. intros F. destruct (Ha F) as [?|[F' _]]; [done|auto].
Qed.

Lemma free_clock m : timed m -> clock_ok (now (eapol_auth_free m)).
Proof. intros [H _]. exact H. Qed.

Lemma alloc_loop a sta fl w1 w2 id cui rnd p lp mem om lp' :
  clock_ok (now lp) -> eapol_auth_alloc a sta fl w1 w2 id cui rnd p lp mem = (om, lp') ->
  match om with Some m => ready m False | None => clock_ok (now lp') end.
Proof.
  intros Hc H. destruct om as [m|]; [by eapply alloc_ready|].
  revert H. unfold eapol_auth_alloc. destruct a as [a|]; [|by intros [= <-]].
  destruct mem; [by intros [= <-]|]. destruct (engine_init _) as [en|] eqn:Ee; [|by intros [= <-]].
  destruct (engine_init_valid _ _ Ee) as [Hv Hs].
  cbv zeta. assert (H0 : starting (alloc_state a sta fl en p lp false)).
  { split; [by apply alloc_port_inv|]. split; [reflexivity|]. split; [exact Hc|reflexivity]. }
  destruct (initialize_ready _ H0) as [_ H2].
  set (m := eapol_auth_initialize _) in *. clearbody m.
  destruct rnd as [r|]; [discriminate|]. intros [= <-]. apply free_clock.
  destruct id, cui; (eapply timed_eq; [|exact H2]); by frames (@tv E).
Qed.

Lemma need_inv b e s G : sta_inv s G -> sta_inv (need_eapol_sm b e s) G.
Proof.
  intros [H1 H2]. unfold need_eapol_sm. destruct (eapol_machine s) as [m0|] eqn:Em.
  { split; [by rewrite Em|exact H2]. }
  unfold ieee802_1x_alloc_eapol_sm.
  destruct (eapol_auth_alloc _ _ _ _ _ _ _ _ _ _ _) as [om l] eqn:Ea.
  pose proof (alloc_loop _ _ _ _ _ _ _ _ _ _ _ _ _ H1 Ea) as Hm.
  assert (Hl : last_port (rev (alloc_callbacks b e s)) <> Some true).
  { unfold alloc_callbacks. destruct (eapol_auth b) as [a|]; [|done]. destruct (alloc_oom e); [done|].
    destruct (engine_init _) as [en|] eqn:Ee; [|done]. rewrite rev_involutive.
    destruct (engine_init_valid _ _ Ee) as [Hv Hs]. by apply initialized_shut. }
  set (s1 := setter sta_loop _ s).
  destruct (callbacks_sv b (alloc_oom e) (alloc_callbacks b e s) s1) as [[= _ E2 _] Ha].
  set (s2 := callbacks b _ _ s1) in *. unfold sta_inv.
  change (eapol_machine (setter eapol_machine ?f s2)) with (option_map (setter alive (fun _ => true)) om).
  change (sta_loop (setter eapol_machine ?f s2)) with (sta_loop s2).
  change (sta_flag ?x (setter eapol_machine ?f s2)) with (sta_flag x s2). split.
  - destruct om as [m|]; cbn [option_map]; [|by rewrite E2].
    apply (ready_weaken _ False); [done|]. destruct Hm as [K1 K2].
    split; [by apply (frame_inv m)|]. destruct K2 as (L1 & L2 & L3). by split.
  - intros F. destruct (Ha F) as [?|[F' _]]; [done|by apply H2].
Qed.

Lemma free_inv s G : sta_inv s G -> sta_inv (ieee802_1x_free_station s) G.
Proof.
  intros [H1 H2]. unfold ieee802_1x_free_station. cbv zeta.
  set (s1 := setter pending_eapol_rx _ s). change (eapol_machine s1) with (eapol_machine s).
  destruct (eapol_machine s) as [m|] eqn:Em; [|split; [|exact H2]; unfold s1; cbn; by rewrite Em].
  split; [|exact H2]. apply (free_clock m), H1.
Qed.

Lemma receive_inv b e t buf s G : sta_inv s G -> sta_inv (ieee802_1x_receive b e t buf s) G.
Proof.
  intros H. unfold ieee802_1x_receive. destruct (_ && negb (wps_state b)); [exact H|].
  destruct (negb (_ || _) && _).
  { destruct (sta_flag WLAN_STA_AUTH s); [|exact H]. unfold ieee802_1x_save_eapol. open_cmds. by apply (sv_inv s). }
  destruct (zlen buf <? _); [exact H|].
  apply reading_inv; [intros v|exact H]. apply reading_inv; [intros type|exact H].
  apply reading_inv; [intros hi|exact H]. apply reading_inv; [intros lo|exact H]. cbv zeta.
  destruct (_ <? _); [apply on_sm_inv; [keeps_frames|exact H]|]. set (n := Z.lor _ lo). clearbody n.
  unfold receive_pdu. unfold seq_cmd at 1.
  match goal with |- context [on_sm ?c s] =>
    assert (H1 : sta_inv (on_sm c s) G)
      by (apply on_sm_inv; [apply seq_keeps; keeps_frames|exact H]);
    set (s1 := on_sm c s) in *; clearbody s1 end.
  cbv beta. destruct (wpa_key_frame type n buf); [unfold call; open_cmds; by apply (sv_inv s1)|].
  destruct (negb (ieee802_1x b) && _ && _); [exact H1|]. destruct (uses_psk s1); [exact H1|]. cbv zeta.
  pose proof (need_inv b e s1 G H1) as H2. set (s2 := need_eapol_sm b e s1) in *. clearbody s2.
  destruct (negb _); [exact H2|]. apply receive_type_inv.
  destruct (non_null _); [exact H2|]. by apply on_sm_inv; [apply enabled_keeps|].
Qed.

Lemma cached_keeps entry m (G : Prop) : ready m G -> ready (pmksa_station entry m) True.
Proof.
  intros [H1 H2]. split; [by apply (pmksa_station_inv entry m G)|].
  apply (event_timed (InCached entry) m I H2).
Qed.

(** The station has a cached key for the machine. *)
Definition cached s : bool := non_null (wpa_auth_sta_get_pmksa (wpa_machine s)).

Lemma need_wpa b e s : wpa_machine (need_eapol_sm b e s) = wpa_machine s.
Proof.
  assert (Hd : forall x i n (k : list Z -> cmd sta) s0,
    (forall v, wpa_machine (k v s0) = wpa_machine s0) -> wpa_machine (reading_n x i n k s0) = wpa_machine s0).
  { intros. unfold reading_n. by destruct (_ && _). }
  assert (Hr : forall x i (k : Z -> cmd sta) s0,
    (forall v, wpa_machine (k v s0) = wpa_machine s0) -> wpa_machine (reading x i k s0) = wpa_machine s0).
  { intros. unfold reading. by destruct (rd _ _). }
  assert (Hs : forall a s0, wpa_machine (ap_sta_set_authorized a s0) = wpa_machine s0).
  { intros. unfold ap_sta_set_authorized. by destruct (Bool.eqb _ _). }
  assert (Hc : forall o c s0, wpa_machine (callback b o c s0) = wpa_machine s0).
  { intros o c s0. destruct c; cbn [callback]; unfold call; open_cmds; try reflexivity.
    - unfold ieee802_1x_send. destruct o; [done|]. cbv zeta.
      assert (Hv : wpa_machine (save_server_random d s0) = wpa_machine s0).
      { unfold save_server_random. apply Hr. intros v. destruct (v =? 22); [|done]. apply Hr. intros w.
        destruct (w =? 2); [|done]. by apply Hd. }
      destruct (config_macsec b); destruct (sta_flag _ _); unfold call; open_cmds; exact Hv || reflexivity.
    - unfold ieee802_1x_set_sta_authorized. destruct (sta_flag _ _); [done|]. unfold call. open_cmds.
      destruct authorized; exact (Hs _ s0).
    - by destruct type.
    - unfold sta_disconnect, call. open_cmds.
      exact (Hs false (setter sent (fun _ => drv_sta_deauth reason :: sent s0) s0)). }
  assert (Hl : forall o l s0, wpa_machine (callbacks b o l s0) = wpa_machine s0).
  { intros o l. induction l as [|c l IH]; intros s0; [done|]. cbn [callbacks]. open_cmds. by rewrite IH, Hc. }
  unfold need_eapol_sm. destruct (eapol_machine s); [done|]. unfold ieee802_1x_alloc_eapol_sm.
  destruct (eapol_auth_alloc _ _ _ _ _ _ _ _ _ _ _) as [om l]. exact (Hl _ _ _).
Qed.

Lemma new_station_inv b e s (G : Prop) :
  sta_inv s G -> sta_inv (ieee802_1x_new_station b e s) (G \/ cached s = true).
Proof.
  intros H. assert (Hk : forall s', sta_inv s' G -> sta_inv s' (G \/ cached s = true))
    by (intros s'; apply sta_inv_weaken; tauto).
  unfold ieee802_1x_new_station. destruct (_ && _); [by apply Hk, free_inv|].
  destruct (uses_psk s); [by apply Hk, free_inv|]. cbv zeta.
  pose proof (need_inv b e s G H) as H2. pose proof (need_wpa b e s) as Hw.
  set (s2 := need_eapol_sm b e s) in *. clearbody s2. destruct (negb _); [by apply Hk|].
  unfold seq_cmd at 1. pose proof (on_sm_inv port_enabled s2 G enabled_keeps H2) as H3.
  change (wpa_machine s2) with (wpa_machine (on_sm port_enabled s2)) in Hw.
  set (s3 := on_sm port_enabled s2) in *. clearbody s3. cbv beta.
  unfold cached in *. rewrite Hw. destruct (wpa_auth_sta_get_pmksa (wpa_machine s)) as [entry|].
  - destruct H3 as [K1 K2]. split; [|intros F; left; by apply K2].
    change (eapol_machine (on_sm ?c s3)) with (option_map c (eapol_machine s3)).
    change (sta_loop (on_sm ?c s3)) with (sta_loop s3).
    destruct (eapol_machine s3) as [m|]; cbn [option_map]; [|exact K1].
    apply (ready_weaken _ True); [intros _; by right|]. by apply (cached_keeps entry m G).
  - apply Hk, on_sm_inv; [|exact H3]. apply seq_keeps; [|apply step_keeps].
    destruct (non_null (eapol_machine s)); [keeps_frames|by intros m' G'].
Qed.

(** *** Runs *)

(** The engine states that are stepped in an event, and in a run. *)
Definition sta_event_log (i : sta_in) s : list E :=
  match i, eapol_machine s with
  | StaMachine i, Some m => event_log i m
  | _, _ => []
  end.

Fixpoint sta_log b (l : list sta_in) s : list E :=
  match l with
  | [] => []
  | i :: l => sta_event_log i s ++ sta_log b l (sta_event b i s)
  end.

(** Events that authorise the station without the EAP server: the
    configuration or a cached key for the machine, the 4-way handshake, and
    an association with a cached key. *)
Definition sta_grants (i : sta_in) s : bool :=
  match i with
  | StaMachine i => grants_port i
  | StaAuthorized a => a
  | StaNew _ => cached s
  | _ => false
  end.

Fixpoint sta_granted b (l : list sta_in) s : bool :=
  match l with
  | [] => false
  | i :: l => sta_grants i s || sta_granted b l (sta_event b i s)
  end.

Definition sta_ok (i : sta_in) : Prop := match i with StaMachine i => in_ok i | _ => True end.

Lemma last_port_take n (l : list eapol_out) x : last_port (take n l) = Some x -> last_port l = Some x.
Proof.
  revert n. induction l as [|o l IH]; intros [|n]; cbn [take last_port]; try done.
  destruct o; first [apply IH|done].
Qed.

Lemma machine_event_inv b i s m (G : Prop) :
  in_ok i -> eapol_machine s = Some m -> sta_inv s G ->
  sta_inv (run_sm b (eapol_event_run i) s) (G \/ accepted (event_log i m) \/ grants_port i = true).
Proof.
  intros Hok Em [H1 H2]. unfold run_sm. rewrite Em in H1 |- *. cbv zeta. destruct H1 as [H1 H3].
  pose proof (event_port_inv i m G Hok H1) as K1. pose proof (event_timed i m Hok H3) as K2.
  set (G' := G \/ _) in *. set (m' := eapol_event_run i m) in *. clearbody m'.
  set (s1 := setter eapol_machine (fun _ => Some m') s).
  destruct (callbacks_sv b (oom m) (newest (length (out m') - length (out m)) m') s1) as [[= E1 _ _] Ha].
  unfold sta_inv. rewrite E1. change (eapol_machine s1) with (Some m'). cbv iota.
  split; [by split|]. intros F. destruct (Ha F) as [Hl|[Hf _]].
  - unfold newest in Hl. rewrite rev_involutive in Hl. by apply last_port_take, (open_why m' G' K1) in Hl.
  - left. by apply H2.
Qed.

Lemma sta_event_inv b i s (G : Prop) :
  sta_ok i -> sta_inv s G ->
  sta_inv (sta_event b i s) (G \/ accepted (sta_event_log i s) \/ sta_grants i s = true).
Proof.
  intros Hok H.
  assert (Hk : forall s', sta_inv s' G -> sta_inv s' (G \/ accepted (sta_event_log i s) \/ sta_grants i s = true))
    by (intros s'; apply sta_inv_weaken; tauto).
  destruct i; cbn [sta_event sta_event_log sta_grants] in *.
  - by apply Hk, receive_inv.
  - eapply sta_inv_weaken; [|by apply new_station_inv]. tauto.
  - by apply Hk, free_inv.
  - destruct (eapol_machine s) as [m|] eqn:Em; [by apply machine_event_inv|]. apply Hk.
    assert (Hr : sta_inv (run_sm b (eapol_event_run i) s) G) by (unfold run_sm; by rewrite Em).
    destruct i; try exact Hr. destruct H as [_ H2]. split; [|exact H2].
    change (eapol_machine (setter sta_loop ?f s)) with (eapol_machine s). rewrite Em. exact Hok.
  - apply Hk. open_cmds. by apply (sv_inv s).
  - destruct H as [H1 H2]. pose proof (set_sta_authorized_sv authorized s) as [= E1 E2 E3 _].
    split; [rewrite E1, E2; destruct (eapol_machine s) as [m|]; [|exact H1];
      apply (ready_weaken m G); [tauto|exact H1]|].
    rewrite E3. destruct (sta_flag WLAN_STA_PREAUTH s); intros F; [left; auto|right; by right].
  - destruct H as [H1 H2]. apply Hk. unfold associate. open_cmds. split; [exact H1|].
    intros F. apply H2. revert F. unfold sta_flag. cbn [sta_flags].
    change (sta_flags (setter sta_flags ?f s)) with (f (sta_flags s)). cbv beta.
    destruct (Z.testbit (sta_flags s) WLAN_STA_AUTHORIZED) eqn:Et; [done|]. by rewrite Z.clearbit_eq.
Qed.

Lemma sta_run_inv b l s (G : Prop) :
  Forall sta_ok l -> sta_inv s G ->
  sta_inv (sta_run b l s) (G \/ accepted (sta_log b l s) \/ sta_granted b l s = true).
Proof.
  revert s G. induction l as [|i l IH]; intros s G Hl H; cbn [sta_run sta_log sta_granted].
  { eapply sta_inv_weaken; [|exact H]. tauto. }
  apply Forall_cons in Hl as [Hi Hl].
  eapply sta_inv_weaken; [|by apply IH; [|apply sta_event_inv]]. rewrite accepted_app, orb_true_iff. tauto.
Qed.

(** Not authorised, and the port of the machine, if there is one, shut. *)
Definition sta_closed s : Prop :=
  sta_flag WLAN_STA_AUTHORIZED s = false /\
  match eapol_machine s with Some m => closed (pv m) | None => True end.

(** A station that has just been added. *)
Definition sta_new s : Prop :=
  sta_flag WLAN_STA_AUTHORIZED s = false /\ eapol_machine s = None /\ clock_ok (now (sta_loop s)).

Lemma sta_authority b s l1 l2 :
  sta_new s -> Forall sta_ok (l1 ++ l2) ->
  let s1 := sta_run b l1 s in
  sta_closed s /\
  (sta_closed s1 -> sta_flag WLAN_STA_AUTHORIZED (sta_run b l2 s1) = true ->
   accepted (sta_log b l2 s1) \/ sta_granted b l2 s1 = true).
Proof.
  intros (H1 & H2 & H3) Hl. apply Forall_app in Hl as [Hl1 Hl2]. cbv zeta.
  split; [split; [exact H1|by rewrite H2]|].
  assert (H0 : sta_inv s True) by (split; [by rewrite H2|done]).
  apply (sta_run_inv b l1) in H0; [|exact Hl1]. set (s1 := sta_run b l1 s) in *. clearbody s1.
  intros [C1 C2] Ho. assert (Hi : sta_inv s1 False).
  { destruct H0 as [K1 K2]. split; [|by rewrite C1].
    destruct (eapol_machine s1) as [m|]; [|exact K1]. destruct K1 as [(L1 & L2 & _) L3].
    split; [|exact L3]. split; [exact L1|]. split; [exact L2|by left]. }
  apply (sta_run_inv b l2) in Hi; [|exact Hl2]. destruct Hi as [_ Hi]. destruct (Hi Ho) as [[]|Hi']; exact Hi'.
Qed.
End authorised.

(** ** Reads inside the frame *)

Section reads.
Context {E : Type} `{EE : !EapEngine E}.
Abbreviation S := (eapol_sm E).
Abbreviation sta := (sta_info E).
Implicit Types (s : sta) (m : S) (b : bss).

Lemma reading_in buf i (k : Z -> cmd sta) s :
  0 <= i < zlen buf -> exists v, rd buf i = Some v /\ reading buf i k s = k v s.
Proof.
  intros Hi. unfold reading, rd. rewrite (proj2 (Z.leb_le 0 i)) by lia. unfold zlen in Hi.
  destruct (lookup_lt_is_Some_2 buf (Z.to_nat i)) as [v Hv]; [lia|]. rewrite Hv. by exists v.
Qed.

Lemma reading_fault buf i (k : Z -> cmd sta) s :
  0 <= i < zlen buf -> (forall v, sta_fault (k v s) = sta_fault s) ->
  sta_fault (reading buf i k s) = sta_fault s.
Proof. intros Hi Hk. destruct (reading_in buf i k s Hi) as (v & _ & ->). apply Hk. Qed.

Lemma handle_eap_fault b buf at_ len s :
  config_macsec b = false -> 0 <= at_ -> at_ + len <= zlen buf ->
  sta_fault (handle_eap b buf at_ len s) = sta_fault s.
Proof.
  intros Hb Ha Hl. unfold handle_eap, sizeof_eap_hdr. destruct (Z.ltb_spec len 4); [done|].
  apply reading_fault; [lia|intros code]. apply reading_fault; [lia|intros hi].
  apply reading_fault; [lia|intros lo]. cbv zeta. set (n := Z.lor _ lo). clearbody n.
  destruct (Z.ltb_spec n 4); [done|]. destruct (Z.ltb_spec len n); [done|].
  destruct (code =? EAP_CODE_RESPONSE); [|destruct (code =? EAP_CODE_INITIATE); [|done]].
  - unfold handle_eap_response, sizeof_eap_hdr. destruct (negb _); [done|]. destruct (Z.ltb_spec n (4 + 1)); [done|].
    rewrite Hb. by apply reading_fault; [lia|].
  - unfold handle_eap_initiate, sizeof_eap_hdr. destruct (negb _); [done|]. destruct (Z.ltb_spec n (4 + 1)); [done|].
    by apply reading_fault; [lia|].
Qed.

Lemma callback_fault b o c s : config_macsec b = false -> sta_fault (callback b o c s) = sta_fault s.
Proof.
  intros Hb. assert (Hs : forall a s, sta_fault (ap_sta_set_authorized a s) = sta_fault s).
  { intros a s0. unfold ap_sta_set_authorized. by destruct (Bool.eqb _ _). }
  destruct c; cbn [callback]; unfold call; open_cmds; try reflexivity.
  - unfold ieee802_1x_send. rewrite Hb. destruct o; [done|]. by destruct (sta_flag _ _).
  - unfold ieee802_1x_set_sta_authorized. destruct (sta_flag _ _); [done|]. unfold call. open_cmds.
    destruct authorized; exact (Hs _ s).
  - by destruct type.
  - exact (Hs false (setter sent (fun _ => drv_sta_deauth reason :: sent s) s)).
Qed.

Lemma callbacks_fault b o l s : config_macsec b = false -> sta_fault (callbacks b o l s) = sta_fault s.
Proof.
  intros Hb. revert s. induction l as [|c l IH]; intros s; [done|]. cbn [callbacks]. open_cmds.
  by rewrite IH, callback_fault.
Qed.

Lemma need_fault b e s : config_macsec b = false -> sta_fault (need_eapol_sm b e s) = sta_fault s.
Proof.
  intros Hb. unfold need_eapol_sm. destruct (eapol_machine s); [done|]. unfold ieee802_1x_alloc_eapol_sm.
  destruct (eapol_auth_alloc _ _ _ _ _ _ _ _ _ _ _) as [om l]. exact (callbacks_fault _ _ _ _ Hb).
Qed.

Lemma receive_type_fault b buf type n s :
  config_macsec b = false -> sizeof_ieee802_1x_hdr + n <= zlen buf ->
  sta_fault (receive_type b buf type n s) = sta_fault s.
Proof.
  intros Hb Hn. unfold receive_type, seq_cmd.
  change (sta_fault (on_sm ?c ?x)) with (sta_fault x). unfold receive_switch.
  destruct (type =? IEEE802_1X_TYPE_EAP_PACKET); [by apply handle_eap_fault|].
  destruct (type =? IEEE802_1X_TYPE_EAPOL_START); [done|].
  destruct (type =? IEEE802_1X_TYPE_EAPOL_LOGOFF); [done|]. by destruct (_ || _).
Qed.

Lemma receive_fault b e t buf s :
  config_macsec b = false -> sta_fault (ieee802_1x_receive b e t buf s) = sta_fault s.
Proof.
  intros Hb. unfold ieee802_1x_receive. destruct (_ && negb (wps_state b)); [done|].
  destruct (negb (_ || _) && _); [by destruct (sta_flag WLAN_STA_AUTH s)|]. unfold sizeof_ieee802_1x_hdr.
  destruct (Z.ltb_spec (zlen buf) 4); [done|].
  apply reading_fault; [lia|intros v]. apply reading_fault; [lia|intros type].
  apply reading_fault; [lia|intros hi]. apply reading_fault; [lia|intros lo]. cbv zeta.
  set (n := Z.lor _ lo). clearbody n. destruct (Z.ltb_spec (zlen buf - 4) n); [done|].
  unfold receive_pdu. unfold seq_cmd at 1.
  match goal with |- context [on_sm ?c s] =>
    change (sta_fault s) with (sta_fault (on_sm c s)); set (s1 := on_sm c s); clearbody s1 end.
  cbv beta. destruct (wpa_key_frame type n buf); [done|]. destruct (negb (ieee802_1x b) && _ && _); [done|].
  destruct (uses_psk s1); [done|]. cbv zeta. pose proof (need_fault b e s1 Hb) as Hf.
  set (s2 := need_eapol_sm b e s1) in *. clearbody s2. destruct (negb _); [done|].
  rewrite receive_type_fault; [|done|unfold sizeof_ieee802_1x_hdr; lia]. by destruct (non_null _).
Qed.

Lemma free_fault s : sta_fault (ieee802_1x_free_station s) = sta_fault s.
Proof.
  unfold ieee802_1x_free_station. cbv zeta.
  change (eapol_machine (setter pending_eapol_rx ?f s)) with (eapol_machine s). by destruct (eapol_machine s).
Qed.

Lemma event_fault b i s : config_macsec b = false -> sta_fault (sta_event b i s) = sta_fault s.
Proof.
  intros Hb. destruct i; cbn [sta_event].
  - by apply receive_fault.
  - unfold ieee802_1x_new_station.
    destruct (_ && _); [apply free_fault|]. destruct (uses_psk s); [apply free_fault|]. cbv zeta.
    pose proof (need_fault b e s Hb) as Hf. set (s2 := need_eapol_sm b e s) in *. clearbody s2.
    destruct (negb _); [done|]. open_cmds. rewrite <-Hf. by destruct (wpa_auth_sta_get_pmksa _).
  - apply free_fault.
  - unfold run_sm. destruct (eapol_machine s) as [m|]; [exact (callbacks_fault _ _ _ _ Hb)|]. by destruct i.
  - done.
  - exact (callback_fault b false (set_port_authorized authorized) s Hb).
  - done.
Qed.

Lemma run_fault b l s : config_macsec b = false -> sta_fault (sta_run b l s) = sta_fault s.
Proof.
  intros Hb. revert s. induction l as [|i l IH]; intros s; [done|]. cbn [sta_run]. by rewrite IH, event_fault.
Qed.
End reads.
