(* ===== verification/Ieee8021xProperties.v ===== *)
(** * Stations and EAPOL frames: their properties

    Theorems about every station, under any sequence of frames, associations
    and events of its machine, with the EAP server of EapServer.v underneath;
    and a login made of frames. *)

From Stdlib Require Import String.
From S2P Require Import Prelude.
From S2P Require Import Wpabuf.
From S2P Require Import Common.
From S2P Require Import EapCommon.
From S2P Require Import EapServer.
From S2P Require Import EapControl.
From S2P Require Import EapSafety.
From S2P Require Import EapMethods.
From S2P Require Import EapProperties.
From S2P Require Import EapolEap.
From S2P Require Import Eloop.
From S2P Require Import EapolAuth.
From S2P Require Import EapolPort.
From S2P Require Import EapolProperties.
From S2P Require Import Ieee8021x.

Section composition.
Context {M P : Type} `{EM : !EapMethods M P, CB : !EapolCallbacks, EC : !ErpCrypto}.
Context `{ML : !EapMethodLaws}.

(** C2: From the frames on the network to the flag that lets a station's data
    through: whenever a station is not authorised and its port is shut, and it
    is later found authorised, its EAP server has in between had the authority
    to report success -- the selected method had succeeded, the authentication
    server had accepted the peer, or a fresh and authentic Re-auth message was
    held -- or it was authorised by configuration, by the 4-way handshake or
    for a cached key.  No sequence of frames does it otherwise. *)
Theorem station_authorised e0 b s l1 l2 :
  let EE := eap_engine e0 in
  sta_new s -> Forall sta_ok (l1 ++ l2) ->
  let s1 := sta_run b l1 s in
  sta_closed s /\
  (sta_closed s1 -> sta_flag WLAN_STA_AUTHORIZED (sta_run b l2 s1) = true ->
   (exists e e', List.In e (sta_log b l2 s1) /\ List.In e' (step_states step_fuel e) /\ eap_authority e') \/
   sta_granted b l2 s1 = true).
Proof.
  cbv zeta. intros Hn Hl.
  destruct (sta_authority (EL := eap_engine_laws e0) b s l1 l2 Hn Hl) as [Hc H]. split; [exact Hc|].
  intros Hs Ho. destruct (H Hs Ho) as [(e & He & e' & H1 & H2)|Hf]; [left|by right].
  exists e, e'. by split.
Qed.
End composition.

Section frames.
Context {E : Type} `{EE : !EapEngine E}.
Implicit Types (s : sta_info E) (b : bss).


(** C36: With CONFIG_MACSEC, sending a packet of at most ten octets, as every
    EAP-Success and EAP-Failure is, reads outside it; so does receiving an
    EAP-TLS response that ends before its flags and record type. *)
Theorem macsec_reads_outside b s :
  config_macsec b = true ->
  (forall type d, zlen d <= 10 -> sta_fault (ieee802_1x_send b false type d s) = true) /\
  (forall id tls_flags, non_null (eapol_machine s) = true -> (length tls_flags <= 1)%nat ->
     let n := 5 + zlen tls_flags in
     let packet := [EAP_CODE_RESPONSE; id; 0; n; 0x0d] ++ tls_flags in
     sta_fault (handle_eap b ([1; 0; 0; n] ++ packet) 4 n s) = true).
Proof.
  intros Hb. split.
  - intros type d Hd. unfold ieee802_1x_send. rewrite Hb. cbv zeta.
    assert (Hr : rd d 10 = None).
    { unfold rd, zlen in *. change (0 <=? 10) with true. cbv iota. apply lookup_ge_None_2. lia. }
    unfold save_server_random, reading. rewrite Hr. by destruct (sta_flag _ _).
  - intros id tls_flags Hm Hn. destruct tls_flags as [|f [|]]; [| |simpl in Hn; lia]; cbv zeta;
      match goal with |- sta_fault (handle_eap b ?buf 4 ?n s) = true =>
        change (handle_eap b buf 4 n s) with (handle_eap_response b buf 4 n s) end;
      unfold handle_eap_response; rewrite Hm; rewrite Hb; reflexivity.
Qed.

(** What [ieee802_1x_send] puts on the air is read back: a receiver that
    takes frames of the station finds the version, the type and the data that
    were sent, whatever octets follow the frame. *)
Theorem send_receive b s type d b' s' e now pad :
  config_macsec b = false -> 0 <= eapol_version b < 256 -> 0 <= type < 256 -> zlen d < 65536 ->
  ieee802_1x b' = true -> sta_flag WLAN_STA_ASSOC s' = true ->
  exists frame,
    sent (ieee802_1x_send b false type d s) =
      (if sta_flag WLAN_STA_PREAUTH s then rsn_preauth_send frame
       else send_eapol (wpa_auth_pairwise_set (wpa_machine s)) frame) :: sent s /\
    ieee802_1x_receive b' e now (frame ++ pad) s' =
      receive_pdu b' e (frame ++ pad) (eapol_version b) type (zlen d) s' /\
    slice (frame ++ pad) sizeof_ieee802_1x_hdr (zlen d) = d.
Proof.
  intros Hb Hv Ht Hd H1 Ha. set (n := zlen d).
  assert (Hn : 0 <= n < 65536) by (unfold n, zlen in *; lia).
  exists ([eapol_version b; type; n / 256; n mod 256] ++ d).
  assert (Hw : WPA_PUT_BE16 n = [n / 256; n mod 256]).
  { unfold WPA_PUT_BE16. rewrite u16_small by lia. change 0xff with (Z.ones 8).
    rewrite Z.land_ones, Z.shiftr_div_pow2 by lia. reflexivity. }
  split; [|split].
  - unfold ieee802_1x_send. rewrite Hb. cbv zeta. fold n. rewrite Hw, !u8_small by lia.
    by destruct (sta_flag WLAN_STA_PREAUTH s).
  - unfold ieee802_1x_receive. rewrite H1, Ha. cbn [negb andb orb].
    assert (Hl : zlen (([eapol_version b; type; n / 256; n mod 256] ++ d) ++ pad) = 4 + n + zlen pad).
    { unfold n, zlen. rewrite !length_app. simpl length. lia. }
    rewrite Hl. unfold sizeof_ieee802_1x_hdr. assert (0 <= zlen pad) by (unfold zlen; lia).
    rewrite (proj2 (Z.ltb_ge _ 4)) by lia. unfold reading. cbn [app rd lookup list_lookup].
    change (rd (?a :: ?l) 0) with (Some a). change (rd (?a :: ?c :: ?l) 1) with (Some c).
    change (rd (?a :: ?c :: ?x :: ?l) 2) with (Some x). change (rd (?a :: ?c :: ?x :: ?y :: ?l) 3) with (Some y).
    cbv iota zeta.
    assert (Hlo : Z.lor (Z.shiftl (n / 256) 8) (n mod 256) = n).
    { rewrite be16_val by (apply Z.mod_pos_bound; lia). pose proof (Z.div_mod n 256 ltac:(lia)). lia. }
    rewrite Hlo. rewrite (proj2 (Z.ltb_ge _ n)) by lia. reflexivity.
  - unfold slice, sizeof_ieee802_1x_hdr. change (Z.to_nat 4) with 4%nat. cbn [app drop].
    unfold n, zlen. rewrite Nat2Z.id. apply take_app_length.
Qed.
End frames.

(** ** Witnesses *)

#[local] Existing Instance demo_engine.

Definition demo_bss (macsec : bool) : bss :=
  mk_bss true false false false 2 false macsec (Some demo_authenticator).
Definition demo_sta : sta_info (eap_sm eap_method method_data) :=
  mk_sta _ [2; 0; 0; 0; 0; 1] 0 None None None [] [] false 0 None None None None [] false demo_loop.
Definition demo_alloc_env : alloc_env := mk_alloc 4096 (Some 7) false.

(** An EAPOL frame with an EAP packet, with an octet of padding. *)
Definition demo_frame (type : Z) (d : list Z) : list Z := [1; type; 0; zlen d] ++ d ++ [0].
Definition demo_rx (type : Z) (d : list Z) : sta_in :=
  StaReceive demo_alloc_env (mk_reltime 100 0) (demo_frame type d).
Definition demo_serve : sta_in := StaMachine InDispatch.

Definition demo_join : list sta_in :=
  [StaAssociated (2 ^ WLAN_STA_AUTH + 2 ^ WLAN_STA_ASSOC); StaNew demo_alloc_env;
   StaMachine (InPortValid true); demo_serve; demo_serve].
Definition demo_auth : list sta_in :=
  [demo_rx 0 (demo_response 77 EAP_TYPE_IDENTITY (chars "user")); demo_serve;
   demo_rx 0 (demo_response 78 EAP_TYPE_GTC (chars "secret")); demo_serve].

(** The station logs off, associates anew and logs in again. *)
Definition demo_leave : list sta_in :=
  [demo_rx 2 []; demo_serve; demo_serve;
   StaAssociated (2 ^ WLAN_STA_AUTH + 2 ^ WLAN_STA_ASSOC); StaNew demo_alloc_env; demo_serve; demo_serve].
Definition demo_return : list sta_in :=
  [demo_rx 0 (demo_response 79 EAP_TYPE_IDENTITY (chars "user")); demo_serve;
   demo_rx 0 (demo_response 80 EAP_TYPE_GTC (chars "secret")); demo_serve].

Lemma demo_sta_ok : Forall sta_ok ((demo_join ++ demo_auth ++ demo_leave) ++ demo_return).
Proof. repeat (apply Forall_cons; split); try apply Forall_nil; exact I. Defined.

Lemma demo_sta_new : sta_new demo_sta.
Proof. by vm_compute. Defined.

Lemma station_authorised_witness :
  let s1 := sta_run (demo_bss false) (demo_join ++ demo_auth ++ demo_leave) demo_sta in
  sta_flag WLAN_STA_AUTHORIZED (sta_run (demo_bss false) (demo_join ++ demo_auth) demo_sta) = true /\
  sta_flag WLAN_STA_AUTHORIZED s1 = false /\
  sta_flag WLAN_STA_AUTHORIZED (sta_run (demo_bss false) demo_return s1) = true /\
  ((exists e e', List.In e (sta_log (demo_bss false) demo_return s1) /\
      List.In e' (step_states (EM := demo_methods false) (CB := demo_callbacks false) step_fuel e) /\
      eap_authority (EM := demo_methods false) (CB := demo_callbacks false) e') \/
   sta_granted (demo_bss false) demo_return s1 = true).
Proof.
  cbv zeta. split; [vm_compute; reflexivity|]. split; [vm_compute; reflexivity|].
  split; [vm_compute; reflexivity|].
  pose proof (station_authorised (EM := demo_methods false) (CB := demo_callbacks false) (ML := demo_laws false)
    demo_env (demo_bss false) demo_sta (demo_join ++ demo_auth ++ demo_leave) demo_return demo_sta_new demo_sta_ok)
    as [_ H].
  apply H; clear H.
  - vm_compute. repeat split; discriminate.
  - vm_compute. reflexivity.
Defined.


(** The login of the first witness, in a build with CONFIG_MACSEC. *)
Lemma macsec_reads_outside_witness :
  sta_fault (ieee802_1x_send (demo_bss true) false 0 [3; 78; 0; 4] demo_sta) = true /\
  sta_fault (sta_run (demo_bss true) demo_join demo_sta) = true.
Proof.
  split; [|vm_compute; reflexivity].
  pose proof (macsec_reads_outside (demo_bss true) demo_sta eq_refl) as [H _]. apply H. vm_compute. discriminate.
Defined.

Lemma send_receive_witness :
  exists frame,
    sent (ieee802_1x_send (demo_bss false) false 0 [3; 78; 0; 4] demo_sta) = [send_eapol false frame] /\
    slice (frame ++ [0; 0]) 4 4 = [3; 78; 0; 4].
Proof.
  destruct (send_receive (demo_bss false) demo_sta 0 [3; 78; 0; 4] (demo_bss false)
    (setter sta_flags (fun _ => 2 ^ WLAN_STA_ASSOC) demo_sta) demo_alloc_env (mk_reltime 100 0) [0; 0])
    as (frame & H1 & _ & H2).
  - reflexivity.
  - by vm_compute.
  - lia.
  - by vm_compute.
  - reflexivity.
  - reflexivity.
  - exists frame. split; [exact H1|exact H2].
Defined.
