(* ===== verification/RadiusMsg.v ===== *)
(** * RADIUS messages (src/src/radius/radius.c, radius.h)

    A message is the buffer that holds it and the positions of its attributes
    in the buffer.  [msg->hdr] always points to the head of the buffer
    ([radius_msg_add_attr] sets it again when the buffer moves), so a member
    of the header is a read or a write at a fixed offset, and a pointer to an
    attribute is its offset.  A function that changes the message returns the
    changed one.

    Memory comes from an allocator whose answers are a list of failures, and a
    run stops where the process does: an append without room
    ([wpabuf_overflow]) or an access outside the allocation.  The printing of
    messages ([radius_msg_dump] and the attribute names) is left out. *)

From Stdlib Require Import String.
From stdpp Require Import sorting.
From S2P Require Import Prelude.
From S2P Require Import Wpabuf.
From S2P Require Import Common.
From S2P Require Import Hash.

(** ** Runs that allocate and may stop *)

Inductive stop := Overflow | OutOfBounds | UseAfterFree | NullPointer.

#[global] Instance stop_eq_dec : EqDecision stop.
Proof. solve_decision. Defined.

(** [mem]: whether the next allocations fail; past its end none does. *)
Inductive result (A : Type) :=
  | Go (a : A) (mem : list bool)
  | Halt (why : stop).
Arguments Go {A} a mem.
Arguments Halt {A} why.

Definition run (A : Type) : Type := list bool -> result A.

#[global] Instance run_ret : MRet run := fun A a mem => Go a mem.
#[global] Instance run_bind : MBind run := fun A B f e mem =>
  match e mem with Go a mem => f a mem | Halt why => Halt why end.

(** An allocation; the answer is whether it failed. *)
Definition alloc : run bool := fun mem =>
  match mem with [] => Go false [] | oom :: mem => Go oom mem end.
Definition halt {A} (why : stop) : run A := fun _ => Halt why.
Definition or_abort {A} (e : option A) : run A :=
  match e with Some a => mret a | None => halt Overflow end.

(** ** Data (radius.h) *)

Definition RADIUS_CODE_ACCESS_REQUEST : Z := 1.
Definition RADIUS_CODE_ACCESS_ACCEPT : Z := 2.
Definition RADIUS_CODE_ACCESS_REJECT : Z := 3.
Definition RADIUS_CODE_ACCOUNTING_REQUEST : Z := 4.
Definition RADIUS_CODE_ACCOUNTING_RESPONSE : Z := 5.
Definition RADIUS_CODE_ACCESS_CHALLENGE : Z := 11.

Definition RADIUS_ATTR_USER_NAME : Z := 1.
Definition RADIUS_ATTR_USER_PASSWORD : Z := 2.
Definition RADIUS_ATTR_STATE : Z := 24.
Definition RADIUS_ATTR_CLASS : Z := 25.
Definition RADIUS_ATTR_VENDOR_SPECIFIC : Z := 26.
Definition RADIUS_ATTR_SESSION_TIMEOUT : Z := 27.
Definition RADIUS_ATTR_IDLE_TIMEOUT : Z := 28.
Definition RADIUS_ATTR_TERMINATION_ACTION : Z := 29.
Definition RADIUS_ATTR_EGRESS_VLANID : Z := 56.
Definition RADIUS_ATTR_TUNNEL_TYPE : Z := 64.
Definition RADIUS_ATTR_TUNNEL_MEDIUM_TYPE : Z := 65.
Definition RADIUS_ATTR_TUNNEL_PASSWORD : Z := 69.
Definition RADIUS_ATTR_EAP_MESSAGE : Z := 79.
Definition RADIUS_ATTR_MESSAGE_AUTHENTICATOR : Z := 80.
Definition RADIUS_ATTR_TUNNEL_PRIVATE_GROUP_ID : Z := 81.
Definition RADIUS_ATTR_ACCT_INTERIM_INTERVAL : Z := 85.
Definition RADIUS_ATTR_CHARGEABLE_USER_IDENTITY : Z := 89.

Definition RADIUS_TERMINATION_ACTION_DEFAULT : Z := 0.
Definition RADIUS_TERMINATION_ACTION_RADIUS_REQUEST : Z := 1.
Definition RADIUS_TUNNEL_TAGS : Z := 32.
Definition RADIUS_TUNNEL_TYPE_VLAN : Z := 13.
Definition RADIUS_TUNNEL_MEDIUM_TYPE_802 : Z := 6.
Definition RADIUS_VENDOR_ID_CISCO : Z := 9.
Definition RADIUS_CISCO_AV_PAIR : Z := 1.
Definition RADIUS_VENDOR_ID_MICROSOFT : Z := 311.
Definition RADIUS_VENDOR_ATTR_MS_MPPE_SEND_KEY : Z := 16.
Definition RADIUS_VENDOR_ATTR_MS_MPPE_RECV_KEY : Z := 17.
Definition RADIUS_VENDOR_ID_WFA : Z := 40808.
Definition RADIUS_DEFAULT_MSG_SIZE : Z := 1024.
Definition RADIUS_DEFAULT_ATTR_COUNT : Z := 16.

Definition sizeof_radius_hdr : Z := 20.
Definition sizeof_radius_attr_hdr : Z := 2.
Definition sizeof_radius_attr_vendor : Z := 2.
Definition RADIUS_MAX_ATTR_LEN : Z := 255 - sizeof_radius_attr_hdr.
Definition MD5_MAC_LEN : Z := 16.

(** [attr_used] is the length of [attr_pos]. *)
Record radius_msg := mk_msg {
  buf : wpabuf;
  attr_pos : list Z;
  attr_size : Z
}.

Definition attr_used (m : radius_msg) : Z := zlen (attr_pos m).
Definition octets (m : radius_msg) : list Z := wpabuf_head (buf m).

(** The octets [d] written at [off] into the used part of the buffer. *)
Definition poke (off : Z) (d : list Z) (m : radius_msg) : radius_msg :=
  mk_msg (mk_wpabuf (size (buf m)) (take (length (octets m)) (mem_write off d (octets m)))
                    (flags (buf m))) (attr_pos m) (attr_size m).

(** Accesses that the source does not check: they may reach the part of the
    allocation behind the used one, which holds zeros, but not further. *)
Definition peek_unchecked (m : radius_msg) (off n : Z) : run (list Z) :=
  if size (buf m) <? off + n then halt OutOfBounds
  else mret (slice (octets m ++ replicate (Z.to_nat (size (buf m) - zlen (octets m))) 0) off n).
Definition poke_unchecked (off : Z) (d : list Z) (m : radius_msg) : run radius_msg :=
  if size (buf m) <? off + zlen d then halt OutOfBounds else mret (poke off d m).

(** ** The header *)

Definition hdr_code (m : radius_msg) : Z := byte_at (octets m) 0.
Definition hdr_identifier (m : radius_msg) : Z := byte_at (octets m) 1.
Definition hdr_authenticator (m : radius_msg) : list Z := slice (octets m) 4 16.
Definition set_length (m : radius_msg) : radius_msg :=
  poke 2 (WPA_PUT_BE16 (u16 (wpabuf_len (buf m)))) m.
Definition set_authenticator (a : list Z) : radius_msg -> radius_msg := poke 4 a.

Definition radius_msg_set_hdr (code identifier : Z) (m : radius_msg) : radius_msg :=
  poke 1 [identifier] (poke 0 [code] m).

(** ** Attributes: [radius_get_attr_hdr], and the members of the result *)

Definition attr_type (m : radius_msg) (p : Z) : Z := byte_at (octets m) p.
Definition attr_length (m : radius_msg) (p : Z) : Z := byte_at (octets m) (p + 1).
(** The value, where the source has checked that there is one. *)
Definition attr_value (m : radius_msg) (p : Z) : list Z :=
  slice (octets m) (p + sizeof_radius_attr_hdr) (attr_length m p - sizeof_radius_attr_hdr).

(** ** Creation and attributes *)

Definition radius_msg_initialize (b : wpabuf) : run (option radius_msg) :=
  oom ← alloc;
  mret (if oom : bool then None else Some (mk_msg b [] RADIUS_DEFAULT_ATTR_COUNT)).

Definition radius_msg_new (code identifier : Z) : run (option radius_msg) :=
  oom ← alloc;
  if oom : bool then mret None else
  oom ← alloc;
  match wpabuf_alloc oom RADIUS_DEFAULT_MSG_SIZE with
  | None => mret None
  | Some b =>
      m ← radius_msg_initialize b;
      match m with
      | None => mret None
      | Some m =>
          b ← or_abort (wpabuf_put (buf m) sizeof_radius_hdr);
          mret (Some (radius_msg_set_hdr code identifier (mk_msg b (attr_pos m) (attr_size m))))
      end
  end.

(** The result is whether the position could be stored. *)
Definition radius_msg_add_attr_to_array (m : radius_msg) (pos : Z) : run (bool * radius_msg) :=
  if attr_size m <=? attr_used m then
    let nlen := i32 (attr_size m * 2) in
    oom ← alloc;
    if oom : bool then mret (false, m)
    else mret (true, mk_msg (buf m) (attr_pos m ++ [pos]) (u64 nlen))
  else mret (true, mk_msg (buf m) (attr_pos m ++ [pos]) (attr_size m)).

(** The new attribute ([None]: NULL) and the changed message. *)
Definition radius_msg_add_attr (m : radius_msg) (type : Z) (d : list Z)
    : run (option Z * radius_msg) :=
  if RADIUS_MAX_ATTR_LEN <? zlen d then mret (None, m) else
  let buf_needed := sizeof_radius_attr_hdr + zlen d in
  oom ← (if wpabuf_tailroom (buf m) <? buf_needed then alloc else mret false);
  let '(res, b) :=
    (if wpabuf_tailroom (buf m) <? buf_needed then wpabuf_resize oom (Some (buf m)) buf_needed
     else (0, Some (buf m))) in
  match b with
  | None => mret (None, m)
  | Some b =>
      if res <? 0 then mret (None, mk_msg b (attr_pos m) (attr_size m)) else
      let attr := wpabuf_len b in
      b ← or_abort (wpabuf_put b sizeof_radius_attr_hdr);
      let m := poke attr [u8 type; u8 (sizeof_radius_attr_hdr + zlen d)]
                    (mk_msg b (attr_pos m) (attr_size m)) in
      b ← or_abort (wpabuf_put_data (buf m) d);
      '(stored, m) ← radius_msg_add_attr_to_array (mk_msg b (attr_pos m) (attr_size m)) attr;
      mret (if stored : bool then Some attr else None, m)
  end.

Definition radius_msg_add_attr_int32 (m : radius_msg) (type value : Z) : run (bool * radius_msg) :=
  '(attr, m) ← radius_msg_add_attr m type (WPA_PUT_BE32 value);
  mret (non_null attr, m).

(** [while (pos < end)]; [false]: the message is dropped. *)
Fixpoint parse_attributes (fuel : nat) (m : radius_msg) (pos : Z) : run (bool * radius_msg) :=
  match fuel with
  | O => mret (true, m)
  | Datatypes.S fuel =>
      if wpabuf_len (buf m) <=? pos then mret (true, m)
      else if wpabuf_len (buf m) - pos <? sizeof_radius_attr_hdr then mret (false, m)
      else if (wpabuf_len (buf m) - pos <? attr_length m pos)
              || (attr_length m pos <? sizeof_radius_attr_hdr) then mret (false, m)
      else
        '(stored, m) ← radius_msg_add_attr_to_array m pos;
        if stored : bool then parse_attributes fuel m (pos + attr_length m pos)
        else mret (false, m)
  end.

Definition radius_msg_parse (d : list Z) : run (option radius_msg) :=
  if zlen d <? sizeof_radius_hdr then mret None else
  let msg_len := WPA_GET_BE16 d 2 in
  if (msg_len <? sizeof_radius_hdr) || (zlen d <? msg_len) then mret None else
  oom ← alloc;
  if oom : bool then mret None else
  oom ← alloc;
  b ← or_abort (wpabuf_alloc_copy oom (slice d 0 msg_len));
  match b with
  | None => mret None
  | Some b =>
      m ← radius_msg_initialize b;
      match m with
      | None => mret None
      | Some m =>
          '(ok, m) ← parse_attributes (length d) m sizeof_radius_hdr;
          mret (if ok : bool then Some m else None)
      end
  end.

(** ** Authenticators *)

(** [hmac_md5(secret, secret_len, head(msg->buf), len, attr + 1)], whose
    result is not looked at. *)
Definition put_message_authenticator (secret : list Z) (attr : Z) (m : radius_msg) : radius_msg :=
  match hmac_md5 secret (octets m) with
  | Some mac => poke (attr + sizeof_radius_attr_hdr) mac m
  | None => m
  end.

Definition zero_mac : list Z := replicate 16 0.

Definition too_long (m : radius_msg) : Z := if 0xffff <? wpabuf_len (buf m) then -1 else 0.

(** [secret]: [None] is NULL. *)
Definition radius_msg_finish (m : radius_msg) (secret : option (list Z)) : run (Z * radius_msg) :=
  match secret with
  | Some secret =>
      '(attr, m) ← radius_msg_add_attr m RADIUS_ATTR_MESSAGE_AUTHENTICATOR zero_mac;
      match attr with
      | None => mret (-1, m)
      | Some attr =>
          let m := put_message_authenticator secret attr (set_length m) in
          mret (too_long m, m)
      end
  | None => let m := set_length m in mret (too_long m, m)
  end.

(** What the Response Authenticator is computed from. *)
Definition attribute_octets (m : radius_msg) : list Z :=
  slice (octets m) sizeof_radius_hdr (wpabuf_len (buf m) - sizeof_radius_hdr).
Definition response_authenticator (m : radius_msg) (req_auth secret : list Z) : list Z :=
  md5_vector [slice (octets m) 0 4; req_auth; attribute_octets m; secret].

Definition radius_msg_finish_srv (m : radius_msg) (secret req_authenticator : list Z)
    : run (Z * radius_msg) :=
  '(attr, m) ← radius_msg_add_attr m RADIUS_ATTR_MESSAGE_AUTHENTICATOR zero_mac;
  match attr with
  | None => mret (-1, m)
  | Some attr =>
      let m := set_authenticator req_authenticator (set_length m) in
      let m := put_message_authenticator secret attr m in
      let m := set_authenticator (response_authenticator m req_authenticator secret) m in
      mret (too_long m, m)
  end.

(** [req_auth] is [req_hdr->authenticator]. *)
Definition radius_msg_finish_das_resp (m : radius_msg) (secret req_auth : list Z)
    : run (Z * radius_msg) :=
  '(attr, m) ← radius_msg_add_attr m RADIUS_ATTR_MESSAGE_AUTHENTICATOR zero_mac;
  match attr with
  | None => mret (-1, m)
  | Some attr =>
      let m := set_authenticator req_auth (set_length m) in
      let m := put_message_authenticator secret attr m in
      let m := set_authenticator (md5_vector [octets m; secret]) m in
      mret (too_long m, m)
  end.

Definition radius_msg_finish_acct (m : radius_msg) (secret : list Z) : radius_msg :=
  let m := set_authenticator zero_mac (set_length m) in
  set_authenticator (md5_vector [octets m; secret]) m.

Definition radius_msg_finish_acct_resp (m : radius_msg) (secret req_authenticator : list Z)
    : radius_msg :=
  let m := set_authenticator req_authenticator (set_length m) in
  set_authenticator (md5_vector [octets m; secret]) m.

(** [MD5(header without authenticator, zeros, attributes, secret)]. *)
Definition request_authenticator (m : radius_msg) (secret : list Z) : list Z :=
  md5_vector [slice (octets m) 0 4; zero_mac; attribute_octets m; secret].

Definition memcmp_differs (a b : list Z) : bool := negb (bool_decide (a = b)).

Definition radius_msg_verify_acct_req (m : radius_msg) (secret : list Z) : bool :=
  memcmp_differs (hdr_authenticator m) (request_authenticator m secret).

(** The loop of [radius_msg_verify_das_req] and [radius_msg_verify_msg_auth]:
    [None] if there are several Message-Authenticator attributes. *)
Fixpoint find_message_authenticator (m : radius_msg) (ps : list Z) (attr : option Z)
    : option (option Z) :=
  match ps with
  | [] => Some attr
  | tmp :: ps =>
      if attr_type m tmp =? RADIUS_ATTR_MESSAGE_AUTHENTICATOR then
        match attr with
        | Some _ => None
        | None => find_message_authenticator m ps (Some tmp)
        end
      else find_message_authenticator m ps attr
  end.

(** The results are that of the function ([true]: not valid) and the message,
    which is changed for the computation and restored. *)
Definition radius_msg_verify_das_req (m : radius_msg) (secret : list Z) : run (bool * radius_msg) :=
  if memcmp_differs (hdr_authenticator m) (request_authenticator m secret) then mret (true, m) else
  match find_message_authenticator m (attr_pos m) None with
  | None => mret (true, m)
  | Some None => mret (false, m)
  | Some (Some attr) =>
      orig ← peek_unchecked m (attr + sizeof_radius_attr_hdr) MD5_MAC_LEN;
      m ← poke_unchecked (attr + sizeof_radius_attr_hdr) zero_mac m;
      let orig_authenticator := hdr_authenticator m in
      let m := set_authenticator zero_mac m in
      let auth := hmac_md5 secret (octets m) in
      m ← poke_unchecked (attr + sizeof_radius_attr_hdr) orig m;
      let m := set_authenticator orig_authenticator m in
      mret (memcmp_differs orig (default (take 16 stack_junk) auth), m)
  end.

(** [req_auth]: [None] is NULL. *)
Definition radius_msg_verify_msg_auth (m : radius_msg) (secret : list Z) (req_auth : option (list Z))
    : run (bool * radius_msg) :=
  match find_message_authenticator m (attr_pos m) None with
  | None | Some None => mret (true, m)
  | Some (Some attr) =>
      orig ← peek_unchecked m (attr + sizeof_radius_attr_hdr) MD5_MAC_LEN;
      m ← poke_unchecked (attr + sizeof_radius_attr_hdr) zero_mac m;
      let orig_authenticator := hdr_authenticator m in
      let m := match req_auth with Some a => set_authenticator a m | None => m end in
      match hmac_md5 secret (octets m) with
      | None => mret (true, m)
      | Some auth =>
          m ← poke_unchecked (attr + sizeof_radius_attr_hdr) orig m;
          let m := match req_auth with
                   | Some _ => set_authenticator orig_authenticator m
                   | None => m
                   end in
          mret (memcmp_differs orig auth, m)
      end
  end.

(** [sent_msg]: [None] is NULL; [auth]: whether Message-Authenticator is
    required. *)
Definition radius_msg_verify (m : radius_msg) (secret : list Z) (sent_msg : option radius_msg)
    (auth : bool) : run (bool * radius_msg) :=
  match sent_msg with
  | None => mret (true, m)
  | Some sent =>
      '(bad, m) ← (if auth then radius_msg_verify_msg_auth m secret (Some (hdr_authenticator sent))
                   else mret (false, m));
      if bad : bool then mret (true, m)
      else mret (memcmp_differs (response_authenticator m (hdr_authenticator sent) secret)
                                (hdr_authenticator m), m)
  end.

(** ** EAP messages and copies of attributes *)

(** [while (left > 0)]. *)
Fixpoint add_eap_loop (fuel : nat) (m : radius_msg) (d : list Z) : run (Z * radius_msg) :=
  match fuel with
  | O => mret (1, m)
  | Datatypes.S fuel =>
      if zlen d <=? 0 then mret (1, m) else
      let len := if RADIUS_MAX_ATTR_LEN <? zlen d then RADIUS_MAX_ATTR_LEN else zlen d in
      '(attr, m) ← radius_msg_add_attr m RADIUS_ATTR_EAP_MESSAGE (slice d 0 len);
      match attr with
      | None => mret (0, m)
      | Some _ => add_eap_loop fuel m (drop (Z.to_nat len) d)
      end
  end.
Definition radius_msg_add_eap (m : radius_msg) (d : list Z) : run (Z * radius_msg) :=
  add_eap_loop (Datatypes.S (length d)) m d.

Definition has_eap (m : radius_msg) (p : Z) : bool :=
  (attr_type m p =? RADIUS_ATTR_EAP_MESSAGE) && (sizeof_radius_attr_hdr <? attr_length m p).

Definition eap_len (m : radius_msg) (ps : list Z) : Z :=
  fold_left (fun len p => if has_eap m p then len + (attr_length m p - sizeof_radius_attr_hdr) else len)
            ps 0.

Fixpoint copy_eap (m : radius_msg) (ps : list Z) (eap : wpabuf) : option wpabuf :=
  match ps with
  | [] => Some eap
  | p :: ps =>
      let? eap := (if has_eap m p then wpabuf_put_data eap (attr_value m p) else Some eap) in
      copy_eap m ps eap
  end.

(** [msg]: [None] is NULL. *)
Definition radius_msg_get_eap (msg : option radius_msg) : run (option wpabuf) :=
  match msg with
  | None => mret None
  | Some m =>
      let len := eap_len m (attr_pos m) in
      if len =? 0 then mret None else
      oom ← alloc;
      match wpabuf_alloc oom len with
      | None => mret None
      | Some eap => eap ← or_abort (copy_eap m (attr_pos m) eap); mret (Some eap)
      end
  end.

Fixpoint copy_attr_loop (dst src : radius_msg) (type : Z) (ps : list Z) (count : Z)
    : run (Z * radius_msg) :=
  match ps with
  | [] => mret (count, dst)
  | p :: ps =>
      if (attr_type src p =? type) && (sizeof_radius_attr_hdr <=? attr_length src p) then
        '(attr, dst) ← radius_msg_add_attr dst type (attr_value src p);
        match attr with
        | None => mret (-1, dst)
        | Some _ => copy_attr_loop dst src type ps (count + 1)
        end
      else copy_attr_loop dst src type ps count
  end.
Definition radius_msg_copy_attr (dst src : radius_msg) (type : Z) : run (Z * radius_msg) :=
  copy_attr_loop dst src type (attr_pos src) 0.

(** [random]: the octets of [os_get_random], [None] if it fails. *)
Definition radius_msg_make_authenticator (random : option (list Z)) (m : radius_msg)
    : Z * radius_msg :=
  match random with
  | Some a => (0, set_authenticator a m)
  | None => (-1, m)
  end.

(** ** Vendor specific attributes *)

(** [while (left >= sizeof( *vhdr))]: position and length of the payload. *)
Fixpoint vendor_loop (fuel : nat) (d : list Z) (pos left subtype : Z) : option (Z * Z) :=
  match fuel with
  | O => None
  | Datatypes.S fuel =>
      if left <? sizeof_radius_attr_vendor then None else
      let vendor_length := byte_at d (pos + 1) in
      if (left <? vendor_length) || (vendor_length <? sizeof_radius_attr_vendor) then None
      else if negb (byte_at d pos =? subtype) then
        vendor_loop fuel d (pos + vendor_length) (left - vendor_length) subtype
      else Some (pos + sizeof_radius_attr_vendor, vendor_length - sizeof_radius_attr_vendor)
  end.

Fixpoint find_vendor_attr (m : radius_msg) (ps : list Z) (vendor subtype : Z) : option (Z * Z) :=
  match ps with
  | [] => None
  | p :: ps =>
      if negb (attr_type m p =? RADIUS_ATTR_VENDOR_SPECIFIC)
         || (attr_length m p <? sizeof_radius_attr_hdr) then find_vendor_attr m ps vendor subtype
      else
        let left := attr_length m p - sizeof_radius_attr_hdr in
        let pos := p + sizeof_radius_attr_hdr in
        if left <? 4 then find_vendor_attr m ps vendor subtype
        else if negb (WPA_GET_BE32 (octets m) pos =? vendor) then find_vendor_attr m ps vendor subtype
        else
          match vendor_loop (Z.to_nat left) (octets m) (pos + 4) (left - 4) subtype with
          | Some found => Some found
          | None => find_vendor_attr m ps vendor subtype
          end
  end.

(** The copy of the payload; [None]: NULL. *)
Definition radius_msg_get_vendor_attr (m : radius_msg) (vendor subtype : Z) : run (option (list Z)) :=
  match find_vendor_attr m (attr_pos m) vendor subtype with
  | None => mret None
  | Some (pos, len) =>
      oom ← alloc;
      mret (if oom : bool then None else Some (slice (octets m) pos len))
  end.

(** The octets of one block, and the rest of the loop with the encrypted block
    as the new part of the hashed data. *)
Fixpoint decrypt_blocks (fuel : nat) (secret : list Z) (seed : list (list Z)) (d : list Z) : list Z :=
  match fuel with
  | O => []
  | Datatypes.S fuel =>
      if zlen d <=? 0 then [] else
      zip_with Z.lxor (take 16 d) (md5_vector (secret :: seed))
        ++ decrypt_blocks fuel secret [take 16 d] (drop 16 d)
  end.

Definition decrypt_ms_key (key req_authenticator secret : list Z) : run (option (list Z)) :=
  if zlen key <? 2 + 16 then mret None else
  let left := zlen key - 2 in
  if negb (left mod 16 =? 0) then mret None else
  let plen := left in
  oom ← alloc;
  if oom : bool then mret None else
  let plain := decrypt_blocks (length key) secret [req_authenticator; take 2 key] (drop 2 key) in
  if (byte_at plain 0 =? 0) || (plen - 1 <? byte_at plain 0) then mret None else
  oom ← alloc;
  mret (if oom : bool then None else Some (slice plain 1 (byte_at plain 0))).

(** The first [len] octets are encrypted in place. *)
Fixpoint encrypt_blocks (fuel : nat) (secret : list Z) (seed : list (list Z)) (d : list Z) : list Z :=
  match fuel with
  | O => []
  | Datatypes.S fuel =>
      if zlen d <=? 0 then [] else
      let c := zip_with Z.lxor (take 16 d) (md5_vector (secret :: seed)) in
      c ++ encrypt_blocks fuel secret [c] (drop 16 d)
  end.

(** [ebuf] and [*elen] of the caller. *)
Definition encrypt_ms_key (key : list Z) (salt : Z) (req_authenticator secret ebuf : list Z)
    : list Z * Z :=
  let saltbuf := WPA_PUT_BE16 salt in
  let len := i32 (1 + zlen key) in
  let len := if negb (Z.land len 0x0f =? 0) then Z.land len 0xf0 + 16 else len in
  let ebuf := mem_write 0 (replicate (Z.to_nat len) 0) ebuf in
  let ebuf := mem_write 0 [u8 (zlen key)] ebuf in
  let ebuf := mem_write 1 key ebuf in
  (mem_write 0 (encrypt_blocks (Z.to_nat len) secret [req_authenticator; saltbuf]
                               (slice ebuf 0 len)) ebuf, len).

Record radius_ms_mppe_keys := mk_mppe_keys {
  send_key : option (list Z);
  recv_key : option (list Z)
}.

(** [msg] and [sent_msg]: [None] is NULL. *)
Definition radius_msg_get_ms_keys (msg sent_msg : option radius_msg) (secret : list Z)
    : run (option radius_ms_mppe_keys) :=
  match msg, sent_msg with
  | Some msg, Some sent_msg =>
      oom ← alloc;
      if oom : bool then mret None else
      key ← radius_msg_get_vendor_attr msg RADIUS_VENDOR_ID_MICROSOFT RADIUS_VENDOR_ATTR_MS_MPPE_SEND_KEY;
      send ← (match key with
              | Some key => decrypt_ms_key key (hdr_authenticator sent_msg) secret
              | None => mret None
              end);
      key ← radius_msg_get_vendor_attr msg RADIUS_VENDOR_ID_MICROSOFT RADIUS_VENDOR_ATTR_MS_MPPE_RECV_KEY;
      recv ← (match key with
              | Some key => decrypt_ms_key key (hdr_authenticator sent_msg) secret
              | None => mret None
              end);
      mret (Some (mk_mppe_keys send recv))
  | _, _ => mret None
  end.

Definition leap_session_key : list Z := chars "leap:session-key="%string.

Definition radius_msg_get_cisco_keys (msg sent_msg : option radius_msg) (secret : list Z)
    : run (option radius_ms_mppe_keys) :=
  match msg, sent_msg with
  | Some msg, Some sent_msg =>
      oom ← alloc;
      if oom : bool then mret None else
      key ← radius_msg_get_vendor_attr msg RADIUS_VENDOR_ID_CISCO RADIUS_CISCO_AV_PAIR;
      recv ← (match key with
              | Some key =>
                  if (zlen key =? 51) && bool_decide (slice key 0 17 = leap_session_key) then
                    decrypt_ms_key (slice key 17 (zlen key - 17)) (hdr_authenticator sent_msg) secret
                  else mret None
              | None => mret None
              end);
      mret (Some (mk_mppe_keys None recv))
  | _, _ => mret None
  end.

(** What [malloc] leaves in the buffer of an encrypted key. *)
Definition heap_junk (n : Z) : list Z := replicate (Z.to_nat n) 0x5a.

Definition mppe_hlen : Z := 4 + sizeof_radius_attr_vendor + 2.

(** One of the two halves of [radius_msg_add_mppe_keys]; [false]: 0 is
    returned. *)
Definition add_mppe_key (m : radius_msg) (type salt : Z) (req_authenticator secret key : list Z)
    : run (bool * radius_msg) :=
  let '(ebuf, elen) := encrypt_ms_key key salt req_authenticator secret (heap_junk (zlen key + 16)) in
  let b := WPA_PUT_BE32 RADIUS_VENDOR_ID_MICROSOFT ++ [type; u8 (mppe_hlen + elen - 4)]
             ++ WPA_PUT_BE16 salt ++ ebuf in
  '(attr, m) ← radius_msg_add_attr m RADIUS_ATTR_VENDOR_SPECIFIC (slice b 0 (mppe_hlen + elen));
  mret (non_null attr, m).

(** [random]: the 16 bits of [os_get_random], [None] if it fails. *)
Definition radius_msg_add_mppe_keys (m : radius_msg) (random : option Z)
    (req_authenticator secret send_key recv_key : list Z) : run (Z * radius_msg) :=
  oom ← alloc;
  if oom : bool then mret (0, m) else
  match random with
  | None => mret (0, m)
  | Some salt =>
      let salt := Z.lor salt 0x8000 in
      '(ok, m) ← add_mppe_key m RADIUS_VENDOR_ATTR_MS_MPPE_SEND_KEY salt req_authenticator secret send_key;
      if negb ok then mret (0, m) else
      oom ← alloc;
      if oom : bool then mret (0, m) else
      let salt := Z.lxor salt 1 in
      '(ok, m) ← add_mppe_key m RADIUS_VENDOR_ATTR_MS_MPPE_RECV_KEY salt req_authenticator secret recv_key;
      if negb ok then mret (0, m) else mret (1, m)
  end.

Definition radius_msg_add_wfa (m : radius_msg) (subtype : Z) (d : list Z) : run (Z * radius_msg) :=
  oom ← alloc;
  if oom : bool then mret (0, m) else
  '(attr, m) ← radius_msg_add_attr m RADIUS_ATTR_VENDOR_SPECIFIC
                 (WPA_PUT_BE32 RADIUS_VENDOR_ID_WFA ++ [subtype; u8 (2 + zlen d)] ++ d);
  mret (if non_null attr then 1 else 0, m).

(** ** Passwords *)

(** [while (pos < buf_len)], from the second block on; the block before is the
    encrypted one. *)
Fixpoint hide_blocks (fuel : nat) (secret b : list Z) (pos buf_len : Z) : list Z :=
  match fuel with
  | O => b
  | Datatypes.S fuel =>
      if buf_len <=? pos then b else
      let hash := md5_vector [secret; slice b (pos - 16) 16] in
      hide_blocks fuel secret (mem_write pos (zip_with Z.lxor (slice b pos 16) hash) b) (pos + 16) buf_len
  end.

(** The result and the buffer of the caller. *)
Definition radius_user_password_hide (m : radius_msg) (d secret b : list Z) : Z * list Z :=
  if zlen b <? zlen d + 16 then (-1, b) else
  let b' := mem_write 0 d b in
  let padlen := zlen d mod 16 in
  let '(b', buf_len) :=
    if negb (padlen =? 0) && (zlen d <? zlen b) then
      (mem_write (zlen d) (replicate (Z.to_nat (16 - padlen)) 0) b', zlen d + (16 - padlen))
    else (b', zlen d) in
  let hash := md5_vector [secret; hdr_authenticator m] in
  let b' := mem_write 0 (zip_with Z.lxor (slice b' 0 16) hash) b' in
  (buf_len, hide_blocks (length b) secret b' 16 buf_len).

(** [stack]: what the buffer on the stack held. *)
Definition radius_msg_add_attr_user_password (stack : list Z) (m : radius_msg) (d secret : list Z)
    : run (option Z * radius_msg) :=
  let '(res, b) := radius_user_password_hide m d secret stack in
  if res <? 0 then mret (None, m)
  else radius_msg_add_attr m RADIUS_ATTR_USER_PASSWORD (slice b 0 res).

(** ** Reading attributes *)

Definition find_attr (m : radius_msg) (ps : list Z) (type : Z) : option Z :=
  head (filter (fun p => attr_type m p = type) ps).

(** [b]: the buffer of the caller, [None] is NULL; [len] its size. *)
Definition radius_msg_get_attr (m : radius_msg) (type : Z) (b : option (list Z)) (len : Z)
    : Z * option (list Z) :=
  match find_attr m (attr_pos m) type with
  | None => (-1, b)
  | Some attr =>
      if attr_length m attr <? sizeof_radius_attr_hdr then (-1, b) else
      let dlen := attr_length m attr - sizeof_radius_attr_hdr in
      (dlen, option_map (mem_write 0 (slice (octets m) (attr + sizeof_radius_attr_hdr)
                                            (if len <? dlen then len else dlen))) b)
  end.

(** [None]: -1, otherwise the new [*value]. *)
Definition radius_msg_get_attr_int32 (m : radius_msg) (type : Z) : option Z :=
  match radius_msg_get_attr m type (Some (replicate 4 0)) 4 with
  | (4, Some val) => Some (WPA_GET_BE32 val 0)
  | _ => None
  end.

(** [start]: a pointer into the message, [None] is NULL.  [None]: -1,
    otherwise the pointer and the length that are stored. *)
Definition radius_msg_get_attr_ptr (m : radius_msg) (type : Z) (start : option Z) : option (Z * Z) :=
  let after p := match start with None => true | Some s => s <? p end in
  match head (filter (fun p => (attr_type m p =? type) && after p = true) (attr_pos m)) with
  | None => None
  | Some attr =>
      if attr_length m attr <? sizeof_radius_attr_hdr then None
      else Some (attr + sizeof_radius_attr_hdr, attr_length m attr - sizeof_radius_attr_hdr)
  end.

Definition radius_msg_count_attr (m : radius_msg) (type min_len : Z) : Z :=
  fold_left (fun count p =>
    if (attr_type m p =? type) && (sizeof_radius_attr_hdr + min_len <=? attr_length m p)
    then count + 1 else count) (attr_pos m) 0.

(** ** VLANs *)

Record radius_tunnel_attrs := mk_tunnel {
  tag_used : Z;
  tun_type : Z;
  medium_type : Z;
  vlanid : Z
}.

(** The variables of [radius_msg_get_vlanid]. *)
Record vlan_vars := mk_vlan {
  tunnel : list radius_tunnel_attrs;
  v_untagged : Z;
  v_tagged : list Z;
  taggedidx : Z
}.

Definition set_tunnel (tag : Z) (f : radius_tunnel_attrs -> radius_tunnel_attrs) (v : vlan_vars)
    : vlan_vars :=
  mk_vlan (alter f (Z.to_nat tag) (tunnel v)) (v_untagged v) (v_tagged v) (taggedidx v).

(** The loop's body for an attribute of at least 3 octets; [numtagged] is the
    length of [tagged]. *)
Definition vlan_attr (m : radius_msg) (p : Z) (v : vlan_vars) : vlan_vars :=
  let data := p + sizeof_radius_attr_hdr in
  let dlen := attr_length m p - sizeof_radius_attr_hdr in
  let tag := byte_at (octets m) data in
  let tun := if RADIUS_TUNNEL_TAGS <=? tag then 0 else tag in
  let type := attr_type m p in
  if type =? RADIUS_ATTR_TUNNEL_TYPE then
    if negb (attr_length m p =? 6) then v
    else set_tunnel tun (fun t => mk_tunnel (tag_used t + 1) (WPA_GET_BE24 (octets m) (data + 1))
                                            (medium_type t) (vlanid t)) v
  else if type =? RADIUS_ATTR_TUNNEL_MEDIUM_TYPE then
    if negb (attr_length m p =? 6) then v
    else set_tunnel tun (fun t => mk_tunnel (tag_used t + 1) (tun_type t)
                                            (WPA_GET_BE24 (octets m) (data + 1)) (vlanid t)) v
  else if type =? RADIUS_ATTR_TUNNEL_PRIVATE_GROUP_ID then
    let '(data, dlen) := if tag <? RADIUS_TUNNEL_TAGS then (data + 1, dlen - 1) else (data, dlen) in
    if 10 <=? dlen then v else
    let vlan_id := atoi (slice (octets m) data dlen ++ [0]) in
    if vlan_id <=? 0 then v
    else set_tunnel tun (fun t => mk_tunnel (tag_used t + 1) (tun_type t) (medium_type t) vlan_id) v
  else if type =? RADIUS_ATTR_EGRESS_VLANID then
    if negb (attr_length m p =? 6) then v else
    let vlan_id := WPA_GET_BE24 (octets m) (data + 1) in
    if vlan_id <=? 0 then v
    else if tag =? 0x32 then mk_vlan (tunnel v) vlan_id (v_tagged v) (taggedidx v)
    else if (tag =? 0x31) && (taggedidx v <? zlen (v_tagged v)) then
      mk_vlan (tunnel v) (v_untagged v) (<[Z.to_nat (taggedidx v) := vlan_id]> (v_tagged v))
              (taggedidx v + 1)
    else v
  else v.

(** [false]: return -1. *)
Fixpoint vlan_loop (m : radius_msg) (ps : list Z) (v : vlan_vars) : bool * vlan_vars :=
  match ps with
  | [] => (true, v)
  | p :: ps =>
      if attr_length m p <? sizeof_radius_attr_hdr then (false, v)
      else if attr_length m p <? 3 then vlan_loop m ps v
      else vlan_loop m ps (vlan_attr m p v)
  end.

(** The loop over the tunnels. *)
Definition tunnel_usable (t : radius_tunnel_attrs) : bool :=
  negb (tag_used t =? 0) && (tun_type t =? RADIUS_TUNNEL_TYPE_VLAN)
  && (medium_type t =? RADIUS_TUNNEL_MEDIUM_TYPE_802) && (0 <? vlanid t).

Definition no_tunnel : radius_tunnel_attrs := mk_tunnel 0 0 0 0.

(** [qsort(tagged, n, sizeof(int), cmp_int)]. *)
Definition sort_first (n : Z) (l : list Z) : list Z :=
  merge_sort Z.le (take (Z.to_nat n) l) ++ drop (Z.to_nat n) l.

(** The result, [*untagged] and [tagged]. *)
Definition radius_msg_get_vlanid (m : radius_msg) (numtagged : Z) : Z * Z * list Z :=
  let v0 := mk_vlan (replicate 32 no_tunnel) 0 (replicate (Z.to_nat numtagged) 0) 0 in
  let '(ok, v) := vlan_loop m (attr_pos m) v0 in
  if negb ok then (-1, v_untagged v, v_tagged v) else
  let untagged :=
    match filter (fun t => tunnel_usable t = true) (tunnel v) with
    | t :: _ => vlanid t
    | [] => v_untagged v
    end in
  let tagged := if negb (taggedidx v =? 0) then sort_first (taggedidx v) (v_tagged v)
                else v_tagged v in
  (if (0 <? untagged) || negb (taggedidx v =? 0) then 1 else 0, untagged, tagged).

(** ** Tunnel passwords *)

Definition tunnel_password_valid (m : radius_msg) (p : Z) : bool :=
  let dlen := attr_length m p - sizeof_radius_attr_hdr in
  (attr_type m p =? RADIUS_ATTR_TUNNEL_PASSWORD) && (5 <? attr_length m p)
  && (3 <? dlen) && (dlen mod 16 =? 3).

(** [while (pos >= str + 16)]: offsets in [b], [str] is at 3. *)
Fixpoint tunnel_blocks (fuel : nat) (secret b : list Z) (pos : Z) : list Z * Z :=
  match fuel with
  | O => (b, pos)
  | Datatypes.S fuel =>
      if pos <? 3 + 16 then (b, pos) else
      let hash := md5_vector [secret; slice b (pos - 16) 16] in
      tunnel_blocks fuel secret (mem_write pos (zip_with Z.lxor (slice b pos 16) hash) b) (pos - 16)
  end.

(** The password and the new [*keylen]. *)
Definition radius_msg_get_tunnel_password (m : radius_msg) (keylen : Z) (secret : list Z)
    (sent_msg : radius_msg) (n : nat) : run (option (list Z) * Z) :=
  match filter (fun p => tunnel_password_valid m p = true) (attr_pos m) !! n with
  | None => mret (None, keylen)
  | Some p =>
      oom ← alloc;
      if oom : bool then mret (None, keylen) else
      let b := attr_value m p in
      let '(b, pos) := tunnel_blocks (length b) secret b (zlen b - 16) in
      if negb (3 =? pos) then mret (None, keylen) else
      let hash := md5_vector [secret; hdr_authenticator sent_msg; slice b 1 2] in
      let b := mem_write pos (zip_with Z.lxor (slice b pos 16) hash) b in
      let keylen := byte_at b 3 in
      if zlen b <=? 3 + keylen then mret (None, keylen)
      else if keylen =? 0 then mret (None, keylen) else
      oom ← alloc;
      mret (if oom : bool then None else Some (slice b 4 keylen), keylen)
  end.

(** ** Class attributes *)

(** [attr] with its [count] elements; [None]: NULL. *)
Definition radius_class_data : Type := option (list (list Z)).

Definition radius_free_class (c : option radius_class_data) : option radius_class_data :=
  option_map (fun _ => None) c.

Fixpoint copy_class_loop (l : list (list Z)) : run (list (list Z)) :=
  match l with
  | [] => mret []
  | d :: l =>
      oom ← alloc;
      if oom : bool then mret [] else
      l ← copy_class_loop l;
      mret (d :: l)
  end.

Definition radius_copy_class (dst src : radius_class_data) : run (Z * radius_class_data) :=
  match src with
  | None => mret (0, dst)
  | Some l =>
      oom ← alloc;
      if oom : bool then mret (-1, None) else
      l ← copy_class_loop l;
      mret (0, Some l)
  end.

(** ** Attributes that are not in a list *)

(** [for (j = 0; attrs[j]; j++)]: whether the loop ends at the terminator. *)
Fixpoint unlisted (type : Z) (attrs : list Z) : bool :=
  match attrs with
  | [] => true
  | a :: attrs => if a =? 0 then true else if type =? a then false else unlisted type attrs
  end.

Definition radius_msg_find_unlisted_attr (m : radius_msg) (attrs : list Z) : Z :=
  match filter (fun p => unlisted (attr_type m p) attrs = true) (attr_pos m) with
  | p :: _ => attr_type m p
  | [] => 0
  end.

(** [os_get_random(id, len)]. *)
Definition radius_gen_session_id (random : option (list Z)) (id : list Z) : Z * list Z :=
  match random with Some r => (0, mem_write 0 r id) | None => (-1, id) end.
