(* ===== verification/RadiusAttrs.v ===== *)
(** * RADIUS messages as lists of attributes

    The abstract view of a message of RadiusMsg.v is its header and the list of
    its attributes, types with values; [holds] relates the two.  Each operation
    of the C interface is described by what it does to the list, whatever the
    allocator answers; [wp] is the rule by which these descriptions are
    composed. *)

From S2P Require Import Prelude.
From S2P Require Import Wpabuf.
From S2P Require Import Common.
From S2P Require Import Hash.
From S2P Require Import HashProperties.
From S2P Require Import RadiusMsg.

(** ** Runs

    [wp ok e Q]: the run [e] does not stop and its result is in [Q]; with [ok]
    it is a run in which every allocation succeeds. *)

Definition wp {A} (ok : bool) (e : run A) (Q : A -> Prop) : Prop :=
  forall mem, (ok = true -> mem = []) ->
    exists a mem', e mem = Go a mem' /\ (ok = true -> mem' = []) /\ Q a.

Lemma wp_ret {A} ok (a : A) (Q : A -> Prop) : Q a -> wp ok (mret a) Q.
Proof. intros H mem Hm. by exists a, mem. Qed.

Lemma wp_bind {A B} ok (f : A -> run B) (e : run A) Q :
  wp ok e (fun a => wp ok (f a) Q) -> wp ok (e ≫= f) Q.
Proof.
  intros H mem Hm. destruct (H mem Hm) as (a & mem' & He & Hm' & Ha).
  destruct (Ha mem' Hm') as (b & mem'' & Hf & Hm'' & Hb). exists b, mem''.
  split; [|done]. unfold mbind, run_bind. by rewrite He.
Qed.

Lemma wp_mono {A} ok (e : run A) (P Q : A -> Prop) :
  wp ok e P -> (forall a, P a -> Q a) -> wp ok e Q.
Proof. intros H HPQ mem Hm. destruct (H mem Hm) as (a & mem' & ? & ? & ?). eauto 10. Qed.

Lemma wp_alloc ok : wp ok alloc (fun oom => ok = true -> oom = false).
Proof.
  intros mem Hm. destruct mem as [|oom mem]; [exists false, []; split; [reflexivity|done]|].
  destruct ok; [by specialize (Hm eq_refl)|]. exists oom, mem. split; [reflexivity|done].
Qed.

Lemma wp_or_abort {A} ok (e : option A) (a : A) (Q : A -> Prop) :
  e = Some a -> Q a -> wp ok (or_abort e) Q.
Proof. intros ->. apply wp_ret. Qed.

(** A run in which every allocation succeeds has a result. *)
Lemma wp_clean {A} (e : run A) Q : wp true e Q -> exists a, e [] = Go a [] /\ Q a.
Proof.
  intros H. destruct (H [] (fun _ => eq_refl)) as (a & mem & He & Hm & Ha).
  exists a. split; [by rewrite (Hm eq_refl) in He|done].
Qed.

(** An allocation in front of a run: it fails only where that is allowed. *)
Lemma wp_alloc_then {A} ok (bad e : run A) (Q : A -> Prop) :
  (ok = false -> wp ok bad Q) -> wp ok e Q -> wp ok (oom ← alloc; if oom : bool then bad else e) Q.
Proof.
  intros Hb He. apply wp_bind. eapply wp_mono; [apply wp_alloc|]. intros [] H; [|done].
  destruct ok; [by specialize (H eq_refl)|]. by apply Hb.
Qed.

(** ** The view *)

(** A type and a value. *)
Abbreviation attribute := (Z * list Z)%type (only parsing).

Definition enc (a : attribute) : list Z := a.1 :: (2 + zlen a.2) :: a.2.
Definition encs (l : list attribute) : list Z := concat (map enc l).
Definition fits (a : attribute) : Prop := byte a.1 /\ bytes a.2 /\ zlen a.2 <= 253.

Fixpoint positions (o : Z) (l : list attribute) : list Z :=
  match l with
  | [] => []
  | a :: l => o :: positions (o + zlen (enc a)) l
  end.

Record header := mk_header { code : Z; identifier : Z; length_field : list Z; authenticator : list Z }.

Definition hdr_octets (h : header) : list Z :=
  [code h; identifier h] ++ length_field h ++ authenticator h.

Record hdr_ok (h : header) : Prop := mk_hdr_ok {
  ok_code : byte (code h);
  ok_identifier : byte (identifier h);
  ok_length : bytes (length_field h) /\ zlen (length_field h) = 2;
  ok_auth : bytes (authenticator h) /\ zlen (authenticator h) = 16
}.

Record holds (m : radius_msg) (h : header) (l : list attribute) : Prop := mk_holds {
  holds_hdr : hdr_ok h;
  holds_fits : Forall fits l;
  holds_octets : octets m = hdr_octets h ++ encs l;
  holds_pos : attr_pos m = positions 20 l;
  holds_room : zlen (octets m) <= size (buf m) < 2 ^ 62
}.

Lemma zlen_enc a : zlen (enc a) = 2 + zlen a.2.
Proof. unfold enc. rewrite !zlen_cons. lia. Qed.

Lemma zlen_header h : hdr_ok h -> zlen (hdr_octets h) = 20.
Proof. intros [_ _ [_ H1] [_ H2]]. unfold hdr_octets. rewrite !zlen_app, H1, H2. done. Qed.

Lemma encs_app l k : encs (l ++ k) = encs l ++ encs k.
Proof. unfold encs. by rewrite map_app, concat_app. Qed.

Lemma positions_app o l k : positions o (l ++ k) = positions o l ++ positions (o + zlen (encs l)) k.
Proof.
  revert o. induction l as [|a l IH]; intros o; cbn [app positions].
  - f_equal. change (encs []) with (@nil Z). rewrite zlen_nil. lia.
  - f_equal. rewrite IH. f_equal. unfold encs at 2. cbn [map concat]. rewrite zlen_app. f_equal. unfold encs. lia.
Qed.

Lemma fits_bytes a : fits a -> bytes (enc a).
Proof.
  intros (H1 & H2 & H3). unfold enc. pose proof (zlen_nonneg a.2).
  constructor; [done|]. constructor; [unfold byte; lia|done].
Qed.

Lemma encs_bytes l : Forall fits l -> bytes (encs l).
Proof.
  induction 1 as [|a l Ha Hl IH]; [constructor|]. unfold encs. cbn [map concat].
  apply bytes_app. split; [by apply fits_bytes|exact IH].
Qed.

Lemma hdr_bytes h : hdr_ok h -> bytes (hdr_octets h).
Proof.
  intros [H1 H2 [H3 _] [H4 _]]. unfold hdr_octets. apply bytes_app. split.
  - constructor; [done|]. by constructor.
  - by apply bytes_app.
Qed.

Lemma holds_bytes m h l : holds m h l -> bytes (octets m).
Proof.
  intros [H1 H2 -> _ _]. apply bytes_app. split; [by apply hdr_bytes|by apply encs_bytes].
Qed.

Lemma holds_len m h l : holds m h l -> zlen (octets m) = 20 + zlen (encs l).
Proof. intros [H1 _ -> _ _]. by rewrite zlen_app, zlen_header. Qed.

(** ** Reading *)

(** What the members of the attribute at [p] read. *)
Definition view (m : radius_msg) (p : Z) (a : attribute) : Prop :=
  attr_type m p = a.1 /\ attr_length m p = 2 + zlen a.2 /\ attr_value m p = a.2 /\
  20 <= p /\ p + 2 + zlen a.2 <= zlen (octets m).

Lemma slice_prefix l k n : n = zlen l -> slice (l ++ k) 0 n = l.
Proof.
  intros ->. unfold slice, zlen. rewrite Nat2Z.id. change (Z.to_nat 0) with 0%nat. by rewrite drop_0, take_app_length.
Qed.

Lemma slice_part a x b i n : i = zlen a -> n = zlen x -> slice (a ++ x ++ b) i n = x.
Proof.
  intros -> ->. rewrite slice_app_r by lia. rewrite Z.sub_diag. by apply slice_prefix.
Qed.

Lemma byte_at_part a v b i : i = zlen a -> byte_at (a ++ v :: b) i = v.
Proof. intros ->. rewrite byte_at_app_r by lia. by rewrite Z.sub_diag. Qed.

Lemma view_at m pre a post :
  octets m = pre ++ enc a ++ post -> 20 <= zlen pre -> view m (zlen pre) a.
Proof.
  intros H Hp. unfold view, attr_type, attr_value, attr_length. rewrite H. unfold enc. cbn [app].
  assert (Hl : byte_at (pre ++ a.1 :: (2 + zlen a.2) :: a.2 ++ post) (zlen pre + 1) = 2 + zlen a.2).
  { change (pre ++ a.1 :: (2 + zlen a.2) :: a.2 ++ post) with (pre ++ [a.1] ++ (2 + zlen a.2) :: a.2 ++ post).
    rewrite app_assoc. apply byte_at_part. zlen. }
  rewrite Hl. split; [by apply byte_at_part|]. split; [done|]. split; [|split; [done|zlen]].
  change (pre ++ a.1 :: (2 + zlen a.2) :: a.2 ++ post) with (pre ++ [a.1; 2 + zlen a.2] ++ a.2 ++ post).
  rewrite app_assoc. unfold sizeof_radius_attr_hdr. apply slice_part; [zlen|lia].
Qed.

Lemma views m pre l post :
  octets m = pre ++ encs l ++ post -> 20 <= zlen pre -> Forall2 (view m) (positions (zlen pre) l) l.
Proof.
  revert pre. induction l as [|a l IH]; intros pre H Hp; cbn [positions]; [constructor|].
  unfold encs in H. cbn [map concat] in H. rewrite <- app_assoc in H. constructor.
  - exact (view_at m pre a _ H Hp).
  - rewrite <- (zlen_app pre (enc a)). apply IH; [by rewrite <- app_assoc|].
    rewrite zlen_app. pose proof (zlen_nonneg (enc a)). lia.
Qed.

Lemma holds_views m h l : holds m h l -> Forall2 (view m) (attr_pos m) l.
Proof.
  intros [H1 H2 H3 -> H5]. rewrite <- (zlen_header h) by done.
  apply (views m (hdr_octets h) l []); [by rewrite app_nil_r|by rewrite zlen_header].
Qed.

(** The members of the header. *)
Lemma holds_header m h l :
  holds m h l ->
  hdr_code m = code h /\ hdr_identifier m = identifier h /\ hdr_authenticator m = authenticator h /\
  slice (octets m) 0 4 = [code h; identifier h] ++ length_field h /\
  attribute_octets m = encs l.
Proof.
  intros H. pose proof (holds_len _ _ _ H) as Hl. destruct H as [[H1 H2 [_ Hf] [_ Ha]] _ Ho _ _].
  unfold hdr_code, hdr_identifier, hdr_authenticator, attribute_octets, wpabuf_len.
  change (data (buf m)) with (octets m). rewrite Hl, Ho. unfold hdr_octets.
  split; [done|]. split; [done|]. split; [|split].
  - rewrite app_assoc, <- app_assoc with (n := encs l). apply slice_part; [zlen|done].
  - rewrite <- !app_assoc, (app_assoc _ (length_field h)). apply slice_prefix. zlen.
  - rewrite <- (app_nil_r (encs l)) at 1. unfold sizeof_radius_hdr. apply slice_part; [zlen|lia].
Qed.

(** ** Writing *)

Lemma mem_write_part a x b d : zlen d = zlen x -> mem_write (zlen a) d (a ++ x ++ b) = a ++ d ++ b.
Proof.
  intros H. unfold mem_write, zlen in *. rewrite Nat2Z.id, take_app_length. do 2 f_equal.
  rewrite app_assoc, drop_app_ge by (rewrite length_app; lia).
  rewrite length_app. replace (_ - _)%nat with O by lia. done.
Qed.

Lemma poke_part m a x b d off :
  octets m = a ++ x ++ b -> zlen d = zlen x -> off = zlen a ->
  octets (poke off d m) = a ++ d ++ b /\ zlen (octets (poke off d m)) = zlen (octets m).
Proof.
  intros H Hd ->.
  change (octets (poke (zlen a) d m)) with (take (length (octets m)) (mem_write (zlen a) d (octets m))).
  rewrite H, mem_write_part by done.
  assert (Hz : zlen (a ++ d ++ b) = zlen (a ++ x ++ b)) by zlen.
  rewrite take_ge by (unfold zlen in Hz; lia). done.
Qed.

Lemma hdr_poke m h l h' off d a x b :
  holds m h l -> hdr_octets h = a ++ x ++ b -> zlen d = zlen x -> off = zlen a ->
  hdr_octets h' = a ++ d ++ b -> hdr_ok h' -> holds (poke off d m) h' l.
Proof.
  intros [H1 H2 H3 H4 H5] Hh Hd Hoff Hh' Hok.
  destruct (poke_part m a x (b ++ encs l) d off) as [Ho Hz]; [by rewrite H3, Hh, <- !app_assoc|done|done|].
  split; [done|done|by rewrite Ho, Hh', <- !app_assoc|done|].
  rewrite Hz. exact H5.
Qed.

Definition with_length (h : header) (lf : list Z) : header :=
  mk_header (code h) (identifier h) lf (authenticator h).
Definition with_auth (h : header) (a : list Z) : header :=
  mk_header (code h) (identifier h) (length_field h) a.

Lemma set_length_holds m h l :
  holds m h l -> holds (set_length m) (with_length h (WPA_PUT_BE16 (zlen (octets m)))) l.
Proof.
  intros H. pose proof (holds_hdr _ _ _ H) as [H1 H2 H3 H4].
  assert (E : WPA_PUT_BE16 (u16 (wpabuf_len (buf m))) = WPA_PUT_BE16 (zlen (octets m))).
  { unfold WPA_PUT_BE16, u16. by rewrite Z.mod_mod by lia. }
  unfold set_length. rewrite E.
  apply (hdr_poke m h l _ 2 _ [code h; identifier h] (length_field h) (authenticator h) H); try done.
  - destruct H3 as [_ ->]. done.
  - split; cbn; try done. split; [apply put_be16_bytes|done].
Qed.

Lemma set_authenticator_holds m h l a :
  holds m h l -> bytes a -> zlen a = 16 -> holds (set_authenticator a m) (with_auth h a) l.
Proof.
  intros H Hb Hz. pose proof (holds_hdr _ _ _ H) as [H1 H2 H3 H4].
  apply (hdr_poke m h l _ 4 a ([code h; identifier h] ++ length_field h) (authenticator h) [] H);
    unfold hdr_octets; cbn [with_auth code identifier length_field authenticator].
  - by rewrite app_nil_r, <- app_assoc.
  - by destruct H4 as [_ ->].
  - destruct H3 as [_ H3]. zlen.
  - by rewrite app_nil_r, <- app_assoc.
  - by split.
Qed.

(** The value of one attribute is replaced. *)
Lemma value_poke m h l k t v d :
  holds m h (l ++ (t, v) :: k) -> zlen d = zlen v -> bytes d ->
  holds (poke (20 + zlen (encs l) + 2) d m) h (l ++ (t, d) :: k).
Proof.
  intros [H1 H2 H3 H4 H5] Hd Hb.
  assert (Es : forall v, zlen d = zlen v -> encs (l ++ (t, v) :: k) = (encs l ++ [t; 2 + zlen d]) ++ v ++ encs k).
  { intros w Hw. rewrite encs_app, <- app_assoc. unfold encs at 2. cbn [map concat]. unfold enc. cbn [fst snd app].
    by rewrite Hw. }
  destruct (poke_part m (hdr_octets h ++ encs l ++ [t; 2 + zlen d]) v (encs k) d (20 + zlen (encs l) + 2)) as [Ho Hz].
  - rewrite H3, (Es v) by done. by rewrite !app_assoc.
  - done.
  - rewrite !zlen_app, zlen_header by done. zlen.
  - split; [done| | | |].
    + apply Forall_app in H2 as [F1 F2]. apply Forall_cons in F2 as [(F2 & F3 & F4) F5].
      apply Forall_app. split; [done|]. constructor; [|done]. split; [done|]. split; [done|]. cbn in *. lia.
    + rewrite Ho, (Es d) by done. by rewrite !app_assoc.
    + cbn [poke attr_pos]. rewrite H4, !positions_app. cbn [positions]. do 3 f_equal. rewrite !zlen_enc. cbn. lia.
    + rewrite Hz. exact H5.
Qed.

(** ** Building *)

Lemma put_zeros b n :
  0 <= n -> wpabuf_len b + n <= size b -> size b < 2 ^ 64 ->
  wpabuf_put b n = Some (mk_wpabuf (size b) (data b ++ replicate (Z.to_nat n) 0) (flags b)).
Proof.
  intros Hn H H'. unfold wpabuf_put. unfold wpabuf_len in *. pose proof (zlen_nonneg (data b)).
  rewrite u64_small by lia. destruct (Z.ltb_spec (size b) (zlen (data b) + n)); [lia|done].
Qed.

Lemma add_attr_to_array_wp ok m p :
  wp ok (radius_msg_add_attr_to_array m p) (fun '(stored, m') =>
    if stored : bool then buf m' = buf m /\ attr_pos m' = attr_pos m ++ [p] else ok = false).
Proof.
  unfold radius_msg_add_attr_to_array. destruct (_ <=? _); [|by apply wp_ret].
  apply wp_bind. eapply wp_mono; [apply wp_alloc|]. intros [] H; apply wp_ret; [|done].
  destruct ok; [by apply H|done].
Qed.

(** Where there is room, the attribute is written behind the others. *)
Lemma append_attr_wp ok b m h l t d :
  holds m h l -> fits (t, d) -> data b = octets m ->
  zlen (octets m) + 2 + zlen d <= size b < 2 ^ 62 ->
  wp ok (b' ← or_abort (wpabuf_put b sizeof_radius_attr_hdr);
         let m := poke (wpabuf_len b) [u8 t; u8 (sizeof_radius_attr_hdr + zlen d)]
                       (mk_msg b' (attr_pos m) (attr_size m)) in
         b' ← or_abort (wpabuf_put_data (buf m) d);
         '(stored, m) ← radius_msg_add_attr_to_array (mk_msg b' (attr_pos m) (attr_size m)) (wpabuf_len b);
         mret (if stored : bool then Some (wpabuf_len b) else None, m))
    (fun '(r, m') => match r with
     | Some p => p = zlen (octets m) /\ holds m' h (l ++ [(t, d)])
     | None => ok = false
     end).
Proof.
  intros H (Ft & Fd & Fz) Hb Hsize. cbn [fst snd] in *. pose proof (zlen_nonneg d). apply wp_bind.
  assert (Hlen : wpabuf_len b = zlen (octets m)) by (unfold wpabuf_len; by rewrite Hb).
  eapply wp_or_abort; [apply put_zeros; unfold sizeof_radius_attr_hdr; lia|].
  unfold sizeof_radius_attr_hdr in *. change (replicate (Z.to_nat 2) 0) with [0; 0].
  unfold byte in Ft. rewrite (u8_small t), (u8_small (2 + zlen d)), Hlen, Hb by lia.
  set (m1 := mk_msg _ _ _). destruct (poke_part m1 (octets m) [0; 0] [] [t; 2 + zlen d] (zlen (octets m))) as [Ho _];
    [by rewrite app_nil_r|done|done|]. rewrite app_nil_r in Ho.
  assert (Es : size (buf (poke (zlen (octets m)) [t; 2 + zlen d] m1)) = size b) by done.
  assert (Ep : attr_pos (poke (zlen (octets m)) [t; 2 + zlen d] m1) = attr_pos m) by done.
  set (m2 := poke _ _ m1) in *. clearbody m2. clear m1. apply wp_bind.
  eapply wp_or_abort; [apply put_data_ok; unfold wpabuf_len; change (data (buf m2)) with (octets m2);
    rewrite Ho, Es, zlen_app; change (zlen [t; 2 + zlen d]) with 2; lia|].
  apply wp_bind. eapply wp_mono; [apply add_attr_to_array_wp|]. intros [stored m3] Hm. apply wp_ret.
  destruct stored; [|done]. destruct Hm as [Hm1 Hm2]. cbn [buf attr_pos] in *. split; [done|].
  assert (Ho3 : octets m3 = octets m ++ enc (t, d)).
  { unfold octets, wpabuf_head. rewrite Hm1. cbn [data]. change (data (buf m2)) with (octets m2).
    by rewrite Ho, <- app_assoc. }
  pose proof (holds_len _ _ _ H) as Hl. destruct H as [K1 K2 K3 K4 K5]. split; [done| | | |].
  - apply Forall_app. split; [done|]. constructor; [done|constructor].
  - rewrite Ho3, K3, <- app_assoc, encs_app. unfold encs at 3. cbn [map concat]. by rewrite app_nil_r.
  - rewrite Hm2, Ep, K4, positions_app. cbn [positions]. do 2 f_equal. lia.
  - rewrite Ho3, zlen_app, zlen_enc. rewrite Hm1. cbn [size snd]. rewrite Es. lia.
Qed.

Lemma add_attr_wp ok m h l t d :
  holds m h l -> fits (t, d) -> zlen (octets m) < 2 ^ 61 ->
  wp ok (radius_msg_add_attr m t d) (fun '(r, m') => match r with
    | Some p => p = zlen (octets m) /\ holds m' h (l ++ [(t, d)])
    | None => ok = false
    end).
Proof.
  intros H Hf Hs. pose proof (zlen_nonneg d). pose proof Hf as (_ & _ & Hd). cbn in Hd.
  unfold radius_msg_add_attr, RADIUS_MAX_ATTR_LEN, sizeof_radius_attr_hdr at 1.
  destruct (Z.ltb_spec (255 - 2) (zlen d)); [lia|]. cbv zeta.
  pose proof (holds_room _ _ _ H) as Hr. pose proof (zlen_nonneg (octets m)).
  unfold wpabuf_tailroom, wpabuf_len. change (data (buf m)) with (octets m).
  rewrite u64_small by lia. apply wp_bind. destruct (Z.ltb_spec (size (buf m) - zlen (octets m)) (sizeof_radius_attr_hdr + zlen d)).
  - eapply wp_mono; [apply wp_alloc|]. intros oom Hoom. unfold wpabuf_resize, wpabuf_len.
    change (data (buf m)) with (octets m). unfold sizeof_radius_attr_hdr in *. rewrite u64_small by lia.
    destruct (Z.ltb_spec (size (buf m)) (zlen (octets m) + (2 + zlen d))); [|lia]. destruct oom.
    + apply wp_ret. destruct ok; [by apply Hoom|done].
    + apply append_attr_wp; [done|done|done|]. cbn [size]. lia.
  - apply wp_ret. unfold sizeof_radius_attr_hdr in *. apply append_attr_wp; [done|done|done|]. lia.
Qed.

Definition new_header (code identifier : Z) : header :=
  mk_header code identifier [0; 0] (replicate 16 0).

Lemma new_wp ok code identifier :
  byte code -> byte identifier ->
  wp ok (radius_msg_new code identifier) (fun r => match r with
    | Some m => holds m (new_header code identifier) []
    | None => ok = false
    end).
Proof.
  intros Hc Hi. apply wp_alloc_then; [intros ->; by apply wp_ret|]. apply wp_bind.
  eapply wp_mono; [apply wp_alloc|]. intros oom Hoom. unfold wpabuf_alloc. destruct oom.
  { apply wp_ret. destruct ok; [by apply Hoom|done]. }
  apply wp_bind. unfold radius_msg_initialize. apply wp_bind. eapply wp_mono; [apply wp_alloc|].
  intros oom H2. destruct oom; apply wp_ret; [apply wp_ret; destruct ok; [by apply H2|done]|].
  cbn [buf attr_pos attr_size]. apply wp_bind. eapply wp_or_abort; [by apply put_zeros|]. apply wp_ret.
  split; [|constructor|done|done|done]. split; [done|done|split; [|done]|split; [|done]];
    apply (bool_decide_unpack _); vm_compute; exact I.
Qed.

(** ** Parsing *)

(** The octets of an attribute list are those of a first attribute and of the
    rest; they determine both. *)
Lemma encs_cons a l : encs (a :: l) = enc a ++ encs l.
Proof. done. Qed.

Lemma encs_nil_inv l : encs l = [] -> l = [].
Proof. destruct l as [|a l]; [done|]. rewrite encs_cons. unfold enc. done. Qed.

(** The first attribute of some octets, if there is one. *)
Lemma first_attribute (d : list Z) n :
  bytes d -> byte_at d 1 = n -> 2 <= n <= zlen d ->
  exists a d', fits a /\ d = enc a ++ d' /\ zlen (enc a) = n.
Proof.
  intros Hb Hn Hz. destruct d as [|t [|n' d]]; [exfalso; zlen|exfalso; zlen|].
  assert (n' = n) as -> by exact Hn. clear Hn. rewrite !zlen_cons in Hz.
  apply Forall_cons in Hb as [Ht Hb]. apply Forall_cons in Hb as [Hn Hb].
  set (k := Z.to_nat (n - 2)).
  assert (Hk : zlen (take k d) = n - 2).
  { unfold zlen in *. rewrite length_take. unfold k. lia. }
  exists (t, take k d), (drop k d). unfold byte in Hn. split; [|split].
  - split; [done|]. cbn. split; [by apply Forall_take|]. lia.
  - unfold enc. cbn. rewrite Hk, take_drop. do 2 f_equal. lia.
  - rewrite zlen_enc. cbn. lia.
Qed.

Lemma attr_length_at m pre suf :
  octets m = pre ++ suf -> attr_length m (zlen pre) = byte_at suf 1.
Proof.
  intros H. unfold attr_length. rewrite H, byte_at_app_r by lia. f_equal. lia.
Qed.

Lemma encs_short l a d : encs l = a :: d -> 2 <= zlen (a :: d) /\ 2 <= byte_at (a :: d) 1 <= zlen (a :: d).
Proof.
  destruct l as [|b l]; [done|]. intros <-. rewrite encs_cons. unfold enc. cbn [app].
  change (byte_at (b.1 :: (2 + zlen b.2) :: b.2 ++ encs l) 1) with (2 + zlen b.2).
  rewrite !zlen_cons, zlen_app. pose proof (zlen_nonneg b.2). pose proof (zlen_nonneg (encs l)). lia.
Qed.

Lemma parse_attributes_wp ok fuel : forall m pre suf,
  octets m = pre ++ suf -> bytes suf -> (length suf <= fuel)%nat ->
  wp ok (parse_attributes fuel m (zlen pre)) (fun '(parsed, m') =>
    if parsed : bool then
      buf m' = buf m /\ exists l, suf = encs l /\ Forall fits l /\
        attr_pos m' = attr_pos m ++ positions (zlen pre) l
    else ok = false \/ forall l, suf <> encs l).
Proof.
  induction fuel as [|fuel IH]; intros m pre suf Ho Hb Hf; cbn [parse_attributes].
  { apply wp_ret. split; [done|]. exists []. destruct suf; [|cbn in Hf; lia].
    cbn. by rewrite app_nil_r. }
  unfold wpabuf_len. change (data (buf m)) with (octets m).
  rewrite (attr_length_at m pre suf Ho). rewrite Ho, zlen_app. unfold sizeof_radius_attr_hdr.
  destruct (Z.leb_spec (zlen pre + zlen suf) (zlen pre)).
  { apply wp_ret. split; [done|]. exists []. destruct suf; [|rewrite zlen_cons in *; pose proof (zlen_nonneg suf); lia].
    cbn. by rewrite app_nil_r. }
  destruct suf as [|s suf']; [rewrite zlen_nil in *; lia|]. set (suf := s :: suf') in *.
  replace (zlen pre + zlen suf - zlen pre) with (zlen suf) by lia.
  destruct (Z.ltb_spec (zlen suf) 2).
  { apply wp_ret. right. intros l E. destruct (encs_short l s suf' (eq_sym E)). unfold suf in *. lia. }
  destruct (Z.ltb_spec (zlen suf) (byte_at suf 1)); cbn [orb].
  { apply wp_ret. right. intros l E. destruct (encs_short l s suf' (eq_sym E)). unfold suf in *. lia. }
  destruct (Z.ltb_spec (byte_at suf 1) 2).
  { apply wp_ret. right. intros l E. destruct (encs_short l s suf' (eq_sym E)). unfold suf in *. lia. }
  destruct (first_attribute suf _ Hb eq_refl) as (a & d & Fa & Ed & Ea); [lia|].
  apply wp_bind. eapply wp_mono; [apply add_attr_to_array_wp|]. intros [stored m1] Hm.
  destruct stored; [|by apply wp_ret; left]. destruct Hm as [Hm1 Hm2].
  assert (Ho1 : octets m1 = (pre ++ enc a) ++ d).
  { unfold octets. rewrite Hm1. change (wpabuf_head (buf m)) with (octets m). rewrite Ho, Ed. by rewrite app_assoc. }
  rewrite (attr_length_at m1 pre suf) by (rewrite Ho1, Ed; by rewrite <- app_assoc).
  rewrite <- Ea, <- zlen_app. rewrite Ed in Hb. apply bytes_app in Hb as [_ Hb].
  eapply wp_mono; [apply (IH m1 (pre ++ enc a) d Ho1 Hb)|].
  { assert (length suf = (length (enc a) + length d)%nat) by (rewrite Ed; apply length_app).
    unfold enc in *. cbn in *. lia. }
  intros [[] m2].
  - intros (E & l & -> & Fl & Ep). split; [by rewrite E|]. exists (a :: l). split; [done|]. split; [by constructor|].
    rewrite Ep, Hm2, <- app_assoc, zlen_app. done.
  - intros [->|Hno]; [by left|]. right. intros [|b l] E; [done|]. apply (Hno l).
    rewrite Ed, encs_cons in E.
    assert (Hab : zlen (enc b) = zlen (enc a)).
    { rewrite Ea, Ed, E, zlen_enc. done. }
    apply app_inj_1 in E as [_ E]; [done|]. unfold zlen in Hab. lia.
Qed.

(** The octets [d] start with a message, whose length field is its length. *)
Definition decodes (d : list Z) (h : header) (l : list attribute) : Prop :=
  hdr_ok h /\ Forall fits l /\ WPA_GET_BE16 (length_field h) 0 = 20 + zlen (encs l) /\
  exists extra, d = (hdr_octets h ++ encs l) ++ extra.

Lemma length_at h d : WPA_GET_BE16 (hdr_octets h ++ d) 2 = WPA_GET_BE16 (length_field h ++ authenticator h ++ d) 0.
Proof. unfold hdr_octets. rewrite <- !app_assoc. reflexivity. Qed.

Lemma length_field_at h d : hdr_ok h -> WPA_GET_BE16 (hdr_octets h ++ d) 2 = WPA_GET_BE16 (length_field h) 0.
Proof.
  intros [_ _ [_ H] _]. rewrite length_at. unfold WPA_GET_BE16. by rewrite !byte_at_app_l by lia.
Qed.

(** Twenty octets are a header. *)
Lemma header_of d : bytes d -> 20 <= zlen d -> exists h d', hdr_ok h /\ d = hdr_octets h ++ d'.
Proof.
  intros Hb Hz. destruct d as [|c [|i d]]; [exfalso; zlen|exfalso; zlen|]. rewrite !zlen_cons in Hz.
  apply Forall_cons in Hb as [Hc Hb]. apply Forall_cons in Hb as [Hi Hb].
  exists (mk_header c i (take 2 d) (take 16 (drop 2 d))), (drop 16 (drop 2 d)).
  assert (H2 : zlen (take 2 d) = 2) by (unfold zlen in *; rewrite length_take; lia).
  assert (H3 : zlen (take 16 (drop 2 d)) = 16).
  { unfold zlen in *. rewrite length_take, length_drop. lia. }
  split.
  - split; cbn; [done|done|split; [by apply Forall_take|done]|]. split; [|done].
    by apply Forall_take, Forall_drop.
  - unfold hdr_octets. cbn. by rewrite <- app_assoc, !take_drop.
Qed.

Lemma decodes_len d h l : decodes d h l -> 20 <= WPA_GET_BE16 d 2 <= zlen d.
Proof.
  intros (Hh & _ & Hn & extra & ->). pose proof (zlen_nonneg (encs l)). pose proof (zlen_nonneg extra).
  rewrite <- app_assoc, length_field_at, Hn, !zlen_app, zlen_header by done. lia.
Qed.

Lemma decodes_attrs h d h' l : hdr_ok h -> decodes (hdr_octets h ++ d) h' l ->
  h' = h /\ WPA_GET_BE16 (length_field h) 0 = 20 + zlen (encs l) /\ Forall fits l /\ exists extra, d = encs l ++ extra.
Proof.
  intros Hh (Hh' & Fl & Hn & extra & E). rewrite <- app_assoc in E.
  assert (E1 := E). apply app_inj_1 in E1 as [E1 E2].
  2: { pose proof (zlen_header h Hh) as Z1. pose proof (zlen_header h' Hh') as Z2. unfold zlen in *. lia. }
  assert (h' = h) as ->.
  { destruct h as [c i lf a], h' as [c' i' lf' a']. unfold hdr_octets in E1. cbn in E1.
    destruct Hh as [_ _ [_ K1] _], Hh' as [_ _ [_ K2] _]. cbn in K1, K2.
    assert (c = c' /\ i = i' /\ lf ++ a = lf' ++ a') as (-> & -> & E3).
    { split; [congruence|]. split; congruence. }
    apply app_inj_1 in E3 as [-> ->]; [done|]. unfold zlen in *. lia. }
  split; [done|]. split; [done|]. split; [done|]. by exists extra.
Qed.

Lemma parse_wp ok d :
  bytes d ->
  wp ok (radius_msg_parse d) (fun r => match r with
    | Some m => exists h l, decodes d h l /\ holds m h l
    | None => ok = false \/ forall h l, ~ decodes d h l
    end).
Proof.
  intros Hb. unfold radius_msg_parse, sizeof_radius_hdr.
  destruct (Z.ltb_spec (zlen d) 20) as [Hs|Hs].
  { apply wp_ret. right. intros h l D. pose proof (decodes_len _ _ _ D). lia. }
  destruct (Z.ltb_spec (WPA_GET_BE16 d 2) 20) as [H1|H1]; cbn [orb].
  { apply wp_ret. right. intros h l D. pose proof (decodes_len _ _ _ D). lia. }
  destruct (Z.ltb_spec (zlen d) (WPA_GET_BE16 d 2)) as [H2|H2].
  { apply wp_ret. right. intros h l D. pose proof (decodes_len _ _ _ D). lia. }
  destruct (header_of d Hb Hs) as (h & body & Hh & Ed).
  assert (Hn : WPA_GET_BE16 d 2 = WPA_GET_BE16 (length_field h) 0) by (rewrite Ed; by apply length_field_at).
  assert (Hr : WPA_GET_BE16 d 2 < 65536) by (by apply get_be16_range).
  remember (WPA_GET_BE16 d 2) as n eqn:En.
  set (suf := slice body 0 (n - 20)).
  assert (Es : slice d 0 n = hdr_octets h ++ suf).
  { unfold suf, slice. rewrite Ed. cbn [drop Z.to_nat]. rewrite drop_0, take_app_ge.
    - do 2 f_equal. pose proof (zlen_header h Hh). unfold zlen in *. lia.
    - pose proof (zlen_header h Hh). unfold zlen in *. lia. }
  assert (Hsuf : zlen suf = n - 20).
  { unfold suf. apply zlen_slice; [lia|lia|]. rewrite Ed, zlen_app, zlen_header in H2 by done. lia. }
  assert (Bs : bytes suf).
  { unfold suf, slice. apply Forall_take, Forall_drop. rewrite Ed in Hb. apply bytes_app in Hb as [_ Hb]. exact Hb. }
  apply wp_alloc_then; [intros ->; by apply wp_ret; left|]. apply wp_bind.
  eapply wp_mono; [apply wp_alloc|]. intros oom Hoom. destruct oom.
  { apply wp_bind, wp_ret, wp_ret. left. destruct ok; [by apply Hoom|done]. }
  apply wp_bind. eapply wp_or_abort; [apply alloc_copy_ok|]. rewrite Es. clear Es.
  unfold radius_msg_initialize. apply wp_bind. apply wp_bind. eapply wp_mono; [apply wp_alloc|]. intros oom Ho2.
  destruct oom; apply wp_ret; [apply wp_ret; left; destruct ok; [by apply Ho2|done]|].
  apply wp_bind. set (m := mk_msg _ _ _).
  assert (Hpre : zlen (hdr_octets h) = 20) by (by apply zlen_header). rewrite <- Hpre at 1.
  eapply wp_mono; [apply (parse_attributes_wp ok (length d) m (hdr_octets h) suf)|]; [done|done| |].
  { unfold zlen in *. lia. }
  assert (Hbody : body = suf ++ drop (Z.to_nat (n - 20)) body).
  { unfold suf, slice. rewrite drop_0. by rewrite take_drop. }
  intros [[] m'].
  - intros (Eb & l & El & Fl & Ep). apply wp_ret. exists h, l. split; [split; [done|split; [done|split]]|].
    + rewrite <- Hn, <- El. lia.
    + eexists. rewrite <- El, <- app_assoc, <- Hbody. exact Ed.
    + split; [done|done| |by rewrite Ep, Hpre|].
      * unfold octets. rewrite Eb. by rewrite <- El.
      * unfold octets. rewrite Eb. cbn [m buf wpabuf_head data size]. rewrite zlen_app. lia.
  - intros Hno. apply wp_ret. destruct Hno as [->|Hno]; [by left|right].
    intros h' l D. rewrite Ed in D. apply decodes_attrs in D as (-> & Hl & Fl & extra & Ebody); [|done].
    apply (Hno l). unfold suf. rewrite Ebody, Hn. apply slice_prefix. lia.
Qed.

(** ** The hash functions

    Their results are 16 octets, whatever they are computed from. *)

Lemma md5_blocks_state fuel : forall len d st inb,
  length st = 4%nat -> length (md5_blocks MD5Transform fuel len d st inb).1.2 = 4%nat.
Proof.
  induction fuel as [|fuel IH]; intros len d st inb H; cbn [md5_blocks]; [done|].
  destruct (64 <=? len); [|done]. apply IH. by apply md5_length.
Qed.

Lemma md5_rest_state len d st bits inb :
  length st = 4%nat -> length (h_state (md5_rest MD5Transform len d st bits inb)) = 4%nat.
Proof.
  intros H. unfold md5_rest. pose proof (md5_blocks_state (Z.to_nat (len / 64)) len d st inb H) as E.
  by destruct (md5_blocks _ _ _ _ _ _) as [[[? ?] ?] ?].
Qed.

Lemma md5_update_state c d :
  length (h_state c) = 4%nat -> length (h_state (MD5Update c d)) = 4%nat.
Proof.
  intros H. unfold MD5Update, md5_update. cbv zeta. destruct (negb _); [|by apply md5_rest_state].
  destruct (_ <? _); [done|]. apply md5_rest_state. by apply md5_length.
Qed.

Lemma le32_digest st : length st = 4%nat ->
  bytes (concat (map put_le32 st)) /\ zlen (concat (map put_le32 st)) = 16.
Proof. intros H. destruct (digest_part _ st 4 le32_part H) as [[Hb _] Hz]; [lia|done]. Qed.

Lemma md5_vector_digest elems : bytes (md5_vector elems) /\ zlen (md5_vector elems) = 16.
Proof.
  unfold md5_vector, md5_from, MD5Final, md5_final. cbv zeta.
  assert (H : length (h_state (fold_left MD5Update elems (MD5Init stack_junk))) = 4%nat).
  { generalize (eq_refl : length (h_state (MD5Init stack_junk)) = 4%nat). generalize (MD5Init stack_junk).
    induction elems as [|e elems IH]; intros c Hc; cbn [fold_left]; [done|]. apply IH. by apply md5_update_state. }
  revert H. generalize (fold_left MD5Update elems (MD5Init stack_junk)). intros c H.
  destruct (_ <? 8); cbv beta iota; apply le32_digest;
    [exact (md5_length _ _ (md5_length _ _ H))|exact (md5_length _ _ H)].
Qed.

Lemma hmac_md5_digest key d : exists mac, hmac_md5 key d = Some mac /\ bytes mac /\ zlen mac = 16.
Proof.
  unfold hmac_md5, hmac_md5_vector, hmac_vector. cbn [length Nat.ltb Nat.leb].
  destruct (64 <? zlen key); eexists; (split; [reflexivity|apply md5_vector_digest]).
Qed.

(** ** Message-Authenticator *)

Definition MA : Z := RADIUS_ATTR_MESSAGE_AUTHENTICATOR.
Definition no_ma (l : list attribute) : Prop := Forall (fun a => a.1 <> MA) l.

(** No Message-Authenticator, one, or several. *)
Inductive ma_of (l : list attribute) : Prop :=
  | ma_none : no_ma l -> ma_of l
  | ma_one l1 v l2 : no_ma l1 -> no_ma l2 -> l = l1 ++ (MA, v) :: l2 -> ma_of l
  | ma_more l1 v l2 w l3 : l = l1 ++ (MA, v) :: l2 ++ (MA, w) :: l3 -> no_ma l1 -> no_ma l2 -> ma_of l.

Lemma ma_cases l : ma_of l.
Proof.
  induction l as [|[t v] l [Hn|l1 w l2 H1 H2 ->|l1 w l2 x l3 -> H1 H2]].
  - apply ma_none. constructor.
  - destruct (decide (t = MA)) as [->|Ht]; [apply (ma_one _ [] v l); [constructor|done|done]|].
    apply ma_none. by constructor.
  - destruct (decide (t = MA)) as [->|Ht]; [apply (ma_more _ [] v l1 w l2); [done|constructor|done]|].
    apply (ma_one _ ((t, v) :: l1) w l2); [by constructor|done|done].
  - destruct (decide (t = MA)) as [->|Ht]; [apply (ma_more _ [] v l1 w (l2 ++ (MA, x) :: l3)); [done|constructor|done]|].
    apply (ma_more _ ((t, v) :: l1) w l2 x l3); [done|by constructor|done].
Qed.

(** Values of the wrong length are not looked for. *)
Definition ma_sized (l : list attribute) : Prop := Forall (fun a => a.1 = MA -> zlen a.2 = 16) l.

Lemma find_ma_skip m ps l qs acc :
  Forall2 (view m) ps l -> no_ma l ->
  find_message_authenticator m (ps ++ qs) acc = find_message_authenticator m qs acc.
Proof.
  induction 1 as [|p a ps l (Ht & _) Hps IH]; intros Hn; [done|].
  apply Forall_cons in Hn as [Ha Hn]. cbn [app find_message_authenticator]. rewrite Ht.
  destruct (Z.eqb_spec a.1 RADIUS_ATTR_MESSAGE_AUTHENTICATOR); [by destruct Ha|]. by apply IH.
Qed.

Lemma find_ma_here m p v qs acc :
  view m p (MA, v) ->
  find_message_authenticator m (p :: qs) acc =
    match acc with Some _ => None | None => find_message_authenticator m qs (Some p) end.
Proof. intros (Ht & _). cbn [find_message_authenticator]. by rewrite Ht. Qed.

(** What the loop finds. *)
Lemma find_ma m h l :
  holds m h l ->
  match find_message_authenticator m (attr_pos m) None with
  | None => exists l1 v l2 w l3, l = l1 ++ (MA, v) :: l2 ++ (MA, w) :: l3
  | Some None => no_ma l
  | Some (Some p) => exists l1 v l2, l = l1 ++ (MA, v) :: l2 /\ no_ma l1 /\ no_ma l2 /\
                       p = 20 + zlen (encs l1) /\ view m p (MA, v)
  end.
Proof.
  intros H. pose proof (holds_views _ _ _ H) as V. rewrite (holds_pos _ _ _ H) in *. clear H.
  destruct (ma_cases l) as [Hn|l1 v l2 H1 H2 E|l1 v l2 w l3 E H1 H2].
  - rewrite <- (app_nil_r (positions 20 l)). by rewrite (find_ma_skip m _ l).
  - rewrite E, positions_app in *. apply Forall2_app_inv in V as [V1 V2].
    2: { clear. generalize 20. induction l1; intros o; cbn; [done|]. f_equal. apply IHl1. }
    rewrite (find_ma_skip m _ l1) by done. cbn [positions] in *. apply Forall2_cons in V2 as [Va V2].
    rewrite (find_ma_here m _ v) by done. rewrite <- (app_nil_r (positions (_ + zlen (enc _)) l2)).
    rewrite (find_ma_skip m _ l2) by done. cbn [find_message_authenticator]. by exists l1, v, l2.
  - rewrite E, positions_app in *. apply Forall2_app_inv in V as [V1 V2].
    2: { clear. generalize 20. induction l1; intros o; cbn; [done|]. f_equal. apply IHl1. }
    rewrite (find_ma_skip m _ l1) by done. cbn [positions] in *. apply Forall2_cons in V2 as [Va V2].
    rewrite (find_ma_here m _ v) by done. rewrite positions_app in *. apply Forall2_app_inv in V2 as [V2 V3].
    2: { clear. generalize (20 + zlen (encs l1) + zlen (enc (MA, v))). induction l2; intros o; cbn; [done|].
         f_equal. apply IHl2. }
    rewrite (find_ma_skip m _ l2) by done. cbn [positions] in *. apply Forall2_cons in V3 as [Vb V3].
    rewrite (find_ma_here m _ w) by done. by exists l1, v, l2, w, l3.
Qed.

Lemma put_ma_holds m h l z secret :
  holds m h (l ++ [(MA, z)]) -> zlen z = 16 ->
  exists mac, hmac_md5 secret (octets m) = Some mac /\ bytes mac /\ zlen mac = 16 /\
    holds (put_message_authenticator secret (20 + zlen (encs l)) m) h (l ++ [(MA, mac)]).
Proof.
  intros H Hz. destruct (hmac_md5_digest secret (octets m)) as (mac & E & Hb & Hl).
  exists mac. split; [done|]. split; [done|]. split; [done|]. unfold put_message_authenticator. rewrite E.
  unfold sizeof_radius_attr_hdr. apply (value_poke m h l [] MA z mac H); [by rewrite Hl|done].
Qed.

(** ** Responses: [radius_msg_finish_srv] *)

(** What the two authenticators of a response are, from the header without
    them and the attributes around Message-Authenticator. *)
Definition message_mac (secret : list Z) (h : header) (ra : list Z) (l k : list attribute) : option (list Z) :=
  hmac_md5 secret (hdr_octets (with_auth h ra) ++ encs (l ++ (MA, zero_mac) :: k)).
Definition response_mac (secret : list Z) (h : header) (ra : list Z) (l : list attribute) : list Z :=
  md5_vector [[code h; identifier h] ++ length_field h; ra; encs l; secret].

Lemma response_mac_auth secret h a ra l : response_mac secret (with_auth h a) ra l = response_mac secret h ra l.
Proof. destruct h. unfold response_mac. cbn [with_auth code identifier length_field]. reflexivity. Qed.

Lemma too_long_octets m : too_long m = if 0xffff <? zlen (octets m) then -1 else 0.
Proof. reflexivity. Qed.

Lemma zero_mac_ok : bytes zero_mac /\ zlen zero_mac = 16.
Proof. split; [|done]. apply Forall_replicate. unfold byte. lia. Qed.

Lemma response_authenticator_holds m h l ra secret :
  holds m h l -> response_authenticator m ra secret = response_mac secret h ra l.
Proof.
  intros H. destruct (holds_header _ _ _ H) as (_ & _ & _ & E1 & E2).
  unfold response_authenticator, response_mac. by rewrite E1, E2.
Qed.

Lemma zero_attr_fits : fits (MA, zero_mac).
Proof. destruct zero_mac_ok as [Hb Hz]. split; [done|]. split; [exact Hb|]. cbn [snd]. lia. Qed.

Lemma finish_srv_wp ok m h l secret ra :
  holds m h l -> bytes ra -> zlen ra = 16 -> zlen (octets m) + 18 <= 65535 ->
  wp ok (radius_msg_finish_srv m secret ra) (fun '(r, m') =>
    r = -1 /\ ok = false \/
    r = 0 /\ exists mac,
      let h1 := with_length h (WPA_PUT_BE16 (zlen (octets m) + 18)) in
      let l1 := l ++ [(MA, mac)] in
      message_mac secret h1 ra l [] = Some mac /\ zlen mac = 16 /\
      holds m' (with_auth h1 (response_mac secret h1 ra l1)) l1).
Proof.
  intros H Hra Zra Hsize. unfold radius_msg_finish_srv. apply wp_bind.
  eapply wp_mono; [apply (add_attr_wp ok m h l MA zero_mac H zero_attr_fits); lia|].
  intros [[p|] m1]; intros Hm; apply wp_ret; [|by left]. destruct Hm as [-> Hm]. right.
  destruct zero_mac_ok as [Zb Zz].
  assert (L1 : zlen (octets m1) = zlen (octets m) + 18).
  { rewrite (holds_len _ _ _ Hm), (holds_len _ _ _ H), encs_app, zlen_app. unfold encs at 2.
    cbn [map concat]. rewrite app_nil_r, zlen_enc. cbn [snd]. rewrite Zz. lia. }
  apply set_length_holds in Hm. rewrite L1 in Hm. set (h1 := with_length h _) in *. clearbody h1.
  set (m2 := set_length m1) in *. clearbody m2.
  assert (Hm3 := set_authenticator_holds m2 h1 _ ra Hm Hra Zra). set (m3 := set_authenticator ra m2) in *. clearbody m3.
  rewrite (holds_len m h l H).
  destruct (put_ma_holds m3 _ l zero_mac secret Hm3 Zz) as (mac & E & Mb & Mz & Hm4).
  set (m4 := put_message_authenticator _ _ _) in *. clearbody m4.
  rewrite (response_authenticator_holds m4 _ _ ra secret Hm4).
  rewrite response_mac_auth.
  assert (R : bytes (response_mac secret h1 ra (l ++ [(MA, mac)])) /\ zlen (response_mac secret h1 ra (l ++ [(MA, mac)])) = 16)
    by apply md5_vector_digest.
  remember (response_mac secret h1 ra (l ++ [(MA, mac)])) as rm eqn:Erm. destruct R as [Rb Rz].
  assert (Hm5 := set_authenticator_holds m4 _ _ _ Hm4 Rb Rz).
  split.
  - rewrite too_long_octets, (holds_len _ _ _ Hm5).
    assert (E2 : zlen (encs (l ++ [(MA, mac)])) = zlen (encs l) + 18).
    { rewrite encs_app, zlen_app. unfold encs at 2. cbn [map concat]. rewrite app_nil_r, zlen_enc. cbn [snd]. lia. }
    rewrite E2. rewrite (holds_len m h l H) in Hsize. destruct (Z.ltb_spec 65535 (20 + (zlen (encs l) + 18))); [lia|done].
  - exists mac. cbv zeta. split; [|split; [exact Mz|rewrite <- Erm; exact Hm5]].
    unfold message_mac. rewrite <- (holds_octets _ _ _ Hm3). exact E.
Qed.

(** ** Verification *)

Lemma no_ma_split l1 v l2 k1 w k2 :
  no_ma l1 -> no_ma k1 -> l1 ++ (MA, v) :: l2 = k1 ++ (MA, w) :: k2 -> l1 = k1 /\ v = w /\ l2 = k2.
Proof.
  revert k1. induction l1 as [|a l1 IH]; intros [|b k1] H1 H2 E.
  - cbn [app] in E. by injection E as -> ->.
  - apply Forall_cons in H2 as [H2 _]. destruct H2. cbn [app] in E. by injection E as <-.
  - apply Forall_cons in H1 as [H1 _]. destruct H1. cbn [app] in E. by injection E as ->.
  - apply Forall_cons in H1 as [_ H1]. apply Forall_cons in H2 as [_ H2]. cbn [app] in E.
    assert (a = b) as -> by congruence. destruct (IH k1 H1 H2) as (-> & -> & ->); [congruence|done].
Qed.

Lemma no_ma_not l v : no_ma l -> ~ In (MA, v) l.
Proof. intros H Hin. by apply (proj1 (List.Forall_forall _ _) H (MA, v) Hin). Qed.

(** Exactly one Message-Authenticator, with the right value. *)
Definition ma_valid (secret : list Z) (h : header) (ra : list Z) (l : list attribute) : Prop :=
  exists l1 v l2, l = l1 ++ (MA, v) :: l2 /\ no_ma l1 /\ no_ma l2 /\ message_mac secret h ra l1 l2 = Some v.

Lemma peek_ok m off n :
  0 <= off -> 0 <= n -> off + n <= zlen (octets m) <= size (buf m) ->
  peek_unchecked m off n = mret (slice (octets m) off n).
Proof.
  intros Ho Hn H. unfold peek_unchecked. destruct (Z.ltb_spec (size (buf m)) (off + n)); [lia|].
  f_equal. unfold slice. rewrite drop_app_le by (unfold zlen in H; lia).
  apply take_app_le. rewrite length_drop. unfold zlen in H. lia.
Qed.

Lemma poke_ok m off d :
  off + zlen d <= zlen (octets m) <= size (buf m) -> poke_unchecked off d m = mret (poke off d m).
Proof.
  intros H. unfold poke_unchecked. destruct (Z.ltb_spec (size (buf m)) (off + zlen d)); [lia|done].
Qed.

Lemma msg_ext m m' :
  octets m' = octets m -> size (buf m') = size (buf m) -> flags (buf m') = flags (buf m) ->
  attr_pos m' = attr_pos m -> attr_size m' = attr_size m -> m' = m.
Proof.
  destruct m as [[s d f] p a], m' as [[s' d' f'] p' a']. unfold octets, wpabuf_head. cbn. congruence.
Qed.

Lemma memcmp_same a b : memcmp_differs a b = false <-> a = b.
Proof.
  unfold memcmp_differs. case_bool_decide; cbn; split; congruence.
Qed.

(** The value is saved, cleared for the computation and written back. *)
Lemma verify_ma_found ok m h l1 v l2 secret ra (Q : bool * radius_msg -> Prop) p mac :
  holds m h (l1 ++ (MA, v) :: l2) -> zlen v = 16 -> bytes ra -> zlen ra = 16 ->
  p = 20 + zlen (encs l1) -> view m p (MA, v) -> message_mac secret h ra l1 l2 = Some mac ->
  Q (memcmp_differs v mac, m) ->
  wp ok (orig ← peek_unchecked m (p + sizeof_radius_attr_hdr) MD5_MAC_LEN;
         m ← poke_unchecked (p + sizeof_radius_attr_hdr) zero_mac m;
         let orig_authenticator := hdr_authenticator m in
         let m := set_authenticator ra m in
         match hmac_md5 secret (octets m) with
         | None => mret (true, m)
         | Some auth =>
             m ← poke_unchecked (p + sizeof_radius_attr_hdr) orig m;
             let m := set_authenticator orig_authenticator m in
             mret (memcmp_differs orig auth, m)
         end) Q.
Proof.
  intros H Hv Hrb Hrz Hp (_ & Vl & Vv & V1 & V2) Emac HQ. cbn [fst snd] in *.
  pose proof (holds_room _ _ _ H) as Hroom. destruct zero_mac_ok as [Zb Zz].
  unfold sizeof_radius_attr_hdr, MD5_MAC_LEN. rewrite peek_ok by lia. apply wp_bind, wp_ret.
  assert (Ev : slice (octets m) (p + 2) 16 = v).
  { unfold attr_value in Vv. rewrite Vl, Hv in Vv. exact Vv. }
  rewrite Ev, poke_ok by lia. apply wp_bind, wp_ret. cbv zeta.
  assert (H1 := value_poke m h l1 l2 MA v zero_mac H ltac:(lia) Zb). rewrite <- Hp in H1.
  set (m1 := poke (p + 2) zero_mac m) in *.
  assert (S1 : size (buf m1) = size (buf m) /\ flags (buf m1) = flags (buf m) /\ attr_pos m1 = attr_pos m /\
               attr_size m1 = attr_size m) by done. clearbody m1.
  destruct (holds_header _ _ _ H1) as (_ & _ & Ea & _). rewrite Ea.
  assert (H2 := set_authenticator_holds m1 h _ ra H1 Hrb Hrz). set (m2 := set_authenticator ra m1) in *.
  assert (S2 : size (buf m2) = size (buf m) /\ flags (buf m2) = flags (buf m) /\ attr_pos m2 = attr_pos m /\
               attr_size m2 = attr_size m) by exact S1. clearbody m2. clear S1 H1 Ea m1.
  unfold message_mac in Emac. rewrite <- (holds_octets _ _ _ H2) in Emac. rewrite Emac.
  assert (L2 : zlen (octets m2) = zlen (octets m)).
  { rewrite (holds_len _ _ _ H2), (holds_len _ _ _ H), !encs_app, !encs_cons, !zlen_app, !zlen_enc. cbn [snd]. lia. }
  destruct S2 as (S2 & S3 & S4 & S5). rewrite poke_ok by (rewrite S2; lia). apply wp_bind, wp_ret, wp_ret.
  assert (Hb : bytes v).
  { pose proof (holds_fits _ _ _ H) as F. apply Forall_app in F as [_ F]. apply Forall_cons in F as [(_ & F & _) _]. exact F. }
  assert (H3 := value_poke m2 _ l1 l2 MA zero_mac v H2 ltac:(lia) Hb). rewrite <- Hp in H3.
  destruct (ok_auth _ (holds_hdr _ _ _ H)) as [Ab Az].
  assert (H4 := set_authenticator_holds _ _ _ (authenticator h) H3 Ab Az).
  enough (set_authenticator (authenticator h) (poke (p + 2) v m2) = m) as -> by exact HQ.
  apply msg_ext; [|exact S2|exact S3|exact S4|exact S5].
  rewrite (holds_octets _ _ _ H4), (holds_octets _ _ _ H). by destruct h.
Qed.

Lemma verify_msg_auth_wp ok m h l secret ra :
  holds m h l -> ma_sized l -> bytes ra -> zlen ra = 16 ->
  wp ok (radius_msg_verify_msg_auth m secret (Some ra)) (fun '(bad, m') =>
    m' = m /\ (bad = false <-> ma_valid secret h ra l)).
Proof.
  intros H Hs Hrb Hrz. unfold radius_msg_verify_msg_auth. pose proof (find_ma m h l H) as F.
  destruct (find_message_authenticator _ _ _) as [[p|]|].
  - destruct F as (l1 & v & l2 & -> & N1 & N2 & Ep & V).
    destruct (hmac_md5_digest secret (hdr_octets (with_auth h ra) ++ encs (l1 ++ (MA, zero_mac) :: l2))) as (mac & Emac & _).
    apply Forall_app in Hs as [_ Hs]. apply Forall_cons in Hs as [Hs _].
    apply (verify_ma_found ok m h l1 v l2 secret ra _ p mac H (Hs eq_refl) Hrb Hrz Ep V Emac).
    split; [done|]. rewrite memcmp_same. split.
    + intros ->. by exists l1, mac, l2.
    + intros (k1 & w & k2 & E & K1 & K2 & M). apply no_ma_split in E as (-> & -> & ->); [|done|done].
      fold (message_mac secret h ra k1 k2) in Emac. congruence.
  - apply wp_ret. split; [done|]. split; [done|]. intros (l1 & v & l2 & -> & _).
    exfalso. apply (no_ma_not _ v F). apply in_or_app. right. by left.
  - apply wp_ret. split; [done|]. split; [done|]. intros (k1 & x & k2 & E & K1 & K2 & _). exfalso.
    destruct F as (l1 & v & l2 & w & l3 & ->).
    assert (N : forall a k, no_ma a -> forall b, a ++ (MA, x) :: k2 = b ++ (MA, v) :: k -> no_ma k2 -> no_ma k).
    { induction a as [|c a IH]; intros k Ha [|d b] Eq Hk.
      - cbn [app] in Eq. by injection Eq as _ <-.
      - assert (k2 = b ++ (MA, v) :: k) as -> by (cbn [app] in Eq; congruence).
        apply Forall_app in Hk as [_ Hk]. by apply Forall_cons in Hk as [_ Hk].
      - apply Forall_cons in Ha as [Ha _]. cbn [app] in Eq. destruct Ha. by injection Eq as ->.
      - apply Forall_cons in Ha as [_ Ha]. cbn [app] in Eq. apply (IH k Ha b); [congruence|done]. }
    apply (no_ma_not (l2 ++ (MA, w) :: l3) w (N k1 _ K1 l1 (eq_sym E) K2)). apply in_or_app. right. by left.
Qed.

Lemma verify_wp ok m h l secret sent hs ls auth :
  holds m h l -> holds sent hs ls -> (auth = true -> ma_sized l) ->
  wp ok (radius_msg_verify m secret (Some sent) auth) (fun '(bad, m') =>
    m' = m /\ (bad = false <->
      (auth = true -> ma_valid secret h (authenticator hs) l) /\
      authenticator h = response_mac secret h (authenticator hs) l)).
Proof.
  intros H Hsent Hs. unfold radius_msg_verify. destruct (holds_header _ _ _ Hsent) as (_ & _ & Ea & _).
  destruct (holds_header _ _ _ H) as (_ & _ & Eh & _).
  destruct (ok_auth _ (holds_hdr _ _ _ Hsent)) as [Ab Az]. rewrite Ea.
  assert (Hlast : forall P : Prop, (P <-> (auth = true -> ma_valid secret h (authenticator hs) l)) -> P ->
    wp ok (mret (memcmp_differs (response_authenticator m (authenticator hs) secret) (hdr_authenticator m), m) : run _)
      (fun '(bad, m') => m' = m /\ (bad = false <->
        (auth = true -> ma_valid secret h (authenticator hs) l) /\
        authenticator h = response_mac secret h (authenticator hs) l))).
  { intros P HP p. apply wp_ret. split; [done|]. rewrite memcmp_same, (response_authenticator_holds _ _ _ _ _ H), Eh.
    split; [intros E; split; [by apply HP|done]|by intros [_ E]]. }
  apply wp_bind. destruct auth.
  - eapply wp_mono; [apply (verify_msg_auth_wp ok m h l secret (authenticator hs) H); auto|].
    intros [[] m'] [-> Hb].
    + apply wp_ret. split; [done|]. split; [done|]. intros [Hv _]. exfalso. by apply Hb in Hv.
    + apply (Hlast (ma_valid secret h (authenticator hs) l)); [split; auto|by apply Hb].
  - apply wp_ret. by apply (Hlast True).
Qed.

Lemma zlen_encs1 a : zlen (encs [a]) = 2 + zlen a.2.
Proof. rewrite encs_cons, zlen_app, zlen_enc. change (zlen (encs [])) with 0. lia. Qed.

(** ** EAP messages *)

Definition EAP : Z := RADIUS_ATTR_EAP_MESSAGE.

(** The EAP message that the attributes carry in parts. *)
Definition eap_of (l : list attribute) : list Z :=
  concat (map snd (filter (fun a => a.1 = EAP) l)).

Lemma eap_of_app l k : eap_of (l ++ k) = eap_of l ++ eap_of k.
Proof. unfold eap_of. by rewrite filter_app, map_app, concat_app. Qed.

Lemma eap_of_cons a l : eap_of (a :: l) = (if decide (a.1 = EAP) then a.2 else []) ++ eap_of l.
Proof. unfold eap_of. rewrite filter_cons. by case_decide. Qed.

Lemma eap_of_parts fs : eap_of (map (pair EAP) fs) = concat fs.
Proof. induction fs as [|f fs IH]; [done|]. cbn [map]. rewrite eap_of_cons, IH. by rewrite decide_True. Qed.

Lemma eap_of_other l : Forall (fun a => a.1 <> EAP) l -> eap_of l = [].
Proof. induction 1 as [|a l Ha Hl IH]; [done|]. rewrite eap_of_cons, IH. by rewrite decide_False. Qed.

Lemma add_eap_loop_wp ok h fuel : forall m l d,
  holds m h l -> bytes d -> zlen (octets m) + 3 * zlen d < 2 ^ 61 -> (length d < fuel)%nat ->
  wp ok (add_eap_loop fuel m d) (fun '(r, m') =>
    r = 0 /\ ok = false \/
    r = 1 /\ exists fs, concat fs = d /\ holds m' h (l ++ map (pair EAP) fs) /\
                       zlen (octets m') <= zlen (octets m) + 3 * zlen d).
Proof.
  induction fuel as [|fuel IH]; intros m l d H Hb Hs Hf; [lia|]. cbn [add_eap_loop].
  pose proof (zlen_nonneg d). pose proof (zlen_nonneg (octets m)).
  destruct (Z.leb_spec (zlen d) 0).
  { apply wp_ret. right. split; [done|]. exists []. destruct d as [|x d]; [|exfalso; zlen].
    cbn. rewrite app_nil_r. split; [done|]. split; [done|lia]. }
  set (len := if RADIUS_MAX_ATTR_LEN <? zlen d then RADIUS_MAX_ATTR_LEN else zlen d).
  assert (Hlen : 1 <= len <= 253 /\ len <= zlen d).
  { unfold len, RADIUS_MAX_ATTR_LEN, sizeof_radius_attr_hdr. destruct (Z.ltb_spec (255 - 2) (zlen d)); lia. }
  assert (Hz : zlen (slice d 0 len) = len) by (apply zlen_slice; lia).
  assert (Ed : d = slice d 0 len ++ drop (Z.to_nat len) d).
  { unfold slice. by rewrite drop_0, take_drop. }
  assert (Hfit : fits (EAP, slice d 0 len)).
  { split; [done|]. cbn [snd]. split; [|lia]. unfold slice. by apply Forall_take, Forall_drop. }
  assert (Hrest : zlen (drop (Z.to_nat len) d) = zlen d - len).
  { unfold zlen in *. rewrite length_drop. lia. }
  apply wp_bind. eapply wp_mono; [apply (add_attr_wp ok m h l _ _ H Hfit); lia|].
  intros [[p|] m1]; [|intros ->; apply wp_ret; by left]. intros [_ Hm1].
  assert (L1 : zlen (octets m1) = zlen (octets m) + 2 + len).
  { rewrite (holds_len _ _ _ Hm1), (holds_len _ _ _ H), encs_app, zlen_app, zlen_encs1. cbn [snd]. lia. }
  eapply wp_mono; [apply (IH m1 _ (drop (Z.to_nat len) d) Hm1)|].
  - by apply Forall_drop.
  - lia.
  - rewrite length_drop. unfold zlen in *. lia.
  - intros [r m'] [Hr|(-> & fs & Ec & Hm & Hz')]; [by left|right]. split; [done|].
    exists (slice d 0 len :: fs). cbn [concat map]. rewrite Ec. split; [done|]. split; [|lia].
    by rewrite <- app_assoc in Hm.
Qed.

Lemma add_eap_wp ok m h l d :
  holds m h l -> bytes d -> zlen (octets m) + 3 * zlen d < 2 ^ 61 ->
  wp ok (radius_msg_add_eap m d) (fun '(r, m') =>
    r = 0 /\ ok = false \/
    r = 1 /\ exists fs, concat fs = d /\ holds m' h (l ++ map (pair EAP) fs) /\
                       zlen (octets m') <= zlen (octets m) + 3 * zlen d).
Proof. intros. apply add_eap_loop_wp; [done|done|done|lia]. Qed.

Lemma has_eap_view m p a :
  view m p a -> has_eap m p = bool_decide (a.1 = EAP /\ a.2 <> []).
Proof.
  intros (Ht & Hl & _). unfold has_eap. rewrite Ht, Hl. unfold sizeof_radius_attr_hdr, EAP.
  apply eq_bool_prop_intro. rewrite bool_decide_spec. destruct a as [t v]. cbn [fst snd].
  rewrite andb_True, !Is_true_true, Z.eqb_eq, Z.ltb_lt. destruct v as [|x v]; [split; [intros [_ Hv]; rewrite zlen_nil in Hv; lia|by intros [_ ?]]|].
  rewrite zlen_cons. pose proof (zlen_nonneg v). split; intros [? ?]; (split; [done|]); [done|lia].
Qed.

Lemma eap_len_views m ps l : Forall2 (view m) ps l -> eap_len m ps = zlen (eap_of l).
Proof.
  intros V. unfold eap_len. enough (forall n, fold_left (fun len p => if has_eap m p
    then len + (attr_length m p - sizeof_radius_attr_hdr) else len) ps n = n + zlen (eap_of l)) as -> by lia.
  induction V as [|p a ps l Va V IH]; intros n; cbn [fold_left]; [change (zlen (eap_of [])) with 0; lia|].
  rewrite IH, eap_of_cons, zlen_app, (has_eap_view _ _ _ Va). destruct Va as (_ & -> & _).
  unfold sizeof_radius_attr_hdr. case_bool_decide as D; case_decide as E; try lia.
  - destruct (decide (a.2 = [])) as [Ea|]; [rewrite Ea, zlen_nil; lia|tauto].
  - rewrite zlen_nil. lia.
Qed.

Lemma copy_eap_views m ps l : Forall2 (view m) ps l -> forall eap,
  wpabuf_len eap + zlen (eap_of l) <= size eap ->
  copy_eap m ps eap = Some (mk_wpabuf (size eap) (data eap ++ eap_of l) (flags eap)).
Proof.
  induction 1 as [|p a ps l Va V IH]; intros eap Hr; cbn [copy_eap].
  { cbn. rewrite app_nil_r. by destruct eap. }
  rewrite (has_eap_view _ _ _ Va). destruct Va as (_ & _ & -> & _). rewrite eap_of_cons in *.
  unfold wpabuf_len in *. pose proof (zlen_nonneg (eap_of l)).
  case_bool_decide as D; case_decide as E; try tauto.
  - rewrite zlen_app in Hr. rewrite put_data_ok by (unfold wpabuf_len; lia).
    rewrite IH by (unfold wpabuf_len; cbn [data size]; rewrite zlen_app; lia). cbn [data size flags].
    by rewrite app_assoc.
  - destruct (decide (a.2 = [])) as [Ea|]; [|tauto]. rewrite Ea in *. by apply IH.
  - by apply IH.
Qed.

Lemma get_eap_wp ok m h l :
  holds m h l ->
  wp ok (radius_msg_get_eap (Some m)) (fun r => match r with
    | Some eap => data eap = eap_of l /\ eap_of l <> []
    | None => eap_of l = [] \/ ok = false
    end).
Proof.
  intros H. pose proof (holds_views _ _ _ H) as V. unfold radius_msg_get_eap.
  rewrite (eap_len_views _ _ _ V). destruct (Z.eqb_spec (zlen (eap_of l)) 0) as [E|E].
  { apply wp_ret. left. destruct (eap_of l); [done|exfalso; zlen]. }
  apply wp_bind. eapply wp_mono; [apply wp_alloc|]. intros [] Ho; cbn [wpabuf_alloc].
  { apply wp_ret. right. destruct ok; [by apply Ho|done]. }
  apply wp_bind. eapply wp_or_abort; [apply (copy_eap_views _ _ _ V); unfold wpabuf_len; cbn [data size]; zlen|].
  apply wp_ret. cbn [data app]. split; [done|]. intros En. by rewrite En in E.
Qed.

(** A message is parsed back as it was built. *)
Lemma enc_app_inv a b d k : enc a ++ d = enc b ++ k -> a = b /\ d = k.
Proof.
  destruct a as [t v], b as [t' v']. unfold enc. cbn [fst snd app]. intros E.
  assert (t = t' /\ 2 + zlen v = 2 + zlen v' /\ v ++ d = v' ++ k) as (-> & Hz & Ev).
  { split; [congruence|]. split; congruence. }
  apply app_inj_1 in Ev as [-> ->]; [done|]. unfold zlen in Hz. lia.
Qed.

Lemma encs_inj l : forall k, encs l = encs k -> l = k.
Proof.
  induction l as [|a l IH]; intros [|b k] E; [done| | |].
  - symmetry in E. by apply encs_nil_inv in E.
  - by apply encs_nil_inv in E.
  - rewrite !encs_cons in E. apply enc_app_inv in E as [-> E]. by rewrite (IH k).
Qed.

Lemma decodes_unique d h l h' l' : decodes d h l -> decodes d h' l' -> h = h' /\ l = l'.
Proof.
  intros (Hh & Fl & Hn & extra & E) D'. rewrite <- app_assoc in E. subst d.
  apply decodes_attrs in D' as (-> & Hn' & Fl' & extra' & E); [|done]. split; [done|].
  apply encs_inj. apply app_inj_1 in E as [E _]; [done|]. rewrite Hn in Hn'. unfold zlen in Hn'. lia.
Qed.

Lemma holds_decodes m h l :
  holds m h l -> length_field h = WPA_PUT_BE16 (zlen (octets m)) -> zlen (octets m) < 65536 ->
  decodes (octets m) h l.
Proof.
  intros H Hlf Hz. pose proof (holds_len _ _ _ H) as Hl. pose proof (zlen_nonneg (encs l)).
  split; [apply H|]. split; [apply H|]. split.
  - rewrite Hlf. pose proof (get_put_be16 [] (zlen (octets m)) []) as G. rewrite app_nil_r in G.
    cbn [app] in G. rewrite zlen_nil in G. rewrite G, u16_small by lia. exact Hl.
  - exists []. rewrite app_nil_r. apply H.
Qed.

Lemma parse_back ok m h l :
  holds m h l -> length_field h = WPA_PUT_BE16 (zlen (octets m)) -> zlen (octets m) < 65536 ->
  wp ok (radius_msg_parse (octets m)) (fun r => match r with
    | Some m' => holds m' h l
    | None => ok = false
    end).
Proof.
  intros H Hlf Hz. pose proof (holds_decodes m h l H Hlf Hz) as D.
  eapply wp_mono; [apply parse_wp; by eapply holds_bytes|]. intros [m'|].
  - intros (h' & l' & D' & H'). by destruct (decodes_unique _ _ _ _ _ D D') as [-> ->].
  - intros [Hok|Hno]; [done|]. by destruct (Hno h l).
Qed.

(** ** Copies of attributes *)

Definition of_type (t : Z) (l : list attribute) : list attribute := filter (fun a => a.1 = t) l.

Lemma of_type_cons t a l : of_type t (a :: l) = if decide (a.1 = t) then a :: of_type t l else of_type t l.
Proof. unfold of_type. rewrite filter_cons. by case_decide. Qed.

Lemma copy_attr_loop_wp ok src h t : forall ps ls, Forall2 (view src) ps ls -> Forall fits ls ->
  forall dst l n, holds dst h l -> zlen (octets dst) + zlen (encs (of_type t ls)) < 2 ^ 60 -> 0 <= n ->
  wp ok (copy_attr_loop dst src t ps n) (fun '(r, dst') =>
    r < 0 /\ ok = false \/ 0 <= r /\ holds dst' h (l ++ of_type t ls)).
Proof.
  induction 1 as [|p a ps ls Va V IH]; intros Fl dst l n H Hz Hn; cbn [copy_attr_loop].
  { apply wp_ret. right. unfold of_type. cbn. by rewrite app_nil_r. }
  apply Forall_cons in Fl as [Fa Fl]. destruct Va as (Vt & Vl & Vv & _ & _). rewrite Vt, Vl, Vv.
  rewrite of_type_cons in *. pose proof (zlen_nonneg a.2). unfold sizeof_radius_attr_hdr.
  destruct (Z.eqb_spec a.1 t) as [Et|Et]; cbn [andb].
  - destruct (decide (a.1 = t)); [|done]. destruct (Z.leb_spec 2 (2 + zlen a.2)); [|lia].
    rewrite encs_cons, zlen_app in Hz. pose proof (zlen_nonneg (encs (of_type t ls))).
    pose proof (zlen_nonneg (enc a)). pose proof (zlen_enc a).
    apply wp_bind. eapply wp_mono; [apply (add_attr_wp ok dst h l t a.2 H)|].
    + rewrite <- Et. by destruct a.
    + lia.
    + intros [[q|] d1]; [|intros ->; apply wp_ret; left; split; [lia|done]]. intros [_ Hd1].
      eapply wp_mono; [apply (IH Fl d1 _ (n + 1) Hd1)|].
      * rewrite (holds_len _ _ _ Hd1). rewrite (holds_len _ _ _ H) in Hz. rewrite encs_app, zlen_app, zlen_encs1. cbn [snd]. lia.
      * lia.
      * intros [r d2] [Hr|[Hr Hd2]]; [by left|right]. split; [done|]. rewrite <- app_assoc in Hd2. cbn [app] in Hd2.
        rewrite <- Et in Hd2 at 1. by rewrite <- surjective_pairing in Hd2.
  - destruct (decide (a.1 = t)); [done|]. by apply IH.
Qed.

Lemma copy_attr_wp ok dst h l src hs ls t :
  holds dst h l -> holds src hs ls -> zlen (octets dst) + zlen (encs (of_type t ls)) < 2 ^ 60 ->
  wp ok (radius_msg_copy_attr dst src t) (fun '(r, dst') =>
    r < 0 /\ ok = false \/ 0 <= r /\ holds dst' h (l ++ of_type t ls)).
Proof.
  intros H Hs Hz. apply (copy_attr_loop_wp ok src h t (attr_pos src) ls); [by eapply holds_views|apply Hs|done|done|lia].
Qed.
