(* ===== verification/RadiusKeys.v ===== *)
(** * Keys in RADIUS messages

    The encryption of MS-MPPE keys (RFC 2548) and its inverse, and the vendor
    specific attributes that carry them, as functions of the list of
    attributes. *)

From S2P Require Import Prelude.
From S2P Require Import Wpabuf.
From S2P Require Import Common.
From S2P Require Import Aes.
From S2P Require Import Hash.
From S2P Require Import HashProperties.
From S2P Require Import RadiusMsg.
From S2P Require Import RadiusAttrs.

(** ** Blocks *)

Lemma xor_twice a h : (length a <= length h)%nat -> zip_with Z.lxor (zip_with Z.lxor a h) h = a.
Proof.
  revert h. induction a as [|x a IH]; intros [|y h] H; cbn in *; [done|done|lia|].
  rewrite IH by lia. f_equal. rewrite Z.lxor_assoc, Z.lxor_nilpotent. apply Z.lxor_0_r.
Qed.

Lemma length_digest elems : length (md5_vector elems) = 16%nat.
Proof. destruct (md5_vector_digest elems) as [_ H]. unfold zlen in H. lia. Qed.

Lemma length_block c elems : length c = 16%nat -> length (zip_with Z.lxor c (md5_vector elems)) = 16%nat.
Proof. intros H. rewrite length_zip_with, length_digest. lia. Qed.

Lemma length_encrypt k : forall fuel secret seed d,
  length d = (16 * k)%nat -> (k < fuel)%nat -> length (encrypt_blocks fuel secret seed d) = (16 * k)%nat.
Proof.
  induction k as [|k IH]; intros [|fuel] secret seed d Hd Hf; try lia; cbn [encrypt_blocks].
  - assert (zlen d <= 0) by (unfold zlen; lia). by destruct (Z.leb_spec (zlen d) 0); [|lia].
  - destruct (Z.leb_spec (zlen d) 0) as [H|H]; [unfold zlen in H; lia|]. cbv zeta.
    rewrite length_app, length_block by (rewrite length_take; lia).
    rewrite IH by (rewrite ?length_drop; lia). lia.
Qed.

Lemma decrypt_encrypt k : forall fuel fuel' secret seed d,
  length d = (16 * k)%nat -> (k < fuel)%nat -> (k < fuel')%nat ->
  decrypt_blocks fuel' secret seed (encrypt_blocks fuel secret seed d) = d.
Proof.
  induction k as [|k IH]; intros [|fuel] [|fuel'] secret seed d Hd Hf Hf'; try lia;
    cbn [encrypt_blocks decrypt_blocks].
  - assert (zlen d <= 0) by (unfold zlen; lia). destruct (Z.leb_spec (zlen d) 0); [|lia].
    destruct d; [done|cbn in Hd; lia].
  - destruct (Z.leb_spec (zlen d) 0) as [H|H]; [unfold zlen in H; lia|]. cbv zeta.
    set (c := zip_with Z.lxor (take 16 d) (md5_vector (secret :: seed))).
    assert (Hc : length c = 16%nat) by (apply length_block; rewrite length_take; lia).
    destruct (Z.leb_spec (zlen (c ++ encrypt_blocks fuel secret [c] (drop 16 d))) 0) as [H'|H'].
    { unfold zlen in H'. rewrite length_app in H'. lia. }
    rewrite (take_app_length' c _ 16), (drop_app_length' c _ 16) by done.
    rewrite IH by (rewrite ?length_drop; lia).
    unfold c. rewrite xor_twice by (rewrite length_take, length_digest; lia). apply take_drop.
Qed.

(** [len & 0x0f], [(len & 0xf0) + 16]: up to the next multiple of 16. *)
Lemma round16 n :
  0 <= n < 256 ->
  (if negb (Z.land n 0x0f =? 0) then Z.land n 0xf0 + 16 else n) = 16 * ((n + 15) / 16).
Proof.
  intros H.
  assert (E : forallb (fun i => let n := Z.of_nat i in
    (if negb (Z.land n 0x0f =? 0) then Z.land n 0xf0 + 16 else n) =? 16 * ((n + 15) / 16)) (seq 0 256) = true)
    by (vm_compute; reflexivity).
  rewrite forallb_forall in E. specialize (E (Z.to_nat n)). cbv zeta in E. rewrite Z2Nat.id in E by lia.
  apply Z.eqb_eq, E. apply in_seq. lia.
Qed.

(** The padded key information that is encrypted, and its number of blocks. *)
Definition key_blocks (key : list Z) : nat := Z.to_nat ((zlen key + 16) / 16).
Definition key_info (key : list Z) : list Z :=
  zlen key :: key ++ replicate (16 * key_blocks key - 1 - length key) 0.

Lemma key_blocks_bound key :
  zlen key < 255 -> (1 + length key <= 16 * key_blocks key)%nat /\ (16 * key_blocks key <= 16 + length key)%nat.
Proof.
  intros H. unfold key_blocks. pose proof (zlen_nonneg key).
  pose proof (Z.mod_pos_bound (zlen key + 16) 16 ltac:(lia)). pose proof (Z.div_mod (zlen key + 16) 16 ltac:(lia)).
  unfold zlen in *. lia.
Qed.

Lemma length_key_info key : zlen key < 255 -> length (key_info key) = (16 * key_blocks key)%nat.
Proof.
  intros H. pose proof (key_blocks_bound key H). unfold key_info.
  cbn [length]. rewrite length_app, length_replicate. lia.
Qed.

(** What is sent of an encrypted key. *)
Definition encrypted (key : list Z) (salt : Z) (ra secret : list Z) : list Z :=
  encrypt_blocks (16 * key_blocks key) secret [ra; WPA_PUT_BE16 salt] (key_info key).

Lemma write_all (d l : list Z) : length l = length d -> mem_write 0 d l = d.
Proof.
  intros H. unfold mem_write. change (Z.to_nat 0) with 0%nat. rewrite drop_ge by lia. cbn. apply app_nil_r.
Qed.

Lemma encrypt_ms_key_ok key salt ra secret :
  zlen key < 255 ->
  let '(ebuf, elen) := encrypt_ms_key key salt ra secret (heap_junk (zlen key + 16)) in
  elen = 16 * Z.of_nat (key_blocks key) /\ slice ebuf 0 elen = encrypted key salt ra secret.
Proof.
  intros H. pose proof (key_blocks_bound key H) as [B1 B2]. pose proof (zlen_nonneg key) as Hz.
  unfold encrypt_ms_key. replace (i32 (1 + zlen key)) with (1 + zlen key).
  2: { unfold i32. rewrite Z.mod_small by lia. lia. }
  rewrite round16 by lia.
  assert (En : 16 * ((1 + zlen key + 15) / 16) = Z.of_nat (16 * key_blocks key)).
  { unfold key_blocks. replace (1 + zlen key + 15) with (zlen key + 16) by lia.
    pose proof (Z.div_pos (zlen key + 16) 16). lia. }
  rewrite En, !Nat2Z.id. clear En. set (n := (16 * key_blocks key)%nat) in *.
  assert (Ej : length (heap_junk (zlen key + 16)) = (length key + 16)%nat).
  { unfold heap_junk. rewrite length_replicate. unfold zlen. lia. }
  set (junk := heap_junk (zlen key + 16)) in *. clearbody junk. cbv zeta.
  assert (E1 : mem_write 0 (replicate n 0) junk = replicate n 0 ++ drop n junk).
  { unfold mem_write. change (Z.to_nat 0) with 0%nat. by rewrite length_replicate. }
  assert (E2 : mem_write 1 key (mem_write 0 [u8 (zlen key)] (replicate n 0 ++ drop n junk)) = key_info key ++ drop n junk).
  { rewrite u8_small by lia. destruct n as [|n'] eqn:En; [lia|]. unfold mem_write at 2.
    cbn [replicate app Z.to_nat take length drop Nat.add]. unfold mem_write. change (Z.to_nat 1) with 1%nat.
    cbn [take]. rewrite take_0. unfold key_info. fold n. rewrite En. cbn [app drop Nat.add]. f_equal.
    rewrite <- app_assoc. f_equal. change (Z.to_nat 0 + 1)%nat with 1%nat. cbn [drop]. rewrite drop_0, drop_app_le by (rewrite length_replicate; lia).
    rewrite drop_replicate. replace (S n' - 1 - length key)%nat with (n' - length key)%nat by lia. reflexivity. }
  assert (L : length (key_info key) = n) by (by apply length_key_info).
  rewrite E1, E2.
  assert (E3 : slice (key_info key ++ drop n junk) 0 (Z.of_nat n) = key_info key).
  { apply slice_prefix. unfold zlen. by rewrite L. }
  rewrite E3. split; [lia|]. unfold encrypted. fold n.
  assert (L2 : length (encrypt_blocks n secret [ra; WPA_PUT_BE16 salt] (key_info key)) = n).
  { unfold n at 2. apply (length_encrypt (key_blocks key)); [by rewrite L|lia]. }
  unfold mem_write. change (Z.to_nat 0) with 0%nat. cbn [take app Nat.add]. rewrite take_0. cbn [app].
  apply slice_prefix. unfold zlen. by rewrite L2.
Qed.

(** Decryption gives the key back. *)
Lemma decrypt_ok ok key salt ra secret :
  1 <= zlen key < 255 ->
  wp ok (decrypt_ms_key (WPA_PUT_BE16 salt ++ encrypted key salt ra secret) ra secret)
    (fun r => match r with Some k => k = key | None => ok = false end).
Proof.
  intros H. pose proof (key_blocks_bound key ltac:(lia)) as [B1 B2].
  set (n := key_blocks key) in *.
  assert (L : zlen (encrypted key salt ra secret) = 16 * Z.of_nat n).
  { unfold zlen, encrypted. fold n. rewrite (length_encrypt n) by (rewrite ?length_key_info by lia; fold n; lia). lia. }
  unfold decrypt_ms_key. rewrite zlen_app, L. change (zlen (WPA_PUT_BE16 salt)) with 2.
  destruct (Z.ltb_spec (2 + 16 * Z.of_nat n) (2 + 16)); [unfold zlen in *; lia|]. cbv zeta.
  replace (2 + 16 * Z.of_nat n - 2) with (Z.of_nat n * 16) by lia. rewrite Z.mod_mul by lia. cbn [negb Z.eqb].
  apply wp_alloc_then; [intros ->; by apply wp_ret|].
  change (take 2 (WPA_PUT_BE16 salt ++ encrypted key salt ra secret)) with (WPA_PUT_BE16 salt).
  change (drop 2 (WPA_PUT_BE16 salt ++ encrypted key salt ra secret)) with (encrypted key salt ra secret).
  assert (E : forall fuel, (n < fuel)%nat ->
    decrypt_blocks fuel secret [ra; WPA_PUT_BE16 salt] (encrypted key salt ra secret) = key_info key).
  { intros fuel Hf. unfold encrypted. apply (decrypt_encrypt n); [by rewrite length_key_info by lia|fold n; lia|done]. }
  rewrite E by (rewrite length_app; unfold zlen in L; lia). clear E.
  change (byte_at (key_info key) 0) with (zlen key).
  destruct (Z.eqb_spec (zlen key) 0); [lia|]. destruct (Z.ltb_spec (Z.of_nat n * 16 - 1) (zlen key)); [unfold zlen in *; lia|].
  cbn [orb]. apply wp_bind. eapply wp_mono; [apply wp_alloc|]. intros [] Ho; apply wp_ret.
  { destruct ok; [by apply Ho|done]. }
  exact (slice_part [zlen key] key _ 1 (zlen key) eq_refl eq_refl).
Qed.

(** ** Vendor specific attributes *)

(** An attribute with one vendor attribute. *)
Definition vendor_attr (vendor subtype : Z) (payload : list Z) : attribute :=
  (RADIUS_ATTR_VENDOR_SPECIFIC, WPA_PUT_BE32 vendor ++ [subtype; 2 + zlen payload] ++ payload).

Definition not_vendor (l : list attribute) : Prop := Forall (fun a => a.1 <> RADIUS_ATTR_VENDOR_SPECIFIC) l.

(** The octets of a value, where the message holds them. *)
Lemma view_octets m p a :
  view m p a -> exists pre post, octets m = pre ++ a.2 ++ post /\ zlen pre = p + 2.
Proof.
  intros (_ & Hl & Hv & H1 & H2). unfold attr_value in Hv. rewrite Hl in Hv.
  unfold sizeof_radius_attr_hdr in Hv. replace (2 + zlen a.2 - 2) with (zlen a.2) in Hv by lia.
  pose proof (zlen_nonneg a.2). unfold slice in Hv.
  exists (take (Z.to_nat (p + 2)) (octets m)), (drop (Z.to_nat (zlen a.2)) (drop (Z.to_nat (p + 2)) (octets m))).
  split.
  - rewrite <- Hv at 1. by rewrite take_drop, take_drop.
  - unfold zlen in *. rewrite length_take. lia.
Qed.

Lemma find_vendor_skip m ps l qs vendor subtype :
  Forall2 (view m) ps l -> not_vendor l ->
  find_vendor_attr m (ps ++ qs) vendor subtype = find_vendor_attr m qs vendor subtype.
Proof.
  induction 1 as [|p a ps l (Ht & _) V IH]; intros Hn; [done|]. apply Forall_cons in Hn as [Ha Hn].
  cbn [app find_vendor_attr]. rewrite Ht.
  destruct (Z.eqb_spec a.1 RADIUS_ATTR_VENDOR_SPECIFIC); [done|]. by apply IH.
Qed.

Lemma byte_at_in pre x post i : 0 <= i < zlen x -> byte_at (pre ++ x ++ post) (zlen pre + i) = byte_at x i.
Proof.
  intros H. rewrite byte_at_app_r by lia. replace (zlen pre + i - zlen pre) with i by lia.
  apply byte_at_app_l. lia.
Qed.

Lemma get_be32_in pre x post : 4 <= zlen x -> WPA_GET_BE32 (pre ++ x ++ post) (zlen pre) = WPA_GET_BE32 x 0.
Proof.
  intros H. unfold WPA_GET_BE32. rewrite <- (Z.add_0_r (zlen pre)) at 1.
  rewrite !byte_at_in by lia. done.
Qed.

Lemma find_vendor_cons m p vendor t payload qs subtype :
  view m p (vendor_attr vendor t payload) -> 0 <= vendor < 2 ^ 32 ->
  find_vendor_attr m (p :: qs) vendor subtype =
    if t =? subtype then Some (p + 8, zlen payload) else find_vendor_attr m qs vendor subtype.
Proof.
  intros V Hv. destruct (view_octets _ _ _ V) as (pre & post & Ho & Hp).
  destruct V as (Ht & Hl & _ & Hp0 & _). cbn [vendor_attr fst snd] in *. cbn [find_vendor_attr].
  rewrite Ht, Hl, Ho. unfold sizeof_radius_attr_hdr. rewrite <- Hp.
  set (v := WPA_PUT_BE32 vendor ++ [t; 2 + zlen payload] ++ payload) in *.
  assert (Zv : zlen v = 6 + zlen payload) by (unfold v; rewrite !zlen_app; change (zlen (WPA_PUT_BE32 vendor)) with 4; change (zlen [t; 2 + zlen payload]) with 2; lia).
  pose proof (zlen_nonneg payload). rewrite Zv.
  destruct (Z.ltb_spec (2 + (6 + zlen payload)) 2); [lia|]. cbn [negb orb Z.eqb Pos.eqb].
  change (RADIUS_ATTR_VENDOR_SPECIFIC =? RADIUS_ATTR_VENDOR_SPECIFIC) with true. cbn [negb orb].
  destruct (Z.ltb_spec (2 + (6 + zlen payload) - 2) 4); [lia|].
  rewrite get_be32_in by lia.
  assert (Ev : WPA_GET_BE32 v 0 = vendor) by (unfold v; rewrite <- (u32_small vendor) at 2 by lia; exact (get_put_be32 [] vendor _)).
  rewrite Ev, Z.eqb_refl. cbn [negb].
  assert (Hfuel : exists f, Z.to_nat (2 + (6 + zlen payload) - 2) = S (S f)).
  { exists (Z.to_nat (4 + zlen payload)). lia. }
  destruct Hfuel as (f & ->). cbn [vendor_loop]. unfold sizeof_radius_attr_vendor.
  destruct (Z.ltb_spec (2 + (6 + zlen payload) - 2 - 4) 2); [lia|].
  replace (zlen pre + 4 + 1) with (zlen pre + 5) by lia. rewrite !byte_at_in by lia.
  change (byte_at v 5) with (2 + zlen payload). change (byte_at v 4) with t.
  destruct (Z.ltb_spec (2 + (6 + zlen payload) - 2 - 4) (2 + zlen payload)); [lia|].
  destruct (Z.ltb_spec (2 + zlen payload) 2); [lia|]. cbn [orb].
  destruct (Z.eqb_spec t subtype); cbn [negb].
  - do 2 f_equal; lia.
  - destruct (Z.ltb_spec (2 + (6 + zlen payload) - 2 - 4 - (2 + zlen payload)) 2); [done|lia].
Qed.

Lemma vendor_payload m p vendor t payload :
  view m p (vendor_attr vendor t payload) -> slice (octets m) (p + 8) (zlen payload) = payload.
Proof.
  intros V. destruct (view_octets _ _ _ V) as (pre & post & -> & Hp). cbn [vendor_attr snd].
  rewrite <- !app_assoc. rewrite (app_assoc pre), (app_assoc (pre ++ _)). apply slice_part; [|done].
  rewrite !zlen_app, Hp. change (zlen (WPA_PUT_BE32 vendor)) with 4. change (zlen [t; 2 + zlen payload]) with 2. lia.
Qed.

(** ** MS-MPPE keys *)

Definition mppe_attr (type : Z) (key : list Z) (salt : Z) (ra secret : list Z) : attribute :=
  vendor_attr RADIUS_VENDOR_ID_MICROSOFT type (WPA_PUT_BE16 salt ++ encrypted key salt ra secret).

Lemma zip_lxor_bytes a b : bytes a -> bytes b -> bytes (zip_with Z.lxor a b).
Proof.
  intros Ha. revert b. induction Ha as [|x a Hx Ha IH]; intros [|y b] Hb; cbn; try constructor.
  - apply Forall_cons in Hb as [Hy _]. by apply lxor_byte.
  - apply Forall_cons in Hb as [_ Hb]. by apply IH.
Qed.

Lemma encrypt_bytes fuel : forall secret seed d, bytes d -> bytes (encrypt_blocks fuel secret seed d).
Proof.
  induction fuel as [|fuel IH]; intros secret seed d Hd; cbn [encrypt_blocks]; [constructor|].
  destruct (_ <=? _); [constructor|]. cbv zeta. apply bytes_app. split; [|apply IH; by apply Forall_drop].
  apply zip_lxor_bytes; [by apply Forall_take|apply md5_vector_digest].
Qed.

(** A key that fits into one attribute. *)
Definition mppe_key (key : list Z) : Prop := bytes key /\ 1 <= zlen key <= 239.

Lemma zlen_encrypted key salt ra secret :
  zlen key < 255 -> zlen (encrypted key salt ra secret) = 16 * Z.of_nat (key_blocks key).
Proof.
  intros H. unfold zlen, encrypted. rewrite (length_encrypt (key_blocks key)).
  - lia.
  - by apply length_key_info.
  - pose proof (key_blocks_bound key H). lia.
Qed.

Lemma mppe_attr_fits type key salt ra secret :
  byte type -> mppe_key key -> fits (mppe_attr type key salt ra secret).
Proof.
  intros Ht [Hb Hz]. pose proof (key_blocks_bound key ltac:(lia)) as [B1 B2].
  assert (Hn : (key_blocks key <= 15)%nat).
  { unfold key_blocks. pose proof (Z.div_lt_upper_bound (zlen key + 16) 16 16). lia. }
  pose proof (zlen_encrypted key salt ra secret ltac:(lia)) as L. unfold mppe_attr, vendor_attr.
  assert (Zp : zlen (WPA_PUT_BE16 salt ++ encrypted key salt ra secret) = 2 + 16 * Z.of_nat (key_blocks key)).
  { rewrite zlen_app, L. done. }
  split; [done|]. cbn [snd]. rewrite Zp. split.
  - apply bytes_app. split; [apply (be32_part RADIUS_VENDOR_ID_MICROSOFT)|]. apply bytes_app. split.
    + constructor; [done|]. constructor; [unfold byte; lia|constructor].
    + apply bytes_app. split; [apply put_be16_bytes|]. unfold encrypted. apply encrypt_bytes.
      unfold key_info. constructor; [unfold byte; lia|]. apply bytes_app. split; [done|].
      apply Forall_replicate. unfold byte. lia.
  - rewrite !zlen_app, L. change (zlen (WPA_PUT_BE32 RADIUS_VENDOR_ID_MICROSOFT)) with 4.
    change (zlen [type; 2 + (2 + 16 * Z.of_nat (key_blocks key))]) with 2. change (zlen (WPA_PUT_BE16 salt)) with 2. lia.
Qed.

Lemma add_mppe_key_wp ok m h l type salt ra secret key :
  holds m h l -> byte type -> mppe_key key -> zlen (octets m) < 2 ^ 61 ->
  wp ok (add_mppe_key m type salt ra secret key) (fun '(added, m') =>
    if added : bool then holds m' h (l ++ [mppe_attr type key salt ra secret]) else ok = false).
Proof.
  intros H Ht Hk Hs. unfold add_mppe_key. pose proof Hk as [Hb Hz].
  pose proof (encrypt_ms_key_ok key salt ra secret ltac:(lia)) as E.
  destruct (encrypt_ms_key _ _ _ _ _) as [ebuf elen]. destruct E as [El Ee].
  assert (Hn : (key_blocks key <= 15)%nat).
  { unfold key_blocks. pose proof (Z.div_lt_upper_bound (zlen key + 16) 16 16). lia. }
  pose proof (zlen_encrypted key salt ra secret ltac:(lia)) as L.
  assert (Ed : slice (WPA_PUT_BE32 RADIUS_VENDOR_ID_MICROSOFT ++ [type; u8 (mppe_hlen + elen - 4)]
                 ++ WPA_PUT_BE16 salt ++ ebuf) 0 (mppe_hlen + elen) = (mppe_attr type key salt ra secret).2).
  { unfold mppe_attr, vendor_attr, mppe_hlen, sizeof_radius_attr_vendor. cbn [snd].
    rewrite (u8_small (4 + 2 + 2 + elen - 4)) by lia. rewrite zlen_app, L.
    change (zlen (WPA_PUT_BE16 salt)) with 2.
    replace (4 + 2 + 2 + elen - 4) with (2 + (2 + 16 * Z.of_nat (key_blocks key))) by lia.
    set (x := 2 + (2 + _)). rewrite <- Ee. unfold slice. rewrite !drop_0.
    replace (Z.to_nat (4 + 2 + 2 + elen)) with (8 + Z.to_nat elen)%nat by lia. reflexivity. }
  rewrite Ed. apply wp_bind. eapply wp_mono.
  - apply (add_attr_wp ok m h l RADIUS_ATTR_VENDOR_SPECIFIC _ H); [|done]. by apply mppe_attr_fits.
  - intros [[p|] m']; intros Hm; apply wp_ret; [by destruct Hm|done].
Qed.

Lemma zlen_mppe_attr type key salt ra secret :
  mppe_key key -> zlen (enc (mppe_attr type key salt ra secret)) <= 255.
Proof.
  intros Hk. pose proof (mppe_attr_fits 16 key salt ra secret ltac:(done) Hk) as (_ & _ & H).
  rewrite zlen_enc. unfold mppe_attr, vendor_attr in *. cbn [snd] in *. rewrite !zlen_app in *.
  change (zlen [type; _]) with 2. change (zlen [16; _]) with 2 in H. lia.
Qed.

Definition mppe_salt (random : Z) : Z := Z.lor random 0x8000.

Definition mppe_attrs (random : Z) (ra secret send recv : list Z) : list attribute :=
  [mppe_attr RADIUS_VENDOR_ATTR_MS_MPPE_SEND_KEY send (mppe_salt random) ra secret;
   mppe_attr RADIUS_VENDOR_ATTR_MS_MPPE_RECV_KEY recv (Z.lxor (mppe_salt random) 1) ra secret].

Lemma add_mppe_keys_wp ok m h l random ra secret send recv :
  holds m h l -> mppe_key send -> mppe_key recv -> zlen (octets m) < 2 ^ 60 ->
  wp ok (radius_msg_add_mppe_keys m (Some random) ra secret send recv) (fun '(r, m') =>
    r = 0 /\ ok = false \/
    r = 1 /\ holds m' h (l ++ mppe_attrs random ra secret send recv) /\
      zlen (octets m') <= zlen (octets m) + 510).
Proof.
  intros H H1 H2 Hs. apply wp_alloc_then; [intros ->; apply wp_ret; by left|]. cbv zeta. apply wp_bind.
  eapply wp_mono; [apply (add_mppe_key_wp ok m h l _ (mppe_salt random) ra secret send H); [done|done|lia]|].
  intros [[] m1] Hm; cbn [negb]; [|apply wp_ret; by left].
  assert (L1 : zlen (octets m1) <= zlen (octets m) + 255).
  { rewrite (holds_len _ _ _ Hm), (holds_len _ _ _ H), encs_app, zlen_app, encs_cons, zlen_app.
    change (zlen (encs [])) with 0. pose proof (zlen_mppe_attr RADIUS_VENDOR_ATTR_MS_MPPE_SEND_KEY send (mppe_salt random) ra secret H1). lia. }
  apply wp_alloc_then; [intros ->; apply wp_ret; by left|]. apply wp_bind.
  eapply wp_mono; [apply (add_mppe_key_wp ok m1 h _ _ (Z.lxor (mppe_salt random) 1) ra secret recv Hm); [done|done|lia]|].
  intros [[] m2] Hm2; cbn [negb]; apply wp_ret; [|by left]. right. split; [done|].
  assert (L2 : zlen (octets m2) <= zlen (octets m1) + 255).
  { rewrite (holds_len _ _ _ Hm2), (holds_len _ _ _ Hm), encs_app, zlen_app, encs_cons, zlen_app.
    change (zlen (encs [])) with 0. pose proof (zlen_mppe_attr RADIUS_VENDOR_ATTR_MS_MPPE_RECV_KEY recv (Z.lxor (mppe_salt random) 1) ra secret H2). lia. }
  split; [|lia]. rewrite <- app_assoc in Hm2. exact Hm2.
Qed.

(** The copy of a vendor attribute, and its decryption. *)
Lemma vendor_copy_wp ok m p vendor t payload :
  view m p (vendor_attr vendor t payload) ->
  wp ok (oom ← alloc; mret (if oom : bool then None else Some (slice (octets m) (p + 8) (zlen payload))))
    (fun r => match r with Some k => k = payload | None => ok = false end).
Proof.
  intros V. apply wp_bind. eapply wp_mono; [apply wp_alloc|]. intros [] Ho; apply wp_ret.
  - destruct ok; [by specialize (Ho eq_refl)|done].
  - exact (vendor_payload _ _ _ _ _ V).
Qed.

Lemma key_copy_wp ok (r : option (list Z)) key salt ra secret :
  1 <= zlen key <= 239 ->
  match r with Some k => k = WPA_PUT_BE16 salt ++ encrypted key salt ra secret | None => ok = false end ->
  wp ok (match r with Some k => decrypt_ms_key k ra secret | None => mret None end)
    (fun r => match r with Some k => k = key | None => ok = false end).
Proof. intros H. destruct r as [k|]; intros E; [|by apply wp_ret]. rewrite E. apply decrypt_ok. lia. Qed.

(** The keys are read back, if the attributes before them are not vendor
    specific. *)
Lemma get_ms_keys_wp ok m h l k random ra secret send recv sent hs ls :
  holds m h (l ++ mppe_attrs random ra secret send recv ++ k) -> not_vendor l ->
  holds sent hs ls -> authenticator hs = ra -> mppe_key send -> mppe_key recv ->
  wp ok (radius_msg_get_ms_keys (Some m) (Some sent) secret) (fun r =>
    ok = false \/ r = Some (mk_mppe_keys (Some send) (Some recv))).
Proof.
  intros H Hn Hsent Ea [_ H1] [_ H2]. pose proof (holds_views _ _ _ H) as V.
  destruct (holds_header _ _ _ Hsent) as (_ & _ & Eh & _). rewrite Ea in Eh.
  apply Forall2_app_inv_r in V as (ps1 & ps2 & V1 & V2 & Ep).
  apply Forall2_app_inv_r in V2 as (ps3 & ps4 & V2 & _ & ->).
  apply Forall2_cons_inv_r in V2 as (p & ps5 & Vs & V2 & ->).
  apply Forall2_cons_inv_r in V2 as (q & ps6 & Vr & V2 & ->). apply Forall2_nil_inv_r in V2 as ->.
  unfold radius_msg_get_ms_keys. apply wp_alloc_then; [intros ->; apply wp_ret; by left|].
  unfold radius_msg_get_vendor_attr. rewrite Ep, Eh, !(find_vendor_skip m ps1 l) by done. cbn [app].
  rewrite !(find_vendor_cons m p _ _ _ _ _ Vs) by done. rewrite !(find_vendor_cons m q _ _ _ _ _ Vr) by done.
  cbn [Z.eqb Pos.eqb RADIUS_VENDOR_ATTR_MS_MPPE_SEND_KEY RADIUS_VENDOR_ATTR_MS_MPPE_RECV_KEY].
  apply wp_bind. eapply wp_mono; [exact (vendor_copy_wp ok m p _ _ _ Vs)|]. intros r Hr.
  apply wp_bind. eapply wp_mono; [exact (key_copy_wp ok r send _ ra secret H1 Hr)|]. intros ks Hks.
  apply wp_bind. eapply wp_mono; [exact (vendor_copy_wp ok m q _ _ _ Vr)|]. intros r' Hr'.
  apply wp_bind. eapply wp_mono; [exact (key_copy_wp ok r' recv _ ra secret H2 Hr')|]. intros kr Hkr.
  apply wp_ret. destruct ks as [ks|]; [|by left]. destruct kr as [kr|]; [|by left]. right. by subst.
Qed.
