(* ===== verification/RadiusServer.v ===== *)
(** * RADIUS authentication server (src/src/radius/radius_server.c)

    The server keeps a list of sessions for each client, and runs an EAP
    server ([EapEngine]) for each session.  A session is known by its address:
    [client->sessions] points to sessions that are live, or whose memory has
    been freed while they were still in the list; to read a freed one stops
    the run.  Timers are entries of the event loop (Eloop.v).

    The database of users is the callback [get_eap_user]; the EAP server calls
    it through [radius_server_get_eap_user], which notes what it found in the
    session ([engine_user]).  The build is one without CONFIG_HS20,
    CONFIG_SQLITE, CONFIG_RADIUS_TEST and CONFIG_TESTING_OPTIONS; sockets,
    the file of clients, the configuration and the MIB output are left out. *)

From S2P Require Import Prelude.
From S2P Require Import Eloop.
From S2P Require Import Wpabuf.
From S2P Require Import Common.
From S2P Require Import EapCommon.
From S2P Require Import EapServer.
From S2P Require Import EapolAuth.
From S2P Require Import Hash.
From S2P Require Import RadiusMsg.

Definition RADIUS_SESSION_TIMEOUT : Z := 60.
Definition RADIUS_MAX_SESSION : Z := 100.
Definition RADIUS_MAX_MSG_LEN : Z := 3000.

(** ** Data *)

Record radius_server_counters := mk_counters {
  access_requests : Z; invalid_requests : Z; dup_access_requests : Z;
  access_accepts : Z; access_rejects : Z; access_challenges : Z;
  malformed_access_requests : Z; bad_authenticators : Z; packets_dropped : Z; unknown_types : Z;
  acct_requests : Z; invalid_acct_requests : Z; acct_responses : Z;
  malformed_acct_requests : Z; acct_bad_authenticators : Z; unknown_acct_types : Z
}.

#[global] Instance eta_counters : Eta radius_server_counters := fun r =>
  mk_counters (access_requests r) (invalid_requests r) (dup_access_requests r)
    (access_accepts r) (access_rejects r) (access_challenges r) (malformed_access_requests r)
    (bad_authenticators r) (packets_dropped r) (unknown_types r) (acct_requests r)
    (invalid_acct_requests r) (acct_responses r) (malformed_acct_requests r)
    (acct_bad_authenticators r) (unknown_acct_types r).

Definition no_counters : radius_server_counters := mk_counters 0 0 0 0 0 0 0 0 0 0 0 0 0 0 0 0.

(** [struct sockaddr]: an IPv4 address or the octets of an IPv6 address, and
    its text. *)
Record sockaddr := mk_sockaddr {
  s_addr : Z;
  s6_addr : list Z;
  addr_text : list Z;
  port : Z
}.

(** [struct eap_user] of the database, with the attributes for Access-Accept. *)
Record server_user := mk_server_user {
  su_user : eap_user;
  su_accept_attr : list (Z * list Z)
}.

Inductive server_timer := radius_server_session_timeout | radius_server_session_remove_timeout.

#[global] Instance server_timer_eq_dec : EqDecision server_timer.
Proof. solve_decision. Defined.

(** What the server uses of the EAP server beyond [EapEngine]: whether a
    method is pending ([eap_sm_method_pending]), and the last user that a step
    from this state looks up. *)
Class RadiusEngine (E : Type) := {
  engine_method_pending : E -> bool;
  engine_user : E -> option server_user
}.

(** [self] is the address of the session; [eap] is NULL until the EAP server
    has been created. *)
Record radius_session {E : Type} := mk_session {
  self : Z;
  sess_id : Z;
  eap : option E;
  username : list Z;
  nas_ip : list Z;
  last_msg : option radius_msg;
  last_from_addr : option (list Z);
  last_from : sockaddr;
  last_from_port : Z;
  last_identifier : Z;
  last_reply : option radius_msg;
  last_authenticator : list Z;
  macacl : bool;
  accept_attr : list (Z * list Z)
}.
Arguments radius_session E : clear implicits.

#[global] Instance eta_session {E} : Eta (radius_session E) := fun r =>
  mk_session E (self r) (sess_id r) (eap r) (username r) (nas_ip r) (last_msg r)
    (last_from_addr r) (last_from r) (last_from_port r) (last_identifier r) (last_reply r)
    (last_authenticator r) (macacl r) (accept_attr r).

(** A link of [client->sessions]. *)
Inductive link (E : Type) :=
  | live (s : radius_session E)
  | freed (address : Z).
Arguments live {E} s.
Arguments freed {E} address.

Definition link_address {E} (l : link E) : Z :=
  match l with live s => self s | freed a => a end.

Record radius_client {E : Type} := mk_client {
  addr : Z; mask : Z; addr6 : list Z; mask6 : list Z;
  shared_secret : list Z;
  sessions : list (link E);
  client_counters : radius_server_counters
}.
Arguments radius_client E : clear implicits.

#[global] Instance eta_client {E} : Eta (radius_client E) := fun r =>
  mk_client E (addr r) (mask r) (addr6 r) (mask6 r) (shared_secret r) (sessions r) (client_counters r).

(** What the server does outside: a datagram from one of its sockets, for a
    session or not, and a run of a session's EAP server.  The trace also notes
    the request that a session takes up. *)
Inductive server_out {E : Type} :=
  | sent (session : option Z) (octets : list Z) (to : sockaddr)
  | sent_acct (octets : list Z) (to : sockaddr)
  | stepped (session : Z) (e : E)
  | taken (session : Z) (client : nat) (m : radius_msg).
Arguments server_out E : clear implicits.

(** [next_self] is the address the next session gets; [out] the outputs, the
    last one first. *)
Record radius_server_data {E : Type} := mk_server {
  clients : list (radius_client E);
  next_sess_id : Z;
  num_sess : Z;
  ipv6 : bool;
  counters : radius_server_counters;
  loop : eloop_data server_timer;
  next_self : Z;
  out : list (server_out E)
}.
Arguments radius_server_data E : clear implicits.

#[global] Instance eta_server {E} : Eta (radius_server_data E) := fun r =>
  mk_server E (clients r) (next_sess_id r) (num_sess r) (ipv6 r) (counters r) (loop r)
    (next_self r) (out r).

(** ** utils/common.c: [printf_encode] *)

Definition encode_char (c : Z) : list Z :=
  if c =? 34 then [92; 34]
  else if c =? 92 then [92; 92]
  else if c =? 27 then [92; 101]
  else if c =? 10 then [92; 110]
  else if c =? 13 then [92; 114]
  else if c =? 9 then [92; 116]
  else if (32 <=? c) && (c <=? 126) then [c]
  else 92 :: 120 :: hex_byte false c.

(** [t] octets have been written before. *)
Fixpoint printf_encode (maxlen t : Z) (d : list Z) : list Z :=
  match d with
  | [] => []
  | c :: d =>
      if maxlen <=? t + 4 then []
      else encode_char c ++ printf_encode maxlen (t + zlen (encode_char c)) d
  end.

Section server.
Context {E : Type} `{EE : !EapEngine E, RE : !RadiusEngine E}.
Context (get_eap_user : list Z -> option server_user) (eap_conf : eap_config).
Abbreviation server := (radius_server_data E).
Abbreviation session := (radius_session E).
Abbreviation client := (radius_client E).

(** ** Clients and sessions *)

Definition masked_eq (a b m : list Z) : bool :=
  bool_decide (zip_with Z.land a m = zip_with Z.land b m).

Definition client_matches (from : sockaddr) (v6 : bool) (c : client) : bool :=
  if v6 then masked_eq (s6_addr from) (addr6 c) (mask6 c)
  else Z.land (addr c) (mask c) =? Z.land (s_addr from) (mask c).

(** The client's place in the list. *)
Definition radius_server_get_client (d : server) (from : sockaddr) : option nat :=
  option_map fst (list_find (fun c => client_matches from (ipv6 d) c = true) (clients d)).

(** Each session that is passed is read. *)
Fixpoint radius_server_get_session (l : list (link E)) (id : Z) : run (option session) :=
  match l with
  | [] => mret None
  | freed _ :: _ => halt UseAfterFree
  | live s :: l => if sess_id s =? id then mret (Some s) else radius_server_get_session l id
  end.

Definition increment (z : Z) : Z := u32 (z + 1).

(** [data->counters.f++; client->counters.f++]. *)
Definition count (f : radius_server_counters -> Z) `{!Setter f} (ci : nat) (d : server) : server :=
  setter clients (alter (setter client_counters (setter f increment)) ci)
    (setter counters (setter f increment) d).

Definition emit (o : server_out E) (d : server) : server := setter out (cons o) d.

Definition set_sessions (ci : nat) (f : list (link E) -> list (link E)) (d : server) : server :=
  setter clients (alter (setter sessions f) ci) d.

(** The members of a session are written. *)
Definition put_session (ci : nat) (s : session) (d : server) : server :=
  set_sessions ci (map (fun l => if link_address l =? self s then live s else l)) d.

(** The address of [data] as a timer's context. *)
Definition data_ctx : Z := 1.

Definition cancel (h : server_timer) (s : session) (d : server) : server :=
  setter loop (fun l => snd (eloop_cancel_timeout h data_ctx (self s) l)) d.
Definition register (secs : Z) (h : server_timer) (s : session) (d : server) : server :=
  setter loop (eloop_register_timeout secs 0 h data_ctx (self s)) d.

Definition radius_server_session_free (s : session) (d : server) : server :=
  setter num_sess (fun n => i32 (n - 1))
    (cancel radius_server_session_remove_timeout s (cancel radius_server_session_timeout s d)).

(** The loop that unlinks the session: it reads [next] of each one before. *)
Fixpoint unlink (p : Z) (l : list (link E)) : run (option (list (link E))) :=
  match l with
  | [] => mret None
  | s :: l =>
      if link_address s =? p then mret (Some l)
      else match s with
           | freed _ => halt UseAfterFree
           | live _ => l' ← unlink p l; mret (option_map (cons s) l')
           end
  end.

Definition client_sessions (ci : nat) (d : server) : list (link E) :=
  match clients d !! ci with Some c => sessions c | None => [] end.

Definition radius_server_session_remove (ci : nat) (s : session) (d : server) : run server :=
  let d := cancel radius_server_session_remove_timeout s d in
  l ← unlink (self s) (client_sessions ci d);
  match l with
  | Some l => mret (radius_server_session_free s (set_sessions ci (fun _ => l) d))
  | None => mret d
  end.

Definition radius_server_new_session (ci : nat) (d : server) : run (option session * server) :=
  if RADIUS_MAX_SESSION <=? num_sess d then mret (None, d) else
  oom ← alloc;
  if oom : bool then mret (None, d) else
  let s := mk_session E (next_self d) (next_sess_id d) None [] [] None None
             (mk_sockaddr 0 [] [] 0) 0 0 None (replicate 16 0) false [] in
  let d := setter next_self Z.succ (setter next_sess_id increment d) in
  let d := set_sessions ci (cons (live s)) d in
  let d := register RADIUS_SESSION_TIMEOUT radius_server_session_timeout s d in
  mret (Some s, setter num_sess (fun n => i32 (n + 1)) d).

(** The session is freed, but its client's list still points to it. *)
Definition free_linked (ci : nat) (s : session) (d : server) : server :=
  set_sessions ci (map (fun l => if link_address l =? self s then freed (self s) else l))
    (radius_server_session_free s d).

Definition radius_server_get_new_session (d : server) (ci : nat) (m : radius_msg) (from_addr : list Z)
    : run (option session * server) :=
  match radius_msg_get_attr_ptr m RADIUS_ATTR_USER_NAME None with
  | None => mret (None, d)
  | Some (user, user_len) =>
      let user := slice (octets m) user user_len in
      match get_eap_user user with
      | None => mret (None, d)
      | Some tmp =>
          '(s, d) ← radius_server_new_session ci d;
          match s with
          | None => mret (None, d)
          | Some s =>
              let s := setter accept_attr (fun _ => su_accept_attr tmp)
                         (setter macacl (fun _ => EapServer.macacl (su_user tmp)) s) in
              oom ← alloc;
              if oom : bool then mret (None, free_linked ci s d) else
              let s := setter username (fun _ => printf_encode (user_len * 4 + 1) 0 user) s in
              oom ← alloc;
              if oom : bool then mret (None, free_linked ci s d) else
              let s := setter nas_ip (fun _ => from_addr) s in
              match engine_init eap_conf with
              | None => mret (None, free_linked ci s d)
              | Some e =>
                  let e := engine_update (fun i => setter portEnabled (fun _ => true)
                                                     (setter eapRestart (fun _ => true) i)) e in
                  let s := setter eap (fun _ => Some e) s in
                  mret (Some s, put_session ci s d)
              end
          end
      end
  end.

(** ** Replies *)

Definition RADIUS_ATTR_PROXY_STATE : Z := 33.

Fixpoint add_accept_attrs (m : radius_msg) (l : list (Z * list Z)) : run (bool * radius_msg) :=
  match l with
  | [] => mret (true, m)
  | (type, val) :: l =>
      '(attr, m) ← radius_msg_add_attr m type val;
      match attr with
      | None => mret (false, m)
      | Some _ => add_accept_attrs m l
      end
  end.

(** The end of a reply: the attributes for an accepted user, and the
    authenticators. *)
Definition finish_reply (code : Z) (c : client) (s : session) (request m : radius_msg)
    : run (option radius_msg) :=
  '(copied, m) ← radius_msg_copy_attr m request RADIUS_ATTR_PROXY_STATE;
  if copied <? 0 then mret None else
  '(ok, m) ← (if code =? RADIUS_CODE_ACCESS_ACCEPT then add_accept_attrs m (accept_attr s)
              else mret (true, m));
  if negb ok then mret None else
  '(_, m) ← radius_msg_finish_srv m (shared_secret c) (hdr_authenticator request);
  mret (Some m).

(** The code of the reply, and the interface with the flag taken. *)
Definition reply_code (i : eap_eapol_interface) : Z * eap_eapol_interface :=
  if eapFail i then (RADIUS_CODE_ACCESS_REJECT, setter eapFail (fun _ => false) i)
  else if eapSuccess i then (RADIUS_CODE_ACCESS_ACCEPT, setter eapSuccess (fun _ => false) i)
  else (RADIUS_CODE_ACCESS_CHALLENGE, setter eapReq (fun _ => false) i).

(** The length of each half of the key. *)
Definition key_half (key_len : Z) : Z := if 64 <? key_len then 32 else key_len / 2.

(** [random]: the 16 bits for the salt, [None] if there are none. *)
Definition radius_server_encapsulate_eap (random : option Z) (c : client) (s : session)
    (e : E) (request : radius_msg) : run (option radius_msg * E) :=
  let code := fst (reply_code (engine_if e)) in
  let e := engine_update (fun i => snd (reply_code i)) e in
  let i := engine_if e in
  m ← radius_msg_new code (hdr_identifier request);
  match m with
  | None => mret (None, e)
  | Some m =>
      '(_, m) ← (if code =? RADIUS_CODE_ACCESS_CHALLENGE then
                   radius_msg_add_attr m RADIUS_ATTR_STATE (WPA_PUT_BE32 (sess_id s))
                 else mret (None, m));
      '(_, m) ← (match eapReqData i with
                 | Some b => radius_msg_add_eap m (wpabuf_head b)
                 | None => mret (1, m)
                 end);
      '(_, m) ← (match eapKeyData i with
                 | Some key =>
                     if code =? RADIUS_CODE_ACCESS_ACCEPT then
                       let len := key_half (eapKeyDataLen i) in
                       radius_msg_add_mppe_keys m random (hdr_authenticator request) (shared_secret c)
                         (slice key len len) (slice key 0 len)
                     else mret (1, m)
                 | None => mret (1, m)
                 end);
      m ← finish_reply code c s request m;
      mret (m, e)
  end.

(** What the buffer on the stack held. *)
Definition macacl_stack : list Z := replicate 128 0xa5.

Definition macacl_code (c : client) (s : session) (request : radius_msg) : Z :=
  match radius_msg_get_attr_ptr request RADIUS_ATTR_USER_PASSWORD None with
  | None => RADIUS_CODE_ACCESS_REJECT
  | Some (pw, pw_len) =>
      match get_eap_user (username s) with
      | Some tmp =>
          match password (su_user tmp) with
          | Some pass =>
              if negb (EapServer.macacl (su_user tmp)) then RADIUS_CODE_ACCESS_REJECT else
              let '(res, b) := radius_user_password_hide request (slice pass 0 (password_len (su_user tmp)))
                                 (shared_secret c) macacl_stack in
              if (res <? 0) || negb (pw_len =? res)
                 || memcmp_differs (slice (octets request) pw pw_len) (slice b 0 res)
              then RADIUS_CODE_ACCESS_REJECT else RADIUS_CODE_ACCESS_ACCEPT
          | None => RADIUS_CODE_ACCESS_REJECT
          end
      | None => RADIUS_CODE_ACCESS_REJECT
      end
  end.

Definition radius_server_macacl (c : client) (s : session) (request : radius_msg)
    : run (option radius_msg) :=
  let code := macacl_code c s request in
  m ← radius_msg_new code (hdr_identifier request);
  match m with
  | None => mret None
  | Some m => finish_reply code c s request m
  end.

Definition eap_failure : list Z := EAP_CODE_FAILURE :: 0 :: WPA_PUT_BE16 4.

Definition radius_server_reject (d : server) (ci : nat) (c : client) (request : radius_msg)
    (from : sockaddr) : run server :=
  m ← radius_msg_new RADIUS_CODE_ACCESS_REJECT (hdr_identifier request);
  match m with
  | None => mret d
  | Some m =>
      '(_, m) ← radius_msg_add_eap m eap_failure;
      '(copied, m) ← radius_msg_copy_attr m request RADIUS_ATTR_PROXY_STATE;
      if copied <? 0 then mret d else
      '(_, m) ← radius_msg_finish_srv m (shared_secret c) (hdr_authenticator request);
      mret (emit (sent None (octets m) from) (count access_rejects ci d))
  end.

(** ** Requests *)

(** The text of the sender's address: from the socket, or the session's own
    [last_from_addr]. *)
Inductive from_text :=
  | received_text (t : list Z)
  | session_text.

(** [radius_server_get_eap_user] during a step from [e]. *)
Definition note_user (e : E) (s : session) : session :=
  match engine_user e with
  | Some u => setter accept_attr (fun _ => su_accept_attr u)
                (setter macacl (fun _ => EapServer.macacl (su_user u)) s)
  | None => s
  end.

Definition is_duplicate (s : session) (m : radius_msg) (from : sockaddr) : bool :=
  (last_from_port s =? port from) && (last_identifier s =? hdr_identifier m)
  && bool_decide (last_authenticator s = hdr_authenticator m).

(** [send_reply]. *)
Definition send_reply (ci : nat) (s : session) (m reply : radius_msg) (from : sockaddr) (d : server)
    : session * server :=
  let code := hdr_code reply in
  let d := if code =? RADIUS_CODE_ACCESS_ACCEPT then count access_accepts ci d
           else if code =? RADIUS_CODE_ACCESS_REJECT then count access_rejects ci d
           else if code =? RADIUS_CODE_ACCESS_CHALLENGE then count access_challenges ci d
           else d in
  let s := setter last_reply (fun _ => Some reply) s in
  let s := setter last_from_port (fun _ => port from) s in
  let s := setter last_identifier (fun _ => hdr_identifier m) s in
  let s := setter last_authenticator (fun _ => hdr_authenticator m) s in
  (s, emit (sent (Some (self s)) (octets reply) from) d).

(** The session is removed in ten seconds. *)
Definition schedule_removal (s : session) (d : server) : server :=
  register 10 radius_server_session_remove_timeout s
    (cancel radius_server_session_remove_timeout s d).

(** A method is pending: the request is kept, and the address copied, unless
    the copy is the one that is freed. *)
Definition keep_request (s : session) (m : radius_msg) (from : sockaddr) (text : from_text)
    : run session :=
  let s := setter last_msg (fun _ => Some m) s in
  let s := setter last_from_port (fun _ => port from) s in
  match text, last_from_addr s with
  | session_text, Some _ => halt UseAfterFree
  | session_text, None => halt NullPointer
  | received_text t, _ =>
      oom ← alloc;
      let s := setter last_from_addr (fun _ => if oom : bool then None else Some t) s in
      mret (setter last_from (fun _ => from) s)
  end.

(** From the EAP message on. *)
Definition process_eap (random : option Z) (ci : nat) (c : client) (s : session) (m : radius_msg)
    (resp : wpabuf) (from : sockaddr) (text : from_text) (d : server) : run (Z * server) :=
  match eap s with
  | None => halt NullPointer
  | Some e =>
      let e := engine_update (fun i => setter eapResp (fun _ => true)
                                         (setter eapRespData (fun _ => Some resp) i)) e in
      let d := emit (stepped (self s) e) d in
      let s := note_user e s in
      let e := fst (engine_step e) in
      let s := setter eap (fun _ => Some e) s in
      let i := engine_if e in
      let dropped := (-1, put_session ci s (count packets_dropped ci d)) in
      if ((eapReq i || eapSuccess i || eapFail i) && non_null (eapReqData i)) || eapFail i then
        let is_complete := eapSuccess i || eapFail i in
        '(reply, e) ← radius_server_encapsulate_eap random c s e m;
        let s := setter eap (fun _ => Some e) s in
        let '(s, d) :=
          match reply with
          | Some reply => send_reply ci s m reply from d
          | None => (s, count packets_dropped ci d)
          end in
        mret (0, put_session ci s (if is_complete then schedule_removal s d else d))
      else if engine_method_pending e then
        s ← keep_request s m from text;
        mret (-2, put_session ci s d)
      else mret dropped
  end.

(** From the session on. *)
Definition session_request (random : option Z) (ci : nat) (c : client) (s : session) (m : radius_msg)
    (from : sockaddr) (text : from_text) (d : server) : run (Z * server) :=
  if is_duplicate s m from then
    let d := count dup_access_requests ci d in
    match last_reply s with
    | Some reply => mret (0, emit (sent (Some (self s)) (octets reply) from) d)
    | None => mret (-1, d)
    end
  else
    resp ← radius_msg_get_eap (Some m);
    match resp with
    | Some resp => process_eap random ci c s m resp from text (emit (taken (self s) ci m) d)
    | None =>
        if macacl s then
          let d := emit (taken (self s) ci m) d in
          reply ← radius_server_macacl c s m;
          match reply with
          | None => mret (-1, d)
          | Some reply =>
              let '(s, d) := send_reply ci s m reply from d in
              mret (0, put_session ci s d)
          end
        else mret (-1, count packets_dropped ci d)
    end.

Definition radius_server_request (random : option Z) (d : server) (m : radius_msg) (from : sockaddr)
    (ci : nat) (c : client) (text : from_text) (force_sess : option session) : run (Z * server) :=
  match force_sess with
  | Some s => session_request random ci c s m from text d
  | None =>
      let '(res, statebuf) := radius_msg_get_attr m RADIUS_ATTR_STATE (Some (replicate 4 0)) 4 in
      let state_included := 0 <=? res in
      s ← (if res =? 4 then
             radius_server_get_session (client_sessions ci d)
               (WPA_GET_BE32 (default [] statebuf) 0)
           else mret None);
      match s with
      | Some s => session_request random ci c s m from text d
      | None =>
          if state_included then
            d ← radius_server_reject d ci c m from;
            mret (-1, d)
          else
            '(s, d) ← radius_server_get_new_session d ci m (match text with received_text t => t | session_text => [] end);
            match s with
            | None =>
                d ← radius_server_reject d ci c m from;
                mret (-1, d)
            | Some s => session_request random ci c s m from text d
            end
      end
  end.

(** [recvfrom] into a buffer of [RADIUS_MAX_MSG_LEN]. *)
Definition received (d : list Z) : list Z := take (Z.to_nat RADIUS_MAX_MSG_LEN) d.

Definition radius_server_receive_auth (random : option Z) (from : sockaddr) (datagram : list Z)
    (d : server) : run server :=
  oom ← alloc;
  if oom : bool then mret d else
  match radius_server_get_client d from with
  | None => mret (setter counters (setter invalid_requests increment) d)
  | Some ci =>
      m ← radius_msg_parse (received datagram);
      match m, clients d !! ci with
      | Some m, Some c =>
          if negb (hdr_code m =? RADIUS_CODE_ACCESS_REQUEST) then mret (count unknown_types ci d) else
          let d := count access_requests ci d in
          '(bad, m) ← radius_msg_verify_msg_auth m (shared_secret c) None;
          if bad : bool then mret (count bad_authenticators ci d) else
          '(_, d) ← radius_server_request random d m from ci c (received_text (addr_text from)) None;
          mret d
      | _, _ => mret (count malformed_access_requests ci d)
      end
  end.

Definition radius_server_receive_acct (from : sockaddr) (datagram : list Z) (d : server) : run server :=
  oom ← alloc;
  if oom : bool then mret d else
  match radius_server_get_client d from with
  | None => mret (setter counters (setter invalid_acct_requests increment) d)
  | Some ci =>
      m ← radius_msg_parse (received datagram);
      match m, clients d !! ci with
      | Some m, Some c =>
          if negb (hdr_code m =? RADIUS_CODE_ACCOUNTING_REQUEST) then mret (count unknown_acct_types ci d) else
          let d := count acct_requests ci d in
          if radius_msg_verify_acct_req m (shared_secret c) then mret (count acct_bad_authenticators ci d) else
          resp ← radius_msg_new RADIUS_CODE_ACCOUNTING_RESPONSE (hdr_identifier m);
          match resp with
          | None => mret d
          | Some resp =>
              let resp := radius_msg_finish_acct_resp resp (shared_secret c) (hdr_authenticator m) in
              mret (emit (sent_acct (octets resp) from) (count acct_responses ci d))
          end
      | _, _ => mret (count malformed_acct_requests ci d)
      end
  end.

(** The search of [radius_server_eap_pending_cb], which ends at the first
    session with this EAP server and a kept request; [p] stands for the
    address of the EAP server. *)
Fixpoint find_pending (l : list (link E)) (p : Z) : run (option session) :=
  match l with
  | [] => mret None
  | freed _ :: _ => halt UseAfterFree
  | live s :: l =>
      if (self s =? p) && non_null (last_msg s) then mret (Some s) else find_pending l p
  end.

Fixpoint find_pending_client (l : list client) (ci : nat) (p : Z) : run (option (nat * client * session)) :=
  match l with
  | [] => mret None
  | c :: l =>
      s ← find_pending (sessions c) p;
      match s with
      | Some s => mret (Some (ci, c, s))
      | None => find_pending_client l (Datatypes.S ci) p
      end
  end.

Definition radius_server_eap_pending_cb (random : option Z) (p : Z) (d : server) : run server :=
  found ← find_pending_client (clients d) 0 p;
  match found with
  | None => mret d
  | Some (ci, c, s) =>
      match last_msg s, eap s with
      | Some m, Some e =>
          let s := setter last_msg (fun _ => None) s in
          let s := setter eap (fun _ => Some (engine_pending_cb e)) s in
          let d := put_session ci s d in
          let from := mk_sockaddr (s_addr (last_from s)) (s6_addr (last_from s)) (addr_text (last_from s))
                        (last_from_port s) in
          '(_, d) ← radius_server_request random d m from ci c session_text (Some s);
          mret d
      | _, _ => halt NullPointer
      end
  end.

(** A timer of the event loop fires for the session at [p]. *)
Fixpoint find_session (l : list (link E)) (p : Z) : option (link E) :=
  match l with
  | [] => None
  | s :: l => if link_address s =? p then Some s else find_session l p
  end.

Fixpoint find_owner (l : list client) (ci : nat) (p : Z) : option (nat * link E) :=
  match l with
  | [] => None
  | c :: l =>
      match find_session (sessions c) p with
      | Some s => Some (ci, s)
      | None => find_owner l (Datatypes.S ci) p
      end
  end.

(** Both handlers remove the session ([sess->client] is its owner); a session
    that no client points to any more is gone. *)
Definition timer_fires (p : Z) (d : server) : run server :=
  match find_owner (clients d) 0 p with
  | Some (ci, live s) => radius_server_session_remove ci s d
  | Some (_, freed _) | None => halt UseAfterFree
  end.

(** [eloop_run] serves the first timeout, if its time has come. *)
Definition radius_server_timeout (d : server) : run server :=
  match eloop_run_timeout (loop d) with
  | Some (t, l) => timer_fires (user_ctx t) (setter loop (fun _ => l) d)
  | None => mret d
  end.
End server.
