(* ===== verification/RadiusClient.v ===== *)
(** * RADIUS client (src/src/radius/radius_client.c)

    The client of the access point: the queue of requests that wait for a
    response, their retransmission, the change to another server, and the
    dispatch of responses to the handlers.

    An entry of the queue is known by its address.  An entry that has been
    freed is no longer in the queue, so the code reads freed memory exactly
    when it reads an entry that is not there ([find_entry]).  A socket is open
    or not; what the system calls answer is asked of the environment, like
    the allocations ([ask]).  The handlers are functions of the state [T] they
    share.  Addresses and ports of servers, path MTU discovery, logging and the
    MIB output are left out. *)

From S2P Require Import Prelude.
From S2P Require Import Eloop.
From S2P Require Import Wpabuf.
From S2P Require Import Common.
From S2P Require Import Hash.
From S2P Require Import RadiusMsg.

Definition RADIUS_CLIENT_FIRST_WAIT : Z := 3.
Definition RADIUS_CLIENT_MAX_WAIT : Z := 120.
Definition RADIUS_CLIENT_MAX_RETRIES : Z := 10.
Definition RADIUS_CLIENT_MAX_ENTRIES : Z := 30.
Definition RADIUS_CLIENT_NUM_FAILOVER : Z := 4.
Definition RADIUS_ATTR_ACCT_DELAY_TIME : Z := 41.

(** The answer of the environment to a call: whether it fails. *)
Definition ask : run bool := alloc.

(** ** Data *)

Inductive RadiusType := RADIUS_AUTH | RADIUS_ACCT | RADIUS_ACCT_INTERIM.
#[global] Instance RadiusType_eq_dec : EqDecision RadiusType.
Proof. solve_decision. Defined.

Inductive RadiusRxResult :=
  | RADIUS_RX_PROCESSED
  | RADIUS_RX_QUEUED
  | RADIUS_RX_UNKNOWN
  | RADIUS_RX_INVALID_AUTHENTICATOR.

Inductive family := AF_INET | AF_INET6 | AF_OTHER.
#[global] Instance family_eq_dec : EqDecision family.
Proof. solve_decision. Defined.

Record hostapd_radius_server := mk_radius_server {
  af : family;
  serv_secret : option (list Z);
  round_trip_time : Z;
  requests : Z; retransmissions : Z;
  access_accepts : Z; access_rejects : Z; access_challenges : Z; responses : Z;
  malformed_responses : Z; bad_authenticators : Z; timeouts : Z; unknown_types : Z
}.
#[global] Instance eta_radius_server : Eta hostapd_radius_server := fun r =>
  mk_radius_server (af r) (serv_secret r) (round_trip_time r) (requests r) (retransmissions r)
    (access_accepts r) (access_rejects r) (access_challenges r) (responses r)
    (malformed_responses r) (bad_authenticators r) (timeouts r) (unknown_types r).

(** [struct radius_msg_list]; [e_self] is its address. *)
Record radius_msg_list := mk_entry {
  e_self : Z;
  e_addr : list Z;
  e_msg : radius_msg;
  msg_type : RadiusType;
  first_try : Z;
  next_try : Z;
  attempts : Z;
  next_wait : Z;
  last_attempt : os_reltime;
  e_secret : list Z
}.
#[global] Instance eta_entry : Eta radius_msg_list := fun r =>
  mk_entry (e_self r) (e_addr r) (e_msg r) (msg_type r) (first_try r) (next_try r) (attempts r)
    (next_wait r) (last_attempt r) (e_secret r).

(** The servers for authentication or for accounting: the current one
    ([None] for NULL), whether the sockets are open, and the one in use. *)
Record serv_side := mk_side {
  servers : list hostapd_radius_server;
  server : option nat;
  serv_sock : bool;
  serv_sock6 : bool;
  sock : option family
}.
#[global] Instance eta_side : Eta serv_side := fun r =>
  mk_side (servers r) (server r) (serv_sock r) (serv_sock6 r) (sock r).

Inductive client_timer := radius_client_timer_h | radius_retry_primary_timer_h.
#[global] Instance client_timer_eq_dec : EqDecision client_timer.
Proof. solve_decision. Defined.

(** What the client sends, and the callback for interim updates. *)
Inductive client_out :=
  | datagram (type : RadiusType) (octets : list Z)
  | interim_error (addr : list Z).

Record radius_client_data := mk_rc {
  rc_auth : serv_side;
  rc_acct : serv_side;
  retry_primary_interval : Z;
  force_client_addr : option family;
  interim_error_cb : bool;
  msgs : list radius_msg_list;
  num_msgs : Z;
  next_radius_identifier : Z;
  rc_loop : eloop_data client_timer;
  eloop_terminated : bool;
  next_entry : Z;
  rc_out : list client_out
}.
#[global] Instance eta_rc : Eta radius_client_data := fun r =>
  mk_rc (rc_auth r) (rc_acct r) (retry_primary_interval r) (force_client_addr r) (interim_error_cb r)
    (msgs r) (num_msgs r) (next_radius_identifier r) (rc_loop r) (eloop_terminated r) (next_entry r)
    (rc_out r).

Implicit Types (d : radius_client_data) (e : radius_msg_list).

Definition side (auth : bool) d : serv_side := if auth then rc_auth d else rc_acct d.
Definition set_side (auth : bool) (f : serv_side -> serv_side) d : radius_client_data :=
  if auth then setter rc_auth f d else setter rc_acct f d.
Definition is_auth (t : RadiusType) : bool := bool_decide (t = RADIUS_AUTH).

(** A member of the current server. *)
Definition on_server (auth : bool) (f : hostapd_radius_server -> hostapd_radius_server) d : radius_client_data :=
  set_side auth (fun s => match server s with
                          | Some i => setter servers (alter f i) s
                          | None => s
                          end) d.
Definition count (f : hostapd_radius_server -> Z) `{!Setter f} (auth : bool) d : radius_client_data :=
  on_server auth (setter f (fun n => u32 (n + 1))) d.
Definition current (auth : bool) d : option hostapd_radius_server :=
  match server (side auth d) with Some i => servers (side auth d) !! i | None => None end.
Definition secret_of (s : hostapd_radius_server) : list Z := default [] (serv_secret s).

Definition now_sec d : Z := sec (now (rc_loop d)).
Definition emit (o : client_out) d : radius_client_data := setter rc_out (cons o) d.

(** ** The queue *)

Fixpoint find_entry (l : list radius_msg_list) (p : Z) : run radius_msg_list :=
  match l with
  | [] => halt UseAfterFree
  | e :: l => if e_self e =? p then mret e else find_entry l p
  end.

Definition edit_entry (p : Z) (f : radius_msg_list -> radius_msg_list) d : radius_client_data :=
  setter msgs (map (fun e => if e_self e =? p then f e else e)) d.

(** [entry->next]. *)
Fixpoint next_of (l : list radius_msg_list) (p : Z) : option Z :=
  match l with
  | [] => None
  | e :: l => if e_self e =? p then option_map e_self (head l) else next_of l p
  end.

Definition first_entry d : option Z := option_map e_self (head (msgs d)).

(** The entry is unlinked and freed, and counted. *)
Definition unlink_entry (p : Z) d : radius_client_data :=
  setter num_msgs (fun n => u64 (n - 1))
    (setter msgs (List.filter (fun e => negb (e_self e =? p))) d).

Definition cancel_timer d : radius_client_data :=
  setter rc_loop (fun l => snd (eloop_cancel_timeout radius_client_timer_h 1 0 l)) d.
Definition register_timer (secs : Z) d : radius_client_data :=
  setter rc_loop (eloop_register_timeout (u32 secs) 0 radius_client_timer_h 1 0) d.

(** [if (first == 0 || entry->next_try < first) first = entry->next_try;]. *)
Definition earlier (first t : Z) : Z := if (first =? 0) || (t <? first) then t else first.

Definition radius_client_update_timeout d : radius_client_data :=
  let d := cancel_timer d in
  match msgs d with
  | [] => d
  | l =>
      let first := fold_left (fun first e => earlier first (next_try e)) l 0 in
      register_timer (Z.max first (now_sec d) - now_sec d) d
  end.

(** The last entry is dropped if there is another. *)
Definition drop_oldest (l : list radius_msg_list) : list radius_msg_list :=
  if (1 <? length l)%nat then removelast l else l.

Definition radius_client_list_add d (m : radius_msg) (type : RadiusType) (secret : list Z)
    (addr : option (list Z)) : run radius_client_data :=
  if eloop_terminated d then mret d else
  oom ← alloc;
  if oom : bool then mret d else
  let t := now (rc_loop d) in
  let e := mk_entry (next_entry d) (default (replicate 6 0) addr) m type (sec t)
             (sec t + RADIUS_CLIENT_FIRST_WAIT) 1 (RADIUS_CLIENT_FIRST_WAIT * 2) t secret in
  let d := setter msgs (cons e) (setter next_entry Z.succ d) in
  let d := radius_client_update_timeout d in
  if RADIUS_CLIENT_MAX_ENTRIES <=? num_msgs d then mret (setter msgs drop_oldest d)
  else mret (setter num_msgs (fun n => u64 (n + 1)) d).

(** The identifier, after the pending requests that have it are freed. *)
Definition radius_client_get_id d : Z * radius_client_data :=
  let id := next_radius_identifier d in
  (id, setter msgs (List.filter (fun e => negb (hdr_identifier (e_msg e) =? id)))
         (setter next_radius_identifier (fun n => u8 (n + 1)) d)).

(** The pending requests that [p] selects are freed and counted. *)
Definition flush_entries (p : radius_msg_list -> bool) d : radius_client_data :=
  let rest := List.filter (fun e => negb (p e)) (msgs d) in
  setter num_msgs (fun n => u64 (n - (Z.of_nat (length (msgs d)) - Z.of_nat (length rest))))
    (setter msgs (fun _ => rest) d).

Definition radius_client_flush (only_auth : bool) d : radius_client_data :=
  let d := flush_entries (fun e => negb only_auth || is_auth (msg_type e)) d in
  match msgs d with [] => cancel_timer d | _ => d end.

Definition radius_client_flush_auth (addr : list Z) : radius_client_data -> radius_client_data :=
  flush_entries (fun e => is_auth (msg_type e) && bool_decide (e_addr e = addr)).

(** ** Servers *)

Definition radius_client_update_acct_msgs (secret : list Z) d : radius_client_data :=
  setter msgs (map (fun e =>
    if bool_decide (msg_type e = RADIUS_ACCT)
    then setter e_msg (fun m => radius_msg_finish_acct m secret) (setter e_secret (fun _ => secret) e)
    else e)) d.

Definition reset_counters (auth : bool) d : radius_client_data :=
  setter msgs (map (fun e =>
    if bool_decide (msg_type e = if auth then RADIUS_AUTH else RADIUS_ACCT)
    then setter next_wait (fun _ => RADIUS_CLIENT_FIRST_WAIT * 2)
           (setter attempts (fun _ => 0)
              (setter next_try (fun _ => first_try e + RADIUS_CLIENT_FIRST_WAIT) e))
    else e)) d.

(** The pending requests, before the new server is connected. *)
Definition move_requests (nserv : nat) (oserv : option nat) (auth : bool) d : radius_client_data :=
  let d := if bool_decide (oserv = Some nserv) && auth then radius_client_flush true d else d in
  let d :=
    match oserv with
    | Some o =>
        if bool_decide (o = nserv) then d else
        match servers (side auth d) !! nserv, servers (side auth d) !! o with
        | Some n, Some old =>
            if memcmp_differs (secret_of n) (secret_of old) then
              if auth then radius_client_flush true d
              else radius_client_update_acct_msgs (secret_of n) d
            else d
        | _, _ => d
        end
    | None => d
    end in
  let d := match oserv with
           | Some o => if bool_decide (o = nserv) then d else reset_counters auth d
           | None => d
           end in
  match msgs d with
  | [] => d
  | _ => register_timer RADIUS_CLIENT_FIRST_WAIT (cancel_timer d)
  end.

(** [oserv]: [None] is NULL.  The result is whether the server is in use. *)
Definition radius_change_server (nserv : nat) (oserv : option nat) (auth : bool) d
    : run (bool * radius_client_data) :=
  let d := move_requests nserv oserv auth d in
  match servers (side auth d) !! nserv with
  | None => halt OutOfBounds
  | Some s =>
      let opened := match af s with
                    | AF_INET => serv_sock (side auth d)
                    | AF_INET6 => serv_sock6 (side auth d)
                    | AF_OTHER => false
                    end in
      if negb opened then mret (false, d) else
      bound ← match force_client_addr d with
              | None => mret true
              | Some AF_OTHER => mret false
              | Some _ => failed ← ask; mret (negb failed)
              end;
      if negb bound then mret (false, d) else
      failed ← ask;
      if failed : bool then mret (false, d)
      else mret (true, set_side auth (setter sock (fun _ => Some (af s))) d)
  end.

Definition close_sockets (auth : bool) : radius_client_data -> radius_client_data :=
  set_side auth (fun s => mk_side (servers s) (server s) false false None).

(** [radius_client_init_auth] and [radius_client_init_acct], which differ in
    the servers. *)
Definition radius_client_init_side (auth : bool) d : run (bool * radius_client_data) :=
  let d := close_sockets auth d in
  no4 ← ask;
  no6 ← ask;
  let d := set_side auth (setter serv_sock (fun _ => negb no4)) d in
  let d := set_side auth (setter serv_sock6 (fun _ => negb no6)) d in
  if no4 && no6 then mret (false, d) else
  match server (side auth d) with
  | None => halt NullPointer
  | Some nserv =>
      '(_, d) ← radius_change_server nserv None auth d;
      failed ← (if serv_sock (side auth d) then ask else mret false);
      if failed : bool then mret (false, close_sockets auth d) else
      failed ← (if serv_sock6 (side auth d) then ask else mret false);
      if failed : bool then mret (false, close_sockets auth d) else mret (true, d)
  end.

(** [radius_client_auth_failover] and [radius_client_acct_failover]. *)
Definition failover (auth : bool) d : run radius_client_data :=
  match server (side auth d) with
  | None => halt NullPointer
  | Some old =>
      let lost := List.filter (fun e => Bool.eqb (is_auth (msg_type e)) auth) (msgs d) in
      let d := on_server auth (setter timeouts (fun n => u32 (n + Z.of_nat (length lost)))) d in
      let next := if (S old <? length (servers (side auth d)))%nat then S old else O in
      let d := set_side auth (setter server (fun _ => Some next)) d in
      '(_, d) ← radius_change_server next (Some old) auth d;
      mret d
  end.

(** Back to the first server, if another one is in use. *)
Definition retry_primary (auth : bool) d : run radius_client_data :=
  match sock (side auth d), servers (side auth d), server (side auth d) with
  | Some _, _ :: _, Some (S o) =>
      let oserv := S o in
      let d := set_side auth (setter server (fun _ => Some O)) d in
      '(ok, d) ← radius_change_server O (Some oserv) auth d;
      if ok : bool then mret d else
      let d := set_side auth (setter server (fun _ => Some oserv)) d in
      '(_, d) ← radius_change_server oserv (Some oserv) auth d;
      mret d
  | Some _, _ :: _, None =>
      let d := set_side auth (setter server (fun _ => Some O)) d in
      '(ok, d) ← radius_change_server O None auth d;
      if ok : bool then mret d else halt NullPointer
  | _, _, _ => mret d
  end.

Definition register_retry d : radius_client_data :=
  if retry_primary_interval d =? 0 then d
  else setter rc_loop (eloop_register_timeout (u32 (retry_primary_interval d)) 0
                         radius_retry_primary_timer_h 1 0) d.

Definition radius_retry_primary_timer d : run radius_client_data :=
  d ← retry_primary true d;
  d ← retry_primary false d;
  mret (register_retry d).

(** ** Sending *)

(** The result is whether to start again with the queue. *)
Definition radius_client_handle_send_error (type : RadiusType) d : run (bool * radius_client_data) :=
  reconnect ← ask;
  if reconnect : bool then
    '(_, d) ← radius_client_init_side (is_auth type) d;
    mret (is_auth type, d)
  else mret (false, d).

(** A new identifier, and the time in the queue, for an accounting request
    with Acct-Delay-Time at [pos]. *)
Definition renew_accounting (p pos now : Z) d : run radius_client_data :=
  let '(id, d) := radius_client_get_id d in
  e ← find_entry (msgs d) p;
  let m := poke 1 [id] (e_msg e) in
  let m := poke pos (WPA_PUT_BE32 (u32 (now - first_try e))) m in
  mret (edit_entry p (setter e_msg (fun _ => radius_msg_finish_acct m (e_secret e))) d).

(** The entry is sent once more; the result is whether to remove it. *)
Definition resend (p now : Z) d : run (bool * radius_client_data) :=
  e ← find_entry (msgs d) p;
  d ← match radius_msg_get_attr_ptr (e_msg e) RADIUS_ATTR_ACCT_DELAY_TIME None with
      | Some (pos, len) =>
          if bool_decide (msg_type e = RADIUS_ACCT) && (len =? 4) then renew_accounting p pos now d else mret d
      | None => mret d
      end;
  e ← find_entry (msgs d) p;
  let d := edit_entry p (setter last_attempt (fun _ => Eloop.now (rc_loop d)))
             (edit_entry p (setter attempts (fun n => i32 (n + 1))) d) in
  let d := emit (datagram (msg_type e) (octets (e_msg e))) d in
  failed ← ask;
  '(again, d) ← (if failed : bool then radius_client_handle_send_error (msg_type e) d else mret (false, d));
  if again : bool then mret (false, d) else
  let wait n := if RADIUS_CLIENT_MAX_WAIT <? i32 (n * 2) then RADIUS_CLIENT_MAX_WAIT else i32 (n * 2) in
  let d := edit_entry p (fun e => setter next_wait wait (setter next_try (fun _ => now + next_wait e) e)) d in
  e ← find_entry (msgs d) p;
  mret (RADIUS_CLIENT_MAX_RETRIES <=? attempts e, d).

Definition radius_client_retransmit (p now : Z) d : run (bool * radius_client_data) :=
  e ← find_entry (msgs d) p;
  let auth := is_auth (msg_type e) in
  d ← (if non_null (sock (side auth d)) then mret d
       else '(_, d) ← radius_client_init_side auth d; mret d);
  let prev_num_msgs := num_msgs d in
  d ← (if negb (non_null (sock (side auth d))) && (1 <? length (servers (side auth d)))%nat
       then failover auth d else mret d);
  if negb (prev_num_msgs =? num_msgs d) then mret (false, d) else
  e ← find_entry (msgs d) p;
  let d := if attempts e =? 0 then count requests auth d
           else count retransmissions auth (count timeouts auth d) in
  if bool_decide (msg_type e = RADIUS_ACCT_INTERIM) then
    mret (true, if interim_error_cb d then emit (interim_error (e_addr e)) d else d)
  else if non_null (sock (side auth d)) then resend p now d
  else mret (true, d).

(** The loop of [radius_client_timer] over the queue; [None] means out of
    fuel.  The results are [first] and whether to change the servers. *)
Fixpoint timer_loop (fuel : nat) (entry prev : option Z) (first : Z) (auth_failover acct_failover : bool)
    (now : Z) d : run (option (Z * bool * bool) * radius_client_data) :=
  match entry with
  | None => mret (Some (first, auth_failover, acct_failover), d)
  | Some p =>
      match fuel with
      | O => mret (None, d)
      | S fuel =>
          let prev_num_msgs := num_msgs d in
          e ← find_entry (msgs d) p;
          '(remove, d) ← (if next_try e <=? now then radius_client_retransmit p now d else mret (false, d));
          if remove : bool then
            _ ← match prev with Some q => find_entry (msgs d) q | None => mret e end;
            _ ← find_entry (msgs d) p;
            timer_loop fuel (next_of (msgs d) p) prev first auth_failover acct_failover now (unlink_entry p d)
          else if negb (prev_num_msgs =? num_msgs d) then
            timer_loop fuel (first_entry d) None first auth_failover acct_failover now d
          else
            e ← find_entry (msgs d) p;
            let auth := is_auth (msg_type e) in
            let lost := (RADIUS_CLIENT_NUM_FAILOVER <? attempts e)
                        || (negb (non_null (sock (side auth d))) && (0 <? attempts e)) in
            timer_loop fuel (next_of (msgs d) p) (Some p) (earlier first (next_try e))
              (auth_failover || (lost && auth)) (acct_failover || (lost && negb auth)) now d
      end
  end.

Definition timer_fuel d : nat := 2 * length (msgs d) + 2.

Definition radius_client_timer d : run (option radius_client_data) :=
  match msgs d with
  | [] => mret (Some d)
  | _ =>
      let now := now_sec d in
      '(r, d) ← timer_loop (timer_fuel d) (first_entry d) None 0 false false now d;
      match r with
      | None => mret None
      | Some (first, auth_failover, acct_failover) =>
          let d := match msgs d with
                   | [] => d
                   | _ => register_timer (Z.max first now - now) d
                   end in
          d ← (if auth_failover : bool then failover true d else mret d);
          d ← (if acct_failover : bool then failover false d else mret d);
          mret (Some d)
      end
  end.

Definition radius_client_send d (m : radius_msg) (type : RadiusType) (addr : option (list Z))
    : run (bool * radius_client_data) :=
  let auth := is_auth type in
  d ← (if non_null (server (side auth d)) && negb (non_null (sock (side auth d)))
       then '(_, d) ← radius_client_init_side auth d; mret d else mret d);
  match current auth d ≫= serv_secret with
  | Some secret =>
      if negb (non_null (sock (side auth d))) then mret (false, d) else
      m ← (if auth then '(_, m) ← radius_msg_finish m (Some secret); mret m
           else mret (radius_msg_finish_acct m secret));
      let d := emit (datagram type (octets m)) (count requests auth d) in
      failed ← ask;
      d ← (if failed : bool then '(_, d) ← radius_client_handle_send_error type d; mret d else mret d);
      d ← radius_client_list_add d m type secret addr;
      mret (true, d)
  | None => mret (false, d)
  end.

(** ** Receiving *)

(** The pending request that a response of [type] answers. *)
Definition matches (type : RadiusType) (id : Z) e : bool :=
  (bool_decide (msg_type e = type)
   || (bool_decide (msg_type e = RADIUS_ACCT_INTERIM) && bool_decide (type = RADIUS_ACCT)))
  && (hdr_identifier (e_msg e) =? id).

Definition count_response (code : Z) (auth : bool) d : radius_client_data :=
  if code =? RADIUS_CODE_ACCESS_ACCEPT then count access_accepts auth d
  else if code =? RADIUS_CODE_ACCESS_REJECT then count access_rejects auth d
  else if code =? RADIUS_CODE_ACCESS_CHALLENGE then count access_challenges auth d
  else if code =? RADIUS_CODE_ACCOUNTING_RESPONSE then count responses auth d
  else d.

Section handlers.
(** [T]: the state that the handlers work on. *)
Context {T : Type}.
Abbreviation rx_handler := (radius_msg -> radius_msg -> list Z -> T -> run (RadiusRxResult * T)).

(** The handlers in their order, until one takes the message; the results are
    whether one did, and whether one found it invalid. *)
Fixpoint call_handlers (l : list rx_handler) (m req : radius_msg) (secret : list Z) (t : T)
    : run (bool * bool * T) :=
  match l with
  | [] => mret (false, false, t)
  | h :: l =>
      '(res, t) ← h m req secret t;
      match res with
      | RADIUS_RX_PROCESSED | RADIUS_RX_QUEUED => mret (true, false, t)
      | RADIUS_RX_INVALID_AUTHENTICATOR =>
          '(taken, _, t) ← call_handlers l m req secret t;
          mret (taken, true, t)
      | RADIUS_RX_UNKNOWN => call_handlers l m req secret t
      end
  end.

(** A datagram on the socket of the authentication ([type] is [RADIUS_AUTH])
    or the accounting server. *)
Definition radius_client_receive (auth_handlers acct_handlers : list rx_handler) (auth : bool)
    (datagram : list Z) d (t : T) : run (radius_client_data * T) :=
  if 3000 <=? zlen datagram then mret (d, t) else
  m ← radius_msg_parse datagram;
  match m with
  | None => mret (count malformed_responses auth d, t)
  | Some m =>
      let d := count_response (hdr_code m) auth d in
      match List.find (matches (if auth then RADIUS_AUTH else RADIUS_ACCT) (hdr_identifier m)) (msgs d) with
      | None => mret (d, t)
      | Some req =>
          let t1 := now (rc_loop d) in
          let roundtrip := i32 ((sec t1 - sec (last_attempt req)) * 100
                                + Z.quot (usec t1 - usec (last_attempt req)) 10000) in
          let d := on_server auth (setter round_trip_time (fun _ => roundtrip)) d in
          let d := unlink_entry (e_self req) d in
          '(taken, invalid, t) ← call_handlers (if auth then auth_handlers else acct_handlers)
                                   m (e_msg req) (e_secret req) t;
          if taken : bool then mret (d, t)
          else mret (if invalid : bool then count bad_authenticators auth d else count unknown_types auth d, t)
      end
  end.

(** The result is whether the handler is in the list. *)
Definition radius_client_register (h : rx_handler) (l : list rx_handler) : run (bool * list rx_handler) :=
  oom ← alloc;
  mret (if oom : bool then (false, l) else (true, l ++ [h])).
End handlers.

(** ** Start *)

Definition no_side (l : list hostapd_radius_server) (s : option nat) : serv_side := mk_side l s false false None.

(** [None] for NULL. *)
Definition radius_client_init (auth acct : list hostapd_radius_server) (auth_server acct_server : option nat)
    (retry : Z) (force : option family) (l : eloop_data client_timer) : run (option radius_client_data) :=
  oom ← alloc;
  if oom : bool then mret None else
  let d := mk_rc (no_side auth auth_server) (no_side acct acct_server) retry force false [] 0 0 l false 1 [] in
  '(ok, d) ← (if non_null auth_server then radius_client_init_side true d else mret (true, d));
  if negb ok then mret None else
  '(ok, d) ← (if non_null acct_server then radius_client_init_side false d else mret (true, d));
  if negb ok then mret None else
  mret (Some (register_retry d)).

(** [conf] is replaced; what the client has in use stays. *)
Definition radius_client_reconfig (auth acct : list hostapd_radius_server) (auth_server acct_server : option nat)
    (retry : Z) (force : option family) d : radius_client_data :=
  let conf l srv (s : serv_side) := mk_side l srv (serv_sock s) (serv_sock6 s) (sock s) in
  setter force_client_addr (fun _ => force)
    (setter retry_primary_interval (fun _ => retry)
       (set_side false (conf acct acct_server) (set_side true (conf auth auth_server) d))).

Definition radius_client_set_interim_error_cb (set : bool) d : radius_client_data :=
  setter interim_error_cb (fun _ => set) d.

(** The event loop that is left. *)
Definition radius_client_deinit d : eloop_data client_timer :=
  let d := close_sockets false (close_sockets true d) in
  let d := setter rc_loop (fun l => snd (eloop_cancel_timeout radius_retry_primary_timer_h 1 0 l)) d in
  rc_loop (radius_client_flush false d).
