(* ===== verification/RadiusReplies.v ===== *)
(** * What the RADIUS server's replies say

    The attributes of a reply of [radius_server_encapsulate_eap], and what the
    other side reads from it. *)

From S2P Require Import Prelude.
From S2P Require Import Eloop.
From S2P Require Import Wpabuf.
From S2P Require Import Common.
From S2P Require Import EapCommon.
From S2P Require Import EapServer.
From S2P Require Import EapolAuth.
From S2P Require Import EapolPort.
From S2P Require Import Hash.
From S2P Require Import HashProperties.
From S2P Require Import RadiusMsg.
From S2P Require Import RadiusAttrs.
From S2P Require Import RadiusKeys.
From S2P Require Import RadiusServer.

Section replies.
Context {E : Type} `{EE : !EapEngine E, EL : !EapEngineLaws E, RE : !RadiusEngine E}.
Implicit Types (c : radius_client E) (s : radius_session E).

(** Attributes a database may add to Access-Accept. *)
Definition plain (a : attribute) : Prop := fits a /\ a.1 <> EAP /\ a.1 <> MA.

Lemma add_accept_attrs_wp ok h : forall al m l,
  Forall fits al -> holds m h l -> zlen (octets m) + zlen (encs al) < 2 ^ 60 ->
  wp ok (add_accept_attrs m al) (fun '(added, m') =>
    if added : bool then holds m' h (l ++ al) else ok = false).
Proof.
  induction al as [|[t v] al IH]; intros m l Fa H Hz; cbn [add_accept_attrs].
  { apply wp_ret. by rewrite app_nil_r. }
  apply Forall_cons in Fa as [Ft Fa]. rewrite encs_cons, zlen_app, zlen_enc in Hz.
  pose proof (zlen_nonneg (encs al)). pose proof (zlen_nonneg v). cbn [snd] in Hz.
  apply wp_bind. eapply wp_mono; [apply (add_attr_wp ok m h l t v H Ft); lia|].
  intros [[q|] m1]; [|intros ->; by apply wp_ret]. intros [_ Hm1].
  eapply wp_mono; [apply (IH m1 _ Fa Hm1)|].
  - rewrite (holds_len _ _ _ Hm1), encs_app, zlen_app, zlen_encs1. rewrite (holds_len _ _ _ H) in Hz. cbn [snd]. lia.
  - intros [[] m2] Hm2; [|done]. by rewrite <- app_assoc in Hm2.
Qed.

(** The end of a reply to [request]. *)
Definition proxied (lr : list attribute) : list attribute := of_type RADIUS_ATTR_PROXY_STATE lr.

(** A signed reply: its attributes are [l] and Message-Authenticator, and its
    length and authenticators are right. *)
Definition signed (secret : list Z) (h : header) (ra : list Z) (l : list attribute) (m : radius_msg) : Prop :=
  exists mac,
    let h1 := with_length h (WPA_PUT_BE16 (zlen (octets m))) in
    let l1 := l ++ [(MA, mac)] in
    message_mac secret h1 ra l [] = Some mac /\ zlen mac = 16 /\ zlen (octets m) <= 65535 /\
    holds m (with_auth h1 (response_mac secret h1 ra l1)) l1.

Lemma finish_reply_wp ok code c s request hr lr m h l :
  holds request hr lr -> holds m h l -> Forall fits (accept_attr s) ->
  let al := if code =? RADIUS_CODE_ACCESS_ACCEPT then accept_attr s else [] in
  zlen (octets m) + zlen (encs (proxied lr)) + zlen (encs al) + 18 <= 65535 ->
  wp ok (finish_reply code c s request m) (fun r => match r with
    | Some m' => ok = false \/
        signed (shared_secret c) h (authenticator hr) (l ++ proxied lr ++ al) m' /\
        zlen (octets m') = zlen (octets m) + zlen (encs (proxied lr)) + zlen (encs al) + 18
    | None => ok = false
    end).
Proof.
  intros Hr H Fa al Hz. unfold finish_reply. pose proof (zlen_nonneg (encs (proxied lr))) as Z1. pose proof (zlen_nonneg (encs al)) as Z2.
  apply wp_bind. eapply wp_mono; [apply (copy_attr_wp ok m h l request hr lr RADIUS_ATTR_PROXY_STATE H Hr); fold (proxied lr); lia|].
  intros [r m1] [[Hn ->]|[Hn H1]].
  { destruct (Z.ltb_spec r 0); [by apply wp_ret|lia]. }
  destruct (Z.ltb_spec r 0); [lia|]. fold (proxied lr) in H1.
  assert (L1 : zlen (octets m1) = zlen (octets m) + zlen (encs (proxied lr))).
  { rewrite (holds_len _ _ _ H1), (holds_len _ _ _ H), encs_app, zlen_app. lia. }
  assert (Eal : (if code =? RADIUS_CODE_ACCESS_ACCEPT then add_accept_attrs m1 (accept_attr s) else mret (true, m1))
                = add_accept_attrs m1 al).
  { unfold al. by destruct (code =? _). }
  rewrite Eal. apply wp_bind. eapply wp_mono; [apply (add_accept_attrs_wp ok h al m1 (l ++ proxied lr))|]; [|exact H1|lia|].
  { unfold al. destruct (code =? _); [done|constructor]. }
  intros [[] m2] H2; cbn [negb]; [|by apply wp_ret].
  assert (L2 : zlen (octets m2) = zlen (octets m1) + zlen (encs al)).
  { rewrite (holds_len _ _ _ H2), (holds_len _ _ _ H1), encs_app, zlen_app. lia. }
  destruct (holds_header _ _ _ Hr) as (_ & _ & Ea & _). rewrite Ea.
  destruct (ok_auth _ (holds_hdr _ _ _ Hr)) as [Ab Az].
  apply wp_bind. eapply wp_mono; [apply (finish_srv_wp ok m2 h _ (shared_secret c) _ H2 Ab Az); lia|].
  intros [r' m3] [[_ ->]|(-> & mac & Hmac & Hmz & H3)]; apply wp_ret; [by left|right].
  assert (L3 : zlen (octets m3) = zlen (octets m2) + 18).
  { rewrite (holds_len _ _ _ H3), (holds_len _ _ _ H2), encs_app, zlen_app, zlen_encs1. cbn [snd]. lia. }
  split; [|lia]. exists mac. cbv zeta. rewrite L3, app_assoc. split; [exact Hmac|]. split; [done|]. split; [lia|exact H3].
Qed.

(** ** Reading a signed reply *)

Lemma signed_parse ok secret h ra l m :
  signed secret h ra l m ->
  exists mac auth,
    let h' := with_auth (with_length h (WPA_PUT_BE16 (zlen (octets m)))) auth in
    zlen mac = 16 /\
    wp ok (radius_msg_parse (octets m)) (fun r => match r with
      | Some m' => holds m' h' (l ++ [(MA, mac)]) /\
          message_mac secret h' ra l [] = Some mac /\
          authenticator h' = response_mac secret h' ra (l ++ [(MA, mac)])
      | None => ok = false
      end).
Proof.
  intros (mac & Hmac & Hz & Hlen & H). set (h1 := with_length h _) in *.
  exists mac, (response_mac secret h1 ra (l ++ [(MA, mac)])). cbv zeta. split; [done|].
  eapply wp_mono; [apply (parse_back ok m _ _ H)|]; [done|lia|].
  intros [m'|]; [|done]. intros H'. split; [exact H'|]. split; [exact Hmac|].
  by rewrite response_mac_auth.
Qed.

Lemma plain_no_ma l : Forall plain l -> no_ma l.
Proof. intros H. eapply Forall_impl; [exact H|]. by intros a (_ & _ & Ha). Qed.

Lemma no_ma_app l k : no_ma l -> no_ma k -> no_ma (l ++ k).
Proof. intros. by apply Forall_app. Qed.

Lemma no_ma_sized l : no_ma l -> ma_sized l.
Proof. intros H. eapply Forall_impl; [exact H|]. intros a Ha Hm. by destruct Ha. Qed.

(** The receiver of the request accepts it. *)
Lemma signed_verify ok secret h ra l mac m request hr lr :
  holds m h (l ++ [(MA, mac)]) -> zlen mac = 16 -> no_ma l ->
  message_mac secret h ra l [] = Some mac -> authenticator h = response_mac secret h ra (l ++ [(MA, mac)]) ->
  holds request hr lr -> authenticator hr = ra ->
  wp ok (radius_msg_verify m secret (Some request) true) (fun r => r = (false, m)).
Proof.
  intros H Hz Hn Hmac Ha Hr Er.
  eapply wp_mono; [apply (verify_wp ok m h _ secret request hr lr true H Hr)|].
  - intros _. apply Forall_app. split; [by apply no_ma_sized|]. constructor; [done|constructor].
  - intros [bad m'] [-> Hb]. f_equal. apply Hb. rewrite Er. split; [|exact Ha].
    intros _. exists l, mac, []. split; [done|]. split; [done|]. split; [constructor|exact Hmac].
Qed.

(** ** Access-Accept *)

(** What an accepted session sends: the last EAP message, the two halves of
    the key, the attributes of the request's proxies and of the database. *)
Record accepting (e : E) (eap_msg key : list Z) : Prop := mk_accepting {
  acc_fail : eapFail (engine_if e) = false;
  acc_success : eapSuccess (engine_if e) = true;
  acc_msg : exists b, eapReqData (engine_if e) = Some b /\ data b = eap_msg;
  acc_key : eapKeyData (engine_if e) = Some key;
  acc_bytes : bytes eap_msg /\ bytes key;
  acc_len : eapKeyDataLen (engine_if e) = zlen key /\ 2 <= zlen key
}.

Definition accept_attrs (random : Z) (ra secret : list Z) (key : list Z) (fs : list (list Z))
    (rest : list attribute) : list attribute :=
  let half := key_half (zlen key) in
  map (pair EAP) fs ++ mppe_attrs random ra secret (slice key half half) (slice key 0 half) ++ rest.

Lemma key_half_bound n : 2 <= n -> 1 <= key_half n <= 32 /\ 2 * key_half n <= n.
Proof.
  intros H. unfold key_half. destruct (Z.ltb_spec 64 n); [lia|].
  pose proof (Z.div_mod n 2 ltac:(lia)). pose proof (Z.mod_pos_bound n 2 ltac:(lia)). lia.
Qed.

Lemma half_keys key : bytes key -> 2 <= zlen key ->
  let half := key_half (zlen key) in mppe_key (slice key half half) /\ mppe_key (slice key 0 half).
Proof.
  intros Hb Hz half. destruct (key_half_bound (zlen key) Hz) as [H1 H2]. fold half in H1, H2.
  split; (split; [unfold slice; by apply Forall_take, Forall_drop|]); rewrite zlen_slice by lia; lia.
Qed.

Lemma encapsulate_accept_wp random c s e request hr lr eap_msg key :
  holds request hr lr -> accepting e eap_msg key -> Forall fits (accept_attr s) ->
  3 * zlen eap_msg + zlen (encs (proxied lr)) + zlen (encs (accept_attr s)) <= 64000 ->
  wp true (radius_server_encapsulate_eap (Some random) c s e request) (fun '(r, _) =>
    exists m fs, r = Some m /\ concat fs = eap_msg /\
      signed (shared_secret c) (new_header RADIUS_CODE_ACCESS_ACCEPT (identifier hr)) (authenticator hr)
        (accept_attrs random (authenticator hr) (shared_secret c) key fs (proxied lr ++ accept_attr s)) m /\
      zlen (octets m) <= 3 * zlen eap_msg + zlen (encs (proxied lr)) + zlen (encs (accept_attr s)) + 548).
Proof.
  intros Hr [A1 A2 (b & A3 & A4) A5 [A6 A7] [A9 A8]] Fa Hz. unfold radius_server_encapsulate_eap.
  pose proof (zlen_nonneg (encs (proxied lr))) as Z1. pose proof (zlen_nonneg (encs (accept_attr s))) as Z2.
  assert (Ec : reply_code (engine_if e) = (RADIUS_CODE_ACCESS_ACCEPT, setter eapSuccess (fun _ => false) (engine_if e))).
  { unfold reply_code. by rewrite A1, A2. }
  rewrite engine_update_if, Ec. cbn [fst snd].
  change (eapReqData (setter eapSuccess _ (engine_if e))) with (eapReqData (engine_if e)).
  change (eapKeyData (setter eapSuccess _ (engine_if e))) with (eapKeyData (engine_if e)).
  change (eapKeyDataLen (setter eapSuccess _ (engine_if e))) with (eapKeyDataLen (engine_if e)).
  rewrite A3, A5, A9. destruct (holds_header _ _ _ Hr) as (_ & Ei & Ea & _). rewrite Ei, Ea.
  apply wp_bind. eapply wp_mono; [apply new_wp; [done|apply (ok_identifier _ (holds_hdr _ _ _ Hr))]|].
  intros [m0|] H0; [|done]. change (RADIUS_CODE_ACCESS_ACCEPT =? RADIUS_CODE_ACCESS_CHALLENGE) with false.
  change (RADIUS_CODE_ACCESS_ACCEPT =? RADIUS_CODE_ACCESS_ACCEPT) with true.
  apply wp_bind, wp_ret. pose proof (holds_len _ _ _ H0) as L0. change (zlen (encs [])) with 0 in L0.
  unfold wpabuf_head. rewrite A4. apply wp_bind.
  eapply wp_mono; [apply (add_eap_wp true m0 _ [] eap_msg H0 A6); lia|].
  intros [r1 m1] [[_ ?]|(_ & fs & Hfs & H1 & L1)]; [done|]. cbn [app] in H1.
  destruct (half_keys key A7 A8) as [K1 K2]. apply wp_bind.
  eapply wp_mono; [apply (add_mppe_keys_wp true m1 _ _ random (authenticator hr) (shared_secret c) _ _ H1 K1 K2); lia|].
  intros [r2 m2] [[_ ?]|(_ & H2 & L2)]; [done|]. apply wp_bind.
  eapply wp_mono; [apply (finish_reply_wp true RADIUS_CODE_ACCESS_ACCEPT c s request hr lr m2 _ _ Hr H2 Fa)|].
  { change (RADIUS_CODE_ACCESS_ACCEPT =? RADIUS_CODE_ACCESS_ACCEPT) with true. cbv iota. lia. }
  change (RADIUS_CODE_ACCESS_ACCEPT =? RADIUS_CODE_ACCESS_ACCEPT) with true. cbv iota.
  intros [m3|] H3; apply wp_ret; [|done]. destruct H3 as [?|[H3 L3]]; [done|]. exists m3, fs. split; [done|].
  split; [done|]. split; [|lia]. unfold accept_attrs. rewrite <- !app_assoc in *. exact H3.
Qed.

(** What the access point reads from it. *)
Lemma accept_attrs_read random ra secret key fs rest :
  Forall (fun a => a.1 <> EAP /\ a.1 <> MA) rest ->
  no_ma (accept_attrs random ra secret key fs rest) /\
  eap_of (accept_attrs random ra secret key fs rest) = concat fs.
Proof.
  intros Hrest. unfold accept_attrs. split.
  - apply no_ma_app; [|apply no_ma_app].
    + apply Forall_map. apply List.Forall_forall. intros f _ Hf. discriminate Hf.
    + constructor; [intros Hf; discriminate Hf|]. constructor; [intros Hf; discriminate Hf|constructor].
    + eapply Forall_impl; [exact Hrest|]. by intros a [_ Ha].
  - rewrite !eap_of_app, eap_of_parts. rewrite (eap_of_other rest), (eap_of_other (mppe_attrs random ra secret (slice key (key_half (zlen key)) (key_half (zlen key)))
      (slice key 0 (key_half (zlen key))))).
    + apply app_nil_r.
    + constructor; [intros Hf; discriminate Hf|]. constructor; [intros Hf; discriminate Hf|constructor].
    + eapply Forall_impl; [exact Hrest|]. by intros a [Ha _].
Qed.

Lemma proxied_plain lr : Forall (fun a => a.1 <> EAP /\ a.1 <> MA) (proxied lr).
Proof.
  unfold proxied, of_type. apply List.Forall_forall. intros a Ha. apply list_elem_of_In, list_elem_of_filter in Ha as [-> _].
  by split.
Qed.

(** The reply as the access point that sent the request reads it. *)
Record reads (secret : list Z) (hr : header) (lr : list attribute) (eap_msg key : list Z) (m' : radius_msg)
    (h' : header) (l' : list attribute) : Prop := mk_reads {
  reads_holds : holds m' h' l';
  reads_code : code h' = RADIUS_CODE_ACCESS_ACCEPT;
  reads_id : identifier h' = identifier hr;
  reads_eap : eap_of l' = eap_msg;
  reads_valid sent : holds sent hr lr ->
    wp true (radius_msg_verify m' secret (Some sent) true) (fun r => r = (false, m'));
  reads_keys sent : holds sent hr lr -> let half := key_half (zlen key) in
    wp true (radius_msg_get_ms_keys (Some m') (Some sent) secret) (fun r => true = false \/
      r = Some (mk_mppe_keys (Some (slice key half half)) (Some (slice key 0 half))))
}.

Lemma accept_reads random c s e request hr lr eap_msg key :
  holds request hr lr -> accepting e eap_msg key -> Forall plain (accept_attr s) ->
  3 * zlen eap_msg + zlen (encs (proxied lr)) + zlen (encs (accept_attr s)) <= 64000 ->
  exists m e' m' h' l',
    radius_server_encapsulate_eap (Some random) c s e request [] = Go (Some m, e') [] /\
    zlen (octets m) <= 3 * zlen eap_msg + zlen (encs (proxied lr)) + zlen (encs (accept_attr s)) + 548 /\
    radius_msg_parse (octets m) [] = Go (Some m') [] /\
    reads (shared_secret c) hr lr eap_msg key m' h' l'.
Proof.
  intros Hr Ha Hp Hz.
  assert (Fa : Forall fits (accept_attr s)) by (eapply Forall_impl; [exact Hp|]; by intros a [Ha' _]).
  destruct (wp_clean _ _ (encapsulate_accept_wp random c s e request hr lr eap_msg key Hr Ha Fa Hz))
    as ([r e'] & E1 & m & fs & -> & Efs & Sg & L).
  destruct (signed_parse true _ _ _ _ _ Sg) as (mac & auth & Hmz & Wp).
  destruct (wp_clean _ _ Wp) as ([m'|] & E2 & H); [|done]. destruct H as (H & Hmac & Hauth).
  set (h' := with_auth _ auth) in *. set (rest := proxied lr ++ accept_attr s) in *.
  assert (Hrest : Forall (fun a => a.1 <> EAP /\ a.1 <> MA) rest).
  { apply Forall_app. split; [apply proxied_plain|]. eapply Forall_impl; [exact Hp|]. by intros a (_ & Ha' & Hb'). }
  destruct (accept_attrs_read random (authenticator hr) (shared_secret c) key fs rest Hrest) as [Hn He].
  exists m, e', m', h', (accept_attrs random (authenticator hr) (shared_secret c) key fs rest ++ [(MA, mac)]).
  split; [exact E1|]. split; [exact L|]. split; [exact E2|]. split; [exact H|reflexivity|reflexivity| | |].
  - rewrite eap_of_app, He, Efs. rewrite (eap_of_other [(MA, mac)]); [apply app_nil_r|].
    constructor; [intros Hf; discriminate Hf|constructor].
  - intros sent Hs. exact (signed_verify true _ h' _ _ mac m' sent hr lr H Hmz Hn Hmac Hauth Hs eq_refl).
  - intros sent Hs half. destruct (half_keys key) as [K1 K2]; [apply Ha|apply Ha|].
    apply (get_ms_keys_wp true m' h' (map (pair EAP) fs) (rest ++ [(MA, mac)]) random (authenticator hr) _ _ _ sent hr lr);
      [|apply Forall_map, List.Forall_forall; intros f _ Hf; discriminate Hf|exact Hs|reflexivity|exact K1|exact K2].
    unfold accept_attrs in H. by rewrite <- !app_assoc in H.
Qed.
End replies.
