(* ===== verification/RadiusAuthority.v ===== *)
(** * Who the RADIUS server accepts

    The invariant of the sessions that decides when Access-Accept may be sent:
    the EAP server of the session has accepted the peer in a step the server
    made, or the password of a MAC address was shown in a request.  The
    statements are about runs that do not stop ([pc]). *)

From S2P Require Import Prelude.
From S2P Require Import Eloop.
From S2P Require Import Wpabuf.
From S2P Require Import Common.
From S2P Require Import EapCommon.
From S2P Require Import EapServer.
From S2P Require Import EapolAuth.
From S2P Require Import EapolPort.
From S2P Require Import Hash.
From S2P Require Import RadiusMsg.
From S2P Require Import RadiusAttrs.
From S2P Require Import RadiusServer.

(** ** Partial correctness *)

Definition pc {A} (e : run A) (Q : A -> Prop) : Prop :=
  forall mem a mem', e mem = Go a mem' -> Q a.

Lemma pc_ret {A} (a : A) (Q : A -> Prop) : Q a -> pc (mret a) Q.
Proof. intros H mem a' mem' E. assert (a = a') as -> by (unfold mret, run_ret in E; congruence). exact H. Qed.

Lemma pc_bind {A B} (f : A -> run B) (e : run A) (Q : B -> Prop) :
  pc e (fun a => pc (f a) Q) -> pc (e ≫= f) Q.
Proof.
  intros H mem b mem' Hb. unfold mbind, run_bind in Hb. destruct (e mem) as [a mem1|] eqn:Ea; [|discriminate].
  exact (H mem a mem1 Ea mem1 b mem' Hb).
Qed.

Lemma pc_any {A} (e : run A) (Q : A -> Prop) : (forall a, Q a) -> pc e Q.
Proof. intros H mem a mem' _. apply H. Qed.

Lemma pc_halt {A} why (Q : A -> Prop) : pc (halt why) Q.
Proof. intros mem a mem' E. discriminate E. Qed.

Lemma pc_mono {A} (e : run A) (P Q : A -> Prop) : pc e P -> (forall a, P a -> Q a) -> pc e Q.
Proof. intros H HPQ mem a mem' E. apply HPQ. by eapply H. Qed.

Lemma pc_or_abort {A} (e : option A) (Q : A -> Prop) : (forall a, e = Some a -> Q a) -> pc (or_abort e) Q.
Proof. intros H. destruct e as [a|]; [apply pc_ret; by apply H|apply pc_halt]. Qed.

(** ** The code of a reply stays *)

(** The first octet of some data. *)
Definition starts (v : Z) (l : list Z) : Prop := exists l', l = v :: l'.
Definition code_is (v : Z) (m : radius_msg) : Prop := starts v (octets m).

Lemma starts_write v l off d : starts v l -> 1 <= off -> starts v (mem_write off d l).
Proof.
  intros (l' & ->) H. unfold mem_write. destruct (Z.to_nat off) as [|n] eqn:E; [lia|]. by eexists.
Qed.

Lemma starts_app v l k : starts v l -> starts v (l ++ k).
Proof. intros (l' & ->). by eexists. Qed.

Lemma starts_len v l : starts v l -> 1 <= zlen l.
Proof. intros (l' & ->). rewrite zlen_cons. pose proof (zlen_nonneg l'). lia. Qed.

Lemma poke_code v m off d : code_is v m -> 1 <= off -> code_is v (poke off d m).
Proof.
  intros H Ho. unfold code_is in *. change (octets (poke off d m)) with (take (length (octets m)) (mem_write off d (octets m))).
  destruct (starts_write v _ off d H Ho) as (l & ->). destruct H as (l' & ->). by eexists.
Qed.

Lemma put_code v b n b' : starts v (data b) -> wpabuf_put b n = Some b' -> starts v (data b').
Proof. unfold wpabuf_put. destruct (_ <? _); [discriminate|]. intros H [= <-]. by apply starts_app. Qed.

Lemma put_data_code v b d b' : starts v (data b) -> wpabuf_put_data b d = Some b' -> starts v (data b').
Proof.
  unfold wpabuf_put_data. destruct (wpabuf_put b (zlen d)) as [b1|] eqn:E; [|discriminate].
  intros H [= <-]. cbn [data]. apply starts_write; [by eapply put_code|]. by apply starts_len in H.
Qed.

Lemma add_to_array_code v m p : code_is v m ->
  pc (radius_msg_add_attr_to_array m p) (fun '(_, m') => code_is v m').
Proof.
  intros H. unfold radius_msg_add_attr_to_array. destruct (_ <=? _); [|by apply pc_ret].
  apply pc_bind, pc_any. intros []; by apply pc_ret.
Qed.

Lemma add_attr_code v m t d : code_is v m -> pc (radius_msg_add_attr m t d) (fun '(_, m') => code_is v m').
Proof.
  intros H. unfold radius_msg_add_attr. destruct (_ <? _); [by apply pc_ret|]. cbv zeta.
  apply pc_bind, pc_any. intros oom.
  assert (Hb : forall b, (if wpabuf_tailroom (buf m) <? sizeof_radius_attr_hdr + zlen d
      then wpabuf_resize oom (Some (buf m)) (sizeof_radius_attr_hdr + zlen d) else (0, Some (buf m))).2 = Some b ->
      starts v (data b)).
  { intros b. destruct (_ <? _); cbn [snd]; [|intros [= <-]; exact H]. unfold wpabuf_resize.
    destruct (_ <? _); [destruct oom|]; intros [= <-]; exact H. }
  destruct (if wpabuf_tailroom (buf m) <? _ then _ else _) as [res [b|]]; [|by apply pc_ret].
  specialize (Hb b eq_refl). destruct (res <? 0); [by apply pc_ret|].
  apply pc_bind, pc_or_abort. intros b1 H1. apply pc_bind, pc_or_abort. intros b2 H2.
  apply pc_bind. eapply pc_mono; [apply (add_to_array_code v)|intros [? ?] ?; by apply pc_ret].
  unfold code_is, octets. cbn [buf wpabuf_head]. eapply put_data_code; [|exact H2].
  apply (poke_code v); [|by apply starts_len in Hb]. unfold code_is, octets. cbn [buf]. by eapply put_code.
Qed.

Lemma add_attr_position m t d mem p m' mem' :
  radius_msg_add_attr m t d mem = Go (Some p, m') mem' -> 0 <= p.
Proof.
  intros E. refine (_ (_ : pc (radius_msg_add_attr m t d) (fun '(r, _) => match r with Some p => 0 <= p | None => True end))).
  { intros H. exact (H mem _ mem' E). }
  clear. unfold radius_msg_add_attr. destruct (_ <? _); [by apply pc_ret|]. cbv zeta. apply pc_bind, pc_any. intros oom.
  destruct (if wpabuf_tailroom (buf m) <? _ then _ else _) as [res [b|]]; [|by apply pc_ret].
  destruct (res <? 0); [by apply pc_ret|]. apply pc_bind, pc_any. intros b1. apply pc_bind, pc_any. intros b2.
  apply pc_bind, pc_any. intros [[] m1]; apply pc_ret; [apply zlen_nonneg|done].
Qed.

Lemma set_length_code v m : code_is v m -> code_is v (set_length m).
Proof. intros H. by apply poke_code. Qed.
Lemma set_authenticator_code v a m : code_is v m -> code_is v (set_authenticator a m).
Proof. intros H. by apply poke_code. Qed.

Lemma finish_srv_code v m secret ra :
  code_is v m -> pc (radius_msg_finish_srv m secret ra) (fun '(_, m') => code_is v m').
Proof.
  intros H. apply pc_bind.
  assert (Hp : pc (radius_msg_add_attr m RADIUS_ATTR_MESSAGE_AUTHENTICATOR zero_mac)
                  (fun '(attr, m') => code_is v m' /\ match attr with Some p => 0 <= p | None => True end)).
  { intros mem [attr m'] mem' E. split; [exact (add_attr_code v _ _ _ H mem _ mem' E)|].
    destruct attr as [p|]; [|done]. by apply add_attr_position in E. }
  eapply pc_mono; [exact Hp|]. intros [[p|] m'] [H1 Hp1]; apply pc_ret; [|exact H1].
  apply set_authenticator_code. unfold put_message_authenticator. destruct (hmac_md5 _ _); [apply poke_code|];
    [|unfold sizeof_radius_attr_hdr; lia|]; by apply set_authenticator_code, set_length_code.
Qed.

(** Every operation that a reply is built with keeps the code. *)
Definition keeps {A} (v : Z) (e : run (A * radius_msg)) : Prop := pc e (fun '(_, m') => code_is v m').

Lemma keeps_ret {A} v (a : A) m : code_is v m -> keeps v (mret (a, m)).
Proof. intros H. by apply pc_ret. Qed.

Lemma keeps_bind {A B} v (e : run (A * radius_msg)) (f : A -> radius_msg -> run (B * radius_msg)) :
  keeps v e -> (forall a m, code_is v m -> keeps v (f a m)) -> keeps v ('(a, m) ← e; f a m).
Proof. intros H Hf. apply pc_bind. eapply pc_mono; [exact H|]. intros [a m] Hm. by apply Hf. Qed.

Lemma add_eap_code v fuel : forall m d, code_is v m -> keeps v (add_eap_loop fuel m d).
Proof.
  induction fuel as [|fuel IH]; intros m d H; cbn [add_eap_loop]; [by apply keeps_ret|].
  destruct (_ <=? 0); [by apply keeps_ret|]. cbv zeta. apply (keeps_bind v); [by apply add_attr_code|].
  intros [p|] m1 H1; [by apply IH|by apply keeps_ret].
Qed.

Lemma add_mppe_key_code v m type salt ra secret key : code_is v m -> keeps v (add_mppe_key m type salt ra secret key).
Proof.
  intros H. unfold add_mppe_key. destruct (encrypt_ms_key _ _ _ _ _) as [ebuf elen].
  apply (keeps_bind v); [by apply add_attr_code|]. intros a m1 H1. by apply keeps_ret.
Qed.

Lemma add_mppe_keys_code v m random ra secret k1 k2 :
  code_is v m -> keeps v (radius_msg_add_mppe_keys m random ra secret k1 k2).
Proof.
  intros H. apply pc_bind, pc_any. intros []; [by apply pc_ret|]. destruct random as [salt|]; [|by apply pc_ret].
  cbv zeta. apply (keeps_bind v); [by apply add_mppe_key_code|]. intros [] m1 H1; cbn [negb]; [|by apply keeps_ret].
  apply pc_bind, pc_any. intros []; [by apply pc_ret|].
  apply (keeps_bind v); [by apply add_mppe_key_code|]. intros [] m2 H2; cbn [negb]; by apply keeps_ret.
Qed.

Lemma copy_attr_code v src t ps : forall dst n, code_is v dst -> keeps v (copy_attr_loop dst src t ps n).
Proof.
  induction ps as [|p ps IH]; intros dst n H; cbn [copy_attr_loop]; [by apply keeps_ret|].
  destruct (_ && _); [|by apply IH]. apply (keeps_bind v); [by apply add_attr_code|].
  intros [q|] d1 H1; [by apply IH|by apply keeps_ret].
Qed.

Lemma accept_attrs_code v : forall al m, code_is v m -> keeps v (add_accept_attrs m al).
Proof.
  induction al as [|[t d] al IH]; intros m H; cbn [add_accept_attrs]; [by apply keeps_ret|].
  apply (keeps_bind v); [by apply add_attr_code|]. intros [q|] m1 H1; [by apply IH|by apply keeps_ret].
Qed.

(** A reply has the code it was made with. *)
Definition reply_is (v : Z) (r : option radius_msg) : Prop :=
  match r with Some m => code_is v m | None => True end.

Lemma new_code code identifier : pc (radius_msg_new code identifier) (reply_is code).
Proof.
  apply pc_bind, pc_any. intros []; [by apply pc_ret|]. apply pc_bind, pc_any. intros oom.
  destruct (wpabuf_alloc oom _) as [b|]; [|by apply pc_ret]. apply pc_bind. unfold radius_msg_initialize.
  apply pc_bind, pc_any. intros []; apply pc_ret; [by apply pc_ret|]. apply pc_bind, pc_or_abort. intros b' Hb.
  apply pc_ret. unfold wpabuf_put in Hb. destruct (_ <? _); [discriminate|]. injection Hb as <-.
  unfold reply_is, radius_msg_set_hdr. apply poke_code; [|done]. cbn [buf].
  destruct (data b) as [|x l]; by eexists.
Qed.

Section replies.
Context {E : Type} `{EE : !EapEngine E, EL : !EapEngineLaws E, RE : !RadiusEngine E}.
Context (get_eap_user : list Z -> option server_user).

Lemma finish_reply_code v code (c : radius_client E) (s : radius_session E) request m :
  code_is v m -> pc (finish_reply code c s request m) (reply_is v).
Proof.
  intros H. unfold finish_reply. apply pc_bind. eapply pc_mono; [by apply (copy_attr_code v)|].
  intros [r m1] H1. destruct (r <? 0); [by apply pc_ret|]. apply pc_bind.
  eapply (pc_mono _ (fun '(_, m) => code_is v m)).
  { destruct (code =? _); [by apply accept_attrs_code|by apply pc_ret]. }
  intros [[] m2] H2; cbn [negb]; [|by apply pc_ret]. apply pc_bind.
  eapply pc_mono; [by apply (finish_srv_code v)|]. intros [r' m3] H3. by apply pc_ret.
Qed.

Lemma macacl_reply (c : radius_client E) (s : radius_session E) request :
  pc (radius_server_macacl get_eap_user c s request) (reply_is (macacl_code get_eap_user c s request)).
Proof.
  apply pc_bind. eapply pc_mono; [apply new_code|]. intros [m|] H; [|by apply pc_ret]. by apply finish_reply_code.
Qed.

Lemma encapsulate_reply random (c : radius_client E) (s : radius_session E) (e : E) request :
  pc (radius_server_encapsulate_eap random c s e request) (fun '(r, e') =>
    reply_is (fst (reply_code (engine_if e))) r /\ e' = engine_update (fun i => snd (reply_code i)) e).
Proof.
  unfold radius_server_encapsulate_eap. set (code := fst (reply_code (engine_if e))).
  set (e' := engine_update _ e). apply pc_bind. eapply pc_mono; [apply new_code|].
  intros [m|] H; [|by apply pc_ret]. apply pc_bind.
  eapply (pc_mono _ (fun '(_, m) => code_is code m)).
  { destruct (code =? _); [by apply add_attr_code|by apply pc_ret]. }
  clear H m. intros [a m] H. apply pc_bind. eapply (pc_mono _ (fun '(_, m) => code_is code m)).
  { destruct (eapReqData _); [by apply add_eap_code|by apply pc_ret]. }
  clear H m a. intros [a m] H. apply pc_bind. eapply (pc_mono _ (fun '(_, m) => code_is code m)).
  { destruct (eapKeyData _); [|by apply pc_ret]. destruct (code =? _); [by apply add_mppe_keys_code|by apply pc_ret]. }
  clear H m a. intros [a m] H. apply pc_bind. eapply pc_mono; [by apply (finish_reply_code code)|].
  intros r Hr. by apply pc_ret.
Qed.
End replies.

(** ** The invariant *)

(** What the server relies on beyond [EapEngineLaws]: the EAP server does not
    disable its port, and a step of an enabled one serves a restart. *)
Class RadiusEngineLaws (E : Type) `{!EapEngine E} := {
  engine_step_port e : portEnabled (engine_if (fst (engine_step e))) = portEnabled (engine_if e);
  engine_step_restarted e :
    portEnabled (engine_if e) = true -> eapRestart (engine_if (fst (engine_step e))) = false
}.

(** A request whose Message-Authenticator was found valid. *)
Definition authentic (secret : list Z) (m : radius_msg) : Prop :=
  exists m0 mem mem', radius_msg_verify_msg_auth m0 secret None mem = Go (false, m) mem'.

Section authority.
Context {E : Type} `{EE : !EapEngine E, EL : !EapEngineLaws E, RE : !RadiusEngine E, RL : !RadiusEngineLaws E}.
Context (get_eap_user : list Z -> option server_user) (eap_conf : eap_config).
Context (secrets : list (list Z)).
Abbreviation server := (radius_server_data E).
Abbreviation session := (radius_session E).
Abbreviation log := (list (server_out E)).
Implicit Types (d : server) (s : session) (L : log).

(** The EAP server of the session has accepted the peer. *)
Definition accepted (p : Z) L : Prop := exists e, List.In (stepped p e) L /\ engine_accepts e.

(** The request shows the password of a MAC address. *)
Definition password_matches (secret : list Z) (m : radius_msg) : Prop :=
  exists name u pass pos len,
    get_eap_user name = Some u /\ EapServer.macacl (su_user u) = true /\ password (su_user u) = Some pass /\
    radius_msg_get_attr_ptr m RADIUS_ATTR_USER_PASSWORD None = Some (pos, len) /\
    let '(res, b) := radius_user_password_hide m (slice pass 0 (password_len (su_user u))) secret macacl_stack in
    res = len /\ slice (octets m) pos len = slice b 0 res.

Definition shown (p : Z) (ci : nat) L : Prop :=
  exists m secret, List.In (taken p ci m) L /\ secrets !! ci = Some secret /\ password_matches secret m.

(** Why [o] may be sent for the session. *)
Definition may_send L (ci : nat) (p : Z) (o : list Z) : Prop :=
  starts RADIUS_CODE_ACCESS_ACCEPT o -> accepted p L \/ shown p ci L.

Definition engine_ok L (p : Z) (e : E) : Prop :=
  engine_valid e /\ portEnabled (engine_if e) = true /\ (eapSuccess (engine_if e) = true -> accepted p L).

Record session_ok L (ci : nat) s : Prop := mk_session_ok {
  ok_engine : forall e, eap s = Some e -> engine_ok L (self s) e;
  ok_reply : forall r, last_reply s = Some r -> may_send L ci (self s) (octets r);
  ok_kept : forall m, last_msg s = Some m -> exists secret, secrets !! ci = Some secret /\ authentic secret m
}.

Definition link_ok L (ci : nat) (l : link E) : Prop :=
  match l with live s => session_ok L ci s | freed _ => True end.

Fixpoint log_ok L : Prop :=
  match L with
  | [] => True
  | sent p o _ :: L => (starts RADIUS_CODE_ACCESS_ACCEPT o ->
      exists p' ci, p = Some p' /\ (accepted p' L \/ shown p' ci L)) /\ log_ok L
  | taken p ci m :: L => (exists secret, secrets !! ci = Some secret /\ authentic secret m) /\ log_ok L
  | _ :: L => log_ok L
  end.

(** The clients' secrets and sessions, and the trace. *)
Definition view (d : server) : list (list Z * list (link E)) * log :=
  (map (fun c => (shared_secret c, sessions c)) (clients d), out d).

Definition clients_ok L (v : list (list Z * list (link E))) : Prop :=
  map fst v = secrets /\ forall ci k l, v !! ci = Some (k, l) -> Forall (link_ok L ci) l.

Definition Inv d : Prop := clients_ok (out d) (view d).1 /\ log_ok (out d).

(** A longer trace justifies as much. *)
Lemma accepted_mono p L o : accepted p L -> accepted p (o :: L).
Proof. intros (e & H & Ha). exists e. split; [by right|done]. Qed.

Lemma shown_mono p ci L o : shown p ci L -> shown p ci (o :: L).
Proof. intros (m & k & H & Hm). exists m, k. split; [by right|done]. Qed.

Lemma may_send_mono L ci p r o : may_send L ci p r -> may_send (o :: L) ci p r.
Proof. intros H Hs. destruct (H Hs); [left; by apply accepted_mono|right; by apply shown_mono]. Qed.

Lemma engine_ok_mono L p e o : engine_ok L p e -> engine_ok (o :: L) p e.
Proof. intros (H1 & H2 & H3). split; [done|]. split; [done|]. intros H. by apply accepted_mono, H3. Qed.

Lemma session_ok_mono L ci s o : session_ok L ci s -> session_ok (o :: L) ci s.
Proof.
  intros [H1 H2 H3]. split.
  - intros e He. by apply engine_ok_mono, H1.
  - intros r Hr. by apply may_send_mono, H2.
  - exact H3.
Qed.

Lemma Inv_view d d' : view d' = view d -> Inv d -> Inv d'.
Proof.
  intros H [H1 H2]. unfold Inv. rewrite H.
  assert (out d' = out d) as -> by (change (out d') with ((view d').2); by rewrite H). by split.
Qed.

Lemma Inv_emit o d :
  Inv d ->
  match o with
  | sent p r _ => starts RADIUS_CODE_ACCESS_ACCEPT r ->
      exists p' ci, p = Some p' /\ (accepted p' (out d) \/ shown p' ci (out d))
  | taken _ ci m => exists secret, secrets !! ci = Some secret /\ authentic secret m
  | _ => True
  end -> Inv (emit o d).
Proof.
  intros [[H1 H2] H3] Ho. split.
  - split; [exact H1|]. intros ci k l Hl. eapply Forall_impl; [exact (H2 ci k l Hl)|].
    intros [s|a] Hs; [by apply session_ok_mono|done].
  - cbn. destruct o; auto.
Qed.

Lemma view_sessions ci f d :
  view (set_sessions ci f d) = (alter (fun p => (p.1, f p.2)) ci (view d).1, out d).
Proof.
  unfold view, set_sessions. cbn [fst]. f_equal. change (clients (setter clients ?g d)) with (g (clients d)).
  generalize (clients d). intros l. revert ci. induction l as [|c l IH]; intros [|ci]; cbn; [done|done|done|].
  f_equal. apply IH.
Qed.

Lemma Inv_sessions ci f d :
  Inv d -> (forall l, Forall (link_ok (out d) ci) l -> Forall (link_ok (out d) ci) (f l)) ->
  Inv (set_sessions ci f d).
Proof.
  intros [[H1 H2] H3] Hf. unfold Inv. rewrite view_sessions.
  change (out (set_sessions ci f d)) with (out d). cbn [fst]. split; [|exact H3]. split.
  - rewrite <- H1. clear. generalize (view d).1. intros v. revert ci.
    induction v as [|[k l] v IH]; intros [|ci]; cbn; [done|done|done|]. f_equal. apply IH.
  - intros cj k l. destruct (decide (ci = cj)) as [<-|Hne].
    + rewrite list_lookup_alter_eq. destruct ((view d).1 !! ci) as [[k' l']|] eqn:El; [|done].
      intros [= <- <-]. apply Hf. by eapply H2.
    + rewrite list_lookup_alter_ne by done. apply H2.
Qed.

Lemma Inv_put ci s d : Inv d -> session_ok (out d) ci s -> Inv (put_session ci s d).
Proof.
  intros H Hs. apply Inv_sessions; [done|]. intros l Hl. apply Forall_map.
  eapply Forall_impl; [exact Hl|]. intros x Hx. by destruct (_ =? _).
Qed.

Lemma count_view f `{!Setter f} ci d : view (count f ci d) = view d.
Proof.
  unfold view, count. f_equal. change (clients (setter clients ?g ?x)) with (g (clients x)).
  change (clients (setter counters ?g d)) with (clients d).
  generalize (clients d). intros l. revert ci. induction l as [|c l IH]; intros [|ci]; cbn; [done|done|done|].
  f_equal. apply IH.
Qed.

Lemma Inv_count f `{!Setter f} ci d : Inv d -> Inv (count f ci d).
Proof. apply Inv_view, count_view. Qed.

(** ** Sessions come and go *)

Lemma get_session_in (l : list (link E)) id : pc (radius_server_get_session l id) (fun r =>
  match r with Some s => List.In (live s) l | None => True end).
Proof.
  induction l as [|[s|a] l IH]; cbn [radius_server_get_session]; [by apply pc_ret| |apply pc_halt].
  destruct (_ =? _); [apply pc_ret; by left|]. eapply pc_mono; [exact IH|]. intros [s'|]; [by right|done].
Qed.

Lemma client_links d ci :
  Inv d -> Forall (link_ok (out d) ci) (client_sessions ci d).
Proof.
  intros [[_ H] _]. unfold client_sessions. destruct (clients d !! ci) as [c|] eqn:Ec; [|constructor].
  apply (H ci (shared_secret c) (sessions c)). unfold view. cbn [fst].
  by rewrite list_lookup_fmap, Ec.
Qed.

Lemma unlink_forall (P : link E -> Prop) p l :
  Forall P l -> pc (unlink p l) (fun r => match r with Some l' => Forall P l' | None => True end).
Proof.
  induction 1 as [|x l Hx Hl IH]; cbn [unlink]; [by apply pc_ret|].
  destruct (_ =? _); [by apply pc_ret|]. destruct x as [s|a]; [|apply pc_halt].
  apply pc_bind. eapply pc_mono; [exact IH|]. intros [l'|] Hr; apply pc_ret; [by constructor|done].
Qed.

Lemma session_free_view s d : view (radius_server_session_free s d) = view d.
Proof. reflexivity. Qed.

Lemma remove_inv ci s d : Inv d -> pc (radius_server_session_remove ci s d) Inv.
Proof.
  intros H. unfold radius_server_session_remove. set (d1 := cancel _ s d).
  assert (H1 : Inv d1) by (by apply (Inv_view d)). clearbody d1. apply pc_bind.
  eapply pc_mono; [exact (unlink_forall (link_ok (out d1) ci) (self s) _ (client_links d1 ci H1))|].
  intros [l|] Hl; apply pc_ret; [|done]. apply (Inv_view (set_sessions ci (fun _ => l) d1)); [reflexivity|].
  by apply Inv_sessions.
Qed.

Lemma new_session_inv ci d : Inv d ->
  pc (radius_server_new_session ci d) (fun '(r, d') => Inv d' /\
    match r with Some s => eap s = None /\ last_reply s = None /\ last_msg s = None | None => True end).
Proof.
  intros H. unfold radius_server_new_session. destruct (_ <=? _); [by apply pc_ret|].
  apply pc_bind, pc_any. intros []; [by apply pc_ret|]. apply pc_ret. split; [|done].
  set (s := mk_session _ _ _ _ _ _ _ _ _ _ _ _ _ _ _).
  assert (Hs : forall L, session_ok L ci s) by (intros L; split; intros x Hx; discriminate Hx).
  set (d1 := setter next_self _ _). assert (H1 : Inv d1) by (by apply (Inv_view d)). clearbody d1 s.
  apply (Inv_view (set_sessions ci (cons (live s)) d1)); [reflexivity|].
  apply Inv_sessions; [done|]. intros l Hl. constructor; [apply Hs|exact Hl].
Qed.

Lemma free_linked_inv ci s d : Inv d -> Inv (free_linked ci s d).
Proof.
  intros H. unfold free_linked. assert (H1 : Inv (radius_server_session_free s d)) by (by apply (Inv_view d)).
  set (d1 := radius_server_session_free s d) in *. clearbody d1. apply Inv_sessions; [done|].
  intros l Hl. apply Forall_map. eapply Forall_impl; [exact Hl|]. intros x Hx. by destruct (_ =? _).
Qed.

Lemma created_engine L p c e :
  engine_init c = Some e ->
  engine_ok L p (engine_update (fun i => setter portEnabled (fun _ => true) (setter eapRestart (fun _ => true) i)) e).
Proof.
  intros He. destruct (engine_init_valid c e He) as [Hv Hs]. split; [by apply engine_update_valid|].
  rewrite engine_update_if. split; [done|]. intros Ht. change (eapSuccess (engine_if e) = true) in Ht. congruence.
Qed.

Lemma get_new_session_inv d ci m from_addr : Inv d ->
  pc (radius_server_get_new_session get_eap_user eap_conf d ci m from_addr) (fun '(r, d') => Inv d' /\
    match r with Some s => session_ok (out d') ci s | None => True end).
Proof.
  intros H. unfold radius_server_get_new_session.
  destruct (radius_msg_get_attr_ptr m _ None) as [[user len]|]; [|by apply pc_ret].
  cbv zeta. destruct (get_eap_user _) as [tmp|]; [|by apply pc_ret]. apply pc_bind.
  eapply pc_mono; [exact (new_session_inv ci d H)|]. intros [[s|] d1] [H1 Hs]; [|by apply pc_ret].
  apply pc_bind, pc_any. intros [].
  { apply pc_ret. split; [by apply free_linked_inv|done]. }
  apply pc_bind, pc_any. intros [].
  { apply pc_ret. split; [by apply free_linked_inv|done]. }
  destruct (engine_init eap_conf) as [e|] eqn:He; apply pc_ret; [|split; [by apply free_linked_inv|done]].
  set (e1 := engine_update _ e).
  assert (He1 : forall L p, engine_ok L p e1) by (intros L p; by apply (created_engine L p eap_conf)).
  clearbody e1. set (s1 := setter eap _ _).
  assert (Hs1 : eap s1 = Some e1 /\ last_reply s1 = None /\ last_msg s1 = None).
  { destruct Hs as (_ & Hs2 & Hs3). split; [done|]. by split. }
  clearbody s1. destruct Hs1 as (S1 & S2 & S3).
  assert (Hok : forall L, session_ok L ci s1).
  { intros L. split; [|intros r Hr; congruence|intros x Hx; congruence]. intros e' He'. rewrite S1 in He'. injection He' as <-. apply He1. }
  split; [|apply Hok]. by apply Inv_put.
Qed.

(** ** Requests *)

Lemma accept_code (o : list Z) v : starts v o -> starts RADIUS_CODE_ACCESS_ACCEPT o -> v = RADIUS_CODE_ACCESS_ACCEPT.
Proof. intros (l & ->) (k & H). congruence. Qed.

Lemma reply_code_accept i : fst (reply_code i) = RADIUS_CODE_ACCESS_ACCEPT -> eapSuccess i = true.
Proof. unfold reply_code. destruct (eapFail i); [discriminate|]. by destruct (eapSuccess i). Qed.

Lemma reply_code_success i : eapSuccess (snd (reply_code i)) = true -> eapSuccess i = true.
Proof. unfold reply_code. destruct (eapFail i); [done|]. destruct (eapSuccess i) eqn:Es; intros H; [done|].
  change (eapSuccess i = true) in H. congruence.
Qed.

Lemma reply_code_port i : portEnabled (snd (reply_code i)) = portEnabled i.
Proof. unfold reply_code. destruct (eapFail i); [done|]. by destruct (eapSuccess i). Qed.

(** A step: what it was given is in the trace. *)
Lemma step_engine L p e :
  engine_ok L p e -> engine_ok (stepped p e :: L) p (fst (engine_step e)).
Proof.
  intros (H1 & H2 & H3). split; [by apply engine_step_valid|]. split; [by rewrite engine_step_port|].
  intros Hs. destruct (engine_step_success e H1) as [Hu|Ha].
  - unfold usable. by rewrite Hs, (engine_step_restarted e H2).
  - unfold usable in Hu. apply andb_prop in Hu as [Hu _]. by apply accepted_mono, H3.
  - exists e. split; [by left|done].
Qed.

Lemma send_reply_inv ci s m reply from d :
  Inv d -> session_ok (out d) ci s -> may_send (out d) ci (self s) (octets reply) ->
  Inv (snd (send_reply ci s m reply from d)) /\
  session_ok (out (snd (send_reply ci s m reply from d))) ci (fst (send_reply ci s m reply from d)).
Proof.
  intros H [S1 S2 S3] Hm. unfold send_reply. cbv zeta. set (d1 := if hdr_code reply =? _ then _ else _).
  assert (H1 : Inv d1 /\ out d1 = out d).
  { unfold d1. destruct (_ =? _); [split; [by apply Inv_count|done]|]. destruct (_ =? _); [split; [by apply Inv_count|done]|].
    destruct (_ =? _); [split; [by apply Inv_count|done]|by split]. }
  clearbody d1. destruct H1 as [H1 E1]. cbn [fst snd]. split.
  - apply Inv_emit; [done|]. intros Hs. exists (self s), ci. split; [done|]. rewrite E1. by apply Hm.
  - change (out (emit ?o d1)) with (o :: out d1). rewrite E1. split.
    + intros e He. apply engine_ok_mono. by apply S1.
    + intros r Hr. apply may_send_mono. assert (reply = r) as -> by (change (Some reply = Some r) in Hr; congruence). exact Hm.
    + exact S3.
Qed.

Lemma note_user_ok L ci e s : session_ok L ci s -> session_ok L ci (note_user e s).
Proof. intros [H1 H2 H3]. unfold note_user. destruct (engine_user e); by split. Qed.

Lemma note_user_self e s : self (note_user e s) = self s.
Proof. unfold note_user. by destruct (engine_user e). Qed.

Lemma with_engine_ok L ci s e : session_ok L ci s -> engine_ok L (self s) e ->
  session_ok L ci (setter eap (fun _ => Some e) s).
Proof.
  intros [H1 H2 H3] He. split; [|exact H2|exact H3].
  intros e' E'. assert (e = e') as -> by (change (Some e = Some e') in E'; congruence). exact He.
Qed.

Lemma keep_request_ok L ci s m from text :
  session_ok L ci s -> (exists secret, secrets !! ci = Some secret /\ authentic secret m) ->
  pc (keep_request s m from text) (session_ok L ci).
Proof.
  intros [H1 H2 H3] Hm. unfold keep_request. cbv zeta.
  destruct text as [t|]; [|destruct (last_from_addr _); apply pc_halt].
  apply pc_bind, pc_any. intros oom. apply pc_ret. split; [exact H1|exact H2|].
  intros m' E'. assert (m = m') as -> by (change (Some m = Some m') in E'; congruence). exact Hm.
Qed.

Lemma schedule_inv s d : Inv d -> Inv (schedule_removal s d).
Proof. by apply Inv_view. Qed.

Lemma process_eap_inv random ci c s m resp from text d :
  Inv d -> session_ok (out d) ci s -> (exists secret, secrets !! ci = Some secret /\ authentic secret m) ->
  pc (process_eap random ci c s m resp from text d) (fun '(_, d') => Inv d').
Proof.
  intros H Hs Hm. unfold process_eap. destruct (eap s) as [e|] eqn:Ee; [|apply pc_halt]. cbv zeta.
  set (e1 := engine_update _ e).
  assert (H1 : engine_ok (out d) (self s) e1).
  { destruct (ok_engine _ _ _ Hs e Ee) as (K1 & K2 & K3). split; [by apply engine_update_valid|].
    unfold e1. rewrite engine_update_if. by split. }
  clearbody e1. set (d1 := emit (stepped (self s) e1) d).
  assert (Hd1 : Inv d1) by (by apply Inv_emit).
  assert (Hs1 : session_ok (out d1) ci (note_user e1 s)) by (by apply note_user_ok, session_ok_mono).
  assert (H2 : engine_ok (out d1) (self s) (fst (engine_step e1))) by (by apply step_engine).
  rewrite <- (note_user_self e1 s) in H2. set (s1 := note_user e1 s) in *. clearbody s1 d1.
  set (e2 := fst (engine_step e1)) in *. clearbody e2. clear H H1 Hs e1 Ee.
  destruct (_ || _).
  - apply pc_bind. eapply pc_mono; [apply encapsulate_reply|]. intros [r e3] [Hr ->].
    set (e3 := engine_update _ e2).
    assert (H3 : engine_ok (out d1) (self s1) e3).
    { destruct H2 as (K1 & K2 & K3). split; [by apply engine_update_valid|]. unfold e3.
      rewrite engine_update_if, reply_code_port. split; [done|]. intros Hx. by apply K3, reply_code_success. }
    clearbody e3. set (s2 := setter eap (fun _ => Some e3) (setter eap (fun _ => Some e2) s1)).
    assert (Hs2 : session_ok (out d1) ci s2) by (apply with_engine_ok; [by apply with_engine_ok|exact H3]).
    assert (Hself : self s2 = self s1) by done. clearbody s2.
    destruct r as [reply|].
    + pose proof (send_reply_inv ci s2 m reply from d1 Hd1 Hs2) as Hsend.
      destruct (send_reply ci s2 m reply from d1) as [s3 d3]. cbn [fst snd] in Hsend. apply pc_ret.
      destruct Hsend as [I3 K3].
      { intros Ha. left. rewrite Hself. apply H2. apply reply_code_accept. by apply (accept_code (octets reply)). }
      destruct (_ || _); apply Inv_put; try done; by apply schedule_inv.
    + apply pc_ret. pose proof (Inv_count packets_dropped ci d1 Hd1) as Ic.
      destruct (_ || _); apply Inv_put; try done; by apply schedule_inv.
  - destruct (engine_method_pending e2).
    + apply pc_bind. eapply pc_mono; [apply (keep_request_ok (out d1) ci)|].
      * by apply with_engine_ok.
      * exact Hm.
      * intros s2 Hs2. apply pc_ret. by apply Inv_put.
    + apply pc_ret. apply Inv_put; [by apply Inv_count|]. by apply with_engine_ok.
Qed.

Lemma macacl_accepts (c : radius_client E) s m :
  macacl_code get_eap_user c s m = RADIUS_CODE_ACCESS_ACCEPT -> password_matches (shared_secret c) m.
Proof.
  unfold macacl_code. destruct (radius_msg_get_attr_ptr m _ None) as [[pos len]|] eqn:Ep; [|discriminate].
  destruct (get_eap_user (username s)) as [u|] eqn:Eu; [|discriminate].
  destruct (password (su_user u)) as [pass|] eqn:Epw; [|discriminate].
  destruct (EapServer.macacl (su_user u)) eqn:Em; cbn [negb]; [|discriminate].
  destruct (radius_user_password_hide _ _ _ _) as [res b] eqn:Eh.
  destruct ((res <? 0) || negb (len =? res) || memcmp_differs _ _) eqn:Ec; [discriminate|].
  intros _. apply orb_false_elim in Ec as [Ec E3]. apply orb_false_elim in Ec as [_ E2].
  apply negb_false_iff, Z.eqb_eq in E2. apply memcmp_same in E3.
  exists (username s), u, pass, pos, len. split; [done|]. split; [done|]. split; [done|]. split; [done|].
  rewrite Eh. split; [done|]. by rewrite E2 in *.
Qed.

Lemma session_request_inv random ci c s m from text d :
  Inv d -> session_ok (out d) ci s -> secrets !! ci = Some (shared_secret c) -> authentic (shared_secret c) m ->
  pc (session_request get_eap_user random ci c s m from text d) (fun '(_, d') => Inv d').
Proof.
  intros H Hs Hk Ha. unfold session_request. destruct (is_duplicate s m from).
  { destruct (last_reply s) as [r|] eqn:Er; apply pc_ret; [|by apply Inv_count].
    apply Inv_emit; [by apply Inv_count|]. intros Hr. exists (self s), ci. split; [done|].
    exact (ok_reply _ _ _ Hs r Er Hr). }
  assert (Hd1 : Inv (emit (taken (self s) ci m) d)) by (apply Inv_emit; [done|by exists (shared_secret c)]).
  set (d1 := emit _ d) in *.
  assert (Hs1 : session_ok (out d1) ci s) by (by apply session_ok_mono).
  assert (Hin : List.In (taken (self s) ci m) (out d1)) by (by left). clearbody d1.
  apply pc_bind, pc_any. intros [resp|].
  { apply process_eap_inv; [done|done|]. by exists (shared_secret c). }
  destruct (macacl s); [|apply pc_ret; by apply Inv_count].
  apply pc_bind. eapply pc_mono; [apply macacl_reply|]. intros [reply|] Hr; [|by apply pc_ret].
  pose proof (send_reply_inv ci s m reply from d1 Hd1 Hs1) as Hsend.
  destruct (send_reply ci s m reply from d1) as [s3 d3]. cbn [fst snd] in Hsend. apply pc_ret.
  destruct Hsend as [I3 K3]; [|by apply Inv_put].
  intros Hx. right. exists m, (shared_secret c). split; [done|]. split; [done|].
  apply macacl_accepts with s. by apply (accept_code (octets reply)).
Qed.

Lemma reject_code (c : radius_client E) d ci m from :
  Inv d -> pc (radius_server_reject d ci c m from) Inv.
Proof.
  intros H. unfold radius_server_reject. apply pc_bind. eapply pc_mono; [apply new_code|].
  intros [r|] Hr; [|by apply pc_ret]. apply pc_bind.
  eapply pc_mono; [by apply (add_eap_code RADIUS_CODE_ACCESS_REJECT)|]. intros [a r1] H1. apply pc_bind.
  eapply pc_mono; [by apply (copy_attr_code RADIUS_CODE_ACCESS_REJECT)|]. intros [n r2] H2.
  destruct (n <? 0); [by apply pc_ret|]. apply pc_bind.
  eapply pc_mono; [by apply (finish_srv_code RADIUS_CODE_ACCESS_REJECT)|]. intros [x r3] H3. apply pc_ret.
  apply Inv_emit; [by apply Inv_count|]. intros Ha. exfalso.
  assert (RADIUS_CODE_ACCESS_REJECT = RADIUS_CODE_ACCESS_ACCEPT) by (by apply (accept_code (octets r3))). done.
Qed.

Lemma secret_of d ci c : Inv d -> clients d !! ci = Some c -> secrets !! ci = Some (shared_secret c).
Proof.
  intros [[H _] _] Hc. rewrite <- H. unfold view. cbn [fst]. by rewrite !list_lookup_fmap, Hc.
Qed.

Lemma session_in d ci c s :
  Inv d -> clients d !! ci = Some c -> List.In (live s) (sessions c) -> session_ok (out d) ci s.
Proof.
  intros [[_ H] _] Hc Hs. assert (F : Forall (link_ok (out d) ci) (sessions c)).
  { apply (H ci (shared_secret c)). unfold view. cbn [fst]. by rewrite list_lookup_fmap, Hc. }
  rewrite List.Forall_forall in F. exact (F _ Hs).
Qed.

Lemma request_inv random d m from ci (c : radius_client E) text force :
  Inv d -> secrets !! ci = Some (shared_secret c) -> authentic (shared_secret c) m ->
  match force with Some s => session_ok (out d) ci s | None => True end ->
  pc (radius_server_request get_eap_user eap_conf random d m from ci c text force) (fun '(_, d') => Inv d').
Proof.
  intros H Hk Ha Hf. unfold radius_server_request. destruct force as [s|]; [by apply session_request_inv|].
  destruct (radius_msg_get_attr _ _ _ _) as [res statebuf]. cbv zeta. apply pc_bind.
  eapply (pc_mono _ (fun r => match r with Some s => session_ok (out d) ci s | None => True end)).
  { destruct (res =? 4); [|by apply pc_ret]. eapply pc_mono; [apply get_session_in|].
    intros [s|] Hs; [|done]. pose proof (client_links d ci H) as F. rewrite List.Forall_forall in F. exact (F _ Hs). }
  intros [s|] Hs; [by apply session_request_inv|]. destruct (0 <=? res).
  - apply pc_bind. eapply pc_mono; [by apply reject_code|]. intros d1 H1. by apply pc_ret.
  - apply pc_bind. eapply pc_mono; [by apply get_new_session_inv|]. intros [[s|] d1] [H1 Hs1].
    + by apply session_request_inv.
    + apply pc_bind. eapply pc_mono; [by apply reject_code|]. intros d2 H2. by apply pc_ret.
Qed.

Lemma receive_auth_inv random from datagram d :
  Inv d -> pc (radius_server_receive_auth get_eap_user eap_conf random from datagram d) Inv.
Proof.
  intros H. unfold radius_server_receive_auth. apply pc_bind, pc_any. intros []; [by apply pc_ret|].
  destruct (radius_server_get_client d from) as [ci|]; [|apply pc_ret; by apply (Inv_view d)].
  apply pc_bind, pc_any. intros [m|]; [|apply pc_ret; by apply Inv_count].
  destruct (clients d !! ci) as [c|] eqn:Ec; [|apply pc_ret; by apply Inv_count].
  destruct (negb _); [apply pc_ret; by apply Inv_count|]. cbv zeta. apply pc_bind.
  assert (Hv : pc (radius_msg_verify_msg_auth m (shared_secret c) None)
    (fun '(bad, m') => bad = false -> authentic (shared_secret c) m')).
  { intros mem [bad m'] mem' E1 ->. by exists m, mem, mem'. }
  eapply pc_mono; [exact Hv|]. intros [[] m'] Ha; [apply pc_ret; by do 2 apply Inv_count|].
  apply pc_bind. eapply pc_mono; [apply request_inv|intros [r d'] Hd; by apply pc_ret].
  - by apply Inv_count.
  - by apply (secret_of d).
  - by apply Ha.
  - done.
Qed.

Lemma receive_acct_inv from datagram d : Inv d -> pc (radius_server_receive_acct from datagram d) Inv.
Proof.
  intros H. unfold radius_server_receive_acct. apply pc_bind, pc_any. intros []; [by apply pc_ret|].
  destruct (radius_server_get_client d from) as [ci|]; [|apply pc_ret; by apply (Inv_view d)].
  apply pc_bind, pc_any. intros [m|]; [|apply pc_ret; by apply Inv_count].
  destruct (clients d !! ci) as [c|]; [|apply pc_ret; by apply Inv_count].
  destruct (negb _); [apply pc_ret; by apply Inv_count|]. cbv zeta.
  destruct (radius_msg_verify_acct_req _ _); [apply pc_ret; by do 2 apply Inv_count|].
  apply pc_bind, pc_any. intros [r|]; apply pc_ret; [|by apply Inv_count].
  apply Inv_emit; [by do 2 apply Inv_count|done].
Qed.

Lemma find_pending_in (l : list (link E)) p :
  pc (find_pending l p) (fun r => match r with Some s => List.In (live s) l | None => True end).
Proof.
  induction l as [|[s|a] l IH]; cbn [find_pending]; [by apply pc_ret| |apply pc_halt].
  destruct (_ && _); [apply pc_ret; by left|]. eapply pc_mono; [exact IH|]. intros [s'|]; [by right|done].
Qed.

Lemma find_pending_client_in (l : list (radius_client E)) : forall k p,
  pc (find_pending_client l k p) (fun r => match r with
    | Some (ci, c, s) => exists i, ci = (k + i)%nat /\ l !! i = Some c /\ List.In (live s) (sessions c)
    | None => True
    end).
Proof.
  induction l as [|c l IH]; intros k p; cbn [find_pending_client]; [by apply pc_ret|].
  apply pc_bind. eapply pc_mono; [apply find_pending_in|]. intros [s|] Hs.
  - apply pc_ret. exists O. split; [lia|]. by split.
  - eapply pc_mono; [apply IH|]. intros [[[ci c'] s']|]; [|done]. intros (i & -> & Hc & Hs').
    exists (Datatypes.S i). split; [lia|]. by split.
Qed.

Lemma pending_inv random p d :
  Inv d -> pc (radius_server_eap_pending_cb get_eap_user eap_conf random p d) Inv.
Proof.
  intros H. unfold radius_server_eap_pending_cb. apply pc_bind.
  eapply pc_mono; [apply find_pending_client_in|]. intros [[[ci c] s]|]; [|intros _; by apply pc_ret].
  intros (i & -> & Hc & Hin). cbn [Nat.add]. pose proof (session_in d i c s H Hc Hin) as Hs.
  destruct (last_msg s) as [m|] eqn:Em; [|apply pc_halt]. destruct (eap s) as [e|] eqn:Ee; [|apply pc_halt].
  cbv zeta. set (s1 := setter eap _ (setter last_msg _ s)).
  assert (Hs1 : session_ok (out d) i s1).
  { split; [|exact (ok_reply _ _ _ Hs)|intros x Hx; discriminate Hx].
    intros e' He. assert (engine_pending_cb e = e') as <- by (change (Some (engine_pending_cb e) = Some e') in He; congruence).
    destruct (ok_engine _ _ _ Hs e Ee) as (K1 & K2 & K3). split; [by apply engine_pending_valid|].
    rewrite engine_pending_if. by split. }
  clearbody s1. pose proof (Inv_put i s1 d H Hs1) as H1.
  destruct (ok_kept _ _ _ Hs m Em) as (secret & Hk & Ha). rewrite (secret_of d i c H Hc) in Hk.
  injection Hk as <-. apply pc_bind. eapply pc_mono; [apply request_inv|intros [r d'] Hd; by apply pc_ret].
  - exact H1.
  - by apply (secret_of d).
  - exact Ha.
  - exact Hs1.
Qed.

Lemma timeout_inv d : Inv d -> pc (radius_server_timeout d) Inv.
Proof.
  intros H. unfold radius_server_timeout. destruct (eloop_run_timeout (loop d)) as [[t l]|]; [|by apply pc_ret].
  unfold timer_fires. destruct (find_owner _ _ _) as [[ci [s|a]]|]; try apply pc_halt.
  apply remove_inv. by apply (Inv_view d).
Qed.

(** ** Runs *)

Inductive server_event :=
  | auth_datagram (random : option Z) (from : sockaddr) (octets : list Z)
  | acct_datagram (from : sockaddr) (octets : list Z)
  | method_done (random : option Z) (session : Z)
  | clock (t : os_reltime)
  | timer.

Definition server_event_step (ev : server_event) (d : server) : run server :=
  match ev with
  | auth_datagram random from o => radius_server_receive_auth get_eap_user eap_conf random from o d
  | acct_datagram from o => radius_server_receive_acct from o d
  | method_done random p => radius_server_eap_pending_cb get_eap_user eap_conf random p d
  | clock t => mret (setter loop (fun l => mk_eloop t (timeout l)) d)
  | timer => radius_server_timeout d
  end.

Fixpoint server_run (evs : list server_event) (d : server) : run server :=
  match evs with
  | [] => mret d
  | ev :: evs => d ← server_event_step ev d; server_run evs d
  end.

(** A server that has been started: its clients have no sessions. *)
Definition fresh_server d : Prop :=
  map shared_secret (clients d) = secrets /\ Forall (fun c => sessions c = []) (clients d) /\ out d = [].

Lemma fresh_inv d : fresh_server d -> Inv d.
Proof.
  intros (H1 & H2 & H3). split; [split|by rewrite H3].
  - unfold view. cbn [fst]. rewrite <- H1, map_map. reflexivity.
  - intros ci k l. unfold view. cbn [fst]. rewrite list_lookup_fmap.
    destruct (clients d !! ci) as [c|] eqn:Ec; [|discriminate]. intros [= _ <-].
    rewrite Forall_lookup in H2. rewrite (H2 _ _ Ec). constructor.
Qed.

Lemma run_inv evs : forall d, Inv d -> pc (server_run evs d) Inv.
Proof.
  induction evs as [|ev evs IH]; intros d H; cbn [server_run]; [by apply pc_ret|].
  apply pc_bind. eapply (pc_mono _ Inv); [|intros d' H'; by apply IH]. destruct ev; cbn [server_event_step].
  - by apply receive_auth_inv.
  - by apply receive_acct_inv.
  - by apply pending_inv.
  - apply pc_ret. by apply (Inv_view d).
  - by apply timeout_inv.
Qed.

(** What the invariant says of a reply in the trace. *)
Lemma log_sent L1 p o to L2 :
  log_ok (L1 ++ sent p o to :: L2) -> starts RADIUS_CODE_ACCESS_ACCEPT o ->
  exists p' ci, p = Some p' /\ (accepted p' L2 \/ shown p' ci L2).
Proof.
  induction L1 as [|x L1 IH]; cbn [app log_ok]; [by intros [H _]|].
  destruct x; intros H; apply IH; first [exact H|apply H].
Qed.

Lemma log_taken L1 p ci m L2 :
  log_ok (L1 ++ taken p ci m :: L2) -> exists secret, secrets !! ci = Some secret /\ authentic secret m.
Proof.
  induction L1 as [|x L1 IH]; cbn [app log_ok]; [by intros [H _]|].
  destruct x; intros H; apply IH; first [exact H|apply H].
Qed.
End authority.
