(* ===== verification/RadiusQueue.v ===== *)
(** * The RADIUS client's queue

    What every operation of RadiusClient.v does to the queue of pending
    requests: entries only come in at its head and only go by being removed,
    so the addresses stay distinct; and the loop of [radius_client_timer]
    ends, because the queue is gone through again only after the requests for
    authentication have been removed. *)

From S2P Require Import Prelude.
From S2P Require Import Eloop.
From S2P Require Import Wpabuf.
From S2P Require Import Common.
From S2P Require Import Hash.
From S2P Require Import RadiusMsg.
From S2P Require Import RadiusAttrs.
From S2P Require Import RadiusAuthority.
From S2P Require Import RadiusClient.

Implicit Types (d : radius_client_data) (e : radius_msg_list).

(** ** The entries as addresses *)

Definition key e : Z * bool := (e_self e, is_auth (msg_type e)).
Definition keys d : list (Z * bool) := map key (msgs d).
Definition selfs d : list Z := map fst (keys d).
Definition has_auth d : bool := existsb snd (keys d).
Definition word (n : Z) : Prop := 0 <= n < 2 ^ 64.

(** The queue: distinct addresses, all handed out before. *)
Record queue_ok d : Prop := mk_queue_ok {
  q_nodup : NoDup (selfs d);
  q_old : Forall (fun p => p < next_entry d) (selfs d);
  q_word : word (num_msgs d)
}.

(** Entries may have gone, but none has come. *)
Record shrinks d d' : Prop := mk_shrinks {
  s_keys : sublist (keys d') (keys d);
  s_next : next_entry d' = next_entry d;
  s_word : word (num_msgs d) -> word (num_msgs d')
}.

(** Their number changes only when the requests for authentication go. *)
Definition calm d d' : Prop :=
  shrinks d d' /\
  (word (num_msgs d) -> num_msgs d' <> num_msgs d -> has_auth d = true /\ has_auth d' = false).

#[export] Instance shrinks_pre : PreOrder shrinks.
Proof.
  split; [by split|]. intros d1 d2 d3 [K1 N1 W1] [K2 N2 W2]. split; [by etransitivity|congruence|auto].
Qed.

Lemma shrinks_auth d d' : shrinks d d' -> has_auth d = false -> has_auth d' = false.
Proof.
  intros [K _ _] H. unfold has_auth in *. induction K as [|x l l' K IH|x l l' K IH]; [done| |].
  - cbn [existsb] in *. apply orb_false_iff in H as [-> H]. by apply IH.
  - apply IH. cbn [existsb] in H. by apply orb_false_iff in H as [_ H].
Qed.

#[export] Instance calm_pre : PreOrder calm.
Proof.
  split; [intros d; split; [reflexivity|done]|]. intros d1 d2 d3 [S1 C1] [S2 C2].
  split; [by etransitivity|]. intros W H. destruct (decide (num_msgs d2 = num_msgs d1)) as [E|E].
  - rewrite <- E in H. destruct (C2 (s_word _ _ S1 W) H) as [A B]. split; [|done].
    destruct (has_auth d1) eqn:A1; [done|]. apply (shrinks_auth _ _ S1) in A1. congruence.
  - destruct (C1 W E) as [A B]. split; [done|]. by apply (shrinks_auth _ _ S2).
Qed.

Lemma sublist_map {A B} (f : A -> B) (l l' : list A) : sublist l l' -> sublist (map f l) (map f l').
Proof. induction 1; by constructor. Qed.

Lemma shrinks_selfs d d' : shrinks d d' -> sublist (selfs d') (selfs d).
Proof. intros [K _ _]. unfold selfs. by apply sublist_map. Qed.

Lemma shrinks_ok d d' : shrinks d d' -> queue_ok d -> queue_ok d'.
Proof.
  intros H [Hn Ho Hw]. pose proof (shrinks_selfs _ _ H) as Hs. destruct H as [_ N W]. split.
  - by eapply sublist_NoDup.
  - rewrite N. clear N W. induction Hs as [|x l l' Hs IH|x l l' Hs IH]; [done| |].
    + apply Forall_cons in Ho as [Hx Ho]. apply NoDup_cons in Hn as [_ Hn]. constructor; [done|by apply IH].
    + apply Forall_cons in Ho as [_ Ho]. apply NoDup_cons in Hn as [_ Hn]. by apply IH.
  - by apply W.
Qed.

Lemma shrinks_length d d' : shrinks d d' -> (length (msgs d') <= length (msgs d))%nat.
Proof. intros [K _ _]. apply sublist_length in K. unfold keys in K. by rewrite !length_map in K. Qed.

(** ** The operations *)

Lemma calm_same d d' :
  keys d' = keys d -> num_msgs d' = num_msgs d -> next_entry d' = next_entry d -> calm d d'.
Proof. intros K N X. split; [split; [by rewrite K|done|by rewrite N]|congruence]. Qed.

Lemma calm_msgs f d : (forall l, map key (f l) = map key l) -> calm d (setter msgs f d).
Proof. intros H. apply calm_same; [apply H|done|done]. Qed.

Lemma filter_sublist p (l : list radius_msg_list) : sublist (map key (List.filter p l)) (map key l).
Proof.
  induction l as [|e l IH]; [constructor|]. cbn [List.filter map]. destruct (p e); by constructor.
Qed.

Lemma calm_filter p d : calm d (setter msgs (List.filter p) d).
Proof. split; [split; [apply filter_sublist|done|done]|done]. Qed.

Lemma u64_word n : word (u64 n).
Proof. unfold word, u64. apply Z.mod_pos_bound. lia. Qed.
Lemma u64_id n : word n -> u64 n = n.
Proof. intros H. unfold u64. by apply Z.mod_small. Qed.

Lemma flush_shrinks p d : shrinks d (flush_entries p d).
Proof. split; [apply filter_sublist|done|intros _; apply u64_word]. Qed.

Lemma filter_all (p : radius_msg_list -> bool) l : existsb p l = false -> List.filter (fun e => negb (p e)) l = l.
Proof.
  induction l as [|e l IH]; [done|]. cbn [existsb List.filter]. intros H. apply orb_false_iff in H as [-> H].
  cbn [negb]. by rewrite IH.
Qed.
Lemma filter_none (p : radius_msg_list -> bool) l : existsb p (List.filter (fun e => negb (p e)) l) = false.
Proof.
  induction l as [|e l IH]; [done|]. cbn [List.filter]. destruct (p e) eqn:E; cbn [negb]; [done|].
  cbn [existsb]. by rewrite E.
Qed.
Lemma auth_keys l : existsb snd (map key l) = existsb (fun e => is_auth (msg_type e)) l.
Proof. induction l as [|e l IH]; [done|]. cbn [map existsb]. by rewrite IH. Qed.

Lemma calm_timer f d : calm d (setter rc_loop f d).
Proof. by apply calm_same. Qed.
Lemma calm_emit o d : calm d (emit o d).
Proof. by apply calm_same. Qed.
Lemma calm_side auth f d : calm d (set_side auth f d).
Proof. destruct auth; by apply calm_same. Qed.
Lemma calm_cancel d : calm d (cancel_timer d).
Proof. apply calm_timer. Qed.
Lemma calm_register n d : calm d (register_timer n d).
Proof. apply calm_timer. Qed.
Lemma calm_count f `{!Setter f} auth d : calm d (count f auth d).
Proof. apply calm_side. Qed.

Lemma flush_calm d : calm d (radius_client_flush true d).
Proof.
  unfold radius_client_flush. set (d' := flush_entries _ d).
  assert (H : calm d d').
  { split; [apply flush_shrinks|]. intros W. subst d'. unfold flush_entries, has_auth, keys.
    cbn -[u64 Z.of_nat is_auth]. intros H. rewrite !auth_keys. split; [|apply filter_none].
    destruct (existsb _ (msgs d)) eqn:E; [done|]. exfalso. apply H.
    rewrite (filter_all (fun e => is_auth (msg_type e)) _ E), Z.sub_diag, Z.sub_0_r. by apply u64_id. }
  clearbody d'. destruct (msgs d'); [|done]. etransitivity; [exact H|apply calm_cancel].
Qed.

Lemma edit_keys p f l : (forall e, key (f e) = key e) ->
  map key (map (fun e => if e_self e =? p then f e else e) l) = map key l.
Proof. intros H. rewrite map_map. apply map_ext. intros e. destruct (_ =? _); [apply H|done]. Qed.

Lemma calm_edit p f d : (forall e, key (f e) = key e) -> calm d (edit_entry p f d).
Proof. intros H. apply calm_msgs. intros l. by apply edit_keys. Qed.

Lemma calm_map f d : (forall e, key (f e) = key e) -> calm d (setter msgs (map f) d).
Proof. intros H. apply calm_msgs. intros l. rewrite map_map. by apply map_ext. Qed.

Lemma calm_reset auth d : calm d (reset_counters auth d).
Proof. apply calm_map. intros e. by destruct (bool_decide _). Qed.
Lemma calm_update_acct secret d : calm d (radius_client_update_acct_msgs secret d).
Proof. apply calm_map. intros e. by destruct (bool_decide _). Qed.
Lemma calm_get_id d : calm d (radius_client_get_id d).2.
Proof.
  unfold radius_client_get_id. cbn [snd]. etransitivity; [|apply calm_filter]. by apply calm_same.
Qed.

(** Show that operations after each other are calm, one at a time. *)
Ltac calm_then_ d1 lem := transitivity d1; [|apply lem].
Ltac calms :=
  repeat (cbv beta zeta;
    match goal with
    | H : calm ?d ?d1 |- calm ?d ?d1 => exact H
    | |- calm ?d ?d => reflexivity
    | |- calm _ (if ?b then _ else _) => destruct b
    | |- calm _ (match ?x with _ => _ end) => destruct x
    | |- calm _ (set_side _ _ ?d1) => calm_then_ d1 calm_side
    | |- calm _ (on_server _ _ ?d1) => calm_then_ d1 calm_side
    | |- calm _ (count _ _ ?d1) => calm_then_ d1 calm_count
    | |- calm _ (close_sockets _ ?d1) => calm_then_ d1 calm_side
    | |- calm _ (emit _ ?d1) => calm_then_ d1 calm_emit
    | |- calm _ (cancel_timer ?d1) => calm_then_ d1 calm_cancel
    | |- calm _ (register_timer _ ?d1) => calm_then_ d1 calm_register
    | |- calm _ (radius_client_flush true ?d1) => calm_then_ d1 flush_calm
    | |- calm _ (radius_client_update_acct_msgs _ ?d1) => calm_then_ d1 calm_update_acct
    | |- calm _ (reset_counters _ ?d1) => calm_then_ d1 calm_reset
    | |- calm _ (edit_entry _ _ ?d1) => transitivity d1; [|by apply calm_edit]
    end).

Lemma calm_move nserv oserv auth d : calm d (move_requests nserv oserv auth d).
Proof. unfold move_requests. calms. Qed.

(** A run whose state is calm with respect to [d]. *)
Definition stays {A} d (e : run (A * radius_client_data)) : Prop := pc e (fun r => calm d r.2).

Lemma stays_ret {A} d (a : A) d1 : calm d d1 -> stays d (mret (a, d1)).
Proof. intros H. by apply pc_ret. Qed.
Lemma stays_halt {A} d why : stays d (halt why : run (A * _)).
Proof. apply pc_halt. Qed.
Lemma stays_ask {A B} d (e : run A) (f : A -> run (B * radius_client_data)) :
  (forall a, stays d (f a)) -> stays d (e ≫= f).
Proof. intros H. apply pc_bind, pc_any. exact H. Qed.
Lemma stays_bind {A B} d d0 (e : run (A * radius_client_data)) (f : A * radius_client_data -> run (B * radius_client_data)) :
  stays d0 e -> calm d d0 -> (forall a d1, calm d d1 -> stays d (f (a, d1))) -> stays d (e ≫= f).
Proof.
  intros He H Hf. apply pc_bind. eapply pc_mono; [exact He|]. intros [a d1] Hd. apply Hf. by transitivity d0.
Qed.

Lemma change_server_stays nserv oserv auth d : stays d (radius_change_server nserv oserv auth d).
Proof.
  unfold radius_change_server. pose proof (calm_move nserv oserv auth d) as H. set (d1 := move_requests _ _ _ d) in *.
  clearbody d1. destruct (_ !! nserv) as [s|]; [|apply stays_halt]. cbv zeta.
  destruct (negb _); [by apply stays_ret|]. apply stays_ask. intros []; cbn [negb]; [|by apply stays_ret].
  apply stays_ask. intros []; apply stays_ret; [done|calms].
Qed.

Lemma init_side_stays auth d : stays d (radius_client_init_side auth d).
Proof.
  unfold radius_client_init_side. apply stays_ask. intros no4. apply stays_ask. intros no6. cbv zeta.
  destruct (no4 && no6); [apply stays_ret; calms|]. destruct (server _) as [nserv|]; [|apply stays_halt].
  eapply stays_bind; [apply change_server_stays|calms|]. intros r d1 H1.
  apply stays_ask. intros []; [apply stays_ret; calms|]. apply stays_ask. intros []; apply stays_ret; calms.
Qed.

Definition stays1 d (e : run radius_client_data) : Prop := pc e (calm d).
Lemma stays1_ret d d1 : calm d d1 -> stays1 d (mret d1).
Proof. intros H. by apply pc_ret. Qed.
Lemma stays1_bind {A} d d0 (e : run (A * radius_client_data)) (f : A * radius_client_data -> run radius_client_data) :
  stays d0 e -> calm d d0 -> (forall a d1, calm d d1 -> stays1 d (f (a, d1))) -> stays1 d (e ≫= f).
Proof.
  intros He H Hf. apply pc_bind. eapply pc_mono; [exact He|]. intros [a d1] Hd. apply Hf. by transitivity d0.
Qed.
Lemma stays_bind1 {B} d d0 (e : run radius_client_data) (f : radius_client_data -> run (B * radius_client_data)) :
  stays1 d0 e -> calm d d0 -> (forall d1, calm d d1 -> stays d (f d1)) -> stays d (e ≫= f).
Proof. intros He H Hf. apply pc_bind. eapply pc_mono; [exact He|]. intros d1 Hd. apply Hf. by transitivity d0. Qed.

Lemma failover_stays auth d : stays1 d (failover auth d).
Proof.
  unfold failover. destruct (server _) as [old|]; [|apply pc_halt]. cbv zeta.
  eapply stays1_bind; [apply change_server_stays|calms|]. intros r d1 H. by apply stays1_ret.
Qed.

Lemma retry_primary_stays auth d : stays1 d (retry_primary auth d).
Proof.
  unfold retry_primary. destruct (sock _); [|by apply stays1_ret]. destruct (servers _); [by apply stays1_ret|].
  destruct (server _) as [[|o]|]; [by apply stays1_ret| |]; cbv zeta;
    (eapply stays1_bind; [apply change_server_stays|calms|]); intros [] d1 H; try by apply stays1_ret.
  - eapply stays1_bind; [apply change_server_stays|calms|]. intros r d2 H2. by apply stays1_ret.
  - apply pc_halt.
Qed.

Lemma send_error_stays type d : stays d (radius_client_handle_send_error type d).
Proof.
  unfold radius_client_handle_send_error. apply stays_ask. intros []; [|by apply stays_ret].
  eapply stays_bind; [apply init_side_stays|done|]. intros r d1 H. by apply stays_ret.
Qed.

Lemma renew_stays p pos now d : stays1 d (renew_accounting p pos now d).
Proof.
  unfold renew_accounting. pose proof (calm_get_id d) as H. destruct (radius_client_get_id d) as [id d1].
  cbn [snd] in H. apply pc_bind, pc_any. intros e. apply stays1_ret. calms.
Qed.

Lemma resend_stays p now d : stays d (resend p now d).
Proof.
  unfold resend. apply stays_ask. intros e.
  apply (stays_bind1 d d).
  { destruct (radius_msg_get_attr_ptr _ _ _) as [[pos len]|]; [|by apply stays1_ret].
    destruct (_ && _); [apply renew_stays|by apply stays1_ret]. }
  { done. }
  intros d1 H1. apply stays_ask. intros e1. cbv zeta. apply stays_ask. intros failed.
  set (d2 := emit _ _). assert (H2 : calm d d2) by (unfold d2; calms). clearbody d2.
  eapply (stays_bind d d2); [destruct failed; [apply send_error_stays|by apply stays_ret]|exact H2|].
  intros [] d3 H3; [by apply stays_ret|]. apply stays_ask. intros e2. apply stays_ret. calms.
Qed.

Lemma retransmit_stays p now d : stays d (radius_client_retransmit p now d).
Proof.
  unfold radius_client_retransmit. apply stays_ask. intros e. cbv zeta.
  apply (stays_bind1 d d).
  { destruct (non_null _); [by apply stays1_ret|]. eapply stays1_bind; [apply init_side_stays|done|].
    intros r d1 H1. by apply stays1_ret. }
  { done. }
  intros d1 H1. apply (stays_bind1 d d1).
  { destruct (_ && _); [apply failover_stays|by apply stays1_ret]. }
  { done. }
  intros d2 H2. destruct (negb _); [by apply stays_ret|]. apply stays_ask. intros e1.
  set (d3 := if attempts e1 =? 0 then _ else _). assert (H3 : calm d d3) by (unfold d3; calms). clearbody d3.
  destruct (bool_decide _); [apply stays_ret; calms|]. destruct (non_null _); [|by apply stays_ret].
  eapply pc_mono; [apply resend_stays|]. intros r Hr. by transitivity d3.
Qed.

(** ** The loop of the timer *)

(** How many entries there are from [p] on. *)
Fixpoint from (l : list Z) (p : Z) : nat :=
  match l with
  | [] => O
  | x :: l => if x =? p then S (length l) else from l p
  end.

Lemma from_length l p : (from l p <= length l)%nat.
Proof. induction l as [|x l IH]; cbn [from length]; [done|]. destruct (_ =? _); lia. Qed.

Lemma from_in l p : List.In p l -> (1 <= from l p)%nat.
Proof.
  induction l as [|x l IH]; [done|]. cbn [from]. intros [->|H].
  - rewrite Z.eqb_refl. lia.
  - destruct (_ =? _); [lia|by apply IH].
Qed.

Lemma from_sublist l l' p : sublist l' l -> List.In p l' -> (from l' p <= from l p)%nat.
Proof.
  intros H. induction H as [|x l' l H IH|x l' l H IH]; intros Hp; [done| |]; cbn [from].
  - apply sublist_length in H. destruct (Z.eqb_spec x p) as [|Hx]; [lia|]. destruct Hp as [|Hp]; [done|by apply IH].
  - apply sublist_length in H as Hl. destruct (_ =? _); [|by apply IH]. pose proof (from_length l' p). lia.
Qed.

Lemma selfs_msgs d : selfs d = map e_self (msgs d).
Proof. unfold selfs, keys. by rewrite map_map. Qed.

Lemma next_in l p q : next_of l p = Some q -> List.In q (map e_self l).
Proof.
  induction l as [|e l IH]; [done|]. cbn [next_of map]. destruct (_ =? _).
  - destruct l as [|e1 l]; [done|]. intros [= <-]. right. by left.
  - intros H. right. by apply IH.
Qed.

Lemma next_from l p q : NoDup (map e_self l) -> next_of l p = Some q ->
  (from (map e_self l) q < from (map e_self l) p)%nat /\ q <> p.
Proof.
  induction l as [|e l IH]; [done|]. cbn [next_of map from]. intros Hn H.
  apply NoDup_cons in Hn as [Hx Hn]. destruct (Z.eqb_spec (e_self e) p) as [E|E].
  - destruct l as [|e1 l]; [done|]. injection H as <-. cbn [map] in *.
    destruct (Z.eqb_spec (e_self e) (e_self e1)) as [E1|E1].
    { destruct Hx. rewrite E1. constructor. }
    pose proof (from_length (e_self e1 :: map e_self l) (e_self e1)). cbn [length] in *. split; [lia|congruence].
  - pose proof (next_in _ _ _ H) as Hq. destruct (Z.eqb_spec (e_self e) q) as [E1|E1].
    { destruct Hx. rewrite E1. by apply list_elem_of_In. }
    by apply IH.
Qed.

Lemma find_present l p : pc (find_entry l p) (fun e => e_self e = p /\ List.In e l).
Proof.
  induction l as [|e l IH]; cbn [find_entry]; [apply pc_halt|]. destruct (Z.eqb_spec (e_self e) p) as [E|E].
  - apply pc_ret. split; [done|by left].
  - eapply pc_mono; [exact IH|]. intros e' [H1 H2]. split; [done|by right].
Qed.

Lemma unlink_shrinks p d : shrinks d (unlink_entry p d).
Proof. split; [apply filter_sublist|done|intros _; apply u64_word]. Qed.

Lemma unlink_in p q d : List.In q (selfs d) -> q <> p -> List.In q (selfs (unlink_entry p d)).
Proof.
  rewrite !selfs_msgs. intros H Hq. apply in_map_iff in H as (e & <- & He).
  change (msgs (unlink_entry p d)) with (List.filter (fun e => negb (e_self e =? p)) (msgs d)).
  apply in_map, filter_In. split; [done|]. by destruct (Z.eqb_spec (e_self e) p).
Qed.

(** What is left to do: the entries from [entry] on, and all of them once more
    while there are requests for authentication. *)
Definition left_over (entry : option Z) d : nat :=
  (match entry with Some p => from (selfs d) p | None => 0 end
   + if has_auth d then length (msgs d) else 0)%nat.
Definition entry_ok (entry : option Z) d : Prop :=
  match entry with Some p => List.In p (selfs d) | None => True end.

Lemma left_shrinks p d d' :
  shrinks d d' -> List.In p (selfs d') -> (left_over (Some p) d' <= left_over (Some p) d)%nat.
Proof.
  intros H Hp. unfold left_over. pose proof (from_sublist _ _ _ (shrinks_selfs _ _ H) Hp).
  pose proof (shrinks_length _ _ H). pose proof (shrinks_auth _ _ H).
  destruct (has_auth d), (has_auth d'); lia.
Qed.

Lemma left_next p d d' :
  queue_ok d -> List.In p (selfs d') -> shrinks d d' ->
  (left_over (next_of (msgs d') p) d' < left_over (Some p) d)%nat /\ entry_ok (next_of (msgs d') p) d'.
Proof.
  intros Hq Hp H. pose proof (left_shrinks _ _ _ H Hp) as L. pose proof (shrinks_ok _ _ H Hq) as Hq'.
  destruct (next_of (msgs d') p) as [q|] eqn:E; unfold entry_ok.
  - pose proof (q_nodup _ Hq') as Hn. rewrite selfs_msgs in Hn. destruct (next_from _ _ _ Hn E) as [F _].
    split; [unfold left_over in *; rewrite !selfs_msgs in *; lia|]. rewrite selfs_msgs. by eapply next_in.
  - split; [|done]. unfold left_over in *. pose proof (from_in _ _ Hp). lia.
Qed.

Lemma first_left d : left_over (first_entry d) d = (length (msgs d) + if has_auth d then length (msgs d) else 0)%nat.
Proof.
  unfold left_over, first_entry. rewrite selfs_msgs. destruct (msgs d) as [|e l]; [done|].
  cbn [head option_map map from]. by rewrite Z.eqb_refl, length_map.
Qed.
Lemma first_ok d : entry_ok (first_entry d) d.
Proof. unfold entry_ok, first_entry. rewrite selfs_msgs. destruct (msgs d); [done|by left]. Qed.

Lemma timer_loop_ends fuel : forall entry prev first af cf now d,
  queue_ok d -> entry_ok entry d -> (left_over entry d <= fuel)%nat ->
  pc (timer_loop fuel entry prev first af cf now d) (fun '(r, d') => r <> None /\ shrinks d d').
Proof.
  induction fuel as [|fuel IH]; intros entry prev first af cf now d Hq He Hf;
    (destruct entry as [p|]; cbn [timer_loop]; [|by apply pc_ret]).
  { exfalso. unfold left_over, entry_ok in *. pose proof (from_in _ _ He). lia. }
  assert (Next : forall d' prev' first' af' cf', shrinks d d' -> queue_ok d' ->
    entry_ok (next_of (msgs d') p) d' -> (left_over (next_of (msgs d') p) d' < left_over (Some p) d)%nat ->
    forall d2, shrinks d' d2 -> entry_ok (next_of (msgs d') p) d2 ->
    pc (timer_loop fuel (next_of (msgs d') p) prev' first' af' cf' now d2) (fun '(r, d') => r <> None /\ shrinks d d')).
  { intros d' prev' first' af' cf' Hs Hq' He' Hl d2 Hs2 He2.
    eapply pc_mono; [apply IH; [by eapply shrinks_ok|done|]|].
    - destruct (next_of (msgs d') p) as [q|]; [pose proof (left_shrinks q _ _ Hs2 He2); lia|].
      unfold left_over in *. pose proof (shrinks_length _ _ Hs2). pose proof (shrinks_auth _ _ Hs2).
      destruct (has_auth d'), (has_auth d2); lia.
    - intros [r d3] [Hr Hd]. split; [done|]. by do 2 (etransitivity; [eassumption|]). }
  apply pc_bind, pc_any. intros e.
  apply pc_bind. eapply (pc_mono _ (fun r => calm d r.2)).
  { destruct (_ <=? now); [apply retransmit_stays|by apply stays_ret]. }
  intros [remove d'] [Hs Hc]. cbn [snd] in *. pose proof (shrinks_ok _ _ Hs Hq) as Hq'. destruct remove.
  - apply pc_bind, pc_any. intros _. apply pc_bind. eapply pc_mono; [apply find_present|]. intros e1 [E1 H1].
    assert (Hp : List.In p (selfs d')) by (rewrite selfs_msgs, <- E1; by apply in_map).
    destruct (left_next p d d' Hq Hp Hs) as [Hl Hn].
    apply (Next d'); try done; [apply unlink_shrinks|]. destruct (next_of (msgs d') p) as [q|] eqn:E; [|done].
    apply unlink_in; [done|]. pose proof (q_nodup _ Hq') as Hd. rewrite selfs_msgs in Hd. by apply (next_from _ _ _ Hd E).
  - destruct (Z.eqb_spec (num_msgs d) (num_msgs d')) as [En|En]; cbn [negb].
    + apply pc_bind. eapply pc_mono; [apply find_present|]. intros e1 [E1 H1]. cbv zeta.
      assert (Hp : List.In p (selfs d')) by (rewrite selfs_msgs, <- E1; by apply in_map).
      destruct (left_next p d d' Hq Hp Hs) as [Hl Hn]. by apply (Next d').
    + destruct (Hc (q_word _ Hq) (fun E => En (eq_sym E))) as [A B].
      eapply pc_mono; [apply IH; [done|apply first_ok|]|].
      * rewrite first_left, B. pose proof (shrinks_length _ _ Hs). unfold left_over in Hf. rewrite A in Hf.
        unfold entry_ok in He. pose proof (from_in _ _ He). lia.
      * intros [r d3] [Hr Hd]. split; [done|by etransitivity].
Qed.

Lemma timer_returns d : queue_ok d -> pc (radius_client_timer d) (fun r =>
  match r with Some d' => shrinks d d' | None => False end).
Proof.
  intros Hq. unfold radius_client_timer. destruct (msgs d) as [|e l] eqn:E; [by apply pc_ret|]. cbv zeta.
  apply pc_bind. eapply pc_mono; [apply (timer_loop_ends _ _ _ _ _ _ _ _ Hq (first_ok d))|].
  { rewrite first_left. unfold timer_fuel. destruct (has_auth d); lia. }
  intros [[[[first af] cf]|] d1] [Hr Hs]; [|done]. cbv zeta.
  set (d2 := match msgs d1 with [] => d1 | _ => _ end).
  assert (H2 : calm d1 d2) by (unfold d2; calms). clearbody d2.
  apply pc_bind. eapply (pc_mono _ (calm d1)).
  { destruct af; [|by apply pc_ret]. eapply pc_mono; [apply failover_stays|]. intros. by transitivity d2. }
  intros d3 H3. apply pc_bind. eapply (pc_mono _ (calm d1)).
  { destruct cf; [|by apply pc_ret]. eapply pc_mono; [apply failover_stays|]. intros. by transitivity d3. }
  intros d4 H4. apply pc_ret. transitivity d1; [done|]. apply H4.
Qed.

(** ** All operations *)

Lemma calm_ok d d' : calm d d' -> queue_ok d -> queue_ok d'.
Proof. intros [H _]. by apply shrinks_ok. Qed.

Lemma drop_sublist l : sublist (map key (drop_oldest l)) (map key l).
Proof.
  unfold drop_oldest. destruct (_ <? _)%nat; [|reflexivity]. induction l as [|e l IH]; [constructor|].
  cbn [removelast map]. destruct l as [|e1 l]; [by constructor|]. by constructor.
Qed.

(** A new entry at the head. *)
Lemma add_entry_ok e d : queue_ok d -> e_self e = next_entry d ->
  queue_ok (setter msgs (cons e) (setter next_entry Z.succ d)).
Proof.
  intros [Hn Ho Hw] E. split; [| |exact Hw].
  - rewrite selfs_msgs. cbn [setter map]. change (NoDup (e_self e :: map e_self (msgs d))). rewrite <- selfs_msgs.
    apply NoDup_cons. split; [|done]. intros H. rewrite E in H. pose proof (proj1 (Forall_forall _ _) Ho _ H) as Hlt. cbv beta in Hlt. lia.
  - rewrite selfs_msgs. change (Forall (fun p => p < Z.succ (next_entry d)) (e_self e :: map e_self (msgs d))).
    rewrite <- selfs_msgs. constructor; [lia|]. eapply Forall_impl; [exact Ho|]. intros p Hp. cbv beta in *. lia.
Qed.

Lemma list_add_ok d m type secret addr : queue_ok d -> pc (radius_client_list_add d m type secret addr) queue_ok.
Proof.
  intros Hq. unfold radius_client_list_add. destruct (eloop_terminated d); [by apply pc_ret|].
  apply pc_bind, pc_any. intros []; [by apply pc_ret|]. cbv zeta.
  match goal with |- context [mk_entry ?a ?b ?c ?t ?f ?n ?k ?w ?l ?s] => set (e := mk_entry a b c t f n k w l s) end.
  assert (Hd : queue_ok (setter msgs (cons e) (setter next_entry Z.succ d))) by by apply add_entry_ok.
  set (d1 := setter msgs _ _) in *. clearbody d1.
  assert (Hc : calm d1 (radius_client_update_timeout d1)).
  { unfold radius_client_update_timeout. cbv zeta. assert (H := calm_cancel d1). set (d2 := cancel_timer d1) in *.
    clearbody d2. calms. }
  pose proof (calm_ok _ _ Hc Hd) as H2. set (d2 := radius_client_update_timeout d1) in *. clearbody d2.
  destruct (_ <=? _); apply pc_ret.
  - eapply shrinks_ok; [|exact H2]. split; [apply drop_sublist|done|done].
  - destruct H2 as [A B C]. split; [exact A|exact B|apply u64_word].
Qed.

Lemma send_ok d m type addr : queue_ok d -> pc (radius_client_send d m type addr) (fun r => queue_ok r.2).
Proof.
  intros Hq. unfold radius_client_send. cbv zeta. apply pc_bind. eapply (pc_mono _ (calm d)).
  { destruct (_ && _); [|by apply pc_ret]. apply (stays1_bind d d); [apply init_side_stays|done|].
    intros r d1 H1. by apply stays1_ret. }
  intros d1 H1. pose proof (calm_ok _ _ H1 Hq) as Hq1. destruct (_ ≫= _) as [secret|]; [|by apply pc_ret].
  destruct (negb _); [by apply pc_ret|]. apply pc_bind, pc_any. intros m1. apply pc_bind, pc_any. intros failed.
  set (d2 := emit _ _). assert (H2 : calm d1 d2) by (unfold d2; calms). clearbody d2.
  apply pc_bind. eapply (pc_mono _ (calm d1)).
  { destruct failed; [|by apply pc_ret]. apply (stays1_bind d1 d2); [apply send_error_stays|done|].
    intros r d3 H3. by apply stays1_ret. }
  intros d3 H3. pose proof (calm_ok _ _ H3 Hq1) as Hq3. apply pc_bind.
  eapply pc_mono; [by apply list_add_ok|]. intros d4 H4. by apply pc_ret.
Qed.

Lemma retry_timer_ok d : queue_ok d -> pc (radius_retry_primary_timer d) queue_ok.
Proof.
  intros Hq. unfold radius_retry_primary_timer. apply pc_bind. eapply pc_mono; [apply retry_primary_stays|].
  intros d1 H1. apply pc_bind. eapply pc_mono; [apply retry_primary_stays|]. intros d2 H2. apply pc_ret.
  unfold register_retry. assert (H : calm d d2) by by transitivity d1.
  destruct (_ =? 0); [by apply (calm_ok d)|]. apply (calm_ok d); [|done]. etransitivity; [exact H|apply calm_timer].
Qed.

Lemma init_ok auth acct as_ bs retry force l :
  pc (radius_client_init auth acct as_ bs retry force l) (fun r => match r with Some d => queue_ok d | None => True end).
Proof.
  unfold radius_client_init. apply pc_bind, pc_any. intros []; [by apply pc_ret|]. cbv zeta.
  set (d := mk_rc _ _ _ _ _ _ _ _ _ _ _ _).
  assert (Hq : queue_ok d) by (split; [constructor|constructor|by split]). clearbody d.
  apply pc_bind. eapply (pc_mono _ (fun r => calm d r.2)).
  { destruct (non_null _); [apply init_side_stays|by apply stays_ret]. }
  intros [[] d1] H1; cbn [negb snd] in *; [|by apply pc_ret].
  apply pc_bind. eapply (pc_mono _ (fun r => calm d r.2)).
  { destruct (non_null _); [|by apply stays_ret]. eapply pc_mono; [apply init_side_stays|]. intros r Hr. by transitivity d1. }
  intros [[] d2] H2; cbn [negb snd] in *; [|by apply pc_ret]. apply pc_ret.
  apply (calm_ok d); [|done]. unfold register_retry. destruct (_ =? 0); [done|].
  etransitivity; [exact H2|apply calm_timer].
Qed.

(** ** Runs *)

(** What happens to a client, one after the other; [clock]: the event loop
    moves on by itself. *)
Inductive client_event :=
  | get_id
  | send_request (m : radius_msg) (type : RadiusType) (addr : option (list Z))
  | flush_requests (only_auth : bool)
  | flush_station (addr : list Z)
  | timer_fires
  | retry_fires
  | response (auth : bool) (datagram : list Z)
  | reconfigured (auth acct : list hostapd_radius_server) (auth_server acct_server : option nat) (retry : Z)
      (force : option family)
  | clock (l : eloop_data client_timer).

Section runs.
Context {T : Type}.
Context (auth_handlers acct_handlers : list (radius_msg -> radius_msg -> list Z -> T -> run (RadiusRxResult * T))).

(** [None]: the loop of the timer has run out of fuel. *)
Definition client_step (ev : client_event) d (t : T) : run (option (radius_client_data * T)) :=
  match ev with
  | get_id => mret (Some ((radius_client_get_id d).2, t))
  | send_request m type addr => '(_, d) ← radius_client_send d m type addr; mret (Some (d, t))
  | flush_requests only_auth => mret (Some (radius_client_flush only_auth d, t))
  | flush_station addr => mret (Some (radius_client_flush_auth addr d, t))
  | timer_fires => d ← radius_client_timer d; mret (option_map (fun d => (d, t)) d)
  | retry_fires => d ← radius_retry_primary_timer d; mret (Some (d, t))
  | response auth o => r ← radius_client_receive auth_handlers acct_handlers auth o d t; mret (Some r)
  | reconfigured a1 a2 s1 s2 retry force => mret (Some (radius_client_reconfig a1 a2 s1 s2 retry force d, t))
  | clock l => mret (Some (setter rc_loop (fun _ => l) d, t))
  end.

Fixpoint client_run (evs : list client_event) d (t : T) : run (option (radius_client_data * T)) :=
  match evs with
  | [] => mret (Some (d, t))
  | ev :: evs =>
      r ← client_step ev d t;
      match r with Some (d, t) => client_run evs d t | None => mret None end
  end.

Lemma find_in l p e : List.find p l = Some e -> List.In e l.
Proof. intros H. by apply find_some in H as [H _]. Qed.

(** What a datagram does to the queue: nothing, or the entry it answers is
    removed. *)
Lemma receive_queue auth o d t :
  pc (radius_client_receive auth_handlers acct_handlers auth o d t) (fun '(d', _) => shrinks d d').
Proof.
  unfold radius_client_receive. destruct (_ <=? _); [by apply pc_ret|]. apply pc_bind, pc_any.
  intros [m|]; [|apply pc_ret; apply (calm_count malformed_responses auth d)]. cbv zeta.
  assert (H : calm d (count_response (hdr_code m) auth d)) by (unfold count_response; calms).
  set (d1 := count_response _ _ _) in *. clearbody d1. destruct (List.find _ _) as [req|]; [|apply pc_ret; apply H].
  set (d2 := on_server _ _ _). assert (H2 : calm d1 d2) by (unfold d2; calms). clearbody d2.
  apply pc_bind, pc_any. intros [[taken invalid] t'].
  assert (H3 : shrinks d (unlink_entry (e_self req) d2)).
  { transitivity d2; [transitivity d1; [apply H|apply H2]|apply unlink_shrinks]. }
  set (d3 := unlink_entry _ _) in *. clearbody d3. destruct taken; [by apply pc_ret|]. apply pc_ret.
  transitivity d3; [exact H3|]. destruct invalid; apply calm_count.
Qed.

Lemma client_step_ok ev d t : queue_ok d ->
  pc (client_step ev d t) (fun r => match r with Some (d', _) => queue_ok d' | None => False end).
Proof.
  intros Hq. destruct ev as [|m type addr|only_auth|addr| | |auth o|a1 a2 s1 s2 retry force|l]; cbn [client_step].
  - apply pc_ret. apply (calm_ok d); [apply calm_get_id|done].
  - apply pc_bind. eapply pc_mono; [by apply send_ok|]. intros [r d1] H. by apply pc_ret.
  - apply pc_ret. apply (shrinks_ok d); [|done]. unfold radius_client_flush.
    assert (H : shrinks d (flush_entries (fun e => negb only_auth || is_auth (msg_type e)) d)) by apply flush_shrinks.
    set (d1 := flush_entries _ d) in *. clearbody d1. destruct (msgs d1); [|done]. etransitivity; [exact H|apply calm_cancel].
  - apply pc_ret. apply (shrinks_ok d); [apply flush_shrinks|done].
  - apply pc_bind. eapply pc_mono; [by apply timer_returns|]. intros [d1|] H; [|done]. apply pc_ret. by apply (shrinks_ok d).
  - apply pc_bind. eapply pc_mono; [by apply retry_timer_ok|]. intros d1 H. by apply pc_ret.
  - apply pc_bind. eapply pc_mono; [apply receive_queue|]. intros [d1 t1] H. apply pc_ret. by apply (shrinks_ok d).
  - apply pc_ret. apply (calm_ok d); [by apply calm_same|done].
  - apply pc_ret. apply (calm_ok d); [apply calm_timer|done].
Qed.

Lemma client_run_ok evs : forall d t, queue_ok d ->
  pc (client_run evs d t) (fun r => match r with Some (d', _) => queue_ok d' | None => False end).
Proof.
  induction evs as [|ev evs IH]; intros d t Hq; cbn [client_run]; [by apply pc_ret|].
  apply pc_bind. eapply pc_mono; [by apply client_step_ok|]. intros [[d1 t1]|] H; [by apply IH|done].
Qed.
End runs.

(** ** Where the queue is not what it seems *)

(** [radius_client_get_id] frees the requests that have the identifier, but
    does not count them. *)
Lemma get_id_not_counted d e :
  List.In e (msgs d) -> hdr_identifier (e_msg e) = next_radius_identifier d ->
  num_msgs (radius_client_get_id d).2 = num_msgs d /\
  (length (msgs (radius_client_get_id d).2) < length (msgs d))%nat.
Proof.
  intros Hin Hid. split; [reflexivity|].
  change (msgs (radius_client_get_id d).2) with
    (List.filter (fun e => negb (hdr_identifier (e_msg e) =? next_radius_identifier d)) (msgs d)).
  revert Hin. induction (msgs d) as [|x l IH]; intros Hin; [done|]. cbn [List.filter]. destruct Hin as [->|Hin].
  - rewrite Hid, Z.eqb_refl. cbn [negb length]. pose proof (filter_sublist (fun e => negb (hdr_identifier (e_msg e) =? next_radius_identifier d)) l) as H.
    apply sublist_length in H. rewrite !length_map in H. lia.
  - destruct (negb _); cbn [length]; specialize (IH Hin); lia.
Qed.

(** A datagram with the identifier of a pending request removes that request
    whatever the handlers find, also when it is not genuine. *)
Lemma response_unlinks {T} (auth_handlers acct_handlers : list (radius_msg -> radius_msg -> list Z -> T -> run (RadiusRxResult * T)))
    o d t m e d' t' mem' :
  zlen o < 3000 -> radius_msg_parse o [] = Go (Some m) [] ->
  List.find (matches RADIUS_AUTH (hdr_identifier m)) (msgs d) = Some e ->
  radius_client_receive auth_handlers acct_handlers true o d t [] = Go (d', t') mem' ->
  msgs d' = List.filter (fun x => negb (e_self x =? e_self e)) (msgs d).
Proof.
  intros Hz Hp He Hr. unfold radius_client_receive in Hr. destruct (Z.leb_spec 3000 (zlen o)); [lia|].
  unfold mbind, run_bind at 1 in Hr. rewrite Hp in Hr. cbv zeta in Hr.
  assert (Em : msgs (count_response (hdr_code m) true d) = msgs d).
  { unfold count_response. by repeat match goal with |- context [if ?b then _ else _] => destruct b end. }
  rewrite Em, He in Hr. set (d1 := unlink_entry _ _) in Hr.
  assert (E1 : msgs d1 = List.filter (fun x => negb (e_self x =? e_self e)) (msgs d)) by (by rewrite <- Em).
  clearbody d1. unfold run_bind in Hr. destruct (call_handlers _ _ _ _ _ _) as [[[ok bad] t1] mem1|]; [|discriminate].
  destruct ok; [|destruct bad]; injection Hr as <- _ _; exact E1.
Qed.
