(* ===== verification/RadiusAp.v ===== *)
(** * RADIUS in the access point (src/src/ap/ieee802_1x.c)

    The EAP messages of a station go to the authentication server in
    Access-Request, and its responses come back through the RADIUS client to
    [ieee802_1x_receive_auth], which gives the result, the EAP message and the
    key to the machine of the station.

    A station is that of Ieee8021x.v with the members that only RADIUS uses.
    The assignment of a station to a VLAN manages interfaces of the system;
    here it is recorded, and its result is asked of the environment.  The
    build is one without CONFIG_HS20, CONFIG_INTERWORKING and
    CONFIG_IEEE80211R, with CONFIG_IEEE80211W. *)

From Stdlib Require Import String.
From S2P Require Import Prelude.
From S2P Require Import Eloop.
From S2P Require Import Wpabuf.
From S2P Require Import Common.
From S2P Require Import WpaCommon.
From S2P Require Import WpaIe.
From S2P Require Import EapCommon.
From S2P Require Import EapServer.
From S2P Require Import EapolAuth.
From S2P Require Import EapolPort.
From S2P Require Import Ieee8021x.
From S2P Require Import Hash.
From S2P Require Import RadiusMsg.
From S2P Require Import RadiusServer.
From S2P Require Import RadiusClient.

(** ** Data *)

Definition DYNAMIC_VLAN_DISABLED : Z := 0.
Definition DYNAMIC_VLAN_REQUIRED : Z := 2.
Definition MAX_NUM_TAGGED_VLAN : Z := 32.
Definition MAX_VLAN_ID : Z := 4094.
Definition VLAN_ID_WILDCARD : Z := -1.

(** [struct vlan_description] (ap/vlan.h). *)
Record vlan_description := mk_vlan_description { notempty : bool; untagged : Z; tagged : list Z }.
Definition no_vlan : vlan_description := mk_vlan_description false 0 (replicate 32 0).

(** [vlan_compare]: the result is whether they differ (ap/vlan.c). *)
Definition vlan_differs (a b : vlan_description) : bool :=
  if negb (notempty a) && negb (notempty b) then false
  else if negb (notempty a) || negb (notempty b) then true
  else negb ((untagged a =? untagged b) && bool_decide (tagged a = tagged b)).

(** [hostapd_vlan_valid] (ap/ap_config.c), over the identifiers and
    descriptions of the configured VLANs. *)
Definition hostapd_vlan_valid (vlans : list (Z * vlan_description)) (v : vlan_description) : bool :=
  notempty v && (0 <=? untagged v) && (untagged v <=? MAX_VLAN_ID)
  && forallb (fun t => (0 <=? t) && (t <=? MAX_VLAN_ID)) (tagged v)
  && negb ((untagged v =? 0) && (byte_at (tagged v) 0 =? 0))
  && existsb (fun '(id, d) => negb (vlan_differs d v) || (id =? VLAN_ID_WILDCARD)) vlans.

(** The configuration of the BSS for RADIUS. *)
Record radius_bss := mk_radius_bss {
  acct_server : bool;
  dynamic_vlan : Z;
  vlans : list (Z * vlan_description);
  conf_acct_interim_interval : Z;
  req_attr : list (Z * list Z);
  own_ip_addr : option (bool * list Z);
  nas_identifier : option (list Z);
  own_addr : list Z;
  ssid : list Z;
  bss_wpa_proto : Z;
  bss_osen : bool;
  bss_wpa_group : Z;
  mfp : bool;
  bss_group_mgmt_cipher : Z;
  disable_pmksa_caching : bool;
  radius_request_cui : bool;
  mode_txt : list Z
}.

(** Calls that manage the station. *)
Inductive ap_call :=
  | ap_sta_set_vlan (v : vlan_description)
  | ap_sta_bind_vlan
  | ap_sta_session_timeout (secs : Z).

(** [last_recv_radius] and [radius_class] are members of the machine of the
    station, [wpa_version] and [wpa_pairwise] those of its WPA machine. *)
Record radius_sta {E : Type} := mk_radius_sta {
  port : sta_info E;
  last_recv_radius : option radius_msg;
  radius_class : radius_class_data;
  session_timeout_set : bool;
  session_timeout : Z;
  acct_interim_interval : Z;
  acct_session_id : Z;
  aid : Z;
  supported_rates : list Z;
  wpa_version : Z;
  wpa_pairwise : Z;
  ap_calls : list ap_call
}.
Arguments radius_sta E : clear implicits.
#[global] Instance eta_radius_sta {E} : Eta (radius_sta E) := fun r =>
  mk_radius_sta E (port r) (last_recv_radius r) (radius_class r) (session_timeout_set r)
    (session_timeout r) (acct_interim_interval r) (acct_session_id r) (aid r) (supported_rates r)
    (wpa_version r) (wpa_pairwise r) (ap_calls r).

(** [eap_get_identity]. *)
Class EapIdentity (E : Type) := engine_identity : E -> option (list Z).

(** ** Access-Request *)

Definition RADIUS_ATTR_NAS_IP_ADDRESS : Z := 4.
Definition RADIUS_ATTR_NAS_PORT : Z := 5.
Definition RADIUS_ATTR_SERVICE_TYPE : Z := 6.
Definition RADIUS_ATTR_FRAMED_MTU : Z := 12.
Definition RADIUS_ATTR_CALLED_STATION_ID : Z := 30.
Definition RADIUS_ATTR_CALLING_STATION_ID : Z := 31.
Definition RADIUS_ATTR_NAS_IDENTIFIER : Z := 32.
Definition RADIUS_ATTR_ACCT_SESSION_ID : Z := 44.
Definition RADIUS_ATTR_ACCT_MULTI_SESSION_ID : Z := 50.
Definition RADIUS_ATTR_NAS_PORT_TYPE : Z := 61.
Definition RADIUS_ATTR_CONNECT_INFO : Z := 77.
Definition RADIUS_ATTR_NAS_IPV6_ADDRESS : Z := 95.
Definition RADIUS_ATTR_WLAN_PAIRWISE_CIPHER : Z := 186.
Definition RADIUS_ATTR_WLAN_GROUP_CIPHER : Z := 187.
Definition RADIUS_ATTR_WLAN_AKM_SUITE : Z := 188.
Definition RADIUS_ATTR_WLAN_GROUP_MGMT_CIPHER : Z := 189.
Definition RADIUS_SERVICE_TYPE_FRAMED : Z := 2.
Definition RADIUS_NAS_PORT_TYPE_IEEE_802_11 : Z := 19.

(** [RADIUS_802_1X_ADDR_FORMAT]. *)
Definition addr_format (a : list Z) : list Z :=
  match map (hex_byte true) a with
  | [] => []
  | x :: l => x ++ concat (map (cons 45) l)
  end.

(** ["%016llX"]. *)
Definition session_id_format (n : Z) : list Z :=
  concat (map (hex_byte true) (WPA_PUT_BE32 (Z.shiftr n 32) ++ WPA_PUT_BE32 (u32 n))).

Definition rate_text (n : Z) : list Z :=
  (if 10 <=? n then [48 + n / 10] else []) ++ [48 + n mod 10].

Definition radius_sta_rate (rates : list Z) : Z :=
  fold_left (fun rate r => if rate <? Z.land r 0x7f then Z.land r 0x7f else rate) rates 0.

(** [wpa_akm_to_suite] (common/wpa_common.c), with the suites of
    ieee802_11_defs.h. *)
Definition wpa_akm_to_suite : Z -> Z :=
  first_bit
    [(WPA_KEY_MGMT_FT_IEEE8021X, 0x000FAC03); (WPA_KEY_MGMT_FT_PSK, 0x000FAC04);
     (WPA_KEY_MGMT_IEEE8021X, 0x000FAC01); (WPA_KEY_MGMT_IEEE8021X_SHA256, 0x000FAC05);
     (WPA_KEY_MGMT_IEEE8021X, 0x000FAC01); (WPA_KEY_MGMT_PSK_SHA256, 0x000FAC06);
     (WPA_KEY_MGMT_PSK, 0x000FAC02); (WPA_KEY_MGMT_CCKM, 0x00409600);
     (WPA_KEY_MGMT_OSEN, 0x506f9a01); (WPA_KEY_MGMT_IEEE8021X_SUITE_B, 0x000FAC11);
     (WPA_KEY_MGMT_IEEE8021X_SUITE_B_192, 0x000FAC12)] 0.

(** [hostapd_config_get_radius_attr]. *)
Definition has_attr (t : Z) (l : list (Z * list Z)) : bool := existsb (fun a => a.1 =? t) l.

Section ap.
Context {E : Type} `{EE : !EapEngine E, EI : !EapIdentity E}.
Abbreviation S := (eapol_sm E).
Abbreviation rsta := (radius_sta E).
#[local] Existing Instance set_eap_if.
Implicit Types (cf : radius_bss) (s : rsta).

Section attributes.
Context (cf : radius_bss).
(** Unless the configuration has the attribute. *)
Definition unless (t : Z) (v : list Z) : list (Z * list Z) :=
  if has_attr t (req_attr cf) then [] else [(t, v)].

Definition add_common_radius_sta_attr_rsn (s : rsta) : list (Z * list Z) :=
  let key_mgmt := wpa_auth_sta_key_mgmt (wpa_machine (port s)) in
  (if wpa_pairwise s =? -1 then []
   else unless RADIUS_ATTR_WLAN_PAIRWISE_CIPHER
          (WPA_PUT_BE32 (wpa_cipher_to_suite (wpa_version s) (wpa_pairwise s)))) ++
  unless RADIUS_ATTR_WLAN_GROUP_CIPHER
    (WPA_PUT_BE32 (wpa_cipher_to_suite (if has_bits (bss_wpa_proto cf) 2 || bss_osen cf then WPA_PROTO_RSN else WPA_PROTO_WPA)
                     (bss_wpa_group cf))) ++
  (if key_mgmt =? -1 then []
   else unless RADIUS_ATTR_WLAN_AKM_SUITE (WPA_PUT_BE32 (wpa_akm_to_suite key_mgmt))) ++
  (if mfp cf then unless RADIUS_ATTR_WLAN_GROUP_MGMT_CIPHER
                    (WPA_PUT_BE32 (wpa_cipher_to_suite WPA_PROTO_RSN (bss_group_mgmt_cipher cf)))
   else []).

Definition connect_info (s : rsta) : list Z :=
  if sta_flag WLAN_STA_PREAUTH (port s) then chars "IEEE 802.11i Pre-Authentication"%string
  else
    let rate := radius_sta_rate (supported_rates s) in
    chars "CONNECT "%string ++ rate_text (rate / 2) ++ (if Z.testbit rate 0 then chars ".5"%string else [])
    ++ chars "Mbps "%string ++ mode_txt cf.

Definition add_common_radius_sta_attr (s : rsta) : list (Z * list Z) :=
  unless RADIUS_ATTR_SERVICE_TYPE (WPA_PUT_BE32 RADIUS_SERVICE_TYPE_FRAMED) ++
  unless RADIUS_ATTR_NAS_PORT (WPA_PUT_BE32 (aid s)) ++
  [(RADIUS_ATTR_CALLING_STATION_ID, addr_format (sta_addr (port s)))] ++
  unless RADIUS_ATTR_CONNECT_INFO (connect_info s) ++
  (if acct_session_id s =? 0 then []
   else [(RADIUS_ATTR_ACCT_SESSION_ID, session_id_format (acct_session_id s))]) ++
  (match eapol_machine (port s) with
   | Some m =>
       if has_bits (bss_wpa_proto cf) 2 && negb (disable_pmksa_caching cf) && negb (acct_multi_session_id m =? 0)
       then [(RADIUS_ATTR_ACCT_MULTI_SESSION_ID, session_id_format (acct_multi_session_id m))] else []
   | None => []
   end) ++
  (if (negb (bss_wpa_proto cf =? 0) || bss_osen cf) && non_null (wpa_machine (port s))
   then add_common_radius_sta_attr_rsn s else []).

(** The attributes in the order in which they are added. *)
Definition add_common_radius_attr (s : rsta) : list (Z * list Z) :=
  (match own_ip_addr cf with
   | Some (v6, a) => unless (if v6 : bool then RADIUS_ATTR_NAS_IPV6_ADDRESS else RADIUS_ATTR_NAS_IP_ADDRESS) a
   | None => []
   end) ++
  (match nas_identifier cf with Some n => unless RADIUS_ATTR_NAS_IDENTIFIER n | None => [] end) ++
  unless RADIUS_ATTR_CALLED_STATION_ID (addr_format (own_addr cf) ++ [58] ++ ssid cf) ++
  unless RADIUS_ATTR_NAS_PORT_TYPE (WPA_PUT_BE32 RADIUS_NAS_PORT_TYPE_IEEE_802_11) ++
  add_common_radius_sta_attr s ++
  req_attr cf.
End attributes.

(** A statement on the machine of the station. *)
Definition on_machine (c : cmd S) : cmd rsta := setter port (on_sm c).

(** [sm]: the machine of the station. *)
Definition ieee802_1x_learn_identity (eap_msg : list Z) (s : rsta) (sm : S) : run rsta :=
  let code := byte_at eap_msg 0 in
  let type := byte_at eap_msg sizeof_eap_hdr in
  if (zlen eap_msg <=? sizeof_eap_hdr)
     || ((code =? EAP_CODE_RESPONSE) && negb (type =? EAP_TYPE_IDENTITY))
     || ((code =? EAP_CODE_INITIATE) && negb (type =? EAP_ERP_TYPE_REAUTH))
     || (negb (code =? EAP_CODE_RESPONSE) && negb (code =? EAP_CODE_INITIATE))
  then mret s else
  match engine_identity (EapolAuth.eap sm) with
  | None => mret s
  | Some id =>
      oom ← alloc;
      if oom : bool then mret (on_machine (EapolAuth.identity ::= None)%cmd s)
      else mret (on_machine (EapolAuth.identity ::= Some id ;;
                  rx_count ∷ dot1xAuthEapolRespIdFramesRx <~
                    (fun m => incr (dot1xAuthEapolRespIdFramesRx (rx_count m))))%cmd s)
  end.

(** The attributes before the EAP message. *)
Definition request_attrs cf (s : rsta) : list (Z * list Z) :=
  (match eapol_machine (port s) ≫= EapolAuth.identity with
   | Some i => [(RADIUS_ATTR_USER_NAME, i)]
   | None => []
   end) ++
  add_common_radius_attr cf s ++ unless cf RADIUS_ATTR_FRAMED_MTU (WPA_PUT_BE32 1400).

(** The value of Chargeable-User-Identity. *)
Definition request_cui (s : rsta) : list Z :=
  match eapol_machine (port s) ≫= radius_cui with Some b => wpabuf_head b | None => [0] end.

(** The request as it is given to the client; [random] are the octets for the
    authenticator. *)
Definition access_request cf (random : option (list Z)) (id : Z) (eap_msg : list Z) (s : rsta)
    : run (option radius_msg) :=
  m ← radius_msg_new RADIUS_CODE_ACCESS_REQUEST id;
  match m with
  | None => mret None
  | Some m =>
      let '(res, m) := radius_msg_make_authenticator random m in
      if res <? 0 then mret None else
      '(ok, m) ← add_accept_attrs m (request_attrs cf s);
      if negb ok then mret None else
      '(ok, m) ← radius_msg_add_eap m eap_msg;
      if ok =? 0 then mret None else
      '(res, m) ← match last_recv_radius s with
                  | Some last =>
                      if hdr_code last =? RADIUS_CODE_ACCESS_CHALLENGE
                      then radius_msg_copy_attr m last RADIUS_ATTR_STATE else mret (0, m)
                  | None => mret (0, m)
                  end;
      if res <? 0 then mret None else
      if radius_request_cui cf then
        '(attr, m) ← radius_msg_add_attr m RADIUS_ATTR_CHARGEABLE_USER_IDENTITY (request_cui s);
        mret (match attr with Some _ => Some m | None => None end)
      else mret (Some m)
  end.

Definition ieee802_1x_encapsulate_radius cf (random : option (list Z)) (eap_msg : list Z)
    (d : radius_client_data) (s : rsta) : run (radius_client_data * rsta) :=
  match eapol_machine (port s) with
  | None => mret (d, s)
  | Some sm =>
      s ← ieee802_1x_learn_identity eap_msg s sm;
      let '(id, d) := radius_client_get_id d in
      let s := on_machine (radius_identifier ::= id)%cmd s in
      m ← access_request cf random id eap_msg s;
      match m with
      | None => mret (d, s)
      | Some m =>
          '(_, d) ← radius_client_send d m RADIUS_AUTH (Some (sta_addr (port s)));
          mret (d, s)
      end
  end.

(** ** Responses *)

(** The EAP message of the last response goes to the machine. *)
Definition ieee802_1x_decapsulate_radius (s : rsta) : run rsta :=
  let no_req := on_machine (eap_if ∷ aaaEapNoReq ::= true)%cmd s in
  match last_recv_radius s with
  | None => mret no_req
  | Some m =>
      eap ← radius_msg_get_eap (Some m);
      match eap with
      | None => mret no_req
      | Some eap =>
          if wpabuf_len eap <? sizeof_eap_hdr then mret no_req else
          let has_type := sizeof_eap_hdr <? wpabuf_len eap in
          mret (on_machine
            ((if (byte_at (wpabuf_head eap) 0 =? EAP_CODE_REQUEST) && has_type
              then eap_type_authsrv ::= byte_at (wpabuf_head eap) sizeof_eap_hdr else skip) ;;
             eap_if ∷ aaaEapReq ::= true ;;
             eap_if ∷ aaaEapReqData ::= Some eap)%cmd s)
      end
  end.

Definition ieee802_1x_get_keys (m req : radius_msg) (secret : list Z) (s : rsta) : run rsta :=
  keys ← radius_msg_get_ms_keys (Some m) (Some req) secret;
  match keys with
  | Some (mk_mppe_keys (Some send) (Some recv)) =>
      oom ← alloc;
      mret (on_machine
        (if oom : bool then eap_if ∷ aaaEapKeyData ::= None
         else
           eap_if ∷ aaaEapKeyData ::= Some (recv ++ send) ;;
           eap_if ∷ aaaEapKeyDataLen ::= zlen send + zlen recv ;;
           eap_if ∷ aaaEapKeyAvailable ::= true)%cmd s)
  | _ => mret s
  end.

(** The inner loop over the Class attributes: [cur] is what [attr_class] and
    [class_len] hold ([None]: not set), the result whether one was found. *)
Fixpoint next_class (fuel : nat) (m : radius_msg) (cur : option (Z * Z)) : bool * option (Z * Z) :=
  match fuel with
  | O => (false, cur)
  | Datatypes.S fuel =>
      match radius_msg_get_attr_ptr m RADIUS_ATTR_CLASS (option_map fst cur) with
      | None => (false, cur)
      | Some (p, len) => if len <? 1 then next_class fuel m (Some (p, len)) else (true, Some (p, len))
      end
  end.

(** The outer loop; what [attr_class] holds is copied also when nothing was
    found. *)
Fixpoint class_loop (n : nat) (m : radius_msg) (cur : option (Z * Z)) (nclass : list (list Z))
    : run (list (list Z)) :=
  match n with
  | O => mret nclass
  | Datatypes.S n =>
      let '(found, cur) := next_class (Datatypes.S (length (attr_pos m))) m cur in
      match cur with
      | None => halt NullPointer
      | Some (p, len) =>
          oom ← alloc;
          if oom : bool then mret nclass else
          let nclass := nclass ++ [slice (octets m) p len] in
          if found then class_loop n m cur nclass else mret nclass
      end
  end.

Definition ieee802_1x_store_radius_class cf (m : radius_msg) (s : rsta) : run rsta :=
  if negb (acct_server cf) || negb (non_null (eapol_machine (port s))) then mret s else
  let s := setter radius_class (fun _ => None) s in
  let count := radius_msg_count_attr m RADIUS_ATTR_CLASS 1 in
  if count <=? 0 then mret s else
  oom ← alloc;
  if oom : bool then mret s else
  l ← class_loop (Z.to_nat count) m None [];
  mret (setter radius_class (fun _ => Some l) s).

Definition ieee802_1x_update_sta_identity (m : radius_msg) (s : rsta) : run rsta :=
  match radius_msg_get_attr_ptr m RADIUS_ATTR_USER_NAME None with
  | None => mret s
  | Some (p, len) =>
      oom ← alloc;
      mret (if oom : bool then s
            else on_machine (EapolAuth.identity ::= Some (slice (octets m) p len))%cmd s)
  end.

Definition ieee802_1x_update_sta_cui (m : radius_msg) (s : rsta) : run rsta :=
  match radius_msg_get_attr_ptr m RADIUS_ATTR_CHARGEABLE_USER_IDENTITY None with
  | None => mret s
  | Some (p, len) =>
      oom ← alloc;
      b ← or_abort (wpabuf_alloc_copy oom (slice (octets m) p len));
      mret (match b with
            | Some b => on_machine (radius_cui ::= Some b)%cmd s
            | None => s
            end)
  end.

Definition ap_call_ (c : ap_call) : cmd rsta := update ap_calls (cons c).

(** The VLAN of an Access-Accept; the result is whether the station may go on. *)
Definition accept_vlan cf (m : radius_msg) (s : rsta) : run (bool * rsta) :=
  let v := if dynamic_vlan cf =? DYNAMIC_VLAN_DISABLED then no_vlan
           else let '(res, untagged, tagged) := radius_msg_get_vlanid m MAX_NUM_TAGGED_VLAN in
                mk_vlan_description (negb (res =? 0)) untagged tagged in
  if notempty v && negb (hostapd_vlan_valid (vlans cf) v) then
    let s := ap_call_ (ap_sta_set_vlan no_vlan) (on_machine (authFail ::= true)%cmd s) in
    _ ← ask;
    mret (false, s)
  else if (dynamic_vlan cf =? DYNAMIC_VLAN_REQUIRED) && negb (notempty v) then
    mret (false, on_machine (authFail ::= true)%cmd s)
  else
    let s := ap_call_ (ap_sta_set_vlan v) s in
    failed ← ask;
    if failed : bool then mret (false, s) else
    if sta_flag WLAN_STA_ASSOC (port s) then
      let s := ap_call_ ap_sta_bind_vlan s in
      failed ← ask;
      mret (negb failed, s)
    else mret (true, s).

Definition handle_accept cf (m req : radius_msg) (secret : list Z) (timeout : option Z)
    (termination_action : Z) (s : rsta) : run (bool * rsta) :=
  '(ok, s) ← accept_vlan cf m s;
  if negb ok then mret (false, s) else
  let s := setter session_timeout_set (fun _ => non_null timeout) s in
  let s := setter session_timeout (fun _ => default 0 timeout) s in
  let s := match timeout with
           | Some t =>
               if termination_action =? RADIUS_TERMINATION_ACTION_RADIUS_REQUEST
               then on_machine (reAuthPeriod ::= t)%cmd s
               else ap_call_ (ap_sta_session_timeout t) s
           | None => s
           end in
  let s := on_machine (eap_if ∷ aaaSuccess ::= true)%cmd s in
  s ← ieee802_1x_get_keys m req secret s;
  s ← ieee802_1x_store_radius_class cf m s;
  s ← ieee802_1x_update_sta_identity m s;
  s ← ieee802_1x_update_sta_cui m s;
  mret (true, s).

(** [switch (hdr->code)]; the result is [override_eapReq]. *)
Definition handle_code cf (m req : radius_msg) (secret : list Z) (timeout : option Z)
    (termination_action : Z) (s : rsta) : run (bool * rsta) :=
  if hdr_code m =? RADIUS_CODE_ACCESS_ACCEPT then
    handle_accept cf m req secret timeout termination_action s
  else if hdr_code m =? RADIUS_CODE_ACCESS_REJECT then
    mret (true, on_machine (eap_if ∷ aaaFail ::= true)%cmd s)
  else
    mret (false, on_machine (eap_if ∷ aaaEapReq ::= true ;;
                             eap_if ∷ aaaMethodTimeout ::= i32 (default 0 timeout))%cmd s).

(** The station from the response on; its message is [m]. *)
Definition receive_response cf (m req : radius_msg) (secret : list Z) (s : rsta) : run rsta :=
  let s := on_machine (radius_identifier ::= -1)%cmd s in
  let s := setter last_recv_radius (fun _ => Some m) s in
  let timeout := radius_msg_get_attr_int32 m RADIUS_ATTR_SESSION_TIMEOUT in
  let action := default RADIUS_TERMINATION_ACTION_DEFAULT
                  (radius_msg_get_attr_int32 m RADIUS_ATTR_TERMINATION_ACTION) in
  let s := if (conf_acct_interim_interval cf =? 0) && (hdr_code m =? RADIUS_CODE_ACCESS_ACCEPT)
           then match radius_msg_get_attr_int32 m RADIUS_ATTR_ACCT_INTERIM_INTERVAL with
                | Some i => if i <? 60 then s else setter acct_interim_interval (fun _ => i32 i) s
                | None => s
                end
           else s in
  '(override_eapReq, s) ← handle_code cf m req secret timeout action s;
  s ← ieee802_1x_decapsulate_radius s;
  let s := if override_eapReq : bool then on_machine (eap_if ∷ aaaEapReq ::= false)%cmd s else s in
  mret (on_machine eapol_auth_step s).

(** An Access-Reject without an EAP message may go without
    Message-Authenticator. *)
Definition reject_without_eap (m : radius_msg) : bool :=
  (hdr_code m =? RADIUS_CODE_ACCESS_REJECT)
  && (fst (radius_msg_get_attr m RADIUS_ATTR_MESSAGE_AUTHENTICATOR None 0) <? 0)
  && (fst (radius_msg_get_attr m RADIUS_ATTR_EAP_MESSAGE None 0) <? 0).

(** [ieee802_1x_search_radius_identifier]: the place of the station. *)
Definition waits_for (id : Z) (s : rsta) : bool :=
  match eapol_machine (port s) with
  | Some sm => (0 <=? radius_identifier sm) && (radius_identifier sm =? id)
  | None => false
  end.
Fixpoint search_station (id : Z) (l : list rsta) : option (nat * rsta) :=
  match l with
  | [] => None
  | s :: l => if waits_for id s then Some (O, s)
              else option_map (fun '(i, s) => (Datatypes.S i, s)) (search_station id l)
  end.

(** The handler over the stations of the access point. *)
Definition ieee802_1x_receive_auth cf (m req : radius_msg) (secret : list Z) (l : list rsta)
    : run (RadiusRxResult * list rsta) :=
  match search_station (hdr_identifier m) l with
  | None => mret (RADIUS_RX_UNKNOWN, l)
  | Some (i, s) =>
      '(bad, m) ← (if reject_without_eap m then mret (false, m)
                   else radius_msg_verify m secret (Some req) true);
      if bad : bool then mret (RADIUS_RX_INVALID_AUTHENTICATOR, l) else
      if negb (hdr_code m =? RADIUS_CODE_ACCESS_ACCEPT) && negb (hdr_code m =? RADIUS_CODE_ACCESS_REJECT)
         && negb (hdr_code m =? RADIUS_CODE_ACCESS_CHALLENGE) then mret (RADIUS_RX_UNKNOWN, l) else
      s ← receive_response cf m req secret s;
      mret (RADIUS_RX_QUEUED, <[i := s]> l)
  end.
End ap.
