(* ===== verification/RadiusAccess.v ===== *)
(** * RADIUS between the access point and its servers

    What a response does to the station it is for ([ieee802_1x_receive_auth]
    behind [radius_client_receive]), and what the access point sends. *)

From S2P Require Import Prelude.
From S2P Require Import Eloop.
From S2P Require Import Wpabuf.
From S2P Require Import Common.
From S2P Require Import EapCommon.
From S2P Require Import EapServer.
From S2P Require Import EapolAuth.
From S2P Require Import EapolPort.
From S2P Require Import Ieee8021x.
From S2P Require Import Hash.
From S2P Require Import RadiusMsg.
From S2P Require Import RadiusAuthority.
From S2P Require Import RadiusAttrs.
From S2P Require Import RadiusKeys.
From S2P Require Import RadiusServer.
From S2P Require Import RadiusClient.
From S2P Require Import RadiusReplies.
From S2P Require Import RadiusAp.

(** ** Reading attributes *)

Lemma find_attr_none m ps l t : Forall2 (view m) ps l -> find_attr m ps t = None -> Forall (fun a => a.1 <> t) l.
Proof.
  intros V. unfold find_attr. induction V as [|p a ps l (Ht & _) V IH]; intros H; [constructor|].
  rewrite filter_cons in H. rewrite Ht in H. destruct (decide (a.1 = t)); [done|]. constructor; [done|by apply IH].
Qed.

Lemma find_attr_some m ps l t p : Forall2 (view m) ps l -> find_attr m ps t = Some p ->
  exists v, view m p (t, v) /\ List.In (t, v) l.
Proof.
  intros V. unfold find_attr. induction V as [|q a ps l Va V IH]; intros H; [done|].
  rewrite filter_cons in H. destruct Va as (Ht & Hv). rewrite Ht in H. destruct (decide (a.1 = t)) as [E|E].
  - injection H as <-. exists a.2. destruct a as [t' v]. cbn [fst snd] in *. rewrite E in *.
    split; [exact (conj Ht Hv)|left; reflexivity].
  - destruct (IH H) as (v & H1 & H2). exists v. split; [done|by right].
Qed.

Lemma get_attr_absent m h l t :
  holds m h l -> fst (radius_msg_get_attr m t None 0) < 0 -> Forall (fun a => a.1 <> t) l.
Proof.
  intros H. unfold radius_msg_get_attr. destruct (find_attr _ _ _) as [p|] eqn:E.
  - destruct (find_attr_some _ _ _ _ _ (holds_views _ _ _ H) E) as (v & (_ & -> & _) & _). cbn [snd].
    pose proof (zlen_nonneg v). unfold sizeof_radius_attr_hdr. destruct (Z.ltb_spec (2 + zlen v) 2); [lia|].
    cbn [fst]. lia.
  - intros _. by apply (find_attr_none m (attr_pos m) l t (holds_views _ _ _ H)).
Qed.

(** ** Octets that are saved, overwritten and written back *)

(** What [poke] does to the octets. *)
Definition over (off : Z) (d l : list Z) : list Z := take (length l) (mem_write off d l).

Lemma octets_poke off d m : octets (poke off d m) = over off d (octets m).
Proof. reflexivity. Qed.

Lemma length_over off d l : (Z.to_nat off <= length l)%nat -> length (over off d l) = length l.
Proof. intros H. unfold over, mem_write. rewrite length_take, !length_app, length_take, length_drop. lia. Qed.

Lemma lookup_over off d l i : (Z.to_nat off <= length l)%nat -> (i < length l)%nat ->
  over off d l !! i =
    if decide (Z.to_nat off <= i < Z.to_nat off + length d)%nat then d !! (i - Z.to_nat off)%nat else l !! i.
Proof.
  intros Hn Hi. unfold over, mem_write. rewrite lookup_take_lt by done. set (n := Z.to_nat off) in *.
  destruct (decide (i < n)%nat) as [H|H].
  - rewrite lookup_app_l by (rewrite length_take; lia). rewrite lookup_take_lt by done. by rewrite decide_False by lia.
  - rewrite lookup_app_r by (rewrite length_take; lia). rewrite length_take, Nat.min_l by lia.
    destruct (decide (i - n < length d)%nat) as [H1|H1].
    + rewrite lookup_app_l by done. by rewrite decide_True by lia.
    + rewrite lookup_app_r by lia. rewrite lookup_drop, decide_False by lia. f_equal. lia.
Qed.

Lemma lookup_slice l i n j : (j < Z.to_nat n)%nat -> slice l i n !! j = l !! (Z.to_nat i + j)%nat.
Proof. intros H. unfold slice. by rewrite lookup_take_lt, lookup_drop. Qed.

Lemma over_back off l k z ra :
  20 <= zlen l -> 20 <= off <= zlen l -> off + 16 <= zlen l + Z.of_nat k -> length z = 16%nat -> length ra = 16%nat ->
  over 4 (slice (over off z l) 4 16) (over off (slice (l ++ replicate k 0) off 16) (over 4 ra (over off z l))) = l.
Proof.
  intros H20 Ho Hk Hz Hra. unfold zlen in *.
  set (orig := slice (l ++ replicate k 0) off 16).
  assert (Lo : length orig = 16%nat).
  { unfold orig, slice. rewrite length_take, length_drop, length_app, length_replicate. lia. }
  assert (L1 : length (over off z l) = length l) by (apply length_over; lia).
  assert (L2 : length (over 4 ra (over off z l)) = length l) by (rewrite length_over; lia).
  assert (L3 : length (over off orig (over 4 ra (over off z l))) = length l) by (rewrite length_over; lia).
  assert (Ls : length (slice (over off z l) 4 16) = 16%nat) by (unfold slice; rewrite length_take, length_drop; lia).
  apply list_eq_same_length with (n := length l); [done|rewrite length_over; lia|].
  intros i x y Hi Hx Hy. rewrite lookup_over, Ls in Hx by lia. case_decide as D.
  - rewrite lookup_slice, lookup_over in Hx by lia. rewrite decide_False in Hx by lia.
    replace (Z.to_nat 4 + (i - Z.to_nat 4))%nat with i in Hx by lia. congruence.
  - rewrite lookup_over, Lo in Hx by lia. case_decide as D1.
    + unfold orig in Hx. rewrite lookup_slice in Hx by lia. rewrite lookup_app_l in Hx by lia.
      replace (Z.to_nat off + (i - Z.to_nat off))%nat with i in Hx by lia. congruence.
    + rewrite lookup_over, decide_False, lookup_over, decide_False in Hx by lia. congruence.
Qed.

Lemma pc_peek {A} m off n (f : list Z -> run A) Q :
  (off + n <= size (buf m) ->
   pc (f (slice (octets m ++ replicate (Z.to_nat (size (buf m) - zlen (octets m))) 0) off n)) Q) ->
  pc (peek_unchecked m off n ≫= f) Q.
Proof.
  intros H. unfold peek_unchecked. destruct (Z.ltb_spec (size (buf m)) (off + n)); apply pc_bind; [apply pc_halt|].
  by apply pc_ret, H.
Qed.
Lemma pc_poke {A} off d m (f : radius_msg -> run A) Q :
  pc (f (poke off d m)) Q -> pc (poke_unchecked off d m ≫= f) Q.
Proof. intros H. unfold poke_unchecked. destruct (_ <? _); apply pc_bind; [apply pc_halt|by apply pc_ret]. Qed.

(** Whatever the size of the Message-Authenticator: the message is as it was,
    and the Response Authenticator is right. *)
Lemma verify_same m h l secret sent hs ls :
  holds m h l -> holds sent hs ls ->
  pc (radius_msg_verify m secret (Some sent) true) (fun '(bad, m') => m' = m /\
    (bad = false -> authenticator h = response_mac secret h (authenticator hs) l)).
Proof.
  intros H Hs. unfold radius_msg_verify. destruct (holds_header _ _ _ Hs) as (_ & _ & Es & _). rewrite Es.
  destruct (holds_header _ _ _ H) as (_ & _ & Eh & _).
  destruct (ok_auth _ (holds_hdr _ _ _ Hs)) as [_ Az]. apply pc_bind.
  assert (Last : forall bad, pc (if bad : bool then mret (true, m)
    else mret (memcmp_differs (response_authenticator m (authenticator hs) secret) (hdr_authenticator m), m))
    (fun '(bad, m') => m' = m /\ (bad = false -> authenticator h = response_mac secret h (authenticator hs) l))).
  { intros []; apply pc_ret; (split; [done|]); [done|].
    rewrite memcmp_same, (response_authenticator_holds _ _ _ _ _ H), Eh. done. }
  unfold radius_msg_verify_msg_auth. pose proof (find_ma m h l H) as F.
  destruct (find_message_authenticator _ _ _) as [[p|]|]; [|apply pc_ret; exact (Last true)..].
  destruct F as (l1 & v & l2 & -> & _ & _ & -> & _). unfold sizeof_radius_attr_hdr, MD5_MAC_LEN.
  set (off := 20 + zlen (encs l1) + 2).
  pose proof (holds_len _ _ _ H) as Hl. pose proof (holds_room _ _ _ H) as Hr.
  rewrite encs_app, encs_cons, !zlen_app, zlen_enc in Hl. cbn [snd] in Hl.
  pose proof (zlen_nonneg (encs l1)) as Z1. pose proof (zlen_nonneg (encs l2)) as Z2. pose proof (zlen_nonneg v) as Z3.
  apply pc_peek. intros Hroom. apply pc_poke. cbv zeta. set (orig := slice (octets m ++ _) off 16).
  set (m1 := poke off zero_mac m). set (m2 := set_authenticator (authenticator hs) m1).
  destruct (hmac_md5_digest secret (octets m2)) as (mac & -> & _). apply pc_poke, pc_ret. cbv zeta.
  enough (set_authenticator (hdr_authenticator m1) (poke off orig m2) = m) as -> by exact (Last _).
  apply msg_ext; [|reflexivity..]. unfold set_authenticator, m2, hdr_authenticator, m1. rewrite !octets_poke.
  apply over_back; [lia|lia| |done|].
  - rewrite Z2Nat.id by lia. lia.
  - unfold zlen in Az. lia.
Qed.

Section access.
Context {E : Type} `{EE : !EapEngine E, EL : !EapEngineLaws E, EI : !EapIdentity E}.
Abbreviation S := (eapol_sm E).
Abbreviation rsta := (radius_sta E).
#[local] Existing Instance set_eap_if.
Implicit Types (cf : radius_bss) (s : rsta) (sm : S).

(** ** What an unverified response leaves alone *)

(** The success and the key, and the EAP message, that the machine of the
    station has from a server. *)
Definition aaa_key s : option (bool * option (list Z) * bool) :=
  option_map (fun sm => (aaaSuccess (eap_if sm), aaaEapKeyData (eap_if sm), aaaEapKeyAvailable (eap_if sm)))
    (eapol_machine (port s)).
Definition aaa_eap s : option (option wpabuf) :=
  option_map (fun sm => aaaEapReqData (eap_if sm)) (eapol_machine (port s)).

Definition key_kept s s' : Prop := aaa_key s' = aaa_key s.
Definition eap_kept s s' : Prop := aaa_eap s' = aaa_eap s.

Lemma eap_if_set g sm : eap_if (setter eap_if g sm) = g (eap_if sm).
Proof. apply engine_update_if. Qed.

Lemma on_machine_machine (c : cmd S) s : eapol_machine (port (on_machine c s)) = option_map c (eapol_machine (port s)).
Proof. reflexivity. Qed.

(** A statement on the machine that leaves those members alone. *)
Lemma on_machine_key (c : cmd S) s :
  (forall sm, aaaSuccess (eap_if (c sm)) = aaaSuccess (eap_if sm) /\
     aaaEapKeyData (eap_if (c sm)) = aaaEapKeyData (eap_if sm) /\
     aaaEapKeyAvailable (eap_if (c sm)) = aaaEapKeyAvailable (eap_if sm)) ->
  aaa_key (on_machine c s) = aaa_key s.
Proof.
  intros H. unfold aaa_key. rewrite on_machine_machine. destruct (eapol_machine (port s)) as [sm|]; [|done].
  cbn [option_map]. by destruct (H sm) as (-> & -> & ->).
Qed.

Lemma on_machine_eap (c : cmd S) s :
  (forall sm, aaaEapReqData (eap_if (c sm)) = aaaEapReqData (eap_if sm)) -> aaa_eap (on_machine c s) = aaa_eap s.
Proof.
  intros H. unfold aaa_eap. rewrite on_machine_machine. destruct (eapol_machine (port s)) as [sm|]; [|done].
  cbn [option_map]. by rewrite H.
Qed.

(** Statements on the machine, opened. *)
Ltac machine_eqs :=
  intros ?sm; open_cmds; rewrite ?eap_if_set;
  repeat match goal with |- context [if ?b then _ else _] => destruct b end; repeat split; reflexivity.
Ltac keeps := first [apply on_machine_key; machine_eqs|apply on_machine_eap; machine_eqs].

Lemma decapsulate_key s : pc (ieee802_1x_decapsulate_radius s) (key_kept s).
Proof.
  unfold ieee802_1x_decapsulate_radius, key_kept. destruct (last_recv_radius s) as [m|]; [|apply pc_ret; keeps].
  apply pc_bind, pc_any. intros [b|]; [|apply pc_ret; keeps]. destruct (_ <? _); apply pc_ret; keeps.
Qed.

Lemma decapsulate_eap m h l s :
  last_recv_radius s = Some m -> holds m h l -> Forall (fun a => a.1 <> EAP) l ->
  pc (ieee802_1x_decapsulate_radius s) (eap_kept s).
Proof.
  intros Es H Hn. unfold ieee802_1x_decapsulate_radius, eap_kept. rewrite Es. unfold radius_msg_get_eap.
  rewrite (eap_len_views _ _ _ (holds_views _ _ _ H)), (eap_of_other _ Hn).
  apply pc_bind. apply pc_ret. apply pc_ret. keeps.
Qed.

Definition untouched s s' : Prop := key_kept s s' /\ eap_kept s s'.

(** Only Access-Accept gives the machine success and a key. *)
Lemma response_key cf m req secret s :
  hdr_code m <> RADIUS_CODE_ACCESS_ACCEPT -> pc (receive_response cf m req secret s) (key_kept s).
Proof.
  intros Hc. unfold receive_response. cbv zeta.
  set (s1 := setter last_recv_radius _ _). assert (H1 : aaa_key s1 = aaa_key s).
  { change (aaa_key (on_machine (radius_identifier ::= -1)%cmd s) = aaa_key s). keeps. }
  clearbody s1. destruct (Z.eqb_spec (hdr_code m) RADIUS_CODE_ACCESS_ACCEPT) as [|_]; [done|].
  rewrite andb_false_r. unfold handle_code.
  destruct (Z.eqb_spec (hdr_code m) RADIUS_CODE_ACCESS_ACCEPT) as [|_]; [done|].
  apply pc_bind. eapply (pc_mono _ (fun r => aaa_key r.2 = aaa_key s)).
  { destruct (_ =? _); apply pc_ret; cbn [snd]; (etransitivity; [keeps|exact H1]). }
  intros [override s2] H2. cbn [snd] in H2. apply pc_bind. eapply pc_mono; [apply decapsulate_key|].
  intros s3 H3. apply pc_ret. unfold key_kept in *.
  etransitivity; [keeps|]. rewrite <- H2, <- H3. destruct override; [keeps|done].
Qed.

(** A refusal without an EAP message gives it nothing. *)
Lemma reject_eap cf m h l req secret s :
  holds m h l -> reject_without_eap m = true -> pc (receive_response cf m req secret s) (eap_kept s).
Proof.
  intros H Hr. unfold reject_without_eap in Hr. apply andb_prop in Hr as [Hr He]. apply andb_prop in Hr as [Hc _].
  apply Z.eqb_eq in Hc. apply Z.ltb_lt in He. pose proof (get_attr_absent _ _ _ _ H He) as Hn.
  unfold receive_response. cbv zeta. rewrite Hc. rewrite andb_false_r.
  set (s1 := setter last_recv_radius _ _).
  assert (H1 : aaa_eap s1 = aaa_eap s).
  { change (aaa_eap (on_machine (radius_identifier ::= -1)%cmd s) = aaa_eap s). keeps. }
  assert (L1 : last_recv_radius s1 = Some m) by reflexivity. clearbody s1.
  unfold handle_code. rewrite Hc. apply pc_bind, pc_ret. apply pc_bind.
  set (s2 := on_machine _ s1). assert (H2 : aaa_eap s2 = aaa_eap s) by (etransitivity; [unfold s2; keeps|exact H1]).
  assert (L2 : last_recv_radius s2 = Some m) by exact L1. clearbody s2.
  eapply pc_mono; [apply (decapsulate_eap m h l s2 L2 H Hn)|]. intros s3 H3. apply pc_ret. unfold eap_kept in *.
  etransitivity; [keeps|]. etransitivity; [keeps|]. by rewrite H3.
Qed.

(** ** A response, from the socket to the station *)

Lemma pc_of_wp {A} (e : run A) Q : wp false e Q -> pc e Q.
Proof. intros H mem a mem' Ea. destruct (H mem) as (b & mem1 & Eb & _ & HQ); [done|]. congruence. Qed.

(** A response that answers the request: its authenticators are right. *)
Definition genuine (secret : list Z) (sent : radius_msg) (h : header) (l : list attribute) : Prop :=
  exists hs ls, holds sent hs ls /\ authenticator h = response_mac secret h (authenticator hs) l /\
    (ma_sized l -> ma_valid secret h (authenticator hs) l).

Definition pending_ok (d : radius_client_data) : Prop :=
  Forall (fun e => exists hs ls, holds (e_msg e) hs ls) (msgs d).

Lemma verify_genuine m h l secret sent hs ls :
  holds m h l -> holds sent hs ls ->
  pc (radius_msg_verify m secret (Some sent) true) (fun '(bad, m') =>
    m' = m /\ (bad = false -> genuine secret sent h l)).
Proof.
  intros H Hs mem [bad m'] mem' E1. destruct (verify_same m h l secret sent hs ls H Hs mem _ mem' E1) as [-> Hv].
  split; [done|]. intros ->. exists hs, ls. split; [done|]. split; [by apply Hv|]. intros Hz.
  pose proof (pc_of_wp _ _ (verify_wp false m h l secret sent hs ls true H Hs (fun _ => Hz)) mem _ mem' E1) as [_ Hw].
  by apply Hw.
Qed.

Lemma search_found id (l : list rsta) i s :
  search_station id l = Some (i, s) -> l !! i = Some s /\ waits_for id s = true.
Proof.
  revert i. induction l as [|s0 l IH]; intros i H; [done|]. cbn [search_station] in H.
  destruct (waits_for id s0) eqn:W; [by injection H as <- <-|].
  destruct (search_station id l) as [[j s1]|] eqn:Ej; [|done]. injection H as <- <-. by apply (IH j).
Qed.

(** What the station has got from a response that is not genuine, and from
    one that is. *)
Definition reached (secret : list Z) (sent : radius_msg) (h : header) (l : list attribute) s s' : Prop :=
  (genuine secret sent h l \/
   code h = RADIUS_CODE_ACCESS_REJECT /\ no_ma l /\ Forall (fun a => a.1 <> EAP) l) /\
  (aaa_key s' <> aaa_key s -> code h = RADIUS_CODE_ACCESS_ACCEPT /\ genuine secret sent h l) /\
  (aaa_eap s' <> aaa_eap s -> genuine secret sent h l).

Lemma receive_auth_reached cf m h l req hs ls secret (sts : list rsta) :
  holds m h l -> holds req hs ls ->
  pc (ieee802_1x_receive_auth cf m req secret sts) (fun '(_, sts') =>
    sts' = sts \/
    exists i s s', sts !! i = Some s /\ waits_for (identifier h) s = true /\ sts' = <[i := s']> sts /\
      reached secret req h l s s').
Proof.
  intros H Hr. destruct (holds_header _ _ _ H) as (Ec & Ei & _). unfold ieee802_1x_receive_auth. rewrite Ei.
  destruct (search_station _ _) as [[i s]|] eqn:F; [|apply pc_ret; by left].
  destruct (search_found _ _ _ _ F) as [Hi Hw]. clear F.
  apply pc_bind. destruct (reject_without_eap m) eqn:R.
  - apply pc_ret. pose proof R as R'. unfold reject_without_eap in R'. rewrite Ec in R' |- *.
    apply andb_prop in R' as [R1 R3]. apply andb_prop in R1 as [R1 R2].
    apply Z.eqb_eq in R1. apply Z.ltb_lt in R2, R3. rewrite R1.
    change (negb _ && negb _ && negb _) with false. cbv iota. apply pc_bind.
    eapply pc_mono; [|intros s' Hs'; apply pc_ret; right; exists i, s, s'; split; [exact Hi|]; split; [exact Hw|];
      split; [reflexivity|exact Hs']].
    intros mem s' mem' E1. split; [right; split; [done|]; split|split].
    + by apply (get_attr_absent _ _ _ _ H).
    + by apply (get_attr_absent _ _ _ _ H).
    + intros Hk. destruct Hk. assert (Hc : hdr_code m <> RADIUS_CODE_ACCESS_ACCEPT) by (rewrite Ec, R1; discriminate).
      exact (response_key cf m req secret s Hc mem s' mem' E1).
    + intros Hk. destruct Hk. exact (reject_eap cf m h l req secret s H R mem s' mem' E1).
  - eapply pc_mono; [exact (verify_genuine m h l secret req hs ls H Hr)|]. intros [[] m'] [-> Hg]; [apply pc_ret; by left|].
    destruct (_ && _); [apply pc_ret; by left|]. apply pc_bind.
    eapply pc_mono; [|intros s' Hs'; apply pc_ret; right; exists i, s, s'; split; [exact Hi|]; split; [exact Hw|];
      split; [reflexivity|exact Hs']].
    intros mem s' mem' E1. specialize (Hg eq_refl). split; [by left|]. split; [|done]. intros Hk. split; [|done].
    destruct (Z.eq_dec (code h) RADIUS_CODE_ACCESS_ACCEPT) as [Ea|Ea]; [done|]. destruct Hk.
    assert (Hc : hdr_code m <> RADIUS_CODE_ACCESS_ACCEPT) by by rewrite Ec.
    exact (response_key cf m req secret s Hc mem s' mem' E1).
Qed.

Lemma call_one {T} (f : radius_msg -> radius_msg -> list Z -> T -> run (RadiusRxResult * T)) m req secret t Q :
  pc (f m req secret t) (fun '(_, t') => Q t') ->
  pc (call_handlers [f] m req secret t) (fun '(_, _, t') => Q t').
Proof.
  intros H. cbn [call_handlers]. apply pc_bind. eapply pc_mono; [exact H|]. intros [[] t'] HQ; by repeat apply pc_ret.
Qed.

Lemma response_reached cf acct o d (sts : list rsta) :
  bytes o -> pending_ok d ->
  pc (radius_client_receive [ieee802_1x_receive_auth cf] acct true o d sts) (fun '(_, sts') =>
    sts' = sts \/
    exists h l e i s s', decodes o h l /\ List.In e (msgs d) /\ matches RADIUS_AUTH (identifier h) e = true /\
      sts !! i = Some s /\ waits_for (identifier h) s = true /\ sts' = <[i := s']> sts /\
      reached (e_secret e) (e_msg e) h l s s').
Proof.
  intros Hb Hp. unfold radius_client_receive. destruct (_ <=? _); [apply pc_ret; by left|]. apply pc_bind.
  eapply pc_mono; [exact (pc_of_wp _ _ (parse_wp false o Hb))|]. intros [m|]; [|intros _; apply pc_ret; by left].
  intros (h & l & D & H). cbv zeta. destruct (holds_header _ _ _ H) as (_ & Ei & _). rewrite Ei.
  assert (Em : msgs (count_response (hdr_code m) true d) = msgs d).
  { unfold count_response. by repeat match goal with |- context [if ?b then _ else _] => destruct b end. }
  rewrite Em. destruct (List.find _ _) as [e|] eqn:F; [|apply pc_ret; by left].
  apply find_some in F as [Hin Hm].
  destruct (proj1 (List.Forall_forall _ _) Hp e Hin) as (hs & ls & Hs). set (d1 := unlink_entry _ _). clearbody d1.
  apply pc_bind. eapply pc_mono; [apply call_one, (receive_auth_reached cf m h l _ hs ls _ sts H Hs)|].
  intros [[taken invalid] sts'] HQ.
  assert (G : sts' = sts \/ exists h l e i s s', decodes o h l /\ List.In e (msgs d) /\ matches RADIUS_AUTH (identifier h) e = true /\
      sts !! i = Some s /\ waits_for (identifier h) s = true /\ sts' = <[i := s']> sts /\
      reached (e_secret e) (e_msg e) h l s s').
  { destruct HQ as [->|(i & s & s' & H1 & H2 & H3 & H4)]; [by left|right]. by exists h, l, e, i, s, s'. }
  destruct taken; by apply pc_ret.
Qed.

(** ** An Access-Accept reaches the machine *)

Definition iface s : option eap_eapol_interface := option_map eap_if (eapol_machine (port s)).

(** The station but for what the machine has behind its interface. *)
Definition same_if s s' : Prop := iface s' = iface s /\ last_recv_radius s' = last_recv_radius s.

Lemma on_machine_iface (c : cmd S) g s :
  (forall sm, eap_if (c sm) = g (eap_if sm)) -> iface (on_machine c s) = option_map g (iface s).
Proof.
  intros H. unfold iface. rewrite on_machine_machine. destruct (eapol_machine (port s)) as [sm|]; [|done].
  cbn [option_map]. by rewrite H.
Qed.
Lemma on_machine_same (c : cmd S) s : (forall sm, eap_if (c sm) = eap_if sm) -> same_if s (on_machine c s).
Proof.
  intros H. split; [|done]. rewrite (on_machine_iface c (fun i => i)) by done. by destruct (iface s).
Qed.

Ltac same_iface :=
  match goal with |- iface (on_machine ?c ?s) = _ => exact (proj1 (on_machine_same c s ltac:(intros ?sm; reflexivity))) end.

Lemma accept_vlan_wp cf m s :
  dynamic_vlan cf = DYNAMIC_VLAN_DISABLED ->
  wp true (accept_vlan cf m s) (fun '(ok, s') => ok = true /\ same_if s s').
Proof.
  intros Hv. unfold accept_vlan. rewrite Hv. change (DYNAMIC_VLAN_DISABLED =? DYNAMIC_VLAN_DISABLED) with true.
  cbv iota zeta. change (notempty no_vlan && _) with false. change (_ && negb (notempty no_vlan)) with false. cbv iota.
  apply wp_bind. eapply wp_mono; [apply wp_alloc|]. intros failed Hf. rewrite (Hf eq_refl).
  destruct (sta_flag _ _); [|by apply wp_ret]. apply wp_bind. eapply wp_mono; [apply wp_alloc|].
  intros failed' Hf'. rewrite (Hf' eq_refl). by apply wp_ret.
Qed.

Lemma next_class_some fuel m : forall p, exists q, (next_class fuel m (Some p)).2 = Some q.
Proof.
  induction fuel as [|fuel IH]; intros p; cbn [next_class]; [by exists p|].
  destruct (radius_msg_get_attr_ptr _ _ _) as [[q len]|]; [|by exists p]. destruct (_ <? _); [apply IH|by eexists].
Qed.

Lemma class_loop_wp ok m : forall n cur nclass,
  (exists q, (next_class (Datatypes.S (length (attr_pos m))) m cur).2 = Some q) ->
  wp ok (class_loop n m cur nclass) (fun _ => True).
Proof.
  induction n as [|n IH]; intros cur nclass Hc; cbn [class_loop]; [by apply wp_ret|].
  set (fuel := Datatypes.S _) in *. clearbody fuel. destruct Hc as [[p len] Hc].
  destruct (next_class fuel m cur) as [found cur'] eqn:F. cbn [snd] in Hc. subst cur'.
  apply wp_bind. eapply wp_mono; [apply wp_alloc|]. intros [] _; [by apply wp_ret|].
  destruct found; [|by apply wp_ret]. apply IH. apply next_class_some.
Qed.

Lemma count_positive m t n ps c :
  c < fold_left (fun count p => if (attr_type m p =? t) && (sizeof_radius_attr_hdr + n <=? attr_length m p)
                                then count + 1 else count) ps c ->
  exists p, List.In p ps /\ attr_type m p = t.
Proof.
  revert c. induction ps as [|p ps IH]; intros c H; cbn [fold_left] in H; [lia|].
  destruct (Z.eqb_spec (attr_type m p) t) as [E1|E1]; [exists p; split; [by left|done]|].
  cbn [andb] in H. destruct (IH c H) as (q & Hq & Et). exists q. split; [by right|done].
Qed.

Lemma get_attr_ptr_some m h l t p :
  holds m h l -> List.In p (attr_pos m) -> attr_type m p = t -> exists q, radius_msg_get_attr_ptr m t None = Some q.
Proof.
  intros H Hp Ht. unfold radius_msg_get_attr_ptr. pose proof (holds_views _ _ _ H) as V.
  destruct (filter _ _) as [|q qs] eqn:F.
  - exfalso. assert (Hin : p ∈ filter (fun p => (attr_type m p =? t) && true = true) (attr_pos m)).
    { apply list_elem_of_filter. split; [by rewrite Ht, Z.eqb_refl|by apply list_elem_of_In]. }
    rewrite F in Hin. by apply not_elem_of_nil in Hin.
  - cbn [head]. assert (Hin : q ∈ attr_pos m).
    { assert (Hq : q ∈ q :: qs) by constructor. rewrite <- F in Hq. by apply list_elem_of_filter in Hq as [_ Hq]. }
    apply list_elem_of_lookup in Hin as [i Hi]. destruct (Forall2_lookup_l _ _ _ _ _ V Hi) as (a & _ & (_ & -> & _)).
    pose proof (zlen_nonneg a.2). unfold sizeof_radius_attr_hdr. destruct (Z.ltb_spec (2 + zlen a.2) 2); [lia|by eexists].
Qed.

Lemma store_class_wp cf m h l s :
  holds m h l -> wp true (ieee802_1x_store_radius_class cf m s) (same_if s).
Proof.
  intros H. unfold ieee802_1x_store_radius_class. destruct (_ || _); [by apply wp_ret|]. cbv zeta.
  destruct (Z.leb_spec (radius_msg_count_attr m RADIUS_ATTR_CLASS 1) 0) as [|Hc]; [by apply wp_ret|].
  apply wp_alloc_then; [done|]. apply wp_bind. eapply wp_mono; [apply class_loop_wp|intros r _; by apply wp_ret].
  destruct (count_positive _ _ _ _ _ Hc) as (p & Hp & Et).
  destruct (get_attr_ptr_some _ _ _ _ _ H Hp Et) as [[q len] Eq]. cbn [next_class option_map]. rewrite Eq.
  destruct (_ <? _); [apply next_class_some|by eexists].
Qed.

Lemma update_identity_wp m s : wp true (ieee802_1x_update_sta_identity m s) (same_if s).
Proof.
  unfold ieee802_1x_update_sta_identity. destruct (radius_msg_get_attr_ptr _ _ _) as [[p len]|]; [|by apply wp_ret].
  apply wp_bind. eapply wp_mono; [apply wp_alloc|]. intros oom Ho. rewrite (Ho eq_refl). apply wp_ret.
  by apply on_machine_same.
Qed.

Lemma update_cui_wp m s : wp true (ieee802_1x_update_sta_cui m s) (same_if s).
Proof.
  unfold ieee802_1x_update_sta_cui. destruct (radius_msg_get_attr_ptr _ _ _) as [[p len]|]; [|by apply wp_ret].
  apply wp_bind. eapply wp_mono; [apply wp_alloc|]. intros oom Ho. rewrite (Ho eq_refl). apply wp_bind.
  eapply wp_or_abort; [apply alloc_copy_ok|]. apply wp_ret. by apply on_machine_same.
Qed.

(** The key the machine has then. *)
Definition with_key (k : list Z) (i : eap_eapol_interface) : eap_eapol_interface :=
  setter aaaEapKeyAvailable (fun _ => true)
    (setter aaaEapKeyDataLen (fun _ => zlen k) (setter aaaEapKeyData (fun _ => Some k) i)).

Lemma zlen_swap (a b : list Z) : zlen a + zlen b = zlen (b ++ a).
Proof. rewrite zlen_app. lia. Qed.

Lemma get_keys_reached_wp m req secret send recv s :
  wp true (radius_msg_get_ms_keys (Some m) (Some req) secret) (fun r =>
    true = false \/ r = Some (mk_mppe_keys (Some send) (Some recv))) ->
  wp true (ieee802_1x_get_keys m req secret s) (fun s' =>
    iface s' = option_map (with_key (recv ++ send)) (iface s) /\ last_recv_radius s' = last_recv_radius s).
Proof.
  intros H. unfold ieee802_1x_get_keys. apply wp_bind. eapply wp_mono; [exact H|]. intros r [?| ->]; [done|].
  apply wp_bind. eapply wp_mono; [apply wp_alloc|]. intros oom Ho. rewrite (Ho eq_refl). apply wp_ret. split; [|done].
  apply on_machine_iface. intros sm. open_cmds. rewrite !eap_if_set, zlen_swap. reflexivity.
Qed.

Lemma decapsulate_wp m h l s :
  last_recv_radius s = Some m -> holds m h l -> 4 <= zlen (eap_of l) ->
  wp true (ieee802_1x_decapsulate_radius s) (fun s' => exists b, data b = eap_of l /\
    iface s' = option_map (fun i => setter aaaEapReqData (fun _ => Some b) (setter aaaEapReq (fun _ => true) i)) (iface s)).
Proof.
  intros Es H Hz. unfold ieee802_1x_decapsulate_radius. rewrite Es. apply wp_bind.
  eapply wp_mono; [exact (get_eap_wp true m h l H)|]. intros [b|].
  - intros [Hb _]. unfold wpabuf_len, wpabuf_head. rewrite Hb. unfold sizeof_eap_hdr.
    destruct (Z.ltb_spec (zlen (eap_of l)) 4); [lia|]. apply wp_ret. exists b. split; [done|].
    apply on_machine_iface. intros sm. open_cmds. rewrite !eap_if_set. by destruct (_ && _).
  - intros [E1|]; [|done]. rewrite E1 in Hz. change (zlen []) with 0 in Hz. lia.
Qed.

(** The interface of a machine that a server has accepted. *)
Definition accepted_if (k : list Z) (b : wpabuf) (i : eap_eapol_interface) : eap_eapol_interface :=
  setter aaaEapReq (fun _ => false)
    (setter aaaEapReqData (fun _ => Some b)
       (setter aaaEapReq (fun _ => true)
          (with_key k (setter aaaSuccess (fun _ => true) i)))).

Lemma option_map_map {A B C} (f : A -> B) (g : B -> C) (o : option A) :
  option_map g (option_map f o) = option_map (fun a => g (f a)) o.
Proof. by destruct o. Qed.

Definition with_success (i : eap_eapol_interface) : eap_eapol_interface := setter aaaSuccess (fun _ => true) i.

Lemma handle_accept_wp cf m h l req secret send recv timeout action s :
  dynamic_vlan cf = DYNAMIC_VLAN_DISABLED -> holds m h l ->
  wp true (radius_msg_get_ms_keys (Some m) (Some req) secret) (fun r =>
    true = false \/ r = Some (mk_mppe_keys (Some send) (Some recv))) ->
  wp true (handle_accept cf m req secret timeout action s) (fun '(override, s') => override = true /\
    iface s' = option_map (fun i => with_key (recv ++ send) (with_success i)) (iface s) /\
    last_recv_radius s' = last_recv_radius s).
Proof.
  intros Hv H Hk. unfold handle_accept. apply wp_bind. eapply wp_mono; [by apply accept_vlan_wp|].
  intros [ok s1] [-> [I1 L1]]. cbn [negb]. cbv zeta.
  set (s2 := match timeout with Some _ => _ | None => _ end).
  assert (H2 : same_if s s2).
  { split; unfold s2; (destruct timeout as [t|]; [destruct (action =? _)|]); try exact L1; try exact I1.
    etransitivity; [|exact I1]. same_iface. }
  destruct H2 as [I2 L2]. clearbody s2. clear s1 I1 L1.
  set (s3 := on_machine _ s2). assert (I3 : iface s3 = option_map with_success (iface s)).
  { rewrite <- I2. apply on_machine_iface. intros sm. open_cmds. by rewrite eap_if_set. }
  assert (L3 : last_recv_radius s3 = last_recv_radius s) by exact L2. clearbody s3. clear s2 I2 L2.
  apply wp_bind. eapply wp_mono; [by apply (get_keys_reached_wp m req secret send recv)|]. intros s4 [I4 L4].
  apply wp_bind. eapply wp_mono; [exact (store_class_wp cf m h l s4 H)|]. intros s5 [I5 L5].
  apply wp_bind. eapply wp_mono; [apply update_identity_wp|]. intros s6 [I6 L6].
  apply wp_bind. eapply wp_mono; [apply update_cui_wp|]. intros s7 [I7 L7]. apply wp_ret. split; [done|].
  split; [|congruence]. by rewrite I7, I6, I5, I4, I3, option_map_map.
Qed.

Lemma accept_response_wp cf m h l req secret send recv s :
  dynamic_vlan cf = DYNAMIC_VLAN_DISABLED -> holds m h l -> code h = RADIUS_CODE_ACCESS_ACCEPT ->
  wp true (radius_msg_get_ms_keys (Some m) (Some req) secret) (fun r =>
    true = false \/ r = Some (mk_mppe_keys (Some send) (Some recv))) ->
  4 <= zlen (eap_of l) ->
  wp true (receive_response cf m req secret s) (fun s' => exists b s0, data b = eap_of l /\
    s' = on_machine eapol_auth_step s0 /\ iface s' = option_map (accepted_if (recv ++ send) b) (iface s)).
Proof.
  intros Hv H Hc Hk Hz. destruct (holds_header _ _ _ H) as (Ec & _). rewrite Hc in Ec. unfold receive_response.
  cbv zeta. rewrite Ec. set (s1 := setter last_recv_radius _ _).
  assert (I1 : iface s1 = iface s).
  { change (iface (on_machine (radius_identifier ::= -1)%cmd s) = iface s). same_iface. }
  assert (L1 : last_recv_radius s1 = Some m) by reflexivity. clearbody s1.
  set (s2 := if _ && _ then _ else s1). assert (H2 : same_if s1 s2).
  { unfold s2. destruct (_ && _); [|done]. destruct (radius_msg_get_attr_int32 _ _); [|done]. by destruct (_ <? _). }
  destruct H2 as [I2 L2]. clearbody s2. unfold handle_code. rewrite Ec. apply wp_bind.
  eapply wp_mono; [exact (handle_accept_wp cf m h l req secret send recv _ _ s2 Hv H Hk)|].
  intros [override s3] (-> & I3 & L3). apply wp_bind.
  eapply wp_mono; [apply (decapsulate_wp m h l s3); [congruence|done|done]|]. intros s4 (b & Hb & I4). apply wp_ret.
  exists b, (on_machine (eap_if ∷ aaaEapReq ::= false)%cmd s4). split; [done|]. split; [done|].
  rewrite (on_machine_iface eapol_auth_step (fun i => i)) by done.
  rewrite (on_machine_iface _ (setter aaaEapReq (fun _ => false))) by (intros sm; open_cmds; by rewrite eap_if_set).
  by rewrite I4, I3, I2, I1, !option_map_map.
Qed.

Lemma wp_of_go {A} (e : run A) a Q : e [] = Go a [] -> Q a -> wp true e Q.
Proof. intros H HQ mem Hm. rewrite (Hm eq_refl). by exists a, []. Qed.

(** A response that its handler takes. *)
Lemma client_receive_wp {T} (f : radius_msg -> radius_msg -> list Z -> T -> run (RadiusRxResult * T)) acct o d t m e Q :
  zlen o < 3000 -> radius_msg_parse o [] = Go (Some m) [] ->
  List.find (matches RADIUS_AUTH (hdr_identifier m)) (msgs d) = Some e ->
  wp true (f m (e_msg e) (e_secret e) t) (fun r => r.1 = RADIUS_RX_QUEUED /\ Q r.2) ->
  wp true (radius_client_receive [f] acct true o d t) (fun '(d', t') =>
    msgs d' = List.filter (fun x => negb (e_self x =? e_self e)) (msgs d) /\ Q t').
Proof.
  intros Hz Hp He Hf. unfold radius_client_receive. destruct (Z.leb_spec 3000 (zlen o)); [lia|].
  apply wp_bind. apply (wp_of_go _ _ _ Hp). cbv zeta.
  assert (Em : msgs (count_response (hdr_code m) true d) = msgs d).
  { unfold count_response. by repeat match goal with |- context [if ?b then _ else _] => destruct b end. }
  rewrite Em, He. set (d1 := unlink_entry _ _).
  assert (E1 : msgs d1 = List.filter (fun x => negb (e_self x =? e_self e)) (msgs d)) by (by rewrite <- Em).
  clearbody d1. apply wp_bind. cbn [call_handlers]. apply wp_bind. eapply wp_mono; [exact Hf|].
  intros [r t'] [Hr HQ]. cbn [fst snd] in *. subst r. apply wp_ret. by apply wp_ret.
Qed.

(** The stations after station [i], which was [s], has been accepted. *)
Definition accepted_at (i : nat) s (key eap_msg : list Z) (sts sts' : list rsta) : Prop :=
  exists s' b s0, sts' = <[i := s']> sts /\ data b = eap_msg /\ s' = on_machine eapol_auth_step s0 /\
    iface s' = option_map (accepted_if key b) (iface s).

Lemma receive_accept_wp cf m h l req hr lr secret key eap_msg (sts : list rsta) i s :
  dynamic_vlan cf = DYNAMIC_VLAN_DISABLED -> reads secret hr lr eap_msg key m h l -> holds req hr lr ->
  search_station (identifier hr) sts = Some (i, s) -> 4 <= zlen eap_msg ->
  let half := key_half (zlen key) in
  wp true (ieee802_1x_receive_auth cf m req secret sts) (fun r => r.1 = RADIUS_RX_QUEUED /\
    accepted_at i s (slice key 0 half ++ slice key half half) eap_msg sts r.2).
Proof.
  intros Hv R Hr Hi Hz half. pose proof (reads_holds _ _ _ _ _ _ _ _ R) as H.
  destruct (holds_header _ _ _ H) as (Ec & Ei & _). unfold ieee802_1x_receive_auth.
  rewrite Ei, (reads_id _ _ _ _ _ _ _ _ R), Hi.
  assert (Er : reject_without_eap m = false).
  { unfold reject_without_eap. by rewrite Ec, (reads_code _ _ _ _ _ _ _ _ R). }
  rewrite Er. apply wp_bind. eapply wp_mono; [exact (reads_valid _ _ _ _ _ _ _ _ R req Hr)|]. intros [bad m1] [= -> ->].
  rewrite Ec, (reads_code _ _ _ _ _ _ _ _ R). change (negb _ && negb _ && negb _) with false. cbv iota.
  apply wp_bind. eapply wp_mono; [apply (accept_response_wp cf m h l req secret (slice key half half) (slice key 0 half) s Hv H)|].
  - apply R.
  - exact (reads_keys _ _ _ _ _ _ _ _ R req Hr).
  - by rewrite (reads_eap _ _ _ _ _ _ _ _ R).
  - intros s' (b & s0 & Hb & H0 & Hi'). apply wp_ret. split; [done|]. exists s', b, s0. cbn [snd].
    by rewrite <- (reads_eap _ _ _ _ _ _ _ _ R).
Qed.
End access.
