(* ===== verification/RadiusRequest.v ===== *)
(** * What the access point sends to its RADIUS server

    The Access-Request of [ieee802_1x_encapsulate_radius]: its attributes, its
    place in the queue of the client, and what the server reads from it. *)

From S2P Require Import Prelude.
From S2P Require Import Eloop.
From S2P Require Import Wpabuf.
From S2P Require Import Common.
From S2P Require Import EapCommon.
From S2P Require Import EapServer.
From S2P Require Import EapolAuth.
From S2P Require Import EapolPort.
From S2P Require Import Ieee8021x.
From S2P Require Import Hash.
From S2P Require Import RadiusMsg.
From S2P Require Import RadiusServer.
From S2P Require Import RadiusClient.
From S2P Require Import RadiusReplies.
From S2P Require Import RadiusAuthority.
From S2P Require Import RadiusAttrs.
From S2P Require Import RadiusAp.

(** ** [radius_msg_finish] and what the server checks *)

(** The Message-Authenticator of a request, at the end of its attributes. *)
Definition request_mac (secret : list Z) (h : header) (l : list attribute) : option (list Z) :=
  message_mac secret h (authenticator h) l [].

Lemma with_own_auth h : with_auth h (authenticator h) = h.
Proof. by destruct h. Qed.

Lemma finish_wp ok m h l secret :
  holds m h l -> zlen (octets m) + 18 <= 65535 ->
  wp ok (radius_msg_finish m (Some secret)) (fun '(r, m') =>
    r = -1 /\ ok = false \/
    exists mac, let h1 := with_length h (WPA_PUT_BE16 (zlen (octets m'))) in
      request_mac secret h1 l = Some mac /\ zlen mac = 16 /\ zlen (octets m') = zlen (octets m) + 18 /\
      holds m' h1 (l ++ [(MA, mac)])).
Proof.
  intros H Hsize. unfold radius_msg_finish. apply wp_bind.
  eapply wp_mono; [apply (add_attr_wp ok m h l MA zero_mac H zero_attr_fits); lia|].
  intros [[p|] m1]; intros Hm; apply wp_ret; [|by left]. destruct Hm as [-> Hm]. right.
  destruct zero_mac_ok as [Zb Zz].
  assert (L1 : zlen (octets m1) = zlen (octets m) + 18).
  { rewrite (holds_len _ _ _ Hm), (holds_len _ _ _ H), encs_app, zlen_app, zlen_encs1. cbn [snd]. lia. }
  apply set_length_holds in Hm. rewrite L1 in Hm. set (h1 := with_length h _) in *.
  set (m2 := set_length m1) in *. clearbody m2. rewrite (holds_len m h l H).
  destruct (put_ma_holds m2 _ l zero_mac secret Hm Zz) as (mac & E & Mb & Mz & Hm3).
  set (m3 := put_message_authenticator _ _ _) in *. clearbody m3.
  assert (L3 : zlen (octets m3) = 20 + zlen (encs l) + 18).
  { rewrite (holds_len _ _ _ Hm3), encs_app, zlen_app, zlen_encs1. cbn [snd]. lia. }
  exists mac. cbv zeta. rewrite L3, <- (holds_len m h l H). fold h1. split; [|by split].
  unfold request_mac, message_mac. rewrite with_own_auth, <- (holds_octets _ _ _ Hm). exact E.
Qed.

Lemma verify_request_wp ok m h l mac secret :
  holds m h (l ++ [(MA, mac)]) -> zlen mac = 16 -> no_ma l -> request_mac secret h l = Some mac ->
  wp ok (radius_msg_verify_msg_auth m secret None) (fun r => r = (false, m)).
Proof.
  intros H Hz Hn Hmac. unfold radius_msg_verify_msg_auth. pose proof (find_ma m h _ H) as F.
  destruct (find_message_authenticator _ _ _) as [[p|]|].
  2: { apply Forall_app in F as [_ F]. apply Forall_cons in F as [F _]. by destruct F. }
  2: { exfalso. destruct F as (l1 & v & l2 & w & l3 & Eq).
       assert (N : l = l1 /\ mac = v /\ [] = l2 ++ (MA, w) :: l3).
       { clear -Hn Eq. revert l1 Eq. induction l as [|a l IH]; intros [|b l1] Eq; cbn [app] in Eq.
         - injection Eq as <- Eq. by destruct l2.
         - injection Eq as _ Eq. by destruct l1.
         - injection Eq as -> _. apply Forall_cons in Hn as [Hn _]. by destruct Hn.
         - injection Eq as -> Eq. apply Forall_cons in Hn as [_ Hn]. destruct (IH Hn l1 Eq) as (-> & -> & ?). done. }
       destruct N as (_ & _ & N). by destruct l2. }
  destruct F as (l1 & v & l2 & El & N1 & N2 & Ep & (_ & Vl & Vv & V1 & V2)). cbn [fst snd] in *.
  apply no_ma_split in El as (<- & <- & <-); [|done|done].
  pose proof (holds_room _ _ _ H) as Hroom. destruct zero_mac_ok as [Zb Zz].
  unfold sizeof_radius_attr_hdr, MD5_MAC_LEN. rewrite peek_ok by lia. apply wp_bind, wp_ret.
  assert (Ev : slice (octets m) (p + 2) 16 = mac).
  { unfold attr_value in Vv. rewrite Vl, Hz in Vv. exact Vv. }
  rewrite Ev, poke_ok by lia. apply wp_bind, wp_ret. cbv zeta.
  assert (H1 := value_poke m h l [] MA mac zero_mac H ltac:(lia) Zb). rewrite <- Ep in H1.
  set (m1 := poke (p + 2) zero_mac m) in *.
  assert (S1 : size (buf m1) = size (buf m) /\ Wpabuf.flags (buf m1) = Wpabuf.flags (buf m) /\ attr_pos m1 = attr_pos m /\
               attr_size m1 = attr_size m) by done. clearbody m1.
  unfold request_mac, message_mac in Hmac. rewrite with_own_auth, <- (holds_octets _ _ _ H1) in Hmac. rewrite Hmac.
  assert (L1 : zlen (octets m1) = zlen (octets m)).
  { rewrite (holds_len _ _ _ H1), (holds_len _ _ _ H), !encs_app, !zlen_app, !zlen_encs1. cbn [snd]. lia. }
  destruct S1 as (S1 & S2 & S3 & S4). rewrite poke_ok by (rewrite S1; lia). apply wp_bind, wp_ret, wp_ret.
  assert (Hb : bytes mac).
  { pose proof (holds_fits _ _ _ H) as F. apply Forall_app in F as [_ F]. apply Forall_cons in F as [(_ & F & _) _]. exact F. }
  assert (H2 := value_poke m1 _ l [] MA zero_mac mac H1 ltac:(lia) Hb). rewrite <- Ep in H2.
  assert (poke (p + 2) mac m1 = m) as ->.
  { apply msg_ext; [|exact S1|exact S2|exact S3|exact S4]. by rewrite (holds_octets _ _ _ H2), (holds_octets _ _ _ H). }
  f_equal. by apply memcmp_same.
Qed.

Section request.
Context {E : Type} `{EE : !EapEngine E, EL : !EapEngineLaws E, EI : !EapIdentity E}.
Abbreviation S := (eapol_sm E).
Abbreviation rsta := (radius_sta E).
Implicit Types (cf : radius_bss) (s : rsta) (d : radius_client_data).

(** ** The attributes *)

(** The State of the Access-Challenge before, and the identity of the user
    for accounting. *)
Definition state_attrs s (ll : list attribute) : list attribute :=
  match last_recv_radius s with
  | Some last => if hdr_code last =? RADIUS_CODE_ACCESS_CHALLENGE then of_type RADIUS_ATTR_STATE ll else []
  | None => []
  end.
Definition cui_attrs cf s : list attribute :=
  if radius_request_cui cf then [(RADIUS_ATTR_CHARGEABLE_USER_IDENTITY, request_cui s)] else [].

(** What the access point configures and has learned can be sent. *)
Record sendable cf s (ll : list attribute) : Prop := mk_sendable {
  sb_attrs : Forall plain (request_attrs cf s);
  sb_last : forall last, last_recv_radius s = Some last -> exists hl, holds last hl ll;
  sb_cui : Forall plain (cui_attrs cf s)
}.

Definition attrs_len cf s (ll : list attribute) : Z :=
  zlen (encs (request_attrs cf s)) + zlen (encs (state_attrs s ll)) + zlen (encs (cui_attrs cf s)).

Lemma plain_fits l : Forall plain l -> Forall fits l.
Proof. intros H. eapply Forall_impl; [exact H|]. by intros a [Ha _]. Qed.

(** The header of a new request with its authenticator. *)
Definition request_header (id : Z) (a : list Z) : header := with_auth (new_header RADIUS_CODE_ACCESS_REQUEST id) a.

Lemma access_request_wp cf a id eap_msg s ll :
  sendable cf s ll -> byte id -> bytes a -> zlen a = 16 -> bytes eap_msg ->
  attrs_len cf s ll + 3 * zlen eap_msg <= 65000 ->
  wp true (access_request cf (Some a) id eap_msg s) (fun r => exists m fs, r = Some m /\ concat fs = eap_msg /\
    holds m (request_header id a)
      (request_attrs cf s ++ map (pair EAP) fs ++ state_attrs s ll ++ cui_attrs cf s) /\
    zlen (octets m) <= 20 + attrs_len cf s ll + 3 * zlen eap_msg).
Proof.
  intros [A1 A2 A3] Hid Ha Za He Hz. unfold access_request, attrs_len in *.
  pose proof (zlen_nonneg (encs (request_attrs cf s))) as P1. pose proof (zlen_nonneg (encs (state_attrs s ll))) as P2.
  pose proof (zlen_nonneg (encs (cui_attrs cf s))) as P3. pose proof (zlen_nonneg eap_msg) as P4.
  apply wp_bind. eapply wp_mono; [apply new_wp; done|]. intros [m0|] Hm0; [|done].
  cbn [radius_msg_make_authenticator]. change (0 <? 0) with false. cbv iota.
  assert (H1 := set_authenticator_holds m0 _ _ a Hm0 Ha Za). fold (request_header id a) in H1.
  set (m1 := set_authenticator a m0) in *. clearbody m1. clear Hm0 m0.
  pose proof (holds_len _ _ _ H1) as L1. change (zlen (encs [])) with 0 in L1.
  apply wp_bind. eapply wp_mono; [apply (add_accept_attrs_wp true _ _ m1 [] (plain_fits _ A1) H1); lia|].
  intros [[] m2] H2; cbn [negb]; [|done]. cbn [app] in H2.
  pose proof (holds_len _ _ _ H2) as L2. apply wp_bind.
  eapply wp_mono; [apply (add_eap_wp true m2 _ _ eap_msg H2 He); lia|].
  intros [r m3] [[_ ?]|(-> & fs & Hfs & H3 & L3)]; [done|]. change (1 =? 0) with false. cbv iota.
  apply wp_bind. eapply (wp_mono _ _ (fun '(r, m4) => 0 <= r /\
    holds m4 (request_header id a) ((request_attrs cf s ++ map (pair EAP) fs) ++ state_attrs s ll))).
  { unfold state_attrs. destruct (last_recv_radius s) as [last|] eqn:El.
    - destruct (A2 last eq_refl) as [hl Hl]. destruct (_ =? _) eqn:Ec.
      + eapply wp_mono; [apply (copy_attr_wp true m3 _ _ last hl ll RADIUS_ATTR_STATE H3 Hl)|].
        * unfold state_attrs in *. rewrite El, Ec in *. lia.
        * intros [r m4] [[_ ?]|?]; [done|done].
      + apply wp_ret. rewrite app_nil_r. by split.
    - apply wp_ret. rewrite app_nil_r. by split. }
  intros [r m4] [Hr H4]. destruct (Z.ltb_spec r 0); [lia|].
  assert (L4 : zlen (octets m4) = zlen (octets m3) + zlen (encs (state_attrs s ll))).
  { rewrite (holds_len _ _ _ H4), (holds_len _ _ _ H3), !encs_app, !zlen_app. lia. }
  assert (Hend : forall m5, holds m5 (request_header id a) (((request_attrs cf s ++ map (pair EAP) fs) ++ state_attrs s ll) ++ cui_attrs cf s) ->
    exists m fs, Some m5 = Some m /\ concat fs = eap_msg /\
    holds m (request_header id a) (request_attrs cf s ++ map (pair EAP) fs ++ state_attrs s ll ++ cui_attrs cf s) /\
    zlen (octets m) <= 20 + (zlen (encs (request_attrs cf s)) + zlen (encs (state_attrs s ll)) + zlen (encs (cui_attrs cf s))) + 3 * zlen eap_msg).
  { intros m5 H5. exists m5, fs. split; [done|]. split; [done|]. split; [by rewrite <- !app_assoc in H5|].
    rewrite (holds_len _ _ _ H5), encs_app, zlen_app. rewrite (holds_len _ _ _ H4) in L4. lia. }
  unfold cui_attrs in *. destruct (radius_request_cui cf).
  - apply Forall_cons in A3 as [[A3 _] _]. apply wp_bind.
    eapply wp_mono; [apply (add_attr_wp true m4 _ _ _ _ H4 A3); lia|]. intros [[p|] m5]; [|done]. intros [_ H5].
    apply wp_ret. by apply Hend.
  - apply wp_ret. apply Hend. by rewrite app_nil_r.
Qed.

(** ** Into the queue and to the server *)

(** The client has a server to which it is connected. *)
Record connected d (secret : list Z) : Prop := mk_connected {
  co_server : exists srv, current true d = Some srv /\ serv_secret srv = Some secret;
  co_sock : non_null (sock (rc_auth d)) = true;
  co_loop : eloop_terminated d = false
}.

(** The message is the newest pending request, and has been sent. *)
Record queued d d' (secret : list Z) (m : radius_msg) : Prop := mk_queued {
  qu_out : rc_out d' = datagram RADIUS_AUTH (octets m) :: rc_out d;
  qu_entry : exists e rest, msgs d' = e :: rest /\ e_msg e = m /\ e_secret e = secret /\ msg_type e = RADIUS_AUTH
}.

Lemma drop_oldest_head e l : exists rest, drop_oldest (e :: l) = e :: rest.
Proof.
  unfold drop_oldest. destruct (_ <? _)%nat eqn:H; [|by eexists]. destruct l as [|e1 l]; [discriminate H|].
  by eexists.
Qed.

Lemma update_timeout_msgs d :
  msgs (radius_client_update_timeout d) = msgs d /\ rc_out (radius_client_update_timeout d) = rc_out d.
Proof.
  unfold radius_client_update_timeout. cbv zeta. change (msgs (cancel_timer d)) with (msgs d).
  by destruct (msgs d) eqn:Em.
Qed.

Lemma list_add_wp d m type secret addr :
  eloop_terminated d = false ->
  wp true (radius_client_list_add d m type secret addr) (fun d' => rc_out d' = rc_out d /\
    exists e rest, msgs d' = e :: rest /\ e_msg e = m /\ e_secret e = secret /\ msg_type e = type).
Proof.
  intros Ht. unfold radius_client_list_add. rewrite Ht. apply wp_alloc_then; [done|]. cbv zeta.
  match goal with |- context [mk_entry ?a ?b ?c ?t ?f ?n ?k ?w ?l ?s] => set (e := mk_entry a b c t f n k w l s) end.
  set (d1 := setter msgs (cons e) _). destruct (update_timeout_msgs d1) as [E1 E2].
  set (d2 := radius_client_update_timeout d1) in *. clearbody d2.
  destruct (_ <=? _); apply wp_ret; (split; [exact E2|]).
  - change (msgs (setter msgs drop_oldest d2)) with (drop_oldest (msgs d2)). rewrite E1.
    destruct (drop_oldest_head e (msgs d)) as [rest Hr]. exists e, rest. split; [exact Hr|done].
  - exists e, (msgs d). split; [exact E1|done].
Qed.

Lemma client_send_wp d m h l secret addr :
  connected d secret -> holds m h l -> zlen (octets m) + 18 <= 65535 ->
  wp true (radius_client_send d m RADIUS_AUTH addr) (fun '(ok, d') => ok = true /\ exists m' mac,
    queued d d' secret m' /\
    let h1 := with_length h (WPA_PUT_BE16 (zlen (octets m'))) in
    request_mac secret h1 l = Some mac /\ zlen mac = 16 /\ zlen (octets m') = zlen (octets m) + 18 /\
    holds m' h1 (l ++ [(MA, mac)])).
Proof.
  intros [(srv & Hc & Hsec) Hsock Ht] H Hz. unfold radius_client_send.
  change (is_auth RADIUS_AUTH) with true. cbv iota zeta. change (side true d) with (rc_auth d).
  rewrite Hsock, andb_false_r. apply wp_bind, wp_ret. rewrite Hc. cbn [mbind option_bind].
  change (side true d) with (rc_auth d). rewrite Hsec, Hsock. cbn [negb]. apply wp_bind, wp_bind.
  eapply wp_mono; [exact (finish_wp true m h l secret H Hz)|].
  intros [r m'] [[_ ?]|(mac & Hmac & Hm & Hl & H')]; [done|]. apply wp_ret.
  apply wp_bind. eapply wp_mono; [apply wp_alloc|]. intros failed Hf. rewrite (Hf eq_refl).
  apply wp_bind, wp_ret. apply wp_bind. eapply wp_mono; [by apply list_add_wp|].
  intros d' [Ho He]. apply wp_ret. split; [done|]. exists m', mac. split; [by split|]. by split.
Qed.

(** What the server reads from the datagram [o] of request [id]. *)
Record request_read (secret : list Z) (id : Z) (eap_msg : list Z) (state : list attribute) (req : radius_msg)
    (h : header) (l : list attribute) : Prop := mk_request_read {
  rr_holds : holds req h l;
  rr_code : code h = RADIUS_CODE_ACCESS_REQUEST;
  rr_id : identifier h = id;
  rr_eap : eap_of l = eap_msg;
  rr_state : of_type RADIUS_ATTR_STATE l = state;
  rr_parse : wp true (radius_msg_parse (octets req)) (fun r => exists m, r = Some m /\ holds m h l /\
    wp true (radius_msg_verify_msg_auth m secret None) (fun r => r = (false, m)))
}.

Lemma of_type_app t l k : of_type t (l ++ k) = of_type t l ++ of_type t k.
Proof. unfold of_type. apply filter_app. Qed.
Lemma of_type_other t l : Forall (fun a => a.1 <> t) l -> of_type t l = [].
Proof. induction 1 as [|a l Ha Hl IH]; [done|]. rewrite of_type_cons. by rewrite decide_False. Qed.
Lemma of_type_same t l : of_type t (of_type t l) = of_type t l.
Proof.
  induction l as [|a l IH]; [done|]. rewrite (of_type_cons t a l). destruct (decide _) as [D|D]; [|done].
  rewrite of_type_cons. destruct (decide (a.1 = t)); [by rewrite IH|done].
Qed.
Lemma of_type_plain t l : t <> EAP -> t <> MA -> Forall (fun a => a.1 <> EAP /\ a.1 <> MA) (of_type t l).
Proof.
  intros H1 H2. unfold of_type. apply List.Forall_forall. intros a Ha.
  apply list_elem_of_In, list_elem_of_filter in Ha as [-> _]. by split.
Qed.
Lemma plain_types l : Forall plain l -> Forall (fun a => a.1 <> EAP /\ a.1 <> MA) l.
Proof. intros H. eapply Forall_impl; [exact H|]. by intros a (_ & Ha). Qed.
Lemma no_eap l : Forall (fun a => a.1 <> EAP /\ a.1 <> MA) l -> eap_of l = [].
Proof. intros H. apply eap_of_other. eapply Forall_impl; [exact H|]. by intros a [Ha _]. Qed.
Lemma no_mac l : Forall (fun a => a.1 <> EAP /\ a.1 <> MA) l -> no_ma l.
Proof. intros H. eapply Forall_impl; [exact H|]. by intros a [_ Ha]. Qed.

Lemma parts_other t fs : t <> EAP -> Forall (fun a : attribute => a.1 <> t) (map (pair EAP) fs).
Proof. intros H. apply List.Forall_forall. intros a Ha. apply in_map_iff in Ha as (f & <- & _). cbn. congruence. Qed.

Lemma state_types s ll : Forall (fun a => a.1 <> EAP /\ a.1 <> MA) (state_attrs s ll).
Proof.
  unfold state_attrs. destruct (last_recv_radius s); [|constructor]. destruct (_ =? _); [|constructor].
  by apply of_type_plain.
Qed.
Lemma state_states s ll : of_type RADIUS_ATTR_STATE (state_attrs s ll) = state_attrs s ll.
Proof.
  unfold state_attrs. destruct (last_recv_radius s); [|done]. destruct (_ =? _); [|done]. apply of_type_same.
Qed.
Lemma cui_no_state cf s : of_type RADIUS_ATTR_STATE (cui_attrs cf s) = [].
Proof. unfold cui_attrs. by destruct (radius_request_cui cf). Qed.

Lemma request_read_ok cf s ll secret id a eap_msg fs mac (m' : radius_msg) :
  let l := request_attrs cf s ++ map (pair EAP) fs ++ state_attrs s ll ++ cui_attrs cf s in
  let h1 := with_length (request_header id a) (WPA_PUT_BE16 (zlen (octets m'))) in
  sendable cf s ll -> Forall (fun a => a.1 <> RADIUS_ATTR_STATE) (request_attrs cf s) -> concat fs = eap_msg ->
  request_mac secret h1 l = Some mac -> zlen mac = 16 -> zlen (octets m') <= 65535 -> holds m' h1 (l ++ [(MA, mac)]) ->
  request_read secret id eap_msg (state_attrs s ll) m' h1 (l ++ [(MA, mac)]).
Proof.
  intros l h1 [A1 _ A3] Hst Hfs Hmac Hz Hlen H.
  pose proof (plain_types _ A1) as T1. pose proof (state_types s ll) as T2. pose proof (plain_types _ A3) as T3.
  assert (Tm : no_ma l).
  { unfold l. apply no_ma_app; [by apply no_mac|]. apply no_ma_app; [apply parts_other; discriminate|].
    apply no_ma_app; by apply no_mac. }
  split; [exact H|reflexivity|reflexivity| | |].
  - unfold l. rewrite !eap_of_app, eap_of_parts, (no_eap _ T1), (no_eap _ T2), (no_eap _ T3), Hfs.
    rewrite (eap_of_other [(MA, mac)]) by (constructor; [intros Hf; discriminate Hf|constructor]). cbn [app].
    by rewrite !app_nil_r.
  - unfold l. rewrite !of_type_app, (of_type_other _ _ Hst), state_states, cui_no_state.
    rewrite (of_type_other _ (map (pair EAP) fs)) by (apply parts_other; discriminate).
    rewrite (of_type_other _ [(MA, mac)]) by (constructor; [intros Hf; discriminate Hf|constructor]). cbn [app].
    by rewrite !app_nil_r.
  - eapply wp_mono; [apply (parse_back true m' h1 _ H); [reflexivity|lia]|]. intros [m|]; [|done]. intros Hm.
    exists m. split; [done|]. split; [exact Hm|]. exact (verify_request_wp true m h1 l mac secret Hm Hz Tm Hmac).
Qed.

(** ** The whole request *)

(** The station that waits for the answer to request [id], with the identity
    it has learned from the EAP message. *)
Definition waiting (id : Z) s : rsta := on_machine (radius_identifier ::= id)%cmd s.

Lemma encapsulate_wp cf a eap_msg d s sm s1 secret ll :
  let id := next_radius_identifier d in
  let s2 := waiting id s1 in
  eapol_machine (port s) = Some sm -> wp true (ieee802_1x_learn_identity eap_msg s sm) (fun r => r = s1) ->
  connected d secret -> byte id -> bytes a -> zlen a = 16 -> bytes eap_msg ->
  sendable cf s2 ll -> Forall (fun a => a.1 <> RADIUS_ATTR_STATE) (request_attrs cf s2) ->
  attrs_len cf s2 ll + 3 * zlen eap_msg <= 65000 ->
  wp true (ieee802_1x_encapsulate_radius cf (Some a) eap_msg d s) (fun '(d', s') => s' = s2 /\
    exists m h l, queued d d' secret m /\ request_read secret id eap_msg (state_attrs s2 ll) m h l /\ authenticator h = a).
Proof.
  intros id s2 Em Hl Hc Hid Ha Za He Hs Hst Hz. unfold ieee802_1x_encapsulate_radius. rewrite Em.
  apply wp_bind. eapply wp_mono; [exact Hl|]. intros s' ->. unfold radius_client_get_id. fold id.
  set (d1 := setter msgs _ _). cbv zeta. change (on_machine (radius_identifier ::= id)%cmd s1) with s2.
  assert (Hc1 : connected d1 secret) by (destruct Hc as [C1 C2 C3]; by split).
  assert (Ho : rc_out d1 = rc_out d) by reflexivity. clearbody d1.
  apply wp_bind. eapply wp_mono; [exact (access_request_wp cf a id eap_msg s2 ll Hs Hid Ha Za He Hz)|].
  intros r (m & fs & -> & Hfs & H & Lm). apply wp_bind.
  eapply wp_mono; [apply (client_send_wp d1 m _ _ secret _ Hc1 H); lia|].
  intros [ok d2] [_ (m' & mac & [Q1 Q2] & Hmac & Hmz & Lm' & H')]. apply wp_ret. split; [done|].
  rewrite Ho in Q1. pose proof (request_read_ok cf s2 ll secret id a eap_msg fs mac m' Hs Hst Hfs Hmac Hmz ltac:(lia) H') as R.
  do 3 eexists. split; [by split|]. split; [exact R|reflexivity].
Qed.
End request.
