(* ===== verification/RadiusEap.v ===== *)
(** * The EAP server as the engine of the RADIUS server

    A session of RadiusServer.v runs the EAP server of EapServer.v: the
    engine of EapolEap.v, with the laws of [RadiusEngineLaws] proved.  The
    access point of RadiusAp.v asks the same engine for the identity. *)

From S2P Require Import Prelude.
From S2P Require Import Eloop.
From S2P Require Import EapolAuth.
From S2P Require Import EapolPort.
From S2P Require Import Wpabuf.
From S2P Require Import Common.
From S2P Require Import EapCommon.
From S2P Require Import EapServer.
From S2P Require Import EapControl.
From S2P Require Import EapSafety.
From S2P Require Import EapAuthority.
From S2P Require Import EapProperties.
From S2P Require Import EapolEap.
From S2P Require Import RadiusMsg.
From S2P Require Import RadiusServer.
From S2P Require Import RadiusAttrs.
From S2P Require Import RadiusAuthority.
From S2P Require Import RadiusAp.

Section engine.
Context {M P : Type} `{EM : !EapMethods M P, CB : !EapolCallbacks, EC : !ErpCrypto}.
Context `{ML : !EapMethodLaws}.
Abbreviation sm := (eap_sm M P).
Implicit Types s : sm.

(** The last of the machine's users; a user that is kept has been noted
    before. *)
Fixpoint last_user (l : list sm) (u : option eap_user) : option eap_user :=
  match l with
  | [] => u
  | s :: l => last_user l (match user s with Some u' => Some u' | None => u end)
  end.

(** [accept]: the attributes that the database gives a user for
    Access-Accept. *)
Definition radius_eap_engine (accept : eap_user -> list (Z * list Z)) : RadiusEngine sm := {|
  engine_method_pending := eap_sm_method_pending;
  engine_user s :=
    match eap_server_sm_step step_fuel s with
    | Some (s', _) =>
        option_map (fun u => mk_server_user u (accept u)) (last_user (step_states step_fuel s ++ [s']) None)
    | None => None
    end
|}.

(** The identity that the access point copies for User-Name. *)
Definition eap_engine_identity : EapIdentity sm := fun s =>
  let '(identity, len) := eap_get_identity s in option_map (fun i => slice i 0 len) identity.

Definition radius_eap_laws (e0 : eap_env) : RadiusEngineLaws sm (EapEngine0 := eap_engine e0).
Proof.
  split; cbn [engine_if eap_engine]; intros s;
    destruct (sm_step_asked step_fuel s _ (engine_step_eq e0 s)) as [H1 H2]; [exact H1|exact H2].
Defined.
End engine.
