(* ===== verification/RadiusProperties.v ===== *)
(** * RADIUS: its properties

    Messages: what is parsed, what is found valid, and the delivery of the
    EAP message and the keys from the server's Access-Accept to the access
    point.  The server: who is accepted, with the EAP server of EapServer.v
    underneath, and where its memory is not safe. *)

From Stdlib Require Import String.
From S2P Require Import Prelude.
From S2P Require Import Eloop.
From S2P Require Import EapolAuth.
From S2P Require Import EapolPort.
From S2P Require Import Wpabuf.
From S2P Require Import Common.
From S2P Require Import EapCommon.
From S2P Require Import EapServer.
From S2P Require Import EapControl.
From S2P Require Import EapMethods.
From S2P Require Import EapProperties.
From S2P Require Import EapolEap.
From S2P Require Import Hash.
From S2P Require Import RadiusMsg.
From S2P Require Import RadiusAttrs.
From S2P Require Import RadiusKeys.
From S2P Require Import RadiusServer.
From S2P Require Import RadiusReplies.
From S2P Require Import RadiusAuthority.
From S2P Require Import RadiusEap.

(** ** Messages *)

(** A parsed message fills its buffer. *)
Lemma attributes_buf fuel : forall m pos, pc (parse_attributes fuel m pos) (fun '(_, m') => buf m' = buf m).
Proof.
  induction fuel as [|fuel IH]; intros m pos; cbn [parse_attributes]; [by apply pc_ret|].
  destruct (_ <=? pos); [by apply pc_ret|]. destruct (_ <? sizeof_radius_attr_hdr); [by apply pc_ret|].
  destruct (_ || _); [by apply pc_ret|]. apply pc_bind.
  eapply (pc_mono _ (fun '(_, m') => buf m' = buf m)).
  { unfold radius_msg_add_attr_to_array. destruct (_ <=? _); [|by apply pc_ret].
    apply pc_bind, pc_any. intros []; by apply pc_ret. }
  intros [[] m1] <-; [apply IH|by apply pc_ret].
Qed.

Lemma parse_full d :
  pc (radius_msg_parse d) (fun r => match r with Some m => size (buf m) = zlen (octets m) | None => True end).
Proof.
  unfold radius_msg_parse. destruct (_ <? _); [by apply pc_ret|]. cbv zeta.
  destruct (_ || _); [by apply pc_ret|]. apply pc_bind, pc_any. intros []; [by apply pc_ret|].
  apply pc_bind, pc_any. intros oom. apply pc_bind, pc_or_abort. intros [b|] Hb; [|by apply pc_ret].
  assert (Hs : size b = zlen (data b)).
  { destruct oom; [discriminate Hb|]. rewrite alloc_copy_ok in Hb. by injection Hb as <-. }
  apply pc_bind. unfold radius_msg_initialize. apply pc_bind, pc_any. intros [].
  { apply pc_ret. by apply pc_ret. }
  apply pc_ret, pc_bind. eapply pc_mono; [apply attributes_buf|]. intros [[] m] Em; apply pc_ret; [|done].
  unfold octets. rewrite Em. exact Hs.
Qed.



(** A Message-Authenticator at the end that is the only one. *)
Lemma ma_last v : forall l l1 w k, no_ma l -> l ++ [(MA, v)] = l1 ++ (MA, w) :: k -> l1 = l /\ w = v /\ k = [].
Proof.
  induction l as [|a l IH]; intros [|b l1] w k Hn E; cbn [app] in E.
  - injection E as <- <-. done.
  - injection E as _ E. by destruct l1.
  - injection E as -> _. apply Forall_cons in Hn as [Hn _]. by destruct Hn.
  - injection E as <- E. apply Forall_cons in Hn as [_ Hn]. by destruct (IH l1 w k Hn E) as (-> & -> & ->).
Qed.

(** Sixteen octets are read at the end of the buffer. *)
Lemma short_mac_read d h l v :
  bytes d -> decodes d h (l ++ [(MA, v)]) -> no_ma l -> zlen v < 16 ->
  exists m, radius_msg_parse d [] = Go (Some m) [] /\ holds m h (l ++ [(MA, v)]) /\
    forall secret req mem, radius_msg_verify_msg_auth m secret req mem = Halt OutOfBounds.
Proof.
  intros Hb D Hn Hv. destruct (wp_clean _ _ (parse_wp true d Hb)) as ([m|] & E & H).
  2: { destruct H as [H|H]; [discriminate H|by destruct (H h (l ++ [(MA, v)]))]. }
  exists m. split; [exact E|]. destruct H as (h' & l' & D' & H). destruct (decodes_unique _ _ _ _ _ D D') as [<- <-].
  split; [exact H|]. intros secret req mem. pose proof (parse_full d [] (Some m) [] E) as Hs. cbv beta iota in Hs.
  pose proof (find_ma m _ _ H) as F. unfold radius_msg_verify_msg_auth.
  destruct (find_message_authenticator _ _ _) as [[p|]|].
  - destruct F as (l1 & w & l2 & El & _ & _ & -> & _). destruct (ma_last _ _ _ _ _ Hn El) as (-> & _ & _).
    unfold mbind, run_bind at 1, peek_unchecked.
    rewrite Hs, (holds_len _ _ _ H), encs_app, zlen_app, zlen_encs1. cbn [snd].
    unfold sizeof_radius_attr_hdr, MD5_MAC_LEN.
    destruct (Z.ltb_spec (20 + (zlen (encs l) + (2 + zlen v))) (20 + zlen (encs l) + 2 + 16)); [done|lia].
  - apply Forall_app in F as [_ F]. apply Forall_cons in F as [F _]. by destruct F.
  - exfalso. destruct F as (l1 & w & l2 & x & l3 & El). apply ma_last in El as (_ & _ & El); [|done]. by destruct l2.
Qed.

(** ** The server *)

Section server.
Context {T : Type} `{EE : !EapEngine T, EL : !EapEngineLaws T, RE : !RadiusEngine T}.
Context (get_eap_user : list Z -> option server_user) (eap_conf : eap_config).
Implicit Types (c : radius_client T) (s : radius_session T) (d : radius_server_data T).

(** C38: A datagram from a known client, with Message-Authenticator as its last
    attribute and shorter than 16 octets, makes the server read and clear
    memory behind the message, before anything is authenticated: the value is
    used without a look at its length. *)
Theorem radius_short_mac_outside random from o h l v d ci c :
  bytes o -> zlen o <= RADIUS_MAX_MSG_LEN -> decodes o h (l ++ [(MA, v)]) ->
  code h = RADIUS_CODE_ACCESS_REQUEST -> no_ma l -> zlen v < 16 ->
  radius_server_get_client d from = Some ci -> clients d !! ci = Some c ->
  radius_server_receive_auth get_eap_user eap_conf random from o d [] = Halt OutOfBounds.
Proof.
  intros Hb Hz D Hc Hn Hv Eci Ec. destruct (short_mac_read o h l v Hb D Hn Hv) as (m & E & H & Hm).
  unfold radius_server_receive_auth, mbind, run_bind at 1. cbn [alloc]. rewrite Eci.
  assert (Hr : received o = o) by (apply take_ge; unfold zlen in Hz; lia). rewrite Hr.
  unfold run_bind at 1. rewrite E, Ec. destruct (holds_header _ _ _ H) as (-> & _). rewrite Hc.
  change (negb _) with false. cbv iota zeta. unfold run_bind at 1. by rewrite Hm.
Qed.

(** C21: What the server sends with a code of Access-Accept reaches the access
    point: whatever it has put into the reply to a request, the access point
    that sent the request parses the octets, finds the message valid, and
    reads from it the EAP message of the session and the two halves of its key
    (32 octets each, if the key has more than 64). *)
Theorem access_accept_delivers random c s e request sent hr lr eap_msg key :
  holds request hr lr -> holds sent hr lr -> accepting e eap_msg key -> Forall plain (accept_attr s) ->
  3 * zlen eap_msg + zlen (encs (proxied lr)) + zlen (encs (accept_attr s)) <= 64000 -> eap_msg <> [] ->
  let half := key_half (zlen key) in
  exists m e' m' b,
    radius_server_encapsulate_eap (Some random) c s e request [] = Go (Some m, e') [] /\
    radius_msg_parse (octets m) [] = Go (Some m') [] /\
    hdr_code m' = RADIUS_CODE_ACCESS_ACCEPT /\ hdr_identifier m' = hdr_identifier sent /\
    radius_msg_verify m' (shared_secret c) (Some sent) true [] = Go (false, m') [] /\
    radius_msg_get_eap (Some m') [] = Go (Some b) [] /\ data b = eap_msg /\
    radius_msg_get_ms_keys (Some m') (Some sent) (shared_secret c) [] =
      Go (Some (mk_mppe_keys (Some (slice key half half)) (Some (slice key 0 half)))) [].
Proof.
  intros Hr Hs Ha Hp Hz Hne half.
  destruct (accept_reads random c s e request hr lr eap_msg key Hr Ha Hp Hz) as (m & e' & m' & h' & l' & E1 & _ & E2 & R).
  pose proof (reads_holds _ _ _ _ _ _ _ _ R) as H.
  destruct (wp_clean _ _ (reads_valid _ _ _ _ _ _ _ _ R sent Hs)) as (v & E3 & ->).
  destruct (wp_clean _ _ (get_eap_wp true m' h' _ H)) as (b & E4 & Hb). rewrite (reads_eap _ _ _ _ _ _ _ _ R) in Hb.
  destruct (wp_clean _ _ (reads_keys _ _ _ _ _ _ _ _ R sent Hs)) as (ks & E5 & [Hks| ->]); [discriminate Hks|].
  destruct b as [b|]; [|by destruct Hb as [Hb|Hb]]. destruct Hb as [Hb _]. exists m, e', m', b.
  destruct (holds_header _ _ _ H) as (Ec & Ei & _). destruct (holds_header _ _ _ Hs) as (_ & Ei' & _).
  split; [exact E1|]. split; [exact E2|]. split; [rewrite Ec; apply R|].
  split; [rewrite Ei, Ei'; apply R|]. split; [exact E3|]. split; [exact E4|]. split; [exact Hb|exact E5].
Qed.

(** The new session is the first one of its client. *)
Lemma new_session_first ci c d mem :
  clients d !! ci = Some c -> num_sess d < RADIUS_MAX_SESSION ->
  exists s d', radius_server_new_session ci d (false :: mem) = Go (Some s, d') mem /\
    client_sessions ci d' = live s :: sessions c.
Proof.
  intros Hc Hn. unfold radius_server_new_session.
  destruct (Z.leb_spec RADIUS_MAX_SESSION (num_sess d)); [lia|].
  unfold mbind, run_bind. cbn [alloc]. cbv zeta. eexists _, _. split; [reflexivity|].
  unfold client_sessions. match goal with |- context [clients ?x] =>
    change (clients x) with (alter (setter sessions (cons (live (mk_session T (next_self d) (next_sess_id d)
      None [] [] None None (mk_sockaddr 0 [] [] 0) 0 0 None (replicate 16 0) false [])))) ci (clients d)) end.
  rewrite list_lookup_alter_eq, Hc. reflexivity.
Qed.

Lemma free_linked_first ci s s' d l :
  client_sessions ci d = live s :: l -> self s' = self s ->
  exists l', client_sessions ci (free_linked ci s' d) = freed (self s) :: l'.
Proof.
  intros E Es. unfold client_sessions, free_linked, set_sessions in *. rewrite Es.
  match goal with |- context [clients (setter clients ?g ?x)] =>
    change (clients (setter clients g x)) with (g (clients d)) end. cbv beta.
  rewrite list_lookup_alter_eq. destruct (clients d !! ci) as [c|]; [|discriminate E].
  eexists. cbn [fmap option_fmap option_map].
  change (sessions (setter sessions ?g c)) with (g (sessions c)). cbv beta. rewrite E. cbn [map link_address].
  rewrite Z.eqb_refl. reflexivity.
Qed.

(** C39: When memory or the EAP server is lacking for a new session, the
    session is freed but stays in its client's list: the next request with a
    State attribute makes the server read it. *)
Theorem radius_session_dangling random ci c d m user user_len u from_addr mem m2 from text :
  clients d !! ci = Some c -> num_sess d < RADIUS_MAX_SESSION ->
  radius_msg_get_attr_ptr m RADIUS_ATTR_USER_NAME None = Some (user, user_len) ->
  get_eap_user (slice (octets m) user user_len) = Some u ->
  mem = [false; true] \/ mem = [false; false; true] \/ mem = [false] /\ engine_init eap_conf = None ->
  fst (radius_msg_get_attr m2 RADIUS_ATTR_STATE (Some (replicate 4 0)) 4) = 4 ->
  exists d', radius_server_get_new_session get_eap_user eap_conf d ci m from_addr mem = Go (None, d') [] /\
    (forall c2 mem2, radius_server_request get_eap_user eap_conf random d' m2 from ci c2 text None mem2
      = Halt UseAfterFree).
Proof.
  intros Hc Hn Hu Hg Hm Hst.
  assert (H : exists s s' d', radius_server_get_new_session get_eap_user eap_conf d ci m from_addr mem =
      Go (None, free_linked ci s' d') [] /\ client_sessions ci d' = live s :: sessions c /\ self s' = self s).
  { unfold radius_server_get_new_session. rewrite Hu, Hg. unfold mbind, run_bind.
    destruct Hm as [->|[->|[-> He]]];
    [destruct (new_session_first ci c d [true] Hc Hn) as (s & d' & E & Hl)
    |destruct (new_session_first ci c d [false; true] Hc Hn) as (s & d' & E & Hl)
    |destruct (new_session_first ci c d [] Hc Hn) as (s & d' & E & Hl)]; rewrite E; cbn [alloc];
    rewrite ?He; eexists s, _, d'; (split; [reflexivity|]); by split. }
  destruct H as (s & s' & d' & E & Hl & Es). exists (free_linked ci s' d'). split; [exact E|].
  destruct (free_linked_first ci s s' d' _ Hl Es) as (l & El). set (d1 := free_linked ci s' d') in *. clearbody d1.
  intros c2 mem2. unfold radius_server_request. destruct (radius_msg_get_attr m2 _ _ _) as [res st].
  cbn [fst] in Hst. subst res. cbv zeta. change (4 =? 4) with true. cbv iota.
  unfold mbind, run_bind at 1. by rewrite El.
Qed.
End server.

(** ** The EAP server underneath *)

Section composition.
Context {M P : Type} `{EM : !EapMethods M P, CB : !EapolCallbacks, EC : !ErpCrypto}.
Context `{ML : !EapMethodLaws}.
Context (e0 : eap_env) (accept : eap_user -> list (Z * list Z)).
Context (get_eap_user : list Z -> option server_user) (eap_conf : eap_config) (secrets : list (list Z)).
#[local] Instance the_engine : EapEngine (eap_sm M P) := eap_engine e0.
#[local] Instance the_engine_laws : EapEngineLaws (eap_sm M P) := eap_engine_laws e0.
#[local] Instance the_radius_engine : RadiusEngine (eap_sm M P) := radius_eap_engine accept.
#[local] Instance the_radius_laws : RadiusEngineLaws (eap_sm M P) := radius_eap_laws e0.

(** C3: Nobody is accepted without authority.  In every run of the server from
    its start, with any datagrams, allocation failures, timeouts and
    asynchronous methods, an Access-Accept on a socket belongs to a session;
    and before it was sent, either the session's EAP server had the authority
    to report success in one of its steps, or the session took up a request
    that shows the password of its MAC address.  Every request a session took
    up before has a Message-Authenticator found valid with the secret of its
    client. *)
Theorem radius_accept_authority evs (d d' : radius_server_data (eap_sm M P)) mem mem' l1 p o to l2 :
  fresh_server secrets d -> server_run get_eap_user eap_conf evs d mem = Go d' mem' ->
  out d' = l1 ++ sent p o to :: l2 -> starts RADIUS_CODE_ACCESS_ACCEPT o ->
  exists p' ci, p = Some p' /\
    ((exists e e', List.In (stepped p' e) l2 /\ List.In e' (step_states step_fuel e) /\ eap_authority e') \/
     shown get_eap_user secrets p' ci l2) /\
    (forall p1 ci1 m, List.In (taken p1 ci1 m) l2 ->
      exists secret, secrets !! ci1 = Some secret /\ authentic secret m).
Proof.
  intros Hf Hr Ho Ha.
  pose proof (run_inv get_eap_user eap_conf secrets evs d (fresh_inv get_eap_user secrets d Hf) mem d' mem' Hr) as [_ Hl].
  rewrite Ho in Hl. destruct (log_sent _ _ l1 p o to l2 Hl Ha) as (p' & ci & -> & Hc).
  exists p', ci. split; [done|]. split.
  - destruct Hc as [(e & He & e' & H1 & H2)|Hc]; [left|by right]. exists e, e'. by split.
  - intros p1 ci1 m Hin. apply List.in_split in Hin as (k1 & k2 & ->).
    rewrite app_comm_cons, app_assoc in Hl. by apply log_taken in Hl.
Qed.
End composition.

(** ** Witnesses *)

Abbreviation demo_session_engine := (eap_sm eap_method method_data).
#[local] Instance demo_radius_eap : EapEngine demo_session_engine :=
  eap_engine (EM := demo_methods false) (CB := demo_callbacks false) demo_env.
#[local] Instance demo_radius_eap_laws : EapEngineLaws demo_session_engine :=
  eap_engine_laws (EM := demo_methods false) (CB := demo_callbacks false) (ML := demo_laws false) demo_env.
#[local] Instance demo_radius_engine : RadiusEngine demo_session_engine :=
  radius_eap_engine (EM := demo_methods false) (CB := demo_callbacks false) (fun _ => []).

(** What a run gives when it does not stop. *)
Definition outcome_of {A} (e : run A) (default : A) : A :=
  match e [] with Go a _ => a | Halt _ => default end.

Definition demo_none : radius_msg := mk_msg (mk_wpabuf 0 [] 0) [] 0.
Definition demo_secret : list Z := chars "radius"%string.

(** A request of the access point, with the octets of its authenticator equal. *)
Definition demo_request (id v : Z) (l : list (Z * list Z)) : radius_msg :=
  outcome_of (
    m ← radius_msg_new RADIUS_CODE_ACCESS_REQUEST id;
    '(_, m) ← add_accept_attrs (set_authenticator (replicate 16 v) (default demo_none m)) l;
    '(_, m) ← radius_msg_finish m (Some demo_secret);
    mret m) demo_none.

Definition demo_users (name : list Z) : option server_user :=
  option_map (fun u => mk_server_user u []) (demo_get_user name 0).
Definition demo_nas : sockaddr := mk_sockaddr 0x7f000001 [] (chars "127.0.0.1"%string) 1812.
Definition demo_radius_conf : eap_config := mk_eap_config demo_params true true false None.
Definition demo_server : radius_server_data demo_session_engine :=
  mk_server demo_session_engine
    [mk_client demo_session_engine 0x7f000001 0xffffffff [] [] demo_secret [] no_counters]
    1 0 false no_counters (mk_eloop (mk_reltime 100 0) []) 1000 [].

Definition demo_first : radius_msg :=
  demo_request 1 7 [(RADIUS_ATTR_USER_NAME, chars "user"%string);
                    (RADIUS_ATTR_EAP_MESSAGE, demo_response 76 EAP_TYPE_IDENTITY (chars "user"%string))].
Definition demo_second : radius_msg :=
  demo_request 2 8 [(RADIUS_ATTR_USER_NAME, chars "user"%string); (RADIUS_ATTR_STATE, [0; 0; 0; 1]);
                    (RADIUS_ATTR_EAP_MESSAGE, demo_response 77 EAP_TYPE_GTC (chars "secret"%string))].
Definition demo_events : list server_event :=
  [auth_datagram (Some 1) demo_nas (octets demo_first); auth_datagram (Some 1) demo_nas (octets demo_second)].
Definition demo_end : radius_server_data demo_session_engine :=
  outcome_of (server_run demo_users demo_radius_conf demo_events demo_server) demo_server.

Definition last_sent {E} (d : radius_server_data E) : list Z :=
  match out d with sent _ o _ :: _ => o | _ => [] end.
Definition demo_accept : list Z := last_sent demo_end.
Definition demo_before : list (server_out demo_session_engine) := tail (out demo_end).

Lemma demo_runs : server_run demo_users demo_radius_conf demo_events demo_server [] = Go demo_end [].
Proof. vm_compute. reflexivity. Qed.
Lemma demo_end_out : out demo_end = [] ++ sent (Some 1000) demo_accept demo_nas :: demo_before.
Proof. vm_compute. reflexivity. Qed.
Lemma demo_accept_code : starts RADIUS_CODE_ACCESS_ACCEPT demo_accept.
Proof. eexists. vm_compute. reflexivity. Qed.
Lemma demo_fresh : fresh_server [demo_secret] demo_server.
Proof. split; [reflexivity|]. split; [by constructor|reflexivity]. Qed.

Lemma radius_accept_authority_witness :
  exists p' ci, Some 1000 = Some p' /\
    ((exists e e', List.In (stepped p' e) demo_before /\
        List.In e' (step_states (EM := demo_methods false) (CB := demo_callbacks false) step_fuel e) /\
        eap_authority (EM := demo_methods false) (CB := demo_callbacks false) e') \/
     shown demo_users [demo_secret] p' ci demo_before) /\
    (forall p1 ci1 m, List.In (taken p1 ci1 m) demo_before ->
      exists secret, [demo_secret] !! ci1 = Some secret /\ authentic secret m).
Proof.
  exact (radius_accept_authority (EM := demo_methods false) (CB := demo_callbacks false) (ML := demo_laws false)
    demo_env (fun _ => []) demo_users demo_radius_conf [demo_secret] demo_events demo_server demo_end [] []
    [] (Some 1000) demo_accept demo_nas demo_before demo_fresh demo_runs demo_end_out demo_accept_code).
Defined.

(** The header and the attributes of a message. *)
Definition header_in (m : radius_msg) : header :=
  mk_header (hdr_code m) (hdr_identifier m) (slice (octets m) 2 2) (hdr_authenticator m).
Definition attributes_in (m : radius_msg) : list (Z * list Z) :=
  map (fun p => (attr_type m p, slice (octets m) (p + 2) (attr_length m p - 2))) (attr_pos m).

#[local] Instance fits_dec (a : Z * list Z) : Decision (fits a).
Proof. unfold fits, byte, bytes, byte. apply _. Defined.

(** What a message holds can be computed. *)
Lemma holds_computed m :
  let h := header_in m in let l := attributes_in m in
  bool_decide (Forall (fun v => 0 <= v < 256) (hdr_octets h)) &&
  bool_decide (zlen (length_field h) = 2) && bool_decide (zlen (authenticator h) = 16) &&
  bool_decide (Forall fits l) && bool_decide (octets m = hdr_octets h ++ encs l) &&
  bool_decide (attr_pos m = positions 20 l) && (zlen (octets m) <=? size (buf m)) && (size (buf m) <? 2 ^ 62) = true ->
  holds m h l.
Proof.
  cbv zeta. set (h := header_in m). set (l := attributes_in m). clearbody h l. intros H.
  repeat (apply andb_prop in H as [H ?H]).
  repeat match goal with K : bool_decide _ = true |- _ => apply bool_decide_eq_true in K end.
  unfold hdr_octets in H. apply Forall_app in H as [Hc H]. apply Forall_app in H as [Hl Ha].
  apply Forall_cons in Hc as [Hc Hi]. apply Forall_cons in Hi as [Hi _].
  split; [split; try assumption; by split|assumption..|]. split; [by apply Z.leb_le|by apply Z.ltb_lt].
Qed.

(** The reply, as a datagram that the access point receives. *)
Definition demo_reply : list Z := Eval vm_compute in demo_accept.
Definition demo_reply_msg : radius_msg := Eval vm_compute in default demo_none (outcome_of (radius_msg_parse demo_accept) None).
Definition demo_sent : radius_msg := Eval vm_compute in demo_second.

Lemma demo_sent_holds : holds demo_sent (header_in demo_sent) (attributes_in demo_sent).
Proof. apply holds_computed. vm_compute. reflexivity. Qed.
Lemma demo_reply_holds : holds demo_reply_msg (header_in demo_reply_msg) (attributes_in demo_reply_msg).
Proof. apply holds_computed. vm_compute. reflexivity. Qed.
Lemma demo_reply_decodes : decodes demo_reply (header_in demo_reply_msg) (attributes_in demo_reply_msg).
Proof. apply (holds_decodes _ _ _ demo_reply_holds); vm_compute; reflexivity. Qed.
Lemma demo_reply_bytes : bytes demo_reply.
Proof. exact (holds_bytes _ _ _ demo_reply_holds). Qed.
Lemma demo_reply_sized : ma_sized (attributes_in demo_reply_msg).
Proof. repeat (apply Forall_cons; split; [vm_compute; first [reflexivity|discriminate]|]). apply Forall_nil. exact I. Qed.


Lemma demo_reply_valid :
  radius_msg_verify demo_reply_msg demo_secret (Some demo_sent) true [] = Go (false, demo_reply_msg) [].
Proof. vm_compute. reflexivity. Qed.


(** A Message-Authenticator of two octets. *)
Definition demo_short : list Z :=
  [RADIUS_CODE_ACCESS_REQUEST; 5; 0; 24] ++ replicate 16 9 ++ [MA; 4; 1; 2].
Definition demo_short_header : header := mk_header RADIUS_CODE_ACCESS_REQUEST 5 [0; 24] (replicate 16 9).

Lemma demo_short_decodes : decodes demo_short demo_short_header ([] ++ [(MA, [1; 2])]).
Proof.
  split; [|split; [|split; [vm_compute; reflexivity|exists []; vm_compute; reflexivity]]].
  - split; try split; first [apply (bool_decide_unpack _); vm_compute; exact I|vm_compute; reflexivity|split; [discriminate|reflexivity]].
  - apply (bool_decide_unpack _). vm_compute. exact I.
Qed.
Lemma demo_short_bytes : bytes demo_short.
Proof. apply (bool_decide_unpack _). vm_compute. exact I. Qed.
Lemma demo_server_client : exists c, radius_server_get_client demo_server demo_nas = Some O /\ clients demo_server !! O = Some c.
Proof. eexists. split; [vm_compute; reflexivity|reflexivity]. Qed.

Lemma radius_short_mac_outside_witness :
  radius_server_receive_auth demo_users demo_radius_conf (Some 1) demo_nas demo_short demo_server [] = Halt OutOfBounds.
Proof.
  destruct demo_server_client as (c & H1 & H2).
  apply (radius_short_mac_outside demo_users demo_radius_conf (Some 1) demo_nas demo_short demo_short_header []
    [1; 2] demo_server O c demo_short_bytes); [discriminate|exact demo_short_decodes|reflexivity|apply Forall_nil; exact I|
    reflexivity|exact H1|exact H2].
Defined.

(** An EAP server that has accepted the peer, with a key of 64 octets. *)
Definition demo_msk : list Z := List.map Z.of_nat (List.seq 1 64).
Definition demo_eap_success : list Z := [3; 77; 0; 4].
Definition demo_accepting : demo_session_engine :=
  setter EapServer.eap_if (eapSuccess ::= true ;; eapReqData ::= Some (mk_wpabuf 4 demo_eap_success 0) ;;
    eapKeyData ::= Some demo_msk ;; eapKeyDataLen ::= 64)%cmd demo_sm.
Definition demo_session : radius_session demo_session_engine :=
  mk_session demo_session_engine 1000 1 None (chars "user"%string) [] None None demo_nas 0 0 None
    (replicate 16 0) false [(RADIUS_ATTR_SESSION_TIMEOUT, [0; 0; 14; 16])].
Definition demo_client : radius_client demo_session_engine :=
  mk_client demo_session_engine 0x7f000001 0xffffffff [] [] demo_secret [] no_counters.

Lemma demo_accepting_ok : accepting demo_accepting demo_eap_success demo_msk.
Proof.
  split; try reflexivity.
  - eexists. split; reflexivity.
  - split; apply (bool_decide_unpack _); vm_compute; exact I.
  - split; [reflexivity|discriminate].
Qed.
Lemma demo_attrs_plain : Forall plain (accept_attr demo_session).
Proof.
  apply Forall_cons. split; [|apply Forall_nil; exact I].
  split; [apply (bool_decide_unpack _); vm_compute; exact I|split; discriminate].
Qed.

Lemma access_accept_delivers_witness :
  exists m e' m' b,
    radius_server_encapsulate_eap (Some 5) demo_client demo_session demo_accepting demo_sent [] = Go (Some m, e') [] /\
    radius_msg_parse (octets m) [] = Go (Some m') [] /\
    hdr_code m' = RADIUS_CODE_ACCESS_ACCEPT /\ hdr_identifier m' = hdr_identifier demo_sent /\
    radius_msg_verify m' demo_secret (Some demo_sent) true [] = Go (false, m') [] /\
    radius_msg_get_eap (Some m') [] = Go (Some b) [] /\ data b = demo_eap_success /\
    radius_msg_get_ms_keys (Some m') (Some demo_sent) demo_secret [] =
      Go (Some (mk_mppe_keys (Some (slice demo_msk 32 32)) (Some (slice demo_msk 0 32)))) [].
Proof.
  apply (access_accept_delivers 5 demo_client demo_session demo_accepting demo_sent demo_sent _ _ demo_eap_success
    demo_msk demo_sent_holds demo_sent_holds demo_accepting_ok demo_attrs_plain); [vm_compute; discriminate|discriminate].
Defined.

(** A request without State, and one with it, when the second allocation for
    the session fails. *)
Lemma radius_session_dangling_witness :
  exists d', radius_server_get_new_session demo_users demo_radius_conf demo_server O demo_sent [] [false; true] = Go (None, d') [] /\
    (forall c2 mem2, radius_server_request demo_users demo_radius_conf (Some 1) d' demo_sent demo_nas O c2 
      (received_text []) None mem2 = Halt UseAfterFree).
Proof.
  destruct demo_server_client as (c & _ & H2).
  refine (radius_session_dangling demo_users demo_radius_conf (Some 1) O c demo_server demo_sent 22 4 _ [] [false; true]
    demo_sent demo_nas (received_text []) H2 _ _ _ _ _).
  - reflexivity.
  - vm_compute. reflexivity.
  - vm_compute. reflexivity.
  - by left.
  - vm_compute. reflexivity.
Defined.
