(* ===== verification/RadiusClientProperties.v ===== *)
(** * The RADIUS client: its properties

    The requests of the access point and the responses to them, end to end:
    what the server reads from a request, what a response can do to a station,
    and that the access point has the server's key after an Access-Accept; and
    the queue of the client: its timer ends, and where its memory is not
    safe. *)

From Stdlib Require Import String.
From S2P Require Import Prelude.
From S2P Require Import Eloop.
From S2P Require Import Wpabuf.
From S2P Require Import Common.
From S2P Require Import EapCommon.
From S2P Require Import EapServer.
From S2P Require Import EapolAuth.
From S2P Require Import EapolPort.
From S2P Require Import Ieee8021x.
From S2P Require Import EapMethods.
From S2P Require Import EapProperties.
From S2P Require Import EapolEap.
From S2P Require Import EapolProperties.
From S2P Require Import Hash.
From S2P Require Import RadiusMsg.
From S2P Require Import RadiusServer.
From S2P Require Import RadiusClient.
From S2P Require Import RadiusReplies.
From S2P Require Import RadiusAuthority.
From S2P Require Import RadiusAttrs.
From S2P Require Import RadiusQueue.
From S2P Require Import RadiusAp.
From S2P Require Import RadiusAccess.
From S2P Require Import RadiusRequest.
From S2P Require Import RadiusEap.
From S2P Require Import RadiusProperties.

(** ** Requests and responses *)

Section access_point.
Context {E : Type} `{EE : !EapEngine E, EL : !EapEngineLaws E, EI : !EapIdentity E}.
Implicit Types (cf : radius_bss) (s : radius_sta E) (d : radius_client_data).

(** C17: An EAP message of a station reaches the authentication server as it is.
    The access point sends one datagram and keeps it as the newest pending
    request under a fresh identifier, for which the station waits; the server
    parses the datagram, finds its Message-Authenticator valid, and reads from
    it the EAP message, and the State of the Access-Challenge before it
    exactly if the station's last response was one. *)
Theorem access_request_delivers cf a eap_msg d s sm s1 secret ll :
  let id := next_radius_identifier d in
  let s2 := waiting id s1 in
  eapol_machine (port s) = Some sm -> wp true (ieee802_1x_learn_identity eap_msg s sm) (fun r => r = s1) ->
  connected d secret -> byte id -> bytes a -> zlen a = 16 -> bytes eap_msg -> eap_msg <> [] ->
  sendable cf s2 ll -> Forall (fun a => a.1 <> RADIUS_ATTR_STATE) (request_attrs cf s2) ->
  attrs_len cf s2 ll + 3 * zlen eap_msg <= 65000 ->
  exists d' m e rest h l m' b,
    ieee802_1x_encapsulate_radius cf (Some a) eap_msg d s [] = Go (d', s2) [] /\
    rc_out d' = datagram RADIUS_AUTH (octets m) :: rc_out d /\ msgs d' = e :: rest /\
    e_msg e = m /\ e_secret e = secret /\ matches RADIUS_AUTH id e = true /\
    holds m h l /\ hdr_authenticator m = a /\
    radius_msg_parse (octets m) [] = Go (Some m') [] /\ holds m' h l /\
    hdr_code m' = RADIUS_CODE_ACCESS_REQUEST /\ hdr_identifier m' = id /\
    radius_msg_verify_msg_auth m' secret None [] = Go (false, m') [] /\
    radius_msg_get_eap (Some m') [] = Go (Some b) [] /\ data b = eap_msg /\
    of_type RADIUS_ATTR_STATE l = state_attrs s2 ll.
Proof.
  intros id s2 Em Hl Hc Hid Ha Za He Hne Hs Hst Hz.
  destruct (wp_clean _ _ (encapsulate_wp cf a eap_msg d s sm s1 secret ll Em Hl Hc Hid Ha Za He Hs Hst Hz))
    as ([d' s'] & E1 & -> & m & h & l & [Q1 (e & rest & Q2 & Q3 & Q4 & Q5)] & R & Eh).
  destruct R as [R1 R2 R3 R4 R5 R6]. destruct (wp_clean _ _ R6) as (r & E2 & m' & -> & H' & W).
  destruct (wp_clean _ _ W) as (v & E3 & ->). destruct (wp_clean _ _ (get_eap_wp true m' h l H')) as (b & E4 & Hb).
  rewrite R4 in Hb. destruct b as [b|]; [|by destruct Hb]. destruct Hb as [Hb _].
  destruct (holds_header _ _ _ R1) as (_ & Ei & Ea & _). destruct (holds_header _ _ _ H') as (Ec' & Ei' & _).
  exists d', m, e, rest, h, l, m', b. split; [exact E1|]. split; [exact Q1|]. split; [exact Q2|].
  split; [exact Q3|]. split; [exact Q4|]. split.
  { unfold matches. by rewrite Q5, Q3, Ei, R3, Z.eqb_refl. }
  split; [exact R1|]. split; [by rewrite Ea|]. split; [exact E2|]. split; [exact H'|].
  split; [by rewrite Ec'|]. split; [by rewrite Ei'|]. split; [exact E3|]. split; [exact E4|]. by split.
Qed.

(** C4: What a datagram on the authentication socket can do to the stations,
    whatever it is and however allocations fail.  It changes at most one
    station, one that waits for the answer to a pending request with the
    datagram's identifier.  Success and key reach the machine of that station
    only with an Access-Accept, and an EAP message only with a response, whose
    authenticators are right for the pending request and its secret; the only
    other response that is taken is an Access-Reject without EAP message. *)
Theorem radius_response_authority cf acct o d (sts sts' : list (radius_sta E)) d' mem mem' :
  bytes o -> pending_ok d ->
  radius_client_receive [ieee802_1x_receive_auth cf] acct true o d sts mem = Go (d', sts') mem' ->
  sts' = sts \/
  exists h l e i s s', decodes o h l /\ List.In e (msgs d) /\ matches RADIUS_AUTH (identifier h) e = true /\
    sts !! i = Some s /\ waits_for (identifier h) s = true /\ sts' = <[i := s']> sts /\
    reached (e_secret e) (e_msg e) h l s s'.
Proof. intros Hb Hp Hr. exact (response_reached cf acct o d sts Hb Hp mem _ mem' Hr). Qed.

(** The key the access point has: the octets of the server's key that fit into
    the two attributes. *)
Lemma halves (key : list Z) half : 0 <= half -> slice key 0 half ++ slice key half half = slice key 0 (2 * half).
Proof.
  intros H. unfold slice. rewrite drop_0. replace (Z.to_nat (2 * half)) with (Z.to_nat half + Z.to_nat half)%nat by lia.
  apply list_eq. intros i. destruct (decide (i < length (take (Z.to_nat half) key))%nat) as [Hi|Hi].
  - rewrite lookup_app_l by done. rewrite length_take in Hi. rewrite !lookup_take_lt by lia. done.
  - rewrite lookup_app_r by lia. rewrite length_take in *. destruct (decide (length key <= Z.to_nat half)%nat).
    + rewrite (lookup_ge_None_2 (take (Z.to_nat half + Z.to_nat half) key)) by (rewrite length_take; lia).
      apply lookup_ge_None_2. rewrite length_take, length_drop. lia.
    + replace (Z.to_nat half `min` length key)%nat with (Z.to_nat half) in * by lia.
      destruct (decide (i < Z.to_nat half + Z.to_nat half)%nat).
      * rewrite !lookup_take_lt by lia. rewrite lookup_drop. f_equal. lia.
      * rewrite !lookup_take_ge by lia. done.
Qed.
End access_point.

Section agreement.
Context {T E : Type} `{TE : !EapEngine T, TL : !EapEngineLaws T, RE : !RadiusEngine T}.
Context `{EE : !EapEngine E, EL : !EapEngineLaws E, EI : !EapIdentity E}.

(** C5: The server and the access point agree on the outcome and the key.  When
    the EAP server of a session has accepted the peer, what the RADIUS server
    encapsulates for it, received by the access point that sent the request,
    ends that request; the station that waits for it gets success, the EAP
    message and the server's key (its first 64 octets if it is longer), and
    its machine is run. *)
Theorem radius_msk_agreement random (c : radius_client T) (s : radius_session T) (e : T) request hr lr eap_msg key
    cf acct (d : radius_client_data) (sts : list (radius_sta E)) i st req :
  holds request hr lr -> accepting e eap_msg key -> Forall plain (accept_attr s) ->
  3 * zlen eap_msg + zlen (encs (proxied lr)) + zlen (encs (accept_attr s)) <= 2400 -> 4 <= zlen eap_msg ->
  List.find (matches RADIUS_AUTH (identifier hr)) (msgs d) = Some req -> holds (e_msg req) hr lr ->
  e_secret req = shared_secret c -> dynamic_vlan cf = DYNAMIC_VLAN_DISABLED ->
  search_station (identifier hr) sts = Some (i, st) ->
  let key' := slice key 0 (2 * key_half (zlen key)) in
  exists m e' d' st' sm i' b,
    radius_server_encapsulate_eap (Some random) c s e request [] = Go (Some m, e') [] /\
    radius_client_receive [ieee802_1x_receive_auth cf] acct true (octets m) d sts [] = Go (d', <[i := st']> sts) [] /\
    msgs d' = List.filter (fun x => negb (e_self x =? e_self req)) (msgs d) /\
    eapol_machine (port st') = Some (eapol_auth_step sm) /\ iface st' = Some i' /\
    aaaSuccess i' = true /\ aaaEapKeyAvailable i' = true /\
    aaaEapKeyData i' = Some key' /\ aaaEapKeyDataLen i' = zlen key' /\
    aaaEapReqData i' = Some b /\ data b = eap_msg /\ aaaEapReq i' = false.
Proof.
  intros Hr Ha Hp Hz Hz4 Hf Hreq Hsec Hv Hst key'.
  destruct (accept_reads random c s e request hr lr eap_msg key Hr Ha Hp) as (m & e' & m' & h' & l' & E1 & L & E2 & R); [lia|].
  destruct (holds_header _ _ _ (reads_holds _ _ _ _ _ _ _ _ R)) as (_ & Ei & _).
  rewrite <- (reads_id _ _ _ _ _ _ _ _ R), <- Ei in Hf.
  pose proof (receive_accept_wp cf m' h' l' (e_msg req) hr lr (shared_secret c) key eap_msg sts i st Hv R Hreq Hst Hz4) as W.
  rewrite <- Hsec in W.
  destruct (wp_clean _ _ (client_receive_wp (ieee802_1x_receive_auth cf) acct (octets m) d sts m' req
    (accepted_at i st _ eap_msg sts) ltac:(lia) E2 Hf W))
    as ([d' sts'] & E3 & Em & st' & b & s0 & -> & Hb & E4 & E5).
  destruct (search_found _ _ _ _ Hst) as [_ Hw]. unfold waits_for in Hw. unfold iface in E5 at 2.
  destruct (eapol_machine (port st)) as [sm0|]; [|done]. cbn [option_map] in E5.
  assert (Hk : slice key 0 (key_half (zlen key)) ++ slice key (key_half (zlen key)) (key_half (zlen key)) = key').
  { apply halves. destruct (key_half_bound (zlen key)) as [? _]; [apply Ha|lia]. }
  rewrite Hk in E5. set (i' := accepted_if key' b _) in E5.
  destruct (eapol_machine (port s0)) as [sm|] eqn:E0.
  2: { rewrite E4 in E5. unfold iface in E5. rewrite on_machine_machine, E0 in E5. discriminate E5. }
  exists m, e', d', st', sm, i', b. split; [exact E1|]. split; [exact E3|]. split; [exact Em|].
  split; [by rewrite E4, on_machine_machine, E0|]. split; [exact E5|]. by repeat split.
Qed.
End agreement.

(** ** The queue *)

(** The operation stops the process. *)
Definition dangles {A} (e : run A) : Prop := forall mem, e mem = Halt UseAfterFree.

Lemma dangles_then {A B} (e : run A) (f : A -> run B) : dangles e -> dangles (e ≫= f).
Proof. intros H mem. unfold mbind, run_bind. by rewrite H. Qed.
Lemma dangles_ret {A B} (a : A) (f : A -> run B) : dangles (f a) -> dangles (mret a ≫= f).
Proof. intros H mem. exact (H mem). Qed.

Lemma find_gone l p : ~ List.In p (map e_self l) -> dangles (find_entry l p).
Proof.
  induction l as [|e l IH]; intros H; cbn [find_entry map] in *; [done|]. destruct (Z.eqb_spec (e_self e) p) as [Ee|Ee].
  - destruct H. by left.
  - apply IH. intros Hi. apply H. by right.
Qed.

Lemma find_head e l : find_entry (e :: l) (e_self e) = mret e.
Proof. cbn [find_entry]. by rewrite Z.eqb_refl. Qed.

(** The request that is renewed has the identifier that is next. *)
Lemma renew_dangles e l d pos now :
  msgs d = e :: l -> queue_ok d -> hdr_identifier (e_msg e) = next_radius_identifier d ->
  dangles (renew_accounting (e_self e) pos now d).
Proof.
  intros Em Hq Hid. unfold renew_accounting, radius_client_get_id. cbv zeta. apply dangles_then, find_gone.
  change (msgs (setter msgs ?f ?x)) with (f (msgs d)). cbv beta. rewrite Em. cbn [List.filter].
  rewrite Hid, Z.eqb_refl. cbn [negb]. intros Hin. apply in_map_iff in Hin as (x & Ex & Hx). apply filter_In in Hx as [Hx _].
  pose proof (q_nodup _ Hq) as Hn. rewrite selfs_msgs, Em in Hn. cbn [map] in Hn. apply NoDup_cons in Hn as [Hn _].
  apply Hn. rewrite <- Ex. by apply list_elem_of_In, in_map.
Qed.

(** C40: When the counter of identifiers has come round to the identifier of
    the newest pending request, an accounting request that is due, the retransmission
    frees the very request it renews: [radius_client_get_id] removes the
    pending requests with the new identifier, and the timer goes on writing to
    the freed memory. *)
Theorem radius_renewal_dangling e l d pos :
  queue_ok d -> msgs d = e :: l -> next_try e <= now_sec d -> msg_type e = RADIUS_ACCT ->
  radius_msg_get_attr_ptr (e_msg e) RADIUS_ATTR_ACCT_DELAY_TIME None = Some (pos, 4) ->
  hdr_identifier (e_msg e) = next_radius_identifier d -> non_null (sock (rc_acct d)) = true ->
  forall mem, radius_client_timer d mem = Halt UseAfterFree.
Proof.
  intros Hq Em Hdue Ht Ha Hid Hs. change (dangles (radius_client_timer d)). unfold radius_client_timer. rewrite Em. cbv zeta.
  apply dangles_then. unfold timer_fuel. rewrite Nat.add_comm. cbn [Nat.add timer_loop].
  unfold first_entry. rewrite Em. cbn [head option_map]. rewrite find_head. apply dangles_ret.
  destruct (Z.leb_spec (next_try e) (now_sec d)); [|lia]. apply dangles_then. unfold radius_client_retransmit.
  rewrite Em, find_head. apply dangles_ret. rewrite Ht. change (is_auth RADIUS_ACCT) with false. cbv iota zeta.
  change (side false d) with (rc_acct d). rewrite Hs. apply dangles_ret.
  change (side false d) with (rc_acct d). rewrite Hs. cbn [negb andb]. apply dangles_ret. rewrite Z.eqb_refl. cbn [negb].
  rewrite Em, find_head. apply dangles_ret. rewrite Ht. change (bool_decide (RADIUS_ACCT = RADIUS_ACCT_INTERIM)) with false.
  cbv iota. set (d1 := if attempts e =? 0 then _ else _).
  assert (Hc : calm d d1) by (unfold d1; calms).
  assert (H1 : msgs d1 = e :: l /\ next_radius_identifier d1 = next_radius_identifier d /\ sock (rc_acct d1) = sock (rc_acct d)).
  { rewrite <- Em. unfold d1, count, on_server, set_side. destruct (attempts e =? 0), d as [? [? [] ? ? ?] ? ? ? ? ? ? ? ? ? ?]; done. }
  clearbody d1. destruct H1 as (Em1 & Hn1 & Hs1). change (side false d1) with (rc_acct d1). rewrite Hs1, Hs.
  unfold resend. rewrite Em1, find_head. apply dangles_ret. rewrite Ha, Ht.
  change (bool_decide (RADIUS_ACCT = RADIUS_ACCT) && (4 =? 4)) with true. cbv iota. apply dangles_then.
  apply (renew_dangles e l); [done|by apply (calm_ok d)|congruence].
Qed.


(** ** Witnesses *)

#[local] Existing Instance demo_radius_eap.
#[local] Existing Instance demo_radius_eap_laws.
#[local] Existing Instance demo_radius_engine.
#[local] Instance demo_identity : EapIdentity demo_session_engine :=
  eap_engine_identity.

(** A client with one server for authentication and one for accounting, both
    connected. *)
Definition demo_rserver : hostapd_radius_server :=
  mk_radius_server AF_INET (Some demo_secret) 0 0 0 0 0 0 0 0 0 0 0.
Definition demo_side : serv_side := mk_side [demo_rserver] (Some O) true false (Some AF_INET).
Definition demo_rc (l : list radius_msg_list) (id : Z) : radius_client_data :=
  mk_rc demo_side demo_side 0 None false l (zlen l) id (mk_eloop (mk_reltime 100 0) []) false 2 [].

(** The configuration of the access point, and a station whose EAP server has
    seen its identity. *)
Definition demo_radius_bss : radius_bss :=
  mk_radius_bss true DYNAMIC_VLAN_DISABLED [] 0 [] (Some (false, [127; 0; 0; 1])) (Some (chars "ap"%string))
    [2; 0; 0; 0; 0; 9] (chars "net"%string) 2 false 16 false 32 false true (chars "802.11g"%string).
Definition demo_identity_response : list Z := demo_response 76 EAP_TYPE_IDENTITY (chars "user"%string).
Definition demo_station (id : Z) : radius_sta demo_session_engine :=
  let m := setter radius_identifier (fun _ => id)
             (setter EapolAuth.eap (setter EapServer.identity (fun _ => Some (chars "user"%string)) ;;
                                    setter EapServer.identity_len (fun _ => 4))%cmd demo_port) in
  mk_radius_sta _ (setter eapol_machine (fun _ => Some m)
      (mk_sta _ [2; 0; 0; 0; 0; 1] 0 None None None [] [] false 0 None None None None [] false demo_loop))
    None None false 0 0 0 1 [12; 24] 2 16 [].
Definition demo_machine (s : radius_sta demo_session_engine) : eapol_sm demo_session_engine :=
  default demo_port (eapol_machine (port s)).

Definition demo_octets : list Z := replicate 16 9.
Definition demo_learned : radius_sta demo_session_engine :=
  outcome_of (ieee802_1x_learn_identity demo_identity_response (demo_station (-1)) (demo_machine (demo_station (-1)))) (demo_station (-1)).
Definition demo_waits : radius_sta demo_session_engine := waiting 7 demo_learned.

Lemma demo_learns : ieee802_1x_learn_identity demo_identity_response (demo_station (-1)) (demo_machine (demo_station (-1))) [] =
  Go demo_learned [].
Proof. vm_compute. reflexivity. Qed.
Definition demo_request_attrs : list (Z * list Z) := Eval vm_compute in request_attrs demo_radius_bss demo_waits.
Lemma demo_attrs : request_attrs demo_radius_bss demo_waits = demo_request_attrs.
Proof. vm_compute. reflexivity. Qed.

#[local] Existing Instance fits_dec.
#[local] Instance plain_dec (a : Z * list Z) : Decision (plain a).
Proof. unfold plain. apply _. Defined.

Lemma demo_request_plain : Forall plain demo_request_attrs.
Proof. apply (bool_decide_unpack _). vm_compute. exact I. Qed.
Lemma demo_request_no_state : Forall (fun a : Z * list Z => a.1 <> RADIUS_ATTR_STATE) demo_request_attrs.
Proof. apply (bool_decide_unpack _). vm_compute. exact I. Qed.
Lemma demo_cui_plain : Forall plain (cui_attrs demo_radius_bss demo_waits).
Proof. apply (bool_decide_unpack _). vm_compute. exact I. Qed.
Lemma demo_sendable : sendable demo_radius_bss demo_waits [].
Proof.
  split; [rewrite demo_attrs; exact demo_request_plain| |exact demo_cui_plain].
  intros last Hl. assert (H : last_recv_radius demo_waits = None) by (vm_compute; reflexivity). by rewrite H in Hl.
Qed.
Lemma demo_attrs_len : attrs_len demo_radius_bss demo_waits [] + 3 * zlen demo_identity_response <= 65000.
Proof. vm_compute. discriminate. Qed.
Lemma demo_connected : connected (demo_rc [] 7) demo_secret.
Proof. split; [exists demo_rserver; by split|reflexivity|reflexivity]. Qed.
Lemma demo_octets_ok : bytes demo_octets /\ bytes demo_identity_response.
Proof. split; apply (bool_decide_unpack _); vm_compute; exact I. Qed.

Lemma access_request_delivers_witness :
  exists d' m e rest h l m' b,
    ieee802_1x_encapsulate_radius demo_radius_bss (Some demo_octets) demo_identity_response (demo_rc [] 7)
      (demo_station (-1)) [] = Go (d', demo_waits) [] /\
    rc_out d' = datagram RADIUS_AUTH (octets m) :: [] /\ msgs d' = e :: rest /\
    e_msg e = m /\ e_secret e = demo_secret /\ matches RADIUS_AUTH 7 e = true /\
    holds m h l /\ hdr_authenticator m = demo_octets /\
    radius_msg_parse (octets m) [] = Go (Some m') [] /\ holds m' h l /\
    hdr_code m' = RADIUS_CODE_ACCESS_REQUEST /\ hdr_identifier m' = 7 /\
    radius_msg_verify_msg_auth m' demo_secret None [] = Go (false, m') [] /\
    radius_msg_get_eap (Some m') [] = Go (Some b) [] /\ data b = demo_identity_response /\
    of_type RADIUS_ATTR_STATE l = state_attrs demo_waits [].
Proof.
  apply (access_request_delivers demo_radius_bss demo_octets demo_identity_response (demo_rc [] 7) (demo_station (-1))
    (demo_machine (demo_station (-1))) demo_learned demo_secret []).
  - reflexivity.
  - exact (wp_of_go _ _ _ demo_learns eq_refl).
  - exact demo_connected.
  - by split.
  - apply demo_octets_ok.
  - reflexivity.
  - apply demo_octets_ok.
  - discriminate.
  - exact demo_sendable.
  - change (Forall (fun a : Z * list Z => a.1 <> RADIUS_ATTR_STATE) (request_attrs demo_radius_bss demo_waits)).
    rewrite demo_attrs. exact demo_request_no_state.
  - exact demo_attrs_len.
Defined.

(** The pending request that the server has answered with [demo_reply]. *)
Definition demo_entry : radius_msg_list :=
  mk_entry 1 [2; 0; 0; 0; 0; 1] demo_sent RADIUS_AUTH 100 103 1 6 (mk_reltime 100 0) demo_secret.
Definition demo_pending : radius_client_data := demo_rc [demo_entry] 3.
Definition demo_stations : list (radius_sta demo_session_engine) := [demo_station 2].

Lemma demo_answers : List.find (matches RADIUS_AUTH (identifier (header_in demo_sent))) (msgs demo_pending) = Some demo_entry.
Proof. vm_compute. reflexivity. Qed.

Lemma radius_msk_agreement_witness :
  exists m e' d' st' sm i' b,
    radius_server_encapsulate_eap (Some 5) demo_client demo_session demo_accepting demo_sent [] = Go (Some m, e') [] /\
    radius_client_receive [ieee802_1x_receive_auth demo_radius_bss] [] true (octets m) demo_pending demo_stations [] =
      Go (d', <[O := st']> demo_stations) [] /\
    msgs d' = List.filter (fun x => negb (e_self x =? e_self demo_entry)) (msgs demo_pending) /\
    eapol_machine (port st') = Some (eapol_auth_step sm) /\ iface st' = Some i' /\
    aaaSuccess i' = true /\ aaaEapKeyAvailable i' = true /\
    aaaEapKeyData i' = Some (slice demo_msk 0 64) /\ aaaEapKeyDataLen i' = zlen (slice demo_msk 0 64) /\
    aaaEapReqData i' = Some b /\ data b = demo_eap_success /\ aaaEapReq i' = false.
Proof.
  apply (radius_msk_agreement 5 demo_client demo_session demo_accepting demo_sent (header_in demo_sent)
    (attributes_in demo_sent) demo_eap_success demo_msk demo_radius_bss [] demo_pending demo_stations O (demo_station 2)
    demo_entry demo_sent_holds demo_accepting_ok demo_attrs_plain).
  - vm_compute. discriminate.
  - vm_compute. discriminate.
  - exact demo_answers.
  - exact demo_sent_holds.
  - reflexivity.
  - reflexivity.
  - vm_compute. reflexivity.
Defined.

Definition demo_received : radius_client_data * list (radius_sta demo_session_engine) :=
  outcome_of (radius_client_receive [ieee802_1x_receive_auth demo_radius_bss] [] true demo_reply demo_pending demo_stations)
    (demo_pending, demo_stations).
Lemma demo_receives :
  radius_client_receive [ieee802_1x_receive_auth demo_radius_bss] [] true demo_reply demo_pending demo_stations [] =
    Go (fst demo_received, snd demo_received) [].
Proof. vm_compute. reflexivity. Qed.
Lemma demo_pending_ok : pending_ok demo_pending.
Proof.
  apply Forall_cons. split; [|apply Forall_nil; exact I].
  exists (header_in demo_sent), (attributes_in demo_sent). exact demo_sent_holds.
Qed.
Lemma demo_received_success : option_map aaaSuccess (head (snd demo_received) ≫= iface) = Some true.
Proof. vm_compute. reflexivity. Qed.

Lemma radius_response_authority_witness :
  option_map aaaSuccess (head (snd demo_received) ≫= iface) = Some true /\
  (snd demo_received = demo_stations \/
   exists h l e i s s', decodes demo_reply h l /\ List.In e (msgs demo_pending) /\
     matches RADIUS_AUTH (identifier h) e = true /\
     demo_stations !! i = Some s /\ waits_for (identifier h) s = true /\ snd demo_received = <[i := s']> demo_stations /\
     reached (e_secret e) (e_msg e) h l s s').
Proof.
  split; [exact demo_received_success|].
  exact (radius_response_authority demo_radius_bss [] demo_reply demo_pending demo_stations (snd demo_received)
    (fst demo_received) [] [] demo_reply_bytes demo_pending_ok demo_receives).
Defined.

(** An accounting request with the identifier that is next. *)
Definition demo_acct : radius_msg := Eval vm_compute in
  outcome_of (
    m ← radius_msg_new RADIUS_CODE_ACCOUNTING_REQUEST 9;
    '(_, m) ← radius_msg_add_attr_int32 (default demo_none m) RADIUS_ATTR_ACCT_DELAY_TIME 0;
    mret (radius_msg_finish_acct m demo_secret)) demo_none.
Definition demo_acct_entry : radius_msg_list :=
  mk_entry 1 [2; 0; 0; 0; 0; 1] demo_acct RADIUS_ACCT 90 93 1 6 (mk_reltime 90 0) demo_secret.

Lemma demo_acct_queue : queue_ok (demo_rc [demo_acct_entry] 9).
Proof.
  split.
  - apply (bool_decide_unpack _). vm_compute. exact I.
  - apply (bool_decide_unpack _). vm_compute. exact I.
  - split; [discriminate|reflexivity].
Qed.

Lemma radius_renewal_dangling_witness :
  radius_client_timer (demo_rc [demo_acct_entry] 9) [] = Halt UseAfterFree.
Proof.
  apply (radius_renewal_dangling demo_acct_entry [] (demo_rc [demo_acct_entry] 9) 22 demo_acct_queue).
  - reflexivity.
  - vm_compute. discriminate.
  - reflexivity.
  - vm_compute. reflexivity.
  - reflexivity.
  - reflexivity.
Defined.

(** A client that starts, sends a request, and has its timeout twice. *)
Definition demo_start_client : option radius_client_data := Eval vm_compute in
  outcome_of (radius_client_init [demo_rserver; demo_rserver] [demo_rserver] (Some O) (Some O) 600 None
                (mk_eloop (mk_reltime 100 0) [])) None.
Definition demo_client_evs : list client_event :=
  [get_id; send_request demo_sent RADIUS_AUTH None; clock (mk_eloop (mk_reltime 104 0) []); timer_fires;
   clock (mk_eloop (mk_reltime 111 0) []); timer_fires].
Definition demo_no_handlers : list (radius_msg -> radius_msg -> list Z -> unit -> run (RadiusRxResult * unit)) := [].
Definition demo_client_end : option (radius_client_data * unit) :=
  outcome_of (client_run demo_no_handlers demo_no_handlers demo_client_evs (default (demo_rc [] 0) demo_start_client) ()) None.

Lemma demo_client_starts :
  radius_client_init [demo_rserver; demo_rserver] [demo_rserver] (Some O) (Some O) 600 None (mk_eloop (mk_reltime 100 0) []) [] =
    Go (Some (default (demo_rc [] 0) demo_start_client)) [].
Proof. vm_compute. reflexivity. Qed.
Lemma demo_client_runs :
  client_run demo_no_handlers demo_no_handlers demo_client_evs (default (demo_rc [] 0) demo_start_client) () [] =
    Go demo_client_end [].
Proof. vm_compute. reflexivity. Qed.
Lemma demo_client_sends : option_map (fun r => length (rc_out (fst r))) demo_client_end = Some 3%nat.
Proof. vm_compute. reflexivity. Qed.


(** ** What the code does not mean to do *)

(** An empty Class attribute hides the one that follows it, and an empty Class
    is stored: the search goes on behind the address of the value it returned,
    and the attribute after an empty value begins at that address. *)
Definition demo_classes : radius_msg :=
  outcome_of (
    m ← radius_msg_new RADIUS_CODE_ACCESS_ACCEPT 2;
    '(_, m) ← add_accept_attrs (default demo_none m) [(RADIUS_ATTR_CLASS, []); (RADIUS_ATTR_CLASS, chars "staff"%string)];
    mret m) demo_none.
Example empty_class_hides_next :
  radius_msg_count_attr demo_classes RADIUS_ATTR_CLASS 1 = 1 /\
  radius_class (outcome_of (ieee802_1x_store_radius_class demo_radius_bss demo_classes (demo_station 2)) (demo_station 2)) =
    Some [[]].
Proof. split; vm_compute; reflexivity. Qed.
